(* ===== verification/_CoqProject ===== *)
-Q . S2P
Prelude.v
Bytes.v
PageAlloc.v
Pmm.v
Heap.v
Mmu.v
Framing.v
Task.v
TaskEnv.v
BumpEnv.v
Sched.v
SchedInv.v
SchedThm.v
Rtos.v
Strings.v
Uart.v
Signal.v
Timer.v
Virtqueue.v
Vfs.v
Elf.v
Fat32.v
Pci.v
Blk.v
FatBlk.v
Vdev.v
NetFmt.v
Net.v
Proc.v
Syscall.v
Exception.v
