(* ===== verification/Prelude.v ===== *)
(** * CortexForge, a bare-metal AArch64 kernel: a verification in Rocq

    The program under src/src is a single-core kernel: a page allocator and a
    heap on top of it, translation tables per user task, a preemptive
    priority scheduler with fork, sleeping and demand-grown stacks, a
    real-time extension with priority inheritance, POSIX-style signals, an
    ELF loader, a virtual file system with fd tables and FAT32 below it,
    PCI with virtio devices (block, network, entropy, console, balloon), a
    timer that drives it, the system calls, and a reliable framing protocol
    over the UART.  The parts call each other in that order: the heap and the
    tables take pages from the page allocator; a task holds heap blocks, page runs,
    an address space and an fd table; the timer interrupt wakes sleepers,
    counts alarms down and releases periodic tasks; signals are delivered on
    the way back to user mode; a system call checks the pointers of the caller
    and then uses the other parts on its behalf.

    ** Files

    - [Prelude]: machine integers with their wrap-around, arrays as lists,
      notations ([kernel_scope]), the hint databases and tactics, lemmas on
      bits.
    - [Bytes]: byte-addressed memory with little-endian loads and stores.
    - [PageAlloc]: the interface of a page allocator (class [PageAllocator]
      with its laws), which [Pmm] implements and [Heap] and [Mmu] use.
    - [Pmm]: mm/pmm/pmm.c, the bitmap allocator.
    - [Heap]: mm/heap/heap.c, the block list of [kmalloc] and [kfree].
    - [Mmu]: mm/mmu/mmu.c, the four levels of translation tables in memory.
    - [Framing]: lib/uart/framing.c, frames with CRC, stuffing, retransmission
      and the hardware probe, over a byte stream.
    - [Task]: the records of sched/sched.h and of the image in syscall/elf.h.
    - [TaskEnv]: the interface of the task layer to the rest of the kernel
      (class [TaskEnv]), with laws stated over a ledger of the resources that
      are handed out; ledgers are a commutative monoid.  [BumpEnv] is a
      concrete environment for the examples.
    - [Sched]: sched/sched.c; [SchedInv]: its invariant and the specification
      of each operation; [SchedThm]: the operations as a step relation and
      the theorems.
    - [Rtos]: sched/rtos.c.
    - [Strings]: lib/strings/strings.c.
    - [Uart]: lib/uart/uart.c.
    - [Signal]: syscall/signal.c.
    - [Timer]: exception/timer/timer.c and the statistics of
      lib/bench/bench.c.
    - [Virtqueue]: pci/virtio/virtqueue.c.
    - [Vfs]: fs/vfs/vfs.c.
    - [Elf]: syscall/elf.c.
    - [Fat32]: fs/fat32/fat32.c and fat32_vfs.c, over a block device given by
      its reads and writes (class [BlkDev]).
    - [Pci]: pci/pci.c and pci/virtio/virtio.c, enumeration, the assignment of
      the BARs and the walk through the capabilities.
    - [Blk]: pci/virtio/blk/blk.c over [Virtqueue] and the registers of a
      device (class [BlkHw], with its laws [BlkHwOk]); [FatBlk]: the driver as
      the block device of [Fat32].
    - [Vdev]: the drivers pci/virtio/rng/rng.c, console/console.c and
      balloon/balloon.c, over [Pci], [Virtqueue] and a page allocator.
    - [NetFmt]: the frames of pci/virtio/net/net.c (checksum, ARP, ICMP, UDP,
      DHCP); [Net]: its driver and DHCP client over [Virtqueue] (class
      [NetHw] for the device).
    - [Proc]: fs/proc/proc.c, with the texts of net_get_info,
      gic_render_interrupts and cpu_render_info, over [Vfs] and [Strings].
    - [Syscall]: syscall/syscall.c, with the file descriptors and the devices
      behind the class [SysEnv].
    - [Exception]: exception/exception.c and gic/gic.c, the entry into the
      kernel over all the others.

    A component is a Module with a record for its statics, one definition per
    function of the source and state passing for its effects; a definition
    carries the name of the function it translates, and loops are fixpoints
    with names ending in [_loop].  Pointers are addresses (0 is NULL) into
    stores keyed by address; integers are [Z] with the wrap of their C type
    written out.

    ** What the theorems show

    - Page allocator (C1): it refines a set of free pages.
    - The whole kernel (C2): from boot on, through any sequence of system
      calls, interrupts, faults, switches and user programs, the invariants of
      scheduler and signals hold, every entry ends, and the kernel stops only
      for the events that are listed.
    - System calls (C3, C30): exec replaces the image of the caller or leaves
      it alone, without a leak on any path, and passes the arguments; no call
      reads or writes memory outside the user half for its caller.
    - Heap (C4-C6): [kmalloc] returns fresh aligned memory or fails cleanly,
      [kfree] rejects bad pointers, and the block list is well-formed in every
      reachable state.
    - Framing (C7-C9): decode inverts encode, a change of any one byte is
      detected, the receiver resynchronises on garbage.
    - Network (C10, C35): receiving is a queue of frames that loses no buffer;
      the DHCP client takes exactly what a reply says.
    - Block driver (C11): a transfer moves exactly its sectors, in as many
      requests as the device's limits ask for.
    - Translation tables (C12-C15): mapping a range changes exactly that
      range, fresh tables map only the trampoline, freeing returns exactly
      the table pages, the identity map covers RAM and devices.
    - Balloon (C20): inflating and deflating are inverse, and the host holds
      exactly the frames of the table.
    - Scheduler (C16-C19, C21): an invariant of every reachable state (run queue,
      reaper list, states, pids, and an exact account of the resources of
      every task), selection of the highest priority with round robin,
      killing, stack growth within its bounds; without a claim, the deadlines of
      sleepers.
    - UART (C22): the receive ring is a bounded queue.
    - Real-time extension (C23, C24): mutexes with priority inheritance;
      without a claim, semaphores and the periodic release.
    - PCI (C25, C26): the BARs get disjoint, aligned windows; the walk through
      the capabilities ends and finds what a reference finds.
    - Process files (no claim): every file of /proc delivers its text, however
      it is read.
    - Strings (C28, C29): overlapping moves, the formatter against a
      reference renderer.
    - Signals (C31-C33): the delivery loop ends and follows a reference
      verdict, delivery and return are inverse, SIGKILL cannot be evaded.
    - Timer (C34): no tick and no release is lost.
    - Virtqueue (C36): refinement of an abstract queue of requests.
    - Virtual file system (C37, C38): creation and resolution, ownership of
      open files.
    - ELF loader (C39): nothing leaks on failure; write and execute are
      exclusive; segments stay inside the file and the user half.
    - FAT32 (C40): a file that is created is found again with its contents,
      and the other files keep theirs; the same (C27) of the file system on
      the block driver on a virtio device.

    ** Fuel

    A walk through a linked structure has as fuel the number of nodes there
    are (plus one): the invariants show that the walk ends before, so the
    theorems are about the complete result.  The delivery loop of the signals
    has 32 rounds for 31 signals.  The Shell sort halves a 32-bit gap 32
    times.  The scan of [strlen] takes its bound as an argument.  Walks of a
    FAT chain have one step per entry of the FAT.  The polling
    loops keep the limit of the source.

    ** Plan

    The device files (devices/devices.c); an instance of [TaskEnv] made of
    [Pmm], [Heap], [Mmu] and [Vfs].

    ** Not modelled

    Console output, interrupt masking, barriers, cache and TLB maintenance
    have no effect on the modelled state and are left out.  The assembly
    (boot.S, vector.S, switch.S) appears as addresses and as the change of
    the current task.  kernel.c is the boot order and an interactive shell;
    the bodies of the demonstration tasks and the measurement loops of
    bench.c only print, as do blk_test.c and blk_bench.c.  devices.c is not
    modelled yet.  user/, tools/ and scripts/ do not run in the kernel. *)
From Stdlib Require Export ZArith Lia ZifyBool.
From stdpp Require Export base numbers list gmap.
#[global] Open Scope Z_scope.
#[global] Set Default Goal Selector "!".

(** * Machine integers

    A w-bit unsigned C integer is a [Z] in [0, 2^w).  Every arithmetic
    expression of the source that can wrap is written with the wrap of its
    type. *)
Definition wrap (w x : Z) : Z := x mod 2 ^ w.
Definition u8 (x : Z) : Z := wrap 8 x.
Definition u16 (x : Z) : Z := wrap 16 x.
Definition u32 (x : Z) : Z := wrap 32 x.
Definition u64 (x : Z) : Z := wrap 64 x.

(** Conversion to a signed two's complement type of the same width. *)
Definition to_signed (w x : Z) : Z :=
  let y := wrap w x in if y <? 2 ^ (w - 1) then y else y - 2 ^ w.
Definition s32 (x : Z) : Z := to_signed 32 x.
Definition s64 (x : Z) : Z := to_signed 64 x.

(** The range predicates. *)
Definition is_u (w x : Z) : Prop := 0 <= x < 2 ^ w.
Definition is_byte (x : Z) : Prop := 0 <= x < 256.

(** Bitwise complement at width w (the C operator ~ on an unsigned type). *)
Definition unot (w x : Z) : Z := wrap w (Z.lnot x).

(** [x & m] is non-zero, for a test written [if (x & m)]. *)
Definition test_mask (x m : Z) : bool := negb (Z.land x m =? 0).

(** * Notation *)
Declare Scope kernel_scope.
Delimit Scope kernel_scope with K.
Notation "x .& y" := (Z.land x y) (at level 35, right associativity) : kernel_scope.
Notation "x .| y" := (Z.lor x y) (at level 38, right associativity) : kernel_scope.
Notation "x <<< y" := (Z.shiftl x y) (at level 33, left associativity) : kernel_scope.
Notation "x >>> y" := (Z.shiftr x y) (at level 33, left associativity) : kernel_scope.
#[global] Open Scope kernel_scope.

(** * Arrays

    A C array is a list; [rd l i] reads [l[i]] and [wr l i v] writes it, for
    an index that the caller has shown to be in range.  Out of range, [rd]
    is 0 and [wr] changes nothing: the invariants of the components show that
    this case does not occur. *)
Definition rd (l : list Z) (i : Z) : Z := nth (Z.to_nat i) l 0.
Definition wr (l : list Z) (i v : Z) : list Z := <[Z.to_nat i := v]> l.

(** * Tactics *)
Create HintDb kernel.
Create Rewrite HintDb kernel.

(** Case analysis on the boolean guard of an [if] in the goal. *)
Ltac case_if :=
  match goal with
  | |- context [if ?b then _ else _] => let E := fresh "E" in destruct b eqn:E
  end.
Ltac case_ifs := repeat case_if.
Ltac case_if_in H :=
  match type of H with
  | context [if ?b then _ else _] => let E := fresh "E" in destruct b eqn:E
  end.

(** lia after division and modulo by constants are turned into equations. *)
Ltac dlia := Z.to_euclidean_division_equations; lia.

(** Split conjunctions in hypotheses. *)
Ltac split_hyps :=
  repeat match goal with
  | H : _ /\ _ |- _ => destruct H
  | H : exists _, _ |- _ => destruct H
  | H : (_, _) = (_, _) |- _ => injection H as H; subst
  | H : Some _ = Some _ |- _ => injection H as H; subst
  end.

(** * Generic lemmas *)

Lemma wrap_small w x : 0 <= x < 2 ^ w -> wrap w x = x.
Proof. intros. unfold wrap. by apply Z.mod_small. Qed.

Lemma wrap_range w x : 0 <= w -> 0 <= wrap w x < 2 ^ w.
Proof. intros. unfold wrap. apply Z.mod_pos_bound. lia. Qed.

Lemma u64_small x : 0 <= x < 2 ^ 64 -> u64 x = x.
Proof. apply wrap_small. Qed.
Lemma u32_small x : 0 <= x < 2 ^ 32 -> u32 x = x.
Proof. apply wrap_small. Qed.
Lemma u16_small x : 0 <= x < 2 ^ 16 -> u16 x = x.
Proof. apply wrap_small. Qed.
Lemma u8_small x : 0 <= x < 256 -> u8 x = x.
Proof. apply (wrap_small 8). Qed.
Lemma u64_range x : 0 <= u64 x < 2 ^ 64.
Proof. by apply wrap_range. Qed.
Lemma u32_range x : 0 <= u32 x < 2 ^ 32.
Proof. by apply wrap_range. Qed.
Lemma u16_range x : 0 <= u16 x < 2 ^ 16.
Proof. by apply wrap_range. Qed.
Lemma u8_range x : 0 <= u8 x < 256.
Proof. by apply (wrap_range 8). Qed.
#[export] Hint Resolve u64_range u32_range u16_range u8_range : kernel.

(** Bits of a value below a power of two. *)
Lemma testbit_high w x i : 0 <= x < 2 ^ w -> 0 <= w <= i -> Z.testbit x i = false.
Proof.
  intros Hx Hi. rewrite <- (Z.mod_small x (2 ^ w)) by lia.
  by apply Z.mod_pow2_bits_high.
Qed.

Lemma bits_lt_pow2 w x :
  0 <= w -> 0 <= x -> (forall i, w <= i -> Z.testbit x i = false) -> x < 2 ^ w.
Proof.
  intros Hw Hx Hb. assert (x = x mod 2 ^ w) as ->.
  { apply Z.bits_inj'. intros i Hi. rewrite Z.testbit_mod_pow2 by lia.
    destruct (i <? w) eqn:E; [done|]. by rewrite Hb by lia. }
  apply Z.mod_pos_bound. lia.
Qed.

Lemma lor_range w x y :
  0 <= w -> 0 <= x < 2 ^ w -> 0 <= y < 2 ^ w -> 0 <= Z.lor x y < 2 ^ w.
Proof.
  intros Hw Hx Hy. split; [apply Z.lor_nonneg; lia|].
  apply bits_lt_pow2; [lia| apply Z.lor_nonneg; lia|].
  intros i Hi. rewrite Z.lor_spec, (testbit_high w x), (testbit_high w y); lia.
Qed.

Lemma land_range_l w x y : 0 <= w -> 0 <= x < 2 ^ w -> 0 <= Z.land x y < 2 ^ w.
Proof.
  intros Hw Hx. assert (0 <= Z.land x y) by (apply Z.land_nonneg; lia).
  split; [done|]. apply bits_lt_pow2; [lia|done|].
  intros i Hi. rewrite Z.land_spec, (testbit_high w x); lia.
Qed.

Lemma lxor_range w x y :
  0 <= w -> 0 <= x < 2 ^ w -> 0 <= y < 2 ^ w -> 0 <= Z.lxor x y < 2 ^ w.
Proof.
  intros Hw Hx Hy. assert (0 <= Z.lxor x y) by (apply Z.lxor_nonneg; lia).
  split; [done|]. apply bits_lt_pow2; [lia|done|].
  intros i Hi. rewrite Z.lxor_spec, (testbit_high w x), (testbit_high w y); lia.
Qed.

Lemma testbit_bit b i : 0 <= b -> Z.testbit (1 <<< b) i = bool_decide (i = b).
Proof.
  intros Hb. rewrite Z.shiftl_1_l. destruct (decide (i = b)) as [->|Hn].
  - rewrite Z.pow2_bits_true by lia. by rewrite bool_decide_true.
  - rewrite Z.pow2_bits_false by lia. by rewrite bool_decide_false.
Qed.

(** Set and clear of one bit, as the code writes them on a [w]-bit word. *)
Lemma testbit_setbit x b i :
  0 <= b -> Z.testbit (x .| (1 <<< b)) i = Z.testbit x i || bool_decide (i = b).
Proof. intros. by rewrite Z.lor_spec, testbit_bit. Qed.

Lemma testbit_unot w x i :
  0 <= i < w -> Z.testbit (unot w x) i = negb (Z.testbit x i).
Proof.
  intros. unfold unot, wrap. rewrite Z.mod_pow2_bits_low by lia.
  apply Z.lnot_spec. lia.
Qed.

Lemma testbit_clearbit w x b i :
  0 <= x < 2 ^ w -> 0 <= b < w -> 0 <= i ->
  Z.testbit (x .& unot w (1 <<< b)) i = Z.testbit x i && negb (bool_decide (i = b)).
Proof.
  intros Hx Hb Hi. rewrite Z.land_spec. destruct (decide (i < w)).
  - by rewrite testbit_unot, testbit_bit by lia.
  - by rewrite (testbit_high w x) by lia.
Qed.

Lemma test_mask_bit x k : 0 <= k -> test_mask x (1 <<< k) = Z.testbit x k.
Proof.
  intros Hk. unfold test_mask. destruct (Z.testbit x k) eqn:E.
  - apply negb_true_iff, Z.eqb_neq. intros H0.
    assert (Z.testbit (Z.land x (1 <<< k)) k = true) as Hb.
    { rewrite Z.land_spec, E, testbit_bit by lia. by rewrite bool_decide_true. }
    rewrite H0, Z.bits_0 in Hb. done.
  - apply negb_false_iff, Z.eqb_eq, Z.bits_inj'. intros i Hi.
    rewrite Z.land_spec, testbit_bit, Z.bits_0 by lia.
    case_bool_decide; subst; [by rewrite E|apply andb_false_r].
Qed.

(** Reads and writes of arrays. *)
Lemma rd_wr_eq l i v : 0 <= i < Z.of_nat (length l) -> rd (wr l i v) i = v.
Proof.
  intros. unfold rd, wr. rewrite nth_lookup, list_lookup_insert_eq by lia. done.
Qed.
Lemma rd_wr_ne l i j v : 0 <= i -> 0 <= j -> i <> j -> rd (wr l i v) j = rd l j.
Proof.
  intros. unfold rd, wr. rewrite !nth_lookup, list_lookup_insert_ne by lia. done.
Qed.
Lemma length_wr l i v : length (wr l i v) = length l.
Proof. apply length_insert. Qed.
#[export] Hint Rewrite length_wr : kernel.

Lemma wr_prefix (t : list Z) k v : 0 <= k < Z.of_nat (length t) -> take (Z.to_nat (k + 1)) (wr t k v) = take (Z.to_nat k) t ++ [v].
Proof.
  intros Hk. unfold wr. replace (Z.to_nat (k + 1)) with (S (Z.to_nat k)) by lia.
  rewrite (take_S_r _ _ v) by (apply list_lookup_insert_eq; lia). by rewrite take_insert_ge by lia.
Qed.
Lemma Forall_wr (P : Z -> Prop) l i v : Forall P l -> P v -> Forall P (wr l i v).
Proof. intros. unfold wr. by apply Forall_insert. Qed.

Lemma rd_Forall (P : Z -> Prop) l i :
  Forall P l -> 0 <= i < Z.of_nat (length l) -> P (rd l i).
Proof.
  intros HF Hi. unfold rd. rewrite nth_lookup.
  destruct (l !! Z.to_nat i) as [x|] eqn:E; simpl.
  - by eapply Forall_lookup_1.
  - apply lookup_ge_None in E. lia.
Qed.

Lemma rd_replicate n v i : 0 <= i < Z.of_nat n -> rd (replicate n v) i = v.
Proof.
  intros. unfold rd. rewrite nth_lookup, lookup_replicate_2 by lia. done.
Qed.

(** Concatenation. *)
Lemma rd_app l r i : 0 <= i -> rd (l ++ r) i = if i <? Z.of_nat (length l) then rd l i else rd r (i - Z.of_nat (length l)).
Proof.
  intros. unfold rd. rewrite !nth_lookup. destruct (Z.ltb_spec i (Z.of_nat (length l))).
  - by rewrite lookup_app_l by lia.
  - rewrite lookup_app_r by lia. do 2 f_equal. lia.
Qed.

(** A filter depends on what its predicate says of the elements. *)
Lemma filter_ext_in {A} (P Q : A -> Prop) `{!forall x, Decision (P x), !forall x, Decision (Q x)} (l : list A) :
  (forall x, x ∈ l -> P x <-> Q x) -> filter P l = filter Q l.
Proof.
  induction l as [|a l IH]; intros Hl; [done|]. rewrite !filter_cons.
  rewrite (IH ltac:(intros; apply Hl; by right)). pose proof (Hl a ltac:(left)).
  repeat case_decide; tauto || done.
Qed.

(** [x & ~(2^k - 1)] rounds down to a multiple of [2^k]. *)
Lemma land_unot_ones w k x :
  0 <= k <= w -> 0 <= x < 2 ^ w -> x .& unot w (2 ^ k - 1) = x / 2 ^ k * 2 ^ k.
Proof.
  intros Hk Hx. rewrite <- Z.shiftr_div_pow2, <- Z.shiftl_mul_pow2 by lia.
  apply Z.bits_inj'. intros i Hi. rewrite Z.land_spec, Z.shiftl_spec by lia.
  replace (2 ^ k - 1) with (Z.ones k) by (rewrite Z.ones_equiv; lia).
  destruct (decide (i < w)).
  - rewrite testbit_unot by lia. destruct (decide (i < k)).
    + rewrite Z.ones_spec_low, andb_false_r by lia. by rewrite Z.testbit_neg_r by lia.
    + rewrite Z.ones_spec_high, andb_true_r by lia. rewrite Z.shiftr_spec by lia.
      f_equal. lia.
  - rewrite (testbit_high w x) by lia. rewrite Z.shiftr_spec by lia.
    replace (i - k + k) with i by lia. by rewrite (testbit_high w x) by lia.
Qed.

(** Big-endian 16-bit values, as the code splits and joins them. *)
Lemma be16_val hi lo : is_byte hi -> is_byte lo -> (hi <<< 8) .| lo = hi * 256 + lo.
Proof.
  unfold is_byte. intros Hhi Hlo. change 256 with (2 ^ 8). rewrite <- Z.shiftl_mul_pow2 by lia.
  assert (Z.land (hi <<< 8) lo = 0) as Hz.
  { apply Z.bits_inj'. intros i Hi. rewrite Z.land_spec, Z.bits_0, Z.shiftl_spec by lia.
    destruct (decide (i < 8)); [by rewrite Z.testbit_neg_r by lia|].
    rewrite (testbit_high 8 lo) by lia. apply andb_false_r. }
  rewrite <- Z.lxor_lor by done. by rewrite Z.add_nocarry_lxor.
Qed.

Lemma u8_hi x : 0 <= x < 65536 -> u8 (x >>> 8) = x / 256.
Proof. intros. rewrite Z.shiftr_div_pow2 by lia. apply u8_small. dlia. Qed.
Lemma u8_lo x : 0 <= x -> u8 (x .& 0xFF) = x mod 256.
Proof.
  intros. change 0xFF with (Z.ones 8). rewrite Z.land_ones by lia. apply u8_small. dlia.
Qed.
Lemma be16_join x : 0 <= x < 65536 -> (u8 (x >>> 8) <<< 8) .| u8 (x .& 0xFF) = x.
Proof.
  intros. rewrite u8_hi, u8_lo by lia. rewrite be16_val by (unfold is_byte; dlia). dlia.
Qed.
