(* ===== verification/Bytes.v ===== *)
(** * Byte-addressed memory

    Memory as a total map from addresses to bytes, with the little-endian
    loads and stores of the machine.  A buffer held as a list [l] is read
    through the same functions as the memory [rd l]. *)
From S2P Require Import Prelude.

Definition mem : Type := Z -> Z.
Definition st8 (m : mem) (a v : Z) : mem := fun x => if x =? a then v else m x.

(** The [n]-byte little-endian value at [a], and its assignment. *)
Fixpoint ld_le (n : nat) (a : Z) (m : mem) : Z :=
  match n with O => 0 | S n' => m a + 256 * ld_le n' (a + 1) m end.
Fixpoint st_le (n : nat) (a v : Z) (m : mem) : mem :=
  match n with O => m | S n' => st_le n' (a + 1) (v / 256) (st8 m a (v mod 256)) end.

Lemma st8_eq m a v : st8 m a v a = v.
Proof. unfold st8. by rewrite Z.eqb_refl. Qed.
Lemma st8_ne m a v x : x <> a -> st8 m a v x = m x.
Proof. intros. unfold st8. by destruct (Z.eqb_spec x a). Qed.

Lemma st_le_other n a v m x : x < a \/ a + Z.of_nat n <= x -> st_le n a v m x = m x.
Proof.
  revert a v m. induction n as [|n IH]; intros a v m Hx; cbn [st_le]; [done|].
  rewrite IH by lia. apply st8_ne. lia.
Qed.

Lemma ld_le_ext n a m m' :
  (forall x, a <= x < a + Z.of_nat n -> m x = m' x) -> ld_le n a m = ld_le n a m'.
Proof.
  revert a. induction n as [|n IH]; intros a Hm; cbn [ld_le]; [done|].
  rewrite Hm by lia. by rewrite (IH (a + 1)) by (intros; apply Hm; lia).
Qed.

Lemma ld_st_eq n a v m : 0 <= v < 256 ^ Z.of_nat n -> ld_le n a (st_le n a v m) = v.
Proof.
  revert a v m. induction n as [|n IH]; intros a v m Hv; cbn [ld_le st_le].
  { cbn in Hv. lia. }
  rewrite Nat2Z.inj_succ, Z.pow_succ_r in Hv by lia.
  rewrite st_le_other, st8_eq by lia. rewrite IH by dlia. dlia.
Qed.

Lemma ld_st_ne n k a b v m :
  a + Z.of_nat n <= b \/ b + Z.of_nat k <= a -> ld_le n a (st_le k b v m) = ld_le n a m.
Proof. intros Hd. apply ld_le_ext. intros x Hx. apply st_le_other. lia. Qed.

Lemma ld_le_range n a m :
  (forall x, a <= x < a + Z.of_nat n -> is_byte (m x)) -> 0 <= ld_le n a m < 256 ^ Z.of_nat n.
Proof.
  unfold is_byte. revert a. induction n as [|n IH]; intros a Hm; cbn [ld_le]; [cbn; lia|].
  rewrite Nat2Z.inj_succ, Z.pow_succ_r by lia.
  pose proof (Hm a ltac:(lia)). specialize (IH (a + 1) ltac:(intros; apply Hm; lia)). lia.
Qed.

Lemma st_le_byte n a v m x :
  0 <= v -> is_byte (m x) -> is_byte (st_le n a v m x).
Proof.
  unfold is_byte. revert a v m. induction n as [|n IH]; intros a v m Hv Hm; cbn [st_le]; [done|].
  apply IH; [dlia|]. unfold st8. case_if; [dlia|done].
Qed.

Lemma ld_le_S n a m : ld_le (S n) a m = m a + 256 * ld_le n (a + 1) m.
Proof. done. Qed.
Lemma ld_le_shift n a k m : ld_le n (a + k) m = ld_le n a (fun x => m (x + k)).
Proof.
  revert a. induction n as [|n IH]; intros a; [done|].
  rewrite !ld_le_S, <- (IH (a + 1)). do 3 f_equal. lia.
Qed.

Lemma rd_byte l i : Forall is_byte l -> is_byte (rd l i).
Proof.
  intros HF. unfold rd. rewrite nth_lookup. destruct (l !! Z.to_nat i) as [x|] eqn:Ex; cbn [default].
  - by eapply Forall_lookup_1.
  - unfold is_byte. cbn. lia.
Qed.

#[global] Arguments ld_le : simpl never.
#[global] Arguments st_le : simpl never.

(** Buffers in memory. *)
Definition store_buf (a : Z) (l : list Z) (m : mem) : mem :=
  fun x => if (a <=? x) && (x <? a + Z.of_nat (length l)) then rd l (x - a) else m x.
Definition load_buf (a n : Z) (m : Z -> Z) : list Z := (fun i => m (a + i)) <$> seqZ 0 n.

Lemma load_buf_ext a a' n m m' : (forall i, 0 <= i < n -> m (a + i) = m' (a' + i)) -> load_buf a n m = load_buf a' n m'.
Proof. intros Hm. unfold load_buf. apply list_fmap_ext. intros i x Hi. apply lookup_seqZ in Hi. apply Hm. lia. Qed.
Lemma length_load_buf a n m : length (load_buf a n m) = Z.to_nat n.
Proof. unfold load_buf. by rewrite length_fmap, length_seqZ. Qed.
Lemma load_buf_forall (P : Z -> Prop) a n m : (forall i, 0 <= i < n -> P (m (a + i))) -> Forall P (load_buf a n m).
Proof. intros Hm. unfold load_buf. apply Forall_fmap, Forall_forall. intros i Hi. apply elem_of_seqZ in Hi. apply Hm. lia. Qed.
Lemma load_buf_id l a m : (forall i, 0 <= i < Z.of_nat (length l) -> m (a + i) = rd l i) -> load_buf a (Z.of_nat (length l)) m = l.
Proof.
  intros Hm. apply list_eq. intros i. unfold load_buf. rewrite list_lookup_fmap.
  destruct (decide (i < length l)%nat) as [Hi|Hi].
  - rewrite (lookup_seqZ_lt 0 (Z.of_nat (length l)) i) by lia. cbn [fmap option_fmap option_map].
    rewrite Z.add_0_l, Hm by lia. unfold rd. rewrite Nat2Z.id, nth_lookup.
    destruct (lookup_lt_is_Some_2 l i Hi) as [x ->]. done.
  - rewrite (lookup_ge_None_2 l i) by lia. by rewrite lookup_seqZ_ge by lia.
Qed.
