(* ===== verification/PageAlloc.v ===== *)
(** * The page-allocator interface

    What the physical memory manager (src/src/mm/pmm/pmm.c) promises to its
    clients: the MMU code (page-table pages), the kernel heap (regions), the
    scheduler (stacks) and the ELF loader (segments).  The clients' theorems
    are proved against this interface; [Pmm] discharges it. *)
From S2P Require Import Prelude.

Definition PAGE_SIZE : Z := 4096.
Definition PAGE_SHIFT : Z := 12.

(** [pages a n]: the addresses of the [n] consecutive pages from [a]. *)
Definition pages (a n : Z) : gset Z :=
  list_to_set ((fun i => a + i * PAGE_SIZE) <$> seqZ 0 n).

(** A usable run of pages: non-null, page aligned, below the 48-bit limit of
    the translation tables. *)
Definition run_ok (a n : Z) : Prop :=
  0 < a /\ a mod PAGE_SIZE = 0 /\ a + n * PAGE_SIZE < 2 ^ 48.

Class PageAllocator (S : Type) := {
  pa_alloc_page : S -> Z * S;
  pa_alloc_pages : Z -> S -> Z * S;
  pa_free_page : Z -> S -> S;
  pa_free_pages : Z -> Z -> S -> S;
  (** the allocator's own invariant *)
  pa_ok : S -> Prop;
  (** addresses of the pages currently handed out *)
  pa_owned : S -> gset Z
}.

Class PageAllocatorLaws (S : Type) `{PageAllocator S} := {
  pa_alloc_page_law s a s' :
    pa_ok s -> pa_alloc_page s = (a, s') ->
    pa_ok s' /\
    ((a = 0 /\ s' = s) \/
     run_ok a 1 /\ a ∉ pa_owned s /\ pa_owned s' = {[a]} ∪ pa_owned s);
  pa_alloc_pages_law s n a s' :
    pa_ok s -> 0 < n < 2 ^ 64 -> pa_alloc_pages n s = (a, s') ->
    pa_ok s' /\
    ((a = 0 /\ s' = s) \/
     run_ok a n /\ pages a n ## pa_owned s /\ pa_owned s' = pages a n ∪ pa_owned s);
  pa_free_page_law s a :
    pa_ok s -> a ∈ pa_owned s ->
    pa_ok (pa_free_page a s) /\ pa_owned (pa_free_page a s) = pa_owned s ∖ {[a]};
  pa_free_other s a :
    pa_ok s -> 0 <= a < 2 ^ 64 -> a ∉ pa_owned s -> pa_free_page a s = s;
  pa_free_pages_law s a n :
    pa_ok s -> run_ok a n -> pages a n ⊆ pa_owned s ->
    pa_ok (pa_free_pages a n s) /\ pa_owned (pa_free_pages a n s) = pa_owned s ∖ pages a n;
  pa_owned_ok s a : pa_ok s -> a ∈ pa_owned s -> run_ok a 1
}.

Lemma elem_of_pages a n x :
  x ∈ pages a n <-> exists i, 0 <= i < n /\ x = a + i * PAGE_SIZE.
Proof.
  unfold pages. rewrite elem_of_list_to_set, list_elem_of_fmap. split.
  - intros (i & -> & Hi%elem_of_seqZ). exists i. lia.
  - intros (i & Hi & ->). exists i. split; [done|]. apply elem_of_seqZ. lia.
Qed.

Lemma pages_1 a : pages a 1 = {[a]}.
Proof.
  apply set_eq. intros x. rewrite elem_of_pages, elem_of_singleton.
  unfold PAGE_SIZE. split; [intros (i & ? & ->); lia | intros ->; exists 0; lia].
Qed.

Lemma pages_cons a n :
  0 < n -> pages a n = {[a]} ∪ pages (a + PAGE_SIZE) (n - 1).
Proof.
  intros. apply set_eq. intros x.
  rewrite elem_of_union, elem_of_singleton, !elem_of_pages. unfold PAGE_SIZE. split.
  - intros (i & ? & ->). destruct (decide (i = 0)) as [->|]; [left; lia|].
    right. exists (i - 1). lia.
  - intros [->|(i & ? & ->)]; [exists 0; lia| exists (i + 1); lia].
Qed.

Lemma pages_empty a n : n <= 0 -> pages a n = ∅.
Proof. intros. unfold pages. by rewrite seqZ_nil by lia. Qed.

Lemma size_pages a n : 0 <= n -> Z.of_nat (size (pages a n)) = n.
Proof.
  intros. unfold pages. rewrite size_list_to_set, length_fmap, length_seqZ; [lia|].
  apply NoDup_fmap_2; [|apply NoDup_seqZ]. unfold PAGE_SIZE. intros ???. lia.
Qed.
