(* ===== verification/Pmm.v ===== *)
(** * Physical memory manager (src/src/mm/pmm/pmm.c, pmm.h)

    The bitmap page allocator: one bit per 4 KiB page, 64 pages per word.
    [pmm] holds the file's static variables; each function of pmm.c is a
    definition on it.  The abstract state is the set of used page frame
    numbers ([used_set]); the theorems show that the word-and-bit scans
    implement first-fit allocation on that set, that the page counters agree
    with it, and that freeing undoes allocation. *)
From S2P Require Import Prelude PageAlloc.

Module Pmm.

(** ** Macros of pmm.h *)
Definition PFN_TO_PHYS (pfn : Z) : Z := u64 (pfn <<< PAGE_SHIFT).
Definition PHYS_TO_PFN (addr : Z) : Z := addr >>> PAGE_SHIFT.
Definition PAGE_ALIGN_UP (addr : Z) : Z := u64 (addr + PAGE_SIZE - 1) .& unot 64 (PAGE_SIZE - 1).
Definition BITMAP_INDEX (pfn : Z) : Z := pfn / 64.
Definition BITMAP_BIT (pfn : Z) : Z := pfn mod 64.
Definition ALL_ONES : Z := 2 ^ 64 - 1.

(** ** State: the static variables of pmm.c *)
Record pmm := MkPmm {
  bitmap : list Z;
  bitmap_addr : Z;        (* value of the pointer [bitmap] *)
  bitmap_size : Z;
  total_pages : Z;
  used_pages : Z;
  reserved_pages : Z;
  mem_region_start : Z;
  mem_region_end : Z
}.

Definition set_bitmap (s : pmm) (b : list Z) : pmm :=
  MkPmm b (bitmap_addr s) (bitmap_size s) (total_pages s) (used_pages s)
        (reserved_pages s) (mem_region_start s) (mem_region_end s).
Definition set_used (s : pmm) (u : Z) : pmm :=
  MkPmm (bitmap s) (bitmap_addr s) (bitmap_size s) (total_pages s) u
        (reserved_pages s) (mem_region_start s) (mem_region_end s).
Definition set_addr (s : pmm) (a : Z) : pmm :=
  MkPmm (bitmap s) a (bitmap_size s) (total_pages s) (used_pages s)
        (reserved_pages s) (mem_region_start s) (mem_region_end s).

(** ** Bit operations *)
Definition bitmap_set (s : pmm) (pfn : Z) : pmm :=
  set_bitmap s (wr (bitmap s) (BITMAP_INDEX pfn)
    (rd (bitmap s) (BITMAP_INDEX pfn) .| (1 <<< BITMAP_BIT pfn))).

Definition bitmap_clear (s : pmm) (pfn : Z) : pmm :=
  set_bitmap s (wr (bitmap s) (BITMAP_INDEX pfn)
    (rd (bitmap s) (BITMAP_INDEX pfn) .& unot 64 (1 <<< BITMAP_BIT pfn))).

Definition bitmap_test (s : pmm) (pfn : Z) : bool :=
  test_mask (rd (bitmap s) (BITMAP_INDEX pfn) >>> BITMAP_BIT pfn) 1.

(** [for (i = 0; i < n; i++) bitmap_set(pfn + i)] *)
Fixpoint bitmap_set_range (s : pmm) (pfn : Z) (n : nat) : pmm :=
  match n with
  | O => s
  | S n' => bitmap_set_range (bitmap_set s pfn) (pfn + 1) n'
  end.

(** ** Initialisation; [kernel_end] is the address of the linker symbol
    [__kernel_end]. *)
Definition pmm_init (kernel_end mem_start mem_size : Z) : pmm :=
  let total := mem_size / PAGE_SIZE in
  let bsize := u64 (total + 63) / 64 in
  let bitmap_bytes := u64 (bsize * 8) in
  let baddr := PAGE_ALIGN_UP kernel_end in
  let zeroed := replicate (Z.to_nat bsize) 0 in
  let b := if negb (total mod 64 =? 0)
           then wr zeroed (bsize - 1) (unot 64 ((1 <<< (total mod 64)) - 1))
           else zeroed in
  let bitmap_end := u64 (baddr + bitmap_bytes) in
  let reserved_end := PAGE_ALIGN_UP bitmap_end in
  let reserved := u64 (reserved_end - mem_start) / PAGE_SIZE in
  let s := MkPmm b baddr bsize total 0 reserved mem_start (u64 (mem_start + mem_size)) in
  set_used (bitmap_set_range s 0 (Z.to_nat reserved)) reserved.

(** [pmm_relocate_upper]: the bitmap is reached through the upper half. *)
Definition KERNEL_VA_OFFSET : Z := 0xFFFF000000000000.
Definition pmm_relocate_upper (s : pmm) : pmm :=
  set_addr s (u64 (bitmap_addr s + KERNEL_VA_OFFSET)).

(** ** Single-page allocation *)
Inductive scan := Found (pfn : Z) | OutOfRange | WordDone.

(** inner loop of [pmm_allocate_page]: bits [bit], [bit+1], ... of word [i] *)
Fixpoint scan_bits (n : nat) (s : pmm) (i bit : Z) : scan :=
  match n with
  | O => WordDone
  | S n' =>
      let pfn := u64 (i * 64 + bit) in
      if total_pages s <=? pfn then OutOfRange
      else if negb (bitmap_test s pfn) then Found pfn
      else scan_bits n' s i (bit + 1)
  end.

(** outer loop: words [i], [i+1], ... *)
Fixpoint scan_words (n : nat) (s : pmm) (i : Z) : scan :=
  match n with
  | O => WordDone
  | S n' =>
      if rd (bitmap s) i =? ALL_ONES then scan_words n' s (i + 1)
      else match scan_bits 64 s i 0 with
           | WordDone => scan_words n' s (i + 1)
           | r => r
           end
  end.

Definition pmm_allocate_page (s : pmm) : Z * pmm :=
  match scan_words (Z.to_nat (bitmap_size s)) s 0 with
  | Found pfn =>
      let s1 := bitmap_set s pfn in
      let s2 := set_used s1 (u64 (used_pages s1 + 1)) in
      (u64 (mem_region_start s2 + PFN_TO_PHYS pfn), s2)
  | OutOfRange => (0, s)
  | WordDone => (0, s)
  end.

(** ** Contiguous allocation *)
Fixpoint run_scan (n : nat) (s : pmm) (count pfn run_start run_length : Z) : option Z :=
  match n with
  | O => None
  | S n' =>
      if negb (bitmap_test s pfn) then
        let run_start := if run_length =? 0 then pfn else run_start in
        let run_length := run_length + 1 in
        if run_length =? count then Some run_start
        else run_scan n' s count (pfn + 1) run_start run_length
      else run_scan n' s count (pfn + 1) run_start 0
  end.

Definition pmm_allocate_pages (count : Z) (s : pmm) : Z * pmm :=
  if count =? 0 then (0, s)
  else if count =? 1 then pmm_allocate_page s
  else
    match run_scan (Z.to_nat (total_pages s - reserved_pages s)) s count
                   (reserved_pages s) 0 0 with
    | Some run_start =>
        let s1 := bitmap_set_range s run_start (Z.to_nat count) in
        let s2 := set_used s1 (u64 (used_pages s1 + count)) in
        (u64 (mem_region_start s2 + PFN_TO_PHYS run_start), s2)
    | None => (0, s)
    end.

(** ** Freeing.  The result names the branch taken (the diagnostic printed). *)
Inductive free_result := Freed | OutsideRegion | NotAligned | ReservedPage | Unallocated.

Definition pmm_free_page (phys_addr : Z) (s : pmm) : free_result * pmm :=
  if (phys_addr <? mem_region_start s) || (mem_region_end s <=? phys_addr) then (OutsideRegion, s)
  else if test_mask phys_addr (PAGE_SIZE - 1) then (NotAligned, s)
  else
    let pfn := PHYS_TO_PFN (u64 (phys_addr - mem_region_start s)) in
    if pfn <? reserved_pages s then (ReservedPage, s)
    else if negb (bitmap_test s pfn) then (Unallocated, s)
    else
      let s1 := bitmap_clear s pfn in
      (Freed, set_used s1 (u64 (used_pages s1 - 1))).

Fixpoint free_loop (n : nat) (phys_addr i : Z) (s : pmm) : pmm :=
  match n with
  | O => s
  | S n' => free_loop n' phys_addr (i + 1)
              (snd (pmm_free_page (u64 (phys_addr + u64 (i * PAGE_SIZE))) s))
  end.

Definition pmm_free_pages (phys_addr count : Z) (s : pmm) : pmm :=
  free_loop (Z.to_nat count) phys_addr 0 s.

Definition pmm_get_total_pages (s : pmm) : Z := total_pages s.
Definition pmm_get_used_pages (s : pmm) : Z := used_pages s.
Definition pmm_get_free_pages (s : pmm) : Z := u64 (total_pages s - used_pages s).
Definition pmm_get_reserved_pages (s : pmm) : Z := reserved_pages s.

(** ** Abstract state and invariant *)
Definition used_set (s : pmm) : gset Z :=
  list_to_set (filter (fun pfn => bitmap_test s pfn = true) (seqZ 0 (total_pages s))).

Record pmm_wf (s : pmm) : Prop := {
  wf_size : bitmap_size s = (total_pages s + 63) / 64;
  wf_len : Z.of_nat (length (bitmap s)) = bitmap_size s;
  wf_words : Forall (is_u 64) (bitmap s);
  wf_tail pfn : total_pages s <= pfn < 64 * bitmap_size s -> bitmap_test s pfn = true;
  wf_res_le : 0 <= reserved_pages s <= total_pages s;
  wf_res pfn : 0 <= pfn < reserved_pages s -> bitmap_test s pfn = true;
  wf_used : used_pages s = Z.of_nat (size (used_set s));
  wf_start : 0 < mem_region_start s /\ mem_region_start s mod PAGE_SIZE = 0;
  wf_end : mem_region_end s = mem_region_start s + total_pages s * PAGE_SIZE;
  wf_48 : mem_region_end s < 2 ^ 48
}.

(** [n] free pages from [st] on. *)
Definition all_free (s : pmm) (st n : Z) : Prop :=
  forall p, st <= p < st + n -> bitmap_test s p = false.

(** ** Bits of the bitmap *)
Lemma bitmap_test_bit s pfn :
  0 <= pfn -> bitmap_test s pfn = Z.testbit (rd (bitmap s) (pfn / 64)) (pfn mod 64).
Proof.
  intros. unfold bitmap_test, test_mask, BITMAP_INDEX, BITMAP_BIT.
  replace 1 with (Z.ones 1) by done. rewrite Z.land_ones by lia.
  rewrite <- (Z.add_0_l (pfn mod 64)) at 2. rewrite <- Z.shiftr_spec by lia.
  rewrite Z.bit0_odd, Zodd_mod. change (2 ^ 1) with 2.
  destruct (Z.eqb_spec ((rd (bitmap s) (pfn / 64) >>> (pfn mod 64)) mod 2) 0) as [->|];
    [done|].
  pose proof (Z.mod_pos_bound (rd (bitmap s) (pfn / 64) >>> (pfn mod 64)) 2).
  simpl. symmetry. apply Z.eqb_eq. lia.
Qed.

Section bits.
Context (s : pmm).
Hypothesis Hlen : Z.of_nat (length (bitmap s)) = bitmap_size s.
Hypothesis Hwords : Forall (is_u 64) (bitmap s).

Lemma word_range i : 0 <= i < bitmap_size s -> 0 <= rd (bitmap s) i < 2 ^ 64.
Proof. intros. apply (rd_Forall (is_u 64)); [done|lia]. Qed.

Lemma index_range p : 0 <= p < 64 * bitmap_size s -> 0 <= p / 64 < bitmap_size s.
Proof. intros. dlia. Qed.

Lemma bitmap_test_set p q :
  0 <= p < 64 * bitmap_size s -> 0 <= q ->
  bitmap_test (bitmap_set s p) q = bitmap_test s q || bool_decide (p = q).
Proof.
  intros Hp Hq. rewrite !bitmap_test_bit by lia. unfold bitmap_set, BITMAP_INDEX, BITMAP_BIT.
  simpl. pose proof (index_range p Hp).
  destruct (decide (p / 64 = q / 64)) as [E|E].
  - rewrite E, rd_wr_eq by lia. rewrite testbit_setbit by dlia. f_equal.
    apply bool_decide_ext. dlia.
  - rewrite rd_wr_ne by dlia. rewrite (bool_decide_false (p = q)) by congruence.
    by rewrite orb_false_r.
Qed.

Lemma bitmap_test_clear p q :
  0 <= p < 64 * bitmap_size s -> 0 <= q ->
  bitmap_test (bitmap_clear s p) q = bitmap_test s q && negb (bool_decide (p = q)).
Proof.
  intros Hp Hq. rewrite !bitmap_test_bit by lia. unfold bitmap_clear, BITMAP_INDEX, BITMAP_BIT.
  simpl. pose proof (index_range p Hp).
  destruct (decide (p / 64 = q / 64)) as [E|E].
  - rewrite E, rd_wr_eq by lia. rewrite testbit_clearbit.
    + f_equal. f_equal. apply bool_decide_ext. dlia.
    + apply word_range. lia.
    + dlia.
    + dlia.
  - rewrite rd_wr_ne by dlia. rewrite (bool_decide_false (p = q)) by congruence.
    by rewrite andb_true_r.
Qed.

Lemma bitmap_set_words p : Forall (is_u 64) (bitmap (bitmap_set s p)).
Proof.
  unfold bitmap_set, BITMAP_INDEX, BITMAP_BIT. simpl.
  destruct (decide (0 <= p / 64 < bitmap_size s)).
  - apply Forall_wr; [done|]. apply lor_range; [lia|by apply word_range|].
    rewrite Z.shiftl_1_l. split; [lia|]. apply Z.pow_lt_mono_r; dlia.
  - unfold wr. destruct (decide (0 <= p / 64)).
    + rewrite list_insert_ge; [done|lia].
    + apply Forall_wr; [done|]. apply lor_range; [lia| |].
      * unfold rd. rewrite nth_lookup.
        destruct (bitmap s !! Z.to_nat (p / 64)) eqn:E; [|simpl; lia].
        by eapply (Forall_lookup_1 _ _ _ _ Hwords) in E.
      * rewrite Z.shiftl_1_l. split; [lia|]. apply Z.pow_lt_mono_r; dlia.
Qed.

Lemma bitmap_clear_words p :
  0 <= p < 64 * bitmap_size s -> Forall (is_u 64) (bitmap (bitmap_clear s p)).
Proof.
  intros Hp. unfold bitmap_clear, BITMAP_INDEX. simpl. apply Forall_wr; [done|].
  apply land_range_l; [lia|]. apply word_range. by apply index_range.
Qed.
End bits.

Lemma bitmap_set_len s p : length (bitmap (bitmap_set s p)) = length (bitmap s).
Proof. apply length_wr. Qed.
Lemma bitmap_clear_len s p : length (bitmap (bitmap_clear s p)) = length (bitmap s).
Proof. apply length_wr. Qed.

(** [bitmap_set_range] changes only the bitmap. *)
Lemma set_range_frame n s p :
  let s' := bitmap_set_range s p n in
  length (bitmap s') = length (bitmap s) /\ bitmap_size s' = bitmap_size s /\
  total_pages s' = total_pages s /\ used_pages s' = used_pages s /\
  reserved_pages s' = reserved_pages s /\ mem_region_start s' = mem_region_start s /\
  mem_region_end s' = mem_region_end s.
Proof.
  revert s p. induction n as [|n IH]; intros s p; simpl; [done|].
  destruct (IH (bitmap_set s p) (p + 1)) as (-> & -> & -> & -> & -> & -> & ->).
  by rewrite bitmap_set_len.
Qed.

Lemma set_range_words n s p :
  Z.of_nat (length (bitmap s)) = bitmap_size s -> Forall (is_u 64) (bitmap s) ->
  Forall (is_u 64) (bitmap (bitmap_set_range s p n)).
Proof.
  revert s p. induction n as [|n IH]; intros s p HL HW; simpl; [done|].
  apply IH; [by rewrite bitmap_set_len|by apply bitmap_set_words].
Qed.

Lemma bitmap_test_range n s p q :
  Z.of_nat (length (bitmap s)) = bitmap_size s -> Forall (is_u 64) (bitmap s) ->
  0 <= p -> p + Z.of_nat n <= 64 * bitmap_size s -> 0 <= q ->
  bitmap_test (bitmap_set_range s p n) q =
    bitmap_test s q || bool_decide (p <= q < p + Z.of_nat n).
Proof.
  revert s p. induction n as [|n IH]; intros s p HL HW Hp Hb Hq; simpl.
  - rewrite bool_decide_false by lia. by rewrite orb_false_r.
  - rewrite IH; [|by rewrite bitmap_set_len|by apply bitmap_set_words|lia|simpl; lia|lia].
    rewrite bitmap_test_set by (done || lia). rewrite <- orb_assoc. f_equal.
    rewrite <- bool_decide_or. apply bool_decide_ext. lia.
Qed.

(** ** The set of used pages *)
Lemma elem_of_used_set s p :
  p ∈ used_set s <-> 0 <= p < total_pages s /\ bitmap_test s p = true.
Proof.
  unfold used_set. rewrite elem_of_list_to_set, list_elem_of_filter, elem_of_seqZ. lia.
Qed.

Lemma used_set_bound s : 0 <= total_pages s -> (Z.of_nat (size (used_set s)) <= total_pages s).
Proof.
  intros. assert (used_set s ⊆ list_to_set (seqZ 0 (total_pages s))) as Hsub.
  { intros p Hp%elem_of_used_set. apply elem_of_list_to_set, elem_of_seqZ. lia. }
  apply subseteq_size in Hsub. rewrite size_list_to_set in Hsub by apply NoDup_seqZ.
  rewrite length_seqZ in Hsub. lia.
Qed.

Lemma used_set_add s s' P :
  total_pages s' = total_pages s ->
  (forall q, 0 <= q -> bitmap_test s' q = bitmap_test s q || bool_decide (q ∈ P)) ->
  (forall q, q ∈ P -> 0 <= q < total_pages s) ->
  used_set s' = P ∪ used_set s.
Proof.
  intros HT Hb HP. apply set_eq. intros q.
  rewrite elem_of_union, !elem_of_used_set, HT. split.
  - intros [Hq Ht]. rewrite Hb in Ht by lia. apply orb_true_iff in Ht as [Ht|Ht].
    + by right.
    + left. by apply bool_decide_eq_true in Ht.
  - intros [Hq|[Hq Ht]]; [pose proof (HP _ Hq)|]; split; try done; rewrite Hb by lia.
    + rewrite bool_decide_true by done. by rewrite orb_true_r.
    + by rewrite Ht.
Qed.

(** Marking a set of free pages used keeps the invariant. *)
Lemma wf_grow s s' P :
  pmm_wf s ->
  length (bitmap s') = length (bitmap s) -> bitmap_size s' = bitmap_size s ->
  total_pages s' = total_pages s -> reserved_pages s' = reserved_pages s ->
  mem_region_start s' = mem_region_start s -> mem_region_end s' = mem_region_end s ->
  Forall (is_u 64) (bitmap s') ->
  (forall q, 0 <= q -> bitmap_test s' q = bitmap_test s q || bool_decide (q ∈ P)) ->
  (forall q, q ∈ P -> 0 <= q < total_pages s /\ bitmap_test s q = false) ->
  used_pages s' = u64 (used_pages s + Z.of_nat (size P)) ->
  pmm_wf s' /\ used_set s' = P ∪ used_set s /\ P ## used_set s.
Proof.
  intros [] HL HS HT HR HB HE HW Hb HP HU.
  assert (used_set s' = P ∪ used_set s) as Hset.
  { apply used_set_add; [done..|]. intros q Hq. by apply HP. }
  assert (P ## used_set s) as Hdisj.
  { intros q Hq [_ Hu]%elem_of_used_set. apply HP in Hq as [_ ?]. congruence. }
  split; [|done].
  assert (used_pages s' = Z.of_nat (size (used_set s'))) as Hcnt.
  { assert (0 <= total_pages s') as Ht by lia. pose proof (used_set_bound s' Ht) as Hle.
    rewrite Hset, size_union in Hle by done. rewrite Hset, size_union by done.
    rewrite HU, wf_used0, Nat2Z.inj_add, u64_small; unfold PAGE_SIZE in *; lia. }
  constructor; rewrite ?HL, ?HS, ?HT, ?HR, ?HB, ?HE; try done.
  - intros q Hq. rewrite Hb by lia. by rewrite wf_tail0.
  - intros q Hq. rewrite Hb by lia. by rewrite wf_res0.
Qed.

(** Phys address arithmetic of the allocation functions. *)
Lemma phys_of_pfn s pfn n :
  pmm_wf s -> 0 <= pfn -> 0 < n -> pfn + n <= total_pages s ->
  u64 (mem_region_start s + PFN_TO_PHYS pfn) = mem_region_start s + pfn * PAGE_SIZE /\
  run_ok (mem_region_start s + pfn * PAGE_SIZE) n.
Proof.
  intros [] Hp Hn Hle. unfold PFN_TO_PHYS, PAGE_SHIFT, run_ok, PAGE_SIZE in *.
  rewrite Z.shiftl_mul_pow2 by lia. change (2 ^ 12) with 4096.
  rewrite (u64_small (pfn * 4096)) by lia. rewrite u64_small by lia. split; [done|].
  split; [lia|]. split; [|lia]. destruct wf_start0 as [? Ha]. dlia.
Qed.

(** ** [pmm_allocate_page] *)
Lemma all_ones_bits w :
  0 <= w < 2 ^ 64 -> w <> ALL_ONES -> exists b, 0 <= b < 64 /\ Z.testbit w b = false.
Proof.
  intros Hw Hne.
  destruct (decide (Exists (fun b => Z.testbit w b = false) (seqZ 0 64))) as [HE|HN].
  - apply Exists_exists in HE as (b & Hb%elem_of_seqZ & ?). exists b. split; [lia|done].
  - destruct Hne. unfold ALL_ONES. replace (2 ^ 64 - 1) with (Z.ones 64) by done.
    apply Z.bits_inj'. intros i Hi. destruct (decide (i < 64)).
    + rewrite Z.ones_spec_low by lia. rewrite <- Forall_Exists_neg, Forall_forall in HN.
      specialize (HN i). rewrite elem_of_seqZ in HN.
      destruct (Z.testbit w i); [done|]. destruct HN; [lia|done].
    + rewrite Z.ones_spec_high by lia. apply (testbit_high 64); lia.
Qed.

(** [first_free s p]: [p] is the lowest free page frame. *)
Definition first_free (s : pmm) (p : Z) : Prop :=
  0 <= p < total_pages s /\ bitmap_test s p = false /\
  forall q, 0 <= q < p -> bitmap_test s q = true.

Lemma scan_bits_spec s n i bit :
  pmm_wf s -> 0 <= i < bitmap_size s -> 0 <= bit -> bit + Z.of_nat n = 64 ->
  (forall q, 0 <= q < i * 64 + bit -> bitmap_test s q = true) ->
  (exists b, bit <= b < 64 /\ bitmap_test s (i * 64 + b) = false) ->
  exists p, scan_bits n s i bit = Found p /\ first_free s p.
Proof.
  intros Hwf Hi. revert bit. induction n as [|n IH]; intros bit Hbit Hn Hlow (b & Hb & Hfree).
  { lia. }
  assert (i * 64 + b < total_pages s) as Hbt.
  { destruct (decide (total_pages s <= i * 64 + b)); [|lia].
    rewrite (wf_tail s Hwf) in Hfree by lia. done. }
  destruct Hwf as [Hsz ? ? ? ? ? ? ? Hend H48]. unfold PAGE_SIZE in *.
  simpl. rewrite u64_small by dlia. rewrite (proj2 (Z.leb_gt _ _)) by lia.
  destruct (bitmap_test s (i * 64 + bit)) eqn:E; simpl.
  - apply IH; [lia|lia| |].
    + intros q Hq. destruct (decide (q = i * 64 + bit)) as [->|]; [done|apply Hlow; lia].
    + exists b. split; [|done]. destruct (decide (b = bit)) as [->|]; [congruence|lia].
  - eexists. split; [done|]. split; [lia|]. split; [done|]. intros q Hq. apply Hlow. lia.
Qed.

Lemma scan_words_spec s n i :
  pmm_wf s -> 0 <= i -> i + Z.of_nat n = bitmap_size s ->
  (forall q, 0 <= q < i * 64 -> bitmap_test s q = true) ->
  (exists p, scan_words n s i = Found p /\ first_free s p) \/
  (scan_words n s i = WordDone /\ forall q, 0 <= q < total_pages s -> bitmap_test s q = true).
Proof.
  intros Hwf. revert i. induction n as [|n IH]; intros i Hi Hn Hlow; cbn [scan_words].
  { right. split; [done|]. intros q Hq. apply Hlow. pose proof (wf_size s Hwf) as Hs. clear - Hs Hq Hn. dlia. }
  assert (0 <= i < bitmap_size s) as Hir by lia.
  pose proof (word_range s (wf_len s Hwf) (wf_words s Hwf) i Hir) as Hword.
  assert (forall b, 0 <= b < 64 ->
            bitmap_test s (i * 64 + b) = Z.testbit (rd (bitmap s) i) b) as Hbits.
  { intros b Hb. rewrite bitmap_test_bit by lia. f_equal; [f_equal|]; dlia. }
  destruct (Z.eqb_spec (rd (bitmap s) i) ALL_ONES) as [E|E].
  - apply IH; [lia|lia|]. intros q Hq. destruct (decide (q < i * 64)); [apply Hlow; lia|].
    replace q with (i * 64 + (q - i * 64)) by lia. rewrite Hbits by lia. rewrite E.
    unfold ALL_ONES. replace (2 ^ 64 - 1) with (Z.ones 64) by done.
    apply Z.ones_spec_low. lia.
  - destruct (all_ones_bits _ Hword E) as (b & Hb & Hf).
    destruct (scan_bits_spec s 64 i 0) as (p & -> & Hp); try done; try lia.
    + intros q Hq. apply Hlow. lia.
    + exists b. by rewrite Hbits.
    + left. by exists p.
Qed.

Lemma allocate_page_spec s a s' :
  pmm_wf s -> pmm_allocate_page s = (a, s') ->
  (a = 0 /\ s' = s /\ forall q, 0 <= q < total_pages s -> bitmap_test s q = true) \/
  (exists p, first_free s p /\ a = mem_region_start s + p * PAGE_SIZE /\ run_ok a 1 /\
     pmm_wf s' /\ used_set s' = {[p]} ∪ used_set s /\ p ∉ used_set s /\
     used_pages s' = used_pages s + 1 /\
     mem_region_start s' = mem_region_start s /\ total_pages s' = total_pages s /\
     reserved_pages s' = reserved_pages s).
Proof.
  intros Hwf. unfold pmm_allocate_page.
  destruct (scan_words_spec s (Z.to_nat (bitmap_size s)) 0 Hwf) as [(p & -> & Hp)|[-> Hall]].
  { lia. } { pose proof (wf_len s Hwf). lia. } { intros; lia. }
  - intros [= <- <-]. right. exists p. destruct Hp as (Hp & Hfree & Hlow).
    destruct (phys_of_pfn s p 1 Hwf) as [Haddr Hok]; [lia..|]. simpl. rewrite Haddr.
    pose proof (wf_size s Hwf) as Hsz.
    destruct (wf_grow s (set_used (bitmap_set s p) (u64 (used_pages s + 1))) {[p]})
      as (Hwf' & Hset & Hdis); try done.
    + apply bitmap_set_len.
    + apply bitmap_set_words; [apply (wf_len s Hwf)|apply (wf_words s Hwf)].
    + intros q Hq. change (bitmap_test (set_used (bitmap_set s p) (u64 (used_pages s + 1))) q)
        with (bitmap_test (bitmap_set s p) q).
      rewrite bitmap_test_set; [|apply (wf_len s Hwf)|dlia|done].
      f_equal. apply bool_decide_ext. rewrite elem_of_singleton. done.
    + intros q ->%elem_of_singleton. split; [lia|done].
    + by rewrite size_singleton.
    + assert (p ∉ used_set s) as Hnin.
      { intros Hin. by apply (Hdis p); [apply elem_of_singleton|]. }
      pose proof (wf_used _ Hwf') as HU. rewrite Hset, size_union, size_singleton in HU by done.
      simpl in HU. assert (u64 (used_pages s + 1) = used_pages s + 1) as Hcnt
        by (rewrite HU, (wf_used s Hwf); lia).
      do 8 (split; [done|]). by split.
  - intros [= <- <-]. by left.
Qed.

(** ** [pmm_allocate_pages] *)

(** The loop invariant of the run search: the [L] pages before [pfn] are free,
    the run cannot be extended to the left, and no run of [count] free pages
    ends at or before [pfn]. *)
Record run_inv (s : pmm) (lo count pfn start L : Z) : Prop := {
  ri_L : 0 <= L < count;
  ri_lo : lo <= pfn - L;
  ri_start : 0 < L -> start = pfn - L;
  ri_free : all_free s (pfn - L) L;
  ri_left : pfn - L = lo \/ bitmap_test s (pfn - L - 1) = true;
  ri_none st : lo <= st -> st + count <= pfn -> ~ all_free s st count
}.

Lemma run_scan_spec s lo count n pfn start L :
  0 < count -> run_inv s lo count pfn start L ->
  match run_scan n s count pfn start L with
  | Some st => lo <= st /\ st + count <= pfn + Z.of_nat n /\ all_free s st count /\
               forall st', lo <= st' < st -> ~ all_free s st' count
  | None => forall st, lo <= st -> st + count <= pfn + Z.of_nat n -> ~ all_free s st count
  end.
Proof.
  intros Hc. revert pfn start L. induction n as [|n IH]; intros pfn start L [HL Hlo Hs Hf Hl Hn];
    simpl run_scan.
  { intros st ? ?. apply Hn; lia. }
  destruct (bitmap_test s pfn) eqn:E; cbn [negb].
  - specialize (IH (pfn + 1) start 0). destruct (run_scan _ _ _ _ _ _).
    + destruct IH as (? & ? & ? & ?); [|split; [lia|]; split; [lia|done]].
      constructor; try lia.
      * intros p Hp. lia.
      * right. by replace (pfn + 1 - 0 - 1) with pfn by lia.
      * intros st ? ? Haf. destruct (decide (st + count <= pfn)); [by eapply Hn; eauto|].
        rewrite (Haf pfn) in E by lia. done.
    + intros st ? ?. apply IH; [|lia|lia].
      constructor; try lia.
      * intros p Hp. lia.
      * right. by replace (pfn + 1 - 0 - 1) with pfn by lia.
      * intros st' ? ? Haf. destruct (decide (st' + count <= pfn)); [by eapply (Hn st')|].
        rewrite (Haf pfn) in E by lia. done.
  - assert ((if L =? 0 then pfn else start) = pfn - L) as Hst.
    { destruct (Z.eqb_spec L 0); [lia|apply Hs; lia]. }
    rewrite Hst. assert (all_free s (pfn - L) (L + 1)) as Hf'.
    { intros p Hp. destruct (decide (p = pfn)) as [->|]; [done|apply Hf; lia]. }
    assert (forall st, lo <= st -> st < pfn - L -> st + count <= pfn + 1 -> ~ all_free s st count)
      as Hnew.
    { intros st ? ? ? Haf. destruct (decide (st + count <= pfn)); [by eapply Hn; eauto|].
      destruct Hl as [?|Hl]; [lia|]. rewrite (Haf (pfn - L - 1)) in Hl by lia. done. }
    destruct (Z.eqb_spec (L + 1) count) as [Ec|Ec].
    + split; [lia|]. split; [lia|]. rewrite <- Ec. split; [done|]. intros st' ?.
      rewrite Ec. apply Hnew; lia.
    + assert (run_inv s lo count (pfn + 1) (pfn - L) (L + 1)) as Hinv.
      { constructor; try lia.
        - by replace (pfn + 1 - (L + 1)) with (pfn - L) by lia.
        - by replace (pfn + 1 - (L + 1)) with (pfn - L) by lia.
        - intros st ? ?. apply Hnew; lia. }
      specialize (IH _ _ _ Hinv). destruct (run_scan _ _ _ _ _ _).
      * destruct IH as (? & ? & ? & ?). split; [lia|]. split; [lia|done].
      * intros st ? ?. apply IH; lia.
Qed.

(** [pfns st n]: page frame numbers [st, st+n). *)
Definition pfns (st n : Z) : gset Z := list_to_set (seqZ st n).
Lemma elem_of_pfns st n q : q ∈ pfns st n <-> st <= q < st + n.
Proof. unfold pfns. rewrite elem_of_list_to_set, elem_of_seqZ. done. Qed.
Lemma size_pfns st n : 0 <= n -> Z.of_nat (size (pfns st n)) = n.
Proof.
  intros. unfold pfns. rewrite size_list_to_set by apply NoDup_seqZ.
  rewrite length_seqZ. lia.
Qed.

Lemma allocate_pages_spec s count a s' :
  pmm_wf s -> 0 < count < 2 ^ 64 -> pmm_allocate_pages count s = (a, s') ->
  (a = 0 /\ s' = s /\
   forall st, reserved_pages s <= st -> st + count <= total_pages s -> ~ all_free s st count) \/
  (exists st, reserved_pages s <= st /\ st + count <= total_pages s /\ all_free s st count /\
     (forall st', reserved_pages s <= st' < st -> ~ all_free s st' count) /\
     a = mem_region_start s + st * PAGE_SIZE /\ run_ok a count /\
     pmm_wf s' /\ used_set s' = pfns st count ∪ used_set s /\ pfns st count ## used_set s /\
     mem_region_start s' = mem_region_start s /\ total_pages s' = total_pages s /\
     reserved_pages s' = reserved_pages s).
Proof.
  intros Hwf Hc. unfold pmm_allocate_pages. destruct (Z.eqb_spec count 0); [lia|].
  destruct (Z.eqb_spec count 1) as [->|Hc1].
  { intros Hal. destruct (allocate_page_spec s a s' Hwf Hal)
      as [(-> & -> & Hall)|(p & (Hp & Hf & Hlow) & -> & Hok & Hwf' & Hset & Hnin & _ & ? & ? & ?)].
    - left. split; [done|]. split; [done|]. intros st ? ? Haf. pose proof (wf_res_le s Hwf).
      specialize (Haf st ltac:(lia)). by rewrite Hall in Haf by lia.
    - right. exists p. assert (reserved_pages s <= p) as Hrp.
      { destruct (decide (p < reserved_pages s)); [|lia].
        rewrite (wf_res s Hwf) in Hf by lia. done. }
      assert (pfns p 1 = {[p]}) as Hp1.
      { apply set_eq. intros q. rewrite elem_of_pfns, elem_of_singleton. lia. }
      rewrite Hp1. split; [lia|]. split; [lia|]. split.
      { intros q ?. by replace q with p by lia. }
      split. { intros st' ? Haf. pose proof (wf_res_le s Hwf). specialize (Haf st' ltac:(lia)).
        by rewrite Hlow in Haf by lia. }
      do 4 (split; [done|]). split; [|done]. intros q ->%elem_of_singleton. apply Hnin. }
  pose proof (wf_res_le s Hwf) as Hr. pose proof (wf_size s Hwf) as Hsz.
  pose proof (run_scan_spec s (reserved_pages s) count
    (Z.to_nat (total_pages s - reserved_pages s)) (reserved_pages s) 0 0) as Hscan.
  destruct (run_scan _ _ _ _ _ _) as [st|].
  - intros [= <- <-]. right. exists st. destruct Hscan as (Hlo & Hhi & Haf & Hmin); [lia| |].
    { constructor; try lia. intros q ?. lia. }
    destruct (set_range_frame (Z.to_nat count) s st) as (F1 & F2 & F3 & F4 & F5 & F6 & F7).
    destruct (phys_of_pfn s st count Hwf) as [Haddr Hok]; [lia..|]. simpl. rewrite F6, Haddr.
    set (s1 := bitmap_set_range s st (Z.to_nat count)) in *.
    destruct (wf_grow s (set_used s1 (u64 (used_pages s1 + count))) (pfns st count))
      as (Hwf' & Hset & Hdis); try done.
    + apply set_range_words; [apply (wf_len s Hwf)|apply (wf_words s Hwf)].
    + intros q Hq. change (bitmap_test (set_used s1 (u64 (used_pages s1 + count))) q)
        with (bitmap_test s1 q). unfold s1.
      rewrite bitmap_test_range; [|apply (wf_len s Hwf)|apply (wf_words s Hwf)|lia|dlia|lia].
      f_equal. apply bool_decide_ext. rewrite elem_of_pfns. lia.
    + intros q ?%elem_of_pfns. split; [lia|]. apply Haf. lia.
    + simpl. rewrite F4, size_pfns by lia. done.
    + split; [lia|]. split; [lia|]. by do 9 (split; [done|]).
  - intros [= <- <-]. left. split; [done|]. split; [done|]. intros st ? ?. apply Hscan; [lia| |lia|lia].
    constructor; try lia. intros q ?. lia.
Qed.

(** ** [pmm_free_page] *)
Lemma mask_4095 x : test_mask x (PAGE_SIZE - 1) = negb (x mod PAGE_SIZE =? 0).
Proof.
  unfold test_mask, PAGE_SIZE. change (4096 - 1) with (Z.ones 12).
  rewrite Z.land_ones by lia. done.
Qed.

Definition pfn_of (s : pmm) (a : Z) : Z := (a - mem_region_start s) / PAGE_SIZE.

Lemma free_page_spec s a :
  pmm_wf s -> 0 <= a < 2 ^ 64 ->
  let '(r, s') := pmm_free_page a s in
  match r with
  | OutsideRegion => s' = s /\ (a < mem_region_start s \/ mem_region_end s <= a)
  | NotAligned => s' = s /\ a mod PAGE_SIZE <> 0
  | ReservedPage => s' = s /\ 0 <= pfn_of s a < reserved_pages s
  | Unallocated => s' = s /\ bitmap_test s (pfn_of s a) = false /\
                   reserved_pages s <= pfn_of s a < total_pages s
  | Freed =>
      a = mem_region_start s + pfn_of s a * PAGE_SIZE /\
      reserved_pages s <= pfn_of s a < total_pages s /\ pfn_of s a ∈ used_set s /\
      pmm_wf s' /\ used_set s' = used_set s ∖ {[pfn_of s a]} /\
      used_pages s' = used_pages s - 1 /\
      mem_region_start s' = mem_region_start s /\ total_pages s' = total_pages s /\
      reserved_pages s' = reserved_pages s
  end.
Proof.
  intros Hwf Ha. unfold pmm_free_page.
  destruct (_ || _) eqn:E1. { split; [done|]. lia. }
  rewrite mask_4095. destruct (Z.eqb_spec (a mod PAGE_SIZE) 0) as [Eal|Eal]; cbn [negb].
  2: { done. }
  pose proof (wf_start s Hwf) as [Hst Hsa]. pose proof (wf_end s Hwf) as He.
  assert (PHYS_TO_PFN (u64 (a - mem_region_start s)) = pfn_of s a) as ->.
  { unfold PHYS_TO_PFN, pfn_of, PAGE_SHIFT. rewrite u64_small by lia.
    rewrite Z.shiftr_div_pow2 by lia. done. }
  assert (a = mem_region_start s + pfn_of s a * PAGE_SIZE) as Hpa.
  { unfold pfn_of, PAGE_SIZE in *. dlia. }
  assert (0 <= pfn_of s a < total_pages s) as Hpr.
  { unfold PAGE_SIZE in *. lia. }
  destruct (Z.ltb_spec (pfn_of s a) (reserved_pages s)); [split; [done|lia]|].
  destruct (bitmap_test s (pfn_of s a)) eqn:Eb; cbn [negb]; [|split; [done|split; [done|lia]]].
  set (p := pfn_of s a) in *. clearbody p.
  assert (p ∈ used_set s) as Hin by (apply elem_of_used_set; split; [lia|done]).
  assert (0 <= p < 64 * bitmap_size s) as Hidx by (pose proof (wf_size s Hwf); dlia).
  set (s' := set_used _ _).
  assert (forall q, 0 <= q -> bitmap_test s' q = bitmap_test s q && negb (bool_decide (p = q))) as Hb.
  { intros q Hq. change (bitmap_test s' q) with (bitmap_test (bitmap_clear s p) q).
    apply bitmap_test_clear; [apply (wf_len s Hwf)|apply (wf_words s Hwf)|done|done]. }
  assert (used_set s' = used_set s ∖ {[p]}) as Hset.
  { apply set_eq. intros q. rewrite elem_of_difference, !elem_of_used_set, elem_of_singleton.
    change (total_pages s') with (total_pages s). split.
    - intros [? Ht]. rewrite Hb in Ht by lia. apply andb_true_iff in Ht as [? Ht].
      rewrite negb_true_iff, bool_decide_eq_false in Ht. split; [done|congruence].
    - intros [[? ?] ?]. split; [done|]. rewrite Hb by lia.
      rewrite bool_decide_false by congruence. by rewrite andb_true_r. }
  assert (Z.of_nat (size (used_set s')) = used_pages s - 1) as Hsize.
  { rewrite Hset, size_difference by set_solver. rewrite size_singleton.
    rewrite (wf_used s Hwf). assert (used_set s ≢ ∅) as Hne by set_solver.
    apply size_non_empty_iff in Hne. lia. }
  assert (used_pages s' = used_pages s - 1) as HU.
  { change (used_pages s') with (u64 (used_pages s - 1)).
    pose proof (used_set_bound s). pose proof (wf_used s Hwf). pose proof (wf_48 s Hwf).
    unfold PAGE_SIZE in *. apply u64_small. lia. }
  split; [done|]. split; [lia|]. split; [done|]. split; [|done]. destruct Hwf. constructor; try done.
  - change (length (bitmap s')) with (length (bitmap (bitmap_clear s p))).
    by rewrite bitmap_clear_len.
  - by apply bitmap_clear_words.
  - intros q Hq. change (total_pages s') with (total_pages s) in Hq.
    change (bitmap_size s') with (bitmap_size s) in Hq.
    rewrite Hb by lia. rewrite wf_tail0 by done. rewrite bool_decide_false by lia. done.
  - intros q Hq. change (reserved_pages s') with (reserved_pages s) in Hq.
    rewrite Hb by lia. rewrite wf_res0 by done. rewrite bool_decide_false by lia. done.
  - by rewrite HU.
Qed.

(** ** Initialisation *)
Lemma PAGE_ALIGN_UP_eq a :
  0 <= a -> a + PAGE_SIZE <= 2 ^ 64 ->
  PAGE_ALIGN_UP a = (a + PAGE_SIZE - 1) / PAGE_SIZE * PAGE_SIZE.
Proof.
  intros ? Hle. unfold PAGE_ALIGN_UP, PAGE_SIZE in *. rewrite u64_small by lia.
  change (4096 - 1) with (2 ^ 12 - 1). rewrite land_unot_ones by lia. done.
Qed.

(** The bitmap before the reserved pages are marked: exactly the bits of
    non-existent pages are set. *)
Lemma init_bitmap_bits total q :
  0 < total < 2 ^ 36 ->
  let bsize := (total + 63) / 64 in
  let zeroed := replicate (Z.to_nat bsize) 0 in
  let b := if negb (total mod 64 =? 0)
           then wr zeroed (bsize - 1) (unot 64 ((1 <<< (total mod 64)) - 1))
           else zeroed in
  Z.of_nat (length b) = bsize /\ Forall (is_u 64) b /\
  (0 <= q < 64 * bsize -> Z.testbit (rd b (q / 64)) (q mod 64) = bool_decide (total <= q)).
Proof.
  intros Ht bsize zeroed b.
  assert (Z.of_nat (length zeroed) = bsize) as Hlz.
  { unfold zeroed, bsize. rewrite length_replicate. dlia. }
  assert (Forall (is_u 64) zeroed) as HFz.
  { unfold zeroed. apply Forall_replicate. split; lia. }
  subst b. destruct (Z.eqb_spec (total mod 64) 0) as [E|E]; cbn [negb].
  - split; [done|]. split; [done|]. intros Hq. unfold zeroed.
    rewrite rd_replicate by (unfold bsize in *; dlia). rewrite Z.testbit_0_l.
    rewrite bool_decide_false; [done|]. unfold bsize in *. dlia.
  - rewrite length_wr. split; [done|]. split.
    { apply Forall_wr; [done|]. by apply wrap_range. }
    intros Hq. destruct (decide (q / 64 = bsize - 1)) as [El|El].
    + rewrite El, rd_wr_eq by (unfold bsize in *; dlia). rewrite testbit_unot by dlia.
      rewrite Z.shiftl_1_l. replace (2 ^ (total mod 64) - 1) with (Z.ones (total mod 64))
        by (rewrite Z.ones_equiv; lia).
      destruct (decide (q mod 64 < total mod 64)).
      * rewrite Z.ones_spec_low by dlia. rewrite bool_decide_false; [done|].
        unfold bsize in *. dlia.
      * rewrite Z.ones_spec_high by dlia. rewrite bool_decide_true; [done|].
        unfold bsize in *. dlia.
    + rewrite rd_wr_ne by (unfold bsize in *; dlia). unfold zeroed.
      rewrite rd_replicate by (unfold bsize in *; dlia). rewrite Z.testbit_0_l.
      rewrite bool_decide_false; [done|]. unfold bsize in *. dlia.
Qed.

Section init.
Context (kernel_end mem_start mem_size : Z).
Hypothesis Hstart : 0 < mem_start /\ mem_start mod PAGE_SIZE = 0.
Hypothesis Hsize : 0 < mem_size /\ mem_size mod PAGE_SIZE = 0.
Hypothesis H48 : mem_start + mem_size < 2 ^ 48.
Hypothesis Hkend : mem_start <= kernel_end.
(** the assertion the source leaves as a comment: the bitmap fits *)
Let bitmap_bytes := (mem_size / PAGE_SIZE + 63) / 64 * 8.
Hypothesis Hfits : kernel_end + PAGE_SIZE + bitmap_bytes + PAGE_SIZE <= mem_start + mem_size.

Lemma init_spec :
  let s := pmm_init kernel_end mem_start mem_size in
  pmm_wf s /\ total_pages s = mem_size / PAGE_SIZE /\
  used_set s = pfns 0 (reserved_pages s) /\
  kernel_end <= bitmap_addr s /\
  bitmap_addr s + bitmap_bytes <= mem_start + reserved_pages s * PAGE_SIZE.
Proof using All.
  unfold pmm_init. set (total := mem_size / PAGE_SIZE) in *.
  assert (mem_size = total * PAGE_SIZE) as Hms by (subst total; unfold PAGE_SIZE in *; dlia).
  assert (0 < total < 2 ^ 36) as Ht by (unfold PAGE_SIZE in *; lia).
  rewrite (u64_small (total + 63)) by lia. set (bsize := (total + 63) / 64) in *.
  assert (0 < bsize <= total) as Hbs by (subst bsize; dlia).
  rewrite (u64_small (bsize * 8)) by lia.
  assert (0 <= kernel_end /\ kernel_end + PAGE_SIZE <= 2 ^ 64) as [Hk1 Hk2]
    by (unfold PAGE_SIZE in *; lia).
  rewrite (PAGE_ALIGN_UP_eq kernel_end) by done.
  set (baddr := (kernel_end + PAGE_SIZE - 1) / PAGE_SIZE * PAGE_SIZE).
  assert (kernel_end <= baddr < kernel_end + PAGE_SIZE) as Hba
    by (subst baddr; unfold PAGE_SIZE; dlia).
  rewrite (u64_small (baddr + bsize * 8)) by (unfold PAGE_SIZE in *; lia).
  rewrite PAGE_ALIGN_UP_eq by (unfold PAGE_SIZE in *; lia).
  set (rend := (baddr + bsize * 8 + PAGE_SIZE - 1) / PAGE_SIZE * PAGE_SIZE).
  assert (baddr + bsize * 8 <= rend < baddr + bsize * 8 + PAGE_SIZE /\ rend mod PAGE_SIZE = 0)
    as [Hre Hrm] by (subst rend; unfold PAGE_SIZE; dlia).
  rewrite (u64_small (rend - mem_start)) by (unfold PAGE_SIZE in *; lia).
  set (res := (rend - mem_start) / PAGE_SIZE).
  assert (rend = mem_start + res * PAGE_SIZE) as Hrend
    by (subst res; unfold PAGE_SIZE in *; dlia).
  assert (0 <= res <= total) as Hres by (unfold PAGE_SIZE in *; lia).
  rewrite (u64_small (mem_start + mem_size)) by lia.
  set (b := if negb (total mod 64 =? 0) then _ else _).
  set (s0 := MkPmm b baddr bsize total 0 res mem_start (mem_start + mem_size)).
  assert (Z.of_nat (length b) = bsize) as HL by (apply (init_bitmap_bits total 0 Ht)).
  assert (Forall (is_u 64) b) as HW by (apply (init_bitmap_bits total 0 Ht)).
  assert (forall q, 0 <= q < 64 * bsize -> bitmap_test s0 q = bool_decide (total <= q)) as Hb0.
  { intros q Hq. rewrite bitmap_test_bit by lia. by apply (init_bitmap_bits total q Ht). }
  destruct (set_range_frame (Z.to_nat res) s0 0) as (F1 & F2 & F3 & F4 & F5 & F6 & F7).
  set (s1 := bitmap_set_range s0 0 (Z.to_nat res)) in *.
  assert (forall q, 0 <= q < 64 * bsize ->
            bitmap_test (set_used s1 res) q = bool_decide (total <= q) || bool_decide (q < res)) as Hb.
  { intros q Hq. change (bitmap_test (set_used s1 res) q) with (bitmap_test s1 q). unfold s1.
    rewrite bitmap_test_range; [|done|done|lia|simpl; subst bsize; dlia|lia].
    rewrite Hb0 by done. f_equal. apply bool_decide_ext. lia. }
  assert (used_set (set_used s1 res) = pfns 0 res) as Hset.
  { apply set_eq. intros q. rewrite elem_of_used_set, elem_of_pfns. simpl. rewrite F3. simpl.
    split.
    - intros [Hq Ht']. rewrite Hb in Ht' by (subst bsize; dlia).
      rewrite bool_decide_false in Ht' by lia. apply bool_decide_eq_true in Ht'. lia.
    - intros Hq. split; [lia|]. rewrite Hb by (subst bsize; dlia).
      rewrite (bool_decide_true (q < res)) by lia. by rewrite orb_true_r. }
  split.
  { constructor; cbn [set_used bitmap bitmap_size total_pages used_pages reserved_pages
      mem_region_start mem_region_end]; rewrite ?F1, ?F2, ?F3, ?F5, ?F6, ?F7; try done.
    - by apply set_range_words.
    - intros q Hq. simpl in Hq. rewrite Hb by lia. by rewrite bool_decide_true by lia.
    - intros q Hq. simpl in Hq. rewrite Hb by (subst bsize; dlia).
      rewrite (bool_decide_true (q < res)) by lia. by rewrite orb_true_r.
    - rewrite Hset, size_pfns; lia.
    - simpl. lia. }
  assert (bitmap_addr s1 = baddr) as Hba1.
  { unfold s1. clear. generalize 0. generalize (Z.to_nat res) as n.
    assert (forall n s p, bitmap_addr (bitmap_set_range s p n) = bitmap_addr s) as H.
    { induction n as [|n IH]; intros; simpl; [done|]. by rewrite IH. }
    intros. by rewrite H. }
  split; [simpl; by rewrite F3|]. cbn [set_used reserved_pages bitmap_addr].
  rewrite F5, Hba1. simpl. split; [by rewrite <- Hset; f_equal; rewrite F5|]. lia.
Qed.
End init.

(** ** The interface of [PageAlloc] *)
Definition owned (s : pmm) : gset Z :=
  set_map (fun p => mem_region_start s + p * PAGE_SIZE)
          (filter (fun p => reserved_pages s <= p) (used_set s)).

Lemma elem_of_owned s a :
  a ∈ owned s <-> exists p, reserved_pages s <= p /\ p ∈ used_set s /\
                    a = mem_region_start s + p * PAGE_SIZE.
Proof.
  unfold owned. rewrite elem_of_map. setoid_rewrite elem_of_filter. naive_solver.
Qed.

(** Freeing one page removes it from the handed-out set, or changes nothing. *)
Lemma free_page_owned s a :
  pmm_wf s -> 0 <= a < 2 ^ 64 ->
  let s' := snd (pmm_free_page a s) in
  pmm_wf s' /\ owned s' = owned s ∖ {[a]} /\ (a ∉ owned s -> s' = s) /\
  mem_region_start s' = mem_region_start s /\ total_pages s' = total_pages s /\
  reserved_pages s' = reserved_pages s.
Proof.
  intros Hwf Ha. pose proof (free_page_spec s a Hwf Ha) as Hs.
  assert (forall p, reserved_pages s <= p -> p ∈ used_set s -> a = mem_region_start s + p * PAGE_SIZE ->
            pfn_of s a = p /\ a mod PAGE_SIZE = 0 /\ mem_region_start s <= a < mem_region_end s /\
            bitmap_test s p = true) as Hback.
  { intros p Hr [Hp Hb]%elem_of_used_set ->. pose proof (wf_end s Hwf). pose proof (wf_start s Hwf).
    unfold pfn_of, PAGE_SIZE in *. repeat split; try done; try lia; dlia. }
  destruct (pmm_free_page a s) as [r s'] eqn:E. cbn [snd]. destruct r.
  { destruct Hs as (Ha' & Hr & Hin & Hwf' & Hset & _ & Hst & Htot & Hres).
    split; [done|]. assert (owned s' = owned s ∖ {[a]}) as Ho.
    { apply set_eq. intros x. rewrite elem_of_difference, elem_of_singleton, !elem_of_owned.
      rewrite Hst, Hres, Hset. setoid_rewrite elem_of_difference. setoid_rewrite elem_of_singleton.
      unfold PAGE_SIZE in *. split.
      - intros (p & ? & [? ?] & ->). split; [eauto|lia].
      - intros [(p & ? & ? & ->) ?]. exists p. split; [done|]. split; [|done]. split; [done|].
        intros ->. lia. }
    split; [done|]. split; [|done]. intros Hn. destruct Hn. apply elem_of_owned.
    exists (pfn_of s a). split; [lia|done]. }
  all: destruct Hs as [-> Hs]; split; [done|]; split; [|done];
       apply set_eq; intros x; rewrite elem_of_difference, elem_of_singleton;
       (split; [|by intros [??]]); intros Hx; (split; [done|]); intros ->;
       apply elem_of_owned in Hx as (p & Hrp & Hu & Hxp);
       destruct (Hback p Hrp Hu Hxp) as (Hpf & ? & ? & Hbt); rewrite ?Hpf in Hs.
  all: try lia.
Qed.

Lemma free_loop_owned n s a i :
  pmm_wf s -> 0 <= a -> 0 <= i -> a + (i + Z.of_nat n) * PAGE_SIZE <= 2 ^ 64 ->
  let s' := free_loop n a i s in
  pmm_wf s' /\ owned s' = owned s ∖ pages (a + i * PAGE_SIZE) (Z.of_nat n) /\
  mem_region_start s' = mem_region_start s /\ total_pages s' = total_pages s /\
  reserved_pages s' = reserved_pages s.
Proof.
  revert s i. induction n as [|n IH]; intros s i Hwf Ha Hi Hle; cbn [free_loop].
  { do 3 (split; [first [done | rewrite pages_empty by lia; set_solver]|]). done. }
  unfold PAGE_SIZE in Hle. rewrite (u64_small (i * PAGE_SIZE)) by (unfold PAGE_SIZE; lia).
  rewrite (u64_small (a + i * PAGE_SIZE)) by (unfold PAGE_SIZE; lia).
  destruct (free_page_owned s (a + i * PAGE_SIZE) Hwf) as (Hwf1 & Ho1 & _ & Hst & Htot & Hres).
  { unfold PAGE_SIZE. lia. }
  destruct (IH _ (i + 1) Hwf1) as (Hwf2 & Ho2 & Hst2 & Htot2 & Hres2); [lia|lia|unfold PAGE_SIZE; lia|].
  cbv zeta in *. rewrite Ho2, Hst2, Htot2, Hres2, Ho1. split; [done|]. split; [|done].
  rewrite (pages_cons (a + i * PAGE_SIZE)) by lia.
  replace (a + i * PAGE_SIZE + PAGE_SIZE) with (a + (i + 1) * PAGE_SIZE) by lia.
  replace (Z.of_nat (S n) - 1) with (Z.of_nat n) by lia. set_solver.
Qed.

#[global] Instance pmm_allocator : PageAllocator pmm := {
  pa_alloc_page := pmm_allocate_page;
  pa_alloc_pages := pmm_allocate_pages;
  pa_free_page a s := snd (pmm_free_page a s);
  pa_free_pages := pmm_free_pages;
  pa_ok := pmm_wf;
  pa_owned := owned
}.

(** Adding or removing frames of the used set changes [owned] accordingly. *)
Lemma owned_add s s' P :
  mem_region_start s' = mem_region_start s -> reserved_pages s' = reserved_pages s ->
  used_set s' = P ∪ used_set s -> (forall p, p ∈ P -> reserved_pages s <= p) ->
  owned s' = set_map (fun p => mem_region_start s + p * PAGE_SIZE) P ∪ owned s.
Proof.
  intros Hst Hr Hset HP. apply set_eq. intros a.
  rewrite elem_of_union, elem_of_map, !elem_of_owned, Hst, Hr, Hset.
  setoid_rewrite elem_of_union. split.
  - intros (p & ? & [?|?] & ->); [left; eauto|right; eauto].
  - intros [(p & -> & ?)|(p & ? & ? & ->)]; exists p; auto.
Qed.

Lemma set_map_pfns start st n :
  set_map (fun p => start + p * PAGE_SIZE) (pfns st n) = pages (start + st * PAGE_SIZE) n.
Proof.
  apply set_eq. intros a. rewrite elem_of_map, elem_of_pages. setoid_rewrite elem_of_pfns.
  unfold PAGE_SIZE. split.
  - intros (p & -> & ?). exists (p - st). lia.
  - intros (i & ? & ->). exists (st + i). lia.
Qed.

Lemma owned_used s p :
  reserved_pages s <= p -> (mem_region_start s + p * PAGE_SIZE ∈ owned s <-> p ∈ used_set s).
Proof.
  intros. rewrite elem_of_owned. unfold PAGE_SIZE. split.
  - intros (q & ? & ? & ?). by replace p with q by lia.
  - eauto.
Qed.

Lemma first_free_not_reserved s p : pmm_wf s -> first_free s p -> reserved_pages s <= p.
Proof.
  intros Hwf (? & Hf & _). destruct (decide (p < reserved_pages s)); [|lia].
  rewrite (wf_res s Hwf) in Hf by lia. done.
Qed.

Lemma pmm_owned_ok s a : pmm_wf s -> a ∈ owned s -> run_ok a 1.
Proof.
  intros Hwf (p & ? & [? _]%elem_of_used_set & ->)%elem_of_owned.
  pose proof (wf_res_le s Hwf). apply (phys_of_pfn s p 1 Hwf); lia.
Qed.

#[global] Instance pmm_allocator_laws : PageAllocatorLaws pmm.
Proof.
  constructor.
  - intros s a s' Hwf Hal.
    destruct (allocate_page_spec s a s' Hwf Hal)
      as [(-> & -> & _)|(p & Hp & -> & Hok & Hwf' & Hset & Hnin & _ & Hst & _ & Hr)]; [by auto|].
    split; [done|]. right. pose proof (first_free_not_reserved s p Hwf Hp).
    split; [done|]. split; [by apply (not_iff_compat (owned_used s p H))|].
    change (owned s' = {[mem_region_start s + p * PAGE_SIZE]} ∪ owned s).
    rewrite (owned_add s s' {[p]}) by (done || by intros ? ->%elem_of_singleton).
    by rewrite set_map_singleton_L.
  - intros s n a s' Hwf Hn Hal.
    destruct (allocate_pages_spec s n a s' Hwf Hn Hal)
      as [(-> & -> & _)|(st & ? & ? & ? & ? & -> & Hok & Hwf' & Hset & Hdis & Hst & _ & Hr)];
      [by auto|].
    split; [done|]. right. split; [done|]. split.
    { intros x (i & ? & ->)%elem_of_pages Hin.
      replace (mem_region_start s + st * PAGE_SIZE + i * PAGE_SIZE)
        with (mem_region_start s + (st + i) * PAGE_SIZE) in Hin by lia.
      apply (owned_used s (st + i)) in Hin; [|lia].
      apply (Hdis (st + i)); [|done]. apply elem_of_pfns. lia. }
    change (owned s' = pages (mem_region_start s + st * PAGE_SIZE) n ∪ owned s).
    rewrite (owned_add s s' (pfns st n)); [|done..|intros p ?%elem_of_pfns; lia].
    by rewrite set_map_pfns.
  - intros s a Hwf Hin. destruct (pmm_owned_ok s a Hwf Hin) as (? & ? & ?).
    destruct (free_page_owned s a Hwf) as (? & ? & _); [unfold PAGE_SIZE in *; lia|done].
  - intros s a Hwf Ha Hnin. by apply (free_page_owned s a Hwf Ha).
  - intros s a n Hwf (? & ? & ?) _. simpl. unfold pmm_free_pages. destruct (decide (0 < n)).
    2: { replace (Z.to_nat n) with O by lia. rewrite pages_empty by lia. split; [done|set_solver]. }
    destruct (free_loop_owned (Z.to_nat n) s a 0 Hwf) as (? & Ho & _); [lia|lia|unfold PAGE_SIZE in *; lia|].
    rewrite Z2Nat.id, Z.mul_0_l, Z.add_0_r in Ho by lia. done.
  - apply pmm_owned_ok.
Qed.

(** ** Abstract specification

    The contract of pmm.h: a set [U] of handed-out page addresses inside the
    managed range [lo, hi); allocation is first fit, freeing removes pages. *)
Inductive op :=
  | AllocPage
  | AllocPages (count : Z)
  | FreePage (phys_addr : Z)
  | FreePages (phys_addr count : Z).

Definition exec (o : op) (s : pmm) : Z * pmm :=
  match o with
  | AllocPage => pmm_allocate_page s
  | AllocPages n => pmm_allocate_pages n s
  | FreePage a => (0, snd (pmm_free_page a s))
  | FreePages a n => (0, pmm_free_pages a n s)
  end.

(** Arguments are 64-bit values and a freed range does not wrap. *)
Definition op_ok (o : op) : Prop :=
  match o with
  | AllocPage => True
  | AllocPages n => 0 <= n < 2 ^ 64
  | FreePage a => 0 <= a < 2 ^ 64
  | FreePages a n => 0 <= a /\ 0 <= n /\ a + n * PAGE_SIZE <= 2 ^ 64
  end.

Definition run_free (lo hi : Z) (U : gset Z) (a n : Z) : Prop :=
  lo <= a /\ a mod PAGE_SIZE = 0 /\ a + n * PAGE_SIZE <= hi /\ pages a n ## U.

Inductive first_fit (lo hi : Z) (U : gset Z) (n : Z) : Z -> gset Z -> Prop :=
  | ff_some a :
      run_free lo hi U a n -> (forall b, b < a -> ~ run_free lo hi U b n) ->
      first_fit lo hi U n a (pages a n ∪ U)
  | ff_none :
      (forall b, ~ run_free lo hi U b n) -> first_fit lo hi U n 0 U.

Inductive spec_step (lo hi : Z) : op -> gset Z -> Z -> gset Z -> Prop :=
  | sp_alloc U a U' : first_fit lo hi U 1 a U' -> spec_step lo hi AllocPage U a U'
  | sp_alloc0 U : spec_step lo hi (AllocPages 0) U 0 U
  | sp_allocs n U a U' :
      0 < n -> first_fit lo hi U n a U' -> spec_step lo hi (AllocPages n) U a U'
  | sp_free a U : spec_step lo hi (FreePage a) U 0 (U ∖ {[a]})
  | sp_frees a n U : spec_step lo hi (FreePages a n) U 0 (U ∖ pages a n).

(** Runs of the allocator from a state, with the observable trace. *)
Inductive exec_run : pmm -> list (op * Z) -> pmm -> Prop :=
  | run_nil s : exec_run s [] s
  | run_snoc s t s1 o r s2 :
      exec_run s t s1 -> op_ok o -> exec o s1 = (r, s2) -> exec_run s (t ++ [(o, r)]) s2.

Inductive spec_run (lo hi : Z) : gset Z -> list (op * Z) -> gset Z -> Prop :=
  | srun_nil U : spec_run lo hi U [] U
  | srun_snoc U t U1 o r U2 :
      spec_run lo hi U t U1 -> spec_step lo hi o U1 r U2 ->
      spec_run lo hi U (t ++ [(o, r)]) U2.

Definition lo_of (s : pmm) : Z := mem_region_start s + reserved_pages s * PAGE_SIZE.

Lemma free_run_iff s st n :
  pmm_wf s -> reserved_pages s <= st -> st + n <= total_pages s ->
  (all_free s st n <-> pages (mem_region_start s + st * PAGE_SIZE) n ## owned s).
Proof.
  intros Hwf Hst Hn. pose proof (wf_res_le s Hwf). split.
  - intros Haf x (i & Hi & ->)%elem_of_pages Hx.
    replace (mem_region_start s + st * PAGE_SIZE + i * PAGE_SIZE)
      with (mem_region_start s + (st + i) * PAGE_SIZE) in Hx by lia.
    apply owned_used in Hx; [|lia]. apply elem_of_used_set in Hx as [_ Hb].
    by rewrite Haf in Hb by lia.
  - intros Hdis p Hp. destruct (bitmap_test s p) eqn:E; [|done]. exfalso.
    apply (Hdis (mem_region_start s + p * PAGE_SIZE)).
    + apply elem_of_pages. exists (p - st). lia.
    + apply owned_used; [lia|]. apply elem_of_used_set. split; [lia|done].
Qed.

Lemma run_free_pfn s b n :
  pmm_wf s -> run_free (lo_of s) (mem_region_end s) (owned s) b n ->
  exists st, b = mem_region_start s + st * PAGE_SIZE /\ reserved_pages s <= st /\
             st + n <= total_pages s /\ all_free s st n.
Proof.
  intros Hwf (Hlo & Hal & Hhi & Hdis). destruct (wf_start s Hwf) as [_ Hsa].
  pose proof (wf_end s Hwf) as He. unfold lo_of, PAGE_SIZE in *.
  assert (b = mem_region_start s + pfn_of s b * 4096) as Hb by (unfold pfn_of, PAGE_SIZE; dlia).
  exists (pfn_of s b). split; [done|]. split; [lia|]. split; [lia|].
  apply free_run_iff; [done|lia|lia|]. unfold PAGE_SIZE. by rewrite <- Hb.
Qed.

Lemma allocate_pages_first_fit s n a s' :
  pmm_wf s -> 0 < n < 2 ^ 64 -> pmm_allocate_pages n s = (a, s') ->
  pmm_wf s' /\ mem_region_start s' = mem_region_start s /\ total_pages s' = total_pages s /\
  reserved_pages s' = reserved_pages s /\
  first_fit (lo_of s) (mem_region_end s) (owned s) n a (owned s').
Proof.
  intros Hwf Hn Hal. pose proof (pa_alloc_pages_law s n a s' Hwf Hn Hal) as [Hwf' Ho].
  destruct (allocate_pages_spec s n a s' Hwf Hn Hal)
    as [(-> & -> & Hno)|(st & Hst & Hle & Haf & Hmin & Ha & Hok & _ & _ & _ & E1 & E2 & E3)].
  { do 4 (split; [done|]). apply ff_none. intros b Hb.
    destruct (run_free_pfn s b n Hwf Hb) as (st & _ & ? & ? & ?). by eapply Hno. }
  do 4 (split; [done|]). destruct Ho as [[-> _]|(_ & _ & Ho)]; [destruct Hok; lia|].
  unfold pa_owned, pmm_allocator in Ho. rewrite Ho. pose proof (wf_end s Hwf). apply ff_some.
  - split; [unfold lo_of, PAGE_SIZE in *; lia|]. split; [apply Hok|].
    split; [unfold PAGE_SIZE in *; lia|]. rewrite Ha. by apply free_run_iff.
  - intros b Hb Hrf. destruct (run_free_pfn s b n Hwf Hrf) as (st' & -> & ? & ? & ?).
    apply (Hmin st'); [unfold PAGE_SIZE in *; lia|done].
Qed.

Lemma exec_refines s o r s' :
  pmm_wf s -> op_ok o -> exec o s = (r, s') ->
  pmm_wf s' /\ mem_region_start s' = mem_region_start s /\ total_pages s' = total_pages s /\
  reserved_pages s' = reserved_pages s /\
  spec_step (lo_of s) (mem_region_end s) o (owned s) r (owned s').
Proof.
  intros Hwf Hok. destruct o as [|n|a|a n]; cbn [exec op_ok] in *.
  - intros Hal. destruct (allocate_pages_first_fit s 1 r s' Hwf) as (? & ? & ? & ? & ?); [lia|done|].
    do 4 (split; [done|]). by apply sp_alloc.
  - destruct (decide (n = 0)) as [->|]; intros Hal.
    { injection Hal as <- <-. do 4 (split; [done|]). apply sp_alloc0. }
    destruct (allocate_pages_first_fit s n r s' Hwf) as (? & ? & ? & ? & ?); [lia|done|].
    do 4 (split; [done|]). apply sp_allocs; [lia|done].
  - intros [= <- <-]. destruct (free_page_owned s a Hwf Hok) as (? & -> & _ & ? & ? & ?).
    do 4 (split; [done|]). apply sp_free.
  - intros [= <- <-]. unfold pmm_free_pages.
    destruct (free_loop_owned (Z.to_nat n) s a 0 Hwf) as (? & -> & ? & ? & ?);
      [lia|lia|unfold PAGE_SIZE in *; lia|].
    do 4 (split; [done|]). rewrite Z2Nat.id, Z.mul_0_l, Z.add_0_r by lia. apply sp_frees.
Qed.

Lemma exec_run_refines s t s' :
  pmm_wf s -> exec_run s t s' ->
  pmm_wf s' /\ mem_region_start s' = mem_region_start s /\ total_pages s' = total_pages s /\
  reserved_pages s' = reserved_pages s /\
  spec_run (lo_of s) (mem_region_end s) (owned s) t (owned s').
Proof.
  intros Hwf Hrun. induction Hrun as [s|s t s1 o r s2 Hrun IH Hok Hex].
  { do 4 (split; [done|]). apply srun_nil. }
  destruct (IH Hwf) as (Hwf1 & E1 & E2 & E3 & Hsp).
  destruct (exec_refines s1 o r s2 Hwf1 Hok Hex) as (Hwf2 & F1 & F2 & F3 & Hst).
  split; [done|]. do 3 (split; [congruence|]). eapply srun_snoc; [done|].
  replace (mem_region_end s) with (mem_region_end s1).
  2: { rewrite !wf_end by done. congruence. }
  replace (lo_of s) with (lo_of s1); [done|]. unfold lo_of. congruence.
Qed.

(** What the boot code passes to [pmm_init]: a page-aligned RAM region below
    2^48 in which the kernel image and the bitmap fit (the assertion the
    source keeps as a comment). *)
Definition boot_ok (kernel_end mem_start mem_size : Z) : Prop :=
  (0 < mem_start /\ mem_start mod PAGE_SIZE = 0) /\
  (0 < mem_size /\ mem_size mod PAGE_SIZE = 0) /\
  mem_start + mem_size < 2 ^ 48 /\ mem_start <= kernel_end /\
  kernel_end + PAGE_SIZE + (mem_size / PAGE_SIZE + 63) / 64 * 8 + PAGE_SIZE
    <= mem_start + mem_size.

Lemma used_split s :
  pmm_wf s -> used_set s = pfns 0 (reserved_pages s) ∪ filter (fun p => reserved_pages s <= p) (used_set s).
Proof.
  intros Hwf. pose proof (wf_res_le s Hwf). apply set_eq. intros p.
  rewrite elem_of_union, elem_of_filter, elem_of_pfns, !elem_of_used_set.
  destruct (decide (p < reserved_pages s)); [|naive_solver lia].
  split; [intros; left; lia|]. intros [?|?]; [|lia].
  split; [lia|]. apply (wf_res s Hwf). lia.
Qed.

Lemma used_pages_owned s :
  pmm_wf s -> used_pages s = reserved_pages s + Z.of_nat (size (owned s)).
Proof.
  intros Hwf. pose proof (wf_res_le s Hwf). rewrite (wf_used s Hwf), (used_split s Hwf).
  rewrite size_union.
  2: { intros p Hp%elem_of_pfns [? _]%elem_of_filter. lia. }
  rewrite Nat2Z.inj_add, size_pfns by lia. unfold owned. unfold set_map.
  rewrite size_list_to_set, length_fmap; [done|].
  apply NoDup_fmap_2; [|apply NoDup_elements]. unfold PAGE_SIZE. intros ???. lia.
Qed.

Lemma init_ok ke ms sz :
  boot_ok ke ms sz ->
  let s := pmm_init ke ms sz in
  pmm_wf s /\ owned s = ∅ /\ mem_region_start s = ms /\ mem_region_end s = ms + sz /\
  ke <= bitmap_addr s /\ bitmap_addr s + (sz / PAGE_SIZE + 63) / 64 * 8 <= lo_of s.
Proof.
  intros (? & ? & ? & ? & ?) s. destruct (init_spec ke ms sz) as (Hwf & Ht & Hu & Hk & Hb); try done.
  fold s in Hwf, Ht, Hu, Hk, Hb. assert (mem_region_start s = ms) as Hm.
  { unfold s, pmm_init. cbn [set_used mem_region_start]. by apply set_range_frame. }
  split; [done|]. split.
  { apply set_eq. intros a. rewrite elem_of_owned, Hu. split.
    - intros (p & ? & ?%elem_of_pfns & _). lia.
    - by intros ?%not_elem_of_empty. }
  split; [done|]. split; [|split; [done|unfold lo_of; by rewrite Hm]].
  rewrite (wf_end s Hwf), Hm, Ht. unfold PAGE_SIZE in *. dlia.
Qed.

(** ** Theorems *)

(** C1: from the boot state, every sequence of allocator calls (single-page and
    contiguous allocations, frees of any address) is a run of the abstract
    first-fit allocator over the frames above the kernel image and the bitmap,
    with the same returned addresses; the invariant holds at its end, and the
    used-page counter is the reserved pages plus the pages handed out. *)
Theorem pmm_refines_spec ke ms sz t s' :
  boot_ok ke ms sz -> exec_run (pmm_init ke ms sz) t s' ->
  pmm_wf s' /\
  spec_run (lo_of (pmm_init ke ms sz)) (ms + sz) ∅ t (owned s') /\
  pmm_get_used_pages s' = pmm_get_reserved_pages s' + Z.of_nat (size (owned s')) /\
  pmm_get_free_pages s' + pmm_get_used_pages s' = pmm_get_total_pages s' /\
  ke <= bitmap_addr (pmm_init ke ms sz) /\
  bitmap_addr (pmm_init ke ms sz) + 8 * bitmap_size s' <= lo_of (pmm_init ke ms sz).
Proof.
  intros Hb Hrun. destruct (init_ok ke ms sz Hb) as (Hwf & Ho & Hm & He & Hk & Hl).
  destruct (exec_run_refines _ t s' Hwf Hrun) as (Hwf' & E1 & E2 & E3 & Hsp).
  rewrite Ho, He in Hsp. split; [done|]. split; [done|].
  split; [by apply used_pages_owned|]. split; [|split; [done|]].
  - unfold pmm_get_free_pages, pmm_get_used_pages, pmm_get_total_pages.
    pose proof (used_set_bound s'). pose proof (wf_res_le s' Hwf'). pose proof (wf_used s' Hwf').
    pose proof (wf_end s' Hwf'). pose proof (wf_48 s' Hwf'). pose proof (wf_start s' Hwf').
    unfold PAGE_SIZE in *. rewrite u64_small by lia. lia.
  - rewrite (wf_size s' Hwf'), E2. pose proof (wf_end _ Hwf) as Hend. rewrite Hm, He in Hend.
    replace (total_pages (pmm_init ke ms sz)) with (sz / PAGE_SIZE) by (unfold PAGE_SIZE in *; dlia).
    lia.
Qed.

(** A 100-page region with a two-page kernel image. *)
Lemma boot_ok_small : boot_ok 0x40001000 0x40000000 409600.
Proof. unfold boot_ok, PAGE_SIZE. vm_compute. repeat split; congruence. Qed.

Lemma pmm_refines_spec_witness :
  exists s', exec_run (pmm_init 0x40001000 0x40000000 409600)
               [(AllocPage, 0x40002000); (AllocPages 3, 0x40003000); (FreePage 0x40002000, 0)] s' /\
  pmm_get_used_pages s' = pmm_get_reserved_pages s' + Z.of_nat (size (owned s')).
Proof.
  set (s0 := pmm_init _ _ _).
  set (s' := snd (exec (FreePage 0x40002000) (snd (exec (AllocPages 3) (snd (exec AllocPage s0)))))).
  assert (exec_run s0 [(AllocPage, 0x40002000); (AllocPages 3, 0x40003000); (FreePage 0x40002000, 0)] s')
    as Hrun.
  { apply (run_snoc s0 [_; _] (snd (exec (AllocPages 3) (snd (exec AllocPage s0))))).
    - apply (run_snoc s0 [_] (snd (exec AllocPage s0))).
      + apply (run_snoc s0 [] s0); [apply run_nil|done|vm_compute; reflexivity].
      + simpl; lia.
      + vm_compute; reflexivity.
    - simpl; lia.
    - vm_compute; reflexivity. }
  exists s'. split; [exact Hrun|].
  eapply (pmm_refines_spec 0x40001000 0x40000000 409600 _ s'); [exact boot_ok_small|exact Hrun].
Defined.

(** [pmm_free_page] on every 64-bit address: it frees exactly a page that is
    currently handed out, and an address that is outside the region, unaligned,
    reserved or not allocated (a double free) leaves the allocator unchanged
    and is reported by the matching diagnostic. *)
Theorem pmm_free_page_branches s a :
  pmm_wf s -> 0 <= a < 2 ^ 64 ->
  let '(r, s') := pmm_free_page a s in
  pmm_wf s' /\ owned s' = owned s ∖ {[a]} /\ (r = Freed <-> a ∈ owned s) /\
  (r <> Freed -> s' = s) /\
  used_pages s' = used_pages s - (if bool_decide (a ∈ owned s) then 1 else 0) /\
  (r = OutsideRegion <-> ~ mem_region_start s <= a < mem_region_end s).
Proof.
  intros Hwf Ha. pose proof (free_page_spec s a Hwf Ha) as Hs.
  pose proof (free_page_owned s a Hwf Ha) as (Hwf' & Ho & Hid & _).
  assert (r_out : fst (pmm_free_page a s) = OutsideRegion
                  <-> ~ mem_region_start s <= a < mem_region_end s).
  { unfold pmm_free_page. case_if; [split; [lia|done]|].
    split; [by case_ifs|]. intros Hn. exfalso. lia. }
  destruct (pmm_free_page a s) as [r s']. cbn [fst snd] in *.
  assert (r = Freed <-> a ∈ owned s) as Hfr.
  { split.
    - intros ->. destruct Hs as (Hpa & ? & ? & _). rewrite Hpa. apply owned_used; [lia|done].
    - intros Hin. destruct r; [done|exfalso..]; destruct Hs as [-> _];
        rewrite Ho in Hin; set_solver. }
  do 3 (split; [done|]). split.
  { intros Hn. apply Hid. by rewrite <- Hfr. }
  split; [|done]. case_bool_decide as Hr.
  - apply Hfr in Hr as ->. by destruct Hs as (_ & _ & _ & _ & _ & -> & _).
  - rewrite Hid by done. lia.
Qed.

Lemma pmm_free_page_branches_witness :
  let s := snd (pmm_allocate_page (pmm_init 0x40001000 0x40000000 409600)) in
  fst (pmm_free_page 0x40002000 s) = Freed /\ 0x40002000 ∈ owned s.
Proof.
  set (s := snd _). assert (fst (pmm_free_page 0x40002000 s) = Freed) as Hf by (vm_compute; reflexivity).
  split; [exact Hf|].
  assert (pmm_wf s) as Hwf.
  { eapply (exec_refines (pmm_init 0x40001000 0x40000000 409600) AllocPage).
    - apply init_ok, boot_ok_small.
    - done.
    - apply surjective_pairing. }
  pose proof (pmm_free_page_branches s 0x40002000 Hwf ltac:(lia)) as H.
  destruct (pmm_free_page 0x40002000 s) as [r s']. apply H. exact Hf.
Defined.

(** A contiguous allocation followed by a free of the same run restores the
    allocator: the same pages are handed out and the same number is used; and
    the allocation itself returned pages nobody held. *)
Theorem pmm_alloc_free_roundtrip s n a s1 :
  pmm_wf s -> 0 < n < 2 ^ 64 -> pmm_allocate_pages n s = (a, s1) -> a <> 0 ->
  pages a n ## owned s /\ owned s1 = pages a n ∪ owned s /\
  used_pages s1 = used_pages s + n /\
  owned (pmm_free_pages a n s1) = owned s /\
  used_pages (pmm_free_pages a n s1) = used_pages s.
Proof.
  intros Hwf Hn Hal Hnz.
  pose proof (pa_alloc_pages_law (S:=pmm) s n a s1 Hwf Hn Hal) as [Hwf1 [[? _]|(Hok & Hdis & Ho)]]; [done|].
  destruct (pa_free_pages_law (S:=pmm) s1 a n Hwf1 Hok) as [Hwf2 Ho2].
  { rewrite Ho. apply union_subseteq_l. }
  destruct (allocate_pages_first_fit s n a s1 Hwf Hn Hal) as (_ & _ & _ & Hres & _).
  simpl in *. assert (owned (pmm_free_pages a n s1) = owned s) as Hback.
  { rewrite Ho2, Ho. rewrite difference_union_distr_l_L, difference_diag_L, union_empty_l_L.
    apply difference_disjoint_L. by symmetry. }
  split; [done|]. split; [done|]. split.
  { rewrite !used_pages_owned, Ho, size_union, Nat2Z.inj_add, size_pages, Hres by (done || lia). lia. }
  split; [done|]. rewrite !used_pages_owned, Hback by done. f_equal.
  destruct Hok as (? & ? & ?).
  destruct (free_loop_owned (Z.to_nat n) s1 a 0 Hwf1) as (_ & _ & _ & _ & Hr);
    [lia|lia|unfold PAGE_SIZE in *; lia|].
  unfold pmm_free_pages. by rewrite Hr.
Qed.

Lemma pmm_alloc_free_roundtrip_witness :
  let s := pmm_init 0x40001000 0x40000000 409600 in
  used_pages (pmm_free_pages 0x40002000 5 (snd (pmm_allocate_pages 5 s))) = used_pages s.
Proof.
  set (s := pmm_init _ _ _). cbv zeta.
  assert (pmm_allocate_pages 5 s = (0x40002000, snd (pmm_allocate_pages 5 s))) as Hal
    by (vm_compute; reflexivity).
  apply (pmm_alloc_free_roundtrip s 5 0x40002000 _); [|lia|exact Hal|lia].
  apply init_ok, boot_ok_small.
Defined.

End Pmm.
