(* ===== verification/Heap.v ===== *)
(** * Kernel heap (src/src/mm/heap/heap.c, heap.h)

    The first-fit allocator over a singly linked list of block headers.  The
    header store [mem] maps the address of a header to its contents; the
    pages come from any [PageAllocator].  The abstract state is the list of
    blocks in chain order: the pointer walks of the code are shown to compute
    the list-level first fit, split and coalescing, and the blocks are shown
    to tile the heap regions exactly at all times. *)
From S2P Require Import Prelude PageAlloc Pmm.

Module Heap.

(** ** Constants and data of heap.h *)
Definition HEAP_INITIAL_PAGES : Z := 256.
Definition HEAP_MIN_BLOCK_SIZE : Z := 32.
Definition HEAP_ALIGN : Z := 16.
Definition HEAP_ALIGN_UP (x : Z) : Z := u64 (x + HEAP_ALIGN - 1) .& unot 64 (HEAP_ALIGN - 1).
Definition BLOCK_MAGIC_ALLOC : Z := 0xA110CED.
Definition BLOCK_MAGIC_FREE : Z := 0xFEEDF1EE.
Definition BLOCK_HEADER_SIZE : Z := 32.   (* HEAP_ALIGN_UP(sizeof(block_header_t)) *)
Definition HEAP_MAX_REGIONS : Z := 16.
Definition HEAP_EXPAND_MIN_PAGES : Z := 64.
Definition SIZE_MAX : Z := 2 ^ 64 - 1.
Definition KERNEL_VA_OFFSET : Z := 0xFFFF000000000000.
Definition PHYS_TO_VIRT (a : Z) : Z := u64 (a + KERNEL_VA_OFFSET).

Record block_header := MkHdr { size_ : Z; magic : Z; is_free : Z; next : Z }.
Record heap_region := MkRegion { va_start : Z; size_bytes : Z }.

(** Static variables of heap.c, the memory that holds the headers, and the
    state of the page allocator; [region_count] is the length of [regions]. *)
Record heap (A : Type) := MkHeap {
  mem : gmap Z block_header;
  heap_head : Z;
  regions : list heap_region;
  pmm : A
}.
Arguments MkHeap {A}. Arguments mem {A}. Arguments heap_head {A}.
Arguments regions {A}. Arguments pmm {A}.

(** ** Header access *)
Definition hdr (m : gmap Z block_header) (a : Z) : block_header :=
  default (MkHdr 0 0 0 0) (m !! a).
Definition set_size (m : gmap Z block_header) (a v : Z) : gmap Z block_header :=
  let h := hdr m a in <[a := MkHdr v (magic h) (is_free h) (next h)]> m.
Definition set_magic (m : gmap Z block_header) (a v : Z) : gmap Z block_header :=
  let h := hdr m a in <[a := MkHdr (size_ h) v (is_free h) (next h)]> m.
Definition set_free (m : gmap Z block_header) (a v : Z) : gmap Z block_header :=
  let h := hdr m a in <[a := MkHdr (size_ h) (magic h) v (next h)]> m.
Definition set_next (m : gmap Z block_header) (a v : Z) : gmap Z block_header :=
  let h := hdr m a in <[a := MkHdr (size_ h) (magic h) (is_free h) v]> m.

(** [memset(va, 0, bytes)] *)
Definition zero_range (m : gmap Z block_header) (va bytes : Z) : gmap Z block_header :=
  filter (fun '(a, _) => ~ (va <= a < va + bytes)) m.

(** Enough iterations for any walk over the headers in memory. *)
Definition fuel (m : gmap Z block_header) : nat := S (size m).

Section ops.
Context {A : Type} `{PageAllocator A}.

Definition region_count (h : heap A) : Z := Z.of_nat (length (regions h)).

Definition register_region (va bytes : Z) (h : heap A) : Z * heap A :=
  if HEAP_MAX_REGIONS <=? region_count h then (-1, h)
  else (0, MkHeap (mem h) (heap_head h) (regions h ++ [MkRegion va bytes]) (pmm h)).

Definition in_region (addr : Z) (r : heap_region) : bool :=
  (va_start r <=? addr) && (addr <? u64 (va_start r + size_bytes r)).

Definition addr_in_any_region (addr : Z) (h : heap A) : bool :=
  existsb (in_region addr) (regions h).

Definition set_mem (h : heap A) (m : gmap Z block_header) : heap A :=
  MkHeap m (heap_head h) (regions h) (pmm h).
Definition set_pmm (h : heap A) (p : A) : heap A :=
  MkHeap (mem h) (heap_head h) (regions h) p.

(** write the header of a fresh free block spanning a region *)
Definition init_block (m : gmap Z block_header) (va bytes : Z) : gmap Z block_header :=
  let m := zero_range m va bytes in
  let m := set_size m va (u64 (bytes - BLOCK_HEADER_SIZE)) in
  let m := set_free m va 1 in
  let m := set_magic m va BLOCK_MAGIC_FREE in
  set_next m va 0.

Definition heap_init (h : heap A) : heap A :=
  let pages := HEAP_INITIAL_PAGES in
  let '(phys, p) := pa_alloc_pages pages (pmm h) in
  let h := set_pmm h p in
  if phys =? 0 then h
  else
    let va := PHYS_TO_VIRT phys in
    let heap_size := u64 (pages * PAGE_SIZE) in
    let m := init_block (mem h) va heap_size in
    snd (register_region va heap_size (MkHeap m va (regions h) (pmm h))).

(** [while (tail->next) tail = tail->next;] *)
Fixpoint find_tail (n : nat) (m : gmap Z block_header) (tail : Z) : Z :=
  match n with
  | O => tail
  | S n' => if next (hdr m tail) =? 0 then tail else find_tail n' m (next (hdr m tail))
  end.

Definition heap_expand (need_bytes : Z) (h : heap A) : Z * heap A :=
  let bytes_required := u64 (need_bytes + BLOCK_HEADER_SIZE) in
  let pages := u64 (bytes_required + PAGE_SIZE - 1) / PAGE_SIZE in
  let pages := if pages <? HEAP_EXPAND_MIN_PAGES then HEAP_EXPAND_MIN_PAGES else pages in
  let '(phys, p) := pa_alloc_pages pages (pmm h) in
  let h := set_pmm h p in
  if phys =? 0 then (-1, h)
  else
    let va := PHYS_TO_VIRT phys in
    let bytes := u64 (pages * PAGE_SIZE) in
    let m := init_block (mem h) va bytes in
    let tail := find_tail (fuel m) m (heap_head h) in
    let m := set_next m tail va in
    let '(r, h) := register_region va bytes (set_mem h m) in
    if negb (r =? 0) then
      let h := set_mem h (set_next (mem h) tail 0) in
      (-1, set_pmm h (pa_free_pages phys pages (pmm h)))
    else (0, h).

(** the [while (current)] search of [kmalloc] *)
Fixpoint find_fit (n : nat) (m : gmap Z block_header) (current size : Z) : option Z :=
  match n with
  | O => None
  | S n' =>
      if current =? 0 then None
      else if negb (is_free (hdr m current) =? 0) && (size <=? size_ (hdr m current))
      then Some current
      else find_fit n' m (next (hdr m current)) size
  end.

(** the body of the search once a block is found: split and mark *)
Definition take_block (m : gmap Z block_header) (current size : Z) : gmap Z block_header :=
  let remaining := u64 (size_ (hdr m current) - size) in
  let m :=
    if BLOCK_HEADER_SIZE + HEAP_MIN_BLOCK_SIZE <? remaining then
      let new_block := u64 (u64 (current + BLOCK_HEADER_SIZE) + size) in
      let m := set_size m new_block (u64 (remaining - BLOCK_HEADER_SIZE)) in
      let m := set_free m new_block 1 in
      let m := set_magic m new_block BLOCK_MAGIC_FREE in
      let m := set_next m new_block (next (hdr m current)) in
      let m := set_size m current size in
      set_next m current new_block
    else m in
  let m := set_free m current 0 in
  set_magic m current BLOCK_MAGIC_ALLOC.

(** [for (attempt = 0; attempt < 2; attempt++)] *)
Fixpoint attempts (n : nat) (size : Z) (h : heap A) : Z * heap A :=
  match n with
  | O => (0, h)
  | S n' =>
      match find_fit (fuel (mem h)) (mem h) (heap_head h) size with
      | Some current =>
          (u64 (current + BLOCK_HEADER_SIZE), set_mem h (take_block (mem h) current size))
      | None =>
          let '(r, h) := heap_expand size h in
          if negb (r =? 0) then (0, h) else attempts n' size h
      end
  end.

Definition kmalloc (size : Z) (h : heap A) : Z * heap A :=
  if size =? 0 then (0, h)
  else if SIZE_MAX - (HEAP_ALIGN - 1) <? size then (0, h)
  else attempts 2 (HEAP_ALIGN_UP size) h.

(** inner loop of the coalescing walk *)
Fixpoint merge_loop (n : nat) (m : gmap Z block_header) (current : Z) : gmap Z block_header :=
  match n with
  | O => m
  | S n' =>
      if negb (is_free (hdr m current) =? 0) && negb (next (hdr m current) =? 0)
         && negb (is_free (hdr m (next (hdr m current))) =? 0)
      then
        let nx := next (hdr m current) in
        let end_of_current := u64 (u64 (current + BLOCK_HEADER_SIZE) + size_ (hdr m current)) in
        if negb (end_of_current =? nx) then m
        else
          let m := set_size m current
                     (u64 (size_ (hdr m current) + u64 (BLOCK_HEADER_SIZE + size_ (hdr m nx)))) in
          let m := set_next m current (next (hdr m nx)) in
          merge_loop n' m current
      else m
  end.

Fixpoint coalesce (n : nat) (m : gmap Z block_header) (current : Z) : gmap Z block_header :=
  match n with
  | O => m
  | S n' =>
      if current =? 0 then m
      else
        let m := merge_loop (fuel m) m current in
        coalesce n' m (next (hdr m current))
  end.

Inductive kfree_result := FNull | FOutside | FBadMagic | FDouble | FDone.

Definition kfree (ptr : Z) (h : heap A) : kfree_result * heap A :=
  if ptr =? 0 then (FNull, h)
  else
    let block := u64 (ptr - BLOCK_HEADER_SIZE) in
    if negb (addr_in_any_region block h) then (FOutside, h)
    else if negb (magic (hdr (mem h) block) =? BLOCK_MAGIC_ALLOC) then (FBadMagic, h)
    else if negb (is_free (hdr (mem h) block) =? 0) then (FDouble, h)
    else
      let m := set_free (mem h) block 1 in
      let m := set_magic m block BLOCK_MAGIC_FREE in
      (FDone, set_mem h (coalesce (fuel m) m (heap_head h))).

(** [heap_used_bytes] and [heap_free_bytes]: sums over the list *)
Fixpoint sum_blocks (n : nat) (want_free : bool) (m : gmap Z block_header) (c total : Z) : Z :=
  match n with
  | O => total
  | S n' =>
      if c =? 0 then total
      else sum_blocks n' want_free m (next (hdr m c))
             (if Bool.eqb (negb (is_free (hdr m c) =? 0)) want_free
              then u64 (total + size_ (hdr m c)) else total)
  end.
Definition heap_used_bytes (h : heap A) : Z :=
  sum_blocks (fuel (mem h)) false (mem h) (heap_head h) 0.
Definition heap_free_bytes (h : heap A) : Z :=
  sum_blocks (fuel (mem h)) true (mem h) (heap_head h) 0.
Definition heap_total_bytes (h : heap A) : Z :=
  fold_left (fun total r => u64 (total + size_bytes r)) (regions h) 0.
End ops.

(** ** The abstract heap: the list of blocks in chain order *)
Record blk := MkBlk { ba : Z; bsz : Z; bf : bool }.
Definition bend (b : blk) : Z := ba b + BLOCK_HEADER_SIZE + bsz b.
Definition payload (b : blk) : Z := ba b + BLOCK_HEADER_SIZE.

Definition hdr_of (b : blk) (nx : Z) : block_header :=
  MkHdr (bsz b) (if bf b then BLOCK_MAGIC_FREE else BLOCK_MAGIC_ALLOC) (if bf b then 1 else 0) nx.

(** [lseg m a L z]: the headers from [a] on form the blocks [L], and the last
    [next] pointer is [z]. *)
Fixpoint lseg (m : gmap Z block_header) (a : Z) (L : list blk) (z : Z) : Prop :=
  match L with
  | [] => a = z
  | b :: L' => a = ba b /\ exists nx, m !! a = Some (hdr_of b nx) /\ lseg m nx L' z
  end.

(** First fit with splitting, on lists. *)
Definition fits (size : Z) (b : blk) : bool := bf b && (size <=? bsz b).
Definition carve (size : Z) (b : blk) : list blk :=
  if BLOCK_HEADER_SIZE + HEAP_MIN_BLOCK_SIZE <? bsz b - size then
    [MkBlk (ba b) size false;
     MkBlk (ba b + BLOCK_HEADER_SIZE + size) (bsz b - size - BLOCK_HEADER_SIZE) true]
  else [MkBlk (ba b) (bsz b) false].

(** Coalescing, on lists. *)
Definition mergeable (b c : blk) : bool := bf b && bf c && (bend b =? ba c).
Definition merge (b c : blk) : blk := MkBlk (ba b) (bsz b + BLOCK_HEADER_SIZE + bsz c) true.
Fixpoint coal (b : blk) (L : list blk) : list blk :=
  match L with
  | [] => [b]
  | c :: L' => if mergeable b c then coal (merge b c) L' else b :: coal c L'
  end.
Definition coal_all (L : list blk) : list blk :=
  match L with [] => [] | b :: L' => coal b L' end.

(** How many blocks (regions) contain the byte at address [x]. *)
Definition b2z (b : bool) : Z := if b then 1 else 0.
Definition covers (b : blk) (x : Z) : bool := (ba b <=? x) && (x <? bend b).
Definition rcovers (r : heap_region) (x : Z) : bool :=
  (va_start r <=? x) && (x <? va_start r + size_bytes r).
Fixpoint cnt (L : list blk) (x : Z) : Z :=
  match L with [] => 0 | b :: L' => b2z (covers b x) + cnt L' x end.
Fixpoint rcnt (rs : list heap_region) (x : Z) : Z :=
  match rs with [] => 0 | r :: rs' => b2z (rcovers r x) + rcnt rs' x end.
Fixpoint bytes (L : list blk) : Z :=
  match L with [] => 0 | b :: L' => BLOCK_HEADER_SIZE + bsz b + bytes L' end.
Fixpoint rbytes (rs : list heap_region) : Z :=
  match rs with [] => 0 | r :: rs' => size_bytes r + rbytes rs' end.

Record blk_ok (b : blk) : Prop := {
  bo_lo : KERNEL_VA_OFFSET <= ba b;
  bo_al : ba b mod HEAP_ALIGN = 0;
  bo_sz : 0 <= bsz b;
  bo_sal : bsz b mod HEAP_ALIGN = 0;
  bo_hi : bend b < 2 ^ 64
}.

Definition region_ok (own : gset Z) (r : heap_region) : Prop :=
  exists phys n, 0 < n /\ run_ok phys n /\ va_start r = phys + KERNEL_VA_OFFSET /\
    size_bytes r = n * PAGE_SIZE /\ pages phys n ⊆ own.

(** The state of the heap is represented by the block list [L]. *)
Record heap_inv {A} `{PageAllocator A} (h : heap A) (L : list blk) : Prop := {
  hi_pmm : pa_ok (pmm h);
  hi_chain : lseg (mem h) (heap_head h) L 0;
  hi_ne : L <> [];
  hi_blk : Forall blk_ok L;
  hi_reg : Forall (region_ok (pa_owned (pmm h))) (regions h);
  hi_tile x : cnt L x = rcnt (regions h) x;
  hi_once x : rcnt (regions h) x <= 1;
  hi_sum : bytes L = rbytes (regions h);
  hi_len : Z.of_nat (length (regions h)) <= HEAP_MAX_REGIONS
}.

(** Blocks handed out. *)
Definition used (L : list blk) : list blk := filter (fun b => bf b = false) L.

(** No two neighbours in the list are free and adjacent. *)
Fixpoint coalesced (L : list blk) : Prop :=
  match L with
  | b :: ((c :: _) as L') => mergeable b c = false /\ coalesced L'
  | _ => True
  end.

(** ** Lemmas on lists of blocks *)
Lemma cnt_app L1 L2 x : cnt (L1 ++ L2) x = cnt L1 x + cnt L2 x.
Proof. induction L1 as [|b L1 IH]; simpl; [done|]. rewrite IH. lia. Qed.
Lemma bytes_app L1 L2 : bytes (L1 ++ L2) = bytes L1 + bytes L2.
Proof. induction L1 as [|b L1 IH]; simpl; [done|]. rewrite IH. lia. Qed.
Lemma rcnt_app L1 L2 x : rcnt (L1 ++ L2) x = rcnt L1 x + rcnt L2 x.
Proof. induction L1 as [|b L1 IH]; simpl; [done|]. rewrite IH. lia. Qed.
Lemma rbytes_app L1 L2 : rbytes (L1 ++ L2) = rbytes L1 + rbytes L2.
Proof. induction L1 as [|b L1 IH]; simpl; [done|]. rewrite IH. lia. Qed.
Lemma used_app L1 L2 : used (L1 ++ L2) = used L1 ++ used L2.
Proof. apply filter_app. Qed.
#[local] Hint Rewrite cnt_app bytes_app rcnt_app rbytes_app used_app : kernel.

Lemma cnt_nonneg L x : 0 <= cnt L x.
Proof. induction L as [|b L IH]; simpl; [lia|]. unfold b2z. case_if; lia. Qed.

Lemma rcnt_nonneg rs x : 0 <= rcnt rs x.
Proof. induction rs as [|r rs IH]; simpl; [lia|]. unfold b2z. case_if; lia. Qed.

Lemma cnt_elem L b x : b ∈ L -> covers b x = true -> 1 <= cnt L x.
Proof.
  induction 1 as [b L|b c L Hin IH]; intros Hc; simpl.
  - rewrite Hc. simpl. pose proof (cnt_nonneg L x). lia.
  - specialize (IH Hc). unfold b2z. case_if; lia.
Qed.

Lemma rcnt_elem rs r x : r ∈ rs -> rcovers r x = true -> 1 <= rcnt rs x.
Proof.
  induction 1 as [r rs|r c rs Hin IH]; intros Hc; simpl.
  - rewrite Hc. simpl. pose proof (rcnt_nonneg rs x). lia.
  - specialize (IH Hc). unfold b2z. case_if; lia.
Qed.

Lemma rcnt_zero rs x : (forall r, r ∈ rs -> rcovers r x = false) -> rcnt rs x = 0.
Proof.
  induction rs as [|r rs IH]; intros Hall; simpl; [done|].
  rewrite (Hall r) by set_solver. rewrite IH; [done|]. intros. apply Hall. set_solver.
Qed.

Lemma rcnt_pos rs x : 1 <= rcnt rs x -> exists r, r ∈ rs /\ rcovers r x = true.
Proof.
  induction rs as [|r rs IH]; simpl; [lia|]. destruct (rcovers r x) eqn:E; simpl.
  - intros _. exists r. split; [left|done].
  - intros Hp. destruct IH as (r' & ? & ?); [lia|]. exists r'. split; [by right|done].
Qed.

(** Distinct positions of a tiling do not overlap. *)
Definition disjoint (b c : blk) : Prop := bend b <= ba c \/ bend c <= ba b.

Lemma tile_disjoint L1 b L2 c L3 :
  (forall x, cnt (L1 ++ b :: L2 ++ c :: L3) x <= 1) -> 0 <= bsz b -> 0 <= bsz c -> disjoint b c.
Proof.
  intros Hone Hb Hc. unfold disjoint. destruct (decide (bend b <= ba c)); [by left|].
  destruct (decide (bend c <= ba b)); [by right|]. exfalso.
  specialize (Hone (Z.max (ba b) (ba c))). repeat (rewrite cnt_app in Hone; simpl in Hone).
  assert (covers b (Z.max (ba b) (ba c)) = true /\ covers c (Z.max (ba b) (ba c)) = true) as [E1 E2].
  { unfold covers, bend, BLOCK_HEADER_SIZE in *. lia. }
  rewrite E1, E2 in Hone. simpl in Hone.
  pose proof (cnt_nonneg L1 (Z.max (ba b) (ba c))). pose proof (cnt_nonneg L2 (Z.max (ba b) (ba c))).
  pose proof (cnt_nonneg L3 (Z.max (ba b) (ba c))). lia.
Qed.

Lemma tile_nodup L :
  Forall blk_ok L -> (forall x, cnt L x <= 1) -> NoDup (ba <$> L).
Proof.
  induction L as [|b L IH]; intros Hok Hone; [constructor|]. apply Forall_cons in Hok as [Hb Hok].
  constructor.
  - intros (c & Hbc & (L2 & L3 & ->)%list_elem_of_split)%list_elem_of_fmap.
    apply Forall_app in Hok as [_ [Hc _]%Forall_cons].
    destruct (tile_disjoint [] b L2 c L3 Hone (bo_sz b Hb) (bo_sz c Hc));
      unfold bend, BLOCK_HEADER_SIZE in *; pose proof (bo_sz b Hb); pose proof (bo_sz c Hc); lia.
  - apply IH; [done|]. intros x. specialize (Hone x). simpl in Hone. unfold b2z in Hone.
    case_if_in Hone; lia.
Qed.

Lemma carve_cnt size b x : 0 <= size <= bsz b -> cnt (carve size b) x = b2z (covers b x).
Proof.
  intros Hs. unfold carve. case_if; cbn [cnt]; unfold covers, bend, BLOCK_HEADER_SIZE, HEAP_MIN_BLOCK_SIZE, b2z in *;
    cbn [ba bsz]; case_ifs; lia.
Qed.

Lemma carve_bytes size b : bytes (carve size b) = BLOCK_HEADER_SIZE + bsz b.
Proof. unfold carve. case_if; cbn [bytes bsz]; lia. Qed.

Lemma carve_ok size b :
  blk_ok b -> 0 <= size <= bsz b -> size mod HEAP_ALIGN = 0 -> Forall blk_ok (carve size b).
Proof.
  intros [] Hs Hal. unfold carve, bend, BLOCK_HEADER_SIZE, HEAP_MIN_BLOCK_SIZE, HEAP_ALIGN in *.
  case_if; repeat apply Forall_cons_2; try apply Forall_nil_2; constructor;
    unfold bend, BLOCK_HEADER_SIZE, HEAP_ALIGN; cbn [ba bsz]; try lia; dlia.
Qed.

Lemma coal_cnt L b x : 0 <= bsz b -> Forall blk_ok L -> cnt (coal b L) x = b2z (covers b x) + cnt L x.
Proof.
  revert b. induction L as [|c L IH]; intros b Hb HL; simpl; [done|].
  apply Forall_cons in HL as [Hc HL]. pose proof (bo_sz c Hc). case_if; simpl.
  - rewrite IH by (try done; simpl; unfold BLOCK_HEADER_SIZE; lia).
    unfold mergeable in E. apply andb_prop in E as [_ E]. apply Z.eqb_eq in E.
    unfold covers, bend, BLOCK_HEADER_SIZE, b2z in *. cbn [merge ba bsz].
    unfold BLOCK_HEADER_SIZE. case_ifs; lia.
  - by rewrite IH.
Qed.

Lemma coal_bytes L b : bytes (coal b L) = BLOCK_HEADER_SIZE + bsz b + bytes L.
Proof.
  revert b. induction L as [|c L IH]; intros b; simpl; [lia|].
  case_if; simpl; rewrite IH; simpl; lia.
Qed.

Lemma coal_ok L b : blk_ok b -> Forall blk_ok L -> Forall blk_ok (coal b L).
Proof.
  revert b. induction L as [|c L IH]; intros b Hb HL; simpl.
  { by constructor. }
  apply Forall_cons in HL as [Hc HL]. case_if.
  - apply IH; [|done]. unfold mergeable in E. apply andb_prop in E as [_ E]. apply Z.eqb_eq in E.
    destruct Hb, Hc. unfold bend, BLOCK_HEADER_SIZE, HEAP_ALIGN in *.
    constructor; unfold bend; cbn [merge ba bsz]; unfold BLOCK_HEADER_SIZE, HEAP_ALIGN; try lia; dlia.
  - constructor; auto.
Qed.

Lemma coal_used L b : used (coal b L) = used (b :: L).
Proof.
  revert b. induction L as [|c L IH]; intros b; cbn [coal]; [done|].
  destruct (mergeable b c) eqn:E.
  - rewrite IH. unfold mergeable in E. unfold used. rewrite !filter_cons. simpl.
    destruct (bf b), (bf c); done.
  - change (b :: coal c L) with ([b] ++ coal c L). rewrite used_app, IH.
    change (b :: c :: L) with ([b] ++ c :: L). by rewrite used_app.
Qed.

Lemma coal_head L b : exists c L', coal b L = c :: L' /\ ba c = ba b /\ bf c = bf b.
Proof.
  revert b. induction L as [|c L IH]; intros b; simpl; [by eexists _, _|]. case_if.
  - destruct (IH (merge b c)) as (d & L' & -> & ? & ?). eexists _, _. split; [done|].
    unfold mergeable in E. destruct (bf b); done.
  - by eexists _, _.
Qed.

Lemma coal_coalesced L b : coalesced (coal b L).
Proof.
  revert b. induction L as [|c L IH]; intros b; cbn [coal]; [done|]. case_if; [apply IH|].
  specialize (IH c). destruct (coal_head L c) as (d & L' & Hd & Hba & Hbf). rewrite Hd in *.
  split; [|done]. unfold mergeable in *. by rewrite Hba, Hbf.
Qed.

(** ** Lemmas on chains *)
Lemma hdr_lookup m a h : m !! a = Some h -> hdr m a = h.
Proof. unfold hdr. by intros ->. Qed.

Lemma lseg_app m a L1 L2 z :
  lseg m a (L1 ++ L2) z <-> exists y, lseg m a L1 y /\ lseg m y L2 z.
Proof.
  revert a. induction L1 as [|b L1 IH]; intros a; simpl.
  - split; [eauto|]. by intros (y & -> & ?).
  - setoid_rewrite IH. naive_solver.
Qed.

Lemma lseg_frame m m' a L z :
  (forall x, x ∈ ba <$> L -> m' !! x = m !! x) -> lseg m a L z -> lseg m' a L z.
Proof.
  revert a. induction L as [|b L IH]; intros a Hf; simpl; [done|].
  intros (-> & nx & Hl & Hs). split; [done|]. exists nx.
  rewrite Hf by (rewrite fmap_cons; left). split; [done|].
  apply IH; [|done]. intros x Hx. apply Hf. rewrite fmap_cons. by right.
Qed.

Lemma lseg_dom m a L z b : lseg m a L z -> b ∈ L -> exists nx, m !! ba b = Some (hdr_of b nx).
Proof.
  intros Hl (L1 & L2 & ->)%list_elem_of_split. apply lseg_app in Hl as (y & _ & (-> & nx & ? & _)).
  eauto.
Qed.

Lemma lseg_len m a L z : lseg m a L z -> NoDup (ba <$> L) -> (length L < fuel m)%nat.
Proof.
  intros Hl Hnd. unfold fuel. rewrite <- (length_fmap ba L), <- (size_list_to_set (C:=gset Z)) by done.
  rewrite <- size_dom. apply Nat.lt_succ_r, subseteq_size. intros x Hx.
  apply elem_of_list_to_set, list_elem_of_fmap in Hx as (b & -> & Hb).
  destruct (lseg_dom m a L z b Hl Hb) as [nx Hnx]. by eapply elem_of_dom_2.
Qed.

Lemma blk_ok_nz b : blk_ok b -> 0 < ba b < 2 ^ 64.
Proof. intros []. unfold KERNEL_VA_OFFSET, bend, BLOCK_HEADER_SIZE in *. lia. Qed.

Lemma find_fit_spec n m a L size :
  lseg m a L 0 -> Forall blk_ok L -> (length L < n)%nat ->
  (exists L1 b L2, L = L1 ++ b :: L2 /\ fits size b = true /\
     Forall (fun c => fits size c = false) L1 /\ find_fit n m a size = Some (ba b)) \/
  (Forall (fun c => fits size c = false) L /\ find_fit n m a size = None).
Proof.
  revert a L. induction n as [|n IH]; intros a L Hl Hok Hn; [lia|]. cbn [find_fit].
  destruct L as [|b L]; simpl in Hl.
  { subst a. right. split; [constructor|done]. }
  destruct Hl as (-> & nx & Hm & Hl). apply Forall_cons in Hok as [Hb Hok].
  pose proof (blk_ok_nz b Hb). destruct (Z.eqb_spec (ba b) 0); [lia|].
  rewrite (hdr_lookup _ _ _ Hm). unfold hdr_of. cbn [is_free size_ next].
  destruct (fits size b) eqn:Ef.
  - left. exists [], b, L. do 2 (split; [done|]). split; [constructor|]. unfold fits in Ef.
    destruct (bf b); [|done]. simpl in Ef |- *. by rewrite Ef.
  - assert ((negb ((if bf b then 1 else 0) =? 0) && (size <=? bsz b)) = false) as ->.
    { unfold fits in Ef. by destruct (bf b). }
    simpl in Hn.
    destruct (IH nx L Hl Hok ltac:(lia)) as [(L1 & c & L2 & -> & ? & ? & ?)|[? ?]].
    + left. exists (b :: L1), c, L2. do 2 (split; [done|]). split; [by constructor|done].
    + right. split; [by constructor|]. done.
Qed.

Lemma find_tail_spec n m a L b :
  lseg m a (L ++ [b]) 0 -> Forall blk_ok (L ++ [b]) -> (length L < n)%nat -> find_tail n m a = ba b.
Proof.
  revert a L. induction n as [|n IH]; intros a L Hl Hok Hn; [lia|]. cbn [find_tail].
  destruct L as [|c L]; simpl in Hl.
  - destruct Hl as (-> & nx & Hm & ->). by rewrite (hdr_lookup _ _ _ Hm).
  - destruct Hl as (-> & nx & Hm & Hl). rewrite (hdr_lookup _ _ _ Hm). unfold hdr_of. cbn [next].
    simpl in Hok, Hn. apply Forall_cons in Hok as [_ Hok].
    destruct (Z.eqb_spec nx 0) as [->|]; [|apply IH with L; [done|done|lia]].
    exfalso. destruct L as [|d L]; simpl in *; destruct Hl as [Hd _];
      apply Forall_cons in Hok as [Hd' _]; apply blk_ok_nz in Hd'; lia.
Qed.

(** Replacing one block of the chain by others whose headers are written at
    its address and at fresh addresses. *)
Lemma lseg_replace m m' a L1 b L2 nx C :
  lseg m a (L1 ++ b :: L2) 0 -> m !! ba b = Some (hdr_of b nx) ->
  lseg m' (ba b) C nx ->
  (forall x, x ∈ ba <$> L1 ++ L2 -> m' !! x = m !! x) ->
  lseg m' a (L1 ++ C ++ L2) 0.
Proof.
  intros Hl Hm HC Hf. apply lseg_app in Hl as (y & Hl1 & -> & nx' & Hm' & Hl2).
  rewrite Hm in Hm'. injection Hm' as <-. apply lseg_app. exists (ba b). split.
  - apply (lseg_frame m); [|done]. intros x Hx. apply Hf. rewrite fmap_app. set_solver.
  - apply lseg_app. exists nx. split; [done|]. apply (lseg_frame m); [|done].
    intros x Hx. apply Hf. rewrite fmap_app. set_solver.
Qed.

Lemma hdr_insert_eq m a h : hdr (<[a:=h]> m) a = h.
Proof. apply hdr_lookup, lookup_insert_eq. Qed.
Lemma hdr_insert_ne m a b h : a <> b -> hdr (<[a:=h]> m) b = hdr m b.
Proof. intros. unfold hdr. by rewrite lookup_insert_ne. Qed.

(** Field writes collapse into one header write. *)
Ltac hdr_writes :=
  unfold set_size, set_free, set_magic, set_next;
  repeat (rewrite ?hdr_insert_eq, ?insert_insert_eq; cbn [size_ magic is_free next]).

Lemma init_block_eq m va bytes :
  init_block m va bytes =
  <[va := hdr_of (MkBlk va (u64 (bytes - BLOCK_HEADER_SIZE)) true) 0]> (zero_range m va bytes).
Proof. unfold init_block. by hdr_writes. Qed.

Lemma take_block_eq m b nx size :
  m !! ba b = Some (hdr_of b nx) -> blk_ok b -> bf b = true -> 0 <= size <= bsz b ->
  let nb := ba b + BLOCK_HEADER_SIZE + size in
  take_block m (ba b) size =
  if BLOCK_HEADER_SIZE + HEAP_MIN_BLOCK_SIZE <? bsz b - size
  then <[ba b := hdr_of (MkBlk (ba b) size false) nb]>
         (<[nb := hdr_of (MkBlk nb (bsz b - size - BLOCK_HEADER_SIZE) true) nx]> m)
  else <[ba b := hdr_of (MkBlk (ba b) (bsz b) false) nx]> m.
Proof.
  intros Hm Hb Hbf Hs nb. pose proof (bo_hi b Hb) as Hhi. pose proof (blk_ok_nz b Hb).
  unfold bend, BLOCK_HEADER_SIZE, HEAP_MIN_BLOCK_SIZE in *.
  unfold take_block, BLOCK_HEADER_SIZE, HEAP_MIN_BLOCK_SIZE. cbv zeta.
  rewrite (hdr_lookup _ _ _ Hm). change (size_ (hdr_of b nx)) with (bsz b).
  rewrite (u64_small (bsz b - size)) by lia. case_if.
  - rewrite (u64_small (ba b + 32)), (u64_small (ba b + 32 + size)) by lia. fold nb.
    rewrite (u64_small (bsz b - size - 32)) by lia.
    hdr_writes. rewrite !hdr_insert_ne by lia. rewrite (hdr_lookup _ _ _ Hm). cbn [next hdr_of].
    by hdr_writes.
  - hdr_writes. rewrite (hdr_lookup _ _ _ Hm). unfold hdr_of. cbn [size_ next bsz bf].
    done.
Qed.

(** The address of a split-off block is not the address of another block. *)
Lemma split_addr_fresh L1 b L2 x :
  (forall y, cnt (L1 ++ b :: L2) y <= 1) -> Forall blk_ok (L1 ++ b :: L2) ->
  ba b <= x < bend b -> x ∉ ba <$> L1 ++ L2.
Proof.
  intros Hone Hok Hx (c & -> & Hc)%list_elem_of_fmap.
  assert (0 <= bsz c) as Hcz.
  { apply (bo_sz c). rewrite Forall_forall in Hok. apply Hok. set_solver. }
  assert (covers c (ba c) = true) as Hcc by (unfold covers, bend, BLOCK_HEADER_SIZE; lia).
  assert (covers b (ba c) = true) as Hbc by (unfold covers; lia).
  specialize (Hone (ba c)). rewrite cnt_app in Hone. simpl in Hone. rewrite Hbc in Hone.
  pose proof (cnt_elem _ _ _ Hc Hcc) as Hp. rewrite cnt_app in Hp. simpl in Hone. lia.
Qed.

Lemma take_block_spec m a L1 b L2 size :
  lseg m a (L1 ++ b :: L2) 0 -> Forall blk_ok (L1 ++ b :: L2) ->
  (forall x, cnt (L1 ++ b :: L2) x <= 1) ->
  fits size b = true -> 0 <= size ->
  lseg (take_block m (ba b) size) a (L1 ++ carve size b ++ L2) 0.
Proof.
  intros Hl Hok Hone Hf Hs. pose proof (split_addr_fresh L1 b L2) as Hfr.
  unfold fits in Hf. apply andb_prop in Hf as [Ebf Hf]. apply Z.leb_le in Hf.
  destruct (lseg_dom _ _ _ _ b Hl) as [nx Hm]; [set_solver|].
  assert (blk_ok b) as Hb by (rewrite Forall_forall in Hok; apply Hok; set_solver).
  rewrite (take_block_eq m b nx size) by (done || lia). unfold carve.
  unfold bend, BLOCK_HEADER_SIZE, HEAP_MIN_BLOCK_SIZE in *.
  pose proof (Hfr (ba b) Hone Hok ltac:(lia)) as Hba.
  apply (lseg_replace m _ a L1 b L2 nx); [done|done| |]; case_if.
  - split; [done|]. eexists. rewrite lookup_insert_eq. split; [done|]. split; [done|].
    exists nx. rewrite lookup_insert_ne, lookup_insert_eq by lia. done.
  - split; [done|]. eexists. rewrite lookup_insert_eq. done.
  - intros x Hx. pose proof (Hfr (ba b + 32 + size) Hone Hok ltac:(lia)) as Hnb.
    rewrite !lookup_insert_ne; [done|by intros <-..].
  - intros x Hx. rewrite !lookup_insert_ne; [done|by intros <-].
Qed.

Lemma merge_step m b d nx :
  m !! ba b = Some (hdr_of b (ba d)) -> m !! ba d = Some (hdr_of d nx) ->
  blk_ok b -> blk_ok d -> mergeable b d = true -> ba b <> ba d ->
  let m1 := set_size m (ba b) (u64 (size_ (hdr m (ba b)) + u64 (BLOCK_HEADER_SIZE + size_ (hdr m (ba d))))) in
  set_next m1 (ba b) (next (hdr m1 (ba d))) = <[ba b := hdr_of (merge b d) nx]> m.
Proof.
  intros Hb Hd Hbo Hdo Hmg Hne m1. subst m1. unfold mergeable in Hmg.
  apply andb_prop in Hmg as [Hmg Hadj]. apply Z.eqb_eq in Hadj.
  apply andb_prop in Hmg as [Hfb Hfd].
  pose proof (blk_ok_nz b Hbo). pose proof (bo_hi d Hdo). pose proof (bo_sz d Hdo).
  pose proof (bo_sz b Hbo). unfold bend in *.
  rewrite (hdr_lookup _ _ _ Hb), (hdr_lookup _ _ _ Hd). unfold hdr_of at 1 2. cbn [size_].
  unfold BLOCK_HEADER_SIZE in *.
  rewrite (u64_small (32 + bsz d)), (u64_small (bsz b + (32 + bsz d))) by lia.
  unfold set_size. rewrite (hdr_lookup _ _ _ Hb). hdr_writes.
  rewrite hdr_insert_ne by done. rewrite (hdr_lookup _ _ _ Hd). unfold hdr_of, merge.
  cbn [magic is_free next bsz bf]. rewrite Hfb. unfold BLOCK_HEADER_SIZE. do 2 f_equal. lia.
Qed.

Lemma merge_loop_spec n m b L :
  lseg m (ba b) (b :: L) 0 -> Forall blk_ok (b :: L) -> NoDup (ba <$> b :: L) ->
  (length L < n)%nat ->
  exists b' L0 L', L = L0 ++ L' /\ ba b' = ba b /\ blk_ok b' /\ coal b L = b' :: coal_all L' /\
    lseg (merge_loop n m (ba b)) (ba b) (b' :: L') 0 /\
    forall x, x <> ba b -> merge_loop n m (ba b) !! x = m !! x.
Proof.
  revert m b L. induction n as [|n IH]; intros m b L Hl Hok Hnd Hn; [lia|].
  pose proof Hl as (_ & nx & Hm & Hl2). apply Forall_cons in Hok as [Hb HokL].
  cbn [merge_loop]. rewrite (hdr_lookup _ _ _ Hm). change (next (hdr_of b nx)) with nx.
  destruct L as [|d L].
  { simpl in Hl2. subst nx. rewrite andb_false_r. exists b, [], []. by do 5 (split; [done|]). }
  pose proof Hl2 as (-> & nx' & Hd & Hl3). apply Forall_cons in HokL as [Hdo HokL].
  pose proof (blk_ok_nz d Hdo). destruct (Z.eqb_spec (ba d) 0); [lia|]. cbn [negb].
  rewrite andb_true_r, (hdr_lookup _ _ _ Hd).
  change (is_free (hdr_of b (ba d))) with (if bf b then 1 else 0).
  change (is_free (hdr_of d nx')) with (if bf d then 1 else 0).
  assert (negb ((if bf b then 1 else 0) =? 0) && negb ((if bf d then 1 else 0) =? 0) = bf b && bf d)
    as -> by (by destruct (bf b), (bf d)).
  cbn [coal]. unfold mergeable.
  assert (u64 (u64 (ba b + BLOCK_HEADER_SIZE) + size_ (hdr_of b (ba d))) = bend b) as Hend.
  { change (size_ (hdr_of b (ba d))) with (bsz b). pose proof (bo_hi b Hb). pose proof (bo_sz b Hb).
    pose proof (blk_ok_nz b Hb). unfold bend, BLOCK_HEADER_SIZE in *. rewrite (u64_small (ba b + 32)), u64_small by lia. done. }
  destruct (bf b && bf d) eqn:Ef.
  2: { exists b, [], (d :: L). by do 5 (split; [done|]). }
  rewrite Hend. destruct (Z.eqb_spec (bend b) (ba d)) as [Eadj|Eadj]; cbn [negb andb].
  2: { exists b, [], (d :: L). by do 5 (split; [done|]). }
  rewrite !fmap_cons in Hnd. apply NoDup_cons in Hnd as [Hnb Hnd].
  apply NoDup_cons in Hnd as [_ Hnd]. apply not_elem_of_cons in Hnb as [Hne Hnb].
  assert (mergeable b d = true) as Hmg by (unfold mergeable; lia).
  pose proof (merge_step m b d nx' Hm Hd Hb Hdo Hmg Hne) as Hstep. cbv zeta in Hstep.
  rewrite (hdr_lookup _ _ _ Hm), (hdr_lookup _ _ _ Hd) in Hstep. rewrite Hstep. clear Hstep.
  destruct (IH (<[ba b:=hdr_of (merge b d) nx']> m) (merge b d) L) as (b' & L0 & L' & -> & Hba & Hb' & Hc & Hl' & Hf').
  - split; [done|]. exists nx'. cbn [merge ba]. rewrite lookup_insert_eq. split; [done|].
    apply (lseg_frame m); [|done]. intros x Hx. apply lookup_insert_ne. by intros <-.
  - pose proof (coal_ok [d] b Hb (Forall_cons_2 _ _ _ Hdo (Forall_nil_2 _))) as Hmo.
    cbn [coal] in Hmo. rewrite Hmg in Hmo. apply Forall_cons in Hmo as [Hmo _]. by constructor.
  - by constructor.
  - simpl in Hn. lia.
  - exists b', (d :: L0), L'. split; [done|]. split; [done|]. split; [done|]. split; [done|].
    split; [done|]. intros x Hx. cbn [merge ba] in Hf'. rewrite Hf' by done.
    apply lookup_insert_ne. done.
Qed.

Lemma coalesce_spec n m a L :
  lseg m a L 0 -> Forall blk_ok L -> NoDup (ba <$> L) -> (length L < n)%nat ->
  lseg (coalesce n m a) a (coal_all L) 0 /\
  forall x, x ∉ ba <$> L -> coalesce n m a !! x = m !! x.
Proof.
  revert m a L. induction n as [|n IH]; intros m a L Hl Hok Hnd Hn; [lia|]. cbn [coalesce].
  destruct L as [|b L]; [simpl in Hl; by subst a|].
  pose proof Hl as (-> & _). pose proof (blk_ok_nz b ltac:(by apply Forall_cons in Hok as [? _])).
  destruct (Z.eqb_spec (ba b) 0); [lia|].
  destruct (merge_loop_spec (fuel m) m b L Hl Hok Hnd) as (b' & L0 & L' & -> & Hba & Hb' & Hc & Hl' & Hf').
  { pose proof (lseg_len _ _ _ _ Hl Hnd). simpl in *. lia. }
  set (m1 := merge_loop (fuel m) m (ba b)) in *. destruct Hl' as (_ & nx & Hm1 & Hl').
  rewrite (hdr_lookup _ _ _ Hm1). change (next (hdr_of b' nx)) with nx.
  rewrite fmap_cons in Hnd. apply NoDup_cons in Hnd as [Hnb Hnd]. rewrite fmap_app in Hnb, Hnd.
  apply NoDup_app in Hnd as (_ & _ & Hnd). apply Forall_cons in Hok as [_ [_ Hok]%Forall_app].
  destruct (IH m1 nx L' Hl' Hok Hnd) as [Hl2 Hf2].
  { simpl in Hn. rewrite length_app in Hn. lia. }
  cbn [coal_all]. rewrite Hc. split.
  - split; [done|]. exists nx. rewrite Hf2 by set_solver. done.
  - intros x Hx. rewrite fmap_cons, fmap_app in Hx. rewrite Hf2 by set_solver. apply Hf'. set_solver.
Qed.

Lemma coal_all_facts L :
  Forall blk_ok L ->
  Forall blk_ok (coal_all L) /\ (forall x, cnt (coal_all L) x = cnt L x) /\
  bytes (coal_all L) = bytes L /\ used (coal_all L) = used L /\ coalesced (coal_all L) /\
  (coal_all L = [] -> L = []).
Proof.
  intros Hok. destruct L as [|b L]; cbn [coal_all]; [done|]. apply Forall_cons in Hok as [Hb Hok].
  split; [by apply coal_ok|]. split. { intros x. by rewrite coal_cnt by (done || apply bo_sz, Hb). }
  split; [by rewrite coal_bytes|]. split; [by rewrite coal_used|]. split; [apply coal_coalesced|].
  destruct (coal_head L b) as (c & L' & -> & _). done.
Qed.

Section correctness.
Context {A : Type} `{PageAllocatorLaws A}.
Implicit Types (h : heap A) (L : list blk).

Lemma inv_nodup h L : heap_inv h L -> NoDup (ba <$> L).
Proof.
  intros Hi. apply tile_nodup; [apply (hi_blk h L Hi)|]. intros x.
  rewrite (hi_tile h L Hi). apply (hi_once h L Hi).
Qed.

Lemma inv_cnt h L x : heap_inv h L -> cnt L x <= 1.
Proof. intros Hi. rewrite (hi_tile h L Hi). apply (hi_once h L Hi). Qed.

Lemma inv_fuel h L : heap_inv h L -> (length L < fuel (mem h))%nat.
Proof. intros Hi. eapply lseg_len; [apply (hi_chain h L Hi)|by apply (inv_nodup h)]. Qed.

(** A change of the chain that keeps the tiling. *)
Lemma inv_chain h L m' L' :
  heap_inv h L -> lseg m' (heap_head h) L' 0 -> L' <> [] -> Forall blk_ok L' ->
  (forall x, cnt L' x = cnt L x) -> bytes L' = bytes L ->
  heap_inv (set_mem h m') L'.
Proof.
  intros [] ? ? ? Hc Hb. constructor; try done; simpl; intros; [by rewrite Hc|by rewrite Hb].
Qed.

(** *** kmalloc: taking a block *)
Lemma HEAP_ALIGN_UP_spec x :
  0 < x <= SIZE_MAX - (HEAP_ALIGN - 1) ->
  x <= HEAP_ALIGN_UP x < x + HEAP_ALIGN /\ HEAP_ALIGN_UP x mod HEAP_ALIGN = 0.
Proof.
  unfold SIZE_MAX, HEAP_ALIGN, HEAP_ALIGN_UP, HEAP_ALIGN. intros Hx. rewrite u64_small by lia.
  change (16 - 1) with (2 ^ 4 - 1). rewrite land_unot_ones by lia. dlia.
Qed.

Lemma take_inv h L1 b L2 size :
  heap_inv h (L1 ++ b :: L2) -> fits size b = true -> 0 <= size -> size mod HEAP_ALIGN = 0 ->
  heap_inv (set_mem h (take_block (mem h) (ba b) size)) (L1 ++ carve size b ++ L2).
Proof.
  intros Hi Hf Hs Hal. pose proof (hi_blk _ _ Hi) as Hok.
  assert (size <= bsz b) as Hle by (unfold fits in Hf; lia).
  pose proof (take_block_spec (mem h) (heap_head h) L1 b L2 size (hi_chain _ _ Hi) Hok
                (fun x => inv_cnt h _ x Hi) Hf Hs) as Hl.
  apply Forall_app in Hok as [Ho1 [Hb Ho2]%Forall_cons].
  eapply inv_chain; [done|done| | | |].
  - unfold carve. destruct L1; [|done]. by case_if.
  - apply Forall_app. split; [done|]. apply Forall_app. split; [by apply carve_ok|done].
  - intros x. rewrite !cnt_app, carve_cnt by done. done.
  - rewrite !bytes_app, carve_bytes. simpl. lia.
Qed.

Lemma carve_used size b :
  bf b = true -> exists sz, used (carve size b) = [MkBlk (ba b) sz false] /\ (size <= bsz b -> size <= sz).
Proof.
  intros. unfold carve. case_if; (eexists; split; [done|lia]).
Qed.

(** *** heap_expand *)
Lemma va_of_phys phys n :
  run_ok phys n -> 0 <= n -> PHYS_TO_VIRT phys = phys + KERNEL_VA_OFFSET.
Proof.
  intros (? & ? & ?) ?. unfold PHYS_TO_VIRT, KERNEL_VA_OFFSET, PAGE_SIZE in *. rewrite u64_small; lia.
Qed.

(** A region built from pages nobody owned does not meet the others. *)
Lemma fresh_region own rs phys n x :
  Forall (region_ok own) rs -> run_ok phys n -> pages phys n ## own ->
  rcovers (MkRegion (phys + KERNEL_VA_OFFSET) (n * PAGE_SIZE)) x = true -> rcnt rs x = 0.
Proof.
  intros Hrs (_ & Hal & _) Hdis Hx. apply rcnt_zero. intros r Hr. rewrite Forall_forall in Hrs.
  destruct (Hrs r Hr) as (p' & n' & Hn' & (_ & Hal' & _) & Hva & Hsz & Hown).
  destruct (rcovers r x) eqn:Ex; [|done]. exfalso.
  unfold rcovers in Hx, Ex. rewrite Hva, Hsz in Ex. simpl in Hx.
  set (pg := (x - KERNEL_VA_OFFSET) / PAGE_SIZE * PAGE_SIZE). apply (Hdis pg).
  - apply elem_of_pages. exists ((pg - phys) / PAGE_SIZE). unfold pg, PAGE_SIZE in *. dlia.
  - apply Hown, elem_of_pages. exists ((pg - p') / PAGE_SIZE). unfold pg, PAGE_SIZE in *. dlia.
Qed.

Lemma region_ok_mono own own' rs :
  own ⊆ own' -> Forall (region_ok own) rs -> Forall (region_ok own') rs.
Proof.
  intros Hsub Hrs. eapply Forall_impl; [exact Hrs|]. intros r (p & n & ? & ? & ? & ? & ?).
  exists p, n. do 4 (split; [done|]). by transitivity own.
Qed.

Lemma set_tail m a L0 bt z v :
  lseg m a (L0 ++ [bt]) z -> NoDup (ba <$> L0 ++ [bt]) ->
  lseg (set_next m (ba bt) v) a (L0 ++ [bt]) v /\
  forall x, x <> ba bt -> set_next m (ba bt) v !! x = m !! x.
Proof.
  intros Hl Hnd. apply lseg_app in Hl as (y & Hl & (-> & nx & Hm & Hz)). simpl in Hz. subst nx.
  unfold set_next. rewrite (hdr_lookup _ _ _ Hm). split.
  - apply lseg_app. exists (ba bt). split.
    + apply (lseg_frame m); [|done]. intros x Hx. apply lookup_insert_ne. intros <-.
      rewrite fmap_app in Hnd. apply NoDup_app in Hnd as (_ & Hnd & _). apply (Hnd (ba bt)); set_solver.
    + split; [done|]. exists v. by rewrite lookup_insert_eq.
  - intros x Hx. by rewrite lookup_insert_ne.
Qed.

(** The pages requested by [heap_expand]. *)
Definition expand_pages (need : Z) : Z :=
  let pages := u64 (u64 (need + BLOCK_HEADER_SIZE) + PAGE_SIZE - 1) / PAGE_SIZE in
  if pages <? HEAP_EXPAND_MIN_PAGES then HEAP_EXPAND_MIN_PAGES else pages.

Lemma expand_pages_range need :
  0 < expand_pages need < 2 ^ 64 /\
  (0 <= need -> need + BLOCK_HEADER_SIZE + PAGE_SIZE <= 2 ^ 64 ->
   need + BLOCK_HEADER_SIZE <= expand_pages need * PAGE_SIZE).
Proof.
  unfold expand_pages, BLOCK_HEADER_SIZE, PAGE_SIZE, HEAP_EXPAND_MIN_PAGES. cbv zeta.
  pose proof (u64_range (u64 (need + 32) + 4096 - 1)) as Hr.
  split; [case_if; dlia|]. intros Hn Hle. rewrite (u64_small (need + 32)) in * by lia.
  rewrite (u64_small (need + 32 + 4096 - 1)) in * by lia. case_if; dlia.
Qed.

(** New pages linked behind the last block. *)
Lemma grow_chain h L phys n :
  heap_inv h L -> run_ok phys n -> 0 < n -> pages phys n ## pa_owned (pmm h) ->
  let va := phys + KERNEL_VA_OFFSET in
  let m := init_block (mem h) va (n * PAGE_SIZE) in
  let tail := find_tail (fuel m) m (heap_head h) in
  let nb := MkBlk va (n * PAGE_SIZE - BLOCK_HEADER_SIZE) true in
  lseg (set_next m tail va) (heap_head h) (L ++ [nb]) 0 /\
  lseg (set_next (set_next m tail va) tail 0) (heap_head h) L 0 /\
  Forall blk_ok (L ++ [nb]) /\
  (forall x, cnt (L ++ [nb]) x = rcnt (regions h ++ [MkRegion va (n * PAGE_SIZE)]) x) /\
  (forall x, rcnt (regions h ++ [MkRegion va (n * PAGE_SIZE)]) x <= 1).
Proof.
  intros Hi Hok Hn Hdis va m tail nb. pose proof (hi_blk _ _ Hi) as HokL.
  pose proof (inv_nodup h L Hi) as Hnd.
  assert (forall x, rcovers (MkRegion va (n * PAGE_SIZE)) x = true -> rcnt (regions h) x = 0) as Hfresh.
  { intros x. eapply fresh_region; [apply (hi_reg _ _ Hi)|done|done]. }
  assert (blk_ok nb) as Hnb.
  { destruct Hok as (? & ? & ?). unfold nb, va, KERNEL_VA_OFFSET, PAGE_SIZE, BLOCK_HEADER_SIZE in *.
    constructor; unfold bend, KERNEL_VA_OFFSET, BLOCK_HEADER_SIZE, HEAP_ALIGN; cbn [ba bsz]; try lia; dlia. }
  assert (forall x, x ∈ ba <$> L -> ~ va <= x < va + n * PAGE_SIZE) as Hout.
  { intros x (b & -> & Hb)%list_elem_of_fmap Hx.
    assert (1 <= cnt L (ba b)) as Hc.
    { apply (cnt_elem L b); [done|]. rewrite Forall_forall in HokL.
      pose proof (bo_sz b (HokL b Hb)). unfold covers, bend, BLOCK_HEADER_SIZE. lia. }
    rewrite (hi_tile _ _ Hi), Hfresh in Hc; [lia|]. unfold rcovers. cbn [va_start size_bytes]. lia. }
  assert (forall x, x ∈ ba <$> L -> m !! x = mem h !! x) as Hsame.
  { intros x Hx. pose proof (Hout x Hx). unfold m. rewrite init_block_eq. unfold PAGE_SIZE in *.
    rewrite lookup_insert_ne by lia. unfold zero_range. rewrite map_lookup_filter.
    destruct (mem h !! x) as [hd|]; [|done]. simpl. by rewrite option_guard_True. }
  pose proof (lseg_frame _ m _ _ _ Hsame (hi_chain _ _ Hi)) as Hl.
  destruct L as [|bt L0 _] using rev_ind; [by destruct (hi_ne _ _ Hi)|].
  assert (tail = ba bt) as ->.
  { unfold tail. apply (find_tail_spec _ _ _ L0); [done|done|].
    pose proof (lseg_len _ _ _ _ Hl Hnd) as Hf. rewrite length_app in Hf. lia. }
  destruct (set_tail m (heap_head h) L0 bt 0 va Hl Hnd) as [Hl1 Hfr].
  destruct (set_tail _ (heap_head h) L0 bt va 0 Hl1 Hnd) as [Hl2 _].
  split.
  { apply lseg_app. exists va. split; [done|]. split; [done|]. exists 0. split; [|done].
    rewrite Hfr.
    - unfold m. rewrite init_block_eq, lookup_insert_eq. unfold nb. do 2 f_equal. f_equal.
      apply u64_small. destruct Hok as (? & ? & ?). unfold PAGE_SIZE, BLOCK_HEADER_SIZE in *. lia.
    - intros Heq. apply (Hout (ba bt)); [apply list_elem_of_fmap; exists bt; set_solver|].
      rewrite <- Heq. unfold PAGE_SIZE. lia. }
  split; [done|]. split; [apply Forall_app; split; [done|by constructor]|]. split.
  - intros x. rewrite rcnt_app, cnt_app, (hi_tile _ _ Hi). cbn [cnt rcnt].
    unfold covers, rcovers, bend, nb. cbn [ba bsz va_start size_bytes]. do 4 f_equal. lia.
  - intros x. rewrite rcnt_app. cbn [rcnt]. pose proof (hi_once _ _ Hi x).
    destruct (rcovers _ x) eqn:E; cbn [b2z]; [rewrite Hfresh by done|]; lia.
Qed.

Lemma expand_spec h L need r h' :
  heap_inv h L -> heap_expand need h = (r, h') ->
  (r = 0 /\ exists nb, heap_inv h' (L ++ [nb]) /\ bf nb = true /\
     bsz nb = expand_pages need * PAGE_SIZE - BLOCK_HEADER_SIZE) \/
  (r = -1 /\ heap_inv h' L /\
     (fst (pa_alloc_pages (expand_pages need) (pmm h)) = 0 \/
      Z.of_nat (length (regions h)) = HEAP_MAX_REGIONS)).
Proof.
  intros Hi. unfold heap_expand. fold (expand_pages need). set (n := expand_pages need).
  destruct (expand_pages_range need) as [Hn _]. fold n in Hn.
  destruct (pa_alloc_pages n (pmm h)) as [phys p] eqn:Hal.
  destruct (pa_alloc_pages_law _ n phys p (hi_pmm _ _ Hi) Hn Hal) as [Hpok Hcase].
  destruct (Z.eqb_spec phys 0) as [->|Hnz].
  { intros [= <- <-]. right. split; [done|]. destruct Hcase as [[_ ->]|[(? & _) _]]; [|lia].
    split; [|by left]. by destruct Hi. }
  destruct Hcase as [[? _]|(Hok & Hdis & Hown)]; [done|].
  rewrite (va_of_phys phys n) by (done || lia).
  assert (u64 (n * PAGE_SIZE) = n * PAGE_SIZE) as ->.
  { destruct Hok as (? & ? & ?). unfold PAGE_SIZE in *. rewrite u64_small; lia. }
  destruct (grow_chain h L phys n Hi Hok (proj1 Hn) Hdis) as (Hl1 & Hl0 & Hbok & Htile & Honce).
  cbn [mem set_pmm heap_head]. cbv zeta.
  set (va := phys + KERNEL_VA_OFFSET) in *. set (m := init_block (mem h) va (n * PAGE_SIZE)) in *.
  set (tail := find_tail (fuel m) m (heap_head h)) in *. unfold register_region, region_count.
  cbn [set_pmm set_mem regions]. destruct (Z.leb_spec HEAP_MAX_REGIONS (Z.of_nat (length (regions h)))) as [Hfull|Hroom].
  - intros [= <- <-]. right. split; [done|]. pose proof (hi_len _ _ Hi).
    split; [|right; lia]. cbn [set_pmm set_mem mem heap_head regions pmm].
    destruct (pa_free_pages_law p phys n Hpok Hok) as [Hfok Hfown].
    { rewrite Hown. apply union_subseteq_l. }
    assert (pa_owned (pa_free_pages phys n p) = pa_owned (pmm h)) as Hback.
    { rewrite Hfown, Hown, difference_union_distr_l_L, difference_diag_L, union_empty_l_L.
      apply difference_disjoint_L. by symmetry. }
    destruct Hi. constructor; try done.
    change (Forall (region_ok (pa_owned (pa_free_pages phys n p))) (regions h)). by rewrite Hback.
  - intros [= <- <-]. left. split; [done|].
    exists (MkBlk va (n * PAGE_SIZE - BLOCK_HEADER_SIZE) true). split; [|done].
    constructor; cbn [mem heap_head regions pmm set_mem set_pmm]; try done.
    + by destruct L.
    + apply Forall_app. split.
      * eapply region_ok_mono; [|apply (hi_reg _ _ Hi)]. rewrite Hown. apply union_subseteq_r.
      * constructor; [|constructor]. exists phys, n. cbn [va_start size_bytes].
        split; [lia|]. do 3 (split; [done|]). rewrite Hown. apply union_subseteq_l.
    + rewrite bytes_app, rbytes_app, (hi_sum _ _ Hi). simpl. lia.
    + rewrite length_app. simpl. lia.
Qed.

(** *** kmalloc *)
Definition alloc_post (L : list blk) (size p : Z) (L' : list blk) : Prop :=
  exists b, p = payload b /\ b ∈ L' /\ bf b = false /\ size <= bsz b /\ used L' ≡ₚ b :: used L.

Lemma take_post h L1 b L2 size :
  heap_inv h (L1 ++ b :: L2) -> fits size b = true -> 0 <= size -> size mod HEAP_ALIGN = 0 ->
  exists L', heap_inv (set_mem h (take_block (mem h) (ba b) size)) L' /\
    alloc_post (L1 ++ b :: L2) size (u64 (ba b + BLOCK_HEADER_SIZE)) L'.
Proof.
  intros Hi Hf Hs Hal. exists (L1 ++ carve size b ++ L2). split; [by apply take_inv|].
  pose proof (hi_blk _ _ Hi) as Hok. apply Forall_app in Hok as [_ [Hb _]%Forall_cons].
  unfold fits in Hf. apply andb_prop in Hf as [Hbf Hle]. apply Z.leb_le in Hle.
  destruct (carve_used size b Hbf) as (sz & Hu & Hsz).
  exists (MkBlk (ba b) sz false). split.
  { unfold payload. cbn [ba]. apply u64_small. pose proof (blk_ok_nz b Hb). pose proof (bo_hi b Hb).
    pose proof (bo_sz b Hb). unfold bend, BLOCK_HEADER_SIZE in *. lia. }
  assert (MkBlk (ba b) sz false ∈ carve size b) as Hin.
  { assert (MkBlk (ba b) sz false ∈ used (carve size b)) as Hin by (rewrite Hu; left).
    unfold used in Hin. by apply list_elem_of_filter in Hin as [_ ?]. }
  split; [set_solver|]. split; [done|]. split; [by apply Hsz|].
  rewrite !used_app, Hu. unfold used at 4. rewrite filter_cons, decide_False by congruence.
  simpl. symmetry. apply Permutation_middle.
Qed.

Lemma attempts_spec n h L size p h' :
  heap_inv h L -> 0 <= size -> size mod HEAP_ALIGN = 0 ->
  attempts n size h = (p, h') ->
  exists L', heap_inv h' L' /\ (p = 0 /\ used L' = used L \/ alloc_post L size p L').
Proof.
  revert h L. induction n as [|n IH]; intros h L Hi Hs Hal; cbn [attempts].
  { intros [= <- <-]. exists L. split; [done|]. by left. }
  destruct (find_fit_spec (fuel (mem h)) (mem h) (heap_head h) L size (hi_chain _ _ Hi)
              (hi_blk _ _ Hi) (inv_fuel _ _ Hi)) as [(L1 & b & L2 & -> & Hf & _ & ->)|[_ ->]].
  - intros [= <- <-]. destruct (take_post h L1 b L2 size Hi Hf Hs Hal) as (L' & ? & ?). eauto.
  - destruct (heap_expand size h) as [r h1] eqn:He.
    destruct (expand_spec h L size r h1 Hi He) as [(-> & nb & Hi1 & Hnb & _)|(-> & Hi1 & _)]; cbn [Z.eqb negb].
    + intros Hat. destruct (IH h1 (L ++ [nb]) Hi1 Hs Hal Hat) as (L' & Hi' & Hpost). exists L'.
      split; [done|]. assert (used (L ++ [nb]) = used L) as Hu.
      { rewrite used_app. unfold used at 2. rewrite filter_cons, decide_False by congruence. simpl.
        by rewrite app_nil_r. }
      destruct Hpost as [[-> Hu']|(b & ? & ? & ? & ? & Hp)]; [left; split; [done|congruence]|].
      right. exists b. rewrite Hu in Hp. done.
    + intros [= <- <-]. exists L. split; [done|]. by left.
Qed.

Lemma kmalloc_spec h L size p h' :
  heap_inv h L -> 0 <= size < 2 ^ 64 -> kmalloc size h = (p, h') ->
  exists L', heap_inv h' L' /\ ((p = 0 /\ used L' = used L) \/ alloc_post L size p L').
Proof.
  intros Hi Hs. unfold kmalloc. case_if; [intros [= <- <-]; eauto 6|].
  case_if; [intros [= <- <-]; eauto 6|].
  destruct (HEAP_ALIGN_UP_spec size ltac:(lia)) as [Hr Hal]. intros Hat.
  destruct (attempts_spec 2 h L (HEAP_ALIGN_UP size) p h' Hi ltac:(lia) Hal Hat)
    as (L' & Hi' & [Hz|(b & ? & ? & ? & ? & ?)]); exists L'; (split; [done|]); [by left|right].
  exists b. do 3 (split; [done|]). split; [lia|done].
Qed.

(** [kmalloc] gives up only when no free block fits and the heap cannot grow. *)
Lemma attempts_fail n h L size h' :
  heap_inv h L -> 0 <= size -> size mod HEAP_ALIGN = 0 ->
  size + BLOCK_HEADER_SIZE + PAGE_SIZE <= 2 ^ 64 ->
  attempts (2 + n) size h = (0, h') ->
  Forall (fun b => fits size b = false) L /\
  (fst (pa_alloc_pages (expand_pages size) (pmm h)) = 0 \/
   Z.of_nat (length (regions h)) = HEAP_MAX_REGIONS).
Proof.
  intros Hi Hs Hal Hsz.
  assert (forall hh L1 b L2, heap_inv hh (L1 ++ b :: L2) -> fits size b = true ->
            u64 (ba b + BLOCK_HEADER_SIZE) <> 0) as Hnz.
  { intros hh L1 b L2 Hih Hf. destruct (take_post hh L1 b L2 size Hih Hf Hs Hal) as (L' & Hi' & c & -> & Hc & _).
    pose proof (hi_blk _ _ Hi') as Hok. rewrite Forall_forall in Hok. apply Hok, blk_ok_nz in Hc.
    unfold payload, BLOCK_HEADER_SIZE. lia. }
  cbn [attempts Nat.add].
  destruct (find_fit_spec (fuel (mem h)) (mem h) (heap_head h) L size (hi_chain _ _ Hi)
              (hi_blk _ _ Hi) (inv_fuel _ _ Hi)) as [(L1 & b & L2 & -> & Hf & _ & ->)|[Hno ->]].
  { intros [= Hz _]. by apply Hnz with (1 := Hi) in Hf. }
  destruct (heap_expand size h) as [r h1] eqn:He.
  destruct (expand_spec h L size r h1 Hi He) as [(-> & nb & Hi1 & Hnb & Hbs)|(-> & Hi1 & Hwhy)]; cbn [Z.eqb negb].
  2: done.
  assert (fits size nb = true) as Hfn.
  { destruct (expand_pages_range size) as [_ Hr]. unfold fits. rewrite Hnb, Hbs. simpl. lia. }
  destruct (find_fit_spec (fuel (mem h1)) (mem h1) (heap_head h1) (L ++ [nb]) size (hi_chain _ _ Hi1)
              (hi_blk _ _ Hi1) (inv_fuel _ _ Hi1)) as [(L1 & b & L2 & HL & Hf & _ & ->)|[Hno' _]].
  - rewrite HL in Hi1. intros [= Hz _]. by apply Hnz with (1 := Hi1) in Hf.
  - exfalso. apply Forall_app in Hno' as [_ [Hc _]%Forall_cons]. congruence.
Qed.

(** *** kfree *)
Lemma covered_in_region h L b x :
  heap_inv h L -> b ∈ L -> ba b <= x < bend b -> addr_in_any_region x h = true.
Proof.
  intros Hi Hb Hx. assert (1 <= cnt L x) as Hc.
  { apply (cnt_elem L b); [done|]. unfold covers. lia. }
  rewrite (hi_tile _ _ Hi) in Hc. apply rcnt_pos in Hc as (r & Hr & Hcov).
  unfold addr_in_any_region. apply existsb_exists. exists r. split; [by apply list_elem_of_In|].
  pose proof (hi_reg _ _ Hi) as Hreg. rewrite Forall_forall in Hreg.
  destruct (Hreg r Hr) as (phys & n & ? & (? & ? & ?) & Hva & Hsz & _). unfold rcovers in Hcov.
  unfold in_region. unfold KERNEL_VA_OFFSET, PAGE_SIZE in *. rewrite u64_small by lia. done.
Qed.

Lemma chain_in_region h L b : heap_inv h L -> b ∈ L -> addr_in_any_region (ba b) h = true.
Proof.
  intros Hi Hb. eapply covered_in_region; [done|done|].
  pose proof (hi_blk _ _ Hi) as Hok. rewrite Forall_forall in Hok.
  pose proof (bo_sz b (Hok b Hb)). unfold bend, BLOCK_HEADER_SIZE. lia.
Qed.

Lemma payload_hdr h L b :
  heap_inv h L -> b ∈ L -> u64 (payload b - BLOCK_HEADER_SIZE) = ba b /\ payload b <> 0.
Proof.
  intros Hi Hb. pose proof (hi_blk _ _ Hi) as Hok. rewrite Forall_forall in Hok.
  pose proof (blk_ok_nz b (Hok b Hb)). unfold payload, BLOCK_HEADER_SIZE in *.
  rewrite u64_small by lia. lia.
Qed.

Lemma free_hdr m b nx :
  m !! ba b = Some (hdr_of b nx) ->
  set_magic (set_free m (ba b) 1) (ba b) BLOCK_MAGIC_FREE =
  <[ba b := hdr_of (MkBlk (ba b) (bsz b) true) nx]> m.
Proof. intros Hm. hdr_writes. by rewrite (hdr_lookup _ _ _ Hm). Qed.

Lemma kfree_live h L b :
  heap_inv h L -> b ∈ L -> bf b = false ->
  exists h' L', kfree (payload b) h = (FDone, h') /\ heap_inv h' L' /\
    used L ≡ₚ b :: used L' /\ coalesced L'.
Proof.
  intros Hi Hb Hbf. pose proof (chain_in_region h L b Hi Hb) as Hreg.
  destruct (payload_hdr h L b Hi Hb) as [Haddr Hnz]. unfold kfree.
  destruct (Z.eqb_spec (payload b) 0); [done|]. rewrite Haddr, Hreg. cbn [negb].
  destruct (lseg_dom _ _ _ _ b (hi_chain _ _ Hi) Hb) as [nx Hm].
  rewrite (hdr_lookup _ _ _ Hm), (free_hdr _ _ _ Hm). unfold hdr_of at 1 2. rewrite Hbf.
  cbn [magic is_free]. rewrite Z.eqb_refl. cbn [negb Z.eqb].
  apply list_elem_of_split in Hb as (L1 & L2 & ->).
  set (b' := MkBlk (ba b) (bsz b) true). set (m := <[ba b := hdr_of b' nx]> (mem h)).
  pose proof (inv_nodup _ _ Hi) as Hnd. pose proof (hi_blk _ _ Hi) as Hok.
  assert (ba <$> L1 ++ [b'] ++ L2 = ba <$> L1 ++ b :: L2) as Hba by (by rewrite !fmap_app).
  assert (lseg m (heap_head h) (L1 ++ [b'] ++ L2) 0) as Hl.
  { apply (lseg_replace (mem h) m _ L1 b L2 nx); [apply (hi_chain _ _ Hi)|done| |].
    - split; [done|]. exists nx. unfold m. by rewrite lookup_insert_eq.
    - intros x Hx. unfold m. apply lookup_insert_ne. intros <-. rewrite fmap_app, fmap_cons in Hnd.
      apply NoDup_app in Hnd as (_ & Hd & [Hd' _]%NoDup_cons). rewrite fmap_app in Hx.
      apply elem_of_app in Hx as [Hx|Hx]; [|done]. apply (Hd (ba b) Hx). left. }
  assert (Forall blk_ok (L1 ++ [b'] ++ L2)) as Hok'.
  { apply Forall_app in Hok as [? [[] ?]%Forall_cons]. apply Forall_app. split; [done|].
    apply Forall_app. split; [|done]. by repeat constructor. }
  destruct (coal_all_facts _ Hok') as (Ho & Hc & Hby & Hu & Hcoal & Hne).
  eexists _, (coal_all (L1 ++ [b'] ++ L2)). split; [done|]. split; [|split; [|done]].
  - eapply inv_chain; [done| |..].
    + apply coalesce_spec; [done|done|by rewrite Hba|]. eapply lseg_len; [done|by rewrite Hba].
    + intros E%Hne. by destruct L1.
    + done.
    + intros x. rewrite Hc, !cnt_app. cbn [cnt]. change (covers b' x) with (covers b x). lia.
    + rewrite Hby, !bytes_app. cbn [bytes]. change (bsz b') with (bsz b). lia.
  - rewrite Hu, !used_app. unfold used at 2 4. rewrite !filter_cons. simpl. rewrite decide_True by done.
    symmetry. apply Permutation_middle.
Qed.

(** Every other pointer is refused. *)
Lemma kfree_reject h L ptr :
  heap_inv h L -> (forall b, b ∈ L -> bf b = false -> payload b <> ptr) ->
  0 <= ptr < 2 ^ 64 ->
  u64 (ptr - BLOCK_HEADER_SIZE) ∈ ba <$> L \/
    magic (hdr (mem h) (u64 (ptr - BLOCK_HEADER_SIZE))) <> BLOCK_MAGIC_ALLOC ->
  snd (kfree ptr h) = h /\ fst (kfree ptr h) <> FDone.
Proof.
  intros Hi Hno Hp Hor. unfold kfree. case_if; [done|]. case_if; [done|].
  destruct Hor as [(b & Hb & Hin)%list_elem_of_fmap|Hmg].
  - destruct (lseg_dom _ _ _ _ b (hi_chain _ _ Hi) Hin) as [nx Hm]. rewrite Hb.
    rewrite (hdr_lookup _ _ _ Hm). unfold hdr_of. cbn [magic]. destruct (bf b) eqn:Hbf; [done|].
    exfalso. apply (Hno b Hin Hbf). unfold payload.
    pose proof (hi_blk _ _ Hi) as Hok. rewrite Forall_forall in Hok.
    pose proof (bo_hi b (Hok b Hin)). pose proof (bo_sz b (Hok b Hin)).
    unfold bend, BLOCK_HEADER_SIZE in *. unfold u64, wrap in *. dlia.
  - apply Z.eqb_neq in Hmg. rewrite Hmg. done.
Qed.

(** *** heap_init *)
Lemma init_inv m p :
  pa_ok p -> heap_head (heap_init (MkHeap m 0 [] p)) <> 0 ->
  exists b, heap_inv (heap_init (MkHeap m 0 [] p)) [b] /\ bf b = true /\
    bsz b = HEAP_INITIAL_PAGES * PAGE_SIZE - BLOCK_HEADER_SIZE.
Proof.
  intros Hok. unfold heap_init. cbn [pmm].
  destruct (pa_alloc_pages HEAP_INITIAL_PAGES p) as [phys p'] eqn:Hal.
  destruct (pa_alloc_pages_law p HEAP_INITIAL_PAGES phys p' Hok ltac:(done) Hal) as [Hok' Hcase].
  destruct (Z.eqb_spec phys 0) as [->|Hnz]; [done|]. intros _.
  destruct Hcase as [[? _]|(Hrun & _ & Hown)]; [done|].
  rewrite (va_of_phys phys HEAP_INITIAL_PAGES) by (done || (unfold HEAP_INITIAL_PAGES; lia)).
  change (u64 (HEAP_INITIAL_PAGES * PAGE_SIZE)) with (HEAP_INITIAL_PAGES * PAGE_SIZE).
  set (va := phys + KERNEL_VA_OFFSET).
  unfold register_region, region_count. cbn [regions set_pmm length mem pmm].
  change (HEAP_MAX_REGIONS <=? Z.of_nat 0) with false. cbn [snd app].
  exists (MkBlk va (HEAP_INITIAL_PAGES * PAGE_SIZE - BLOCK_HEADER_SIZE) true).
  split; [|done]. pose proof Hrun as (? & ? & ?).
  constructor; cbn [mem heap_head regions pmm length]; try done.
  - split; [done|]. exists 0. by rewrite init_block_eq, lookup_insert_eq.
  - constructor; [|constructor].
    unfold va, KERNEL_VA_OFFSET, PAGE_SIZE, HEAP_INITIAL_PAGES, BLOCK_HEADER_SIZE in *.
    constructor; unfold bend, KERNEL_VA_OFFSET, BLOCK_HEADER_SIZE, HEAP_ALIGN; cbn [ba bsz]; try lia; dlia.
  - constructor; [|constructor]. exists phys, HEAP_INITIAL_PAGES. do 4 (split; [done|]).
    rewrite Hown. apply union_subseteq_l.
  - intros x. cbn [cnt rcnt]. unfold covers, rcovers, bend. cbn [ba bsz va_start size_bytes].
    do 4 f_equal. lia.
  - intros x. cbn [rcnt]. unfold b2z. case_if; lia.
Qed.

(** *** Accounting *)
Fixpoint sum_where (want : bool) (L : list blk) : Z :=
  match L with
  | [] => 0
  | b :: L' => (if Bool.eqb (bf b) want then bsz b else 0) + sum_where want L'
  end.

Lemma sum_where_split L :
  sum_where true L + sum_where false L + BLOCK_HEADER_SIZE * Z.of_nat (length L) = bytes L.
Proof. induction L as [|b L IH]; cbn [sum_where bytes length]; [lia|]. destruct (bf b); simpl; lia. Qed.

Lemma sum_where_nonneg want L : Forall blk_ok L -> 0 <= sum_where want L.
Proof.
  induction 1 as [|b L Hb HL IH]; cbn [sum_where]; [lia|]. pose proof (bo_sz b Hb). case_if; lia.
Qed.

Lemma sum_blocks_spec n want m a L t :
  lseg m a L 0 -> Forall blk_ok L -> (length L < n)%nat -> 0 <= t ->
  t + sum_where want L < 2 ^ 64 -> sum_blocks n want m a t = t + sum_where want L.
Proof.
  revert a L t. induction n as [|n IH]; intros a L t Hl Hok Hn Ht Hb; [lia|]. cbn [sum_blocks].
  destruct L as [|b L].
  { simpl in Hl. subst a. simpl. lia. }
  destruct Hl as (-> & nx & Hm & Hl). apply Forall_cons in Hok as [Hbo Hok].
  pose proof (blk_ok_nz b Hbo). destruct (Z.eqb_spec (ba b) 0); [lia|].
  rewrite (hdr_lookup _ _ _ Hm). unfold hdr_of. cbn [next is_free size_].
  replace (negb ((if bf b then 1 else 0) =? 0)) with (bf b) by (by destruct (bf b)).
  cbn [sum_where length] in *. pose proof (bo_sz b Hbo). pose proof (sum_where_nonneg want L Hok).
  destruct (Bool.eqb (bf b) want).
  - rewrite u64_small by lia. rewrite (IH nx L) by (done || lia). lia.
  - rewrite (IH nx L) by (done || lia). lia.
Qed.

Lemma rbytes_bound own rs :
  Forall (region_ok own) rs -> 0 <= rbytes rs <= Z.of_nat (length rs) * 2 ^ 48.
Proof.
  induction 1 as [|r rs (p & n & ? & (? & ? & ?) & ? & Hs & _) HF IH]; cbn [rbytes length]; [lia|].
  unfold PAGE_SIZE in *. lia.
Qed.

Lemma total_bytes_spec own rs t :
  Forall (region_ok own) rs -> 0 <= t -> t + rbytes rs < 2 ^ 64 ->
  fold_left (fun total r => u64 (total + size_bytes r)) rs t = t + rbytes rs.
Proof.
  intros HF. revert t. induction HF as [|r rs Hr HF IH]; intros t Ht Hb; cbn [fold_left rbytes] in *; [lia|].
  pose proof (rbytes_bound own rs HF). destruct Hr as (p & n & ? & (? & ? & ?) & ? & Hs & _).
  unfold PAGE_SIZE in *. rewrite u64_small by lia. rewrite IH by lia. lia.
Qed.

Lemma accounting h L :
  heap_inv h L ->
  heap_used_bytes h = sum_where false L /\ heap_free_bytes h = sum_where true L /\
  heap_total_bytes h = rbytes (regions h) /\
  heap_used_bytes h + heap_free_bytes h + BLOCK_HEADER_SIZE * Z.of_nat (length L) = heap_total_bytes h.
Proof.
  intros Hi. pose proof (hi_blk _ _ Hi) as Hok. pose proof (hi_sum _ _ Hi) as Hs.
  pose proof (rbytes_bound _ _ (hi_reg _ _ Hi)). pose proof (hi_len _ _ Hi).
  pose proof (sum_where_split L). pose proof (sum_where_nonneg true L Hok).
  pose proof (sum_where_nonneg false L Hok). unfold HEAP_MAX_REGIONS, BLOCK_HEADER_SIZE in *.
  unfold heap_used_bytes, heap_free_bytes, heap_total_bytes.
  rewrite !(sum_blocks_spec _ _ _ _ L) by (apply (hi_chain _ _ Hi) || apply (inv_fuel _ _ Hi) || done || lia).
  rewrite (total_bytes_spec _ _ _ (hi_reg _ _ Hi)) by lia. lia.
Qed.

Lemma inv_disjoint h L b c : heap_inv h L -> b ∈ L -> c ∈ L -> b <> c -> disjoint b c.
Proof.
  intros Hi (L1 & L2 & ->)%list_elem_of_split Hc Hne.
  pose proof (hi_blk _ _ Hi) as Hok. rewrite Forall_forall in Hok.
  assert (0 <= bsz b /\ 0 <= bsz c) as [Hb0 Hc0].
  { split; [apply (bo_sz b), Hok; set_solver|apply (bo_sz c), Hok, Hc]. }
  pose proof (fun x => inv_cnt h _ x Hi) as Hone.
  apply elem_of_app in Hc as [Hc|[->|Hc]%elem_of_cons]; [|done|].
  - apply list_elem_of_split in Hc as (L3 & L4 & ->). rewrite <- app_assoc in Hone. simpl in Hone.
    destruct (tile_disjoint L3 c L4 b L2 Hone Hc0 Hb0); [by right|by left].
  - apply list_elem_of_split in Hc as (L3 & L4 & ->).
    apply (tile_disjoint L1 b L3 c L4 Hone Hb0 Hc0).
Qed.

Lemma used_in L b : b ∈ used L -> b ∈ L /\ bf b = false.
Proof. unfold used. intros [? ?]%list_elem_of_filter. done. Qed.

(** What an allocation promises to its caller. *)
Record allocated (h' : heap A) (L : list blk) (size p : Z) (L' : list blk) (b : blk) : Prop := {
  al_ptr : p = payload b;
  al_in : b ∈ L' /\ bf b = false;
  al_used : used L' ≡ₚ b :: used L;
  al_size : size <= bsz b;
  al_align : p mod HEAP_ALIGN = 0 /\ p <> 0;
  al_disj c : c ∈ used L -> p + bsz b <= ba c \/ bend c <= ba b;
  al_region x : p <= x < p + size -> addr_in_any_region x h' = true
}.

Lemma alloc_post_allocated h' L size sz p L' :
  heap_inv h' L' -> alloc_post L sz p L' -> size <= sz -> exists b, allocated h' L size p L' b.
Proof.
  intros Hi (b & -> & Hb & Hbf & Hsz & Hu) Hle. exists b.
  pose proof (hi_blk _ _ Hi) as Hok. rewrite Forall_forall in Hok. destruct (Hok b Hb).
  pose proof (inv_nodup _ _ Hi) as Hnd. apply NoDup_fmap_1 in Hnd.
  constructor; try done.
  - lia.
  - unfold payload, KERNEL_VA_OFFSET, BLOCK_HEADER_SIZE, HEAP_ALIGN in *. dlia.
  - intros c Hc. assert (b ∉ used L) as Hnb.
    { apply (NoDup_filter (fun b => bf b = false)) in Hnd. fold (used L') in Hnd. rewrite Hu in Hnd.
      by apply NoDup_cons in Hnd as [? _]. }
    destruct (inv_disjoint h' L' b c Hi Hb); [|by intros ->| |].
    + apply used_in. rewrite Hu. by right.
    + left. unfold bend, payload in *. lia.
    + by right.
  - intros x Hx. eapply covered_in_region; [done|done|].
    unfold payload, bend, BLOCK_HEADER_SIZE in *. lia.
Qed.

(** ** Theorems *)

(** C4: [kmalloc] on every size: it keeps the heap tiled by its blocks; on
    success it returns a 16-byte aligned pointer to at least [size] bytes
    inside the heap regions that overlap no live block and no header of one;
    it returns 0 only for size 0, an overflowing size, or when no free block is
    large enough and either the page allocator or the region table is
    exhausted. *)
Theorem kmalloc_correct h L size p h' :
  heap_inv h L -> 0 <= size < 2 ^ 64 -> kmalloc size h = (p, h') ->
  exists L', heap_inv h' L' /\
    ((p = 0 /\ used L' = used L /\
      (0 < size -> size + 2 * PAGE_SIZE <= 2 ^ 64 ->
       (forall b, b ∈ L -> bf b = true -> bsz b < HEAP_ALIGN_UP size) /\
       (fst (pa_alloc_pages (expand_pages (HEAP_ALIGN_UP size)) (pmm h)) = 0 \/
        region_count h = HEAP_MAX_REGIONS))) \/
     exists b, allocated h' L size p L' b).
Proof.
  intros Hi Hs Hk. destruct (kmalloc_spec h L size p h' Hi Hs Hk) as (L' & Hi' & Hpost).
  exists L'. split; [done|].
  destruct Hpost as [[-> Hu]|Hpost]; [left|right; by eapply alloc_post_allocated].
  do 2 (split; [done|]). intros Hpos Hsz.
  unfold kmalloc, PAGE_SIZE, SIZE_MAX, HEAP_ALIGN in *. do 2 (case_if_in Hk; [lia|]).
  destruct (HEAP_ALIGN_UP_spec size) as [Hr Hal]; [unfold SIZE_MAX, HEAP_ALIGN; lia|].
  unfold HEAP_ALIGN in Hr.
  destruct (attempts_fail 0 h L (HEAP_ALIGN_UP size) h' Hi ltac:(lia) Hal) as [Hno Hwhy]; [|done|].
  { unfold PAGE_SIZE, BLOCK_HEADER_SIZE. lia. }
  split; [|done]. intros b Hb Hbf. rewrite Forall_forall in Hno. specialize (Hno b Hb).
  unfold fits in Hno. rewrite Hbf in Hno. simpl in Hno. lia.
Qed.


(** *** Runs of the heap

    Between heap calls the clients write their payloads (any memory but the
    headers in the list) and other users of the page allocator allocate and
    free their own pages. *)
Fixpoint chain (n : nat) (m : gmap Z block_header) (a : Z) : list Z :=
  match n with
  | O => []
  | S n' => if a =? 0 then [] else a :: chain n' m (next (hdr m a))
  end.
Definition chain_of (h : heap A) : list Z := chain (fuel (mem h)) (mem h) (heap_head h).

(** The argument of [kfree] is the payload of a block in the list, or memory
    without the allocation magic. *)
Definition free_arg_ok (h : heap A) (ptr : Z) : Prop :=
  0 <= ptr < 2 ^ 64 /\
  (u64 (ptr - BLOCK_HEADER_SIZE) ∈ chain_of h \/
   magic (hdr (mem h) (u64 (ptr - BLOCK_HEADER_SIZE))) <> BLOCK_MAGIC_ALLOC).

Inductive heap_run (h0 : heap A) : heap A -> Prop :=
  | hr_start : heap_run h0 h0
  | hr_malloc h size :
      heap_run h0 h -> 0 <= size < 2 ^ 64 -> heap_run h0 (snd (kmalloc size h))
  | hr_free h ptr :
      heap_run h0 h -> free_arg_ok h ptr -> heap_run h0 (snd (kfree ptr h))
  | hr_write h m' :
      heap_run h0 h -> (forall x, x ∈ chain_of h -> m' !! x = mem h !! x) ->
      heap_run h0 (set_mem h m')
  | hr_pmm h p' :
      heap_run h0 h -> pa_ok p' -> Forall (region_ok (pa_owned p')) (regions h) ->
      heap_run h0 (set_pmm h p').

Lemma chain_spec n m a L :
  lseg m a L 0 -> Forall blk_ok L -> (length L < n)%nat -> chain n m a = ba <$> L.
Proof.
  revert a L. induction n as [|n IH]; intros a L Hl Hok Hn; [lia|]. cbn [chain].
  destruct L as [|b L]; [simpl in Hl; by subst a|].
  destruct Hl as (-> & nx & Hm & Hl). apply Forall_cons in Hok as [Hb Hok].
  pose proof (blk_ok_nz b Hb). destruct (Z.eqb_spec (ba b) 0); [lia|].
  rewrite (hdr_lookup _ _ _ Hm). simpl in Hn. rewrite fmap_cons. f_equal. apply IH; [done|done|lia].
Qed.

Lemma chain_of_spec h L : heap_inv h L -> chain_of h = ba <$> L.
Proof. intros Hi. apply chain_spec; [apply Hi|apply Hi|by apply inv_fuel]. Qed.

Lemma kmalloc_inv h L size :
  heap_inv h L -> 0 <= size < 2 ^ 64 -> exists L', heap_inv (snd (kmalloc size h)) L'.
Proof.
  intros Hi Hs. destruct (kmalloc size h) as [p h'] eqn:Hk.
  destruct (kmalloc_spec h L size p h' Hi Hs Hk) as (L' & ? & _). eauto.
Qed.

Lemma kfree_inv h L ptr :
  heap_inv h L -> free_arg_ok h ptr -> exists L', heap_inv (snd (kfree ptr h)) L'.
Proof.
  intros Hi [Hp Hor]. rewrite (chain_of_spec h L Hi) in Hor.
  destruct (decide (Exists (fun b => bf b = false /\ payload b = ptr) L)) as [He|Hn].
  - apply Exists_exists in He as (b & Hb & Hbf & <-).
    destruct (kfree_live h L b Hi Hb Hbf) as (h' & L' & -> & ? & _). eauto.
  - exists L. destruct (kfree_reject h L ptr Hi) as [-> _]; try done.
    intros b Hb Hbf Heq. apply Hn, Exists_exists. eauto.
Qed.

Lemma run_inv h0 L0 h : heap_inv h0 L0 -> heap_run h0 h -> exists L, heap_inv h L.
Proof.
  intros Hinit Hrun. induction Hrun as [|h size _ [L IH] Hs|h ptr _ [L IH] Ha|h m' _ [L IH] Hw|h p' _ [L IH] Hp Hr].
  - by exists L0.
  - by eapply kmalloc_inv.
  - by eapply kfree_inv.
  - exists L. rewrite (chain_of_spec h L IH) in Hw. eapply inv_chain; [done| |..]; try done; [|apply IH..].
    by apply (lseg_frame (mem h)), (hi_chain _ _ IH).
  - exists L. by destruct IH.
Qed.

(** C6: from [heap_init] on, whatever sequence of [kmalloc], [kfree], payload
    writes and page-allocator traffic of others: the block list stays
    well-formed, its blocks tile the registered regions exactly, and the used
    bytes, free bytes and headers add up to the total of the regions. *)
Theorem heap_reachable m p h :
  pa_ok p -> heap_head (heap_init (MkHeap m 0 [] p)) <> 0 ->
  heap_run (heap_init (MkHeap m 0 [] p)) h ->
  exists L, heap_inv h L /\ chain_of h = ba <$> L /\
    (forall b c, b ∈ L -> c ∈ L -> b <> c -> disjoint b c) /\
    (forall x, (exists b, b ∈ L /\ covers b x = true) -> addr_in_any_region x h = true) /\
    heap_used_bytes h + heap_free_bytes h + BLOCK_HEADER_SIZE * Z.of_nat (length L)
      = heap_total_bytes h.
Proof.
  intros Hp Hh Hrun. destruct (init_inv m p Hp Hh) as (b & Hi0 & _).
  destruct (run_inv _ _ h Hi0 Hrun) as [L Hi]. exists L. split; [done|].
  split; [by apply chain_of_spec|]. split; [intros; by eapply inv_disjoint|].
  split; [|by apply accounting]. intros x (c & Hc & Hx). unfold covers in Hx.
  eapply covered_in_region; [done|done|lia].
Qed.
End correctness.

(** *** Witnesses: a heap over the bitmap allocator of [Pmm] *)
Definition demo_pmm : Pmm.pmm := Pmm.pmm_init 0x40001000 0x40000000 (1000 * 4096).
Local Notation demo := (heap_init (MkHeap ∅ 0 [] demo_pmm)).

Lemma demo_pmm_ok : pa_ok demo_pmm.
Proof. apply Pmm.init_ok. unfold Pmm.boot_ok, PAGE_SIZE. vm_compute. repeat split; congruence. Qed.

Lemma demo_inv : exists b, heap_inv demo [b].
Proof.
  destruct (init_inv ∅ demo_pmm demo_pmm_ok) as (b & Hi & _); [vm_compute; congruence|by exists b].
Qed.

Lemma kmalloc_correct_witness :
  exists L L' b, allocated (snd (kmalloc 100 demo)) L 100 (fst (kmalloc 100 demo)) L' b.
Proof.
  destruct demo_inv as [b0 Hi].
  destruct (kmalloc_correct demo [b0] 100 (fst (kmalloc 100 demo)) (snd (kmalloc 100 demo)))
    as (L' & _ & [[Hz _]|[b Hb]]); [exact Hi|lia|apply surjective_pairing| |].
  - exfalso. revert Hz. vm_compute. congruence.
  - exists [b0], L', b. exact Hb.
Defined.


Lemma heap_reachable_witness :
  exists L, chain_of (snd (kfree (fst (kmalloc 100 demo)) (snd (kmalloc 100 demo)))) = ba <$> L.
Proof.
  assert (free_arg_ok (snd (kmalloc 100 demo)) (fst (kmalloc 100 demo))) as Harg.
  { split; [vm_compute; split; congruence|]. left.
    eapply (bool_decide_eq_true_1 _). vm_compute. reflexivity. }
  pose proof (hr_free demo _ _ (hr_malloc demo demo 100 (hr_start demo) ltac:(lia)) Harg) as Hrun.
  destruct (heap_reachable ∅ demo_pmm
    (snd (kfree (fst (kmalloc 100 demo)) (snd (kmalloc 100 demo)))) demo_pmm_ok) as (L & _ & HL & _).
  - vm_compute. congruence.
  - exact Hrun.
  - exists L. exact HL.
Defined.

End Heap.
