(* ===== verification/Mmu.v ===== *)
(** * Translation tables (src/src/mm/mmu/mmu.c, mmu.h)

    The four-level, 4 KiB granule translation tables of the kernel and of the
    user address spaces.  [mem] is the physical memory as 64-bit words; the
    code reaches it through the upper-half alias (PHYS_TO_VIRT), so a pointer
    to a table word is modelled by its physical address.  Table pages come
    from any [PageAllocator].  The abstract state of an address space is the
    tree of its tables; [hw_walk] is the walk of the architecture (Arm ARM,
    VMSAv8-64, 48-bit, 4 KiB granule). *)
From S2P Require Import Prelude PageAlloc Pmm.

Module Mmu.

(** ** Constants of mmu.h *)
Definition PTE_VALID : Z := 1 <<< 0.
Definition PTE_TABLE : Z := 1 <<< 1.
Definition PTE_BLOCK : Z := 0 <<< 1.
Definition PTE_AF : Z := 1 <<< 10.
Definition PTE_SH_INNER : Z := 3 <<< 8.
Definition PTE_AP_RW : Z := 0 <<< 6.
Definition PTE_AP_RW_EL0 : Z := 1 <<< 6.
Definition PTE_AP_RO : Z := 2 <<< 6.
Definition PTE_AP_RO_EL0 : Z := 3 <<< 6.
Definition PTE_ATTRIDX (idx : Z) : Z := idx <<< 2.
Definition PTE_UXN : Z := 1 <<< 54.
Definition PTE_PXN : Z := 1 <<< 53.
Definition PTE_NG : Z := 1 <<< 11.
Definition PTE_ADDR_MASK : Z := 0x0000FFFFFFFFF000.
Definition _512GB : Z := 0x8000000000.
Definition _1GB : Z := 0x40000000.
Definition _2MB : Z := 0x200000.
Definition L0_INDEX (va : Z) : Z := (va >>> 39) .& 0x1FF.
Definition L1_INDEX (va : Z) : Z := (va >>> 30) .& 0x1FF.
Definition L2_INDEX (va : Z) : Z := (va >>> 21) .& 0x1FF.
Definition L3_INDEX (va : Z) : Z := (va >>> 12) .& 0x1FF.
Definition USER_TEXT_BASE : Z := 0x00400000.
Definition USER_STACK_TOP : Z := 0x00800000.
Definition USER_STACK_PAGES : Z := 4.
Definition USER_SIGTRAMP_VA : Z := 0x00300000.
Definition MEM_START : Z := 0x40000000.
Definition MEM_SIZE : Z := 8 * 1024 * 1024 * 1024.

Definition pte_next_table (entry : Z) : Z := entry .& PTE_ADDR_MASK.
Definition pte_valid (entry : Z) : bool := test_mask entry PTE_VALID.

(** *** TTBR0_EL1 with the ASID in bits 63:48 *)
Definition TTBR_ASID_SHIFT : Z := 48.
Definition TTBR_BADDR_MASK : Z := 0x0000FFFFFFFFFFFF.
Definition ttbr_pack (baddr asid : Z) : Z := (baddr .& TTBR_BADDR_MASK) .| (asid <<< TTBR_ASID_SHIFT).
Definition ttbr_baddr (ttbr : Z) : Z := ttbr .& TTBR_BADDR_MASK.
Definition ttbr_asid (ttbr : Z) : Z := u16 (ttbr >>> TTBR_ASID_SHIFT).

(** ** Memory *)
Notation memory := (gmap Z Z).
Definition rd64 (m : memory) (a : Z) : Z := default 0 (m !! a).
Definition wr64 (m : memory) (a v : Z) : memory := <[a := v]> m.
(** [memset(page, 0, PAGE_SIZE)] *)
Definition zero_page (m : memory) (p : Z) : memory :=
  filter (fun '(a, _) => ~ (p <= a < p + PAGE_SIZE)) m.
(** address of [table[i]] *)
Definition entry (table i : Z) : Z := table + 8 * i.

(** ** State: the statics of mmu.c, the memory, the page allocator and the
    system registers [mmu_init] writes. *)
Record sysregs := MkRegs { mair : Z; tcr : Z; ttbr0 : Z; ttbr1 : Z; sctlr : Z }.
Record mmu (A : Type) := MkMmu {
  mem : memory;
  pmm : A;
  l0_table_lo : Z;
  l0_table_hi : Z;
  g_sigtramp_phys : Z;
  regs : sysregs
}.
Arguments MkMmu {A}. Arguments mem {A}. Arguments pmm {A}. Arguments l0_table_lo {A}.
Arguments l0_table_hi {A}. Arguments g_sigtramp_phys {A}. Arguments regs {A}.

Section ops.
Context {A : Type} `{PageAllocator A}.

Definition set_mem (s : mmu A) (m : memory) : mmu A :=
  MkMmu m (pmm s) (l0_table_lo s) (l0_table_hi s) (g_sigtramp_phys s) (regs s).
Definition set_pmm (s : mmu A) (p : A) : mmu A :=
  MkMmu (mem s) p (l0_table_lo s) (l0_table_hi s) (g_sigtramp_phys s) (regs s).
Definition set_lo (s : mmu A) (t : Z) : mmu A :=
  MkMmu (mem s) (pmm s) t (l0_table_hi s) (g_sigtramp_phys s) (regs s).
Definition set_hi (s : mmu A) (t : Z) : mmu A :=
  MkMmu (mem s) (pmm s) (l0_table_lo s) t (g_sigtramp_phys s) (regs s).
Definition set_tramp (s : mmu A) (t : Z) : mmu A :=
  MkMmu (mem s) (pmm s) (l0_table_lo s) (l0_table_hi s) t (regs s).
Definition set_regs (s : mmu A) (r : sysregs) : mmu A :=
  MkMmu (mem s) (pmm s) (l0_table_lo s) (l0_table_hi s) (g_sigtramp_phys s) r.

(** A zeroed table page; 0 when the allocator has none.  The page is zeroed
    through its physical or its upper-half address, depending on SCTLR.M: the
    same memory. *)
Definition alloc_table (s : mmu A) : Z * mmu A :=
  let '(table_phys, p) := pa_alloc_page (pmm s) in
  let s := set_pmm s p in
  if table_phys =? 0 then (0, s)
  else (table_phys, set_mem s (zero_page (mem s) table_phys)).

(** ** Identity map *)

(** the body of the inner loop, [l2i = 0 .. 511] *)
Definition ram_block (l1i l2i : Z) : option Z :=
  let phys_addr := u64 (u64 (l1i * _1GB) + u64 (l2i * _2MB)) in
  let mem_end := u64 (MEM_START + MEM_SIZE) in
  if phys_addr =? 0 then None
  else
    let attr := if (MEM_START <=? phys_addr) && (phys_addr <? mem_end) then 1 else 0 in
    Some (phys_addr .| PTE_VALID .| PTE_BLOCK .| PTE_AF .| PTE_SH_INNER .| PTE_AP_RW .| PTE_ATTRIDX attr).
Definition dev_block (l1i l2i : Z) : option Z :=
  let phys_addr := u64 (u64 (_512GB + u64 (l1i * _1GB)) + u64 (l2i * _2MB)) in
  Some (phys_addr .| PTE_VALID .| PTE_BLOCK .| PTE_AF .| PTE_SH_INNER .| PTE_AP_RW .| PTE_ATTRIDX 0).

Fixpoint fill_l2 (n : nat) (block : Z -> Z -> option Z) (l2 l1i l2i : Z) (m : memory) : memory :=
  match n with
  | O => m
  | S n' =>
      let m := match block l1i l2i with None => m | Some d => wr64 m (entry l2 l2i) d end in
      fill_l2 n' block l2 l1i (l2i + 1) m
  end.

(** the loop over [l1i]: a fresh L2 table each; [false] when the allocator is
    exhausted *)
Fixpoint fill_l1 (n : nat) (block : Z -> Z -> option Z) (l1 l1i : Z) (s : mmu A) : bool * mmu A :=
  match n with
  | O => (true, s)
  | S n' =>
      let '(l2, s) := alloc_table s in
      if l2 =? 0 then (false, s)
      else
        let m := wr64 (mem s) (entry l1 l1i) (l2 .| PTE_VALID .| PTE_TABLE) in
        let m := fill_l2 512 block l2 l1i 0 m in
        fill_l1 n' block l1 (l1i + 1) (set_mem s m)
  end.

(** Returns the L0 table (0 on failure) and the first L1 table. *)
Definition build_identity_tables (s : mmu A) : Z * Z * mmu A :=
  let '(l0, s) := alloc_table s in
  if l0 =? 0 then (0, 0, s)
  else
    let '(l1, s) := alloc_table s in
    if l1 =? 0 then (0, 0, s)
    else
      let s := set_mem s (wr64 (mem s) (entry l0 0) (l1 .| PTE_VALID .| PTE_TABLE)) in
      let '(ok, s) := fill_l1 512 ram_block l1 0 s in
      if negb ok then (0, 0, s)
      else
        let '(l1_hi, s) := alloc_table s in
        if l1_hi =? 0 then (0, 0, s)
        else
          let s := set_mem s (wr64 (mem s) (entry l0 1) (l1_hi .| PTE_VALID .| PTE_TABLE)) in
          let '(ok, s) := fill_l1 512 dev_block l1_hi 0 s in
          if negb ok then (0, 0, s) else (l0, l1, s).

Definition MAIR_VALUE : Z := (0x00 <<< 0) .| (0xff <<< 8).
Definition TCR_VALUE : Z :=
  (16 <<< 0) .| (1 <<< 8) .| (1 <<< 10) .| (3 <<< 12) .| (0 <<< 14) .|
  (16 <<< 16) .| (1 <<< 24) .| (1 <<< 26) .| (3 <<< 28) .| (2 <<< 30) .|
  (2 <<< 32) .| (1 <<< 36).

(** [mmu_init]: returns the L1 table of the lower half (0 on failure). *)
Definition mmu_init (s : mmu A) : Z * mmu A :=
  let r := regs s in
  let s := set_regs s (MkRegs MAIR_VALUE (tcr r) (ttbr0 r) (ttbr1 r) (sctlr r)) in
  let '(lo, l1_table, s) := build_identity_tables s in
  let s := set_lo s lo in
  if lo =? 0 then (0, s)
  else
    let '(hi, _, s) := build_identity_tables s in
    let s := set_hi s hi in
    if hi =? 0 then (0, s)
    else
      let r := regs s in
      let sctlr' := sctlr r .| (1 <<< 0) .| (1 <<< 2) .| (1 <<< 12) in
      (l1_table, set_regs s (MkRegs (mair r) TCR_VALUE lo hi sctlr')).

(** ** Walks *)

(** One level of [walk_levels]: the next table, allocated on demand; 0 when
    the walk fails. *)
Definition walk_step (table idx : Z) (alloc : bool) (s : mmu A) : Z * mmu A :=
  let e := rd64 (mem s) (entry table idx) in
  if negb (pte_valid e) then
    if negb alloc then (0, s)
    else
      let '(next, s) := alloc_table s in
      if next =? 0 then (0, s)
      else (next, set_mem s (wr64 (mem s) (entry table idx) (next .| PTE_VALID .| PTE_TABLE)))
  else (pte_next_table e, s).

(** Returns the address of the entry at [target_level], or 0. *)
Definition walk_levels (l0 va target_level : Z) (alloc : bool) (s : mmu A) : Z * mmu A :=
  let '(l1, s) := walk_step l0 (L0_INDEX va) alloc s in
  if l1 =? 0 then (0, s)
  else
    let '(l2, s) := walk_step l1 (L1_INDEX va) alloc s in
    if l2 =? 0 then (0, s)
    else if target_level =? 2 then (entry l2 (L2_INDEX va), s)
    else
      let '(l3, s) := walk_step l2 (L2_INDEX va) alloc s in
      if l3 =? 0 then (0, s) else (entry l3 (L3_INDEX va), s).

Definition user_pte (pa flags : Z) : Z :=
  (pa .& PTE_ADDR_MASK) .| PTE_VALID .| PTE_TABLE .| PTE_AF .| PTE_SH_INNER .| PTE_NG .| flags.

(** The loop of [mmu_map_user_range] from page [i]; it stops at a failed walk. *)
Fixpoint map_loop (n : nat) (l0 va pa i flags : Z) (s : mmu A) : mmu A :=
  match n with
  | O => s
  | S n' =>
      let '(pte, s) := walk_levels l0 (u64 (va + u64 (i * PAGE_SIZE))) 3 true s in
      if pte =? 0 then s
      else
        let s := set_mem s (wr64 (mem s) pte (user_pte (u64 (pa + u64 (i * PAGE_SIZE))) flags)) in
        map_loop n' l0 va pa (i + 1) flags s
  end.
Definition mmu_map_user_range (l0 va pa pages flags : Z) (s : mmu A) : mmu A :=
  map_loop (Z.to_nat pages) l0 va pa 0 flags s.

(** The signal-return trampoline: [mov x8, #17; svc #0], two little-endian
    32-bit words. *)
Definition TRAMP_WORD : Z := 0xD2800228 .| (0xD4000001 <<< 32).
Definition mmu_sigtramp_page (s : mmu A) : Z * mmu A :=
  if negb (g_sigtramp_phys s =? 0) then (g_sigtramp_phys s, s)
  else
    let '(p, a) := pa_alloc_page (pmm s) in
    let s := set_pmm s a in
    if p =? 0 then (0, s)
    else
      let m := zero_page (mem s) p in
      let m := wr64 m p TRAMP_WORD in
      (p, set_tramp (set_mem s m) p).

Definition TRAMP_FLAGS : Z := PTE_ATTRIDX 1 .| PTE_AP_RO_EL0 .| PTE_PXN.
Definition mmu_create_user_tables (s : mmu A) : Z * mmu A :=
  let '(l0, s) := alloc_table s in
  if l0 =? 0 then (0, s)
  else
    let '(tramp, s) := mmu_sigtramp_page s in
    let s := if negb (tramp =? 0)
             then mmu_map_user_range l0 USER_SIGTRAMP_VA tramp 1 TRAMP_FLAGS s else s in
    (l0, s).

(** ** Teardown: three nested loops over the 512 entries of each table *)
Definition for_each (f : Z -> A -> A) (p : A) : A :=
  fold_left (fun p i => f i p) (seqZ 0 512) p.

Definition free_l2_entry (m : memory) (l2 k : Z) (p : A) : A :=
  let e := rd64 m (entry l2 k) in
  if negb (pte_valid e) then p
  else if negb (test_mask e PTE_TABLE) then p
  else pa_free_page (pte_next_table e) p.

Definition free_l1_entry (m : memory) (l1 j : Z) (p : A) : A :=
  let e := rd64 m (entry l1 j) in
  if negb (pte_valid e) then p
  else if negb (test_mask e PTE_TABLE) then p
  else
    let l2_phys := pte_next_table e in
    pa_free_page l2_phys (for_each (free_l2_entry m l2_phys) p).

Definition free_l0_entry (m : memory) (l0 i : Z) (p : A) : A :=
  let e := rd64 m (entry l0 i) in
  if negb (pte_valid e) then p
  else
    let l1_phys := pte_next_table e in
    pa_free_page l1_phys (for_each (free_l1_entry m l1_phys) p).

Definition mmu_free_user_tables (l0_phys : Z) (s : mmu A) : mmu A :=
  set_pmm s (pa_free_page l0_phys (for_each (free_l0_entry (mem s) l0_phys) (pmm s))).
End ops.

(** ** The walk of the architecture

    [hw_walk m l0 va]: the descriptor that translates [va] and its level, or
    [None] for a translation fault.  Bits 1:0 = 11 at levels 0-2 are a table,
    01 at levels 1-2 a block, 11 at level 3 a page. *)
Inductive leaf := Block1 (d : Z) | Block2 (d : Z) | Page3 (d : Z).

Definition is_table (d : Z) : bool := pte_valid d && test_mask d PTE_TABLE.
Definition is_block (d : Z) : bool := pte_valid d && negb (test_mask d PTE_TABLE).

Definition hw_walk (m : memory) (l0 va : Z) : option leaf :=
  let d0 := rd64 m (entry l0 (L0_INDEX va)) in
  if negb (is_table d0) then None
  else
    let d1 := rd64 m (entry (pte_next_table d0) (L1_INDEX va)) in
    if is_block d1 then Some (Block1 d1)
    else if negb (is_table d1) then None
    else
      let d2 := rd64 m (entry (pte_next_table d1) (L2_INDEX va)) in
      if is_block d2 then Some (Block2 d2)
      else if negb (is_table d2) then None
      else
        let d3 := rd64 m (entry (pte_next_table d2) (L3_INDEX va)) in
        if is_table d3 then Some (Page3 d3) else None.

(** ** Descriptors *)
Lemma addr_mask_bits i : 0 <= i -> Z.testbit PTE_ADDR_MASK i = (12 <=? i) && (i <? 48).
Proof.
  intros Hi. change PTE_ADDR_MASK with (Z.ones 36 <<< 12). rewrite Z.shiftl_spec by lia.
  destruct (Z.leb_spec 12 i); [|by rewrite Z.testbit_neg_r by lia]. cbn [andb].
  destruct (Z.ltb_spec i 48); [rewrite Z.ones_spec_low by lia|rewrite Z.ones_spec_high by lia]; done.
Qed.

(** [t .| low] with [low] below the page offset keeps the address. *)
Lemma page_bits t i : 0 <= t -> t mod PAGE_SIZE = 0 -> 0 <= i < 12 -> Z.testbit t i = false.
Proof.
  intros Ht Hal Hi. change PAGE_SIZE with (2 ^ 12) in Hal.
  rewrite <- (Z.mod_pow2_bits_low t 12 i) by lia. rewrite Hal. apply Z.bits_0.
Qed.

Lemma next_table_desc t low :
  run_ok t 1 -> 0 <= low < 4096 -> pte_next_table (t .| low) = t.
Proof.
  intros (Ht & Hal & Hhi) Hlow. unfold pte_next_table. apply Z.bits_inj'. intros i Hi.
  rewrite Z.land_spec, Z.lor_spec, addr_mask_bits by lia.
  destruct (Z.leb_spec 12 i); cbn [andb].
  - rewrite (testbit_high 12 low) by lia. rewrite orb_false_r.
    destruct (Z.ltb_spec i 48); [by rewrite andb_true_r|].
    rewrite (testbit_high 48 t); [done| |lia]. unfold PAGE_SIZE in *. lia.
  - rewrite andb_false_r. symmetry. apply page_bits; [lia|done|lia].
Qed.

Definition tdesc (t : Z) : Z := t .| PTE_VALID .| PTE_TABLE.

Lemma pte_valid_bit x : pte_valid x = Z.testbit x 0.
Proof. apply (test_mask_bit x 0). lia. Qed.
Lemma pte_table_bit x : test_mask x PTE_TABLE = Z.testbit x 1.
Proof. apply (test_mask_bit x 1). lia. Qed.

Lemma tdesc_next t : run_ok t 1 -> pte_next_table (tdesc t) = t.
Proof. intros. unfold tdesc. by apply next_table_desc. Qed.
Lemma tdesc_valid t : pte_valid (tdesc t) = true.
Proof. rewrite pte_valid_bit. unfold tdesc. rewrite Z.lor_spec. by rewrite orb_true_r. Qed.
Lemma tdesc_table t : test_mask (tdesc t) PTE_TABLE = true.
Proof. rewrite pte_table_bit. unfold tdesc. rewrite Z.lor_spec. by rewrite orb_true_r. Qed.
Lemma tdesc_is_table t : is_table (tdesc t) = true.
Proof. unfold is_table. by rewrite tdesc_valid, tdesc_table. Qed.

(** ** The tree of tables

    [ptree d m root T]: the tables of an address space with [d] levels of
    table descriptors above the leaves; [T] maps the path of indices from the
    root to the physical page of a table. *)
Record ptree (d : nat) (m : memory) (root : Z) (T : gmap (list Z) Z) : Prop := {
  pt_root : T !! [] = Some root;
  pt_len p t : T !! p = Some t -> (length p <= d)%nat;
  pt_idx p t : T !! p = Some t -> Forall (fun i => 0 <= i < 512) p;
  pt_page p t : T !! p = Some t -> run_ok t 1;
  pt_inj p q t : T !! p = Some t -> T !! q = Some t -> p = q;
  pt_closed p i t : T !! (p ++ [i]) = Some t -> is_Some (T !! p);
  pt_entry p t i : T !! p = Some t -> (length p < d)%nat -> 0 <= i < 512 ->
    rd64 m (entry t i) = match T !! (p ++ [i]) with Some t' => tdesc t' | None => 0 end
}.

(** The leaf descriptor at path [p] (of length [d]) and index [i]. *)
Definition leaf_at (m : memory) (T : gmap (list Z) Z) (p : list Z) (i : Z) : Z :=
  match T !! p with Some t => rd64 m (entry t i) | None => 0 end.

(** The pages of the tables. *)
Definition tables (T : gmap (list Z) Z) : gset Z := list_to_set (snd <$> map_to_list T).

Lemma elem_of_tables T x : x ∈ tables T <-> exists p, T !! p = Some x.
Proof.
  unfold tables. rewrite elem_of_list_to_set, list_elem_of_fmap. split.
  - intros ([p t] & -> & Hin). exists p. by apply elem_of_map_to_list.
  - intros [p Hp]. exists (p, x). split; [done|]. by apply elem_of_map_to_list.
Qed.

Lemma tables_insert T p t : T !! p = None -> tables (<[p := t]> T) = {[t]} ∪ tables T.
Proof.
  intros Hn. apply set_eq. intros x. rewrite elem_of_union, elem_of_singleton, !elem_of_tables. split.
  - intros [q Hq]. apply lookup_insert_Some in Hq as [[_ ->]|[_ Hq]]; eauto.
  - intros [->|[q Hq]].
    + exists p. apply lookup_insert_eq.
    + exists q. rewrite lookup_insert_ne; [done|]. intros ->. congruence.
Qed.

(** Words of different pages are different. *)
Lemma entry_ne t t' i j :
  run_ok t 1 -> run_ok t' 1 -> 0 <= i < 512 -> 0 <= j < 512 ->
  entry t i = entry t' j -> t = t' /\ i = j.
Proof. intros (? & ? & ?) (? & ? & ?) ? ?. unfold entry, PAGE_SIZE in *. dlia. Qed.

Lemma rd64_wr64_eq m a v : rd64 (wr64 m a v) a = v.
Proof. unfold rd64, wr64. by rewrite lookup_insert_eq. Qed.
Lemma rd64_wr64_ne m a b v : a <> b -> rd64 (wr64 m a v) b = rd64 m b.
Proof. intros. unfold rd64, wr64. by rewrite lookup_insert_ne. Qed.

Lemma rd64_zero_in m p i : 0 <= i < 512 -> rd64 (zero_page m p) (entry p i) = 0.
Proof.
  intros Hi. unfold rd64, zero_page. rewrite map_lookup_filter.
  destruct (m !! entry p i); [|done]. simpl. rewrite option_guard_False; [done|].
  unfold entry, PAGE_SIZE. lia.
Qed.
Lemma lookup_zero_out m p a : ~ (p <= a < p + PAGE_SIZE) -> zero_page m p !! a = m !! a.
Proof.
  intros Ha. unfold zero_page. rewrite map_lookup_filter.
  destruct (m !! a); [|done]. simpl. by rewrite option_guard_True.
Qed.
Lemma rd64_zero_other m t t' i :
  run_ok t 1 -> run_ok t' 1 -> t <> t' -> 0 <= i < 512 ->
  rd64 (zero_page m t) (entry t' i) = rd64 m (entry t' i).
Proof.
  intros (? & ? & ?) (? & ? & ?) ? ?. unfold rd64. rewrite lookup_zero_out; [done|].
  unfold entry, PAGE_SIZE in *. dlia.
Qed.

Lemma snoc_inj (p q : list Z) i j : p ++ [i] = q ++ [j] -> p = q /\ i = j.
Proof. intros [-> [= ->]]%app_inj_tail. done. Qed.

(** *** Adding a zeroed table below an empty entry *)
Section add.
Context (d : nat) (m : memory) (root : Z) (T : gmap (list Z) Z) (p : list Z) (t i n : Z).
Hypothesis Htree : ptree d m root T.
Hypothesis Hp : T !! p = Some t.
Hypothesis Hlen : (length p < d)%nat.
Hypothesis Hi : 0 <= i < 512.
Hypothesis Hempty : T !! (p ++ [i]) = None.
Hypothesis Hn : run_ok n 1.
Hypothesis Hfresh : n ∉ tables T.
Let m' := wr64 (zero_page m n) (entry t i) (tdesc n).
Let T' := <[p ++ [i] := n]> T.

Lemma add_fresh q t' : T !! q = Some t' -> t' <> n.
Proof. intros Hq ->. apply Hfresh, elem_of_tables. eauto. Qed.

Lemma add_read q t' j :
  T !! q = Some t' -> 0 <= j < 512 -> (q <> p \/ j <> i) ->
  rd64 m' (entry t' j) = rd64 m (entry t' j).
Proof.
  intros Hq Hj Hne. unfold m'. rewrite rd64_wr64_ne.
  - apply rd64_zero_other; [done|by apply (pt_page _ _ _ _ Htree q)| |done].
    intros E. by apply (add_fresh q t' Hq).
  - intros E. apply entry_ne in E as [<- <-]; [|by eapply pt_page..|done|done].
    destruct Hne as [Hne|Hne]; [|done]. apply Hne. by apply (pt_inj _ _ _ _ Htree q p t).
Qed.

Lemma add_new j : 0 <= j < 512 -> rd64 m' (entry n j) = 0.
Proof.
  intros Hj. unfold m'. rewrite rd64_wr64_ne; [by apply rd64_zero_in|].
  intros E. apply entry_ne in E as [E _]; [|by eapply pt_page|done..]. by apply (add_fresh p t Hp).
Qed.

Lemma add_tree : ptree d m' root T'.
Proof.
  constructor; unfold T'.
  - rewrite lookup_insert_ne; [apply Htree|]. by destruct p.
  - intros q t' [[<- _]|[_ Hq]]%lookup_insert_Some; [rewrite length_app; simpl; lia|by eapply pt_len].
  - intros q t' [[<- _]|[_ Hq]]%lookup_insert_Some; [|by eapply pt_idx].
    apply Forall_app. split; [by eapply pt_idx|by constructor].
  - intros q t' [[<- <-]|[_ Hq]]%lookup_insert_Some; [done|by eapply pt_page].
  - intros q r t' [[<- <-]|[Hq1 Hq]]%lookup_insert_Some [[<- E]|[Hr1 Hr]]%lookup_insert_Some; try done.
    + by destruct (add_fresh r n Hr).
    + by destruct (add_fresh q t' Hq).
    + by eapply pt_inj.
  - intros q j t' [[E _]|[_ Hq]]%lookup_insert_Some.
    + apply snoc_inj in E as [<- _]. rewrite lookup_insert_ne; [by rewrite Hp|].
      intros E2. apply (f_equal length) in E2. rewrite length_app in E2. simpl in E2. lia.
    + destruct (decide (p ++ [i] = q)) as [<-|Hne]; [by rewrite lookup_insert_eq|].
      rewrite lookup_insert_ne by done. by eapply pt_closed.
  - intros q t' j [[<- <-]|[Hne Hq]]%lookup_insert_Some Hl Hj.
    + rewrite add_new by done. rewrite lookup_insert_ne.
      2: { intros E. apply (f_equal length) in E. rewrite !length_app in E. simpl in E. lia. }
      destruct (T !! ((p ++ [i]) ++ [j])) as [x|] eqn:E; [|done].
      apply (pt_closed _ _ _ _ Htree) in E as [y Hy]. congruence.
    + destruct (decide (q = p /\ j = i)) as [[-> ->]|Hd].
      * rewrite lookup_insert_eq. rewrite Hp in Hq. injection Hq as <-. unfold m'. apply rd64_wr64_eq.
      * rewrite lookup_insert_ne by (intros [E1 E2]%snoc_inj; apply Hd; done).
        assert (q <> p \/ j <> i) as Hor by (destruct (decide (q = p)); [right; naive_solver|by left]).
        rewrite (add_read q) by done.
        by apply (pt_entry _ _ _ _ Htree).
Qed.

Lemma add_leaf q j : length q = d -> 0 <= j < 512 -> leaf_at m' T' q j = leaf_at m T q j.
Proof.
  intros Hq Hj. unfold leaf_at, T'. destruct (decide (p ++ [i] = q)) as [<-|Hne].
  - rewrite lookup_insert_eq, Hempty. by apply add_new.
  - rewrite lookup_insert_ne by done. destruct (T !! q) as [t'|] eqn:E; [|done].
    apply (add_read q); [done|done|]. left. intros ->. lia.
Qed.
End add.

(** *** Writing a leaf entry *)
Lemma leaf_tree d m root T p t i v :
  ptree d m root T -> T !! p = Some t -> length p = d -> 0 <= i < 512 ->
  let m' := wr64 m (entry t i) v in
  ptree d m' root T /\
  (forall q j, length q = d -> 0 <= j < 512 ->
     leaf_at m' T q j = if decide (q = p /\ j = i) then v else leaf_at m T q j).
Proof.
  intros Ht Hp Hl Hi m'. split.
  - constructor; try apply Ht. intros q t' j Hq Hlq Hj. unfold m'. rewrite rd64_wr64_ne.
    + by apply (pt_entry _ _ _ _ Ht).
    + intros E. apply entry_ne in E as [<- _]; [|by eapply pt_page..|done|done].
      assert (q = p) as -> by (by eapply pt_inj). lia.
  - intros q j Hq Hj. unfold leaf_at, m'. destruct (decide (q = p /\ j = i)) as [[-> ->]|Hne].
    + rewrite Hp. apply rd64_wr64_eq.
    + destruct (T !! q) as [t'|] eqn:E; [|done]. rewrite rd64_wr64_ne; [done|].
      intros Eq. apply entry_ne in Eq as [<- <-]; [|by eapply pt_page..|done|done].
      apply Hne. split; [by eapply pt_inj|done].
Qed.

(** ** The address space invariant

    [as_inv d s root T base]: the tables of the tree are exactly the pages that
    the address space holds on top of the pages [base] of everybody else. *)
Record as_inv {A} `{PageAllocator A} (d : nat) (s : mmu A) (root : Z) (T : gmap (list Z) Z)
    (base : gset Z) : Prop := {
  ai_ok : pa_ok (pmm s);
  ai_tree : ptree d (mem s) root T;
  ai_owned : pa_owned (pmm s) = base ∪ tables T;
  ai_disj : base ## tables T
}.

(** Memory outside the pages in [P] is the same. *)
Definition same_outside (P : gset Z) (m m' : memory) : Prop :=
  forall a, (forall t, t ∈ P -> ~ t <= a < t + PAGE_SIZE) -> m' !! a = m !! a.

Lemma same_outside_refl P m : same_outside P m m.
Proof. done. Qed.
Lemma same_outside_trans P Q m1 m2 m3 :
  same_outside P m1 m2 -> same_outside Q m2 m3 -> P ⊆ Q -> same_outside Q m1 m3.
Proof. intros H1 H2 Hsub a Ha. rewrite H2 by done. apply H1. intros t Ht. apply Ha. by apply Hsub. Qed.

Lemma same_outside_wr P m t i v :
  t ∈ P -> 0 <= i < 512 -> same_outside P m (wr64 m (entry t i) v).
Proof.
  intros Ht Hi a Ha. apply lookup_insert_ne. intros <-. apply (Ha t Ht). unfold entry, PAGE_SIZE. lia.
Qed.
Lemma same_outside_zero P m t : t ∈ P -> same_outside P m (zero_page m t).
Proof. intros Ht a Ha. apply lookup_zero_out, Ha, Ht. Qed.

(** How an operation on the tables may change the state. *)
Record grows {A} `{PageAllocator A} (d : nat) (s s' : mmu A) (T T' : gmap (list Z) Z) : Prop := {
  gr_sub : T ⊆ T';
  gr_mem : same_outside (tables T') (mem s) (mem s');
  gr_rest : l0_table_lo s' = l0_table_lo s /\ l0_table_hi s' = l0_table_hi s /\
            g_sigtramp_phys s' = g_sigtramp_phys s /\ regs s' = regs s
}.

Lemma tables_mono T T' : T ⊆ T' -> tables T ⊆ tables T'.
Proof.
  intros Hsub x [p Hp]%elem_of_tables. apply elem_of_tables. exists p. by eapply lookup_weaken.
Qed.

Section correctness.
Context {A : Type} `{PageAllocatorLaws A}.
Implicit Types (s : mmu A).

Lemma grows_refl d s T : grows d s s T T.
Proof. constructor; [done|apply same_outside_refl|done]. Qed.
Lemma grows_trans d s1 s2 s3 T1 T2 T3 :
  grows d s1 s2 T1 T2 -> grows d s2 s3 T2 T3 -> grows d s1 s3 T1 T3.
Proof.
  intros [S1 M1 R1] [S2 M2 R2]. constructor.
  - by transitivity T2.
  - eapply same_outside_trans; [done|done|by apply tables_mono].
  - destruct R1 as (-> & -> & -> & ->) in R2. done.
Qed.

Lemma alloc_table_spec s t s' :
  pa_ok (pmm s) -> alloc_table s = (t, s') ->
  pa_ok (pmm s') /\
  ((t = 0 /\ s' = s) \/
   (run_ok t 1 /\ t ∉ pa_owned (pmm s) /\ pa_owned (pmm s') = {[t]} ∪ pa_owned (pmm s) /\
    s' = set_mem (set_pmm s (pmm s')) (zero_page (mem s) t))).
Proof.
  intros Hok. unfold alloc_table. destruct (pa_alloc_page (pmm s)) as [tp p] eqn:Hal.
  destruct (pa_alloc_page_law _ _ _ Hok Hal) as [Hok' Hc].
  destruct (Z.eqb_spec tp 0) as [->|Hnz]; intros [= <- <-].
  - split; [done|]. left. split; [done|]. destruct Hc as [[_ ->]|[(? & _) _]]; [|lia]. by destruct s.
  - split; [done|]. right. destruct Hc as [[? _]|(? & ? & ?)]; [done|]. done.
Qed.

(** *** One level of a walk *)
Lemma walk_step_spec d s root T base p t i nx s' :
  as_inv d s root T base -> T !! p = Some t -> (length p < d)%nat -> 0 <= i < 512 ->
  walk_step t i true s = (nx, s') ->
  exists T', as_inv d s' root T' base /\ grows d s s' T T' /\
    (forall q j, length q = d -> 0 <= j < 512 -> leaf_at (mem s') T' q j = leaf_at (mem s) T q j) /\
    (nx <> 0 -> T' !! (p ++ [i]) = Some nx) /\
    (nx = 0 -> T' = T /\ s' = s /\ fst (pa_alloc_page (pmm s)) = 0).
Proof.
  intros Hinv Hp Hl Hi. pose proof (ai_tree _ _ _ _ _ Hinv) as Ht. unfold walk_step.
  rewrite (pt_entry _ _ _ _ Ht p t i) by done. destruct (T !! (p ++ [i])) as [t'|] eqn:E.
  { rewrite tdesc_valid. cbn [negb]. rewrite tdesc_next by (by eapply pt_page).
    intros [= <- <-]. exists T. split; [done|]. split; [apply grows_refl|]. split; [done|].
    split; [done|]. intros ->. destruct (pt_page _ _ _ _ Ht _ _ E) as [? _]. lia. }
  change (pte_valid 0) with false. cbn [negb].
  destruct (alloc_table s) as [n s1] eqn:Hal.
  destruct (alloc_table_spec s n s1 (ai_ok _ _ _ _ _ Hinv) Hal) as [Hok1 [[-> ->]|(Hn & Hnew & Hown & Hs1)]].
  { intros [= <- <-]. exists T. split; [done|]. split; [apply grows_refl|]. do 2 (split; [done|]).
    intros _. do 2 (split; [done|]). unfold alloc_table in Hal.
    destruct (pa_alloc_page (pmm s)) as [tp pp]. destruct (Z.eqb_spec tp 0); [done|]. by injection Hal. }
  pose proof Hn as (Hpos & _). destruct (Z.eqb_spec n 0); [lia|]. intros [= <- <-].
  assert (n ∉ tables T) as Hfresh.
  { intros Hin. apply Hnew. rewrite (ai_owned _ _ _ _ _ Hinv). by apply elem_of_union_r. }
  assert (n ∉ base) as Hnb.
  { intros Hin. apply Hnew. rewrite (ai_owned _ _ _ _ _ Hinv). by apply elem_of_union_l. }
  rewrite Hs1. cbn [mem set_mem set_pmm]. fold (tdesc n).
  exists (<[p ++ [i] := n]> T). split.
  { constructor; cbn [mem pmm set_mem set_pmm].
    - done.
    - by apply add_tree.
    - rewrite Hown, (ai_owned _ _ _ _ _ Hinv), tables_insert by done. set_solver.
    - rewrite tables_insert by done. pose proof (ai_disj _ _ _ _ _ Hinv). set_solver. }
  split.
  { constructor; [by apply insert_subseteq| |done]. cbn [mem set_mem].
    assert (n ∈ tables (<[p ++ [i] := n]> T) /\ t ∈ tables (<[p ++ [i] := n]> T)) as [Hin Hit].
    { rewrite tables_insert by done. split; [set_solver|]. apply elem_of_union_r, elem_of_tables. eauto. }
    apply (same_outside_trans (tables (<[p ++ [i] := n]> T)) _ _ (zero_page (mem s) n));
      [by apply same_outside_zero|by apply same_outside_wr|done]. }
  split; [intros q j ? ?; by apply (add_leaf d (mem s) root T p t i n)|]. split; [|done]. intros _. apply lookup_insert_eq.
Qed.

(** *** The path of a virtual address *)
Lemma va_index_range va sh : 0 <= (va >>> sh) .& 0x1FF < 512.
Proof. change 0x1FF with (Z.ones 9). rewrite Z.land_ones by lia. apply Z.mod_pos_bound. lia. Qed.

Definition path (va : Z) : list Z := [L0_INDEX va; L1_INDEX va; L2_INDEX va].

Lemma index_div va sh : 0 <= sh -> (va >>> sh) .& 0x1FF = va / 2 ^ sh mod 512.
Proof.
  intros. change 0x1FF with (Z.ones 9). rewrite Z.land_ones, Z.shiftr_div_pow2 by lia. done.
Qed.

(** Distinct pages below 2^48 have distinct leaf entries. *)
Lemma path_inj va va' :
  0 <= va < 2 ^ 48 -> 0 <= va' < 2 ^ 48 -> path va = path va' -> L3_INDEX va = L3_INDEX va' ->
  va / PAGE_SIZE = va' / PAGE_SIZE.
Proof.
  intros Hv Hv' Hp H3. unfold path, L0_INDEX, L1_INDEX, L2_INDEX, L3_INDEX in *.
  rewrite !index_div in * by lia. injection Hp as H0' H1' H2'. unfold PAGE_SIZE. dlia.
Qed.

Definition va_leaf (m : memory) (T : gmap (list Z) Z) (va : Z) : Z :=
  leaf_at m T (path va) (L3_INDEX va).

(** What the words of the tree's tables hold. *)
Lemma ptree_step d m root T p t i :
  ptree d m root T -> T !! p = Some t -> (length p < d)%nat -> 0 <= i < 512 ->
  (T !! (p ++ [i]) = None /\ rd64 m (entry t i) = 0) \/
  (exists t', T !! (p ++ [i]) = Some t' /\ rd64 m (entry t i) = tdesc t' /\ pte_next_table (tdesc t') = t').
Proof.
  intros Ht Hp Hl Hi. rewrite (pt_entry _ _ _ _ Ht p t i) by done.
  destruct (T !! (p ++ [i])) as [t'|] eqn:E; [right|by left]. exists t'. split; [done|]. split; [done|].
  apply tdesc_next. by eapply pt_page.
Qed.

Lemma ptree_none d m root T l q : ptree d m root T -> T !! l = None -> T !! (l ++ q) = None.
Proof.
  intros Ht Hl. induction q as [|x q IH] using rev_ind; [by rewrite app_nil_r|].
  rewrite app_assoc. destruct (T !! ((l ++ q) ++ [x])) as [y|] eqn:E; [|done].
  apply (pt_closed _ _ _ _ Ht) in E as [z Hz]. congruence.
Qed.

(** The leaf found by the architecture's walk is the leaf of the tree. *)
Lemma hw_walk_leaf m l0 T va :
  ptree 3 m l0 T ->
  hw_walk m l0 va = if is_table (va_leaf m T va) then Some (Page3 (va_leaf m T va)) else None.
Proof.
  intros Ht. unfold hw_walk, va_leaf, leaf_at, path, is_block.
  destruct (ptree_step _ _ _ _ [] l0 (L0_INDEX va) Ht (pt_root _ _ _ _ Ht)) as [[Hn ->]|(t1 & K1 & -> & E1)];
    [simpl; lia|apply va_index_range| |].
  { pose proof (ptree_none _ _ _ _ _ [L1_INDEX va; L2_INDEX va] Ht Hn) as Hn'. cbn [app] in Hn'. by rewrite Hn'. }
  rewrite tdesc_is_table, E1. cbn [negb app] in *.
  destruct (ptree_step _ _ _ _ _ t1 (L1_INDEX va) Ht K1) as [[Hn ->]|(t2 & K2 & -> & E2)];
    [simpl; lia|apply va_index_range| |].
  { pose proof (ptree_none _ _ _ _ _ [L2_INDEX va] Ht Hn) as Hn'. cbn [app] in Hn'. by rewrite Hn'. }
  rewrite tdesc_valid, tdesc_table, tdesc_is_table, E2. cbn [negb app andb] in *.
  destruct (ptree_step _ _ _ _ _ t2 (L2_INDEX va) Ht K2) as [[Hn ->]|(t3 & K3 & -> & E3)];
    [simpl; lia|apply va_index_range| |].
  { cbn [app] in Hn. by rewrite Hn. }
  rewrite tdesc_valid, tdesc_table, tdesc_is_table, E3. cbn [negb app andb] in *. by rewrite K3.
Qed.

(** Two-level trees with 2 MiB blocks at the leaves. *)
Lemma hw_walk_block m l0 T va :
  ptree 2 m l0 T ->
  let d := leaf_at m T [L0_INDEX va; L1_INDEX va] (L2_INDEX va) in
  d = 0 \/ is_block d = true ->
  hw_walk m l0 va = if is_block d then Some (Block2 d) else None.
Proof.
  intros Ht d Hd. unfold hw_walk. subst d. unfold leaf_at in *.
  destruct (ptree_step _ _ _ _ [] l0 (L0_INDEX va) Ht (pt_root _ _ _ _ Ht)) as [[Hn ->]|(t1 & K1 & -> & E1)];
    [simpl; lia|apply va_index_range| |].
  { pose proof (ptree_none _ _ _ _ _ [L1_INDEX va] Ht Hn) as Hn'. cbn [app] in Hn'. by rewrite Hn'. }
  rewrite tdesc_is_table, E1. cbn [negb app] in *.
  destruct (ptree_step _ _ _ _ _ t1 (L1_INDEX va) Ht K1) as [[Hn ->]|(t2 & K2 & -> & E2)];
    [simpl; lia|apply va_index_range| |].
  { cbn [app] in Hn. by rewrite Hn. }
  unfold is_block at 1. rewrite tdesc_valid, tdesc_table, tdesc_is_table, E2. cbn [negb app andb] in *.
  rewrite K2 in *. destruct Hd as [->|Hd]; [done|]. by rewrite Hd.
Qed.

(** *** Walks *)
Lemma walk_levels_spec s l0 T base va pte s' :
  as_inv 3 s l0 T base -> walk_levels l0 va 3 true s = (pte, s') ->
  exists T', as_inv 3 s' l0 T' base /\ grows 3 s s' T T' /\
    (forall q j, length q = 3%nat -> 0 <= j < 512 -> leaf_at (mem s') T' q j = leaf_at (mem s) T q j) /\
    ((pte = 0 /\ fst (pa_alloc_page (pmm s')) = 0) \/
     exists t, pte <> 0 /\ T' !! path va = Some t /\ pte = entry t (L3_INDEX va)).
Proof.
  intros Hinv. unfold walk_levels.
  pose proof (va_index_range va 39) as I0. pose proof (va_index_range va 30) as I1.
  pose proof (va_index_range va 21) as I2. fold (L0_INDEX va) (L1_INDEX va) (L2_INDEX va) in *.
  destruct (walk_step l0 (L0_INDEX va) true s) as [l1 s1] eqn:W1.
  destruct (walk_step_spec 3 s l0 T base [] l0 (L0_INDEX va) l1 s1 Hinv) as (T1 & Hi1 & G1 & L1 & Hp1 & Hz1);
    [apply Hinv|simpl; lia|done|done|].
  destruct (Z.eqb_spec l1 0) as [->|N1].
  { intros [= <- <-]. destruct (Hz1 eq_refl) as (-> & -> & Hz). exists T. do 3 (split; [done|]). by left. }
  specialize (Hp1 N1). cbn [app] in Hp1.
  destruct (walk_step l1 (L1_INDEX va) true s1) as [l2 s2] eqn:W2.
  destruct (walk_step_spec 3 s1 l0 T1 base _ l1 (L1_INDEX va) l2 s2 Hi1 Hp1) as (T2 & Hi2 & G2 & L2 & Hp2 & Hz2);
    [simpl; lia|done|done|].
  assert (grows 3 s s2 T T2) as G02 by (by eapply grows_trans).
  assert (forall q j, length q = 3%nat -> 0 <= j < 512 -> leaf_at (mem s2) T2 q j = leaf_at (mem s) T q j) as L02.
  { intros. rewrite L2, L1 by done. done. }
  destruct (Z.eqb_spec l2 0) as [->|N2].
  { intros [= <- <-]. destruct (Hz2 eq_refl) as (-> & -> & Hz). exists T1. do 3 (split; [done|]). by left. }
  specialize (Hp2 N2). cbn [app Z.eqb] in *. change (3 =? 2) with false. cbv iota.
  destruct (walk_step l2 (L2_INDEX va) true s2) as [l3 s3] eqn:W3.
  destruct (walk_step_spec 3 s2 l0 T2 base _ l2 (L2_INDEX va) l3 s3 Hi2 Hp2) as (T3 & Hi3 & G3 & L3 & Hp3 & Hz3);
    [simpl; lia|done|done|].
  assert (grows 3 s s3 T T3) as G03 by (by eapply grows_trans).
  assert (forall q j, length q = 3%nat -> 0 <= j < 512 -> leaf_at (mem s3) T3 q j = leaf_at (mem s) T q j) as L03.
  { intros. rewrite L3, L02 by done. done. }
  destruct (Z.eqb_spec l3 0) as [->|N3].
  { intros [= <- <-]. destruct (Hz3 eq_refl) as (-> & -> & Hz). exists T2. do 3 (split; [done|]). by left. }
  specialize (Hp3 N3). intros [= <- <-]. exists T3. do 3 (split; [done|]). right. exists l3.
  split; [|done]. pose proof (pt_page _ _ _ _ (ai_tree _ _ _ _ _ Hi3) _ _ Hp3) as (? & _).
  pose proof (va_index_range va 12) as I3. fold (L3_INDEX va) in I3. unfold entry. lia.
Qed.

(** *** Mapping *)
Definition page_of (va : Z) : Z := va / PAGE_SIZE.

Lemma leaf_write s l0 T base va v t :
  as_inv 3 s l0 T base -> 0 <= va < 2 ^ 48 -> T !! path va = Some t ->
  let s' := set_mem s (wr64 (mem s) (entry t (L3_INDEX va)) v) in
  as_inv 3 s' l0 T base /\ grows 3 s s' T T /\
  (forall va', 0 <= va' < 2 ^ 48 ->
     va_leaf (mem s') T va' = if decide (page_of va' = page_of va) then v else va_leaf (mem s) T va').
Proof.
  intros Hinv Hva Hp s'. pose proof (va_index_range va 12) as I3. fold (L3_INDEX va) in I3.
  destruct (leaf_tree 3 (mem s) l0 T (path va) t (L3_INDEX va) v (ai_tree _ _ _ _ _ Hinv) Hp eq_refl I3)
    as [Ht Hl]. cbv zeta in *. split; [|split].
  - destruct Hinv. by constructor.
  - constructor; [done| |done]. apply same_outside_wr; [|done]. apply elem_of_tables. eauto.
  - intros va' Hva'. unfold va_leaf. cbn [s' mem set_mem]. rewrite Hl; [|done|apply va_index_range].
    destruct (decide (page_of va' = page_of va)) as [E|E].
    + rewrite decide_True; [done|]. unfold path, L0_INDEX, L1_INDEX, L2_INDEX, L3_INDEX.
      rewrite !index_div by lia. unfold page_of, PAGE_SIZE in E.
      assert (forall k, 0 <= k -> va' / 2 ^ (12 + k) = va / 2 ^ (12 + k)) as Hk.
      { intros k Hk. rewrite Z.pow_add_r, <- !Z.div_div by lia.
        change (2 ^ 12) with 4096. by rewrite E. }
      pose proof (Hk 27 ltac:(lia)) as K0. pose proof (Hk 18 ltac:(lia)) as K1.
      pose proof (Hk 9 ltac:(lia)) as K2. pose proof (Hk 0 ltac:(lia)) as K3.
      change (12 + 27) with 39 in K0. change (12 + 18) with 30 in K1.
      change (12 + 9) with 21 in K2. change (12 + 0) with 12 in K3. by rewrite K0, K1, K2, K3.
    + rewrite decide_False; [done|]. intros [E1 E2]. apply E. by apply path_inj.
Qed.

Lemma map_loop_spec n s l0 T base va pa i flags :
  as_inv 3 s l0 T base -> 0 <= va -> va mod PAGE_SIZE = 0 -> 0 <= i ->
  va + (i + Z.of_nat n) * PAGE_SIZE <= 2 ^ 48 ->
  0 <= pa -> pa + (i + Z.of_nat n) * PAGE_SIZE <= 2 ^ 64 ->
  let s' := map_loop n l0 va pa i flags s in
  exists T' k, 0 <= k <= Z.of_nat n /\ as_inv 3 s' l0 T' base /\ grows 3 s s' T T' /\
    (k < Z.of_nat n -> fst (pa_alloc_page (pmm s')) = 0) /\
    (forall va', 0 <= va' < 2 ^ 48 ->
       va_leaf (mem s') T' va' =
       if decide (i <= page_of va' - page_of va < i + k)
       then user_pte (pa + (page_of va' - page_of va) * PAGE_SIZE) flags
       else va_leaf (mem s) T va').
Proof.
  revert s T i. induction n as [|n IH]; intros s T i Hinv Hva Hal Hi Hhi Hpa Hpe; cbn [map_loop].
  { exists T, 0. split; [lia|]. split; [done|]. split; [apply grows_refl|]. split; [lia|].
    intros va' _. by rewrite decide_False by lia. }
  unfold PAGE_SIZE in Hal, Hhi, Hpe.
  rewrite !(u64_small (i * PAGE_SIZE)) by (unfold PAGE_SIZE; lia).
  rewrite (u64_small (va + i * PAGE_SIZE)), (u64_small (pa + i * PAGE_SIZE)) by (unfold PAGE_SIZE; lia).
  set (v := va + i * PAGE_SIZE). destruct (walk_levels l0 v 3 true s) as [pte s1] eqn:W.
  destruct (walk_levels_spec s l0 T base v pte s1 Hinv W) as (T1 & Hi1 & G1 & L1 & Hc).
  destruct Hc as [[-> Hz]|(t & Hnz & Hp & ->)].
  { exists T1, 0. split; [lia|]. split; [done|]. split; [done|]. split; [done|]. intros va' Hva'.
    rewrite decide_False by lia. apply L1; [done|apply va_index_range]. }
  destruct (Z.eqb_spec (entry t (L3_INDEX v)) 0); [done|].
  assert (0 <= v < 2 ^ 48) as Hv by (unfold v, PAGE_SIZE; lia).
  assert (page_of v = page_of va + i) as Hpv by (unfold page_of, v, PAGE_SIZE; dlia).
  destruct (leaf_write s1 l0 T1 base v (user_pte (pa + i * PAGE_SIZE) flags) t Hi1 Hv Hp) as (Hi2 & G2 & L2).
  cbv zeta in *. set (s2 := set_mem s1 _) in *.
  destruct (IH s2 T1 (i + 1) Hi2) as (T3 & k & Hk & Hi3 & G3 & Hz3 & L3); [unfold PAGE_SIZE in *; lia..|].
  exists T3, (k + 1). split; [lia|]. split; [done|].
  split; [eapply grows_trans; [done|by eapply grows_trans]|]. split; [intros; apply Hz3; lia|].
  intros va' Hva'. rewrite L3, L2 by done.
  destruct (decide (page_of va' = page_of v)) as [E|E].
  - rewrite decide_False, decide_True by lia. do 2 f_equal. lia.
  - destruct (decide (i + 1 <= page_of va' - page_of va < i + 1 + k)).
    + by rewrite decide_True by lia.
    + rewrite decide_False by lia. apply L1; [done|apply va_index_range].
Qed.

(** *** Teardown *)
Definition fr (p : A) (a : Z) : A := pa_free_page a p.

Lemma fold_free l p :
  pa_ok p -> Forall (fun a => 0 <= a < 2 ^ 64) l ->
  pa_ok (fold_left fr l p) /\ pa_owned (fold_left fr l p) = pa_owned p ∖ list_to_set l.
Proof.
  intros Hok Hl. revert p Hok. induction Hl as [|a l Ha Hl IH]; intros p Hok; cbn [fold_left].
  { split; [done|]. simpl. by rewrite difference_empty_L. }
  assert (pa_ok (fr p a) /\ pa_owned (fr p a) = pa_owned p ∖ {[a]}) as [Hok' Ho].
  { unfold fr. destruct (decide (a ∈ pa_owned p)) as [Hin|Hout]; [by apply pa_free_page_law|].
    rewrite pa_free_other by done. split; [done|]. symmetry. apply difference_disjoint_L. set_solver. }
  destruct (IH _ Hok') as [Hok2 Ho2]. split; [done|]. rewrite Ho2, Ho. simpl. set_solver.
Qed.

Lemma for_each_fold (f : Z -> A -> A) (g : Z -> list Z) p :
  (forall i q, 0 <= i < 512 -> f i q = fold_left fr (g i) q) ->
  for_each f p = fold_left fr (concat (map g (seqZ 0 512))) p.
Proof.
  intros Hf. unfold for_each.
  assert (forall i, i ∈ seqZ 0 512 -> 0 <= i < 512) as Hin by (intros i ?%elem_of_seqZ; lia).
  revert Hin p. generalize (seqZ 0 512) as l. intros l Hin.
  induction l as [|i l IH]; intros p; [done|]. cbn [fold_left map concat].
  rewrite IH, Hf, fold_left_app; [done|apply Hin; left|intros; apply Hin; by right].
Qed.

Definition entry_frees (sub : Z -> list Z) (m : memory) (table i : Z) : list Z :=
  let e := rd64 m (entry table i) in
  if is_table e then sub (pte_next_table e) ++ [pte_next_table e] else [].
Definition table_frees (sub : Z -> list Z) (m : memory) (table : Z) : list Z :=
  concat (map (entry_frees sub m table) (seqZ 0 512)).
Definition l2_frees (m : memory) : Z -> list Z := table_frees (fun _ => []) m.
Definition l1_frees (m : memory) : Z -> list Z := table_frees (l2_frees m) m.
Definition l0_frees (m : memory) : Z -> list Z := table_frees (l1_frees m) m.

Lemma elem_of_table_frees sub m root T d p t x :
  ptree d m root T -> T !! p = Some t -> (length p < d)%nat ->
  x ∈ table_frees sub m t <->
  exists i t', 0 <= i < 512 /\ T !! (p ++ [i]) = Some t' /\ (x ∈ sub t' \/ x = t').
Proof.
  intros Ht Hp Hl. unfold table_frees. rewrite list_elem_of_In, in_concat.
  setoid_rewrite in_map_iff. setoid_rewrite <- list_elem_of_In. setoid_rewrite elem_of_seqZ.
  assert (forall i, 0 <= i < 512 -> entry_frees sub m t i =
    match T !! (p ++ [i]) with Some t' => sub t' ++ [t'] | None => [] end) as He.
  { intros i Hi. unfold entry_frees. rewrite (pt_entry _ _ _ _ Ht p t i) by done.
    destruct (T !! (p ++ [i])) as [t'|] eqn:E; [|done].
    rewrite tdesc_is_table, tdesc_next by (by eapply pt_page). done. }
  split.
  - intros (l & (i & <- & Hi) & Hx). rewrite He in Hx by lia.
    destruct (T !! (p ++ [i])) as [t'|] eqn:E; [|by apply not_elem_of_nil in Hx].
    exists i, t'. split; [lia|]. split; [done|]. set_solver.
  - intros (i & t' & Hi & E & Hx). exists (entry_frees sub m t i). split; [exists i; split; [done|lia]|].
    rewrite He, E by done. set_solver.
Qed.

Lemma l0_frees_tables m l0 T x :
  ptree 3 m l0 T -> (x ∈ l0_frees m l0 \/ x = l0) <-> x ∈ tables T.
Proof.
  intros Ht. rewrite elem_of_tables. unfold l0_frees.
  rewrite (elem_of_table_frees _ _ _ _ 3 [] l0) by (try apply Ht; simpl; lia). cbn [app]. split.
  - intros [(i & t1 & Hi & K1 & Hx)| ->]; [|exists []; apply Ht]. destruct Hx as [Hx| ->]; [|eauto].
    unfold l1_frees in Hx. rewrite (elem_of_table_frees _ _ _ _ 3 [i] t1) in Hx by (done || simpl; lia).
    destruct Hx as (j & t2 & Hj & K2 & [Hx| ->]); [|eauto]. unfold l2_frees in Hx.
    rewrite (elem_of_table_frees _ _ _ _ 3 _ t2 _ Ht K2) in Hx by (simpl; lia).
    destruct Hx as (k & t3 & Hk & K3 & [Hx| ->]); [by apply not_elem_of_nil in Hx|eauto].
  - intros [p Hp]. pose proof (pt_len _ _ _ _ Ht p x Hp) as Hl. pose proof (pt_idx _ _ _ _ Ht p x Hp) as Hidx.
    destruct p as [|i [|j [|k [|? ?]]]]; [right|left..|simpl in Hl; lia].
    { pose proof (pt_root _ _ _ _ Ht). congruence. }
    all: repeat (apply Forall_cons in Hidx as [? Hidx]).
    + exists i, x. auto.
    + destruct (pt_closed _ _ _ _ Ht [i] j x Hp) as [t1 K1]. exists i, t1. split; [done|]. split; [done|].
      left. unfold l1_frees. rewrite (elem_of_table_frees _ _ _ _ 3 [i] t1) by (done || simpl; lia).
      exists j, x. auto.
    + destruct (pt_closed _ _ _ _ Ht [i; j] k x Hp) as [t2 K2].
      destruct (pt_closed _ _ _ _ Ht [i] j t2 K2) as [t1 K1]. exists i, t1. split; [done|]. split; [done|].
      left. unfold l1_frees. rewrite (elem_of_table_frees _ _ _ _ 3 [i] t1) by (done || simpl; lia).
      exists j, t2. split; [done|]. split; [done|]. left. unfold l2_frees.
      rewrite (elem_of_table_frees _ _ _ _ 3 [i; j] t2) by (done || simpl; lia). exists k, x. auto.
Qed.

Lemma free_order s l0 T base :
  as_inv 3 s l0 T base ->
  pmm (mmu_free_user_tables l0 s) = fold_left fr (l0_frees (mem s) l0 ++ [l0]) (pmm s).
Proof.
  intros Hinv. unfold mmu_free_user_tables. cbn [pmm set_pmm]. rewrite fold_left_app. cbn [fold_left].
  unfold fr at 1. f_equal. apply for_each_fold. intros i q Hi. unfold free_l0_entry, entry_frees.
  pose proof (ai_tree _ _ _ _ _ Hinv) as Ht.
  rewrite (pt_entry _ _ _ _ Ht [] l0 i (pt_root _ _ _ _ Ht)) by (simpl; lia).
  destruct (T !! ([] ++ [i])) as [t1|]; [|done]. rewrite tdesc_valid, tdesc_is_table. cbn [negb].
  rewrite fold_left_app. cbn [fold_left]. unfold fr at 1. f_equal.
  apply for_each_fold. intros j q' Hj. unfold free_l1_entry, entry_frees, is_table.
  destruct (pte_valid (rd64 (mem s) (entry (pte_next_table (tdesc t1)) j))); cbn [negb andb]; [|done].
  destruct (test_mask _ PTE_TABLE); cbn [negb]; [|done].
  rewrite fold_left_app. cbn [fold_left]. unfold fr at 1. f_equal.
  apply for_each_fold. intros k q'' Hk. unfold free_l2_entry, entry_frees, is_table.
  destruct (pte_valid _); cbn [negb andb]; [|done]. by destruct (test_mask _ PTE_TABLE).
Qed.

Lemma free_tables_spec s l0 T base :
  as_inv 3 s l0 T base ->
  pa_ok (pmm (mmu_free_user_tables l0 s)) /\ pa_owned (pmm (mmu_free_user_tables l0 s)) = base.
Proof.
  intros Hinv. rewrite (free_order s l0 T base Hinv). pose proof (ai_tree _ _ _ _ _ Hinv) as Ht.
  assert (forall x, x ∈ l0_frees (mem s) l0 ++ [l0] <-> x ∈ tables T) as Hset.
  { intros x. rewrite <- (l0_frees_tables _ _ _ x Ht), elem_of_app, list_elem_of_singleton. done. }
  destruct (fold_free (l0_frees (mem s) l0 ++ [l0]) (pmm s) (ai_ok _ _ _ _ _ Hinv)) as [Hok Ho].
  { apply Forall_forall. intros x [p Hp]%Hset%elem_of_tables.
    destruct (pt_page _ _ _ _ Ht p x Hp) as (? & ? & ?). unfold PAGE_SIZE in *. lia. }
  split; [done|]. rewrite Ho, (ai_owned _ _ _ _ _ Hinv). apply set_eq. intros x.
  rewrite elem_of_difference, elem_of_union, elem_of_list_to_set, Hset.
  pose proof (ai_disj _ _ _ _ _ Hinv). split; [tauto|]. intros Hx. split; [by left|]. set_solver.
Qed.

(** *** Creation *)
Lemma root_tree d m l0 : run_ok l0 1 -> (0 < d)%nat -> ptree d (zero_page m l0) l0 {[ [] := l0 ]}.
Proof.
  intros Hok Hd. constructor.
  - apply lookup_singleton_eq.
  - intros p t [<- <-]%lookup_singleton_Some. simpl. lia.
  - intros p t [<- _]%lookup_singleton_Some. constructor.
  - intros p t [_ <-]%lookup_singleton_Some. done.
  - intros p q t [<- _]%lookup_singleton_Some [<- _]%lookup_singleton_Some. done.
  - intros p i t [E _]%lookup_singleton_Some. by destruct p.
  - intros p t i [<- <-]%lookup_singleton_Some _ Hi. rewrite rd64_zero_in by done.
    by rewrite lookup_singleton_ne.
Qed.

Lemma ptree_frame d m m' root T :
  (forall p t i, T !! p = Some t -> 0 <= i < 512 -> rd64 m' (entry t i) = rd64 m (entry t i)) ->
  ptree d m root T ->
  ptree d m' root T /\ (forall q j, 0 <= j < 512 -> leaf_at m' T q j = leaf_at m T q j).
Proof.
  intros Hsame Ht. split.
  - constructor; try apply Ht. intros p t i Hp Hl Hi. rewrite (Hsame p) by done. by apply Ht.
  - intros q j Hj. unfold leaf_at. destruct (T !! q) as [t|] eqn:E; [|done]. by apply (Hsame q).
Qed.

(** The trampoline page, once allocated, is owned and holds the two instructions. *)
Definition tramp_ok (s : mmu A) : Prop :=
  g_sigtramp_phys s = 0 \/
  (run_ok (g_sigtramp_phys s) 1 /\ rd64 (mem s) (g_sigtramp_phys s) = TRAMP_WORD).

Lemma sigtramp_spec s l0 T base p s' :
  as_inv 3 s l0 T base -> tramp_ok s -> (g_sigtramp_phys s = 0 \/ g_sigtramp_phys s ∈ base) ->
  mmu_sigtramp_page s = (p, s') ->
  exists base', as_inv 3 s' l0 T base' /\ tramp_ok s' /\
    (forall q j, 0 <= j < 512 -> leaf_at (mem s') T q j = leaf_at (mem s) T q j) /\
    g_sigtramp_phys s' = p /\
    ((p = 0 /\ base' = base) \/ (run_ok p 1 /\ p ∈ base' /\ base' = {[p]} ∪ base)).
Proof.
  intros Hinv Htr Hb. unfold mmu_sigtramp_page. destruct (Z.eqb_spec (g_sigtramp_phys s) 0) as [Hz|Hnz]; cbn [negb].
  2: { intros [= <- <-]. destruct Htr as [?|[Hr Hw]]; [done|]. destruct Hb as [?|Hb]; [done|].
       exists base. split; [done|]. split; [by right|]. split; [done|]. split; [done|].
       right. split; [done|]. split; [done|]. set_solver. }
  destruct (pa_alloc_page (pmm s)) as [q a] eqn:Hal.
  destruct (pa_alloc_page_law _ _ _ (ai_ok _ _ _ _ _ Hinv) Hal) as [Hok Hc].
  destruct (Z.eqb_spec q 0) as [->|Hq].
  { intros [= <- <-]. exists base. destruct Hc as [[_ ->]|[(? & _) _]]; [|lia].
    split; [destruct Hinv; by constructor|]. split; [by left|]. split; [done|]. split; [done|by left]. }
  destruct Hc as [[? _]|(Hr & Hnew & Ho)]; [done|]. intros [= <- <-].
  assert (forall r t i, T !! r = Some t -> 0 <= i < 512 ->
    rd64 (wr64 (zero_page (mem s) q) q TRAMP_WORD) (entry t i) = rd64 (mem s) (entry t i)) as Hsame.
  { intros r t i Hrt Hi. pose proof (pt_page _ _ _ _ (ai_tree _ _ _ _ _ Hinv) r t Hrt) as Hpt.
    assert (q <> t) as Hne.
    { intros ->. apply Hnew. rewrite (ai_owned _ _ _ _ _ Hinv). apply elem_of_union_r, elem_of_tables. eauto. }
    rewrite rd64_wr64_ne; [by apply rd64_zero_other|]. intros E. apply Hne.
    apply (entry_ne q t 0 i); try done. unfold entry in *. lia. }
  destruct (ptree_frame 3 _ _ _ _ Hsame (ai_tree _ _ _ _ _ Hinv)) as [Ht' Hl'].
  exists ({[q]} ∪ base). cbn [mem pmm set_tramp set_mem set_pmm g_sigtramp_phys] in *. split.
  { constructor; cbn [mem pmm set_tramp set_mem set_pmm]; [done|done| |].
    - rewrite Ho, (ai_owned _ _ _ _ _ Hinv). set_solver.
    - pose proof (ai_disj _ _ _ _ _ Hinv). rewrite (ai_owned _ _ _ _ _ Hinv) in Hnew. set_solver. }
  split; [right; split; [done|apply rd64_wr64_eq]|]. split; [done|]. split; [done|].
  right. split; [done|]. split; [set_solver|done].
Qed.

Lemma create_spec s l0 s' :
  pa_ok (pmm s) -> tramp_ok s -> (g_sigtramp_phys s = 0 \/ g_sigtramp_phys s ∈ pa_owned (pmm s)) ->
  mmu_create_user_tables s = (l0, s') ->
  (l0 = 0 /\ s' = s) \/
  exists T base k, as_inv 3 s' l0 T base /\ tramp_ok s' /\ 0 <= k <= 1 /\
    (base = pa_owned (pmm s) \/ base = {[g_sigtramp_phys s']} ∪ pa_owned (pmm s)) /\
    (k = 0 -> fst (pa_alloc_page (pmm s')) = 0 \/ g_sigtramp_phys s' = 0) /\
    (forall va, 0 <= va < 2 ^ 48 ->
       va_leaf (mem s') T va =
       if decide (0 <= page_of va - page_of USER_SIGTRAMP_VA < k)
       then user_pte (g_sigtramp_phys s') TRAMP_FLAGS else 0).
Proof.
  intros Hok Htr Hb. unfold mmu_create_user_tables. destruct (alloc_table s) as [t s1] eqn:Hal.
  destruct (alloc_table_spec s t s1 Hok Hal) as [Hok1 [[-> ->]|(Hr & Hnew & Ho & Hs1)]].
  { intros [= <- <-]. by left. }
  pose proof Hr as (? & _). destruct (Z.eqb_spec t 0); [lia|].
  assert (as_inv 3 s1 t {[ [] := t ]} (pa_owned (pmm s))) as Hinv.
  { assert (tables {[ [] := t ]} = {[t]}) as Htab.
    { unfold tables. rewrite map_to_list_singleton. simpl. set_solver. }
    rewrite Hs1. constructor; cbn [mem pmm set_mem set_pmm]; [done|apply root_tree; [done|lia]|..].
    - rewrite Ho, Htab. set_solver.
    - rewrite Htab. set_solver. }
  assert (g_sigtramp_phys s1 = g_sigtramp_phys s /\ tramp_ok s1) as [Hg Htr1].
  { rewrite Hs1. split; [done|]. destruct Htr as [?|[Hgr Hw]]; [by left|]. right. split; [done|].
    cbn [mem set_mem g_sigtramp_phys set_pmm]. unfold rd64. rewrite lookup_zero_out; [done|].
    destruct Hb as [Hb|Hb]; [destruct Hgr as (? & _); lia|].
    assert (g_sigtramp_phys s <> t) as Hne by (by intros <-).
    destruct Hgr as (? & ? & _), Hr as (? & ? & _). unfold PAGE_SIZE in *. dlia. }
  destruct (mmu_sigtramp_page s1) as [tr s2] eqn:Hs2. rewrite <- Hg in Hb.
  destruct (sigtramp_spec s1 t _ _ tr s2 Hinv Htr1 Hb Hs2) as (base & Hinv2 & Htr2 & Hl2 & Hg2 & Hc2).
  assert (forall va, va_leaf (mem s2) {[ [] := t ]} va = 0) as Hzero.
  { intros va. unfold va_leaf, leaf_at, path. by rewrite lookup_singleton_ne. }
  assert (base = pa_owned (pmm s) \/ base = {[tr]} ∪ pa_owned (pmm s)) as Hbase.
  { destruct Hc2 as [[_ ->]|(_ & _ & ->)]; auto. }
  destruct (Z.eqb_spec tr 0) as [->|Htz]; cbn [negb]; intros [= <- <-]; right.
  { exists {[ [] := t ]}, base, 0. rewrite Hg2. split; [done|]. split; [done|]. split; [lia|].
    split; [done|]. split; [by right|]. intros va _. rewrite decide_False by lia. apply Hzero. }
  destruct Hc2 as [[? _]|(Hrt & Htb & _)]; [done|]. pose proof Hrt as (? & ? & ?).
  unfold mmu_map_user_range. change (Z.to_nat 1) with 1%nat.
  destruct (map_loop_spec 1 s2 t _ base USER_SIGTRAMP_VA tr 0 TRAMP_FLAGS Hinv2)
    as (T' & k & Hk & Hinv3 & G3 & Hz3 & L3); [done|done|lia|done|lia|unfold PAGE_SIZE in *; lia|].
  cbv zeta in *. destruct (gr_rest _ _ _ _ _ G3) as (_ & _ & Hg3 & _).
  exists T', base, k. rewrite Hg3, Hg2. split; [done|]. split.
  { destruct Htr2 as [Htr2|[_ Hw]]; [congruence|]. right. rewrite Hg3, Hg2. split; [done|].
    rewrite <- Hw, Hg2. unfold rd64. f_equal. apply (gr_mem _ _ _ _ _ G3).
    intros x [q Hq]%elem_of_tables. pose proof (pt_page _ _ _ _ (ai_tree _ _ _ _ _ Hinv3) q x Hq) as (? & ? & _).
    assert (x <> tr) as Hne.
    { intros ->. apply (ai_disj _ _ _ _ _ Hinv3 tr); [done|]. apply elem_of_tables. eauto. }
    unfold PAGE_SIZE in *. dlia. }
  split; [lia|]. split; [done|]. split; [intros ->; left; apply Hz3; lia|].
  intros va Hva. rewrite L3 by done.
  destruct (decide (0 <= page_of va - page_of USER_SIGTRAMP_VA < 0 + k)) as [E|E].
  - rewrite decide_True by lia. f_equal. unfold PAGE_SIZE. lia.
  - rewrite decide_False by lia. apply Hzero.
Qed.

(** *** The identity map *)
Lemma fill_l2_spec n block s root T base a b l2 l1i l2i :
  as_inv 2 s root T base -> T !! [a; b] = Some l2 -> 0 <= l2i -> l2i + Z.of_nat n <= 512 ->
  let s' := set_mem s (fill_l2 n block l2 l1i l2i (mem s)) in
  as_inv 2 s' root T base /\
  (forall q j, length q = 2%nat -> 0 <= j < 512 ->
     leaf_at (mem s') T q j =
     if decide (q = [a; b] /\ l2i <= j < l2i + Z.of_nat n)
     then default (leaf_at (mem s) T q j) (block l1i j) else leaf_at (mem s) T q j).
Proof.
  intros Hinv Hp. revert s l2i Hinv. induction n as [|n IH]; intros s l2i Hinv Hlo Hhi; cbn [fill_l2].
  { split; [by destruct Hinv|]. intros q j _ _. cbn [mem set_mem]. by rewrite decide_False by lia. }
  set (m1 := match block l1i l2i with None => mem s | Some d => _ end).
  assert (as_inv 2 (set_mem s m1) root T base /\
    (forall q j, length q = 2%nat -> 0 <= j < 512 -> leaf_at m1 T q j =
       if decide (q = [a; b] /\ j = l2i) then default (leaf_at (mem s) T q j) (block l1i j)
       else leaf_at (mem s) T q j)) as [Hinv1 L1].
  { unfold m1. destruct (block l1i l2i) as [d|] eqn:Eb.
    - destruct (leaf_tree 2 (mem s) root T [a; b] l2 l2i d (ai_tree _ _ _ _ _ Hinv) Hp eq_refl) as [Ht Hl]; [lia|].
      split; [destruct Hinv; by constructor|]. intros q j Hq Hj. rewrite Hl by done.
      destruct (decide (q = [a; b] /\ j = l2i)) as [[-> ->]|]; [by rewrite Eb|done].
    - split; [by destruct Hinv|]. intros q j _ _.
      destruct (decide (q = [a; b] /\ j = l2i)) as [[-> ->]|]; [by rewrite Eb|done]. }
  destruct (IH (set_mem s m1) (l2i + 1) Hinv1) as [Hinv2 L2]; [lia|lia|]. cbv zeta in *.
  cbn [mem set_mem] in *. split; [done|]. intros q j Hq Hj. rewrite L2, L1 by done.
  destruct (decide (q = [a; b])) as [->|Hn].
  - destruct (decide (j = l2i)) as [->|Hj'].
    + rewrite decide_False by lia. rewrite !decide_True by (split; [done|lia]). done.
    + rewrite (decide_False (P := [a; b] = [a; b] /\ j = l2i)) by naive_solver.
      destruct (decide ([a; b] = [a; b] /\ l2i + 1 <= j < l2i + 1 + Z.of_nat n)) as [?|Hd].
      * by rewrite decide_True by (split; [done|lia]).
      * rewrite decide_False; [done|]. intros [_ ?]. apply Hd. split; [done|lia].
  - rewrite !decide_False by (intros [? _]; congruence). done.
Qed.

Lemma fill_l1_spec n block s root T base a l1 l1i s' :
  as_inv 2 s root T base -> T !! [a] = Some l1 -> 0 <= l1i -> l1i + Z.of_nat n <= 512 ->
  (forall b, l1i <= b < l1i + Z.of_nat n -> T !! [a; b] = None) ->
  fill_l1 n block l1 l1i s = (true, s') ->
  exists T', as_inv 2 s' root T' base /\ T ⊆ T' /\ (forall c, T' !! [c] = T !! [c]) /\
    (forall c b, c <> a -> T' !! [c; b] = T !! [c; b]) /\
    (forall c b j, 0 <= j < 512 -> leaf_at (mem s') T' [c; b] j =
       if decide (c = a /\ l1i <= b < l1i + Z.of_nat n) then default 0 (block b j)
       else leaf_at (mem s) T [c; b] j).
Proof.
  revert s T l1i. induction n as [|n IH]; intros s T l1i Hinv Hp Hlo Hhi Hfree; cbn [fill_l1].
  { intros [= <-]. exists T. do 4 (split; [done|]). intros. by rewrite decide_False by lia. }
  destruct (alloc_table s) as [l2 s1] eqn:Hal.
  destruct (alloc_table_spec s l2 s1 (ai_ok _ _ _ _ _ Hinv) Hal) as [Hok1 [[-> _]|(Hr & Hnew & Ho & Hs1)]]; [done|].
  pose proof Hr as (? & _). destruct (Z.eqb_spec l2 0); [lia|].
  assert (l2 ∉ tables T /\ l2 ∉ base) as [Hft Hfb].
  { rewrite (ai_owned _ _ _ _ _ Hinv) in Hnew. set_solver. }
  pose proof (Hfree l1i ltac:(lia)) as Hemp. pose proof (ai_tree _ _ _ _ _ Hinv) as Ht.
  set (T1 := <[ [a] ++ [l1i] := l2 ]> T). fold (tdesc l2).
  set (s2 := set_mem s1 (wr64 (mem s1) (entry l1 l1i) (tdesc l2))).
  assert (mem s2 = wr64 (zero_page (mem s) l2) (entry l1 l1i) (tdesc l2)) as Hm2 by (unfold s2; by rewrite Hs1).
  assert (as_inv 2 s2 root T1 base) as Hinv2.
  { constructor.
    - done.
    - rewrite Hm2. apply add_tree; try done; [simpl; lia|lia].
    - unfold T1. rewrite tables_insert by done. change (pmm s2) with (pmm s1).
      rewrite Ho, (ai_owned _ _ _ _ _ Hinv). set_solver.
    - unfold T1. rewrite tables_insert by done. pose proof (ai_disj _ _ _ _ _ Hinv). set_solver. }
  assert (forall q j, length q = 2%nat -> 0 <= j < 512 -> leaf_at (mem s2) T1 q j = leaf_at (mem s) T q j) as Ladd.
  { intros q j Hq Hj. rewrite Hm2. apply (add_leaf 2 (mem s) root T [a] l1 l1i l2); try done; simpl; lia. }
  destruct (fill_l2_spec 512 block s2 root T1 base a l1i l2 l1i 0 Hinv2) as [Hinv3 L3];
    [apply lookup_insert_eq|lia|lia|]. cbv zeta in *.
  change (set_mem s1 (fill_l2 512 block l2 l1i 0 _)) with (set_mem s2 (fill_l2 512 block l2 l1i 0 (mem s2))).
  set (s3 := set_mem s2 _) in *. intros Hgo.
  assert (forall c, T1 !! [c] = T !! [c]) as E1 by (intros c; unfold T1; by rewrite lookup_insert_ne).
  assert (forall c b, [a; l1i] <> [c; b] -> T1 !! [c; b] = T !! [c; b]) as E2
    by (intros c b Hne; unfold T1; by rewrite lookup_insert_ne).
  destruct (IH s3 T1 (l1i + 1) Hinv3) as (T' & Hinv' & Hsub & Hr1 & Hr2 & L'); [by rewrite E1|lia|lia| |done|].
  { intros b Hb. rewrite E2; [apply Hfree; lia|]. intros [= ->]. lia. }
  exists T'. split; [done|]. split; [etransitivity; [by apply insert_subseteq|done]|].
  split; [intros c; by rewrite Hr1|]. split.
  { intros c b Hc. rewrite Hr2, E2 by (done || by intros [= -> _]). done. }
  intros c b j Hj. rewrite L' by done. rewrite L3, !Ladd by done.
  assert (leaf_at (mem s) T [a; l1i] j = 0) as Hz by (unfold leaf_at; by rewrite Hemp).
  destruct (decide (c = a)) as [->|Hc].
  - destruct (decide (b = l1i)) as [->|Hb].
    + rewrite decide_False by lia. rewrite !decide_True by (split; [done|lia]). by rewrite Hz.
    + rewrite (decide_False (P := [a; b] = [a; l1i] /\ 0 <= j < 0 + Z.of_nat 512)) by (intros [E _]; congruence).
      destruct (decide (a = a /\ l1i + 1 <= b < l1i + 1 + Z.of_nat n)) as [?|Hd].
      * by rewrite decide_True by (split; [done|lia]).
      * rewrite decide_False; [done|]. intros [_ ?]. apply Hd. split; [done|lia].
  - rewrite !decide_False by (intros [? _]; congruence). done.
Qed.

Definition block_desc (pa attr : Z) : Z :=
  pa .| PTE_VALID .| PTE_BLOCK .| PTE_AF .| PTE_SH_INNER .| PTE_AP_RW .| PTE_ATTRIDX attr.

Lemma block_desc_ok pa attr :
  0 <= pa < 2 ^ 48 -> pa mod PAGE_SIZE = 0 -> attr = 0 \/ attr = 1 ->
  is_block (block_desc pa attr) = true.
Proof.
  intros Hpa Hal Ha. unfold is_block. rewrite pte_valid_bit, pte_table_bit. unfold block_desc.
  rewrite !(Z.lor_spec pa), !(page_bits pa) by (lia || done). by destruct Ha as [-> | ->].
Qed.

(** The output address of the identity map and its memory type. *)
Definition identity_leaf (va : Z) : Z :=
  let pa := va / _2MB * _2MB in
  if (va <? _2MB) || (2 ^ 40 <=? va) then 0
  else block_desc pa (if (MEM_START <=? va) && (va <? MEM_START + MEM_SIZE) then 1 else 0).

Lemma ram_block_leaf va :
  0 <= va < 2 ^ 39 -> default 0 (ram_block (L1_INDEX va) (L2_INDEX va)) = identity_leaf va.
Proof.
  intros Hva. unfold ram_block, identity_leaf, L1_INDEX, L2_INDEX. rewrite !index_div by lia.
  set (i := va / 2 ^ 30 mod 512). set (j := va / 2 ^ 21 mod 512). unfold _1GB, _2MB, MEM_START, MEM_SIZE.
  assert (0 <= i < 512 /\ 0 <= j < 512) as [Hi Hj] by (subst i j; dlia).
  rewrite !u64_small by (rewrite ?u64_small by lia; lia).
  assert (i * 0x40000000 + j * 0x200000 = va / 0x200000 * 0x200000) as -> by (subst i j; dlia).
  destruct (Z.leb_spec (2 ^ 40) va); [lia|]. rewrite orb_false_r.
  destruct (Z.eqb_spec (va / 0x200000 * 0x200000) 0), (Z.ltb_spec va 0x200000); try (exfalso; dlia); [done|].
  cbn [default]. unfold block_desc. do 7 f_equal.
  destruct (_ && _) eqn:E1, ((0x40000000 <=? va) && _) eqn:E2; try done; exfalso; dlia.
Qed.

Lemma dev_block_leaf va :
  2 ^ 39 <= va < 2 ^ 40 -> default 0 (dev_block (L1_INDEX va) (L2_INDEX va)) = identity_leaf va.
Proof.
  intros Hva. unfold dev_block, identity_leaf, L1_INDEX, L2_INDEX. rewrite !index_div by lia.
  set (i := va / 2 ^ 30 mod 512). set (j := va / 2 ^ 21 mod 512).
  unfold _512GB, _1GB, _2MB, MEM_START, MEM_SIZE.
  assert (0 <= i < 512 /\ 0 <= j < 512) as [Hi Hj] by (subst i j; dlia).
  rewrite (u64_small (i * _)), (u64_small (_ + i * _)), (u64_small (j * _)), u64_small by lia.
  assert (0x8000000000 + i * 0x40000000 + j * 0x200000 = va / 0x200000 * 0x200000) as -> by (subst i j; dlia).
  destruct (Z.leb_spec (2 ^ 40) va), (Z.ltb_spec va 0x200000); try lia. cbn [orb default]. unfold block_desc.
  do 7 f_equal. destruct (_ && _) eqn:E; [exfalso; lia|done].
Qed.

(** Linking a fresh, zeroed table under an entry of the root. *)
Lemma link_table d s root T base i n s1 :
  as_inv d s root T base -> (0 < d)%nat -> 0 <= i < 512 -> T !! [i] = None ->
  alloc_table s = (n, s1) -> n <> 0 ->
  let s2 := set_mem s1 (wr64 (mem s1) (entry root i) (tdesc n)) in
  as_inv d s2 root (<[ [i] := n ]> T) base /\
  (forall q j, length q = d -> 0 <= j < 512 ->
     leaf_at (mem s2) (<[ [i] := n ]> T) q j = leaf_at (mem s) T q j).
Proof.
  intros Hinv Hd Hi Hemp Hal Hnz. pose proof (ai_tree _ _ _ _ _ Hinv) as Ht.
  destruct (alloc_table_spec s n s1 (ai_ok _ _ _ _ _ Hinv) Hal) as [Hok1 [[? _]|(Hr & Hnew & Ho & Hs1)]]; [done|].
  assert (n ∉ tables T /\ n ∉ base) as [Hft Hfb].
  { rewrite (ai_owned _ _ _ _ _ Hinv) in Hnew. set_solver. }
  cbv zeta. assert (mem s1 = zero_page (mem s) n) as Hm by (by rewrite Hs1). split.
  - constructor; cbn [mem pmm set_mem].
    + done.
    + rewrite Hm. apply (add_tree d (mem s) root T [] root i n); try done. apply Ht.
    + rewrite tables_insert, Ho, (ai_owned _ _ _ _ _ Hinv) by done. set_solver.
    + rewrite tables_insert by done. pose proof (ai_disj _ _ _ _ _ Hinv). set_solver.
  - intros q j Hq Hj. cbn [mem set_mem]. rewrite Hm.
    apply (add_leaf d (mem s) root T [] root i n); try done. apply Ht.
Qed.

Lemma empty_space s t s1 d :
  pa_ok (pmm s) -> alloc_table s = (t, s1) -> t <> 0 -> (0 < d)%nat ->
  as_inv d s1 t {[ [] := t ]} (pa_owned (pmm s)).
Proof.
  intros Hok Hal Hnz Hd. destruct (alloc_table_spec s t s1 Hok Hal) as [Hok1 [[? _]|(Hr & Hnew & Ho & Hs1)]]; [done|].
  assert (tables {[ [] := t ]} = {[t]}) as Htab.
  { unfold tables. rewrite map_to_list_singleton. simpl. set_solver. }
  rewrite Hs1. constructor; cbn [mem pmm set_mem set_pmm]; [done|by apply root_tree|..].
  - rewrite Ho, Htab. set_solver.
  - rewrite Htab. set_solver.
Qed.

Lemma build_identity_spec s l0 l1 s' :
  pa_ok (pmm s) -> build_identity_tables s = (l0, l1, s') -> l0 <> 0 ->
  exists T, as_inv 2 s' l0 T (pa_owned (pmm s)) /\
    (forall va, 0 <= va < 2 ^ 48 ->
       leaf_at (mem s') T [L0_INDEX va; L1_INDEX va] (L2_INDEX va) = identity_leaf va).
Proof.
  intros Hok. unfold build_identity_tables. destruct (alloc_table s) as [r s1] eqn:A1.
  destruct (Z.eqb_spec r 0); [by intros [= <- _ _]|].
  destruct (alloc_table s1) as [t1 s2] eqn:A2. destruct (Z.eqb_spec t1 0); [by intros [= <- _ _]|].
  fold (tdesc t1). pose proof (empty_space s r s1 2 Hok A1 ltac:(done) ltac:(lia)) as I1.
  destruct (link_table 2 s1 r _ _ 0 t1 s2 I1) as [I2 L2]; [lia|lia|by apply lookup_singleton_ne|done|done|].
  cbv zeta in *. set (s3 := set_mem s2 _) in *. set (T2 := <[ [0] := t1 ]> _) in *.
  assert (forall q, (2 <= length q)%nat -> T2 !! q = None) as HT2.
  { intros q Hq. unfold T2. rewrite lookup_insert_ne, lookup_singleton_ne; [done|..]; intros <-; simpl in Hq; lia. }
  destruct (fill_l1 512 ram_block t1 0 s3) as [[] s4] eqn:F1; cbn [negb]; [|by intros [= <- _ _]].
  destruct (fill_l1_spec 512 ram_block s3 r T2 _ 0 t1 0 s4 I2) as (T4 & I4 & S4 & R4 & Q4 & L4);
    [apply lookup_insert_eq|lia|lia|intros; apply HT2; simpl; lia|done|].
  destruct (alloc_table s4) as [t5 s5] eqn:A5. destruct (Z.eqb_spec t5 0); [by intros [= <- _ _]|]. fold (tdesc t5).
  destruct (link_table 2 s4 r T4 _ 1 t5 s5 I4) as [I6 L6]; [lia|lia| |done|done|].
  { rewrite R4. unfold T2. by rewrite lookup_insert_ne, lookup_singleton_ne. }
  cbv zeta in *. set (s6 := set_mem s5 _) in *. set (T6 := <[ [1] := t5 ]> T4) in *.
  destruct (fill_l1 512 dev_block t5 0 s6) as [[] s7] eqn:F7; cbn [negb]; [|by intros [= <- _ _]].
  destruct (fill_l1_spec 512 dev_block s6 r T6 _ 1 t5 0 s7 I6) as (T7 & I7 & S7 & R7 & Q7 & L7);
    [apply lookup_insert_eq|lia|lia| |done|].
  { intros b _. unfold T6. rewrite lookup_insert_ne, Q4 by done. apply HT2. simpl. lia. }
  intros [= <- <- <-] _. exists T7. split; [done|]. intros va Hva.
  pose proof (va_index_range va 30) as J1. pose proof (va_index_range va 21) as J2. fold (L1_INDEX va) (L2_INDEX va) in *.
  assert (L0_INDEX va = va / 2 ^ 39) as J0 by (unfold L0_INDEX; rewrite index_div by lia; dlia).
  rewrite L7 by done. rewrite L6, L4, L2 by done.
  destruct (decide (L0_INDEX va = 1)) as [E1|E1].
  { rewrite decide_True by (split; [done|lia]). apply dev_block_leaf. dlia. }
  rewrite decide_False by (intros [? _]; lia). destruct (decide (L0_INDEX va = 0)) as [E0|E0].
  { rewrite decide_True by (split; [done|lia]). apply ram_block_leaf. dlia. }
  rewrite decide_False by (intros [? _]; lia). unfold leaf_at. rewrite lookup_singleton_ne by done.
  unfold identity_leaf. destruct (Z.leb_spec (2 ^ 40) va); [by rewrite orb_true_r|exfalso; dlia].
Qed.

Lemma identity_leaf_ok va :
  0 <= va < 2 ^ 48 -> identity_leaf va = 0 \/ is_block (identity_leaf va) = true.
Proof.
  intros Hva. unfold identity_leaf. case_if; [by left|right]. apply block_desc_ok.
  - unfold _2MB in *. dlia.
  - unfold _2MB, PAGE_SIZE in *. dlia.
  - case_if; auto.
Qed.
End correctness.

(** Descriptors written by [mmu_map_user_range]. *)
Lemma user_pte_is_page pa flags : is_table (user_pte pa flags) = true.
Proof.
  unfold is_table. rewrite pte_valid_bit, pte_table_bit. unfold user_pte.
  rewrite !(Z.lor_spec (pa .& PTE_ADDR_MASK)), !(Z.lor_spec PTE_VALID), !(Z.lor_spec PTE_TABLE).
  change (Z.testbit PTE_VALID 0) with true. change (Z.testbit PTE_TABLE 1) with true.
  by rewrite ?orb_true_r, ?orb_true_l, ?orb_true_r.
Qed.

Lemma user_pte_addr pa flags :
  0 <= pa < 2 ^ 48 -> pa mod PAGE_SIZE = 0 -> flags .& PTE_ADDR_MASK = 0 ->
  pte_next_table (user_pte pa flags) = pa.
Proof.
  intros Hpa Hal Hf. unfold pte_next_table, user_pte. rewrite !Z.land_lor_distr_l, Hf.
  change (PTE_VALID .& PTE_ADDR_MASK) with 0. change (PTE_TABLE .& PTE_ADDR_MASK) with 0.
  change (PTE_AF .& PTE_ADDR_MASK) with 0. change (PTE_SH_INNER .& PTE_ADDR_MASK) with 0.
  change (PTE_NG .& PTE_ADDR_MASK) with 0. rewrite !Z.lor_0_r, <- Z.land_assoc, Z.land_diag.
  apply Z.bits_inj'. intros i Hi. rewrite Z.land_spec, addr_mask_bits by lia.
  destruct (Z.leb_spec 12 i); cbn [andb].
  - destruct (Z.ltb_spec i 48); [apply andb_true_r|]. by rewrite (testbit_high 48 pa) by lia.
  - rewrite andb_false_r. symmetry. apply page_bits; [lia|done|lia].
Qed.

(** ** TTBR0 values: the table and the ASID come back out *)
Lemma ttbr_pack_baddr l0 asid : 0 <= l0 < 2 ^ 48 -> 0 <= asid -> ttbr_baddr (ttbr_pack l0 asid) = l0.
Proof.
  intros Hl Ha. unfold ttbr_baddr, ttbr_pack, TTBR_ASID_SHIFT.
  change TTBR_BADDR_MASK with (Z.ones 48). rewrite !Z.land_ones by lia.
  apply Z.bits_inj'. intros i Hi. rewrite Z.testbit_mod_pow2, Z.lor_spec, Z.shiftl_spec by lia.
  rewrite Z.mod_small by lia. destruct (Z.ltb_spec i 48); cbn [andb].
  - by rewrite (Z.testbit_neg_r asid), orb_false_r by lia.
  - by rewrite (testbit_high 48 l0) by lia.
Qed.
Lemma ttbr_pack_asid l0 asid : 0 <= l0 < 2 ^ 48 -> 0 <= asid < 2 ^ 16 -> ttbr_asid (ttbr_pack l0 asid) = asid.
Proof.
  intros Hl Ha. unfold ttbr_asid, ttbr_pack, TTBR_ASID_SHIFT.
  change TTBR_BADDR_MASK with (Z.ones 48). rewrite Z.land_ones, Z.mod_small by lia.
  rewrite <- (u16_small asid) at 2 by lia. f_equal.
  apply Z.bits_inj'. intros i Hi. rewrite Z.shiftr_spec, Z.lor_spec, Z.shiftl_spec by lia.
  rewrite (testbit_high 48 l0) by lia. cbn [orb]. f_equal. lia.
Qed.

(** ** Theorems *)
Section theorems.
Context {A : Type} `{PageAllocatorLaws A}.
Implicit Types (s : mmu A).

(** C12: mapping a page-aligned run of user pages: every page of the run then
    translates (by the architecture's walk) to the requested frame with the
    requested attributes, every other address below 2^48 translates as before,
    only table pages of this address space and fresh pages are written, and the
    run is cut short only when no page is left for a table. *)
Theorem mmu_map_user_range_correct s l0 T base va pa pages flags :
  as_inv 3 s l0 T base -> 0 <= va -> va mod PAGE_SIZE = 0 -> 0 <= pages ->
  va + pages * PAGE_SIZE <= 2 ^ 48 -> 0 <= pa -> pa mod PAGE_SIZE = 0 ->
  pa + pages * PAGE_SIZE <= 2 ^ 48 -> flags .& PTE_ADDR_MASK = 0 ->
  let s' := mmu_map_user_range l0 va pa pages flags s in
  exists T' k, 0 <= k <= pages /\ as_inv 3 s' l0 T' base /\
    (k < pages -> fst (pa_alloc_page (pmm s')) = 0) /\
    same_outside (tables T') (mem s) (mem s') /\
    (forall v, 0 <= v < 2 ^ 48 ->
       (va <= v < va + k * PAGE_SIZE ->
        exists d, hw_walk (mem s') l0 v = Some (Page3 d) /\
          d = user_pte (pa + (v - va) / PAGE_SIZE * PAGE_SIZE) flags /\
          pte_next_table d = pa + (v - va) / PAGE_SIZE * PAGE_SIZE) /\
       (~ va <= v < va + k * PAGE_SIZE -> hw_walk (mem s') l0 v = hw_walk (mem s) l0 v)).
Proof.
  intros Hinv Hva Hal Hn Hhi Hpa Hpal Hpe Hf. cbv zeta. unfold mmu_map_user_range.
  destruct (map_loop_spec (Z.to_nat pages) s l0 T base va pa 0 flags Hinv)
    as (T' & k & Hk & Hinv' & G & Hz & HL); [lia|done|lia|unfold PAGE_SIZE in *; lia..|].
  cbv zeta in *. exists T', k. split; [lia|]. split; [done|]. split; [intros; apply Hz; lia|].
  split; [apply (gr_mem _ _ _ _ _ G)|]. intros v Hv.
  rewrite (hw_walk_leaf _ _ T' v (ai_tree _ _ _ _ _ Hinv')), (hw_walk_leaf _ _ T v (ai_tree _ _ _ _ _ Hinv)).
  rewrite HL by done. unfold page_of, PAGE_SIZE in *.
  assert (v / 4096 - va / 4096 = (v - va) / 4096) as -> by dlia.
  split; intros Hr.
  - rewrite decide_True by dlia. rewrite user_pte_is_page. eexists. split; [done|]. split; [done|].
    apply user_pte_addr; [dlia|unfold PAGE_SIZE; dlia|done].
  - rewrite decide_False by dlia. done.
Qed.


(** C14: tearing an address space down gives back exactly its table pages: the
    pages handed out afterwards are those of everybody else, no table page
    leaks and none of the mapped data pages is freed. *)
Theorem mmu_free_user_tables_exact s l0 T base :
  as_inv 3 s l0 T base ->
  let s' := mmu_free_user_tables l0 s in
  pa_ok (pmm s') /\ pa_owned (pmm s') = base /\ mem s' = mem s.
Proof.
  intros Hinv s'. destruct (free_tables_spec s l0 T base Hinv) as [? ?]. done.
Qed.

End theorems.

(** *** Witnesses over the bitmap allocator *)
Definition demo_pmm : Pmm.pmm := Pmm.pmm_init 0x40001000 0x40000000 409600.
Lemma mmu_demo_ok : pa_ok demo_pmm.
Proof. apply Pmm.init_ok, Pmm.boot_ok_small. Qed.
Local Notation demo := (MkMmu ∅ demo_pmm 0 0 0 (MkRegs 0 0 0 0 0)).
Local Notation created := (mmu_create_user_tables demo).


Lemma demo_space : exists T base, as_inv 3 (snd created) (fst created) T base.
Proof.
  destruct (create_spec demo (fst created) (snd created) mmu_demo_ok)
    as [[Hz _]|(T & base & k & Hi & _)]; [by left|by left|apply surjective_pairing| |by exists T, base].
  exfalso. revert Hz. vm_compute. congruence.
Qed.

Lemma mmu_map_user_range_correct_witness :
  exists d, hw_walk (mem (mmu_map_user_range (fst created) 0x400000 0x40010000 2 TRAMP_FLAGS (snd created)))
    (fst created) 0x401008 = Some (Page3 d) /\ pte_next_table d = 0x40011000.
Proof.
  destruct demo_space as (T & base & Hi).
  destruct (mmu_map_user_range_correct (snd created) (fst created) T base 0x400000 0x40010000 2 TRAMP_FLAGS Hi)
    as (T' & k & Hk & _ & Hfull & _ & Hv); [lia|done|lia|unfold PAGE_SIZE; lia|lia|done|unfold PAGE_SIZE; lia|done|].
  assert (k = 2) as ->.
  { destruct (decide (k < 2)) as [Hlt|]; [|lia]. specialize (Hfull Hlt). revert Hfull. vm_compute. congruence. }
  destruct (Hv 0x401008) as [Hin _]; [lia|]. destruct Hin as (d & Hd & _ & Ha); [unfold PAGE_SIZE; lia|].
  exists d. split; [exact Hd|]. rewrite Ha. reflexivity.
Defined.

Lemma mmu_free_user_tables_exact_witness :
  fst created ∈ pa_owned (pmm (snd created)) /\
  fst created ∉ pa_owned (pmm (mmu_free_user_tables (fst created) (snd created))).
Proof.
  destruct demo_space as (T & base & Hi).
  assert (fst created ∈ tables T) as Hin by (apply elem_of_tables; exists []; apply Hi).
  split; [rewrite (ai_owned _ _ _ _ _ Hi); apply elem_of_union_r; exact Hin|].
  destruct (mmu_free_user_tables_exact (snd created) (fst created) T base Hi) as (_ & Ho & _).
  rewrite Ho. intros Hb. apply (ai_disj _ _ _ _ _ Hi (fst created)); [exact Hb|exact Hin].
Defined.


End Mmu.
