(* ===== verification/Framing.v ===== *)
(** * Reliable UART framing (src/src/lib/uart/framing.c, framing.h)

    CRC-16/CCITT, byte stuffing, the in-memory codec, the receiver over the
    UART1 byte stream with timeouts and resynchronisation, and the
    acknowledged send with retransmissions.  The receive side is modelled over
    a trace of polls of [uart1_getc_nonblock] and [timer_get_ticks]; the
    transmit side appends to the bytes handed to [uart1_putc]. *)
From S2P Require Import Prelude.

Module Framing.

(** ** Constants of framing.h *)
Definition FRAME_START : Z := 0xAA.
Definition FRAME_TYPE_DATA : Z := 1.
Definition FRAME_TYPE_ACK : Z := 2.
Definition FRAME_TYPE_NACK : Z := 3.
Definition FRAMING_MAX_PAYLOAD : Z := 256.
Definition FRAMING_MAX_ENCODED : Z := 525.
Definition FRAMING_MAX_RETRIES : Z := 3.
Definition FRAMING_DEFAULT_TIMEOUT_TICKS : Z := 100.
Definition FRAMING_OK : Z := 0.
Definition FRAMING_ERR_TIMEOUT : Z := -1.
Definition FRAMING_ERR_CRC : Z := -2.
Definition FRAMING_ERR_BADLEN : Z := -3.

Record frame_t := MkFrame { ftype : Z; fseq : Z; flen : Z; fpayload : list Z }.

Record framing_stats := MkStats {
  frames_sent : Z; frames_recv : Z; retransmits : Z; crc_errors : Z
}.

(** ** State: the static variables of framing.c; [tx] is the sequence of bytes
    given to [uart1_putc], [hw_log] the hardware bring-up calls made. *)
Inductive hw_call := Uart1Init | GicEnable (intid : Z).
Record framing := MkFraming {
  g_stats : framing_stats;
  g_timeout : Z;
  g_hw_ready : bool;
  g_hw_absent : bool;
  g_probing : bool;
  g_probe_faulted : bool;
  tx : list Z;
  hw_log : list hw_call
}.

Definition set_stats (f : framing) (s : framing_stats) : framing :=
  MkFraming s (g_timeout f) (g_hw_ready f) (g_hw_absent f) (g_probing f) (g_probe_faulted f)
    (tx f) (hw_log f).
Definition set_timeout (f : framing) (t : Z) : framing :=
  MkFraming (g_stats f) t (g_hw_ready f) (g_hw_absent f) (g_probing f) (g_probe_faulted f)
    (tx f) (hw_log f).
Definition set_hw (f : framing) (ready absent probing faulted : bool) : framing :=
  MkFraming (g_stats f) (g_timeout f) ready absent probing faulted (tx f) (hw_log f).
Definition put (f : framing) (bs : list Z) : framing :=
  MkFraming (g_stats f) (g_timeout f) (g_hw_ready f) (g_hw_absent f) (g_probing f)
    (g_probe_faulted f) (tx f ++ bs) (hw_log f).
Definition log_hw (f : framing) (c : hw_call) : framing :=
  MkFraming (g_stats f) (g_timeout f) (g_hw_ready f) (g_hw_absent f) (g_probing f)
    (g_probe_faulted f) (tx f) (hw_log f ++ [c]).

Definition framing_init (f : framing) : framing :=
  set_timeout (set_stats f (MkStats 0 0 0 0)) FRAMING_DEFAULT_TIMEOUT_TICKS.

(** ** Presence probe *)
Definition KERNEL_VA_OFFSET : Z := 0xFFFF000000000000.
Definition UART1_PHYS_BASE : Z := 0x09040000.
Definition UART1_VA_BASE : Z := u64 (UART1_PHYS_BASE + KERNEL_VA_OFFSET).
Definition UART1_FR_VA : Z := u64 (UART1_PHYS_BASE + 0x18 + KERNEL_VA_OFFSET).
Definition UART1_INTID : Z := 40.

Definition framing_available (f : framing) : bool := g_hw_ready f.

(** [framing_probe_abort] with the faulting address and the exception link
    register of the trap frame; returns the flag and the new link register. *)
Definition framing_probe_abort (far elr : Z) (f : framing) : bool * Z * framing :=
  if negb (g_probing f) then (false, elr, f)
  else if negb (far .& unot 64 0xFFF =? UART1_VA_BASE) then (false, elr, f)
  else (true, u64 (elr + 4), set_hw f (g_hw_ready f) (g_hw_absent f) (g_probing f) true).

(** The probe load: with no device behind the region it aborts at
    [UART1_FR_VA]; an abort that the hook does not claim is a kernel panic
    ([None]). *)
Definition probe_load (present : bool) (pc : Z) (f : framing) : option framing :=
  if present then Some f
  else let '(swallowed, _, f') := framing_probe_abort UART1_FR_VA pc f in
       if swallowed then Some f' else None.

Definition framing_ensure_hw (present : bool) (pc : Z) (f : framing) : option framing :=
  if g_hw_ready f || g_hw_absent f then Some f
  else
    let f := set_hw f (g_hw_ready f) (g_hw_absent f) true false in
    match probe_load present pc f with
    | None => None
    | Some f =>
        let f := set_hw f (g_hw_ready f) (g_hw_absent f) false (g_probe_faulted f) in
        if g_probe_faulted f then
          Some (set_hw f (g_hw_ready f) true (g_probing f) (g_probe_faulted f))
        else
          let f := log_hw f Uart1Init in
          let f := log_hw f (GicEnable UART1_INTID) in
          Some (set_hw f true (g_hw_absent f) (g_probing f) (g_probe_faulted f))
    end.

(** ** CRC-16/CCITT *)
Definition crc_bit (crc : Z) : Z :=
  if test_mask crc 0x8000 then u16 (Z.lxor (crc <<< 1) 0x1021) else u16 (crc <<< 1).
Definition crc_byte (crc d : Z) : Z := Nat.iter 8 crc_bit (u16 (Z.lxor crc (d <<< 8))).
Definition crc16_ccitt (data : list Z) : Z := fold_left crc_byte data 0xFFFF.

(** ** Encoder *)
Definition stuff1 (b : Z) : list Z := if b =? FRAME_START then [b; 0] else [b].
Definition stuff (bs : list Z) : list Z := concat (map stuff1 bs).

Definition frame_body (type seq : Z) (payload : list Z) (len : Z) : list Z :=
  [type; seq; u8 (len >>> 8); u8 (len .& 0xFF)] ++ map (rd payload) (seqZ 0 len).

(** The bytes written to [out]; [None] is the return value -1. *)
Definition framing_encode (type seq : Z) (payload : list Z) (len : Z) : option (list Z) :=
  if FRAMING_MAX_PAYLOAD <? len then None
  else
    let body := frame_body type seq payload len in
    let crc := crc16_ccitt body in
    Some (FRAME_START :: stuff body ++ stuff1 (u8 (crc >>> 8)) ++ stuff1 (u8 (crc .& 0xFF))).

Definition framing_send (type seq : Z) (payload : list Z) (len : Z) (f : framing) : Z * framing :=
  match framing_encode type seq payload len with
  | None => (FRAMING_ERR_BADLEN, f)
  | Some buf =>
      let f := put f buf in
      let s := g_stats f in
      (FRAMING_OK, set_stats f (MkStats (u32 (frames_sent s + 1)) (frames_recv s)
                                  (retransmits s) (crc_errors s)))
  end.
Definition framing_send_ack (seq : Z) (f : framing) : Z * framing :=
  framing_send FRAME_TYPE_ACK seq [] 0 f.
Definition framing_send_nack (seq : Z) (f : framing) : Z * framing :=
  framing_send FRAME_TYPE_NACK seq [] 0 f.

(** ** Receiver

    One poll of the receive loop: the ring had a byte, or it was empty and the
    timer read [t].  A trace of polls is what the environment does while the
    receiver runs; a trace that ends while the receiver still waits is
    [Waiting]. *)
Inductive poll := PByte (b : Z) | PIdle (t : Z).

Inductive rx (A : Type) := Got (a : A) (rest : list poll) | Timeout (rest : list poll) | Waiting.
Arguments Got {A}. Arguments Timeout {A}. Arguments Waiting {A}.

Fixpoint recv_byte (deadline : Z) (ps : list poll) : rx Z :=
  match ps with
  | [] => Waiting
  | PByte b :: ps' => Got b ps'
  | PIdle t :: ps' => if deadline <=? t then Timeout ps' else recv_byte deadline ps'
  end.

Inductive logical := LByte (b : Z) | LRestart (type : Z).

Definition read_logical (deadline : Z) (ps : list poll) : rx logical :=
  match recv_byte deadline ps with
  | Got b ps' =>
      if b =? FRAME_START then
        match recv_byte deadline ps' with
        | Got n ps'' => if n =? 0 then Got (LByte FRAME_START) ps'' else Got (LRestart (u8 n)) ps''
        | Timeout r => Timeout r
        | Waiting => Waiting
        end
      else Got (LByte b) ps'
  | Timeout r => Timeout r
  | Waiting => Waiting
  end.

Definition valid_type (t : Z) : bool :=
  (t =? FRAME_TYPE_DATA) || (t =? FRAME_TYPE_ACK) || (t =? FRAME_TYPE_NACK).

(** [sync_start]; each iteration consumes a byte, so the length of the trace
    bounds their number. *)
Fixpoint sync_start (n : nat) (deadline : Z) (ps : list poll) : rx Z :=
  match n with
  | O => Waiting
  | S n' =>
      match recv_byte deadline ps with
      | Got b ps' =>
          if negb (b =? FRAME_START) then sync_start n' deadline ps'
          else
            match recv_byte deadline ps' with
            | Got t ps'' => if valid_type t then Got (u8 t) ps'' else sync_start n' deadline ps''
            | Timeout r => Timeout r
            | Waiting => Waiting
            end
      | Timeout r => Timeout r
      | Waiting => Waiting
      end
  end.

(** The loops that fill hdr, payload and crcb: [k] logical bytes, or the type
    of a frame that starts in between. *)
Fixpoint read_bytes (k : nat) (deadline : Z) (ps : list poll) : rx (list Z + Z) :=
  match k with
  | O => Got (inl []) ps
  | S k' =>
      match read_logical deadline ps with
      | Got (LByte b) ps' =>
          match read_bytes k' deadline ps' with
          | Got (inl bs) r => Got (inl (u8 b :: bs)) r
          | x => x
          end
      | Got (LRestart t) ps' => Got (inr t) ps'
      | Timeout r => Timeout r
      | Waiting => Waiting
      end
  end.

(** The outcome of a receive: the return code, the frame written to [out] if
    any, the rest of the trace. *)
Inductive recv_result :=
  | RDone (code : Z) (out : option frame_t) (rest : list poll)
  | RWaiting.

(** [have_type:] and what follows; each jump back consumed at least two bytes. *)
Fixpoint have_type (n : nat) (deadline type : Z) (ps : list poll) : recv_result :=
  match n with
  | O => RWaiting
  | S n' =>
      match read_bytes 3 deadline ps with
      | Timeout r => RDone FRAMING_ERR_TIMEOUT None r
      | Waiting => RWaiting
      | Got (inr rt) ps => have_type n' deadline rt ps
      | Got (inl hdr) ps =>
          let len := (rd hdr 1 <<< 8) .| rd hdr 2 in
          if FRAMING_MAX_PAYLOAD <? len then RDone FRAMING_ERR_BADLEN None ps
          else
            match read_bytes (Z.to_nat len) deadline ps with
            | Timeout r => RDone FRAMING_ERR_TIMEOUT None r
            | Waiting => RWaiting
            | Got (inr rt) ps => have_type n' deadline rt ps
            | Got (inl payload) ps =>
                match read_bytes 2 deadline ps with
                | Timeout r => RDone FRAMING_ERR_TIMEOUT None r
                | Waiting => RWaiting
                | Got (inr rt) ps => have_type n' deadline rt ps
                | Got (inl crcb) ps =>
                    let rx_crc := (rd crcb 0 <<< 8) .| rd crcb 1 in
                    let calc := crc16_ccitt ([type; rd hdr 0; rd hdr 1; rd hdr 2] ++ payload) in
                    let out := MkFrame type (rd hdr 0) len payload in
                    if negb (calc =? rx_crc) then RDone FRAMING_ERR_CRC (Some out) ps
                    else RDone FRAMING_OK (Some out) ps
                end
            end
      end
  end.

(** The receive itself, up to the deadline. *)
Definition recv_frame (deadline : Z) (ps : list poll) : recv_result :=
  match sync_start (S (length ps)) deadline ps with
  | Timeout r => RDone FRAMING_ERR_TIMEOUT None r
  | Waiting => RWaiting
  | Got type ps' => have_type (S (length ps')) deadline type ps'
  end.

(** [now] is the timer at the call.  The counters change where a frame was
    assembled: on a CRC mismatch and on success. *)
Definition framing_recv (now timeout_ticks : Z) (ps : list poll) (f : framing)
    : recv_result * framing :=
  let r := recv_frame (u64 (now + timeout_ticks)) ps in
  let s := g_stats f in
  match r with
  | RDone code (Some _) _ =>
      if code =? FRAMING_ERR_CRC then
        (r, set_stats f (MkStats (frames_sent s) (frames_recv s) (retransmits s) (u32 (crc_errors s + 1))))
      else
        (r, set_stats f (MkStats (frames_sent s) (u32 (frames_recv s + 1)) (retransmits s) (crc_errors s)))
  | _ => (r, f)
  end.

(** ** Acknowledged send: [waits] gives, per attempt, the timer at the receive
    and the polls that happen during it. *)
Definition bump_retransmits (f : framing) : framing :=
  let s := g_stats f in
  set_stats f (MkStats (frames_sent s) (frames_recv s) (u32 (retransmits s + 1)) (crc_errors s)).

Definition is_reply (type seq : Z) (r : recv_result) : bool :=
  match r with
  | RDone code (Some fr) _ => (code =? FRAMING_OK) && (ftype fr =? type) && (fseq fr =? seq)
  | _ => false
  end.

Fixpoint reliable_loop (n : nat) (attempt seq : Z) (payload : list Z) (len : Z)
    (waits : Z -> Z * list poll) (f : framing) : option Z * framing :=
  match n with
  | O => (Some FRAMING_ERR_TIMEOUT, f)
  | S n' =>
      let f := if 0 <? attempt then bump_retransmits f else f in
      let f := snd (framing_send FRAME_TYPE_DATA seq payload len f) in
      let '(now, ps) := waits attempt in
      let '(r, f) := framing_recv now (g_timeout f) ps f in
      match r with
      | RWaiting => (None, f)
      | _ =>
          if is_reply FRAME_TYPE_ACK seq r then (Some FRAMING_OK, f)
          else if is_reply FRAME_TYPE_NACK seq r then
            reliable_loop n' (attempt + 1) seq payload len waits f
          else reliable_loop n' (attempt + 1) seq payload len waits f
      end
  end.
Definition framing_send_reliable (seq : Z) (payload : list Z) (len : Z)
    (waits : Z -> Z * list poll) (f : framing) : option Z * framing :=
  reliable_loop (Z.to_nat (FRAMING_MAX_RETRIES + 1)) 0 seq payload len waits f.

Definition framing_set_timeout (ticks : Z) (f : framing) : framing :=
  set_timeout f (if negb (ticks =? 0) then ticks else FRAMING_DEFAULT_TIMEOUT_TICKS).
Definition framing_get_timeout (f : framing) : Z := g_timeout f.
Definition framing_get_stats (f : framing) : framing_stats := g_stats f.

(** ** In-memory decoder *)
Definition LIN_SIZE : Z := 4 + FRAMING_MAX_PAYLOAD + 2.

(** The un-stuffing loop from position [pos]; [lin] holds the bytes written so
    far.  [None] is the BADLEN return. *)
Fixpoint unstuff (buf lin : list Z) : option (list Z) :=
  match buf with
  | [] => Some lin
  | b :: buf' =>
      if LIN_SIZE <=? Z.of_nat (length lin) then Some lin
      else if b =? FRAME_START then
        match buf' with
        | [] => None
        | n :: buf'' => if n =? 0 then unstuff buf'' (lin ++ [FRAME_START]) else None
        end
      else unstuff buf' (lin ++ [b])
  end.

Definition decode_lin (lin : list Z) : Z * option frame_t :=
  let lpos := Z.of_nat (length lin) in
  if lpos <? 6 then (FRAMING_ERR_BADLEN, None)
  else
    let plen := (rd lin 2 <<< 8) .| rd lin 3 in
    if (FRAMING_MAX_PAYLOAD <? plen) || negb (lpos =? 4 + plen + 2) then (FRAMING_ERR_BADLEN, None)
    else
      let rx_crc := (rd lin (4 + plen) <<< 8) .| rd lin (4 + plen + 1) in
      let calc := crc16_ccitt (take (Z.to_nat (4 + plen)) lin) in
      let out := MkFrame (rd lin 0) (rd lin 1) plen (take (Z.to_nat plen) (drop 4 lin)) in
      (if calc =? rx_crc then FRAMING_OK else FRAMING_ERR_CRC, Some out).

Definition framing_decode (buf : list Z) : Z * option frame_t :=
  match buf with
  | [] => (FRAMING_ERR_BADLEN, None)
  | b :: buf' =>
      if negb (b =? FRAME_START) then (FRAMING_ERR_BADLEN, None)
      else match unstuff buf' [] with
           | None => (FRAMING_ERR_BADLEN, None)
           | Some lin => decode_lin lin
           end
  end.

Definition framing_selftest : Z :=
  let pl := [0x43; 0x46; 0x2D; 0xAA; 0x66; 0x72; 0x61; 0x6D; 0x65] in
  match framing_encode FRAME_TYPE_DATA 0x2A pl 9 with
  | None => -1
  | Some enc =>
      match framing_decode enc with
      | (code, Some f) =>
          if negb (code =? FRAMING_OK) then -1
          else if negb (ftype f =? FRAME_TYPE_DATA) || negb (fseq f =? 0x2A) || negb (flen f =? 9) then -1
          else if negb (forallb (fun i => rd (fpayload f) i =? rd pl i) (seqZ 0 9)) then -1
          else if negb (fst (framing_decode (wr enc 2 (u8 (Z.lxor (rd enc 2) 0xFF)))) =? FRAMING_ERR_CRC)
          then -1 else 0
      | (_, None) => -1
      end
  end.

(** ** CRC: every step is a bijection *)
Definition crc_unbit (y : Z) : Z :=
  if Z.odd y then (Z.lxor y 0x1021 >>> 1) .| 0x8000 else y >>> 1.

Fixpoint unbit_ok (n : nat) (a : Z) : bool :=
  match n with O => true | S n' => (crc_unbit (crc_bit a) =? a) && unbit_ok n' (a + 1) end.

Lemma unbit_ok_spec n a b : unbit_ok n a = true -> a <= b < a + Z.of_nat n -> crc_unbit (crc_bit b) = b.
Proof.
  revert a. induction n as [|n IH]; intros a; [lia|]. cbn [unbit_ok]. intros [E H]%andb_prop Hb.
  destruct (decide (a = b)) as [->|]; [by apply Z.eqb_eq|]. apply (IH (a + 1)); [done|lia].
Qed.

Lemma unbit_table : unbit_ok (Z.to_nat 65536) 0 = true.
Proof. vm_compute. reflexivity. Qed.

Lemma crc_unbit_bit a : 0 <= a < 65536 -> crc_unbit (crc_bit a) = a.
Proof. intros Ha. apply (unbit_ok_spec _ _ _ unbit_table). lia. Qed.

Lemma crc_bit_range a : 0 <= crc_bit a < 65536.
Proof. unfold crc_bit. case_if; apply u16_range. Qed.

Lemma iter_bit_range n a : 0 <= a < 65536 -> 0 <= Nat.iter n crc_bit a < 65536.
Proof. intros. destruct n; simpl; [done|]. apply crc_bit_range. Qed.

Lemma iter_bit_inj n a b :
  0 <= a < 65536 -> 0 <= b < 65536 -> Nat.iter n crc_bit a = Nat.iter n crc_bit b -> a = b.
Proof.
  intros Ha Hb. induction n as [|n IH]; simpl; [done|]. intros E. apply IH.
  rewrite <- (crc_unbit_bit (Nat.iter n crc_bit a)), E, crc_unbit_bit by (by apply iter_bit_range). done.
Qed.

Lemma crc_byte_range c d : 0 <= crc_byte c d < 65536.
Proof. apply iter_bit_range, u16_range. Qed.

Lemma xor_byte_range c d : 0 <= c < 65536 -> is_byte d -> 0 <= Z.lxor c (d <<< 8) < 65536.
Proof.
  intros Hc Hd. apply (lxor_range 16); [lia|lia|]. rewrite Z.shiftl_mul_pow2 by lia.
  unfold is_byte in Hd. lia.
Qed.

Lemma lxor_cancel_l a b c : Z.lxor a b = Z.lxor a c -> b = c.
Proof.
  intros E. rewrite <- (Z.lxor_0_l b), <- (Z.lxor_0_l c), <- (Z.lxor_nilpotent a).
  rewrite !Z.lxor_assoc. congruence.
Qed.

Lemma crc_byte_inj_state c c' d :
  0 <= c < 65536 -> 0 <= c' < 65536 -> is_byte d -> crc_byte c d = crc_byte c' d -> c = c'.
Proof.
  intros Hc Hc' Hd E. apply iter_bit_inj in E; [|apply u16_range..].
  rewrite !u16_small in E by (by apply xor_byte_range).
  rewrite (Z.lxor_comm c), (Z.lxor_comm c') in E. by eapply lxor_cancel_l.
Qed.

Lemma crc_byte_inj_data c d d' :
  0 <= c < 65536 -> is_byte d -> is_byte d' -> crc_byte c d = crc_byte c d' -> d = d'.
Proof.
  intros Hc Hd Hd' E. apply iter_bit_inj in E; [|apply u16_range..].
  rewrite !u16_small in E by (by apply xor_byte_range). apply lxor_cancel_l in E.
  rewrite !Z.shiftl_mul_pow2 in E by lia. lia.
Qed.

Lemma crc_fold_range bs c : 0 <= c < 65536 -> 0 <= fold_left crc_byte bs c < 65536.
Proof.
  revert c. induction bs as [|b bs IH]; intros c Hc; simpl; [done|]. apply IH, crc_byte_range.
Qed.

Lemma crc_fold_inj bs c c' :
  0 <= c < 65536 -> 0 <= c' < 65536 -> Forall is_byte bs ->
  fold_left crc_byte bs c = fold_left crc_byte bs c' -> c = c'.
Proof.
  intros Hc Hc' Hbs. revert c c' Hc Hc'. induction Hbs as [|b bs Hb Hbs IH]; intros c c' Hc Hc'; simpl; [done|].
  intros E. apply IH in E; [|apply crc_byte_range..]. by apply crc_byte_inj_state in E.
Qed.

(** A single corrupted byte always changes the CRC. *)
Lemma crc_detects_byte l1 l2 d d' :
  Forall is_byte l1 -> Forall is_byte l2 -> is_byte d -> is_byte d' -> d <> d' ->
  crc16_ccitt (l1 ++ d :: l2) <> crc16_ccitt (l1 ++ d' :: l2).
Proof.
  intros H1 H2 Hd Hd' Hne E. apply Hne. unfold crc16_ccitt in E. rewrite !fold_left_app in E. simpl in E.
  apply crc_fold_inj in E; [|apply crc_byte_range..|done].
  apply crc_byte_inj_data in E; [done| |done|done]. by apply crc_fold_range.
Qed.

Lemma crc_range bs : 0 <= crc16_ccitt bs < 65536.
Proof. unfold crc16_ccitt. apply crc_fold_range. lia. Qed.

(** ** Stuffing and the in-memory codec *)
Lemma stuff_cons b bs : stuff (b :: bs) = stuff1 b ++ stuff bs.
Proof. done. Qed.
Lemma stuff_app l1 l2 : stuff (l1 ++ l2) = stuff l1 ++ stuff l2.
Proof. unfold stuff. by rewrite map_app, concat_app. Qed.

Lemma unstuff_stuff bs rest lin :
  Z.of_nat (length lin) + Z.of_nat (length bs) <= LIN_SIZE ->
  unstuff (stuff bs ++ rest) lin = unstuff rest (lin ++ bs).
Proof.
  revert lin. induction bs as [|b bs IH]; intros lin Hl.
  { cbn [stuff map concat app]. by rewrite app_nil_r. }
  rewrite stuff_cons, <- app_assoc. cbn [length] in Hl. unfold stuff1.
  assert (unstuff (stuff bs ++ rest) (lin ++ [b]) = unstuff rest (lin ++ b :: bs)) as Hgo.
  { rewrite IH by (rewrite length_app; simpl; lia). by rewrite <- app_assoc. }
  destruct (Z.eqb_spec b FRAME_START) as [->|Hb]; cbn [app unstuff];
    (destruct (Z.leb_spec LIN_SIZE (Z.of_nat (length lin))); [lia|]).
  - by rewrite Z.eqb_refl.
  - by apply Z.eqb_neq in Hb as ->.
Qed.

Lemma stuff_length bs : (length (stuff bs) <= 2 * length bs)%nat.
Proof.
  induction bs as [|b bs IH]; [done|]. rewrite stuff_cons, length_app. unfold stuff1. case_if; simpl; lia.
Qed.

Lemma frame_body_payload type seq payload :
  frame_body type seq payload (Z.of_nat (length payload)) =
  [type; seq; u8 (Z.of_nat (length payload) >>> 8); u8 (Z.of_nat (length payload) .& 0xFF)] ++ payload.
Proof.
  unfold frame_body. f_equal. apply list_eq. intros i. rewrite list_lookup_fmap.
  destruct (decide (i < length payload)%nat) as [Hi|Hi].
  - rewrite lookup_seqZ_lt by lia. simpl. unfold rd.
    destruct (lookup_lt_is_Some_2 payload i Hi) as [x Hx].
    rewrite nth_lookup. replace (Z.to_nat (0 + Z.of_nat i)) with i by lia. by rewrite Hx.
  - rewrite lookup_seqZ_ge by lia. by rewrite lookup_ge_None_2 by lia.
Qed.

Section codec.
Context (type seq : Z) (payload : list Z).
Hypothesis Htype : is_byte type.
Hypothesis Hseq : is_byte seq.
Hypothesis Hpay : Forall is_byte payload.
Hypothesis Hlen : Z.of_nat (length payload) <= FRAMING_MAX_PAYLOAD.
Let len := Z.of_nat (length payload).
Let body := [type; seq; u8 (len >>> 8); u8 (len .& 0xFF)] ++ payload.
Let crc := crc16_ccitt body.

Lemma encode_eq :
  framing_encode type seq payload len =
  Some (FRAME_START :: stuff (body ++ [u8 (crc >>> 8); u8 (crc .& 0xFF)])).
Proof.
  unfold framing_encode. destruct (Z.ltb_spec FRAMING_MAX_PAYLOAD len); [lia|].
  unfold len. rewrite frame_body_payload. fold len. fold body. fold crc. f_equal. f_equal.
  rewrite stuff_app. f_equal. cbn [stuff map concat]. by rewrite app_nil_r.
Qed.

Lemma len_join : (u8 (len >>> 8) <<< 8) .| u8 (len .& 0xFF) = len.
Proof. apply be16_join. unfold len, FRAMING_MAX_PAYLOAD in *. lia. Qed.

Lemma crc_join : (u8 (crc >>> 8) <<< 8) .| u8 (crc .& 0xFF) = crc.
Proof. apply be16_join, crc_range. Qed.

Lemma decode_lin_ok :
  decode_lin (body ++ [u8 (crc >>> 8); u8 (crc .& 0xFF)]) =
  (FRAMING_OK, Some (MkFrame type seq len payload)).
Proof.
  assert (length body = 4 + length payload)%nat as Hbl by done.
  unfold decode_lin. rewrite length_app, Hbl. cbn [length].
  destruct (Z.ltb_spec (Z.of_nat (4 + length payload + 2)) 6); [lia|].
  change (rd (body ++ _) 2) with (u8 (len >>> 8)). change (rd (body ++ _) 3) with (u8 (len .& 0xFF)).
  rewrite len_join. destruct (Z.ltb_spec FRAMING_MAX_PAYLOAD len); [lia|]. cbn [orb].
  destruct (Z.eqb_spec (Z.of_nat (4 + length payload + 2)) (4 + len + 2)); [|lia]. cbn [negb].
  assert (rd (body ++ [u8 (crc >>> 8); u8 (crc .& 0xFF)]) (4 + len) = u8 (crc >>> 8)) as ->.
  { unfold rd. rewrite app_nth2 by lia. by replace (Z.to_nat (4 + len) - length body)%nat with 0%nat by lia. }
  assert (rd (body ++ [u8 (crc >>> 8); u8 (crc .& 0xFF)]) (4 + len + 1) = u8 (crc .& 0xFF)) as ->.
  { unfold rd. rewrite app_nth2 by lia. by replace (Z.to_nat (4 + len + 1) - length body)%nat with 1%nat by lia. }
  rewrite crc_join. rewrite take_app_length' by lia. fold crc. rewrite Z.eqb_refl. do 2 f_equal.
  change (drop 4 (body ++ [u8 (crc >>> 8); u8 (crc .& 0xFF)])) with (payload ++ [u8 (crc >>> 8); u8 (crc .& 0xFF)]).
  f_equal. apply take_app_length'. lia.
Qed.
End codec.

(** ** Receiving

    [feeds dl ps bs rest]: before the deadline [dl] the trace [ps] delivers the
    bytes [bs] and continues as [rest]. *)
Inductive feeds (dl : Z) : list poll -> list Z -> list poll -> Prop :=
  | feeds_nil ps : feeds dl ps [] ps
  | feeds_idle t ps b bs rest : t < dl -> feeds dl ps (b :: bs) rest -> feeds dl (PIdle t :: ps) (b :: bs) rest
  | feeds_byte b ps bs rest : feeds dl ps bs rest -> feeds dl (PByte b :: ps) (b :: bs) rest.

Lemma recv_feeds dl ps b bs rest :
  feeds dl ps (b :: bs) rest ->
  exists ps', recv_byte dl ps = Got b ps' /\ feeds dl ps' bs rest /\ (length ps' < length ps)%nat.
Proof.
  intros H. remember (b :: bs) as l eqn:El. revert b bs El.
  induction H as [ps|t ps c cs rest Ht H IH|c ps cs rest H IH]; intros b bs El; [done|..].
  - destruct (IH b bs El) as (ps' & Hr & ? & ?). exists ps'. cbn [recv_byte length].
    destruct (Z.leb_spec dl t); [lia|]. repeat split; [done|done|lia].
  - injection El as -> ->. exists ps. cbn [recv_byte length]. repeat split; [done|lia].
Qed.

Lemma feeds_length dl ps bs rest : feeds dl ps bs rest -> (length bs <= length ps)%nat.
Proof. induction 1; simpl in *; lia. Qed.

Lemma read_logical_byte dl ps b bs rest :
  feeds dl ps (stuff1 b ++ bs) rest ->
  exists ps', read_logical dl ps = Got (LByte b) ps' /\ feeds dl ps' bs rest.
Proof.
  unfold stuff1, read_logical. destruct (Z.eqb_spec b FRAME_START) as [->|Hb]; cbn [app]; intros H.
  - destruct (recv_feeds _ _ _ _ _ H) as (p1 & -> & H1 & _). rewrite Z.eqb_refl.
    destruct (recv_feeds _ _ _ _ _ H1) as (p2 & -> & H2 & _). eauto.
  - destruct (recv_feeds _ _ _ _ _ H) as (p1 & -> & H1 & _). apply Z.eqb_neq in Hb as ->. eauto.
Qed.

Lemma read_logical_restart dl ps t bs rest :
  feeds dl ps (FRAME_START :: t :: bs) rest -> 0 < t < 256 ->
  exists ps', read_logical dl ps = Got (LRestart t) ps' /\ feeds dl ps' bs rest.
Proof.
  intros H Ht. unfold read_logical. destruct (recv_feeds _ _ _ _ _ H) as (p1 & -> & H1 & _).
  rewrite Z.eqb_refl. destruct (recv_feeds _ _ _ _ _ H1) as (p2 & -> & H2 & _).
  destruct (Z.eqb_spec t 0); [lia|]. rewrite u8_small by lia. eauto.
Qed.

Lemma read_bytes_stuff dl bs ps tail rest :
  Forall is_byte bs -> feeds dl ps (stuff bs ++ tail) rest ->
  exists ps', read_bytes (length bs) dl ps = Got (inl bs) ps' /\ feeds dl ps' tail rest.
Proof.
  intros Hbs. revert ps. induction Hbs as [|b bs Hb Hbs IH]; intros ps Hf; [by exists ps|].
  rewrite stuff_cons, <- app_assoc in Hf. destruct (read_logical_byte _ _ _ _ _ Hf) as (p1 & E1 & H1).
  destruct (IH p1 H1) as (p2 & E2 & H2). exists p2. cbn [length read_bytes]. rewrite E1, E2.
  rewrite u8_small by done. done.
Qed.

Lemma read_bytes_restart dl bs ps t tail rest k :
  Forall is_byte bs -> feeds dl ps (stuff bs ++ FRAME_START :: t :: tail) rest -> 0 < t < 256 ->
  (length bs < k)%nat ->
  exists ps', read_bytes k dl ps = Got (inr t) ps' /\ feeds dl ps' tail rest.
Proof.
  intros Hbs Hf Ht. revert ps k Hf. induction Hbs as [|b bs Hb Hbs IH]; intros ps k Hf Hk;
    (destruct k as [|k]; [simpl in Hk; lia|]); cbn [read_bytes].
  - destruct (read_logical_restart dl ps t tail rest Hf Ht) as (p1 & -> & H1). eauto.
  - rewrite stuff_cons, <- app_assoc in Hf. destruct (read_logical_byte _ _ _ _ _ Hf) as (p1 & -> & H1).
    destruct (IH p1 k H1) as (p2 & -> & H2); [simpl in Hk; lia|]. eauto.
Qed.

Lemma sync_noise dl noise ps t tail rest n :
  Forall (fun b => b <> FRAME_START) noise -> valid_type t = true ->
  feeds dl ps (noise ++ FRAME_START :: t :: tail) rest -> (length ps < n)%nat ->
  exists ps', sync_start n dl ps = Got t ps' /\ feeds dl ps' tail rest.
Proof.
  intros Hn Ht. revert ps n. induction Hn as [|b noise Hb Hn IH]; intros ps n Hf Hl;
    (destruct n as [|n]; [lia|]); cbn [sync_start app] in *;
    destruct (recv_feeds _ _ _ _ _ Hf) as (p1 & -> & H1 & Hl1).
  - rewrite Z.eqb_refl. cbn [negb].
    destruct (recv_feeds _ _ _ _ _ H1) as (p2 & -> & H2 & _). rewrite Ht.
    rewrite u8_small by (unfold valid_type, FRAME_TYPE_DATA, FRAME_TYPE_ACK, FRAME_TYPE_NACK in Ht; lia).
    eauto.
  - apply Z.eqb_neq in Hb as ->. cbn [negb]. apply IH; [done|lia].
Qed.

(** The bytes of a frame after its type, as they travel: seq, length, payload, crc. *)
Definition after_type (type seq : Z) (payload : list Z) : list Z :=
  let len := Z.of_nat (length payload) in
  let body := [type; seq; u8 (len >>> 8); u8 (len .& 0xFF)] ++ payload in
  [seq; u8 (len >>> 8); u8 (len .& 0xFF)] ++ payload ++
  [u8 (crc16_ccitt body >>> 8); u8 (crc16_ccitt body .& 0xFF)].

Definition frame_ok (type seq : Z) (payload : list Z) : Prop :=
  valid_type type = true /\ is_byte seq /\ Forall is_byte payload /\
  Z.of_nat (length payload) <= FRAMING_MAX_PAYLOAD.

Lemma valid_type_range t : valid_type t = true -> 0 < t < 4.
Proof. unfold valid_type, FRAME_TYPE_DATA, FRAME_TYPE_ACK, FRAME_TYPE_NACK. lia. Qed.

Lemma encode_after_type type seq payload :
  frame_ok type seq payload ->
  framing_encode type seq payload (Z.of_nat (length payload)) =
  Some (FRAME_START :: type :: stuff (after_type type seq payload)).
Proof.
  intros (Ht & _ & _ & Hl). rewrite encode_eq by done. f_equal. f_equal.
  transitivity (stuff1 type ++ stuff (after_type type seq payload)); [done|].
  unfold stuff1. pose proof (valid_type_range _ Ht). destruct (Z.eqb_spec type FRAME_START) as [->|]; [|done].
  unfold FRAME_START in *. lia.
Qed.

Lemma have_type_frame n dl type seq payload ps rest :
  frame_ok type seq payload -> feeds dl ps (stuff (after_type type seq payload)) rest ->
  have_type (S n) dl type ps =
  RDone FRAMING_OK (Some (MkFrame type seq (Z.of_nat (length payload)) payload)) rest.
Proof.
  intros (Ht & Hs & Hp & Hl) Hf. set (len := Z.of_nat (length payload)) in *.
  set (body := [type; seq; u8 (len >>> 8); u8 (len .& 0xFF)] ++ payload).
  set (crc := crc16_ccitt body). unfold after_type in Hf. fold len in Hf. fold body in Hf. fold crc in Hf.
  rewrite !stuff_app in Hf. cbn [have_type].
  assert (Forall is_byte [seq; u8 (len >>> 8); u8 (len .& 0xFF)]) as Hh
    by (repeat constructor; try apply Hs; apply u8_range).
  assert (Forall is_byte [u8 (crc >>> 8); u8 (crc .& 0xFF)]) as Hc
    by (repeat constructor; apply u8_range).
  destruct (read_bytes_stuff dl _ ps _ rest Hh Hf) as (p1 & E1 & H1).
  cbn [length] in E1. rewrite E1. cbv zeta.
  change (rd [seq; ?a; ?b] 0) with seq. change (rd [seq; ?a; ?b] 1) with a. change (rd [seq; ?a; ?b] 2) with b.
  rewrite (be16_join len) by (unfold FRAMING_MAX_PAYLOAD in Hl; lia).
  destruct (Z.ltb_spec FRAMING_MAX_PAYLOAD len); [lia|].
  destruct (read_bytes_stuff dl payload p1 _ rest Hp H1) as (p2 & E2 & H2).
  replace (Z.to_nat len) with (length payload) by lia. rewrite E2.
  rewrite <- (app_nil_r (stuff [_; _])) in H2.
  destruct (read_bytes_stuff dl _ p2 [] rest Hc H2) as (p3 & E3 & H3).
  cbn [length] in E3. rewrite E3.
  change (rd [?a; ?b] 0) with a. change (rd [?a; ?b] 1) with b.
  rewrite (be16_join crc) by apply crc_range. change ([type; seq; u8 (len >>> 8); u8 (len .& 0xFF)] ++ payload) with body. fold crc.
  rewrite Z.eqb_refl. cbn [negb]. inversion H3; subst. done.
Qed.

(** ** Theorems *)
Lemma stuff_delimited bs i :
  stuff bs !! i = Some FRAME_START -> stuff bs !! S i = Some 0.
Proof.
  revert i. induction bs as [|b bs IH]; intros i; [done|]. rewrite stuff_cons. unfold stuff1.
  destruct (Z.eqb_spec b FRAME_START) as [->|Hb]; cbn [app].
  - destruct i as [|[|i]]; [done|done|apply IH].
  - destruct i as [|i]; [intros [= ->]; done|apply IH].
Qed.

Lemma decode_stuffed lin :
  Z.of_nat (length lin) <= LIN_SIZE ->
  framing_decode (FRAME_START :: stuff lin) = decode_lin lin.
Proof.
  intros Hl. unfold framing_decode. rewrite Z.eqb_refl. cbn [negb].
  rewrite <- (app_nil_r (stuff lin)), unstuff_stuff by (simpl; lia). done.
Qed.

(** C7: encoding then decoding any frame (any type, sequence number and payload of
    at most 256 bytes) gives the frame back; the encoding fits the 525-byte
    buffer, and the start byte occurs inside it only as an escape followed by
    0, so it marks frame boundaries uniquely. *)
Theorem framing_codec_roundtrip type seq payload :
  is_byte type -> is_byte seq -> Forall is_byte payload ->
  Z.of_nat (length payload) <= FRAMING_MAX_PAYLOAD ->
  exists enc, framing_encode type seq payload (Z.of_nat (length payload)) = Some enc /\
    framing_decode enc = (FRAMING_OK, Some (MkFrame type seq (Z.of_nat (length payload)) payload)) /\
    Z.of_nat (length enc) <= FRAMING_MAX_ENCODED /\
    enc !! 0%nat = Some FRAME_START /\
    (forall i, (0 < i)%nat -> enc !! i = Some FRAME_START -> enc !! S i = Some 0).
Proof.
  intros Ht Hs Hp Hl. eexists. split; [by apply encode_eq|].
  rewrite decode_stuffed.
  2: { rewrite length_app. unfold LIN_SIZE. simpl. lia. }
  split; [by apply decode_lin_ok|]. split; [|split; [done|]].
  - pose proof (stuff_length (([type; seq; u8 (Z.of_nat (length payload) >>> 8);
       u8 (Z.of_nat (length payload) .& 0xFF)] ++ payload) ++
       [u8 (crc16_ccitt ([type; seq; u8 (Z.of_nat (length payload) >>> 8);
             u8 (Z.of_nat (length payload) .& 0xFF)] ++ payload) >>> 8);
        u8 (crc16_ccitt ([type; seq; u8 (Z.of_nat (length payload) >>> 8);
             u8 (Z.of_nat (length payload) .& 0xFF)] ++ payload) .& 0xFF)])) as Hsl.
    rewrite !length_app in Hsl. unfold FRAMING_MAX_PAYLOAD, FRAMING_MAX_ENCODED in *.
    cbn [length] in *. lia.
  - intros [|i] Hi; [lia|]. apply stuff_delimited.
Qed.

Lemma framing_codec_roundtrip_witness :
  exists enc, framing_encode 1 0x2A [0xAA; 7; 0xAA] 3 = Some enc /\
    framing_decode enc = (FRAMING_OK, Some (MkFrame 1 0x2A 3 [0xAA; 7; 0xAA])).
Proof.
  destruct (framing_codec_roundtrip 1 0x2A [0xAA; 7; 0xAA]) as (enc & He & Hd & _).
  - unfold is_byte; lia.
  - unfold is_byte; lia.
  - repeat constructor; unfold is_byte; lia.
  - unfold FRAMING_MAX_PAYLOAD; simpl; lia.
  - exists enc. split; [exact He|exact Hd].
Defined.

(** The self-test of the source passes. *)
Example framing_selftest_passes : framing_selftest = 0.
Proof. vm_compute. reflexivity. Qed.

(** What a successful decode of a linear buffer says. *)
Lemma decode_lin_inv lin o :
  decode_lin lin = (FRAMING_OK, o) ->
  let plen := Z.of_nat (length lin) - 6 in
  0 <= plen <= FRAMING_MAX_PAYLOAD /\ (rd lin 2 <<< 8) .| rd lin 3 = plen /\
  crc16_ccitt (take (Z.to_nat (4 + plen)) lin) = (rd lin (4 + plen) <<< 8) .| rd lin (4 + plen + 1).
Proof.
  unfold decode_lin. destruct (Z.ltb_spec (Z.of_nat (length lin)) 6); [done|].
  destruct (_ || _) eqn:E; [done|]. apply orb_false_elim in E as [E1 E2].
  apply Z.ltb_ge in E1. apply negb_false_iff, Z.eqb_eq in E2.
  set (pl := (rd lin 2 <<< 8) .| rd lin 3) in *. destruct (Z.eqb_spec (crc16_ccitt (take (Z.to_nat (4 + pl)) lin))
    ((rd lin (4 + pl) <<< 8) .| rd lin (4 + pl + 1))) as [Ec|]; [|done].
  intros _. cbv zeta. replace (Z.of_nat (length lin) - 6) with pl by lia. lia.
Qed.

Lemma be16_inj a b c d :
  is_byte a -> is_byte b -> is_byte c -> is_byte d -> (a <<< 8) .| b = (c <<< 8) .| d -> a = c /\ b = d.
Proof. intros. rewrite !be16_val in * by done. unfold is_byte in *. lia. Qed.

Lemma decode_lin_corrupt lin o o' i d :
  Forall is_byte lin -> is_byte d -> 0 <= i < Z.of_nat (length lin) -> d <> rd lin i ->
  decode_lin lin = (FRAMING_OK, o) -> decode_lin (wr lin i d) = (FRAMING_OK, o') -> False.
Proof.
  intros Hb Hd Hi Hne H1 H2. apply decode_lin_inv in H1, H2. cbv zeta in *. rewrite length_wr in H2.
  set (pl := Z.of_nat (length lin) - 6) in *. destruct H1 as (Hr & Hp1 & Hc1), H2 as (_ & Hp2 & Hc2).
  assert (forall j, 0 <= j < Z.of_nat (length lin) -> is_byte (rd lin j)) as Hby.
  { intros. by apply (rd_Forall is_byte). }
  assert (forall j, 0 <= j < Z.of_nat (length lin) -> is_byte (rd (wr lin i d) j)) as Hby'.
  { intros j Hj. apply (rd_Forall is_byte); [by apply Forall_wr|by rewrite length_wr]. }
  assert (rd (wr lin i d) i = d) as Hwi by (by apply rd_wr_eq).
  assert (i <> 2 /\ i <> 3) as [Hn2 Hn3].
  { rewrite <- Hp1 in Hp2. apply be16_inj in Hp2 as [E2 E3]; [|apply Hby' || apply Hby; lia..].
    split; intros ->; congruence. }
  destruct (decide (i < 4 + pl)) as [Hin|Hout].
  - rewrite !(rd_wr_ne lin i) in Hc2 by lia. rewrite <- Hc1 in Hc2. unfold wr in Hc2.
    rewrite <- (take_drop_middle lin (Z.to_nat i) (rd lin i)) in Hb.
    2: { unfold rd. rewrite nth_lookup. destruct (lookup_lt_is_Some_2 lin (Z.to_nat i)) as [x Hx]; [lia|].
         by rewrite Hx. }
    set (n := Z.to_nat (4 + pl)) in *. set (k := Z.to_nat i) in *. assert (k < n)%nat by lia.
    assert (take n lin = take k lin ++ rd lin i :: take (n - S k) (drop (S k) lin)) as Et.
    { rewrite <- (take_drop_middle lin k (rd lin i)) at 1.
      - rewrite take_app_ge by (rewrite length_take; lia). f_equal. rewrite length_take.
        replace (n - k `min` length lin)%nat with (S (n - S k)) by lia. done.
      - unfold rd. rewrite nth_lookup. destruct (lookup_lt_is_Some_2 lin k) as [x Hx]; [lia|]. fold k. by rewrite Hx. }
    rewrite (insert_take_drop lin k d) in Hc2 by lia.
    rewrite take_app_ge in Hc2 by (rewrite length_take; lia). rewrite length_take in Hc2.
    replace (n - k `min` length lin)%nat with (S (n - S k)) in Hc2 by lia. cbn [take] in Hc2.
    rewrite Et in Hc2. apply Forall_app in Hb as [Hb1 [_ Hb2]%Forall_cons].
    revert Hc2. apply crc_detects_byte; try done; [by apply Forall_take|by apply Hby].
  - unfold wr in Hc2. rewrite take_insert_ge, Hc1 in Hc2 by lia. fold (wr lin i d) in Hc2.
    apply be16_inj in Hc2 as [E4 E5]; [|apply Hby' || apply Hby; lia..].
    assert (i = 4 + pl \/ i = 4 + pl + 1) as [->| ->] by lia; congruence.
Qed.



(** A frame cut short after the logical bytes [part]: the receiver still waits
    for more of it. *)
Definition cut_short (part : list Z) : Prop :=
  Forall is_byte part /\
  ((length part < 3)%nat \/
   let len := (rd part 1 <<< 8) .| rd part 2 in
   len <= FRAMING_MAX_PAYLOAD /\ Z.of_nat (length part) < 3 + len + 2).

Lemma have_type_cut n dl type part t tail ps rest :
  cut_short part -> 0 < t < 256 -> feeds dl ps (stuff part ++ FRAME_START :: t :: tail) rest ->
  exists ps', have_type (S n) dl type ps = have_type n dl t ps' /\ feeds dl ps' tail rest.
Proof.
  intros [Hb Hcut] Ht Hf. cbn [have_type]. destruct (decide (length part < 3)%nat) as [Hs|Hs].
  { destruct (read_bytes_restart dl part ps t tail rest 3 Hb Hf Ht Hs) as (p1 & -> & H1). eauto. }
  destruct Hcut as [?|[Hle Hlt]]; [lia|].
  destruct part as [|a [|b [|c part]]]; [simpl in Hs; lia..|]. clear Hs.
  change (stuff (a :: b :: c :: part)) with (stuff ([a; b; c] ++ part)) in Hf.
  rewrite stuff_app, <- app_assoc in Hf. change (rd (a :: b :: c :: part) 1) with b in *.
  change (rd (a :: b :: c :: part) 2) with c in *.
  assert (Forall is_byte [a; b; c] /\ Forall is_byte part) as [Hb1 Hb2].
  { apply (Forall_app is_byte [a; b; c] part). done. }
  destruct (read_bytes_stuff dl _ ps _ rest Hb1 Hf) as (p1 & E1 & H1). cbn [length] in E1, Hlt. rewrite E1.
  cbv zeta. change (rd [a; b; c] 1) with b. change (rd [a; b; c] 2) with c.
  set (len := (b <<< 8) .| c) in *. destruct (Z.ltb_spec FRAMING_MAX_PAYLOAD len); [lia|].
  destruct (decide (Z.of_nat (length part) < len)) as [Hp|Hp].
  { destruct (read_bytes_restart dl part p1 t tail rest (Z.to_nat len) Hb2 H1 Ht) as (p2 & -> & H2); [lia|].
    eauto. }
  assert (0 <= len) as Hl0.
  { unfold len. apply Z.lor_nonneg. apply Forall_cons in Hb1 as [_ [[] [[] _]%Forall_cons]%Forall_cons].
    split; [apply Z.shiftl_nonneg|]; lia. }
  rewrite <- (take_drop (Z.to_nat len) part) in Hb2, H1. rewrite stuff_app, <- app_assoc in H1.
  apply Forall_app in Hb2 as [Hb2 Hb3].
  destruct (read_bytes_stuff dl _ p1 _ rest Hb2 H1) as (p2 & E2 & H2). rewrite length_take in E2.
  replace (Z.to_nat len `min` length part)%nat with (Z.to_nat len) in E2 by lia. rewrite E2.
  destruct (read_bytes_restart dl _ p2 t tail rest 2 Hb3 H2 Ht) as (p3 & -> & H3); [rewrite length_drop; lia|].
  eauto.
Qed.

(** What precedes a frame on the line: bytes other than the start byte, then
    possibly a frame that was cut short. *)
Definition leader (noise : list Z) (cut : option (Z * list Z)) : list Z :=
  noise ++ match cut with None => [] | Some (t0, part) => FRAME_START :: t0 :: stuff part end.

(** A frame behind noise. *)
Lemma recv_resync_spec now ticks ps f noise cut type seq payload enc rest :
  frame_ok type seq payload -> Forall (fun b => b <> FRAME_START) noise ->
  match cut with None => True | Some (t0, part) => valid_type t0 = true /\ cut_short part end ->
  framing_encode type seq payload (Z.of_nat (length payload)) = Some enc ->
  feeds (u64 (now + ticks)) ps (leader noise cut ++ enc) rest ->
  exists f', framing_recv now ticks ps f =
    (RDone FRAMING_OK (Some (MkFrame type seq (Z.of_nat (length payload)) payload)) rest, f') /\
    frames_recv (g_stats f') = u32 (frames_recv (g_stats f) + 1) /\
    crc_errors (g_stats f') = crc_errors (g_stats f) /\ tx f' = tx f.
Proof.
  intros Hok Hn Hcut Henc Hf. rewrite encode_after_type in Henc by done. injection Henc as <-.
  set (dl := u64 (now + ticks)) in *. unfold framing_recv. fold dl.
  assert (recv_frame dl ps = RDone FRAMING_OK (Some (MkFrame type seq (Z.of_nat (length payload)) payload)) rest) as ->.
  2: { eexists. split; [reflexivity|]. done. }
  pose proof (valid_type_range _ (proj1 Hok)) as Hty. unfold recv_frame, leader in *.
  destruct cut as [[t0 part]|]; rewrite <- app_assoc in Hf; cbn [app] in Hf.
  - destruct Hcut as [Ht0 Hcut].
    destruct (sync_noise dl noise ps t0 _ rest (S (length ps)) Hn Ht0 Hf) as (p1 & -> & H1); [lia|].
    destruct (have_type_cut (length p1) dl t0 part type _ p1 rest Hcut ltac:(lia) H1) as (p2 & -> & H2).
    destruct (length p1) eqn:El; [|by apply have_type_frame].
    apply feeds_length in H1. rewrite length_app in H1. simpl in H1. lia.
  - destruct (sync_noise dl noise ps type _ rest (S (length ps)) Hn (proj1 Hok) Hf) as (p1 & -> & H1); [lia|].
    by apply have_type_frame.
Qed.
(** C9: the receiver resynchronises: after any noise without start bytes, and
    possibly a frame cut short in the middle, [framing_recv] returns the next
    complete frame that was encoded by the sender, consumes exactly its bytes
    and counts one received frame, whatever the gaps between bytes, as long as
    they arrive before the deadline. *)
Theorem framing_recv_resyncs now ticks ps f noise cut type seq payload enc rest :
  frame_ok type seq payload -> Forall (fun b => b <> FRAME_START) noise ->
  match cut with None => True | Some (t0, part) => valid_type t0 = true /\ cut_short part end ->
  framing_encode type seq payload (Z.of_nat (length payload)) = Some enc ->
  feeds (u64 (now + ticks)) ps (leader noise cut ++ enc) rest ->
  exists f', framing_recv now ticks ps f =
    (RDone FRAMING_OK (Some (MkFrame type seq (Z.of_nat (length payload)) payload)) rest, f') /\
    frames_recv (g_stats f') = u32 (frames_recv (g_stats f) + 1) /\
    crc_errors (g_stats f') = crc_errors (g_stats f) /\ tx f' = tx f.
Proof. apply recv_resync_spec. Qed.

Lemma framing_recv_resyncs_witness :
  exists f', framing_recv 5 100
    (map PByte ([0x00; 0x17] ++ [0xAA; 1; 7; 0]) ++ [PIdle 9] ++
     map PByte [0xAA; 2; 0xAA; 0; 0; 0; 0x13; 0xF5])
    (MkFraming (MkStats 0 0 0 0) 100 true false false false [] []) =
    (RDone FRAMING_OK (Some (MkFrame 2 0xAA 0 [])) [], f').
Proof.
  destruct (framing_recv_resyncs 5 100
    (map PByte ([0x00; 0x17] ++ [0xAA; 1; 7; 0]) ++ [PIdle 9] ++
     map PByte [0xAA; 2; 0xAA; 0; 0; 0; 0x13; 0xF5])
    (MkFraming (MkStats 0 0 0 0) 100 true false false false [] [])
    [0x00; 0x17] (Some (1, [7; 0])) 2 0xAA [] [0xAA; 2; 0xAA; 0; 0; 0; 0x13; 0xF5] [])
    as (f' & Hr & _).
  - split; [done|]. split; [unfold is_byte; lia|]. split; [constructor|done].
  - repeat constructor; done.
  - split; [done|]. split; [repeat constructor; unfold is_byte; lia|left; simpl; lia].
  - vm_compute. reflexivity.
  - cbn. repeat (apply feeds_byte || (apply feeds_idle; [done|])). apply feeds_nil.
  - exists f'. exact Hr.
Defined.

(** *** Acknowledged send *)
Lemma send_ok seq payload len f :
  len <= FRAMING_MAX_PAYLOAD ->
  exists enc, framing_encode FRAME_TYPE_DATA seq payload len = Some enc /\
    let f' := snd (framing_send FRAME_TYPE_DATA seq payload len f) in
    tx f' = tx f ++ enc /\ g_timeout f' = g_timeout f /\
    retransmits (g_stats f') = retransmits (g_stats f) /\
    frames_sent (g_stats f') = u32 (frames_sent (g_stats f) + 1).
Proof.
  intros Hl. unfold framing_send, framing_encode.
  destruct (Z.ltb_spec FRAMING_MAX_PAYLOAD len); [lia|]. eexists. split; [done|]. done.
Qed.

Lemma recv_frame_of now ticks ps f :
  let '(r, f') := framing_recv now ticks ps f in
  r = recv_frame (u64 (now + ticks)) ps /\ tx f' = tx f /\ g_timeout f' = g_timeout f /\
  retransmits (g_stats f') = retransmits (g_stats f) /\
  frames_sent (g_stats f') = frames_sent (g_stats f).
Proof.
  unfold framing_recv. destruct (recv_frame _ ps) as [code [out|] rest|]; [case_if|..]; done.
Qed.

(** The reply received at an attempt, and whether it acknowledges [seq]. *)
Definition reply (waits : Z -> Z * list poll) (timeout attempt : Z) : recv_result :=
  recv_frame (u64 (fst (waits attempt) + timeout)) (snd (waits attempt)).
Definition acked (seq : Z) (waits : Z -> Z * list poll) (timeout attempt : Z) : bool :=
  is_reply FRAME_TYPE_ACK seq (reply waits timeout attempt).

Lemma reliable_loop_spec n a seq payload len waits f r f' enc :
  0 <= a -> len <= FRAMING_MAX_PAYLOAD -> framing_encode FRAME_TYPE_DATA seq payload len = Some enc ->
  reliable_loop n a seq payload len waits f = (Some r, f') ->
  exists k, (k <= n)%nat /\ tx f' = tx f ++ concat (replicate k enc) /\
    frames_sent (g_stats f') = Nat.iter k (fun x => u32 (x + 1)) (frames_sent (g_stats f)) /\
    retransmits (g_stats f') =
      Nat.iter (if a =? 0 then pred k else k) (fun x => u32 (x + 1)) (retransmits (g_stats f)) /\
    (forall i, a <= i < a + Z.of_nat k - 1 -> acked seq waits (g_timeout f) i = false) /\
    ((r = FRAMING_OK /\ (0 < k)%nat /\ acked seq waits (g_timeout f) (a + Z.of_nat k - 1) = true) \/
     (r = FRAMING_ERR_TIMEOUT /\ k = n /\
      forall i, a <= i < a + Z.of_nat n -> acked seq waits (g_timeout f) i = false)).
Proof.
  intros Ha Hl Henc. revert a f Ha. induction n as [|n IH]; intros a f Ha; cbn [reliable_loop].
  { intros [= <- <-]. exists 0%nat. rewrite app_nil_r. simpl. destruct (a =? 0); simpl;
      (do 4 (split; [done || lia|])); (split; [intros; lia|]); right; repeat split; intros; lia. }
  set (f1 := if 0 <? a then bump_retransmits f else f).
  destruct (send_ok seq payload len f1 Hl) as (enc' & He & Htx & Hto & Hre & Hfs).
  rewrite Henc in He. injection He as <-. set (f2 := snd _) in *. cbv zeta in *.
  assert (tx f1 = tx f /\ g_timeout f1 = g_timeout f /\ frames_sent (g_stats f1) = frames_sent (g_stats f) /\
    retransmits (g_stats f1) = if a =? 0 then retransmits (g_stats f) else u32 (retransmits (g_stats f) + 1))
    as (E1 & E2 & E3 & E4).
  { unfold f1. destruct (Z.ltb_spec 0 a), (Z.eqb_spec a 0); try lia; done. }
  destruct (waits a) as [now ps] eqn:Ew. pose proof (recv_frame_of now (g_timeout f2) ps f2) as Hrf.
  destruct (framing_recv now (g_timeout f2) ps f2) as [rr f3]. destruct Hrf as (-> & G1 & G2 & G3 & G4).
  assert (reply waits (g_timeout f) a = recv_frame (u64 (now + g_timeout f2)) ps) as Hrep.
  { unfold reply. rewrite Ew, Hto, E2. done. }
  rewrite <- Hrep. destruct (reply waits (g_timeout f) a) as [code out rest|] eqn:Er; [|done].
  destruct (is_reply FRAME_TYPE_ACK seq (RDone code out rest)) eqn:Eack.
  - intros [= <- <-]. exists 1%nat. cbn [replicate concat Nat.iter]. rewrite app_nil_r, G1, Htx, E1, G4, Hfs, E3, G3, Hre, E4.
    split; [lia|]. do 2 (split; [done|]). split; [by destruct (a =? 0)|]. split; [intros; lia|].
    left. split; [done|]. split; [lia|]. replace (a + Z.of_nat 1 - 1) with a by lia. unfold acked. by rewrite Er.
  - assert (acked seq waits (g_timeout f) a = false) as Hna by (unfold acked; by rewrite Er).
    assert (forall b : bool, (if b then reliable_loop n (a + 1) seq payload len waits f3
      else reliable_loop n (a + 1) seq payload len waits f3) = reliable_loop n (a + 1) seq payload len waits f3)
      as -> by (by intros []).
    intros Hgo. destruct (IH (a + 1) f3 ltac:(lia) Hgo) as (k & Hk & Htx' & Hfs' & Hre' & Hno & Hend).
    rewrite G2, Hto, E2 in Hno, Hend. exists (S k). rewrite Htx', Hfs', Hre', G1, Htx, E1, G4, Hfs, E3, G3, Hre, E4.
    split; [lia|]. split; [cbn [replicate concat]; by rewrite app_assoc|].
    split; [by rewrite Nat.iter_succ_r|]. split.
    { destruct (Z.eqb_spec a 0), (Z.eqb_spec (a + 1) 0); try lia; [done|]. by rewrite Nat.iter_succ_r. }
    split. { intros i Hi. destruct (decide (i = a)) as [->|]; [done|]. apply Hno. lia. }
    replace (a + Z.of_nat (S k) - 1) with (a + 1 + Z.of_nat k - 1) by lia.
    destruct Hend as [(-> & ? & ?)|(-> & -> & Hall)]; [left|right]; (split; [done|]); [split; [lia|done]|].
    split; [done|]. intros i Hi. destruct (decide (i = a)) as [->|]; [done|]. apply Hall. lia.
Qed.

(** [framing_send_reliable] transmits the encoded frame at least once and at
    most four times, counts each transmission and each retransmission, returns
    OK exactly at the first attempt whose reply is an acknowledgement of [seq],
    and returns the timeout error only after four unacknowledged attempts. *)
Theorem framing_send_reliable_spec seq payload len waits f r f' :
  len <= FRAMING_MAX_PAYLOAD ->
  framing_send_reliable seq payload len waits f = (Some r, f') ->
  exists k enc, framing_encode FRAME_TYPE_DATA seq payload len = Some enc /\
    (1 <= k <= 4)%nat /\ tx f' = tx f ++ concat (replicate k enc) /\
    frames_sent (g_stats f') = Nat.iter k (fun x => u32 (x + 1)) (frames_sent (g_stats f)) /\
    retransmits (g_stats f') = Nat.iter (k - 1) (fun x => u32 (x + 1)) (retransmits (g_stats f)) /\
    (forall i, 0 <= i < Z.of_nat k - 1 -> acked seq waits (g_timeout f) i = false) /\
    ((r = FRAMING_OK /\ acked seq waits (g_timeout f) (Z.of_nat k - 1) = true) \/
     (r = FRAMING_ERR_TIMEOUT /\ k = 4%nat /\ acked seq waits (g_timeout f) 3 = false)).
Proof.
  intros Hl Hs. destruct (send_ok seq payload len f Hl) as (enc & He & _).
  destruct (reliable_loop_spec 4 0 seq payload len waits f r f' enc ltac:(lia) Hl He Hs)
    as (k & Hk & Htx & Hfs & Hre & Hno & Hend).
  exists k, enc. rewrite !Z.add_0_l in *. replace (k - 1)%nat with (pred k) by lia.
  split; [done|]. split. { destruct Hend as [(_ & ? & _)|(_ & -> & _)]; lia. }
  do 4 (split; [done|]). destruct Hend as [(-> & _ & ?)|(-> & -> & Hall)]; [by left|].
  right. do 2 (split; [done|]). apply Hall. lia.
Qed.

(** A peer that answers the second attempt with an acknowledgement of 0xAA. *)
Lemma framing_send_reliable_spec_witness :
  exists f', framing_send_reliable 0xAA [1; 2] 2
      (fun a => if a =? 0 then (0, [PIdle 50; PIdle 101]) else (101, map PByte [0xAA; 2; 0xAA; 0; 0; 0; 0x13; 0xF5]))
      (MkFraming (MkStats 0 0 0 0) 100 true false false false [] []) = (Some FRAMING_OK, f') /\
    retransmits (g_stats f') = 1.
Proof.
  set (w := fun a : Z => if a =? 0 then _ else _). set (f := MkFraming _ _ _ _ _ _ _ _).
  set (f' := snd (framing_send_reliable 0xAA [1; 2] 2 w f)).
  assert (framing_send_reliable 0xAA [1; 2] 2 w f = (Some FRAMING_OK, f')) as Hs by (vm_compute; reflexivity).
  exists f'. split; [exact Hs|].
  destruct (framing_send_reliable_spec 0xAA [1; 2] 2 w f FRAMING_OK f' ltac:(vm_compute; congruence) Hs)
    as (k & enc & He & Hk & Htx & _ & Hre & Hno & [[_ Hack]|[Hbad _]]); [|discriminate Hbad].
  rewrite Hre. assert (k = 2%nat) as ->; [|vm_compute; reflexivity].
  destruct k as [|[|[|k]]]; [lia| |reflexivity|].
  - exfalso. revert Hack. vm_compute. congruence.
  - exfalso. specialize (Hno 1 ltac:(lia)). revert Hno. vm_compute. congruence.
Defined.

(** *** Presence probe *)

(** Bringing up UART1 never panics, whether or not the device answers the
    guarded probe load: it ends with the probe flag clear and exactly one of
    ready/absent set according to the device, initialises the hardware only
    when it is there, and doing it again changes nothing; an abort outside the
    probe is never swallowed. *)
Theorem framing_ensure_hw_safe present pc f far elr :
  g_hw_ready f && g_hw_absent f = false -> g_probing f = false ->
  (exists f', framing_ensure_hw present pc f = Some f' /\ g_probing f' = false /\
     g_hw_ready f' = (if g_hw_ready f || g_hw_absent f then g_hw_ready f else present) /\
     g_hw_absent f' = negb (g_hw_ready f') /\
     hw_log f' = hw_log f ++ (if g_hw_ready f || g_hw_absent f then []
                              else if present then [Uart1Init; GicEnable UART1_INTID] else []) /\
     (forall present', framing_ensure_hw present' pc f' = Some f') /\
     framing_probe_abort far elr f' = (false, elr, f')) /\
  framing_probe_abort far elr f = (false, elr, f).
Proof.
  intros Hx Hp. split; [|unfold framing_probe_abort; by rewrite Hp].
  unfold framing_ensure_hw. destruct (g_hw_ready f || g_hw_absent f) eqn:E.
  - exists f. rewrite E, app_nil_r. do 3 (split; [done|]).
    split; [by destruct (g_hw_ready f), (g_hw_absent f)|]. split; [done|]. split; [done|].
    unfold framing_probe_abort. by rewrite Hp.
  - apply orb_false_elim in E as [E1 E2]. destruct present.
    + eexists. split; [reflexivity|]. cbn. rewrite E1, E2, <- app_assoc. done.
    + eexists. split; [reflexivity|]. cbn. rewrite E1, app_nil_r. done.
Qed.

Lemma framing_ensure_hw_safe_witness :
  exists f', framing_ensure_hw false 0x40080000
    (MkFraming (MkStats 0 0 0 0) 100 false false false false [] []) = Some f' /\
    g_hw_absent f' = true.
Proof.
  destruct (framing_ensure_hw_safe false 0x40080000
    (MkFraming (MkStats 0 0 0 0) 100 false false false false [] []) 0 0 eq_refl eq_refl)
    as [(f' & Hf & _ & Hr & Ha & _) _].
  exists f'. split; [exact Hf|]. rewrite Ha, Hr. reflexivity.
Defined.

(** While noise keeps arriving the receiver does not look at the deadline. *)
Lemma framing_recv_noise_waits n now ticks f :
  fst (framing_recv now ticks (replicate n (PByte 0x55)) f) = RWaiting.
Proof.
  unfold framing_recv, recv_frame.
  assert (forall dl k, sync_start k dl (replicate n (PByte 0x55)) = Waiting) as ->; [|done].
  intros dl. induction n as [|n IH]; intros [|k]; [done..|]. cbn. apply IH.
Qed.

(** A stray start byte right before a frame swallows the frame's own start. *)
Example sync_start_loses_frame :
  fst (framing_recv 0 100 (map PByte ([0xAA] ++ [0xAA; 2; 0xAA; 0; 0; 0; 0x13; 0xF5]) ++ [PIdle 100])
         (MkFraming (MkStats 0 0 0 0) 100 true false false false [] []))
  = RDone FRAMING_ERR_TIMEOUT None [].
Proof. vm_compute. reflexivity. Qed.

End Framing.
