(* ===== verification/Task.v ===== *)
(** * The task control block (src/src/sched/sched.h, src/src/syscall/elf.h)

    The record of a task with one field per member of [task_t], the record of
    a loaded image, and the field assignments [t->f = v] as functions
    [set_f v t]. *)
From S2P Require Import Prelude PageAlloc Mmu.

Module Task.

(** [elf_region_t] and [elf_image_t] *)
Definition ELF_MAX_REGIONS : Z := 4.
Record elf_region := MkElfRegion { phys : Z; rpages : Z }.
Record elf_image := MkImage { entry : Z; region_count : Z; regions : list elf_region }.
Definition zero_image : elf_image := MkImage 0 0 (replicate 4 (MkElfRegion 0 0)).

Definition TASK_STACK_PAGES : Z := 4.
Definition USER_STACK_PAGES_MAX : Z := 64.
Definition USER_STACK_GROWN_MAX : Z := USER_STACK_PAGES_MAX - Mmu.USER_STACK_PAGES.
Definition PRIO_IDLE : Z := 0.
Definition PRIO_DEFAULT : Z := 8.
Definition PRIO_MAX : Z := 255.

Inductive task_state := TASK_READY | TASK_RUNNING | TASK_SLEEPING | TASK_DEAD | TASK_BLOCKED.
#[global] Instance task_state_eq_dec : EqDecision task_state.
Proof. solve_decision. Defined.

(** Pointers ([fds], [next], [wait_next], [blocked_on]) are addresses, 0 for
    NULL; 8- to 64-bit unsigned members are integers of their width. *)
Record task := MkTask {
  sp : Z;
  pid : Z;
  state : task_state;
  sleep_until : Z;
  stack_phys : Z;
  ttbr0 : Z;
  user_sp : Z;
  kstack_top : Z;
  ustack_phys : Z;
  exec_image : elf_image;
  name : list Z;
  fds : Z;
  next : Z;
  stack_grown_phys : list Z;
  stack_grown_count : Z;
  sig_handlers : list Z;
  sig_pending : Z;
  sig_blocked : Z;
  sig_alarm_ticks : Z;
  priority : Z;
  base_priority : Z;
  rt_period_cyc : Z;
  rt_deadline_cyc : Z;
  rt_next_release : Z;
  rt_release_cyc : Z;
  rt_wcrt_cyc : Z;
  rt_last_resp_cyc : Z;
  rt_activations : Z;
  rt_deadline_misses : Z;
  wait_next : Z;
  blocked_on : Z
}.

(** [sizeof(task_t)] and the state [memset(t, 0, sizeof(task_t))] leaves. *)
Definition SIZEOF_TASK : Z := 1024.
Definition zero_task : task :=
  MkTask 0 0 TASK_READY 0 0 0 0 0 0 zero_image (replicate 16 0) 0 0 (replicate 60 0) 0
    (replicate 32 0) 0 0 0 0 0 0 0 0 0 0 0 0 0 0 0.

(** Field assignments. *)
Definition set_sp (v : Z) (t : task) : task :=
  MkTask v (pid t) (state t) (sleep_until t) (stack_phys t) (ttbr0 t) (user_sp t) (kstack_top t)
    (ustack_phys t) (exec_image t) (name t) (fds t) (next t) (stack_grown_phys t)
    (stack_grown_count t) (sig_handlers t) (sig_pending t) (sig_blocked t) (sig_alarm_ticks t)
    (priority t) (base_priority t) (rt_period_cyc t) (rt_deadline_cyc t) (rt_next_release t)
    (rt_release_cyc t) (rt_wcrt_cyc t) (rt_last_resp_cyc t) (rt_activations t)
    (rt_deadline_misses t) (wait_next t) (blocked_on t).
Definition set_pid (v : Z) (t : task) : task :=
  MkTask (sp t) v (state t) (sleep_until t) (stack_phys t) (ttbr0 t) (user_sp t) (kstack_top t)
    (ustack_phys t) (exec_image t) (name t) (fds t) (next t) (stack_grown_phys t)
    (stack_grown_count t) (sig_handlers t) (sig_pending t) (sig_blocked t) (sig_alarm_ticks t)
    (priority t) (base_priority t) (rt_period_cyc t) (rt_deadline_cyc t) (rt_next_release t)
    (rt_release_cyc t) (rt_wcrt_cyc t) (rt_last_resp_cyc t) (rt_activations t)
    (rt_deadline_misses t) (wait_next t) (blocked_on t).
Definition set_state (v : task_state) (t : task) : task :=
  MkTask (sp t) (pid t) v (sleep_until t) (stack_phys t) (ttbr0 t) (user_sp t) (kstack_top t)
    (ustack_phys t) (exec_image t) (name t) (fds t) (next t) (stack_grown_phys t)
    (stack_grown_count t) (sig_handlers t) (sig_pending t) (sig_blocked t) (sig_alarm_ticks t)
    (priority t) (base_priority t) (rt_period_cyc t) (rt_deadline_cyc t) (rt_next_release t)
    (rt_release_cyc t) (rt_wcrt_cyc t) (rt_last_resp_cyc t) (rt_activations t)
    (rt_deadline_misses t) (wait_next t) (blocked_on t).
Definition set_sleep_until (v : Z) (t : task) : task :=
  MkTask (sp t) (pid t) (state t) v (stack_phys t) (ttbr0 t) (user_sp t) (kstack_top t)
    (ustack_phys t) (exec_image t) (name t) (fds t) (next t) (stack_grown_phys t)
    (stack_grown_count t) (sig_handlers t) (sig_pending t) (sig_blocked t) (sig_alarm_ticks t)
    (priority t) (base_priority t) (rt_period_cyc t) (rt_deadline_cyc t) (rt_next_release t)
    (rt_release_cyc t) (rt_wcrt_cyc t) (rt_last_resp_cyc t) (rt_activations t)
    (rt_deadline_misses t) (wait_next t) (blocked_on t).
Definition set_stack_phys (v : Z) (t : task) : task :=
  MkTask (sp t) (pid t) (state t) (sleep_until t) v (ttbr0 t) (user_sp t) (kstack_top t)
    (ustack_phys t) (exec_image t) (name t) (fds t) (next t) (stack_grown_phys t)
    (stack_grown_count t) (sig_handlers t) (sig_pending t) (sig_blocked t) (sig_alarm_ticks t)
    (priority t) (base_priority t) (rt_period_cyc t) (rt_deadline_cyc t) (rt_next_release t)
    (rt_release_cyc t) (rt_wcrt_cyc t) (rt_last_resp_cyc t) (rt_activations t)
    (rt_deadline_misses t) (wait_next t) (blocked_on t).
Definition set_ttbr0 (v : Z) (t : task) : task :=
  MkTask (sp t) (pid t) (state t) (sleep_until t) (stack_phys t) v (user_sp t) (kstack_top t)
    (ustack_phys t) (exec_image t) (name t) (fds t) (next t) (stack_grown_phys t)
    (stack_grown_count t) (sig_handlers t) (sig_pending t) (sig_blocked t) (sig_alarm_ticks t)
    (priority t) (base_priority t) (rt_period_cyc t) (rt_deadline_cyc t) (rt_next_release t)
    (rt_release_cyc t) (rt_wcrt_cyc t) (rt_last_resp_cyc t) (rt_activations t)
    (rt_deadline_misses t) (wait_next t) (blocked_on t).
Definition set_user_sp (v : Z) (t : task) : task :=
  MkTask (sp t) (pid t) (state t) (sleep_until t) (stack_phys t) (ttbr0 t) v (kstack_top t)
    (ustack_phys t) (exec_image t) (name t) (fds t) (next t) (stack_grown_phys t)
    (stack_grown_count t) (sig_handlers t) (sig_pending t) (sig_blocked t) (sig_alarm_ticks t)
    (priority t) (base_priority t) (rt_period_cyc t) (rt_deadline_cyc t) (rt_next_release t)
    (rt_release_cyc t) (rt_wcrt_cyc t) (rt_last_resp_cyc t) (rt_activations t)
    (rt_deadline_misses t) (wait_next t) (blocked_on t).
Definition set_kstack_top (v : Z) (t : task) : task :=
  MkTask (sp t) (pid t) (state t) (sleep_until t) (stack_phys t) (ttbr0 t) (user_sp t) v
    (ustack_phys t) (exec_image t) (name t) (fds t) (next t) (stack_grown_phys t)
    (stack_grown_count t) (sig_handlers t) (sig_pending t) (sig_blocked t) (sig_alarm_ticks t)
    (priority t) (base_priority t) (rt_period_cyc t) (rt_deadline_cyc t) (rt_next_release t)
    (rt_release_cyc t) (rt_wcrt_cyc t) (rt_last_resp_cyc t) (rt_activations t)
    (rt_deadline_misses t) (wait_next t) (blocked_on t).
Definition set_ustack_phys (v : Z) (t : task) : task :=
  MkTask (sp t) (pid t) (state t) (sleep_until t) (stack_phys t) (ttbr0 t) (user_sp t)
    (kstack_top t) v (exec_image t) (name t) (fds t) (next t) (stack_grown_phys t)
    (stack_grown_count t) (sig_handlers t) (sig_pending t) (sig_blocked t) (sig_alarm_ticks t)
    (priority t) (base_priority t) (rt_period_cyc t) (rt_deadline_cyc t) (rt_next_release t)
    (rt_release_cyc t) (rt_wcrt_cyc t) (rt_last_resp_cyc t) (rt_activations t)
    (rt_deadline_misses t) (wait_next t) (blocked_on t).
Definition set_exec_image (v : elf_image) (t : task) : task :=
  MkTask (sp t) (pid t) (state t) (sleep_until t) (stack_phys t) (ttbr0 t) (user_sp t)
    (kstack_top t) (ustack_phys t) v (name t) (fds t) (next t) (stack_grown_phys t)
    (stack_grown_count t) (sig_handlers t) (sig_pending t) (sig_blocked t) (sig_alarm_ticks t)
    (priority t) (base_priority t) (rt_period_cyc t) (rt_deadline_cyc t) (rt_next_release t)
    (rt_release_cyc t) (rt_wcrt_cyc t) (rt_last_resp_cyc t) (rt_activations t)
    (rt_deadline_misses t) (wait_next t) (blocked_on t).
Definition set_name (v : list Z) (t : task) : task :=
  MkTask (sp t) (pid t) (state t) (sleep_until t) (stack_phys t) (ttbr0 t) (user_sp t)
    (kstack_top t) (ustack_phys t) (exec_image t) v (fds t) (next t) (stack_grown_phys t)
    (stack_grown_count t) (sig_handlers t) (sig_pending t) (sig_blocked t) (sig_alarm_ticks t)
    (priority t) (base_priority t) (rt_period_cyc t) (rt_deadline_cyc t) (rt_next_release t)
    (rt_release_cyc t) (rt_wcrt_cyc t) (rt_last_resp_cyc t) (rt_activations t)
    (rt_deadline_misses t) (wait_next t) (blocked_on t).
Definition set_fds (v : Z) (t : task) : task :=
  MkTask (sp t) (pid t) (state t) (sleep_until t) (stack_phys t) (ttbr0 t) (user_sp t)
    (kstack_top t) (ustack_phys t) (exec_image t) (name t) v (next t) (stack_grown_phys t)
    (stack_grown_count t) (sig_handlers t) (sig_pending t) (sig_blocked t) (sig_alarm_ticks t)
    (priority t) (base_priority t) (rt_period_cyc t) (rt_deadline_cyc t) (rt_next_release t)
    (rt_release_cyc t) (rt_wcrt_cyc t) (rt_last_resp_cyc t) (rt_activations t)
    (rt_deadline_misses t) (wait_next t) (blocked_on t).
Definition set_next (v : Z) (t : task) : task :=
  MkTask (sp t) (pid t) (state t) (sleep_until t) (stack_phys t) (ttbr0 t) (user_sp t)
    (kstack_top t) (ustack_phys t) (exec_image t) (name t) (fds t) v (stack_grown_phys t)
    (stack_grown_count t) (sig_handlers t) (sig_pending t) (sig_blocked t) (sig_alarm_ticks t)
    (priority t) (base_priority t) (rt_period_cyc t) (rt_deadline_cyc t) (rt_next_release t)
    (rt_release_cyc t) (rt_wcrt_cyc t) (rt_last_resp_cyc t) (rt_activations t)
    (rt_deadline_misses t) (wait_next t) (blocked_on t).
Definition set_stack_grown_phys (v : list Z) (t : task) : task :=
  MkTask (sp t) (pid t) (state t) (sleep_until t) (stack_phys t) (ttbr0 t) (user_sp t)
    (kstack_top t) (ustack_phys t) (exec_image t) (name t) (fds t) (next t) v
    (stack_grown_count t) (sig_handlers t) (sig_pending t) (sig_blocked t) (sig_alarm_ticks t)
    (priority t) (base_priority t) (rt_period_cyc t) (rt_deadline_cyc t) (rt_next_release t)
    (rt_release_cyc t) (rt_wcrt_cyc t) (rt_last_resp_cyc t) (rt_activations t)
    (rt_deadline_misses t) (wait_next t) (blocked_on t).
Definition set_stack_grown_count (v : Z) (t : task) : task :=
  MkTask (sp t) (pid t) (state t) (sleep_until t) (stack_phys t) (ttbr0 t) (user_sp t)
    (kstack_top t) (ustack_phys t) (exec_image t) (name t) (fds t) (next t) (stack_grown_phys t) v
    (sig_handlers t) (sig_pending t) (sig_blocked t) (sig_alarm_ticks t) (priority t)
    (base_priority t) (rt_period_cyc t) (rt_deadline_cyc t) (rt_next_release t) (rt_release_cyc t)
    (rt_wcrt_cyc t) (rt_last_resp_cyc t) (rt_activations t) (rt_deadline_misses t) (wait_next t)
    (blocked_on t).
Definition set_sig_handlers (v : list Z) (t : task) : task :=
  MkTask (sp t) (pid t) (state t) (sleep_until t) (stack_phys t) (ttbr0 t) (user_sp t)
    (kstack_top t) (ustack_phys t) (exec_image t) (name t) (fds t) (next t) (stack_grown_phys t)
    (stack_grown_count t) v (sig_pending t) (sig_blocked t) (sig_alarm_ticks t) (priority t)
    (base_priority t) (rt_period_cyc t) (rt_deadline_cyc t) (rt_next_release t) (rt_release_cyc t)
    (rt_wcrt_cyc t) (rt_last_resp_cyc t) (rt_activations t) (rt_deadline_misses t) (wait_next t)
    (blocked_on t).
Definition set_sig_pending (v : Z) (t : task) : task :=
  MkTask (sp t) (pid t) (state t) (sleep_until t) (stack_phys t) (ttbr0 t) (user_sp t)
    (kstack_top t) (ustack_phys t) (exec_image t) (name t) (fds t) (next t) (stack_grown_phys t)
    (stack_grown_count t) (sig_handlers t) v (sig_blocked t) (sig_alarm_ticks t) (priority t)
    (base_priority t) (rt_period_cyc t) (rt_deadline_cyc t) (rt_next_release t) (rt_release_cyc t)
    (rt_wcrt_cyc t) (rt_last_resp_cyc t) (rt_activations t) (rt_deadline_misses t) (wait_next t)
    (blocked_on t).
Definition set_sig_blocked (v : Z) (t : task) : task :=
  MkTask (sp t) (pid t) (state t) (sleep_until t) (stack_phys t) (ttbr0 t) (user_sp t)
    (kstack_top t) (ustack_phys t) (exec_image t) (name t) (fds t) (next t) (stack_grown_phys t)
    (stack_grown_count t) (sig_handlers t) (sig_pending t) v (sig_alarm_ticks t) (priority t)
    (base_priority t) (rt_period_cyc t) (rt_deadline_cyc t) (rt_next_release t) (rt_release_cyc t)
    (rt_wcrt_cyc t) (rt_last_resp_cyc t) (rt_activations t) (rt_deadline_misses t) (wait_next t)
    (blocked_on t).
Definition set_sig_alarm_ticks (v : Z) (t : task) : task :=
  MkTask (sp t) (pid t) (state t) (sleep_until t) (stack_phys t) (ttbr0 t) (user_sp t)
    (kstack_top t) (ustack_phys t) (exec_image t) (name t) (fds t) (next t) (stack_grown_phys t)
    (stack_grown_count t) (sig_handlers t) (sig_pending t) (sig_blocked t) v (priority t)
    (base_priority t) (rt_period_cyc t) (rt_deadline_cyc t) (rt_next_release t) (rt_release_cyc t)
    (rt_wcrt_cyc t) (rt_last_resp_cyc t) (rt_activations t) (rt_deadline_misses t) (wait_next t)
    (blocked_on t).
Definition set_priority (v : Z) (t : task) : task :=
  MkTask (sp t) (pid t) (state t) (sleep_until t) (stack_phys t) (ttbr0 t) (user_sp t)
    (kstack_top t) (ustack_phys t) (exec_image t) (name t) (fds t) (next t) (stack_grown_phys t)
    (stack_grown_count t) (sig_handlers t) (sig_pending t) (sig_blocked t) (sig_alarm_ticks t) v
    (base_priority t) (rt_period_cyc t) (rt_deadline_cyc t) (rt_next_release t) (rt_release_cyc t)
    (rt_wcrt_cyc t) (rt_last_resp_cyc t) (rt_activations t) (rt_deadline_misses t) (wait_next t)
    (blocked_on t).
Definition set_base_priority (v : Z) (t : task) : task :=
  MkTask (sp t) (pid t) (state t) (sleep_until t) (stack_phys t) (ttbr0 t) (user_sp t)
    (kstack_top t) (ustack_phys t) (exec_image t) (name t) (fds t) (next t) (stack_grown_phys t)
    (stack_grown_count t) (sig_handlers t) (sig_pending t) (sig_blocked t) (sig_alarm_ticks t)
    (priority t) v (rt_period_cyc t) (rt_deadline_cyc t) (rt_next_release t) (rt_release_cyc t)
    (rt_wcrt_cyc t) (rt_last_resp_cyc t) (rt_activations t) (rt_deadline_misses t) (wait_next t)
    (blocked_on t).
Definition set_rt_period_cyc (v : Z) (t : task) : task :=
  MkTask (sp t) (pid t) (state t) (sleep_until t) (stack_phys t) (ttbr0 t) (user_sp t)
    (kstack_top t) (ustack_phys t) (exec_image t) (name t) (fds t) (next t) (stack_grown_phys t)
    (stack_grown_count t) (sig_handlers t) (sig_pending t) (sig_blocked t) (sig_alarm_ticks t)
    (priority t) (base_priority t) v (rt_deadline_cyc t) (rt_next_release t) (rt_release_cyc t)
    (rt_wcrt_cyc t) (rt_last_resp_cyc t) (rt_activations t) (rt_deadline_misses t) (wait_next t)
    (blocked_on t).
Definition set_rt_deadline_cyc (v : Z) (t : task) : task :=
  MkTask (sp t) (pid t) (state t) (sleep_until t) (stack_phys t) (ttbr0 t) (user_sp t)
    (kstack_top t) (ustack_phys t) (exec_image t) (name t) (fds t) (next t) (stack_grown_phys t)
    (stack_grown_count t) (sig_handlers t) (sig_pending t) (sig_blocked t) (sig_alarm_ticks t)
    (priority t) (base_priority t) (rt_period_cyc t) v (rt_next_release t) (rt_release_cyc t)
    (rt_wcrt_cyc t) (rt_last_resp_cyc t) (rt_activations t) (rt_deadline_misses t) (wait_next t)
    (blocked_on t).
Definition set_rt_next_release (v : Z) (t : task) : task :=
  MkTask (sp t) (pid t) (state t) (sleep_until t) (stack_phys t) (ttbr0 t) (user_sp t)
    (kstack_top t) (ustack_phys t) (exec_image t) (name t) (fds t) (next t) (stack_grown_phys t)
    (stack_grown_count t) (sig_handlers t) (sig_pending t) (sig_blocked t) (sig_alarm_ticks t)
    (priority t) (base_priority t) (rt_period_cyc t) (rt_deadline_cyc t) v (rt_release_cyc t)
    (rt_wcrt_cyc t) (rt_last_resp_cyc t) (rt_activations t) (rt_deadline_misses t) (wait_next t)
    (blocked_on t).
Definition set_rt_release_cyc (v : Z) (t : task) : task :=
  MkTask (sp t) (pid t) (state t) (sleep_until t) (stack_phys t) (ttbr0 t) (user_sp t)
    (kstack_top t) (ustack_phys t) (exec_image t) (name t) (fds t) (next t) (stack_grown_phys t)
    (stack_grown_count t) (sig_handlers t) (sig_pending t) (sig_blocked t) (sig_alarm_ticks t)
    (priority t) (base_priority t) (rt_period_cyc t) (rt_deadline_cyc t) (rt_next_release t) v
    (rt_wcrt_cyc t) (rt_last_resp_cyc t) (rt_activations t) (rt_deadline_misses t) (wait_next t)
    (blocked_on t).
Definition set_rt_wcrt_cyc (v : Z) (t : task) : task :=
  MkTask (sp t) (pid t) (state t) (sleep_until t) (stack_phys t) (ttbr0 t) (user_sp t)
    (kstack_top t) (ustack_phys t) (exec_image t) (name t) (fds t) (next t) (stack_grown_phys t)
    (stack_grown_count t) (sig_handlers t) (sig_pending t) (sig_blocked t) (sig_alarm_ticks t)
    (priority t) (base_priority t) (rt_period_cyc t) (rt_deadline_cyc t) (rt_next_release t)
    (rt_release_cyc t) v (rt_last_resp_cyc t) (rt_activations t) (rt_deadline_misses t)
    (wait_next t) (blocked_on t).
Definition set_rt_last_resp_cyc (v : Z) (t : task) : task :=
  MkTask (sp t) (pid t) (state t) (sleep_until t) (stack_phys t) (ttbr0 t) (user_sp t)
    (kstack_top t) (ustack_phys t) (exec_image t) (name t) (fds t) (next t) (stack_grown_phys t)
    (stack_grown_count t) (sig_handlers t) (sig_pending t) (sig_blocked t) (sig_alarm_ticks t)
    (priority t) (base_priority t) (rt_period_cyc t) (rt_deadline_cyc t) (rt_next_release t)
    (rt_release_cyc t) (rt_wcrt_cyc t) v (rt_activations t) (rt_deadline_misses t) (wait_next t)
    (blocked_on t).
Definition set_rt_activations (v : Z) (t : task) : task :=
  MkTask (sp t) (pid t) (state t) (sleep_until t) (stack_phys t) (ttbr0 t) (user_sp t)
    (kstack_top t) (ustack_phys t) (exec_image t) (name t) (fds t) (next t) (stack_grown_phys t)
    (stack_grown_count t) (sig_handlers t) (sig_pending t) (sig_blocked t) (sig_alarm_ticks t)
    (priority t) (base_priority t) (rt_period_cyc t) (rt_deadline_cyc t) (rt_next_release t)
    (rt_release_cyc t) (rt_wcrt_cyc t) (rt_last_resp_cyc t) v (rt_deadline_misses t) (wait_next t)
    (blocked_on t).
Definition set_rt_deadline_misses (v : Z) (t : task) : task :=
  MkTask (sp t) (pid t) (state t) (sleep_until t) (stack_phys t) (ttbr0 t) (user_sp t)
    (kstack_top t) (ustack_phys t) (exec_image t) (name t) (fds t) (next t) (stack_grown_phys t)
    (stack_grown_count t) (sig_handlers t) (sig_pending t) (sig_blocked t) (sig_alarm_ticks t)
    (priority t) (base_priority t) (rt_period_cyc t) (rt_deadline_cyc t) (rt_next_release t)
    (rt_release_cyc t) (rt_wcrt_cyc t) (rt_last_resp_cyc t) (rt_activations t) v (wait_next t)
    (blocked_on t).
Definition set_wait_next (v : Z) (t : task) : task :=
  MkTask (sp t) (pid t) (state t) (sleep_until t) (stack_phys t) (ttbr0 t) (user_sp t)
    (kstack_top t) (ustack_phys t) (exec_image t) (name t) (fds t) (next t) (stack_grown_phys t)
    (stack_grown_count t) (sig_handlers t) (sig_pending t) (sig_blocked t) (sig_alarm_ticks t)
    (priority t) (base_priority t) (rt_period_cyc t) (rt_deadline_cyc t) (rt_next_release t)
    (rt_release_cyc t) (rt_wcrt_cyc t) (rt_last_resp_cyc t) (rt_activations t)
    (rt_deadline_misses t) v (blocked_on t).
Definition set_blocked_on (v : Z) (t : task) : task :=
  MkTask (sp t) (pid t) (state t) (sleep_until t) (stack_phys t) (ttbr0 t) (user_sp t)
    (kstack_top t) (ustack_phys t) (exec_image t) (name t) (fds t) (next t) (stack_grown_phys t)
    (stack_grown_count t) (sig_handlers t) (sig_pending t) (sig_blocked t) (sig_alarm_ticks t)
    (priority t) (base_priority t) (rt_period_cyc t) (rt_deadline_cyc t) (rt_next_release t)
    (rt_release_cyc t) (rt_wcrt_cyc t) (rt_last_resp_cyc t) (rt_activations t)
    (rt_deadline_misses t) (wait_next t) v.

End Task.
