(* ===== verification/TaskEnv.v ===== *)
(** * The interface of the task layer to the rest of the kernel

    What the scheduler (src/src/sched/sched.c) uses of the heap, the page
    allocator, the translation tables, the fd tables, the memory reached
    through the upper-half alias and the timer.  The operations are those the
    code calls.  The laws are stated with a ledger of the resources that are
    handed out: an operation adds to the ledger what it returns and takes from
    it what it is given back, so a client that keeps its own account of what it
    holds can neither leak nor free twice. *)
From S2P Require Import Prelude PageAlloc Heap Mmu.
From AAC_tactics Require Import AAC.
#[local] Open Scope Z_scope.

(** Live heap blocks, runs of pages (address, number of pages), roots of user
    address spaces, fd tables. *)
Record res := MkRes {
  r_blocks : list Z;
  r_runs : list (Z * Z);
  r_spaces : list Z;
  r_fds : list Z
}.

Definition res0 : res := MkRes [] [] [] [].
Definition res_app (r q : res) : res :=
  MkRes (r_blocks r ++ r_blocks q) (r_runs r ++ r_runs q) (r_spaces r ++ r_spaces q)
        (r_fds r ++ r_fds q).

(** Equality of ledgers up to the order of the entries. *)
#[global] Instance res_equiv : Equiv res := fun r q =>
  r_blocks r ≡ₚ r_blocks q /\ r_runs r ≡ₚ r_runs q /\
  r_spaces r ≡ₚ r_spaces q /\ r_fds r ≡ₚ r_fds q.
#[global] Instance res_equivalence : Equivalence (≡@{res}).
Proof.
  split.
  - intros r. by repeat split.
  - intros r q (? & ? & ? & ?). repeat split; by symmetry.
  - intros r q p (? & ? & ? & ?) (? & ? & ? & ?). repeat split; by etransitivity.
Qed.
#[global] Instance res_app_proper : Proper ((≡) ==> (≡) ==> (≡)) res_app.
Proof.
  intros r r' (? & ? & ? & ?) q q' (? & ? & ? & ?). repeat split; by apply Permutation_app.
Qed.
Lemma res_app_comm r q : res_app r q ≡ res_app q r.
Proof. repeat split; apply Permutation_app_comm. Qed.
Lemma res_app_assoc r q p : res_app (res_app r q) p ≡ res_app r (res_app q p).
Proof. repeat split; cbn [res_app r_blocks r_runs r_spaces r_fds]; by rewrite app_assoc. Qed.
Lemma res_app_0 r : res_app res0 r ≡ r.
Proof. by destruct r. Qed.
Lemma res_app_0_r r : res_app r res0 ≡ r.
Proof. rewrite res_app_comm. apply res_app_0. Qed.

(** Ledgers are a commutative monoid: [aac_reflexivity] proves rearrangements. *)
#[global] Instance res_associative : Associative (≡) res_app.
Proof. intros r q p. symmetry. apply res_app_assoc. Qed.
#[global] Instance res_commutative : Commutative (≡) res_app.
Proof. intros r q. apply res_app_comm. Qed.
#[global] Instance res_neutral : Unit (≡) res_app res0.
Proof. split; [apply res_app_0|apply res_app_0_r]. Qed.
#[global] Instance res_lift : AAC_lift (≡@{res}) (≡@{res}).
Proof. split; apply _. Qed.
Infix "⋆" := res_app (at level 50, left associativity) : kernel_scope.

Definition hblock (p : Z) : res := MkRes [p] [] [] [].
Definition run (a n : Z) : res := MkRes [] [(a, n)] [] [].
Definition space (l0 : Z) : res := MkRes [] [] [l0] [].
Definition fdt (p : Z) : res := MkRes [] [] [] [p].

Notation KERNEL_VA_OFFSET := Heap.KERNEL_VA_OFFSET.
Notation PHYS_TO_VIRT := Heap.PHYS_TO_VIRT.
Definition VIRT_TO_PHYS (a : Z) : Z := u64 (a - KERNEL_VA_OFFSET).

(** [va .. va + n) lies in the upper-half alias of the run [(a, k)]. *)
Definition in_run (va n : Z) (r : Z * Z) : Prop :=
  r.1 + KERNEL_VA_OFFSET <= va /\ va + n <= r.1 + KERNEL_VA_OFFSET + r.2 * PAGE_SIZE.

Class TaskEnv (E : Type) := {
  te_kmalloc : Z -> E -> Z * E;
  te_kfree : Z -> E -> E;
  te_alloc_page : E -> Z * E;
  te_alloc_pages : Z -> E -> Z * E;
  te_free_page : Z -> E -> E;
  te_free_pages : Z -> Z -> E -> E;
  te_create_tables : E -> Z * E;
  te_map_user : Z -> Z -> Z -> Z -> Z -> E -> E;
  te_free_tables : Z -> E -> E;
  te_fd_create : E -> Z * E;
  te_fd_open : Z -> list Z -> E -> Z * E;
  te_fd_destroy : Z -> E -> E;
  (** memory through the upper half: zero [n] bytes, copy [n] bytes, store a
      64-bit word *)
  te_zero : Z -> Z -> E -> E;
  te_copy : Z -> Z -> Z -> E -> E;
  te_store : Z -> Z -> E -> E;
  (** [timer_get_ticks], [timer_get_count] and [timer_get_frequency] *)
  te_ticks : E -> Z;
  te_count : E -> Z;
  te_freq : E -> Z;
  te_ok : res -> E -> Prop
}.

Class TaskEnvLaws (E : Type) `{TaskEnv E} := {
  te_ok_proper r q e : r ≡ q -> te_ok r e -> te_ok q e;
  te_blocks_ok r e : te_ok r e -> NoDup (r_blocks r) /\ 0 ∉ r_blocks r;
  te_kmalloc_law r n e p e' :
    te_ok r e -> 0 < n < 2 ^ 32 -> te_kmalloc n e = (p, e') ->
    (p = 0 /\ te_ok r e') \/ (p <> 0 /\ te_ok (hblock p ⋆ r) e');
  te_kfree_law r p e : te_ok (hblock p ⋆ r) e -> te_ok r (te_kfree p e);
  te_alloc_page_law r e a e' :
    te_ok r e -> te_alloc_page e = (a, e') ->
    (a = 0 /\ te_ok r e') \/ (run_ok a 1 /\ te_ok (run a 1 ⋆ r) e');
  te_alloc_pages_law r n e a e' :
    te_ok r e -> 0 < n < 2 ^ 32 -> te_alloc_pages n e = (a, e') ->
    (a = 0 /\ te_ok r e') \/ (run_ok a n /\ te_ok (run a n ⋆ r) e');
  te_alloc_zero_law e : te_alloc_pages 0 e = (0, e);
  te_free_page_law r a e : te_ok (run a 1 ⋆ r) e -> te_ok r (te_free_page a e);
  te_free_pages_law r a n e : te_ok (run a n ⋆ r) e -> te_ok r (te_free_pages a n e);
  te_create_tables_law r e l0 e' :
    te_ok r e -> te_create_tables e = (l0, e') ->
    (l0 = 0 /\ te_ok r e') \/ (run_ok l0 1 /\ te_ok (space l0 ⋆ r) e');
  te_map_user_law r l0 va pa n flags e :
    te_ok r e -> l0 ∈ r_spaces r ->
    0 <= va -> va mod PAGE_SIZE = 0 -> 0 <= n -> va + n * PAGE_SIZE <= 2 ^ 48 ->
    0 <= pa -> pa mod PAGE_SIZE = 0 -> pa + n * PAGE_SIZE <= 2 ^ 48 ->
    flags .& Mmu.PTE_ADDR_MASK = 0 ->
    te_ok r (te_map_user l0 va pa n flags e);
  te_free_tables_law r l0 e : te_ok (space l0 ⋆ r) e -> te_ok r (te_free_tables l0 e);
  te_fd_create_law r e p e' :
    te_ok r e -> te_fd_create e = (p, e') ->
    (p = 0 /\ te_ok r e') \/ (p <> 0 /\ te_ok (fdt p ⋆ r) e');
  te_fd_open_law r p path e : te_ok r e -> p ∈ r_fds r -> te_ok r (te_fd_open p path e).2;
  te_fd_destroy_law r p e : te_ok (fdt p ⋆ r) e -> te_ok r (te_fd_destroy p e);
  te_zero_law r x va n e :
    te_ok r e -> x ∈ r_runs r -> 0 <= n -> in_run va n x -> te_ok r (te_zero va n e);
  te_copy_law r x dst src n e :
    te_ok r e -> x ∈ r_runs r -> 0 <= n -> in_run dst n x -> te_ok r (te_copy dst src n e);
  te_store_law r x va v e :
    te_ok r e -> x ∈ r_runs r -> in_run va 8 x -> va mod 8 = 0 -> te_ok r (te_store va v e)
}.

#[global] Instance te_ok_iff {E} `{TaskEnvLaws E} : Proper ((≡) ==> eq ==> iff) te_ok.
Proof.
  intros r q Hrq e ? <-. split; apply te_ok_proper; [done|by symmetry].
Qed.
