(* ===== verification/BumpEnv.v ===== *)
(** * A concrete environment

    Addresses are handed out upwards and never reused; it satisfies the
    interface, so the hypotheses of the theorems can be met. *)
From S2P Require Import Prelude PageAlloc Heap Mmu TaskEnv.
#[local] Open Scope Z_scope.

Record bump := MkBump { brk : Z; pbrk : Z; tick : Z; bcount : Z; bfreq : Z }.
Definition bump_block (e : bump) : Z * bump :=
  if brk e <? 2 ^ 40 then (brk e, MkBump (brk e + 16) (pbrk e) (tick e) (bcount e) (bfreq e)) else (0, e).
Definition bump_pages (n : Z) (e : bump) : Z * bump :=
  if (0 <? n) && (pbrk e + n * PAGE_SIZE <? 2 ^ 47)
  then (pbrk e, MkBump (brk e) (pbrk e + n * PAGE_SIZE) (tick e) (bcount e) (bfreq e)) else (0, e).

#[global] Instance bump_env : TaskEnv bump := {
  te_kmalloc _ := bump_block;
  te_kfree _ e := e;
  te_alloc_page := bump_pages 1;
  te_alloc_pages := bump_pages;
  te_free_page _ e := e;
  te_free_pages _ _ e := e;
  te_create_tables := bump_pages 1;
  te_map_user _ _ _ _ _ e := e;
  te_free_tables _ e := e;
  te_fd_create := bump_block;
  te_fd_open _ _ e := (0, e);
  te_fd_destroy _ e := e;
  te_zero _ _ e := e;
  te_copy _ _ _ e := e;
  te_store _ _ e := e;
  te_ticks := tick;
  te_count := bcount;
  te_freq := bfreq;
  te_ok r e := NoDup (r_blocks r) /\ Forall (fun b => 16 <= b < brk e) (r_blocks r) /\
               16 <= brk e /\ 4096 <= pbrk e /\ pbrk e mod 4096 = 0
}.

Lemma bump_block_ok e p e' : bump_block e = (p, e') -> 16 <= brk e ->
  (p = 0 /\ e' = e) \/ (p = brk e /\ e' = MkBump (brk e + 16) (pbrk e) (tick e) (bcount e) (bfreq e)).
Proof. unfold bump_block. case_if; intros [= <- <-] ?; [right|left]; done. Qed.
Lemma bump_pages_ok n e a e' : bump_pages n e = (a, e') -> 4096 <= pbrk e -> pbrk e mod 4096 = 0 -> 0 < n ->
  (a = 0 /\ e' = e) \/
  (run_ok a n /\ brk e' = brk e /\ 4096 <= pbrk e' /\ pbrk e' mod 4096 = 0).
Proof.
  unfold bump_pages, run_ok, PAGE_SIZE. case_if; intros [= <- <-] ? ? ?; [right|by left]. cbn [brk pbrk].
  split; [lia|]. split; [done|]. split; [lia|]. dlia.
Qed.

#[global] Instance bump_laws : TaskEnvLaws bump.
Proof.
  constructor; cbn [te_ok te_kmalloc te_kfree te_alloc_page te_alloc_pages te_free_page te_free_pages
    te_create_tables te_map_user te_free_tables te_fd_create te_fd_open te_fd_destroy te_zero te_copy
    te_store bump_env r_blocks res_app hblock run space fdt app snd]; try (by intros; auto).
  - intros r q e (HP & _) (Hnd & HF & ?). rewrite <- HP. done.
  - intros r e (Hnd & HF & ?). split; [done|]. intros Hin. rewrite Forall_forall in HF. specialize (HF 0 Hin). lia.
  - intros r n e p e' (Hnd & HF & Hb & ? & ?) _ Hk. apply bump_block_ok in Hk as [[-> ->]|[-> ->]]; [by left|right|done].
    split; [lia|]. cbn [brk pbrk]. repeat split; try lia; try done.
    + constructor; [|done]. intros Hin. rewrite Forall_forall in HF. specialize (HF _ Hin). lia.
    + constructor; [lia|]. eapply Forall_impl; [exact HF|]. cbn. lia.
  - intros r p e (Hnd & HF & ?). apply NoDup_cons in Hnd as [_ Hnd]. apply Forall_cons in HF as [_ HF]. done.
  - intros r e a e' (Hnd & HF & Hb & Hp1 & Hp2) Hk.
    apply bump_pages_ok in Hk as [[-> ->]|(Hr & Hb' & ?)]; [by left|right|done|done|done]. by rewrite Hb'.
  - intros r n e a e' (Hnd & HF & Hb & Hp1 & Hp2) Hn Hk.
    apply bump_pages_ok in Hk as [[-> ->]|(Hr & Hb' & ?)]; [by left|right|done|done|lia]. by rewrite Hb'.
  - intros r e a e' (Hnd & HF & Hb & Hp1 & Hp2) Hk.
    apply bump_pages_ok in Hk as [[-> ->]|(Hr & Hb' & ?)]; [by left|right|done|done|done]. by rewrite Hb'.
  - intros r e p e' (Hnd & HF & Hb & ? & ?) Hk. apply bump_block_ok in Hk as [[-> ->]|[-> ->]]; [by left|right|done].
    split; [lia|]. cbn [brk pbrk]. repeat split; try lia; try done.
    eapply Forall_impl; [exact HF|]. cbn. lia.
Qed.

