(* ===== verification/Sched.v ===== *)
(** * The scheduler (src/src/sched/sched.c)

    Tasks live in a store [tasks] keyed by the address of their [task_t]; the
    run queue is the circular list through [next], the reaper list the list
    through [next] from [dead_list].  A pointer walk of the code is a function
    with fuel [fuel s], one more than the number of tasks, which the invariant
    shows to be enough.  The resources of a task come from any [TaskEnv].
    Console output, IRQ masking and TLB maintenance are not modelled;
    [context_switch] is the change of [current]: the code after a call of
    [schedule] runs when the task is selected again. *)
From S2P Require Import Prelude PageAlloc Heap Mmu Task TaskEnv.
From stdpp Require Import strings.
#[local] Open Scope Z_scope.

Module Sched.
Export Task.

(** A C string constant as the list of its characters. *)
Definition cstr (s : string) : list Z :=
  (fun c => Z.of_N (Ascii.N_of_ascii c)) <$> String.list_ascii_of_string s.

(** Addresses fixed by the linker: the bounds of the text exposed to EL0, the
    entry points of switch.S and the static [idle_task]. *)
Class Layout := {
  text_start : Z;
  user_text_end : Z;
  task_trampoline : Z;
  kernel_task_trampoline : Z;
  fork_return : Z;
  IDLE : Z
}.

Definition TIMER_INTERVAL_MS : Z := 10.

(** ** State: the statics of sched.c *)
Record sched (E : Type) := MkSched {
  tasks : gmap Z task;
  current : Z;
  next_pid : Z;
  dead_list : Z;
  next_asid : Z;
  env : E
}.
Arguments MkSched {E}. Arguments tasks {E}. Arguments current {E}. Arguments next_pid {E}.
Arguments dead_list {E}. Arguments next_asid {E}. Arguments env {E}.

(** [*t] *)
Definition task_at (T : gmap Z task) (a : Z) : task := default zero_task (T !! a).
(** [t->f = v], with [f] a field assignment *)
Definition upd (T : gmap Z task) (a : Z) (f : task -> task) : gmap Z task :=
  <[a := f (task_at T a)]> T.

Definition is_state (st : task_state) (t : task) : bool := bool_decide (state t = st).

(** [copy_name(dst, src)]: at most 15 characters, [src] a C string *)
Fixpoint copy_name_loop (n : nat) (i : Z) (dst src : list Z) : list Z :=
  match n with
  | O => dst
  | S n' =>
      if rd src i =? 0 then dst
      else copy_name_loop n' (i + 1) (wr dst i (rd src i)) src
  end.
Definition copy_name (dst src : list Z) : list Z := copy_name_loop 15 0 dst src.

(** [nlen] of sched_fork *)
Fixpoint name_len (n : nat) (i : Z) (nm : list Z) : Z :=
  match n with
  | O => i
  | S n' => if rd nm i =? 0 then i else name_len n' (i + 1) nm
  end.
Definition fork_name (parent_name : list Z) : list Z :=
  let nm := copy_name (replicate 16 0) parent_name in
  let nlen := name_len 16 0 nm in
  if nlen + 2 <? 16 then wr (wr (wr nm nlen 43) (nlen + 1) 102) (nlen + 2) 0 else nm.

Section ops.
Context {E : Type} `{TaskEnv E} `{Layout}.

Definition set_tasks (s : sched E) (T : gmap Z task) : sched E :=
  MkSched T (current s) (next_pid s) (dead_list s) (next_asid s) (env s).
Definition set_current (s : sched E) (a : Z) : sched E :=
  MkSched (tasks s) a (next_pid s) (dead_list s) (next_asid s) (env s).
Definition set_next_pid (s : sched E) (p : Z) : sched E :=
  MkSched (tasks s) (current s) p (dead_list s) (next_asid s) (env s).
Definition set_dead_list (s : sched E) (a : Z) : sched E :=
  MkSched (tasks s) (current s) (next_pid s) a (next_asid s) (env s).
Definition set_next_asid (s : sched E) (a : Z) : sched E :=
  MkSched (tasks s) (current s) (next_pid s) (dead_list s) a (env s).
Definition set_env (s : sched E) (e : E) : sched E :=
  MkSched (tasks s) (current s) (next_pid s) (dead_list s) (next_asid s) e.

Definition get (s : sched E) (a : Z) : task := task_at (tasks s) a.
Definition put (s : sched E) (a : Z) (f : task -> task) : sched E :=
  set_tasks s (upd (tasks s) a f).
Definition fuel (s : sched E) : nat := S (size (tasks s)).

(** The task whose [next] is [stop], walking from [t]. *)
Fixpoint find_pred (n : nat) (T : gmap Z task) (stop t : Z) : Z :=
  match n with
  | O => t
  | S n' => if next (task_at T t) =? stop then t else find_pred n' T stop (next (task_at T t))
  end.

(** ** ASIDs *)
Definition sched_asid_alloc (s : sched E) : Z * sched E :=
  let a := next_asid s in
  let n := u16 (next_asid s + 1) in
  (a, set_next_asid s (if n =? 0 then 1 else n)).

(** ** Demand-paged stack growth *)
Definition STACK_FLAGS : Z :=
  Mmu.PTE_ATTRIDX 1 .| Mmu.PTE_AP_RW_EL0 .| Mmu.PTE_UXN .| Mmu.PTE_PXN.
Definition sched_try_grow_stack (t far : Z) (s : sched E) : Z * sched E :=
  if (t =? 0) || (ttbr0 (get s t) =? 0) then (0, s)
  else
    let stack_max_lo := u64 (Mmu.USER_STACK_TOP - USER_STACK_PAGES_MAX * PAGE_SIZE) in
    let stack_initial_lo := u64 (Mmu.USER_STACK_TOP - Mmu.USER_STACK_PAGES * PAGE_SIZE) in
    if (far <? stack_max_lo) || (stack_initial_lo <=? far) then (0, s)
    else if USER_STACK_GROWN_MAX <=? stack_grown_count (get s t) then (0, s)
    else
      let '(pa, e) := te_alloc_page (env s) in
      if pa =? 0 then (0, set_env s e)
      else
        let e := te_zero (PHYS_TO_VIRT pa) PAGE_SIZE e in
        let va := far .& unot 64 (PAGE_SIZE - 1) in
        let l0 := Mmu.ttbr_baddr (ttbr0 (get s t)) in
        let e := te_map_user l0 va pa 1 STACK_FLAGS e in
        let k := stack_grown_count (get s t) in
        let s := set_env s e in
        let s := put s t (fun tk => set_stack_grown_phys (wr (stack_grown_phys tk) k pa) tk) in
        (1, put s t (set_stack_grown_count (u16 (k + 1)))).

(** ** Creation *)
Definition sched_first_task : Z := IDLE.

Definition sched_init (s : sched E) : sched E :=
  let p := next_pid s in
  let t := set_pid p zero_task in
  let t := set_state TASK_READY t in
  let t := set_stack_phys 0 t in
  let t := set_next IDLE t in
  let t := set_name (copy_name (name t) (cstr "idle")) t in
  let s := set_next_pid s (u64 (p + 1)) in
  set_current (set_tasks s (<[IDLE := t]> (tasks s))) IDLE.

(** Insertion of [t] at the tail of the run queue, before [current]. *)
Definition enqueue (t : Z) (s : sched E) : sched E :=
  let tail := find_pred (fuel s) (tasks s) (current s) (current s) in
  let s := put s tail (set_next t) in
  put s t (set_next (current s)).

(** The first frame of [context_switch]: x19, x20 and x30 (lr). *)
Definition store_frame (frame x19 x20 lr : Z) (e : E) : E :=
  let e := te_store frame x19 e in
  let e := te_store (u64 (frame + 8)) x20 e in
  te_store (u64 (frame + 88)) lr e.

Definition new_task : task :=
  set_priority PRIO_DEFAULT (set_base_priority PRIO_DEFAULT zero_task).

Definition sched_create_kernel_task (nm : list Z) (entry : Z) (s : sched E) : Z * sched E :=
  let '(t, e) := te_kmalloc SIZEOF_TASK (env s) in
  if t =? 0 then (-1, set_env s e)
  else
    let tk := new_task in
    let '(kstack_phys, e) := te_alloc_pages TASK_STACK_PAGES e in
    if kstack_phys =? 0 then (-1, set_env s (te_kfree t e))
    else
      let kstack_va := PHYS_TO_VIRT kstack_phys in
      let kstack_size := TASK_STACK_PAGES * PAGE_SIZE in
      let kstack_top := u64 (kstack_va + kstack_size) in
      let e := te_zero kstack_va kstack_size e in
      let frame := u64 (kstack_top - 160) in
      let e := store_frame frame entry 0 kernel_task_trampoline e in
      let p := next_pid s in
      let tk := set_sp frame tk in
      let tk := set_pid p tk in
      let tk := set_state TASK_READY tk in
      let tk := set_stack_phys kstack_phys tk in
      let tk := set_ttbr0 0 tk in
      let tk := set_user_sp 0 tk in
      let tk := set_kstack_top kstack_top tk in
      let tk := set_ustack_phys 0 tk in
      let tk := set_name (copy_name (name tk) nm) tk in
      let tk := set_fds 0 tk in
      let s := set_env (set_next_pid s (u64 (p + 1))) e in
      (s32 p, enqueue t (set_tasks s (<[t := tk]> (tasks s)))).

(** [fd_table_create] and stdin, stdout, stderr on the console *)
Definition console_fds (e : E) : Z * E :=
  let '(f, e) := te_fd_create e in
  if f =? 0 then (f, e)
  else
    let e := (te_fd_open f (cstr "/dev/console") e).2 in
    let e := (te_fd_open f (cstr "/dev/console") e).2 in
    let e := (te_fd_open f (cstr "/dev/console") e).2 in
    (f, e).

Definition TEXT_FLAGS : Z := Mmu.PTE_ATTRIDX 1 .| Mmu.PTE_AP_RO_EL0 .| Mmu.PTE_PXN.
Definition text_start_pa : Z := VIRT_TO_PHYS text_start.
Definition user_text_end_pa : Z := VIRT_TO_PHYS user_text_end.
Definition text_pages : Z := u64 (user_text_end_pa - text_start_pa) / PAGE_SIZE.
Definition ustack_user_base : Z := u64 (Mmu.USER_STACK_TOP - Mmu.USER_STACK_PAGES * PAGE_SIZE).

Definition sched_create_task (nm : list Z) (entry : Z) (s : sched E) : Z * sched E :=
  let '(t, e) := te_kmalloc SIZEOF_TASK (env s) in
  if t =? 0 then (-1, set_env s e)
  else
    let tk := new_task in
    let '(kstack_phys, e) := te_alloc_pages TASK_STACK_PAGES e in
    if kstack_phys =? 0 then (-1, set_env s (te_kfree t e))
    else
      let kstack_va := PHYS_TO_VIRT kstack_phys in
      let kstack_size := TASK_STACK_PAGES * PAGE_SIZE in
      let kstack_top := u64 (kstack_va + kstack_size) in
      let e := te_zero kstack_va kstack_size e in
      let '(user_l0, e) := te_create_tables e in
      if user_l0 =? 0
      then (-1, set_env s (te_kfree t (te_free_pages kstack_phys TASK_STACK_PAGES e)))
      else
        let entry_pa := VIRT_TO_PHYS entry in
        if (entry_pa <? text_start_pa) || (user_text_end_pa <=? entry_pa)
        then (-1, set_env s (te_kfree t (te_free_pages kstack_phys TASK_STACK_PAGES
                               (te_free_page user_l0 e))))
        else
          let entry_offset_in_text := u64 (entry_pa - text_start_pa) in
          let e := te_map_user user_l0 Mmu.USER_TEXT_BASE text_start_pa text_pages TEXT_FLAGS e in
          let user_entry := u64 (Mmu.USER_TEXT_BASE + entry_offset_in_text) in
          let '(ustack, e) := te_alloc_pages Mmu.USER_STACK_PAGES e in
          if ustack =? 0
          then (-1, set_env s (te_kfree t (te_free_pages kstack_phys TASK_STACK_PAGES
                                 (te_free_tables user_l0 e))))
          else
            let e := te_zero (PHYS_TO_VIRT ustack) (Mmu.USER_STACK_PAGES * PAGE_SIZE) e in
            let e := te_map_user user_l0 ustack_user_base ustack Mmu.USER_STACK_PAGES
                       STACK_FLAGS e in
            let frame := u64 (kstack_top - 160) in
            let e := store_frame frame user_entry Mmu.USER_STACK_TOP task_trampoline e in
            let p := next_pid s in
            let tk := set_sp frame tk in
            let tk := set_pid p tk in
            let tk := set_state TASK_READY tk in
            let tk := set_stack_phys kstack_phys tk in
            let '(asid, s) := sched_asid_alloc (set_next_pid s (u64 (p + 1))) in
            let tk := set_ttbr0 (Mmu.ttbr_pack user_l0 asid) tk in
            let tk := set_user_sp Mmu.USER_STACK_TOP tk in
            let tk := set_kstack_top kstack_top tk in
            let tk := set_ustack_phys ustack tk in
            let tk := set_name (copy_name (name tk) nm) tk in
            let '(f, e) := console_fds e in
            let tk := set_fds f tk in
            let s := set_env s e in
            (s32 p, enqueue t (set_tasks s (<[t := tk]> (tasks s)))).

Definition sched_fork (parent frame : Z) (s : sched E) : Z * sched E :=
  if (parent =? 0) || (frame =? 0) then (-1, s)
  else
    let '(t, e) := te_kmalloc SIZEOF_TASK (env s) in
    if t =? 0 then (-1, set_env s e)
    else
      let tk := new_task in
      let '(kstack_phys, e) := te_alloc_pages TASK_STACK_PAGES e in
      if kstack_phys =? 0 then (-1, set_env s (te_kfree t e))
      else
        let kstack_va := PHYS_TO_VIRT kstack_phys in
        let kstack_size := TASK_STACK_PAGES * PAGE_SIZE in
        let kstack_top := u64 (kstack_va + kstack_size) in
        let e := te_zero kstack_va kstack_size e in
        let '(user_l0, e) := te_create_tables e in
        if user_l0 =? 0
        then (-1, set_env s (te_kfree t (te_free_pages kstack_phys TASK_STACK_PAGES e)))
        else
          let e := te_map_user user_l0 Mmu.USER_TEXT_BASE text_start_pa text_pages TEXT_FLAGS e in
          let '(ustack, e) := te_alloc_pages Mmu.USER_STACK_PAGES e in
          if ustack =? 0
          then (-1, set_env s (te_kfree t (te_free_pages kstack_phys TASK_STACK_PAGES
                                 (te_free_tables user_l0 e))))
          else
            let e := te_copy (PHYS_TO_VIRT ustack) (PHYS_TO_VIRT (ustack_phys (get s parent)))
                       (Mmu.USER_STACK_PAGES * PAGE_SIZE) e in
            let e := te_map_user user_l0 ustack_user_base ustack Mmu.USER_STACK_PAGES
                       STACK_FLAGS e in
            let child_frame_bytes := u64 (kstack_top - 688) in
            let e := te_copy child_frame_bytes frame 688 e in
            let e := te_store child_frame_bytes 0 e in
            let switch_frame := u64 (child_frame_bytes - 160) in
            let e := store_frame switch_frame 0 0 fork_return e in
            let tk := set_name (fork_name (name (get s parent))) tk in
            let p := next_pid s in
            let tk := set_sp switch_frame tk in
            let tk := set_pid p tk in
            let tk := set_state TASK_READY tk in
            let tk := set_stack_phys kstack_phys tk in
            let '(asid, s) := sched_asid_alloc (set_next_pid s (u64 (p + 1))) in
            let tk := set_ttbr0 (Mmu.ttbr_pack user_l0 asid) tk in
            let tk := set_user_sp (user_sp (get s parent)) tk in
            let tk := set_kstack_top kstack_top tk in
            let tk := set_ustack_phys ustack tk in
            let '(f, e) := console_fds e in
            let tk := set_fds f tk in
            let s := set_env s e in
            (s32 p, enqueue t (set_tasks s (<[t := tk]> (tasks s)))).

(** ** Reaping *)

(** the loop over [exec_image.regions] *)
Fixpoint free_image (rs : list elf_region) (e : E) : E :=
  match rs with
  | [] => e
  | r :: rs' =>
      free_image rs' (if negb (phys r =? 0) && negb (rpages r =? 0)
                      then te_free_pages (phys r) (rpages r) e else e)
  end.
(** the loop over [stack_grown_phys] *)
Fixpoint free_grown (ps : list Z) (e : E) : E :=
  match ps with
  | [] => e
  | p :: ps' => free_grown ps' (if negb (p =? 0) then te_free_page p e else e)
  end.

Definition reap_one (dead : Z) (tk : task) (e : E) : E :=
  let e := if negb (stack_phys tk =? 0)
           then te_free_pages (stack_phys tk) TASK_STACK_PAGES e else e in
  let e := if negb (ustack_phys tk =? 0)
           then te_free_pages (ustack_phys tk) Mmu.USER_STACK_PAGES e else e in
  let e := free_image (take (Z.to_nat (region_count (exec_image tk))) (regions (exec_image tk))) e in
  let e := free_grown (take (Z.to_nat (stack_grown_count tk)) (stack_grown_phys tk)) e in
  let e := if negb (ttbr0 tk =? 0) then te_free_tables (Mmu.ttbr_baddr (ttbr0 tk)) e else e in
  let e := if negb (fds tk =? 0) then te_fd_destroy (fds tk) e else e in
  te_kfree dead e.

Fixpoint reap_loop (n : nat) (s : sched E) : sched E :=
  match n with
  | O => s
  | S n' =>
      if dead_list s =? 0 then s
      else
        let dead := dead_list s in
        let tk := get s dead in
        let s := set_dead_list s (next tk) in
        let s := set_env s (reap_one dead tk (env s)) in
        reap_loop n' (set_tasks s (delete dead (tasks s)))
  end.
Definition sched_reap (s : sched E) : sched E := reap_loop (fuel s) s.

(** ** Selection *)
Definition runnable (prev t : Z) (tk : task) : bool :=
  is_state TASK_READY tk || ((t =? prev) && is_state TASK_RUNNING tk).

(** the [do ... while (t != prev->next)] loop *)
Fixpoint select (n : nat) (T : gmap Z task) (prev stop t best best_pri : Z) : Z :=
  match n with
  | O => best
  | S n' =>
      let tk := task_at T t in
      let take_it := runnable prev t tk && (best_pri <? priority tk) in
      let best_pri := if take_it then priority tk else best_pri in
      let best := if take_it then t else best in
      let t := next tk in
      if t =? stop then best else select n' T prev stop t best best_pri
  end.

(** Unlink [t] from the run queue and push it onto the reaper list. *)
Definition unlink (t : Z) (s : sched E) : sched E :=
  let p := find_pred (fuel s) (tasks s) t t in
  let s := put s p (set_next (next (get s t))) in
  let s := put s t (set_next (dead_list s)) in
  set_dead_list s t.

Definition schedule (s : sched E) : sched E :=
  let s := sched_reap s in
  let prev := current s in
  let first := next (get s prev) in
  let nxt := select (fuel s) (tasks s) prev first first IDLE (-1) in
  if nxt =? prev then
    if negb (is_state TASK_RUNNING (get s prev)) then put s prev (set_state TASK_RUNNING) else s
  else
    let s := if is_state TASK_RUNNING (get s prev) then put s prev (set_state TASK_READY) else s in
    let s := if is_state TASK_DEAD (get s prev) then unlink prev s else s in
    set_current (put s nxt (set_state TASK_RUNNING)) nxt.

(** ** Helpers and exported operations *)
Definition sched_set_priority (t prio : Z) (s : sched E) : sched E :=
  if t =? 0 then s else put s t (set_priority prio).

Definition sched_make_ready (t : Z) (s : sched E) : sched E :=
  if negb (t =? 0) && negb (is_state TASK_DEAD (get s t)) then put s t (set_state TASK_READY) else s.

Definition sched_block_current (s : sched E) : sched E :=
  schedule (put s (current s) (set_state TASK_BLOCKED)).

Definition yield (s : sched E) : sched E := schedule s.

Definition task_exit (s : sched E) : sched E :=
  schedule (put s (current s) (set_state TASK_DEAD)).

Fixpoint find_loop (n : nat) (T : gmap Z task) (head t pid_ : Z) : Z :=
  match n with
  | O => 0
  | S n' =>
      if pid (task_at T t) =? pid_ then t
      else
        let t := next (task_at T t) in
        if t =? head then 0 else find_loop n' T head t pid_
  end.
Definition sched_find_task (pid_ : Z) (s : sched E) : Z :=
  find_loop (fuel s) (tasks s) sched_first_task sched_first_task pid_.

Definition sched_create_rt_task (nm : list Z) (entry prio : Z) (s : sched E) : Z * sched E :=
  let '(p, s) := sched_create_kernel_task nm entry s in
  if p <? 0 then (-1, s)
  else
    let t := sched_find_task (u64 p) s in
    if t =? 0 then (p, s)
    else (p, put (put s t (set_base_priority prio)) t (set_priority prio)).

Fixpoint kill_loop (n : nat) (head t pid_ : Z) (s : sched E) : Z * sched E :=
  match n with
  | O => (-1, s)
  | S n' =>
      if negb (pid (get s t) =? pid_) then
        let t := next (get s t) in
        if t =? head then (-1, s) else kill_loop n' head t pid_ s
      else if is_state TASK_DEAD (get s t) then (-1, s)
      else if t =? current s then (0, task_exit s)
      else (0, put (unlink t s) t (set_state TASK_DEAD))
  end.
Definition sched_kill_task (pid_ : Z) (s : sched E) : Z * sched E :=
  if pid_ =? 0 then (-1, s)
  else kill_loop (fuel s) sched_first_task sched_first_task pid_ s.

Definition sleep_ms (ms : Z) (s : sched E) : sched E :=
  let ticks_needed := ms / TIMER_INTERVAL_MS in
  let ticks_needed := if ticks_needed =? 0 then 1 else ticks_needed in
  let s := put s (current s) (set_sleep_until (u64 (te_ticks (env s) + ticks_needed))) in
  schedule (put s (current s) (set_state TASK_SLEEPING)).

Fixpoint wake_loop (n : nat) (now t : Z) (s : sched E) : sched E :=
  match n with
  | O => s
  | S n' =>
      if t =? IDLE then s
      else
        let tk := get s t in
        let s := if is_state TASK_SLEEPING tk && (rt_period_cyc tk =? 0) && (sleep_until tk <=? now)
                 then put (put s t (set_state TASK_READY)) t (set_sleep_until 0) else s in
        wake_loop n' now (next (get s t)) s
  end.
Definition sched_wake_sleepers (s : sched E) : sched E :=
  wake_loop (fuel s) (te_ticks (env s)) (next (get s IDLE)) s.

Definition sched_current (s : sched E) : Z := current s.
End ops.

Definition task_state_name (st : task_state) : list Z :=
  match st with
  | TASK_READY => cstr "READY"
  | TASK_RUNNING => cstr "RUNNING"
  | TASK_SLEEPING => cstr "SLEEPING"
  | TASK_DEAD => cstr "DEAD"
  | _ => cstr "?"
  end.

End Sched.
