(* ===== verification/SchedInv.v ===== *)
(** * The invariant of the scheduler and the lemmas about its operations

    The run queue as a list ([path]), the ledger of what the tasks hold
    ([held], [tasks_res]), the invariant [sched_inv], and one lemma per
    operation of [Sched]: what it leaves of the queue, the reaper list, the
    states and the ledger. *)
From S2P Require Import Prelude PageAlloc Heap Mmu Task TaskEnv Sched.
From AAC_tactics Require Import AAC.
#[local] Open Scope Z_scope.

Module SchedInv.
Export Sched.

(** ** Lists of tasks

    [path T a L z]: following [next] from [a] visits exactly [L], then reaches
    [z].  A ring through [a :: L] is [path T a (a :: L) a]. *)
Definition nx (T : gmap Z task) (a : Z) : Z := next (task_at T a).

Fixpoint path (T : gmap Z task) (a : Z) (L : list Z) (z : Z) : Prop :=
  match L with
  | [] => a = z
  | x :: L' => a = x /\ path T (nx T x) L' z
  end.

Lemma path_app T a L1 L2 z :
  path T a (L1 ++ L2) z <-> exists b, path T a L1 b /\ path T b L2 z.
Proof.
  revert a. induction L1 as [|x L1 IH]; intros a; cbn [path app].
  - split; [by exists a|]. by intros (b & -> & ?).
  - rewrite IH. split.
    + intros (-> & b & ? & ?). by exists b.
    + intros (b & (-> & ?) & ?). split; [done|]. by exists b.
Qed.

Lemma path_frame T T' a L z :
  (forall x, x ∈ L -> nx T' x = nx T x) -> path T a L z -> path T' a L z.
Proof.
  revert a. induction L as [|x L IH]; intros a Hf; cbn [path]; [done|].
  intros (-> & Hp). split; [done|]. rewrite Hf by left. apply IH; [|done].
  intros y Hy. apply Hf. by right.
Qed.

Lemma path_rotate T a L1 b L2 :
  path T a (L1 ++ b :: L2) a -> path T b ((b :: L2) ++ L1) b.
Proof.
  intros (c & H1 & H2)%path_app. pose proof H2 as [-> _]. apply path_app. by exists a.
Qed.

Lemma task_at_lookup T a t : T !! a = Some t -> task_at T a = t.
Proof. intros Ht. unfold task_at. by rewrite Ht. Qed.
Lemma task_at_upd_eq T a f : task_at (upd T a f) a = f (task_at T a).
Proof. unfold upd. apply task_at_lookup, lookup_insert_eq. Qed.
Lemma task_at_upd_ne T a b f : a <> b -> task_at (upd T a f) b = task_at T b.
Proof. intros. unfold upd, task_at. by rewrite lookup_insert_ne. Qed.
Lemma task_at_insert_eq T a t : task_at (<[a := t]> T) a = t.
Proof. apply task_at_lookup, lookup_insert_eq. Qed.
Lemma task_at_insert_ne T a b t : a <> b -> task_at (<[a := t]> T) b = task_at T b.
Proof. intros. unfold task_at. by rewrite lookup_insert_ne. Qed.
Lemma task_at_delete_ne T a b : a <> b -> task_at (delete a T) b = task_at T b.
Proof. intros. unfold task_at. by rewrite lookup_delete_ne. Qed.
Lemma dom_upd T a f : a ∈ dom T -> dom (upd T a f) = dom T.
Proof. intros. unfold upd. rewrite dom_insert_L. set_solver. Qed.
Lemma size_upd T a f : a ∈ dom T -> size (upd T a f) = size T.
Proof. intros. rewrite <- !size_dom. by rewrite dom_upd. Qed.

(** The walk that looks for the predecessor of [stop]. *)
Lemma find_pred_spec n T stop t L p :
  path T t (L ++ [p]) stop -> stop ∉ tail (L ++ [p]) -> (length L < n)%nat ->
  find_pred n T stop t = p.
Proof.
  revert t L. induction n as [|n IH]; intros t L Hp Hns Hn; [lia|]. cbn [find_pred].
  change (next (task_at T t)) with (nx T t). destruct L as [|x L]; cbn [app path] in Hp.
  - destruct Hp as [-> Hz]. by rewrite Hz, Z.eqb_refl.
  - destruct Hp as [-> Hp]. destruct (Z.eqb_spec (nx T x) stop) as [E|].
    + exfalso. apply Hns. cbn [app tail]. rewrite <- E.
      destruct L; cbn [app path] in *; destruct Hp as [-> _]; left.
    + apply (IH (nx T x) L Hp); [|cbn [length] in Hn; lia]. intros Hin. apply Hns.
      cbn [app tail]. destruct (L ++ [p]); [done|]. by right.
Qed.

(** The selection loop over the list it visits. *)
Fixpoint pick (T : gmap Z task) (prev : Z) (L : list Z) (best best_pri : Z) : Z :=
  match L with
  | [] => best
  | t :: L' =>
      if runnable prev t (task_at T t) && (best_pri <? priority (task_at T t))
      then pick T prev L' t (priority (task_at T t))
      else pick T prev L' best best_pri
  end.

Lemma select_pick n T prev stop t L best pri :
  path T t L stop -> L <> [] -> stop ∉ tail L -> (length L <= n)%nat ->
  select n T prev stop t best pri = pick T prev L best pri.
Proof.
  revert t L best pri. induction n as [|n IH]; intros t L best pri Hp Hne Hns Hn.
  { destruct L; [done|cbn [length] in Hn; lia]. }
  destruct L as [|x L]; [done|]. destruct Hp as [-> Hp]. cbn [select pick].
  change (next (task_at T x)) with (nx T x). destruct L as [|y L].
  - cbn [path] in Hp. rewrite Hp, Z.eqb_refl. cbn [pick]. by case_if.
  - pose proof Hp as [Hy _]. destruct (Z.eqb_spec (nx T x) stop) as [E|].
    + exfalso. apply Hns. cbn [tail]. rewrite <- E, Hy. left.
    + assert (stop ∉ tail (y :: L)) as Hns'.
      { intros Hin. apply Hns. cbn [tail] in *. by right. }
      cbn [length] in Hn. rewrite !(IH (nx T x) (y :: L)) by (done || (cbn [length]; lia)).
      by case_if.
Qed.

(** What [pick] returns: the first runnable task of the highest priority above
    [pri], or [best] when there is none. *)
Definition chosen (T : gmap Z task) (prev : Z) (L : list Z) (pri t : Z) : Prop :=
  exists L1 L2, L = L1 ++ t :: L2 /\ runnable prev t (task_at T t) = true /\
    pri < priority (task_at T t) /\
    (forall x, x ∈ L1 -> runnable prev x (task_at T x) = true ->
       priority (task_at T x) < priority (task_at T t)) /\
    (forall x, x ∈ L2 -> runnable prev x (task_at T x) = true ->
       priority (task_at T x) <= priority (task_at T t)).

Lemma pick_spec T prev L best pri :
  (pick T prev L best pri = best /\
   forall x, x ∈ L -> runnable prev x (task_at T x) = true -> priority (task_at T x) <= pri) \/
  chosen T prev L pri (pick T prev L best pri).
Proof.
  revert best pri. induction L as [|t L IH]; intros best pri; cbn [pick].
  { left. split; [done|]. intros x Hx. by apply not_elem_of_nil in Hx. }
  destruct (runnable prev t (task_at T t)) eqn:Hr; cbn [andb].
  - destruct (Z.ltb_spec pri (priority (task_at T t))) as [Hlt|Hge].
    + right. destruct (IH t (priority (task_at T t))) as [[-> Hall]|(L1 & L2 & HL & H1 & H2 & H3 & H4)].
      * exists [], L. split; [done|]. split; [done|]. split; [done|].
        split; [intros x Hx; by apply not_elem_of_nil in Hx|done].
      * rewrite HL at 1. exists (t :: L1), L2. split; [done|]. split; [done|]. split; [lia|].
        split; [|done]. intros x [->|Hx]%elem_of_cons Hrx; [lia|by apply H3].
    + destruct (IH best pri) as [[-> Hall]|(L1 & L2 & HL & H1 & H2 & H3 & H4)].
      * left. split; [done|]. intros x [->|Hx]%elem_of_cons ?; [lia|by apply Hall].
      * right. rewrite HL at 1. exists (t :: L1), L2. split; [done|]. split; [done|]. split; [done|].
        split; [|done]. intros x [->|Hx]%elem_of_cons Hrx; [lia|by apply H3].
  - destruct (IH best pri) as [[-> Hall]|(L1 & L2 & HL & H1 & H2 & H3 & H4)].
    + left. split; [done|]. intros x [->|Hx]%elem_of_cons ?; [congruence|by apply Hall].
    + right. rewrite HL at 1. exists (t :: L1), L2. split; [done|]. split; [done|]. split; [done|].
      split; [|done]. intros x [->|Hx]%elem_of_cons Hrx; [congruence|by apply H3].
Qed.

(** ** The resources of a task, as [sched_reap] gives them back *)
Definition opt_run (a n : Z) : res := if negb (a =? 0) then run a n else res0.
Fixpoint image_res (rs : list elf_region) : res :=
  match rs with
  | [] => res0
  | r :: rs' =>
      (if negb (phys r =? 0) && negb (rpages r =? 0) then run (phys r) (rpages r) else res0)
      ⋆ image_res rs'
  end.
Fixpoint grown_res (ps : list Z) : res :=
  match ps with [] => res0 | p :: ps' => opt_run p 1 ⋆ grown_res ps' end.

Definition held (tk : task) : res :=
  opt_run (stack_phys tk) TASK_STACK_PAGES ⋆ opt_run (ustack_phys tk) Mmu.USER_STACK_PAGES
  ⋆ image_res (take (Z.to_nat (region_count (exec_image tk))) (regions (exec_image tk)))
  ⋆ grown_res (take (Z.to_nat (stack_grown_count tk)) (stack_grown_phys tk))
  ⋆ (if negb (ttbr0 tk =? 0) then space (Mmu.ttbr_baddr (ttbr0 tk)) else res0)
  ⋆ (if negb (fds tk =? 0) then fdt (fds tk) else res0).

Fixpoint tasks_res (T : gmap Z task) (l : list Z) : res :=
  match l with [] => res0 | a :: l' => hblock a ⋆ held (task_at T a) ⋆ tasks_res T l' end.

Lemma tasks_res_app T l1 l2 : tasks_res T (l1 ++ l2) ≡ tasks_res T l1 ⋆ tasks_res T l2.
Proof.
  induction l1 as [|a l1 IH]; cbn [app tasks_res].
  - by rewrite res_app_0.
  - rewrite IH. aac_reflexivity.
Qed.
Lemma tasks_res_perm T l1 l2 : l1 ≡ₚ l2 -> tasks_res T l1 ≡ tasks_res T l2.
Proof.
  induction 1 as [|a l1 l2 _ IH|a b l|l1 l2 l3 _ IH1 _ IH2]; cbn [tasks_res].
  - done.
  - by rewrite IH.
  - aac_reflexivity.
  - by rewrite IH1.
Qed.
Lemma tasks_res_frame T T' l :
  (forall a, a ∈ l -> held (task_at T' a) = held (task_at T a)) -> tasks_res T' l = tasks_res T l.
Proof.
  induction l as [|a l IH]; cbn [tasks_res]; intros Hf; [done|].
  rewrite Hf, IH; [done| |left]. intros b Hb. apply Hf. by right.
Qed.
Lemma tasks_res_blocks T l : l ⊆ r_blocks (tasks_res T l).
Proof.
  induction l as [|a l IH]; cbn [tasks_res res_app hblock r_blocks]; [done|].
  intros x [->|Hx]%elem_of_cons; [left|]. apply elem_of_app. right. by apply IH.
Qed.

(** Range facts of one task. *)
Record task_wf (tk : task) : Prop := {
  tw_grown : length (stack_grown_phys tk) = 60%nat;
  tw_count : 0 <= stack_grown_count tk <= USER_STACK_GROWN_MAX;
  tw_prio : 0 <= priority tk <= PRIO_MAX
}.

(** What a change of a task may not touch. *)
Record keeps (tk tk' : task) : Prop := {
  kp_next : next tk' = next tk;
  kp_pid : pid tk' = pid tk;
  kp_ttbr : ttbr0 tk' = ttbr0 tk;
  kp_wf : task_wf tk -> task_wf tk'
}.

Ltac solve_keeps := constructor; try done; let W := fresh in intros W; destruct W; constructor; cbn; done || lia.
Lemma keeps_set_state v tk : keeps tk (set_state v tk).
Proof. solve_keeps. Qed.
Lemma keeps_set_sleep v tk : keeps tk (set_sleep_until v tk).
Proof. solve_keeps. Qed.
Lemma keeps_set_priority v tk : 0 <= v <= PRIO_MAX -> keeps tk (set_priority v tk).
Proof. intros. solve_keeps. Qed.
Lemma keeps_set_base v tk : keeps tk (set_base_priority v tk).
Proof. solve_keeps. Qed.
#[local] Hint Resolve keeps_set_state keeps_set_sleep keeps_set_priority keeps_set_base : kernel.

(** The order in which [schedule] looks at the queue [R]: from the task after
    [p] around the ring to [p] itself. *)
Fixpoint after (p : Z) (R : list Z) : list Z :=
  match R with [] => [] | x :: R' => if x =? p then R' else after p R' end.
Fixpoint upto (p : Z) (R : list Z) : list Z :=
  match R with [] => [] | x :: R' => if x =? p then [x] else x :: upto p R' end.
Definition scan (p : Z) (R : list Z) : list Z := after p R ++ upto p R.

Lemma scan_split p L1 L2 : p ∉ L1 -> scan p (L1 ++ p :: L2) = L2 ++ L1 ++ [p].
Proof.
  intros Hn. unfold scan.
  assert (after p (L1 ++ p :: L2) = L2 /\ upto p (L1 ++ p :: L2) = L1 ++ [p]) as [-> ->]; [|done].
  induction L1 as [|y L1 IH]; cbn [after upto app]; [by rewrite Z.eqb_refl|].
  apply not_elem_of_cons in Hn as [Hne Hn]. destruct (Z.eqb_spec y p); [done|].
  destruct (IH Hn) as [-> ->]. done.
Qed.

Lemma pick_ext T T' prev L best pri :
  (forall a, a ∈ L -> task_at T' a = task_at T a) -> pick T' prev L best pri = pick T prev L best pri.
Proof.
  revert best pri. induction L as [|a L IH]; intros best pri Hf; cbn [pick]; [done|].
  rewrite (Hf a) by left. rewrite !IH; [done|..]; intros b Hb; apply Hf; by right.
Qed.

Section invariant.
Context {E : Type} `{TaskEnvLaws E} `{Layout}.
Implicit Types (s : sched E).

(** The structural invariant: the run queue [IDLE :: L], the reaper list [D],
    and the ledger: the environment has handed out what the tasks hold and the
    resources [F] of everybody else. *)
Record core s (L D : list Z) (F : res) : Prop := {
  co_ring : path (tasks s) IDLE (IDLE :: L) IDLE;
  co_dead : path (tasks s) (dead_list s) D 0;
  co_nodup : NoDup (IDLE :: L ++ D);
  co_dom a : a ∈ dom (tasks s) <-> a ∈ IDLE :: L ++ D;
  co_nz : 0 ∉ IDLE :: L ++ D;
  co_pids : NoDup ((fun a => pid (get s a)) <$> IDLE :: L);
  co_pid_lt a : a ∈ IDLE :: L -> 0 <= pid (get s a) < next_pid s;
  co_idle : pid (get s IDLE) = 0 /\ ttbr0 (get s IDLE) = 0;
  co_next_pid : 0 < next_pid s < 2 ^ 31;
  co_asid : 1 <= next_asid s < 65536;
  co_wf a : a ∈ IDLE :: L ++ D -> task_wf (get s a);
  co_res : te_ok (tasks_res (tasks s) (L ++ D) ⋆ F) (env s)
}.

(** The states: nobody in the queue is dead, everybody on the reaper list is,
    only the current task is running. *)
Record states s (L D : list Z) : Prop := {
  st_cur : current s ∈ IDLE :: L;
  st_alive a : a ∈ IDLE :: L -> state (get s a) <> TASK_DEAD;
  st_dead a : a ∈ D -> state (get s a) = TASK_DEAD;
  st_running a : a ∈ IDLE :: L -> state (get s a) = TASK_RUNNING -> a = current s
}.
Definition sched_inv s L D F : Prop := core s L D F /\ states s L D.

Lemma core_in s L D F a : core s L D F -> a ∈ IDLE :: L ++ D -> a ∈ dom (tasks s).
Proof. intros Hc. apply (co_dom _ _ _ _ Hc). Qed.

Lemma core_size s L D F : core s L D F -> size (tasks s) = length (IDLE :: L ++ D).
Proof.
  intros Hc. rewrite <- size_dom.
  assert (dom (tasks s) = list_to_set (IDLE :: L ++ D)) as ->.
  { apply set_eq. intros a. rewrite elem_of_list_to_set. apply (co_dom _ _ _ _ Hc). }
  by rewrite size_list_to_set by apply (co_nodup _ _ _ _ Hc).
Qed.

(** A change of one task that keeps its links and its pid; only the idle task
    must keep its address space. *)
Lemma core_change_asid s L D F a f e asid :
  core s L D F -> a ∈ IDLE :: L ++ D ->
  next (f (get s a)) = next (get s a) -> pid (f (get s a)) = pid (get s a) ->
  (a = IDLE -> ttbr0 (f (get s a)) = ttbr0 (get s a)) -> (task_wf (get s a) -> task_wf (f (get s a))) ->
  1 <= asid < 65536 ->
  te_ok (tasks_res (upd (tasks s) a f) (L ++ D) ⋆ F) e -> core (set_env (set_next_asid (put s a f) asid) e) L D F.
Proof.
  intros Hc Ha Hnx Hpid Httbr Hwf Has Hok. pose proof (core_in _ _ _ _ a Hc Ha) as Hd. unfold get in *.
  assert (forall x, pid (task_at (upd (tasks s) a f) x) = pid (task_at (tasks s) x)) as Hp.
  { intros x. destruct (decide (a = x)) as [<-|Hne]; [by rewrite task_at_upd_eq|by rewrite task_at_upd_ne]. }
  assert (forall x, nx (upd (tasks s) a f) x = nx (tasks s) x) as Hn.
  { intros x. unfold nx. destruct (decide (a = x)) as [<-|Hne]; [by rewrite task_at_upd_eq|by rewrite task_at_upd_ne]. }
  constructor; unfold put, get in *; cbn [tasks set_tasks set_env set_next_asid current next_pid next_asid dead_list env].
  - eapply path_frame; [|apply (co_ring _ _ _ _ Hc)]. done.
  - eapply path_frame; [|apply (co_dead _ _ _ _ Hc)]. done.
  - apply (co_nodup _ _ _ _ Hc).
  - intros x. rewrite dom_upd by done. apply (co_dom _ _ _ _ Hc).
  - apply (co_nz _ _ _ _ Hc).
  - erewrite list_fmap_ext; [apply (co_pids _ _ _ _ Hc)|]. intros i x _. apply Hp.
  - intros x Hxl. rewrite Hp. by apply (co_pid_lt _ _ _ _ Hc).
  - rewrite Hp. destruct (co_idle _ _ _ _ Hc) as [Hi1 Hi2]. split; [done|].
    destruct (decide (a = IDLE)) as [Hai|]; [|by rewrite task_at_upd_ne].
    rewrite <- Hai in *. by rewrite task_at_upd_eq, Httbr.
  - apply (co_next_pid _ _ _ _ Hc).
  - done.
  - intros x Hxl. destruct (decide (a = x)) as [<-|Hne].
    + rewrite task_at_upd_eq. by apply Hwf, (co_wf _ _ _ _ Hc).
    + rewrite task_at_upd_ne by done. by apply (co_wf _ _ _ _ Hc).
  - done.
Qed.
Lemma core_change s L D F a f e :
  core s L D F -> a ∈ IDLE :: L ++ D -> keeps (get s a) (f (get s a)) ->
  te_ok (tasks_res (upd (tasks s) a f) (L ++ D) ⋆ F) e -> core (set_env (put s a f) e) L D F.
Proof.
  intros Hc Ha [Hk1 Hk2 Hk3 Hk4] Hok.
  exact (core_change_asid s L D F a f e (next_asid s) Hc Ha Hk1 Hk2 (fun _ => Hk3) Hk4 (co_asid _ _ _ _ Hc) Hok).
Qed.

(** ... and also its resources. *)
Lemma core_put s L D F a f :
  core s L D F -> a ∈ IDLE :: L ++ D -> keeps (get s a) (f (get s a)) ->
  held (f (get s a)) = held (get s a) -> core (put s a f) L D F.
Proof.
  intros Hc Ha Hk Hh. apply (core_change s L D F a f (env s) Hc Ha Hk).
  rewrite (tasks_res_frame (tasks s)); [apply (co_res _ _ _ _ Hc)|].
  intros x _. destruct (decide (a = x)) as [<-|]; [by rewrite task_at_upd_eq|by rewrite task_at_upd_ne].
Qed.

(** *** Reaping *)
Lemma te_ok_opt (b : bool) X R (f : E -> E) e :
  te_ok ((if b then X else res0) ⋆ R) e -> (te_ok (X ⋆ R) e -> te_ok R (f e)) ->
  te_ok R (if b then f e else e).
Proof. destruct b; [by auto|]. by rewrite res_app_0. Qed.

Lemma free_image_ok rs R e : te_ok (image_res rs ⋆ R) e -> te_ok R (free_image rs e).
Proof.
  revert e. induction rs as [|r rs IH]; intros e; cbn [image_res free_image].
  - by rewrite res_app_0.
  - rewrite res_app_assoc. intros Hok. apply IH. eapply te_ok_opt; [done|]. apply te_free_pages_law.
Qed.
Lemma free_grown_ok ps R e : te_ok (grown_res ps ⋆ R) e -> te_ok R (free_grown ps e).
Proof.
  revert e. induction ps as [|p ps IH]; intros e; cbn [grown_res free_grown].
  - by rewrite res_app_0.
  - rewrite res_app_assoc. intros Hok. apply IH. eapply te_ok_opt; [done|]. apply te_free_page_law.
Qed.

Lemma reap_one_ok a tk R e : te_ok (hblock a ⋆ held tk ⋆ R) e -> te_ok R (reap_one a tk e).
Proof.
  intros Hok. unfold reap_one. apply te_kfree_law.
  eapply te_ok_opt; [|apply te_fd_destroy_law]. eapply te_ok_opt; [|apply te_free_tables_law].
  apply free_grown_ok, free_image_ok.
  eapply te_ok_opt; [|apply te_free_pages_law]. eapply te_ok_opt; [|apply te_free_pages_law].
  eapply te_ok_proper; [|exact Hok]. unfold held, opt_run. aac_reflexivity.
Qed.

Lemma reap_loop_spec n s D R :
  path (tasks s) (dead_list s) D 0 -> NoDup D -> 0 ∉ D -> (length D < n)%nat ->
  te_ok (tasks_res (tasks s) D ⋆ R) (env s) ->
  let s' := reap_loop n s in
  (forall a, tasks s' !! a = if decide (a ∈ D) then None else tasks s !! a) /\
  dead_list s' = 0 /\ current s' = current s /\ next_pid s' = next_pid s /\
  next_asid s' = next_asid s /\ te_ok R (env s').
Proof.
  revert s D. induction n as [|n IH]; intros s D Hp Hnd Hz Hn Hok; [lia|]. cbn [reap_loop].
  destruct D as [|d D]; cbn [path] in Hp.
  { rewrite Hp. cbn [Z.eqb]. do 5 (split; [done|]). by rewrite res_app_0 in Hok. }
  destruct Hp as [Hd Hp]. apply NoDup_cons in Hnd as [Hnd1 Hnd2]. apply not_elem_of_cons in Hz as [Hz1 Hz2].
  rewrite Hd. destruct (Z.eqb_spec d 0); [by subst|]. cbn [length] in Hn.
  set (s1 := set_tasks _ _). destruct (IH s1 D) as (IH1 & ? & ? & ? & ? & ?); try done; [|lia| |].
  - subst s1. cbn. eapply path_frame; [|exact Hp]. intros x Hx. unfold nx.
    rewrite task_at_delete_ne; [done|]. by intros ->.
  - subst s1. cbn. unfold get. apply reap_one_ok. cbn [tasks_res] in Hok. rewrite res_app_assoc in Hok.
    rewrite (tasks_res_frame (tasks s)); [done|]. intros x Hx. rewrite task_at_delete_ne; [done|].
    by intros ->.
  - split; [|done]. intros a. rewrite IH1. subst s1. cbn. destruct (decide (a ∈ D)) as [Ha|Ha].
    + by rewrite decide_True by by right.
    + destruct (decide (a = d)) as [->|Hne].
      * rewrite lookup_delete_eq, decide_True by left. done.
      * rewrite lookup_delete_ne by done. rewrite decide_False; [done|]. by intros [->|?]%elem_of_cons.
Qed.

Lemma sched_reap_spec s L D F :
  core s L D F ->
  let s' := sched_reap s in
  core s' L [] F /\ current s' = current s /\ next_asid s' = next_asid s /\
  (forall a, a ∈ IDLE :: L -> get s' a = get s a).
Proof.
  intros Hc s'. pose proof (co_nodup _ _ _ _ Hc) as Hnd.
  pose proof Hnd as Hnd2. change (IDLE :: L ++ D) with ((IDLE :: L) ++ D) in Hnd2.
  apply NoDup_app in Hnd2 as (HndL & Hdisj & HndD).
  assert (0 ∉ D) as Hz.
  { pose proof (co_nz _ _ _ _ Hc) as Hz. intros Hin. apply Hz. right. apply elem_of_app. by right. }
  destruct (reap_loop_spec (fuel s) s D (tasks_res (tasks s) L ⋆ F)) as (Ht & Hdl & Hcur & Hnp & Hna & Hok).
  - apply (co_dead _ _ _ _ Hc).
  - done.
  - done.
  - unfold fuel. rewrite (core_size _ _ _ _ Hc). cbn [length]. rewrite length_app. lia.
  - pose proof (co_res _ _ _ _ Hc) as Hr. rewrite tasks_res_app in Hr.
    eapply te_ok_proper; [|exact Hr]. aac_reflexivity.
  - change (reap_loop (fuel s) s) with s' in *.
    assert (forall a, a ∈ IDLE :: L -> task_at (tasks s') a = task_at (tasks s) a) as Hsame.
    { intros a Ha. unfold task_at. rewrite Ht, decide_False; [done|]. by apply Hdisj. }
    split; [|done]. constructor; unfold get; rewrite ?app_nil_r.
    + eapply path_frame; [|apply (co_ring _ _ _ _ Hc)]. intros x Hx. unfold nx. by rewrite Hsame.
    + by rewrite Hdl.
    + done.
    + intros a. rewrite elem_of_dom, Ht. destruct (decide (a ∈ D)) as [Ha|Ha].
      * split; [by intros []|]. intros Hin. exfalso. by eapply Hdisj.
      * rewrite <- elem_of_dom, (co_dom _ _ _ _ Hc). set_solver.
    + pose proof (co_nz _ _ _ _ Hc). set_solver.
    + rewrite Forall_fmap_ext_1 with (g := fun a => pid (get s a)); [apply (co_pids _ _ _ _ Hc)|].
      apply Forall_forall. intros a Ha. unfold get. by rewrite Hsame.
    + intros a Ha. rewrite Hnp, Hsame by done. by apply (co_pid_lt _ _ _ _ Hc).
    + rewrite Hsame by left. apply (co_idle _ _ _ _ Hc).
    + rewrite Hnp. apply (co_next_pid _ _ _ _ Hc).
    + rewrite Hna. apply (co_asid _ _ _ _ Hc).
    + intros a Ha. rewrite Hsame by done. apply (co_wf _ _ _ _ Hc). set_solver.
    + rewrite (tasks_res_frame (tasks s)); [done|]. intros a Ha. rewrite Hsame; [done|]. by right.
Qed.

(** *** Changes of links *)
Definition relinked (T T' : gmap Z task) : Prop :=
  dom T' = dom T /\ forall a, exists v, task_at T' a = set_next v (task_at T a).

Lemma set_next_id tk : set_next (next tk) tk = tk.
Proof. by destruct tk. Qed.
Lemma relinked_refl T : relinked T T.
Proof. split; [done|]. intros a. exists (next (task_at T a)). by rewrite set_next_id. Qed.
Lemma relinked_upd T T' a v : relinked T T' -> a ∈ dom T -> relinked T (upd T' a (set_next v)).
Proof.
  intros [Hd Hr] Ha. split; [rewrite dom_upd; [done|by rewrite Hd]|]. intros b.
  destruct (Hr b) as [w Hw]. destruct (decide (a = b)) as [->|Hne].
  - exists v. by rewrite task_at_upd_eq, Hw.
  - exists w. by rewrite task_at_upd_ne.
Qed.
Lemma relinked_held T T' a : relinked T T' -> held (task_at T' a) = held (task_at T a).
Proof. intros [_ Hr]. by destruct (Hr a) as [v ->]. Qed.
Lemma relinked_pid T T' a : relinked T T' -> pid (task_at T' a) = pid (task_at T a).
Proof. intros [_ Hr]. by destruct (Hr a) as [v ->]. Qed.
Lemma relinked_ttbr T T' a : relinked T T' -> ttbr0 (task_at T' a) = ttbr0 (task_at T a).
Proof. intros [_ Hr]. by destruct (Hr a) as [v ->]. Qed.
Lemma relinked_state T T' a : relinked T T' -> state (task_at T' a) = state (task_at T a).
Proof. intros [_ Hr]. by destruct (Hr a) as [v ->]. Qed.
Lemma relinked_wf T T' a : relinked T T' -> task_wf (task_at T a) -> task_wf (task_at T' a).
Proof. intros [_ Hr] []. destruct (Hr a) as [v ->]. by constructor. Qed.

(** The same tasks on a queue and a reaper list that hold the same addresses. *)
Lemma core_relink s s' L D L' D' F :
  core s L D F -> relinked (tasks s) (tasks s') -> next_pid s' = next_pid s ->
  next_asid s' = next_asid s -> env s' = env s ->
  L' ++ D' ≡ₚ L ++ D -> L' `sublist_of` L ->
  path (tasks s') IDLE (IDLE :: L') IDLE -> path (tasks s') (dead_list s') D' 0 ->
  core s' L' D' F.
Proof.
  intros Hc Hr Hnp Has Henv Hperm Hsub Hring Hdead.
  assert (IDLE :: L' ++ D' ≡ₚ IDLE :: L ++ D) as HP by by rewrite Hperm.
  assert (forall a, a ∈ IDLE :: L' -> a ∈ IDLE :: L) as Hin.
  { intros a. rewrite !elem_of_cons. intros [->|Ha]; [by left|right]. by eapply elem_of_submseteq, sublist_submseteq. }
  constructor; unfold get in *; try done.
  - rewrite HP. apply (co_nodup _ _ _ _ Hc).
  - intros a. rewrite HP. destruct Hr as [-> _]. apply (co_dom _ _ _ _ Hc).
  - rewrite HP. apply (co_nz _ _ _ _ Hc).
  - erewrite list_fmap_ext; [|intros i x _; by apply (relinked_pid (tasks s))].
    pose proof (co_pids _ _ _ _ Hc) as Hpd. eapply sublist_NoDup; [exact Hpd|].
    apply fmap_sublist. by constructor.
  - intros a Ha. rewrite (relinked_pid (tasks s)), Hnp by done. apply (co_pid_lt _ _ _ _ Hc), Hin, Ha.
  - rewrite (relinked_pid (tasks s)), (relinked_ttbr (tasks s)) by done. apply (co_idle _ _ _ _ Hc).
  - rewrite Hnp. apply (co_next_pid _ _ _ _ Hc).
  - rewrite Has. apply (co_asid _ _ _ _ Hc).
  - intros a Ha. eapply relinked_wf; [done|]. apply (co_wf _ _ _ _ Hc). by rewrite <- HP.
  - rewrite Henv, (tasks_res_perm _ _ _ Hperm), (tasks_res_frame (tasks s)); [apply (co_res _ _ _ _ Hc)|].
    intros a _. by apply relinked_held.
Qed.

Lemma unlink_spec s L1 t L2 D F :
  core s (L1 ++ t :: L2) D F ->
  core (unlink t s) (L1 ++ L2) (t :: D) F /\ relinked (tasks s) (tasks (unlink t s)) /\
  current (unlink t s) = current s /\ next_asid (unlink t s) = next_asid s.
Proof.
  intros Hc. pose proof (co_ring _ _ _ _ Hc) as Hring. pose proof (co_nodup _ _ _ _ Hc) as Hnd.
  destruct (exists_last (l := IDLE :: L1)) as (M & p & HM); [done|].
  change (IDLE :: L1 ++ t :: L2) with ((IDLE :: L1) ++ t :: L2) in Hring. rewrite HM in Hring.
  change (IDLE :: (L1 ++ t :: L2) ++ D) with (((IDLE :: L1) ++ t :: L2) ++ D) in Hnd. rewrite HM in Hnd.
  assert (p <> t /\ t ∉ M /\ p ∉ M /\ t ∉ L2 /\ p ∉ L2 /\ p ∉ D /\ t ∉ D)
    as (Hpt & HtM & HpM & Ht2 & Hp2 & HpD & HtD).
  { assert (p :: t :: (M ++ L2 ++ D) ≡ₚ ((M ++ [p]) ++ t :: L2) ++ D) as HPm by solve_Permutation.
    rewrite <- HPm, !NoDup_cons, !not_elem_of_cons, !not_elem_of_app in Hnd. tauto. }
  assert (find_pred (fuel s) (tasks s) t t = p) as Hp.
  { apply (find_pred_spec _ _ _ _ (t :: L2 ++ M)).
    - pose proof (path_rotate _ _ _ _ _ Hring) as Hrot.
      replace ((t :: L2 ++ M) ++ [p]) with ((t :: L2) ++ M ++ [p]) by by rewrite app_assoc. done.
    - cbn [app tail]. rewrite !elem_of_app, list_elem_of_singleton. naive_solver.
    - unfold fuel. rewrite (core_size _ _ _ _ Hc). apply (f_equal length) in HM.
      revert HM. rewrite ?length_cons, ?length_app, ?length_cons, ?length_app, ?length_cons. cbn [length]. lia. }
  assert (p ∈ dom (tasks s) /\ t ∈ dom (tasks s)) as [Hpd Htd].
  { split; apply (co_dom _ _ _ _ Hc);
      change (IDLE :: (L1 ++ t :: L2) ++ D) with (((IDLE :: L1) ++ t :: L2) ++ D);
      rewrite ?HM; set_solver. }
  unfold unlink. rewrite Hp. unfold put, get. cbn [tasks set_tasks set_dead_list dead_list].
  set (T2 := upd _ t _).
  assert (relinked (tasks s) T2) as Hr.
  { apply relinked_upd; [apply relinked_upd; [apply relinked_refl|done]|done]. }
  assert (forall x, x <> p -> x <> t -> nx T2 x = nx (tasks s) x) as Hnx.
  { intros x Hxp Hxt. subst T2. unfold nx. by rewrite !task_at_upd_ne. }
  split; [|split; [done|split; done]].
  eapply core_relink; [exact Hc|done|done|done|done| | | |]; cbn [tasks set_tasks set_dead_list dead_list].
  - solve_Permutation.
  - apply sublist_app; [done|]. by apply sublist_cons.
  - change (IDLE :: L1 ++ L2) with ((IDLE :: L1) ++ L2). rewrite HM, <- app_assoc.
    rewrite <- app_assoc in Hring. apply path_app in Hring as (b & HpM1 & Hb & Hpt' & Hp22).
    apply path_app. exists b. split.
    { eapply path_frame; [|exact HpM1]. intros x Hx. apply Hnx; by intros ->. }
    cbn [app path]. split; [done|]. subst T2. unfold nx at 1. rewrite task_at_upd_ne, task_at_upd_eq by done.
    cbn [next set_next]. eapply path_frame; [|exact Hp22].
    intros x Hx. apply Hnx; by intros ->.
  - cbn [path]. split; [done|]. subst T2. unfold nx at 1. rewrite task_at_upd_eq. cbn [next set_next].
    eapply path_frame; [|apply (co_dead _ _ _ _ Hc)]. intros x Hx. apply Hnx; by intros ->.
Qed.

(** *** schedule *)
Lemma core_set_current s L D F a : core s L D F -> core (set_current s a) L D F.
Proof. intros []. by constructor. Qed.

Lemma core_ring_nodup s L D F : core s L D F -> NoDup (IDLE :: L).
Proof.
  intros Hc. pose proof (co_nodup _ _ _ _ Hc) as Hnd.
  change (IDLE :: L ++ D) with ((IDLE :: L) ++ D) in Hnd. by apply NoDup_app in Hnd as [? _].
Qed.

(** The loop of [schedule] is [pick] over [scan]. *)
Lemma select_scan s L D F prev :
  core s L D F -> prev ∈ IDLE :: L ->
  let first := next (get s prev) in
  select (fuel s) (tasks s) prev first first IDLE (-1) =
  pick (tasks s) prev (scan prev (IDLE :: L)) IDLE (-1).
Proof.
  intros Hc Hin first. pose proof (core_ring_nodup _ _ _ _ Hc) as Hnd.
  pose proof (co_ring _ _ _ _ Hc) as Hring. pose proof (core_size _ _ _ _ Hc) as Hsz.
  apply list_elem_of_split in Hin as (L1 & L2 & HR).
  change (IDLE :: L ++ D) with ((IDLE :: L) ++ D) in Hsz. rewrite HR in *.
  apply NoDup_app in Hnd as (Hnd1 & Hx & [Hnp Hnd2]%NoDup_cons).
  assert (prev ∉ L1) as Hp1 by (intros Hq; apply (Hx prev Hq); left).
  rewrite scan_split by done.
  apply path_rotate in Hring as [_ Hp]. change (nx (tasks s) prev) with first in Hp.
  assert (path (tasks s) first (L2 ++ L1 ++ [prev]) first) as Hp'.
  { rewrite app_assoc. apply path_app. by exists prev. }
  apply select_pick; [done| | |].
  - by destruct L2, L1.
  - intros Ht. assert (NoDup (L2 ++ L1 ++ [prev])) as Hnd3.
    { assert (L2 ++ L1 ++ [prev] ≡ₚ L1 ++ prev :: L2) as -> by solve_Permutation.
      apply NoDup_app. split; [done|]. split; [done|]. by constructor. }
    destruct (L2 ++ L1 ++ [prev]) as [|y l]; [by apply not_elem_of_nil in Ht|].
    destruct Hp' as [-> _]. cbn [tail] in Ht. by apply NoDup_cons in Hnd3 as [? _].
  - unfold fuel. rewrite Hsz. rewrite !length_app. cbn [length]. lia.
Qed.

Lemma elem_of_scan p R x : p ∈ R -> NoDup R -> x ∈ scan p R <-> x ∈ R.
Proof.
  intros (L1 & L2 & ->)%list_elem_of_split (_ & Hx & _)%NoDup_app.
  assert (p ∉ L1) by (intros Hq; apply (Hx p Hq); left).
  rewrite scan_split by done. rewrite !elem_of_app, !elem_of_cons, elem_of_nil. tauto.
Qed.

(** The task [schedule] switches to. *)
Definition next_task s (L : list Z) : Z :=
  pick (tasks s) (current s) (scan (current s) (IDLE :: L)) IDLE (-1).

Lemma next_task_in s L D F :
  core s L D F -> current s ∈ IDLE :: L -> next_task s L ∈ IDLE :: L.
Proof.
  intros Hc Hin. unfold next_task.
  destruct (pick_spec (tasks s) (current s) (scan (current s) (IDLE :: L)) IDLE (-1))
    as [[-> _]|(L1 & L2 & HL & _)]; [left|].
  eapply (elem_of_scan (current s)); [done|by eapply core_ring_nodup|]. rewrite HL at 2.
  apply elem_of_app. right. left.
Qed.

Lemma next_task_dead s L :
  current s <> IDLE -> state (get s (current s)) = TASK_DEAD -> next_task s L <> current s.
Proof.
  intros Hne Hd Hq. unfold next_task in Hq.
  destruct (pick_spec (tasks s) (current s) (scan (current s) (IDLE :: L)) IDLE (-1))
    as [[Hq' _]|(L1 & L2 & HL & Hr & _)]; [congruence|]. rewrite Hq in Hr. unfold runnable, is_state in Hr.
  change (task_at (tasks s) (current s)) with (get s (current s)) in Hr. rewrite Hd in Hr.
  cbn in Hr. by rewrite andb_false_r in Hr.
Qed.

(** The tasks change only in their state and their link. *)
Definition restated (tk tk' : task) : Prop :=
  exists st v, tk' = set_state st (set_next v tk).

Lemma get_put_eq s a f : get (put s a f) a = f (get s a).
Proof. apply task_at_upd_eq. Qed.
Lemma get_put_ne s a b f : a <> b -> get (put s a f) b = get s b.
Proof. apply task_at_upd_ne. Qed.
Lemma get_put s a b f : get (put s a f) b = if decide (a = b) then f (get s b) else get s b.
Proof. destruct (decide (a = b)) as [->|]; [apply get_put_eq|by apply get_put_ne]. Qed.

Definition next_state s (L : list Z) (a : Z) : task_state :=
  if decide (a = next_task s L) then TASK_RUNNING
  else if decide (a = current s /\ state (get s a) = TASK_RUNNING) then TASK_READY
  else state (get s a).

(** [schedule] after reaping, as a function of the selected task. *)
Definition switch s (nxt : Z) : sched E :=
  let prev := current s in
  if nxt =? prev then
    if negb (is_state TASK_RUNNING (get s prev)) then put s prev (set_state TASK_RUNNING) else s
  else
    let s := if is_state TASK_RUNNING (get s prev) then put s prev (set_state TASK_READY) else s in
    let s := if is_state TASK_DEAD (get s prev) then unlink prev s else s in
    set_current (put s nxt (set_state TASK_RUNNING)) nxt.

Lemma schedule_switch s L D F :
  core s L D F -> current s ∈ IDLE :: L ->
  schedule s = switch (sched_reap s) (next_task s L) /\ next_task (sched_reap s) L = next_task s L.
Proof.
  intros Hc Hin. destruct (sched_reap_spec s L D F Hc) as (Hc' & Hcur & _ & Hget).
  assert (next_task (sched_reap s) L = next_task s L) as Heq.
  { unfold next_task. rewrite Hcur. apply pick_ext. intros a Ha. apply Hget.
    eapply elem_of_scan; [exact Hin|by eapply core_ring_nodup|done]. }
  split; [|done]. unfold schedule, switch. rewrite <- Hcur in Hin.
  rewrite (select_scan _ _ _ _ _ Hc' Hin). fold (next_task (sched_reap s) L). by rewrite Heq.
Qed.

(** What [switch] establishes, with the queue and reaper list it leaves. *)
Record switched s L nxt s' L' D' F : Prop := {
  sw_core : core s' L' D' F;
  sw_cur : current s' = nxt;
  sw_asid : next_asid s' = next_asid s;
  sw_state a : a ∈ IDLE :: L ->
    state (get s' a) = if decide (a = nxt) then TASK_RUNNING
      else if decide (a = current s /\ state (get s a) = TASK_RUNNING) then TASK_READY
      else state (get s a);
  sw_rest a : a ∈ IDLE :: L -> restated (get s a) (get s' a)
}.

Lemma restated_refl tk : restated tk tk.
Proof. exists (state tk), (next tk). by destruct tk. Qed.
Lemma restated_state st tk tk' : restated tk tk' -> restated tk (set_state st tk').
Proof. intros (st' & v & ->). by exists st, v. Qed.
Lemma restated_next v tk tk' : restated tk tk' -> restated tk (set_next v tk').
Proof. intros (st' & w & ->). by exists st', v. Qed.

Lemma is_state_true st tk : is_state st tk = true <-> state tk = st.
Proof. apply bool_decide_eq_true. Qed.
Lemma is_state_false st tk : is_state st tk = false <-> state tk <> st.
Proof. apply bool_decide_eq_false. Qed.

Lemma switch_live s L F nxt :
  core s L [] F -> current s ∈ IDLE :: L -> nxt ∈ IDLE :: L ->
  state (get s (current s)) <> TASK_DEAD -> switched s L nxt (switch s nxt) L [] F.
Proof.
  intros Hc Hin Hnx Hnd. unfold switch.
  assert (forall a, a ∈ IDLE :: L -> a ∈ IDLE :: L ++ []) as Hl by (rewrite app_nil_r; done).
  assert (forall s1 a v, core s1 L [] F -> a ∈ IDLE :: L -> core (put s1 a (set_state v)) L [] F) as Hcp.
  { intros. apply core_put; [done|by apply Hl|apply keeps_set_state|done]. }
  destruct (Z.eqb_spec nxt (current s)) as [->|Hne].
  - destruct (is_state TASK_RUNNING (get s (current s))) eqn:Er; cbn [negb].
    + apply is_state_true in Er. constructor; try done.
      * intros a Ha. destruct (decide (a = current s)) as [->|]; [done|]. by rewrite decide_False by tauto.
      * intros a Ha. apply restated_refl.
    + apply is_state_false in Er. constructor; try done; [by apply Hcp|..]; intros a Ha; rewrite get_put.
      * destruct (decide (current s = a)) as [<-|Hn]; [by rewrite decide_True|].
        by rewrite !decide_False by naive_solver.
      * case_decide; [apply restated_state|]; apply restated_refl.
  - set (s1 := if is_state TASK_RUNNING _ then _ else s).
    assert (core s1 L [] F /\ current s1 = current s /\ next_asid s1 = next_asid s /\
      (forall a, get s1 a = if decide (a = current s /\ state (get s a) = TASK_RUNNING)
                 then set_state TASK_READY (get s a) else get s a)) as (Hc1 & Hcur1 & Has1 & Hg1).
    { subst s1. destruct (is_state TASK_RUNNING (get s (current s))) eqn:Er.
      - apply is_state_true in Er. split; [by apply Hcp|]. split; [done|]. split; [done|].
        intros a. rewrite get_put. case_decide; subst.
        + by rewrite decide_True.
        + rewrite decide_False; [done|]. intros [-> _]. done.
      - apply is_state_false in Er. do 3 (split; [done|]). intros a. rewrite decide_False; [done|].
        intros [-> ?]. done. }
    assert (is_state TASK_DEAD (get s1 (current s)) = false) as ->.
    { apply is_state_false. rewrite Hg1. by case_decide. }
    constructor; try done.
    + apply core_set_current. by apply Hcp.
    + intros a Ha. change (get (set_current ?x ?y) a) with (get x a). rewrite get_put.
      destruct (decide (nxt = a)) as [<-|Hn]; [by rewrite decide_True|].
      rewrite decide_False by congruence. rewrite Hg1. by case_decide.
    + intros a Ha. change (get (set_current ?x ?y) a) with (get x a). rewrite get_put, Hg1.
      repeat case_decide; repeat apply restated_state; apply restated_refl.
Qed.

Lemma switch_dead s L1 L2 F nxt :
  let L := L1 ++ current s :: L2 in
  core s L [] F -> nxt ∈ IDLE :: L -> nxt <> current s ->
  state (get s (current s)) = TASK_DEAD -> switched s L nxt (switch s nxt) (L1 ++ L2) [current s] F.
Proof.
  intros L Hc Hnx Hne Hd. unfold switch. destruct (Z.eqb_spec nxt (current s)); [done|].
  assert (is_state TASK_RUNNING (get s (current s)) = false) as ->.
  { apply is_state_false. by rewrite Hd. }
  rewrite (proj2 (is_state_true TASK_DEAD (get s (current s))) Hd).
  destruct (unlink_spec s L1 (current s) L2 [] F Hc) as (Hc1 & Hr & Hcur1 & Has1).
  set (s1 := unlink (current s) s) in *.
  assert (forall a, exists v, get s1 a = set_next v (get s a)) as Hg by apply Hr.
  constructor; try done.
  - apply core_set_current, core_put; [done| |apply keeps_set_state|done].
    assert (IDLE :: (L1 ++ L2) ++ [current s] ≡ₚ IDLE :: L) as -> by solve_Permutation. done.
  - intros a Ha. change (get (set_current ?x ?y) a) with (get x a). rewrite get_put.
    destruct (decide (nxt = a)) as [<-|Hn]; [by rewrite decide_True|].
    rewrite decide_False by congruence. rewrite decide_False.
    + by destruct (Hg a) as [v ->].
    + intros [-> ?]. congruence.
  - intros a Ha. change (get (set_current ?x ?y) a) with (get x a). rewrite get_put.
    destruct (Hg a) as [v ->].
    repeat case_decide; repeat apply restated_state; apply restated_next, restated_refl.
Qed.

(** The states in which [schedule] may be called: the current task may be in
    any state (it may have blocked, slept or died), the others are neither
    dead nor running. *)
Record callable s (L : list Z) : Prop := {
  ca_cur : current s ∈ IDLE :: L;
  ca_rest a : a ∈ IDLE :: L -> a <> current s ->
    state (get s a) <> TASK_DEAD /\ state (get s a) <> TASK_RUNNING;
  ca_idle : state (get s IDLE) <> TASK_DEAD
}.

Lemma switched_states s L nxt s' L' D' F :
  switched s L nxt s' L' D' F -> callable s L -> nxt ∈ IDLE :: L' ->
  L' ⊆ L -> (current s ∈ IDLE :: L' -> state (get s (current s)) <> TASK_DEAD) ->
  (forall a, a ∈ D' -> a = current s /\ a <> nxt /\ state (get s a) = TASK_DEAD /\ a ∈ IDLE :: L) ->
  states s' L' D'.
Proof.
  intros Hs Hca Hn Hsub Hlive HD.
  assert (forall a, a ∈ IDLE :: L' -> a ∈ IDLE :: L) as Hin.
  { intros a. rewrite !elem_of_cons. intros [?|Ha]; [by left|right]. by apply Hsub. }
  constructor.
  - by rewrite (sw_cur _ _ _ _ _ _ _ Hs).
  - intros a Ha. rewrite (sw_state _ _ _ _ _ _ _ Hs a) by auto. case_decide; [done|]. case_decide; [done|].
    destruct (decide (a = current s)) as [->|Hne]; [auto|]. by apply (ca_rest _ _ Hca a); auto.
  - intros a Ha. destruct (HD a Ha) as (-> & Hne & Hd & Hl).
    rewrite (sw_state _ _ _ _ _ _ _ Hs) by done. rewrite !decide_False; [done| |done].
    intros [_ ?]. congruence.
  - intros a Ha. rewrite (sw_state _ _ _ _ _ _ _ Hs a), (sw_cur _ _ _ _ _ _ _ Hs) by auto.
    case_decide; [done|]. case_decide as Hx; [done|]. intros Hr.
    destruct (decide (a = current s)) as [->|Hne]; [tauto|].
    destruct (ca_rest _ _ Hca a); auto; congruence.
Qed.

Lemma schedule_spec s L D F :
  core s L D F -> callable s L ->
  exists L' D', switched s L (next_task s L) (schedule s) L' D' F /\ states (schedule s) L' D' /\
    ((state (get s (current s)) <> TASK_DEAD /\ L' = L /\ D' = []) \/
     (state (get s (current s)) = TASK_DEAD /\ D' = [current s] /\
      exists L1 L2, L = L1 ++ current s :: L2 /\ L' = L1 ++ L2)).
Proof.
  intros Hc Hca. pose proof (ca_cur _ _ Hca) as Hin.
  destruct (schedule_switch s L D F Hc Hin) as [Heq Hnt].
  destruct (sched_reap_spec s L D F Hc) as (Hc' & Hcur & Hasid & Hget).
  pose proof (next_task_in s L D F Hc Hin) as Hnx. rewrite Heq. set (s1 := sched_reap s) in *.
  assert (current s <> IDLE -> state (get s (current s)) = TASK_DEAD -> next_task s L <> current s)
    as Hndead by apply next_task_dead.
  remember (next_task s L) as nxt eqn:Hnxt. clear Hnxt.
  assert (callable s1 L) as Hca1.
  { constructor; rewrite ?Hcur; [done| |rewrite Hget by left; apply (ca_idle _ _ Hca)].
    intros a Ha Hne. rewrite Hget by done. by apply (ca_rest _ _ Hca). }
  assert (forall s' L' D', switched s1 L nxt s' L' D' F ->
                           switched s L nxt s' L' D' F) as Hback.
  { intros s' L' D' [? ? Ha Hst Hr]. constructor; try done.
    - by rewrite Ha.
    - intros a Hal. rewrite Hst by done. by rewrite Hcur, Hget.
    - intros a Hal. rewrite <- Hget by done. by apply Hr. }
  destruct (decide (state (get s (current s)) = TASK_DEAD)) as [Hd|Hd].
  - assert (current s <> IDLE) as Hni by (intros E'; apply (ca_idle _ _ Hca); congruence).
    pose proof (Hndead Hni Hd) as Hne.
    assert (current s ∈ L) as HinL by (apply elem_of_cons in Hin as [?|?]; done).
    apply list_elem_of_split in HinL as (L1 & L2 & HL).
    pose proof (switch_dead s1 L1 L2 F nxt) as Hsw. cbv zeta in Hsw.
    rewrite Hcur, <- HL, Hget in Hsw by done. specialize (Hsw Hc' Hnx Hne Hd).
    exists (L1 ++ L2), [current s]. split; [by apply Hback|]. split; [|right; eauto 6].
    pose proof (core_ring_nodup _ _ _ _ Hc) as Hnd. rewrite HL in Hnd.
    apply NoDup_cons in Hnd as [Hni' (Hnd1 & Hx & [Hnd2 _]%NoDup_cons)%NoDup_app].
    eapply switched_states; [exact Hsw|done| | | |]; rewrite ?Hcur.
    + rewrite HL in Hnx. revert Hnx. rewrite !elem_of_cons, !elem_of_app, elem_of_cons. tauto.
    + rewrite HL. intros a. rewrite !elem_of_app, elem_of_cons. tauto.
    + rewrite elem_of_cons, elem_of_app. intros [?|[Ha|Ha]]; [done| |done].
      exfalso. apply (Hx _ Ha). left.
    + intros a ->%list_elem_of_singleton. rewrite Hget by done. done.
  - pose proof (switch_live s1 L F nxt) as Hsw. rewrite Hcur, Hget in Hsw by done.
    specialize (Hsw Hc' Hin Hnx Hd). exists L, []. split; [by apply Hback|]. split; [|by left].
    eapply switched_states; [exact Hsw|done|done|done| |].
    + by rewrite Hcur, Hget.
    + intros a Ha. by apply not_elem_of_nil in Ha.
Qed.

Lemma inv_callable s L D F : sched_inv s L D F -> callable s L.
Proof.
  intros [Hc Hst]. constructor; [apply (st_cur _ _ _ Hst)| |apply (st_alive _ _ _ Hst); left].
  intros a Ha Hne. split; [by apply (st_alive _ _ _ Hst)|]. intros Hr. apply Hne. by apply (st_running _ _ _ Hst).
Qed.

(** The current task changes its own state before it calls [schedule]. *)
Lemma inv_put_current s L D F f :
  sched_inv s L D F -> keeps (get s (current s)) (f (get s (current s))) ->
  held (f (get s (current s))) = held (get s (current s)) ->
  (current s = IDLE -> state (f (get s IDLE)) <> TASK_DEAD) ->
  core (put s (current s) f) L D F /\ callable (put s (current s) f) L.
Proof.
  intros Hi Hk Hh Hidle. pose proof (inv_callable _ _ _ _ Hi) as Hca. destruct Hi as [Hc Hst]. split.
  - apply core_put; [done| |done|done]. pose proof (st_cur _ _ _ Hst) as Hin.
    revert Hin. rewrite !elem_of_cons, elem_of_app. tauto.
  - constructor; cbn [put set_tasks current].
    + apply (ca_cur _ _ Hca).
    + intros a Ha Hne. rewrite get_put_ne by done. by apply (ca_rest _ _ Hca).
    + rewrite get_put. case_decide as Hd; [by apply Hidle|apply (ca_idle _ _ Hca)].
Qed.

(** *** Looking tasks up by pid *)
Lemma find_loop_spec n T head t L pid_ :
  path T t L head -> L <> [] -> head ∉ tail L -> 0 ∉ L -> (length L <= n)%nat ->
  let r := find_loop n T head t pid_ in
  (r = 0 /\ forall a, a ∈ L -> pid (task_at T a) <> pid_) \/ (r ∈ L /\ pid (task_at T r) = pid_).
Proof.
  revert t L. induction n as [|n IH]; intros t L Hp Hne Hh Hz Hn.
  { destruct L; [done|cbn [length] in Hn; lia]. }
  destruct L as [|x L]; [done|]. destruct Hp as [-> Hp]. cbn [find_loop]. cbv zeta.
  change (next (task_at T x)) with (nx T x).
  destruct (Z.eqb_spec (pid (task_at T x)) pid_) as [Hq|Hq]; [right; split; [left|done]|].
  apply not_elem_of_cons in Hz as [Hz1 Hz2]. destruct L as [|y L].
  - cbn [path] in Hp. rewrite Hp, Z.eqb_refl. left. split; [done|].
    by intros a ->%list_elem_of_singleton.
  - pose proof Hp as [Hy _]. cbn [tail] in Hh. apply not_elem_of_cons in Hh as [Hh1 Hh2].
    destruct (Z.eqb_spec (nx T x) head); [congruence|].
    destruct (IH (nx T x) (y :: L) Hp ltac:(done) Hh2 Hz2) as [[-> Ha]|[Hr1 Hr2]]; [cbn [length] in *; lia|left|right].
    + split; [done|]. intros a [->|Hin]%elem_of_cons; [done|by apply Ha].
    + split; [by right|done].
Qed.

Lemma core_walk s L D F :
  core s L D F -> path (tasks s) IDLE (IDLE :: L) IDLE /\ IDLE ∉ tail (IDLE :: L) /\
  0 ∉ IDLE :: L /\ (length (IDLE :: L) <= fuel s)%nat.
Proof.
  intros Hc. split; [apply (co_ring _ _ _ _ Hc)|]. split.
  - by pose proof (core_ring_nodup _ _ _ _ Hc) as [? _]%NoDup_cons.
  - split.
    + pose proof (co_nz _ _ _ _ Hc) as Hz. revert Hz. rewrite !elem_of_cons, elem_of_app. tauto.
    + unfold fuel. rewrite (core_size _ _ _ _ Hc). cbn [length]. rewrite length_app. lia.
Qed.

Lemma sched_find_task_spec s L D F pid_ :
  core s L D F -> let r := sched_find_task pid_ s in
  (r = 0 /\ forall a, a ∈ IDLE :: L -> pid (get s a) <> pid_) \/ (r ∈ IDLE :: L /\ pid (get s r) = pid_).
Proof.
  intros Hc. destruct (core_walk _ _ _ _ Hc) as (Hp & Ht & Hz & Hn).
  by apply (find_loop_spec (fuel s) (tasks s) IDLE IDLE (IDLE :: L) pid_).
Qed.

Lemma pid_inj s L D F a b :
  core s L D F -> a ∈ IDLE :: L -> b ∈ IDLE :: L -> pid (get s a) = pid (get s b) -> a = b.
Proof.
  intros Hc Ha Hb Hp. pose proof (co_pids _ _ _ _ Hc) as Hnd.
  apply list_elem_of_lookup in Ha as [i Hi]. apply list_elem_of_lookup in Hb as [j Hj].
  assert (i = j) as ->; [|congruence].
  eapply (NoDup_lookup _ i j _ Hnd); rewrite list_lookup_fmap; [by rewrite Hi|]. by rewrite Hj, Hp.
Qed.

Lemma sched_find_task_in s L D F a :
  core s L D F -> a ∈ IDLE :: L -> sched_find_task (pid (get s a)) s = a.
Proof.
  intros Hc Ha. destruct (sched_find_task_spec s L D F (pid (get s a)) Hc) as [[_ Hn]|[Hin Hp]].
  - by destruct (Hn a Ha).
  - by eapply pid_inj.
Qed.

(** [sched_kill_task] looks the task up the same way. *)
Definition kill_found s (r : Z) : Z * sched E :=
  if is_state TASK_DEAD (get s r) then (-1, s)
  else if r =? current s then (0, task_exit s)
  else (0, put (unlink r s) r (set_state TASK_DEAD)).

Lemma kill_loop_find n head t L pid_ s :
  path (tasks s) t L head -> L <> [] -> head ∉ tail L -> 0 ∉ L -> (length L <= n)%nat ->
  kill_loop n head t pid_ s =
  let r := find_loop n (tasks s) head t pid_ in if r =? 0 then (-1, s) else kill_found s r.
Proof.
  revert t L. induction n as [|n IH]; intros t L Hp Hne Hh Hz Hn.
  { destruct L; [done|cbn [length] in Hn; lia]. }
  destruct L as [|x L]; [done|]. destruct Hp as [-> Hp]. cbn [find_loop kill_loop]. cbv zeta.
  fold (get s x). change (next (get s x)) with (nx (tasks s) x).
  apply not_elem_of_cons in Hz as [Hz1 Hz2].
  destruct (Z.eqb_spec (pid (get s x)) pid_) as [Hq|Hq]; cbn [negb].
  { destruct (Z.eqb_spec x 0); [by subst|done]. }
  destruct L as [|y L].
  - cbn [path] in Hp. rewrite Hp, Z.eqb_refl. done.
  - pose proof Hp as [Hy _]. cbn [tail] in Hh. apply not_elem_of_cons in Hh as [Hh1 Hh2].
    destruct (Z.eqb_spec (nx (tasks s) x) head); [congruence|].
    apply (IH _ (y :: L)); try done. cbn [length] in *. lia.
Qed.

Lemma sched_kill_task_find s L D F pid_ :
  core s L D F ->
  sched_kill_task pid_ s =
  if pid_ =? 0 then (-1, s)
  else let r := sched_find_task pid_ s in if r =? 0 then (-1, s) else kill_found s r.
Proof.
  intros Hc. unfold sched_kill_task. destruct (pid_ =? 0); [done|].
  destruct (core_walk _ _ _ _ Hc) as (Hp & Ht & Hz & Hn).
  by apply (kill_loop_find (fuel s) IDLE IDLE (IDLE :: L) pid_ s).
Qed.

(** Killing another task moves it from the queue to the reaper list. *)
Lemma kill_other s L1 t L2 D F :
  sched_inv s (L1 ++ t :: L2) D F -> t <> current s ->
  sched_inv (put (unlink t s) t (set_state TASK_DEAD)) (L1 ++ L2) (t :: D) F.
Proof.
  intros [Hc Hst] Hne. destruct (unlink_spec s L1 t L2 D F Hc) as (Hc1 & Hr & Hcur & _).
  assert (t ∈ IDLE :: (L1 ++ L2) ++ t :: D) as Hin.
  { right. apply elem_of_app. right. left. }
  split; [apply core_put; [done|done|apply keeps_set_state|done]|].
  assert (forall a, state (get (unlink t s) a) = state (get s a)) as Hs.
  { intros a. by apply relinked_state. }
  pose proof (co_nodup _ _ _ _ Hc) as Hnd.
  assert (forall a, a ∈ IDLE :: L1 ++ L2 -> a ∈ IDLE :: L1 ++ t :: L2 /\ a <> t) as Hsub.
  { intros a Ha. split.
    - revert Ha. rewrite !elem_of_cons, !elem_of_app, elem_of_cons. tauto.
    - intros ->. assert (t :: (IDLE :: L1 ++ L2) ++ D ≡ₚ IDLE :: (L1 ++ t :: L2) ++ D) as HP by solve_Permutation.
      rewrite <- HP in Hnd. apply NoDup_cons in Hnd as [Hnd _]. apply Hnd, elem_of_app. by left. }
  constructor; cbn [put set_tasks current].
  - rewrite Hcur. pose proof (st_cur _ _ _ Hst) as Hx. revert Hx.
    rewrite !elem_of_cons, !elem_of_app, elem_of_cons. naive_solver.
  - intros a Ha. destruct (Hsub a Ha). rewrite get_put_ne, Hs by done. by apply (st_alive _ _ _ Hst).
  - intros a Ha. rewrite get_put. case_decide; [done|]. rewrite Hs. apply (st_dead _ _ _ Hst).
    apply elem_of_cons in Ha as [?|?]; [congruence|done].
  - intros a Ha. destruct (Hsub a Ha). rewrite get_put_ne, Hs, Hcur by done. by apply (st_running _ _ _ Hst).
Qed.

(** *** Insertion into the queue *)

(** The ring cut in front of [c]. *)
Lemma ring_cut T L c :
  path T IDLE (IDLE :: L) IDLE -> c ∈ IDLE :: L ->
  exists M p X, IDLE :: L = (M ++ [p]) ++ X /\ path T IDLE (M ++ [p]) c /\ path T c X IDLE /\
    exists Y, X ++ M ++ [p] = c :: Y.
Proof.
  intros Hp Hc. apply elem_of_cons in Hc as [->|Hc].
  - destruct (exists_last (l := IDLE :: L)) as (M & p & HM); [done|].
    exists M, p, []. rewrite app_nil_r, HM. rewrite HM in Hp. do 3 (split; [done|]).
    exists L. cbn [app]. by rewrite HM.
  - apply list_elem_of_split in Hc as (L1 & L2 & ->).
    destruct (exists_last (l := IDLE :: L1)) as (M & p & HM); [done|].
    change (IDLE :: L1 ++ c :: L2) with ((IDLE :: L1) ++ c :: L2) in *. rewrite HM in *.
    exists M, p, (c :: L2). split; [done|]. apply path_app in Hp as (b & H1' & H2').
    pose proof H2' as [-> _]. split; [done|]. split; [done|]. by eexists.
Qed.

(** Linking [t] in after [p], in front of [c]. *)
Definition link_in (T : gmap Z task) (p t c : Z) : gmap Z task :=
  upd (upd T p (set_next t)) t (set_next c).

Lemma link_in_path T M p X t c d D :
  path T IDLE (M ++ [p]) c -> path T c X IDLE -> path T d D 0 ->
  NoDup (((M ++ [p]) ++ X) ++ D) -> t ∉ ((M ++ [p]) ++ X) ++ D ->
  path (link_in T p t c) IDLE ((M ++ [p]) ++ t :: X) IDLE /\ path (link_in T p t c) d D 0.
Proof.
  intros HM HX HD Hnd Ht. unfold link_in. set (T2 := upd _ t _).
  assert (p :: (M ++ X ++ D) ≡ₚ ((M ++ [p]) ++ X) ++ D) as HP by solve_Permutation.
  rewrite <- HP in Hnd, Ht. apply NoDup_cons in Hnd as [Hp _].
  rewrite !not_elem_of_cons, !not_elem_of_app in *.
  destruct Hp as (HpM & HpX & HpD), Ht as (Htp & HtM & HtX & HtD).
  assert (forall x, x <> p -> x <> t -> nx T2 x = nx T x) as Hnx.
  { intros x Hxp Hxt. subst T2. unfold nx. by rewrite !task_at_upd_ne. }
  split; [|eapply path_frame; [|exact HD]; intros x Hx; apply Hnx; by intros ->].
  rewrite <- app_assoc. apply path_app in HM as (b & HM & -> & Hpc).
  apply path_app. exists p. split.
  { eapply path_frame; [|exact HM]. intros x Hx. apply Hnx; by intros ->. }
  cbn [app path]. split; [done|]. subst T2. unfold nx at 1. rewrite task_at_upd_ne, task_at_upd_eq by done.
  cbn [next set_next]. split; [done|]. unfold nx at 1. rewrite task_at_upd_eq. cbn [next set_next].
  eapply path_frame; [|exact HX]. intros x Hx. apply Hnx; by intros ->.
Qed.

Definition with_new s (t : Z) (tk : task) (asid : Z) (e : E) : sched E :=
  MkSched (<[t := tk]> (tasks s)) (current s) (next_pid s + 1) (dead_list s) asid e.

(** [enqueue] finds the predecessor of [current]. *)
Lemma enqueue_links s L D F t tk asid e :
  core s L D F -> current s ∈ IDLE :: L -> t ∉ IDLE :: L ++ D ->
  let T1 := <[t := tk]> (tasks s) in
  exists p L1 L2, L = L1 ++ L2 /\ p ∈ IDLE :: L /\
    enqueue t (with_new s t tk asid e) =
    MkSched (link_in T1 p t (current s)) (current s) (next_pid s + 1) (dead_list s) asid e /\
    path (link_in T1 p t (current s)) IDLE (IDLE :: L1 ++ t :: L2) IDLE /\
    path (link_in T1 p t (current s)) (dead_list s) D 0.
Proof.
  intros Hc Hcur Ht T1.
  destruct (ring_cut _ _ _ (co_ring _ _ _ _ Hc) Hcur) as (M & p & X & HR & HpM & HpX & Y & HY).
  pose proof (co_nodup _ _ _ _ Hc) as Hnd. change (IDLE :: L ++ D) with ((IDLE :: L) ++ D) in Hnd, Ht.
  rewrite HR in Hnd, Ht.
  assert (forall l a z, path (tasks s) a l z -> l ⊆ ((M ++ [p]) ++ X) ++ D -> path T1 a l z) as Hfr.
  { intros l a z Hp Hl. eapply path_frame; [|exact Hp]. intros x Hx. unfold nx, T1.
    rewrite task_at_insert_ne; [done|]. intros ->. by apply Ht, Hl. }
  apply Hfr in HpM; [|set_solver]. apply Hfr in HpX; [|set_solver].
  destruct (link_in_path T1 M p X t (current s) (dead_list s) D) as [Hr Hd]; try done.
  { apply Hfr; [apply (co_dead _ _ _ _ Hc)|set_solver]. }
  destruct (M ++ [p]) as [|i0 L1] eqn:HMp; [by destruct M|]. cbn [app] in HR. injection HR as <- HL.
  exists p, L1, X. split; [done|]. split.
  { rewrite HL. change (IDLE :: L1 ++ X) with ((IDLE :: L1) ++ X). rewrite <- HMp. set_solver. }
  split; [|done]. unfold enqueue. change (tasks (with_new s t tk asid e)) with T1.
  change (current (with_new s t tk asid e)) with (current s).
  rewrite (find_pred_spec _ T1 _ _ (X ++ M) p); [done| | |].
  - rewrite <- app_assoc, HMp. apply path_app. by exists IDLE.
  - rewrite <- app_assoc, HMp, HY. cbn [tail]. apply NoDup_app in Hnd as (Hnd & _ & _).
    assert (X ++ IDLE :: L1 ≡ₚ (IDLE :: L1) ++ X) as HP by solve_Permutation.
    rewrite <- HP, HY in Hnd. by apply NoDup_cons in Hnd as [? _].
  - unfold fuel, with_new. cbn [tasks]. rewrite map_size_insert_None.
    2: { apply not_elem_of_dom. rewrite (co_dom _ _ _ _ Hc), HL. done. }
    rewrite (core_size _ _ _ _ Hc), HL. change (IDLE :: (L1 ++ X) ++ D) with (((IDLE :: L1) ++ X) ++ D).
    rewrite <- HMp, !length_app. cbn [length]. lia.
Qed.

Lemma enqueue_spec s L D F t tk asid e :
  core s L D F -> current s ∈ IDLE :: L -> t ∉ IDLE :: L ++ D -> t <> 0 -> task_wf tk ->
  pid tk = next_pid s -> next_pid s + 1 < 2 ^ 31 -> 1 <= asid < 65536 ->
  te_ok (hblock t ⋆ held tk ⋆ tasks_res (tasks s) (L ++ D) ⋆ F) e ->
  let s' := enqueue t (with_new s t tk asid e) in
  exists L1 L2, L = L1 ++ L2 /\ core s' (L1 ++ t :: L2) D F /\ current s' = current s /\
    next_asid s' = asid /\ next_pid s' = next_pid s + 1 /\
    (forall a, exists v, get s' a = set_next v (if decide (a = t) then tk else get s a)).
Proof.
  intros Hc Hcur Ht Hnz Hwf Hpid Hlt Hasid Hok s'.
  destruct (enqueue_links s L D F t tk asid e Hc Hcur Ht) as (p & L1 & L2 & HL & Hpin & Hs' & Hr & Hd).
  fold s' in Hs'. set (T1 := <[t := tk]> (tasks s)) in *. set (T2 := link_in T1 p t (current s)) in *.
  assert (dom T1 = {[t]} ∪ dom (tasks s)) as Hd1 by apply dom_insert_L.
  assert (relinked T1 T2) as Hrl.
  { apply relinked_upd; [apply relinked_upd; [apply relinked_refl|]|]; rewrite Hd1, elem_of_union; [right|left].
    - apply (co_dom _ _ _ _ Hc). revert Hpin. rewrite !elem_of_cons, elem_of_app. tauto.
    - by apply elem_of_singleton. }
  assert (forall a, exists v, task_at T2 a = set_next v (if decide (a = t) then tk else get s a)) as Hg.
  { intros a. destruct (proj2 Hrl a) as [v ->]. exists v. f_equal. unfold T1.
    case_decide as Ha; [subst; apply task_at_insert_eq|]. by apply task_at_insert_ne. }
  assert (IDLE :: (L1 ++ t :: L2) ++ D ≡ₚ t :: IDLE :: L ++ D) as HP by (rewrite HL; solve_Permutation).
  assert (IDLE :: L1 ++ t :: L2 ≡ₚ t :: IDLE :: L) as HPL by (rewrite HL; solve_Permutation).
  assert (t ∉ IDLE :: L) as HtL by (revert Ht; rewrite !elem_of_cons, elem_of_app; tauto).
  assert (forall a, a ∈ IDLE :: L -> exists v, task_at T2 a = set_next v (get s a)) as HgL.
  { intros a Ha. destruct (Hg a) as [v Hv]. rewrite decide_False in Hv by (by intros ->). eauto. }
  exists L1, L2. split; [done|]. rewrite Hs'. split; [|done].
  constructor; unfold get; cbn [tasks dead_list next_pid next_asid env].
  - done.
  - done.
  - rewrite HP. constructor; [done|apply (co_nodup _ _ _ _ Hc)].
  - intros a. rewrite HP, (proj1 Hrl), Hd1, elem_of_union, elem_of_singleton, (co_dom _ _ _ _ Hc).
    by rewrite (elem_of_cons _ a t).
  - rewrite HP, not_elem_of_cons. split; [congruence|apply (co_nz _ _ _ _ Hc)].
  - rewrite HPL, fmap_cons. apply NoDup_cons. destruct (Hg t) as [v Ev]. rewrite Ev, decide_True by done.
    cbn [pid set_next]. rewrite Hpid. erewrite (list_fmap_ext _ (fun a => pid (get s a))).
    2: { intros i x Hx. apply list_elem_of_lookup_2 in Hx. by destruct (HgL x Hx) as [w ->]. }
    split; [|apply (co_pids _ _ _ _ Hc)]. intros (a & Ha & Hin)%list_elem_of_fmap.
    pose proof (co_pid_lt _ _ _ _ Hc a Hin). lia.
  - intros a Ha. rewrite HPL in Ha. pose proof (co_next_pid _ _ _ _ Hc).
    apply elem_of_cons in Ha as [->|Ha].
    + destruct (Hg t) as [v ->]. rewrite decide_True by done. cbn [pid set_next]. lia.
    + destruct (HgL a Ha) as [v ->]. pose proof (co_pid_lt _ _ _ _ Hc a Ha). cbn [pid set_next]. lia.
  - destruct (HgL IDLE ltac:(left)) as [v ->]. apply (co_idle _ _ _ _ Hc).
  - pose proof (co_next_pid _ _ _ _ Hc). lia.
  - done.
  - intros a Ha. rewrite HP in Ha. destruct (Hg a) as [v ->].
    assert (forall w tk', task_wf tk' -> task_wf (set_next w tk')) as Hw by (intros ?? []; by constructor).
    apply Hw. case_decide; [done|]. apply (co_wf _ _ _ _ Hc). by apply elem_of_cons in Ha as [?|?].
  - assert ((L1 ++ t :: L2) ++ D ≡ₚ t :: L ++ D) as HPt by (rewrite HL; solve_Permutation).
    rewrite (tasks_res_perm _ _ _ HPt). cbn [tasks_res]. rewrite (tasks_res_frame (tasks s)).
    2: { intros a Ha. destruct (Hg a) as [v ->]. rewrite decide_False; [done|]. intros ->. apply Ht. by right. }
    destruct (Hg t) as [v ->]. by rewrite decide_True by done.
Qed.

(** A new task [tk] has joined the queue, in front of the current task. *)
Definition joined s L D F (tk : task) s' : Prop :=
  exists L1 L2 t, L = L1 ++ L2 /\ t ∉ IDLE :: L ++ D /\ sched_inv s' (L1 ++ t :: L2) D F /\
    current s' = current s /\ next_pid s' = next_pid s + 1 /\
    (exists v, get s' t = set_next v tk) /\
    (forall a, a <> t -> exists v, get s' a = set_next v (get s a)).

Lemma enqueue_inv s L D F t tk asid e :
  sched_inv s L D F -> t ∉ IDLE :: L ++ D -> t <> 0 -> task_wf tk ->
  pid tk = next_pid s -> state tk = TASK_READY -> next_pid s + 1 < 2 ^ 31 -> 1 <= asid < 65536 ->
  te_ok (hblock t ⋆ held tk ⋆ tasks_res (tasks s) (L ++ D) ⋆ F) e ->
  joined s L D F tk (enqueue t (with_new s t tk asid e)).
Proof.
  intros [Hc Hst] Ht Hnz Hwf Hpid Hrdy Hlt Has Hok.
  destruct (enqueue_spec s L D F t tk asid e) as (L1 & L2 & HL & Hc' & Hcur & _ & Hnp & Hg); try done.
  { apply (st_cur _ _ _ Hst). }
  exists L1, L2, t. set (s' := enqueue t _) in *.
  assert (forall a, a <> t -> exists v, get s' a = set_next v (get s a)) as Hg'.
  { intros a Ha. destruct (Hg a) as [v Hv]. rewrite decide_False in Hv by done. eauto. }
  assert (exists v, get s' t = set_next v tk) as Hgt.
  { destruct (Hg t) as [v Hv]. rewrite decide_True in Hv by done. eauto. }
  do 2 (split; [done|]). split; [split; [done|]|done].
  assert (forall a, a ∈ IDLE :: L1 ++ t :: L2 -> a = t \/ (a <> t /\ a ∈ IDLE :: L)) as Hin.
  { intros a. rewrite HL, !elem_of_cons, !elem_of_app, elem_of_cons. destruct (decide (a = t)); tauto. }
  constructor.
  - rewrite Hcur. pose proof (st_cur _ _ _ Hst) as Hx. revert Hx.
    rewrite HL, !elem_of_cons, !elem_of_app, elem_of_cons. tauto.
  - intros a [->|[Hne Ha]]%Hin.
    + destruct Hgt as [v ->]. cbn. by rewrite Hrdy.
    + destruct (Hg' a Hne) as [v ->]. by apply (st_alive _ _ _ Hst).
  - intros a Ha. destruct (Hg' a) as [v ->]; [|by apply (st_dead _ _ _ Hst)].
    intros ->. apply Ht. right. apply elem_of_app. by right.
  - intros a [->|[Hne Ha]]%Hin.
    + destruct Hgt as [v ->]. cbn. by rewrite Hrdy.
    + destruct (Hg' a Hne) as [v ->]. rewrite Hcur. by apply (st_running _ _ _ Hst).
Qed.

Lemma inv_set_env s L D F e :
  sched_inv s L D F -> te_ok (tasks_res (tasks s) (L ++ D) ⋆ F) e -> sched_inv (set_env s e) L D F.
Proof. intros [[] []] Hok. by split; constructor. Qed.

(** *** Memory of the new stacks *)
Lemma p2v a n : run_ok a n -> 0 <= n -> PHYS_TO_VIRT a = a + KERNEL_VA_OFFSET.
Proof.
  intros (Ha & _ & Hhi) Hn. unfold PHYS_TO_VIRT, KERNEL_VA_OFFSET, PAGE_SIZE in *.
  apply u64_small. lia.
Qed.

Lemma store_frame_ok r x frame x19 x20 lr e :
  te_ok r e -> x ∈ r_runs r -> in_run frame 160 x -> frame mod 8 = 0 -> 0 <= frame < 2 ^ 64 - 160 ->
  te_ok r (store_frame frame x19 x20 lr e).
Proof.
  intros Hok Hx [Hlo Hhi] Hal Hr. unfold store_frame. rewrite !u64_small by lia.
  repeat (eapply te_store_law; [|exact Hx| |]); try done; unfold in_run; try lia; dlia.
Qed.

(** The kernel stack: four pages; a slot of [n] bytes, [j] bytes below the top. *)
Definition ktop (a : Z) : Z := u64 (PHYS_TO_VIRT a + TASK_STACK_PAGES * PAGE_SIZE).

Lemma stack_run a n : run_ok a n -> 0 <= n -> in_run (PHYS_TO_VIRT a) (n * PAGE_SIZE) (a, n).
Proof. intros Hr Hn. rewrite (p2v a n Hr Hn). unfold in_run. cbn [fst snd]. lia. Qed.

Lemma kstack_slot a j n :
  run_ok a TASK_STACK_PAGES -> 0 <= n <= j -> j <= 16384 -> j mod 8 = 0 -> 0 < j ->
  let f := u64 (ktop a - j) in
  in_run f n (a, TASK_STACK_PAGES) /\ f mod 8 = 0 /\ 0 <= f < 2 ^ 64 - j /\ f = ktop a - j.
Proof.
  intros Hr Hn Hj Hal Hj0. unfold ktop. rewrite (p2v a TASK_STACK_PAGES Hr) by done.
  destruct Hr as (Ha & Hpal & Hhi).
  unfold in_run, TASK_STACK_PAGES, PAGE_SIZE, KERNEL_VA_OFFSET, Heap.KERNEL_VA_OFFSET in *. cbn [fst snd].
  rewrite (u64_small (a + _ + _)) by lia. rewrite u64_small by lia. repeat split; try lia; dlia.
Qed.
End invariant.

(** What the linker script guarantees: [idle_task] is a static, not a heap
    block; the text window is page aligned and lies in physical memory. *)
Class LayoutOk (E : Type) `{TaskEnv E} `{Layout} := {
  lo_idle : IDLE <> 0;
  lo_static r e : te_ok r e -> IDLE ∉ r_blocks r;
  lo_text : 0 <= text_start_pa /\ text_start_pa mod PAGE_SIZE = 0 /\
            text_start_pa <= user_text_end_pa < 2 ^ 40
}.

Section creation.
Context {E : Type} `{TaskEnvLaws E} `{Layout} `{!LayoutOk E}.
Implicit Types (s : sched E).

Lemma fresh_block s L D F t R e :
  core s L D F -> te_ok (hblock t ⋆ R ⋆ (tasks_res (tasks s) (L ++ D) ⋆ F)) e -> t ∉ IDLE :: L ++ D.
Proof.
  intros Hc Hok. rewrite not_elem_of_cons. split.
  - intros ->. apply (lo_static _ _ Hok). cbn. left.
  - intros Hin. destruct (te_blocks_ok _ _ Hok) as [Hnd _]. cbn in Hnd.
    apply NoDup_cons in Hnd as [Hnd _]. apply Hnd. rewrite !elem_of_app. right. left.
    by apply tasks_res_blocks.
Qed.

Lemma asid_range s : 1 <= next_asid s < 65536 ->
  let '(a, s') := sched_asid_alloc s in a = next_asid s /\ 1 <= next_asid s' < 65536.
Proof.
  intros Ha. unfold sched_asid_alloc. cbn [next_asid set_next_asid]. split; [done|].
  unfold u16, wrap. destruct (Z.eqb_spec ((next_asid s + 1) mod 2 ^ 16) 0); [lia|].
  pose proof (Z.mod_pos_bound (next_asid s + 1) (2 ^ 16) ltac:(lia)). lia.
Qed.

(** The task a creation builds. *)
Definition fresh_task (p kstack ustack ttbr usp ksp f : Z) (nm : list Z) : task :=
  MkTask ksp p TASK_READY 0 kstack ttbr usp (ktop kstack) ustack zero_image nm f 0 (replicate 60 0) 0
    (replicate 32 0) 0 0 0 PRIO_DEFAULT PRIO_DEFAULT 0 0 0 0 0 0 0 0 0 0.
Definition kernel_task (p kstack : Z) (nm : list Z) : task :=
  fresh_task p kstack 0 0 0 (u64 (ktop kstack - 160)) 0 (copy_name (replicate 16 0) nm).

Lemma kernel_task_held p k nm : k <> 0 -> held (kernel_task p k nm) ≡ run k TASK_STACK_PAGES.
Proof.
  intros Hk. unfold held, kernel_task, fresh_task, opt_run. cbn [stack_phys].
  by rewrite (proj2 (Z.eqb_neq k 0) Hk).
Qed.

(** Allocation of the task block and of the kernel stack, common to the three
    ways of creating a task: the failures leave the invariant as it was. *)
Ltac start_creation :=
  intros Hi Hlt; pose proof Hi as [Hc _]; pose proof (co_res _ _ _ _ Hc) as HR;
  pose proof (co_next_pid _ _ _ _ Hc) as Hpid.
Ltac failed := cbn [Z.eqb]; intros [= <- <-]; left; split; [done|]; apply inv_set_env; [done|].
Ltac alloc_task_block t e1 Hok1 :=
  match goal with |- context [te_kmalloc SIZEOF_TASK ?e] =>
    let Ek := fresh in
    destruct (te_kmalloc SIZEOF_TASK e) as [t e1] eqn:Ek;
    eapply te_kmalloc_law in Ek as [[-> Hok1]|[Ht Hok1]]; [| |done|done];
    [failed; done|rewrite (proj2 (Z.eqb_neq t 0) Ht)]
  end.
Ltac alloc_stack k n e2 Hok1 Hok2 Hk Hk0 clean :=
  match goal with |- context [te_alloc_pages n ?e] =>
    let Ek := fresh in
    destruct (te_alloc_pages n e) as [k e2] eqn:Ek;
    apply (te_alloc_pages_law _ _ _ _ _ Hok1) in Ek as [[-> Hok2]|[Hk Hok2]]; [| |done];
    [failed; clean|
     assert (k <> 0) as Hk0 by (destruct Hk; lia); rewrite (proj2 (Z.eqb_neq k 0) Hk0)]
  end.

Lemma pid_result p : 0 < p < 2 ^ 31 -> s32 p = p.
Proof. intros. unfold s32, to_signed. rewrite wrap_small by lia. case_if; lia. Qed.

Lemma create_kernel_spec s L D F nm entry r s' :
  sched_inv s L D F -> next_pid s + 1 < 2 ^ 31 ->
  sched_create_kernel_task nm entry s = (r, s') ->
  (r = -1 /\ sched_inv s' L D F) \/
  (r = next_pid s /\ exists k, joined s L D F (kernel_task (next_pid s) k nm) s').
Proof.
  start_creation. unfold sched_create_kernel_task.
  alloc_task_block t e1 Hok1.
  alloc_stack k TASK_STACK_PAGES e2 Hok1 Hok2 Hk Hk0 ltac:(by apply te_kfree_law).
  rewrite (u64_small (next_pid s + 1)), pid_result by lia. intros [= <- <-]. right. split; [done|].
  exists k. fold (ktop k). destruct (kstack_slot k 160 160) as (Hfi & Hfa & Hfr & _); try done.
  apply (te_zero_law _ (k, TASK_STACK_PAGES) (PHYS_TO_VIRT k) (TASK_STACK_PAGES * PAGE_SIZE)) in Hok2;
    [|by left|done|by apply stack_run].
  apply (store_frame_ok _ (k, TASK_STACK_PAGES) (u64 (ktop k - 160)) entry 0 kernel_task_trampoline) in Hok2;
    [|by left|done|done|done].
  match type of Hok2 with te_ok _ ?e =>
    apply (enqueue_inv s L D F t (kernel_task (next_pid s) k nm) (next_asid s) e); try done
  end.
  - eapply (fresh_block _ _ _ _ _ (run k TASK_STACK_PAGES)); [done|]. eapply te_ok_proper; [|exact Hok2].
    aac_reflexivity.
  - apply (co_asid _ _ _ _ Hc).
  - rewrite kernel_task_held by done. eapply te_ok_proper; [|exact Hok2]. aac_reflexivity.
Qed.

Lemma fresh_task_held p k u l0 asid usp ksp f nm :
  k <> 0 -> u <> 0 -> 0 < l0 < 2 ^ 48 -> 0 <= asid ->
  held (fresh_task p k u (Mmu.ttbr_pack l0 asid) usp ksp f nm) ≡
  run k TASK_STACK_PAGES ⋆ run u Mmu.USER_STACK_PAGES ⋆ space l0 ⋆ (if negb (f =? 0) then fdt f else res0).
Proof.
  intros Hk Hu Hl Ha. unfold held, fresh_task, opt_run. cbn [stack_phys ustack_phys ttbr0 fds].
  rewrite Mmu.ttbr_pack_baddr by lia.
  rewrite (proj2 (Z.eqb_neq k 0) Hk), (proj2 (Z.eqb_neq u 0) Hu).
  destruct (Z.eqb_spec (Mmu.ttbr_pack l0 asid) 0) as [Hz|]; [|done].
  pose proof (Mmu.ttbr_pack_baddr l0 asid ltac:(lia) Ha) as Hb. rewrite Hz in Hb.
  change (Mmu.ttbr_baddr 0) with 0 in Hb. lia.
Qed.

Lemma console_fds_ok r e f e' :
  te_ok r e -> console_fds e = (f, e') ->
  te_ok ((if negb (f =? 0) then fdt f else res0) ⋆ r) e'.
Proof.
  intros Hok. unfold console_fds. destruct (te_fd_create e) as [g e1] eqn:Ec.
  apply (te_fd_create_law _ _ _ _ Hok) in Ec as [[-> Hok1]|[Hg Hok1]].
  - cbn [Z.eqb]. intros [= <- <-]. cbn [negb Z.eqb]. by rewrite res_app_0.
  - destruct (Z.eqb_spec g 0); [done|]. intros [= <- <-]. rewrite (proj2 (Z.eqb_neq g 0) Hg). cbn [negb].
    repeat (apply te_fd_open_law; [|cbn; left]). done.
Qed.

Lemma map_text_ok r l0 e :
  te_ok r e -> l0 ∈ r_spaces r ->
  te_ok r (te_map_user l0 Mmu.USER_TEXT_BASE text_start_pa text_pages TEXT_FLAGS e).
Proof.
  intros Hok Hl. destruct lo_text as (H0' & Hal & Hle & Hhi).
  assert (0 <= text_pages /\ text_pages * PAGE_SIZE <= user_text_end_pa - text_start_pa) as [Hp0 Hp1].
  { unfold text_pages. rewrite u64_small by lia. unfold PAGE_SIZE. split; dlia. }
  apply te_map_user_law; try done; unfold Mmu.USER_TEXT_BASE, PAGE_SIZE in *; lia.
Qed.
Lemma map_stack_ok r l0 u e :
  te_ok r e -> l0 ∈ r_spaces r -> run_ok u Mmu.USER_STACK_PAGES ->
  te_ok r (te_map_user l0 ustack_user_base u Mmu.USER_STACK_PAGES STACK_FLAGS e).
Proof.
  intros Hok Hl (Hu & Hal & Hhi). apply te_map_user_law; try done; unfold PAGE_SIZE in *; lia.
Qed.

Ltac alloc_tables l0 e3 Hok2 Hok3 Hl Hl0 clean :=
  match goal with |- context [te_create_tables ?e] =>
    let Ek := fresh in
    destruct (te_create_tables e) as [l0 e3] eqn:Ek;
    apply (te_create_tables_law _ _ _ _ Hok2) in Ek as [[-> Hok3]|[Hl Hok3]];
    [failed; clean|
     assert (l0 <> 0) as Hl0 by (destruct Hl; lia); rewrite (proj2 (Z.eqb_neq l0 0) Hl0)]
  end.

(** The end of [sched_create_task] and [sched_fork]: pid, ASID, fd table and
    insertion, when the task holds its block, its stacks and its tables. *)
Definition finish_user s (t : Z) (tk : Z -> Z -> task) (e : E) : sched E :=
  let '(asid, s) := sched_asid_alloc (set_next_pid s (u64 (next_pid s + 1))) in
  let '(f, e) := console_fds e in
  let s := set_env s e in
  enqueue t (set_tasks s (<[t := tk asid f]> (tasks s))).

Lemma finish_user_ok s L D F t k u l0 usp ksp nm e :
  sched_inv s L D F -> next_pid s + 1 < 2 ^ 31 ->
  t <> 0 -> k <> 0 -> u <> 0 -> run_ok l0 1 ->
  te_ok (hblock t ⋆ run k TASK_STACK_PAGES ⋆ run u Mmu.USER_STACK_PAGES ⋆ space l0
         ⋆ (tasks_res (tasks s) (L ++ D) ⋆ F)) e ->
  exists f, joined s L D F
    (fresh_task (next_pid s) k u (Mmu.ttbr_pack l0 (next_asid s)) usp ksp f nm)
    (finish_user s t (fun asid f =>
       fresh_task (next_pid s) k u (Mmu.ttbr_pack l0 asid) usp ksp f nm) e).
Proof.
  start_creation. intros Ht Hk Hu Hl Hok. unfold finish_user.
  pose proof (asid_range (set_next_pid s (u64 (next_pid s + 1))) (co_asid _ _ _ _ Hc)) as Has.
  destruct (sched_asid_alloc _) as [asid s1] eqn:Ea. cbn [next_asid set_next_pid] in Has.
  destruct Has as [-> Has1]. destruct (console_fds e) as [f e1] eqn:Ef.
  apply (console_fds_ok _ _ _ _ Hok) in Ef. exists f. unfold sched_asid_alloc in Ea. injection Ea as Ea.
  rewrite (u64_small (next_pid s + 1)) in Ea by lia. subst s1.
  match goal with |- joined _ _ _ _ ?tk (enqueue _ (set_tasks (set_env ?s1 _) _)) =>
    apply (enqueue_inv s L D F t tk (next_asid s1) e1); try done
  end.
  - eapply (fresh_block _ _ _ _ _ (run k TASK_STACK_PAGES ⋆ run u Mmu.USER_STACK_PAGES ⋆ space l0
      ⋆ (if negb (f =? 0) then fdt f else res0)));
      [done|]. eapply te_ok_proper; [|exact Ef]. aac_reflexivity.
  - destruct Hl as (? & _ & Hhi). unfold PAGE_SIZE in Hhi. pose proof (co_asid _ _ _ _ Hc).
    rewrite fresh_task_held by (done || lia). eapply te_ok_proper; [|exact Ef]. aac_reflexivity.
Qed.

Lemma create_task_spec s L D F nm entry r s' :
  sched_inv s L D F -> next_pid s + 1 < 2 ^ 31 ->
  text_start_pa <= VIRT_TO_PHYS entry < user_text_end_pa ->
  sched_create_task nm entry s = (r, s') ->
  (r = -1 /\ sched_inv s' L D F) \/
  (r = next_pid s /\ exists k u l0 f, joined s L D F
     (fresh_task (next_pid s) k u (Mmu.ttbr_pack l0 (next_asid s)) Mmu.USER_STACK_TOP
        (u64 (ktop k - 160)) f (copy_name (replicate 16 0) nm)) s').
Proof.
  start_creation. intros Hentry. unfold sched_create_task.
  alloc_task_block t e1 Hok1.
  alloc_stack k TASK_STACK_PAGES e2 Hok1 Hok2 Hk Hk0 ltac:(by apply te_kfree_law).
  apply (te_zero_law _ (k, TASK_STACK_PAGES) (PHYS_TO_VIRT k) (TASK_STACK_PAGES * PAGE_SIZE)) in Hok2;
    [|by left|done|by apply stack_run].
  alloc_tables l0 e3 Hok2 Hok3 Hl Hl0 ltac:(apply te_kfree_law, te_free_pages_law; done).
  destruct (Z.ltb_spec (VIRT_TO_PHYS entry) text_start_pa); [lia|].
  destruct (Z.leb_spec user_text_end_pa (VIRT_TO_PHYS entry)); [lia|]. cbn [orb].
  apply (map_text_ok _ l0) in Hok3; [|by left].
  alloc_stack u Mmu.USER_STACK_PAGES e4 Hok3 Hok4 Hu Hu0
    ltac:(apply te_kfree_law, te_free_pages_law, te_free_tables_law; done).
  apply (te_zero_law _ (u, Mmu.USER_STACK_PAGES) (PHYS_TO_VIRT u) (Mmu.USER_STACK_PAGES * PAGE_SIZE)) in Hok4;
    [|by left|done|by apply stack_run].
  apply (map_stack_ok _ l0 u) in Hok4; [|by left|done].
  fold (ktop k). destruct (kstack_slot k 160 160) as (Hfi & Hfa & Hfr & _); try done.
  eapply (store_frame_ok _ (k, TASK_STACK_PAGES)) in Hok4; [|right; by left|exact Hfi|done|done].
  rewrite pid_result by lia. intros Heq. right.
  match type of Heq with context [console_fds ?e] => set (e5 := e) in * end.
  destruct (finish_user_ok s L D F t k u l0 Mmu.USER_STACK_TOP (u64 (ktop k - 160))
    (copy_name (replicate 16 0) nm) e5 Hi Hlt Ht Hk0 Hu0 Hl) as [f Hj].
  { eapply te_ok_proper; [|apply Hok4]. aac_reflexivity. }
  unfold finish_user in Hj. destruct (sched_asid_alloc _) as [asid s1].
  destruct (console_fds e5) as [f5 e6]. injection Heq as <- <-. split; [done|]. by exists k, u, l0, f.
Qed.

Lemma fork_spec s L D F parent frame r s' :
  sched_inv s L D F -> next_pid s + 1 < 2 ^ 31 ->
  sched_fork parent frame s = (r, s') ->
  (r = -1 /\ sched_inv s' L D F) \/
  (r = next_pid s /\ exists k u l0 f, joined s L D F
     (fresh_task (next_pid s) k u (Mmu.ttbr_pack l0 (next_asid s)) (user_sp (get s parent))
        (u64 (u64 (ktop k - 688) - 160)) f (fork_name (name (get s parent)))) s').
Proof.
  start_creation. unfold sched_fork.
  destruct ((parent =? 0) || (frame =? 0)); [intros [= <- <-]; by left|].
  alloc_task_block t e1 Hok1.
  alloc_stack k TASK_STACK_PAGES e2 Hok1 Hok2 Hk Hk0 ltac:(by apply te_kfree_law).
  apply (te_zero_law _ (k, TASK_STACK_PAGES) (PHYS_TO_VIRT k) (TASK_STACK_PAGES * PAGE_SIZE)) in Hok2;
    [|by left|done|by apply stack_run].
  alloc_tables l0 e3 Hok2 Hok3 Hl Hl0 ltac:(apply te_kfree_law, te_free_pages_law; done).
  apply (map_text_ok _ l0) in Hok3; [|by left].
  alloc_stack u Mmu.USER_STACK_PAGES e4 Hok3 Hok4 Hu Hu0
    ltac:(apply te_kfree_law, te_free_pages_law, te_free_tables_law; done).
  apply (te_copy_law _ (u, Mmu.USER_STACK_PAGES) (PHYS_TO_VIRT u) (PHYS_TO_VIRT (ustack_phys (get s parent)))
    (Mmu.USER_STACK_PAGES * PAGE_SIZE)) in Hok4; [|by left|done|by apply stack_run].
  apply (map_stack_ok _ l0 u) in Hok4; [|by left|done].
  fold (ktop k). destruct (kstack_slot k 688 688) as (Hci & Hca & Hcr & Hcv); try done.
  destruct (kstack_slot k 848 160) as (Hfi & Hfa & Hfr & Hfv); try done.
  assert (u64 (u64 (ktop k - 688) - 160) = u64 (ktop k - 848)) as Hff.
  { rewrite Hcv, Hfv. rewrite u64_small by lia. lia. }
  apply (te_copy_law _ (k, TASK_STACK_PAGES) (u64 (ktop k - 688)) frame 688) in Hok4;
    [|right; by left|done|done].
  apply (te_store_law _ (k, TASK_STACK_PAGES) (u64 (ktop k - 688)) 0) in Hok4;
    [|right; by left|destruct Hci; split; lia|done].
  apply (store_frame_ok _ (k, TASK_STACK_PAGES) (u64 (u64 (ktop k - 688) - 160)) 0 0 fork_return) in Hok4;
    [|right; by left|by rewrite Hff..|rewrite Hff; lia].
  rewrite pid_result by lia. intros Heq. right.
  match type of Heq with context [console_fds ?e] => set (e5 := e) in * end.
  destruct (finish_user_ok s L D F t k u l0 (user_sp (get s parent)) (u64 (u64 (ktop k - 688) - 160))
    (fork_name (name (get s parent))) e5 Hi Hlt Ht Hk0 Hu0 Hl) as [f Hj].
  { eapply te_ok_proper; [|apply Hok4]. aac_reflexivity. }
  clearbody e5. clear Hok1 Hok2 Hok3 Hok4. unfold finish_user, sched_asid_alloc in *.
  destruct (console_fds e5) as [f5 e6]. injection Heq as <- <-. split; [done|].
  exists k, u, l0, f. exact Hj.
Qed.

(** *** Stack growth *)
Lemma grown_res_snoc ps p : grown_res (ps ++ [p]) ≡ opt_run p 1 ⋆ grown_res ps.
Proof.
  induction ps as [|q ps IH]; cbn [grown_res app]; [done|]. rewrite IH. aac_reflexivity.
Qed.

Lemma grow_held tk pa :
  task_wf tk -> stack_grown_count tk < USER_STACK_GROWN_MAX -> pa <> 0 ->
  held (set_stack_grown_count (stack_grown_count tk + 1)
         (set_stack_grown_phys (wr (stack_grown_phys tk) (stack_grown_count tk) pa) tk))
  ≡ run pa 1 ⋆ held tk.
Proof.
  intros [Hlen Hc _] Hlt Hpa. unfold USER_STACK_GROWN_MAX, USER_STACK_PAGES_MAX, Mmu.USER_STACK_PAGES in *.
  assert (grown_res (take (Z.to_nat (stack_grown_count tk + 1))
            (wr (stack_grown_phys tk) (stack_grown_count tk) pa)) ≡
          run pa 1 ⋆ grown_res (take (Z.to_nat (stack_grown_count tk)) (stack_grown_phys tk))) as Hg.
  { replace (Z.to_nat (stack_grown_count tk + 1)) with (S (Z.to_nat (stack_grown_count tk))) by lia.
    unfold wr. erewrite take_S_r; [|apply list_lookup_insert_eq; lia].
    rewrite take_insert_ge by lia. rewrite grown_res_snoc. unfold opt_run.
    by rewrite (proj2 (Z.eqb_neq pa 0) Hpa). }
  unfold held. cbn [stack_phys ustack_phys exec_image stack_grown_count stack_grown_phys ttbr0 fds
    set_stack_grown_count set_stack_grown_phys]. rewrite Hg. aac_reflexivity.
Qed.

Lemma tasks_res_change T L D a f :
  NoDup (L ++ D) -> a ∈ L ++ D ->
  exists R, tasks_res T (L ++ D) ≡ hblock a ⋆ held (task_at T a) ⋆ R /\
    tasks_res (upd T a f) (L ++ D) ≡ hblock a ⋆ held (f (task_at T a)) ⋆ R.
Proof.
  intros Hnd (l1 & l2 & Hl)%list_elem_of_split. rewrite Hl in *.
  assert (a :: l1 ++ l2 ≡ₚ l1 ++ a :: l2) as HP by solve_Permutation.
  exists (tasks_res T (l1 ++ l2)). rewrite <- HP in Hnd. apply NoDup_cons in Hnd as [Hn _].
  split; rewrite <- (tasks_res_perm _ _ _ HP); cbn [tasks_res]; [done|].
  rewrite task_at_upd_eq, (tasks_res_frame T); [done|].
  intros x Hx. rewrite task_at_upd_ne; [done|]. by intros ->.
Qed.

(** The page the growth handler maps: inside the growth zone. *)
Lemma growth_va far :
  Mmu.USER_STACK_TOP - USER_STACK_PAGES_MAX * PAGE_SIZE <= far <
  Mmu.USER_STACK_TOP - Mmu.USER_STACK_PAGES * PAGE_SIZE ->
  let va := far .& unot 64 (PAGE_SIZE - 1) in
  va mod PAGE_SIZE = 0 /\ va <= far < va + PAGE_SIZE /\
  Mmu.USER_STACK_TOP - USER_STACK_PAGES_MAX * PAGE_SIZE <= va /\
  va + PAGE_SIZE <= Mmu.USER_STACK_TOP - Mmu.USER_STACK_PAGES * PAGE_SIZE.
Proof.
  intros Hf va. assert (0 <= far < 2 ^ 64) as Hfr.
  { unfold Mmu.USER_STACK_TOP, USER_STACK_PAGES_MAX, Mmu.USER_STACK_PAGES, PAGE_SIZE in Hf. lia. }
  assert (va = far / 2 ^ 12 * 2 ^ 12) as -> by (apply (land_unot_ones 64 12); lia).
  unfold Mmu.USER_STACK_TOP, USER_STACK_PAGES_MAX, Mmu.USER_STACK_PAGES, PAGE_SIZE in *. dlia.
Qed.

Lemma states_change s L D a f e :
  states s L D -> state (f (get s a)) = state (get s a) -> states (set_env (put s a f) e) L D.
Proof.
  intros [Hcur Ha Hd Hr] Hs.
  assert (forall x, state (get (set_env (put s a f) e) x) = state (get s x)) as Hx.
  { intros x. change (get (set_env (put s a f) e) x) with (get (put s a f) x). rewrite get_put.
    case_decide; [by subst|done]. }
  constructor; [done|..]; intros x; rewrite Hx; auto.
Qed.

(** A successful growth: one more page recorded for the task. *)
Definition grown s (t pa : Z) : task -> task :=
  fun tk => set_stack_grown_count (stack_grown_count (get s t) + 1)
              (set_stack_grown_phys (wr (stack_grown_phys tk) (stack_grown_count (get s t)) pa) tk).

Lemma try_grow_spec s L D F t far r s' :
  sched_inv s L D F -> t = 0 \/ t ∈ IDLE :: L -> 0 <= far < 2 ^ 64 ->
  sched_try_grow_stack t far s = (r, s') ->
  sched_inv s' L D F /\
  ((r = 0 /\ tasks s' = tasks s) \/
   (r = 1 /\ ttbr0 (get s t) <> 0 /\ stack_grown_count (get s t) < USER_STACK_GROWN_MAX /\
    Mmu.USER_STACK_TOP - USER_STACK_PAGES_MAX * PAGE_SIZE <= far <
    Mmu.USER_STACK_TOP - Mmu.USER_STACK_PAGES * PAGE_SIZE /\
    exists pa, run_ok pa 1 /\ tasks s' = upd (tasks s) t (grown s t pa))).
Proof.
  intros Hi Ht Hfar. pose proof Hi as [Hc Hst]. unfold sched_try_grow_stack.
  destruct ((t =? 0) || (ttbr0 (get s t) =? 0)) eqn:E0; [intros [= <- <-]; split; [done|by left]|].
  apply orb_false_iff in E0 as [Et%Z.eqb_neq Eb%Z.eqb_neq].
  set (lo := u64 (Mmu.USER_STACK_TOP - USER_STACK_PAGES_MAX * PAGE_SIZE)).
  set (hi := u64 (Mmu.USER_STACK_TOP - Mmu.USER_STACK_PAGES * PAGE_SIZE)).
  destruct (Z.ltb_spec far lo) as [|Hlo]; [intros [= <- <-]; split; [done|by left]|].
  destruct (Z.leb_spec hi far) as [|Hhi]; [intros [= <- <-]; split; [done|by left]|].
  change lo with (Mmu.USER_STACK_TOP - USER_STACK_PAGES_MAX * PAGE_SIZE) in Hlo.
  change hi with (Mmu.USER_STACK_TOP - Mmu.USER_STACK_PAGES * PAGE_SIZE) in Hhi. cbn [orb]. clear lo hi.
  destruct (Z.leb_spec USER_STACK_GROWN_MAX (stack_grown_count (get s t))) as [|Hcnt];
    [intros [= <- <-]; split; [done|by left]|].
  destruct (te_alloc_page (env s)) as [pa e] eqn:Ea.
  apply (te_alloc_page_law _ _ _ _ (co_res _ _ _ _ Hc)) in Ea as [[-> Hok]|[Hpa Hok]].
  { cbn [Z.eqb]. intros [= <- <-]. split; [by apply inv_set_env|by left]. }
  assert (pa <> 0) as Hpa0 by (destruct Hpa; lia). rewrite (proj2 (Z.eqb_neq pa 0) Hpa0).
  destruct Ht as [|Ht]; [done|].
  assert (t ∈ L) as HtL.
  { apply elem_of_cons in Ht as [->|?]; [|done]. by destruct (co_idle _ _ _ _ Hc). }
  assert (t ∈ L ++ D) as HtLD by (apply elem_of_app; by left).
  pose proof (co_nodup _ _ _ _ Hc) as Hnd. apply NoDup_cons in Hnd as [_ Hnd].
  destruct (tasks_res_change (tasks s) L D t (grown s t pa) Hnd HtLD) as (R & HR1 & HR2).
  pose proof (co_wf _ _ _ _ Hc t ltac:(by right)) as Hwf.
  destruct (growth_va far ltac:(lia)) as (Hva & _ & Hv1 & Hv2). cbv zeta in *.
  remember (far .& unot 64 (PAGE_SIZE - 1)) as va eqn:Hvadef. clear Hvadef.
  apply (te_zero_law _ (pa, 1) (PHYS_TO_VIRT pa) PAGE_SIZE) in Hok;
    [|by left|done|by apply (stack_run pa 1)].
  apply (te_map_user_law _ (Mmu.ttbr_baddr (ttbr0 (get s t))) va pa 1 STACK_FLAGS) in Hok.
  - rewrite u16_small.
    2: { destruct Hwf as [_ Hw _]. unfold USER_STACK_GROWN_MAX, USER_STACK_PAGES_MAX, Mmu.USER_STACK_PAGES in *. lia. }
    match type of Hok with te_ok _ ?e' => set (e2 := e') in * end.
    intros [= <- <-].
    assert (put (put (set_env s e2) t (fun tk => set_stack_grown_phys
              (wr (stack_grown_phys tk) (stack_grown_count (get s t)) pa) tk)) t
              (set_stack_grown_count (stack_grown_count (get s t) + 1))
            = set_env (put s t (grown s t pa)) e2) as ->.
    { unfold put, set_env, set_tasks, upd, grown. cbn [tasks current next_pid dead_list next_asid env].
      f_equal. by rewrite task_at_insert_eq, insert_insert_eq. }
    split; [split|].
    + apply core_change; [done|by right| |].
      * constructor; try done. intros _. destruct Hwf as [Hw1 Hw2 Hw3].
        constructor; cbn [grown stack_grown_phys stack_grown_count priority set_stack_grown_count set_stack_grown_phys];
          [by rewrite length_wr|lia|done].
      * rewrite HR2. eapply te_ok_proper; [|exact Hok]. rewrite HR1.
        change (task_at (tasks s) t) with (get s t). unfold grown. rewrite (grow_held _ _ Hwf Hcnt Hpa0).
        aac_reflexivity.
    + by apply states_change.
    + right. split; [done|]. split; [done|]. split; [done|]. split; [lia|]. by exists pa.
  - destruct HR1 as (_ & _ & HS & _). cbn [r_spaces res_app run app]. rewrite elem_of_app. left.
    rewrite HS. change (task_at (tasks s) t) with (get s t).
    unfold held. rewrite (proj2 (Z.eqb_neq _ 0) Eb). cbn [negb res_app space r_spaces hblock].
    rewrite !elem_of_app. left. right. left. right. by left.
  - unfold Mmu.USER_STACK_TOP, USER_STACK_PAGES_MAX, PAGE_SIZE in Hv1. lia.
  - done.
  - done.
  - unfold Mmu.USER_STACK_TOP, Mmu.USER_STACK_PAGES, PAGE_SIZE in *. lia.
  - destruct Hpa; lia.
  - by destruct Hpa as (_ & ? & _).
  - destruct Hpa as (_ & _ & ?). lia.
  - done.
Qed.

(** *** Waking sleepers *)
Definition expired (now : Z) (tk : task) : bool :=
  is_state TASK_SLEEPING tk && (rt_period_cyc tk =? 0) && (sleep_until tk <=? now).
Definition woken (now : Z) (tk : task) : task :=
  if expired now tk then set_sleep_until 0 (set_state TASK_READY tk) else tk.

Lemma core_put_id s L D F a f :
  core s L D F -> a ∈ IDLE :: L -> keeps (get s a) (f (get s a)) ->
  held (f (get s a)) = held (get s a) -> core (put s a f) L D F.
Proof.
  intros Hc Ha. apply core_put; [done|]. revert Ha. rewrite !elem_of_cons, elem_of_app. tauto.
Qed.

Lemma wake_loop_spec n now t L0 s L D F :
  core s L D F -> path (tasks s) t L0 IDLE -> IDLE ∉ L0 -> NoDup L0 -> L0 ⊆ L -> (length L0 < n)%nat ->
  let s' := wake_loop n now t s in
  core s' L D F /\ current s' = current s /\ env s' = env s /\
  (forall a, get s' a = if decide (a ∈ L0) then woken now (get s a) else get s a).
Proof.
  revert t L0 s. induction n as [|n IH]; intros t L0 s Hc Hp Hn Hnd Hsub Hlen; [lia|]. cbn [wake_loop]. cbv zeta.
  destruct L0 as [|x L0]; cbn [path] in Hp.
  { rewrite Hp, Z.eqb_refl. do 3 (split; [done|]). intros a. by rewrite decide_False by apply not_elem_of_nil. }
  destruct Hp as [-> Hp]. apply not_elem_of_cons in Hn as [Hn1 Hn2]. apply NoDup_cons in Hnd as [Hx Hnd].
  destruct (Z.eqb_spec x IDLE); [congruence|]. cbn [length] in Hlen. fold (expired now (get s x)).
  assert (x ∈ IDLE :: L) as HxL by (right; apply Hsub; left).
  set (s1 := if expired now (get s x) then _ else s).
  assert (core s1 L D F /\ current s1 = current s /\ env s1 = env s /\
          (forall a, get s1 a = if decide (a = x) then woken now (get s a) else get s a))
    as (Hc1 & Hcur1 & Henv1 & Hg1).
  { subst s1. unfold woken. destruct (expired now (get s x)) eqn:Ex.
    - split; [|split; [done|split; [done|]]].
      + apply core_put_id; [apply core_put_id; [done|done|apply keeps_set_state|done]|done|apply keeps_set_sleep|done].
      + intros a. rewrite !get_put. destruct (decide (x = a)) as [<-|]; [by rewrite decide_True, Ex|].
        by rewrite decide_False by congruence.
    - do 3 (split; [done|]). intros a. destruct (decide (a = x)) as [->|]; [by rewrite Ex|done]. }
  assert (forall a, next (get s1 a) = next (get s a)) as Hnext.
  { intros a. rewrite Hg1. unfold woken. by repeat case_match. }
  assert (path (tasks s1) (next (get s1 x)) L0 IDLE) as Hp1.
  { rewrite Hnext. eapply path_frame; [|exact Hp]. intros a _. apply Hnext. }
  destruct (IH (next (get s1 x)) L0 s1) as (IHc & IHcur & IHe & IHg); try done; [|lia|].
  { intros a Ha. apply Hsub. by right. }
  split; [done|]. split; [congruence|]. split; [congruence|]. intros a. rewrite IHg, Hg1.
  destruct (decide (a = x)) as [->|Hne].
  - rewrite decide_False by done. by rewrite decide_True by left.
  - destruct (decide (a ∈ L0)).
    + by rewrite decide_True by by right.
    + rewrite decide_False; [done|]. by intros [?|?]%elem_of_cons.
Qed.

Lemma wake_sleepers_spec s L D F :
  sched_inv s L D F ->
  let s' := sched_wake_sleepers s in
  sched_inv s' L D F /\ current s' = current s /\ env s' = env s /\
  (forall a, get s' a = if decide (a ∈ L) then woken (te_ticks (env s)) (get s a) else get s a).
Proof.
  intros [Hc Hst]. pose proof (co_ring _ _ _ _ Hc) as [_ Hp].
  pose proof (core_ring_nodup _ _ _ _ Hc) as [Hni Hnd]%NoDup_cons.
  destruct (wake_loop_spec (fuel s) (te_ticks (env s)) (nx (tasks s) IDLE) L s L D F) as (Hc' & Hcur & He & Hg);
    try done.
  { unfold fuel. rewrite (core_size _ _ _ _ Hc). cbn [length]. rewrite length_app. lia. }
  change (wake_loop (fuel s) (te_ticks (env s)) (nx (tasks s) IDLE) s) with (sched_wake_sleepers s) in *.
  cbv zeta. split; [|done]. split; [done|].
  destruct Hst as [Hs1 Hs2 Hs3 Hs4]. constructor.
  - by rewrite Hcur.
  - intros a Ha. rewrite Hg. unfold woken. repeat case_match; try done; auto.
  - intros a Ha. rewrite Hg. rewrite decide_False; [auto|]. intros HaL.
    pose proof (co_nodup _ _ _ _ Hc) as Hnd'. apply NoDup_cons in Hnd' as [_ (_ & Hdj & _)%NoDup_app].
    by eapply Hdj.
  - intros a Ha. rewrite Hg, Hcur. unfold woken. repeat case_match; try done; auto.
Qed.

(** *** Boot *)
Definition boot (e : E) : sched E := MkSched ∅ IDLE 0 0 1 e.

Lemma sched_init_spec e F :
  te_ok F e -> sched_inv (sched_init (boot e)) [] [] F.
Proof.
  intros Hok. unfold sched_init, boot.
  cbn [next_pid set_next_pid set_current set_tasks tasks current dead_list next_asid env].
  set (t := set_name _ _).
  assert (forall a, a ∈ IDLE :: [] ++ [] -> a = IDLE) as Hin.
  { intros a. cbn [app]. by rewrite list_elem_of_singleton. }
  assert (task_at (<[IDLE := t]> ∅) IDLE = t) as Ht by apply task_at_insert_eq.
  split; constructor; unfold get;
    cbn [set_next_pid set_current set_tasks tasks current next_pid dead_list next_asid env path].
  - split; [done|]. unfold nx. by rewrite Ht.
  - done.
  - apply NoDup_singleton.
  - intros a. rewrite dom_insert_L, dom_empty_L, elem_of_union, elem_of_singleton.
    cbn [app]. rewrite list_elem_of_singleton. set_solver.
  - cbn [app]. rewrite list_elem_of_singleton. pose proof lo_idle. congruence.
  - apply NoDup_singleton.
  - intros a Ha. rewrite (Hin a Ha), Ht. done.
  - rewrite Ht. done.
  - done.
  - done.
  - intros a Ha. rewrite (Hin a Ha), Ht. by constructor.
  - cbn [tasks_res app]. by rewrite res_app_0.
  - left.
  - intros a Ha. rewrite (Hin a Ha), Ht. done.
  - intros a Ha. by apply not_elem_of_nil in Ha.
  - intros a Ha. by rewrite (Hin a Ha).
Qed.
End creation.

End SchedInv.
