(* ===== verification/SchedThm.v ===== *)
(** * Theorems about the scheduler

    The scheduler as a transition system ([step]), its invariant on every
    reachable state, the choice of the next task, round robin among the tasks
    of the highest priority, sleeping and waking, killing, growth of user
    stacks and ASIDs. *)
From S2P Require Import Prelude PageAlloc Heap Mmu Task TaskEnv BumpEnv Sched SchedInv.
From AAC_tactics Require Import AAC.
#[local] Open Scope Z_scope.

Module SchedThm.
Import SchedInv.

Section theorems.
Context {E : Type} `{TaskEnvLaws E} `{Layout} `{!LayoutOk E}.
Implicit Types (s : sched E).

(** ** The operations as steps

    The calls the rest of the kernel makes, with the conditions of their
    callers: pids stay in range, user tasks start inside the text window, the
    idle task does not exit, pointers to tasks are null or tasks.  [st_env]
    is everything that happens in the other components (ticks, allocations of
    others): it may change the environment but not what the tasks hold. *)
Inductive step : sched E -> sched E -> Prop :=
| st_create_kernel nm entry r s s' :
    next_pid s + 1 < 2 ^ 31 -> sched_create_kernel_task nm entry s = (r, s') -> step s s'
| st_create_rt nm entry prio r s s' :
    next_pid s + 1 < 2 ^ 31 -> 0 <= prio <= PRIO_MAX ->
    sched_create_rt_task nm entry prio s = (r, s') -> step s s'
| st_create nm entry r s s' :
    next_pid s + 1 < 2 ^ 31 -> text_start_pa <= VIRT_TO_PHYS entry < user_text_end_pa ->
    sched_create_task nm entry s = (r, s') -> step s s'
| st_fork parent frame r s s' :
    next_pid s + 1 < 2 ^ 31 -> sched_fork parent frame s = (r, s') -> step s s'
| st_schedule s : step s (schedule s)
| st_exit s : current s <> IDLE -> step s (task_exit s)
| st_kill pid_ r s s' : sched_kill_task pid_ s = (r, s') -> step s s'
| st_sleep ms s : step s (sleep_ms ms s)
| st_wake s : step s (sched_wake_sleepers s)
| st_block s : step s (sched_block_current s)
| st_ready t s : t = 0 \/ t ∈ dom (tasks s) -> step s (sched_make_ready t s)
| st_prio t prio s :
    t = 0 \/ t ∈ dom (tasks s) -> 0 <= prio <= PRIO_MAX -> step s (sched_set_priority t prio s)
| st_grow far r s s' :
    0 <= far < 2 ^ 64 -> sched_try_grow_stack (current s) far s = (r, s') -> step s s'
| st_reap s : step s (sched_reap s)
| st_env e s : (forall r, te_ok r (env s) -> te_ok r e) -> step s (set_env s e).

Definition ok (F : res) s : Prop := exists L D, sched_inv s L D F.

Lemma schedule_ok s L D F : core s L D F -> callable s L -> ok F (schedule s).
Proof.
  intros Hc Hca. destruct (schedule_spec s L D F Hc Hca) as (L' & D' & [Hc' _ _ _ _] & Hst & _).
  by exists L', D'.
Qed.

Lemma current_ok s L D F f :
  sched_inv s L D F -> keeps (get s (current s)) (f (get s (current s))) ->
  held (f (get s (current s))) = held (get s (current s)) ->
  (current s = IDLE -> state (f (get s IDLE)) <> TASK_DEAD) ->
  ok F (schedule (put s (current s) f)).
Proof.
  intros Hi Hk Hh Hd. destruct (inv_put_current s L D F f Hi Hk Hh Hd) as [Hc Hca].
  by eapply schedule_ok.
Qed.

Lemma in_dom s L D F t : core s L D F -> t ∈ dom (tasks s) -> t ∈ IDLE :: L ++ D.
Proof. intros Hc. apply (co_dom _ _ _ _ Hc). Qed.

Lemma joined_ok s L D F tk s' : joined s L D F tk s' -> ok F s'.
Proof. intros (L1 & L2 & t & _ & _ & Hi & _). by exists (L1 ++ t :: L2), D. Qed.

(** A change of one task that the invariant does not see. *)
Lemma put_ok s L D F t f :
  sched_inv s L D F -> t ∈ IDLE :: L ++ D -> keeps (get s t) (f (get s t)) ->
  held (f (get s t)) = held (get s t) ->
  (t ∈ D -> state (f (get s t)) = TASK_DEAD) ->
  (t ∉ D -> state (f (get s t)) <> TASK_DEAD /\
            (state (f (get s t)) = TASK_RUNNING -> state (get s t) = TASK_RUNNING)) ->
  sched_inv (put s t f) L D F.
Proof.
  intros [Hc Hst] Ht Hk Hh HD HL. split; [by apply core_put|].
  assert (forall a, a ∈ IDLE :: L -> a ∉ D) as Hdj.
  { pose proof (co_nodup _ _ _ _ Hc) as Hnd. change (IDLE :: L ++ D) with ((IDLE :: L) ++ D) in Hnd.
    by apply NoDup_app in Hnd as (_ & ? & _). }
  destruct Hst as [Hs1 Hs2 Hs3 Hs4]. constructor; [done|..]; intros a Ha; rewrite get_put;
    (destruct (decide (t = a)) as [->|]; [|by auto]).
  - by apply HL, Hdj.
  - by apply HD.
  - intros Hr. apply Hs4; [done|]. by apply HL; [apply Hdj|].
Qed.

Lemma kill_ok s L D F pid_ r s' :
  sched_inv s L D F -> sched_kill_task pid_ s = (r, s') -> ok F s'.
Proof.
  intros Hi. pose proof Hi as [Hc Hst]. rewrite (sched_kill_task_find _ _ _ _ _ Hc). cbv zeta.
  destruct (Z.eqb_spec pid_ 0); [intros [= <- <-]; by exists L, D|].
  destruct (sched_find_task_spec s L D F pid_ Hc) as [[-> _]|[Hin Hp]].
  { cbn [Z.eqb]. intros [= <- <-]. by exists L, D. }
  set (t := sched_find_task pid_ s) in *.
  destruct (t =? 0); [intros [= <- <-]; by exists L, D|]. unfold kill_found.
  destruct (is_state TASK_DEAD (get s t)); [intros [= <- <-]; by exists L, D|].
  assert (t <> IDLE) as Hni by (intros Hq; pose proof (co_idle _ _ _ _ Hc); rewrite Hq in Hp; lia).
  destruct (Z.eqb_spec t (current s)) as [Hq|Hq]; intros [= <- <-].
  - eapply current_ok; [exact Hi|apply keeps_set_state|done|]. congruence.
  - assert (t ∈ L) as HtL by (apply elem_of_cons in Hin as [?|?]; done).
    apply list_elem_of_split in HtL as (L1 & L2 & ->). exists (L1 ++ L2), (t :: D). by apply kill_other.
Qed.

Lemma create_rt_ok s L D F nm entry prio r s' :
  sched_inv s L D F -> next_pid s + 1 < 2 ^ 31 -> 0 <= prio <= PRIO_MAX ->
  sched_create_rt_task nm entry prio s = (r, s') -> ok F s'.
Proof.
  intros Hi Hlt Hprio. unfold sched_create_rt_task.
  destruct (sched_create_kernel_task nm entry s) as [p s1] eqn:Ec.
  assert (ok F s1) as (L' & D' & Hi').
  { destruct (create_kernel_spec s L D F nm entry p s1 Hi Hlt Ec) as [[_ ?]|[_ [k Hj]]];
      [by exists L, D|by eapply joined_ok]. }
  destruct (p <? 0); [intros [= <- <-]; by exists L', D'|].
  destruct (sched_find_task_spec s1 L' D' F (u64 p) (proj1 Hi')) as [[-> _]|[Hin _]].
  { cbn [Z.eqb]. intros [= <- <-]. by exists L', D'. }
  set (t := sched_find_task (u64 p) s1) in *. destruct (t =? 0); [intros [= <- <-]; by exists L', D'|].
  intros [= <- <-]. exists L', D'. destruct Hi' as [Hc' Hst'].
  assert (put (put s1 t (set_base_priority prio)) t (set_priority prio)
          = put s1 t (fun tk => set_priority prio (set_base_priority prio tk))) as ->.
  { unfold put, set_tasks, upd. cbn [tasks current next_pid dead_list next_asid env]. f_equal.
    by rewrite task_at_insert_eq, insert_insert_eq. }
  assert (t ∉ D') as HnD.
  { pose proof (co_nodup _ _ _ _ Hc') as Hnd. change (IDLE :: L' ++ D') with ((IDLE :: L') ++ D') in Hnd.
    apply NoDup_app in Hnd as (_ & Hdj & _). by apply Hdj. }
  apply put_ok; try done.
  - revert Hin. rewrite !elem_of_cons, elem_of_app. tauto.
  - constructor; try done. intros []. by constructor.
  - intros _. split; [by apply (st_alive _ _ _ Hst')|done].
Qed.

Lemma step_ok s s' F : ok F s -> step s s' -> ok F s'.
Proof.
  intros (L & D & Hi) Hs. pose proof Hi as [Hc Hst].
  destruct Hs as [nm entry r s s' Hlt Hs|nm entry prio r s s' Hlt Hp Hs|nm entry r s s' Hlt He Hs
    |parent frame r s s' Hlt Hs|s|s Hcur|pid_ r s s' Hs|ms s|s|s|t s Ht|t prio s Ht Hp|far r s s' Hf Hs|s|e s He].
  - destruct (create_kernel_spec s L D F nm entry r s' Hi Hlt Hs) as [[_ ?]|[_ [k Hj]]];
      [by exists L, D|by eapply joined_ok].
  - by eapply create_rt_ok.
  - destruct (create_task_spec s L D F nm entry r s' Hi Hlt He Hs) as [[_ ?]|(_ & k & u & l0 & f & Hj)];
      [by exists L, D|by eapply joined_ok].
  - destruct (fork_spec s L D F parent frame r s' Hi Hlt Hs) as [[_ ?]|(_ & k & u & l0 & f & Hj)];
      [by exists L, D|by eapply joined_ok].
  - eapply schedule_ok; [done|by eapply inv_callable].
  - eapply current_ok; [exact Hi|apply keeps_set_state|done|done].
  - by eapply kill_ok.
  - unfold sleep_ms. set (v := u64 _).
    assert (forall f, put (put s (current s) f) (current s) (set_state TASK_SLEEPING)
            = put s (current s) (fun tk => set_state TASK_SLEEPING (f tk))) as Hpp.
    { intros f. unfold put, set_tasks, upd. cbn [tasks current next_pid dead_list next_asid env]. f_equal.
      by rewrite task_at_insert_eq, insert_insert_eq. }
    change (current (put s (current s) (set_sleep_until v))) with (current s). rewrite Hpp.
    eapply current_ok; [exact Hi| |done|done]. constructor; try done. intros []. by constructor.
  - exists L, D. by apply wake_sleepers_spec.
  - eapply current_ok; [exact Hi|apply keeps_set_state|done|done].
  - unfold sched_make_ready. destruct (negb (t =? 0) && negb (is_state TASK_DEAD (get s t))) eqn:Eg.
    2: { by exists L, D. }
    apply andb_true_iff in Eg as [Ez%negb_true_iff%Z.eqb_neq Ed%negb_true_iff%is_state_false].
    destruct Ht as [?|Ht]; [done|]. exists L, D.
    apply put_ok; [done|by eapply in_dom|apply keeps_set_state|done| |done].
    intros HtD. by destruct Ed; apply (st_dead _ _ _ Hst).
  - unfold sched_set_priority. destruct (Z.eqb_spec t 0); [by exists L, D|].
    destruct Ht as [?|Ht]; [done|]. pose proof (in_dom _ _ _ _ _ Hc Ht) as Hin. exists L, D.
    apply put_ok; [done|done|by apply keeps_set_priority|done|apply (st_dead _ _ _ Hst)|].
    intros HnD. split; [|done]. apply (st_alive _ _ _ Hst). revert Hin HnD.
    rewrite !elem_of_cons, elem_of_app. tauto.
  - exists L, D. by eapply try_grow_spec; [exact Hi|right; apply (st_cur _ _ _ Hst)|exact Hf|].
  - destruct (sched_reap_spec s L D F Hc) as (Hc' & Hcur & _ & Hg). exists L, []. split; [done|].
    destruct Hst as [Hs1 Hs2 Hs3 Hs4]. constructor; [by rewrite Hcur|..]; intros a Ha.
    + rewrite Hg by done. auto.
    + by apply not_elem_of_nil in Ha.
    + rewrite Hg, Hcur by done. auto.
  - exists L, D. apply inv_set_env; [done|]. apply He, (co_res _ _ _ _ Hc).
Qed.

(** ** Round robin *)

(** The scan that starts after [t] continues where the scan after [p] met [t]. *)
Lemma scan_rotate p t R X1 X2 :
  NoDup R -> p ∈ R -> scan p R = X1 ++ t :: X2 -> exists Y, scan t R = X2 ++ Y.
Proof.
  intros Hnd (L1 & L2 & ->)%list_elem_of_split Hs.
  assert (forall A x B, L1 ++ p :: L2 = A ++ x :: B -> scan x (L1 ++ p :: L2) = B ++ A ++ [x]) as Hsc.
  { intros A x B Hq. rewrite Hq in *. apply scan_split. apply NoDup_app in Hnd as (_ & Hx & _).
    intros Hin. apply (Hx x Hin). left. }
  rewrite (Hsc L1 p L2 eq_refl) in Hs. clear Hnd.
  assert (forall k, X1 = L2 ++ k -> L1 ++ [p] = k ++ t :: X2 -> exists Y, scan t (L1 ++ p :: L2) = X2 ++ Y) as Hlate.
  { intros k -> Hk. destruct (exists_last (l := t :: X2)) as (Z' & q & HZ); [done|].
    rewrite HZ, app_assoc in Hk. apply app_inj_tail in Hk as [HL1 <-].
    destruct Z' as [|t' Z']; cbn [app] in HZ; injection HZ as -> ->; [by eexists|].
    rewrite (Hsc k t' (Z' ++ p :: L2)).
    - exists (L2 ++ k ++ [t']). by rewrite <- !app_assoc.
    - by rewrite HL1, <- app_assoc. }
  apply app_eq_inv in Hs as [(k & HL2 & Hk)|(k & HX1 & Hk)]; [|by eapply Hlate].
  destruct k as [|t' k]; cbn [app] in Hk.
  - apply (Hlate []); [by rewrite HL2, !app_nil_r|done].
  - injection Hk as -> ->. rewrite (Hsc (L1 ++ p :: X1) t' k).
    + exists (X1 ++ [t']). by rewrite <- !app_assoc.
    + by rewrite HL2, <- app_assoc.
Qed.

(** A ready task of the highest priority. *)
Record top_ready s (L : list Z) (a : Z) : Prop := {
  tr_in : a ∈ IDLE :: L;
  tr_ready : state (get s a) = TASK_READY;
  tr_top b : b ∈ IDLE :: L -> priority (get s b) <= priority (get s a)
}.

Lemma runnable_ready s a : state (get s a) = TASK_READY -> runnable (current s) a (get s a) = true.
Proof. intros Hr. unfold runnable. by rewrite (proj2 (is_state_true _ _) Hr). Qed.

(** The task the scan picks is [a] or lies before it. *)
Lemma next_before s L D F a X Y :
  sched_inv s L D F -> top_ready s L a -> scan (current s) (IDLE :: L) = X ++ a :: Y ->
  next_task s L = a \/ exists X1 X2, X = X1 ++ next_task s L :: X2.
Proof.
  intros [Hc Hst] [Hin Hr Htop] Hs. unfold next_task.
  pose proof (co_wf _ _ _ _ Hc a) as Hwf. destruct Hwf as [_ _ Hp].
  { revert Hin. rewrite !elem_of_cons, elem_of_app. tauto. }
  assert (a ∈ scan (current s) (IDLE :: L)) as Has.
  { rewrite Hs. apply elem_of_app. right. left. }
  destruct (pick_spec (tasks s) (current s) (scan (current s) (IDLE :: L)) IDLE (-1))
    as [[_ Hnone]|(L1 & L2 & HL & Hrt & _ & Hbefore & _)].
  { pose proof (Hnone a Has (runnable_ready s a Hr)) as Hle. unfold get in Hp. lia. }
  set (t := pick _ _ _ _ _) in *.
  assert (t ∈ IDLE :: L) as Ht.
  { eapply (elem_of_scan (current s)); [apply (st_cur _ _ _ Hst)|by eapply core_ring_nodup|].
    rewrite HL. apply elem_of_app. right. left. }
  pose proof (Htop t Ht) as Hle. rewrite HL in Hs. unfold get in *.
  assert (a ∉ L1) as Hn.
  { intros Hx. pose proof (Hbefore a Hx (runnable_ready s a Hr)). lia. }
  apply app_eq_inv in Hs as [(k & HL1 & Hk)|(k & HX & Hk)].
  - destruct k as [|b k]; cbn [app] in Hk; injection Hk as <- _; [by left|].
    exfalso. apply Hn. rewrite HL1. apply elem_of_app. right. left.
  - destruct k as [|b k]; cbn [app] in Hk; injection Hk as <- _; [by left|]. right. by exists L1, k.
Qed.

Lemma round_robin_at k s L D F a X Y :
  length X = k -> sched_inv s L D F -> top_ready s L a -> scan (current s) (IDLE :: L) = X ++ a :: Y ->
  exists n, (n <= S k)%nat /\ current (Nat.iter n schedule s) = a.
Proof.
  revert s D X Y. induction k as [k IH] using lt_wf_ind. intros s D X Y Hk Hi Htr Hs.
  pose proof Hi as [Hc Hst].
  destruct (schedule_spec s L D F Hc (inv_callable _ _ _ _ Hi)) as (L' & D' & Hsw & Hst' & Hcase).
  destruct Hcase as [(_ & -> & ->)|(Hd & _)]; [|by destruct (st_alive _ _ _ Hst _ (st_cur _ _ _ Hst))].
  destruct (next_before s L D F a X Y Hi Htr Hs) as [Hnx|(X1 & X2 & HX)].
  { exists 1%nat. split; [lia|]. cbn. by rewrite (sw_cur _ _ _ _ _ _ _ Hsw). }
  destruct (decide (a = current s)) as [->|Hne]; [by exists 0%nat; split; [lia|]|].
  destruct (decide (a = next_task s L)) as [Heq|Hna].
  { exists 1%nat. split; [lia|]. cbn. by rewrite (sw_cur _ _ _ _ _ _ _ Hsw). }
  pose proof (core_ring_nodup _ _ _ _ Hc) as Hnd.
  rewrite HX, <- app_assoc in Hs. cbn [app] in Hs.
  destruct (scan_rotate _ _ _ _ _ Hnd (st_cur _ _ _ Hst) Hs) as [Z' HZ].
  rewrite <- (sw_cur _ _ _ _ _ _ _ Hsw), <- app_assoc in HZ. cbn [app] in HZ.
  destruct (IH (length X2)) with (s := schedule s) (D := @nil Z) (X := X2) (Y := Y ++ Z') as (n & Hn & Hcur).
  - rewrite HX, length_app in Hk. cbn [length] in Hk. lia.
  - done.
  - split; [apply Hsw|done].
  - destruct Htr as [Hin Hr Htop]. constructor; [done| |].
    + rewrite (sw_state _ _ _ _ _ _ _ Hsw a Hin). rewrite decide_False by done.
      rewrite decide_False; [done|]. by intros [? _].
    + intros b Hb. destruct (sw_rest _ _ _ _ _ _ _ Hsw a Hin) as (? & ? & ->).
      destruct (sw_rest _ _ _ _ _ _ _ Hsw b Hb) as (? & ? & ->). by apply Htop.
  - done.
  - exists (S n). rewrite Nat.iter_succ_r. split; [|done].
    rewrite HX, length_app in Hk. cbn [length] in Hk. lia.
Qed.

Lemma nodup_split (x : Z) L1 L2 K1 K2 :
  NoDup (L1 ++ x :: L2) -> L1 ++ x :: L2 = K1 ++ x :: K2 -> L1 = K1 /\ L2 = K2.
Proof.
  intros Hnd Hq. pose proof Hnd as Hnd'. rewrite Hq in Hnd'.
  assert (forall A B, NoDup (A ++ x :: B) -> x ∉ A) as Hx.
  { intros A B (_ & Hd & _)%NoDup_app Hin. apply (Hd x Hin). left. }
  apply Hx in Hnd, Hnd'. revert K1 Hq Hnd'. induction L1 as [|y L1 IH]; intros [|z K1] Hq Hn'; cbn [app] in Hq.
  - by injection Hq as ->.
  - injection Hq as -> _. destruct Hn'. left.
  - injection Hq as -> _. destruct Hnd. left.
  - injection Hq as -> Hq. rewrite not_elem_of_cons in *. destruct (IH ltac:(tauto) K1 Hq) as [-> ->]; tauto.
Qed.

(** ** Theorems *)

(** C16: from boot, whatever sequence of creations, forks, switches, exits,
    kills, sleeps, wake-ups, blockings, priority changes, stack growths and
    reapings runs, the run queue is a ring through the idle task without
    repetitions, nobody in it is dead, only the current task is running, pids
    are unique, and the ledger balances: what the other components have handed
    out is exactly what the tasks of the queue and of the reaper list hold, on
    top of the resources [F] of everybody else.  No operation leaks a stack, an
    address space, an fd table or a task block, and none frees one twice. *)
Theorem sched_reachable_inv e F s :
  te_ok F e -> rtc step (sched_init (boot e)) s -> exists L D, sched_inv s L D F.
Proof.
  intros Hok Hr. assert (ok F (sched_init (boot e))) as Hi by (exists [], []; by apply sched_init_spec).
  induction Hr as [s|s1 s2 s3 Hs _ IH]; [done|]. apply IH. by eapply step_ok.
Qed.

(** C17: [schedule] switches to the first runnable task of the highest priority
    in the order that starts after the current task, and to the idle task when
    nothing is runnable; the chosen task becomes running, a preempted one
    becomes ready, no other state changes, no field but state and link
    changes, the queue is kept and the reaper list is emptied. *)
Theorem schedule_correct s L D F :
  sched_inv s L D F ->
  let s' := schedule s in
  sched_inv s' L [] F /\
  ((current s' = IDLE /\ forall a, a ∈ IDLE :: L -> runnable (current s) a (get s a) = false) \/
   chosen (tasks s) (current s) (scan (current s) (IDLE :: L)) (-1) (current s')) /\
  (forall a, a ∈ IDLE :: L ->
     restated (get s a) (get s' a) /\
     state (get s' a) = if decide (a = current s') then TASK_RUNNING
       else if decide (a = current s /\ state (get s a) = TASK_RUNNING) then TASK_READY
       else state (get s a)).
Proof.
  intros Hi. pose proof Hi as [Hc Hst]. cbv zeta.
  destruct (schedule_spec s L D F Hc (inv_callable _ _ _ _ Hi)) as (L' & D' & Hsw & Hst' & Hcase).
  destruct Hcase as [(_ & -> & ->)|(Hd & _)]; [|by destruct (st_alive _ _ _ Hst _ (st_cur _ _ _ Hst))].
  split; [split; [apply Hsw|done]|]. rewrite (sw_cur _ _ _ _ _ _ _ Hsw). split.
  - unfold next_task.
    destruct (pick_spec (tasks s) (current s) (scan (current s) (IDLE :: L)) IDLE (-1)) as [[Hp Hn]|Hch];
      [left|by right]. split; [done|]. intros a Ha. apply not_true_is_false. intros Hrun.
    pose proof (Hn a ltac:(by apply elem_of_scan; [apply (st_cur _ _ _ Hst)|by eapply core_ring_nodup|]) Hrun) as Hle.
    destruct (co_wf _ _ _ _ Hc a) as [_ _ Hprio]; [|unfold get in Hprio; lia].
    revert Ha. rewrite !elem_of_cons, elem_of_app. tauto.
  - intros a Ha. split; [by apply (sw_rest _ _ _ _ _ _ _ Hsw)|by apply (sw_state _ _ _ _ _ _ _ Hsw)].
Qed.

(** C18: [sched_kill_task] refuses the idle task and unknown pids without any
    effect; the current task is killed by letting it exit; any other task is
    unlinked from the queue and put on the reaper list as dead, while every
    other task keeps all its fields but the link. *)
Theorem sched_kill_task_correct s L D F pid_ r s' :
  sched_inv s L D F -> sched_kill_task pid_ s = (r, s') ->
  (r = -1 /\ s' = s /\ (pid_ = 0 \/ forall a, a ∈ L -> pid (get s a) <> pid_)) \/
  (r = 0 /\ exists t L1 L2, L = L1 ++ t :: L2 /\ pid (get s t) = pid_ /\
     ((t = current s /\ s' = task_exit s /\ current s' <> t /\ sched_inv s' (L1 ++ L2) [t] F) \/
      (t <> current s /\ current s' = current s /\ sched_inv s' (L1 ++ L2) (t :: D) F /\
       forall a, a ∈ IDLE :: L1 ++ L2 -> exists v, get s' a = set_next v (get s a)))).
Proof.
  intros Hi. pose proof Hi as [Hc Hst]. rewrite (sched_kill_task_find _ _ _ _ _ Hc). cbv zeta.
  destruct (Z.eqb_spec pid_ 0) as [|Hnz]; [intros [= <- <-]; left; tauto|].
  destruct (sched_find_task_spec s L D F pid_ Hc) as [[-> Hno]|[Hin Hp]].
  { cbn [Z.eqb]. intros [= <- <-]. left. split; [done|]. split; [done|]. right.
    intros a Ha. apply Hno. by right. }
  set (t := sched_find_task pid_ s) in *.
  assert (t <> IDLE) as Hni by (intros Hq; pose proof (co_idle _ _ _ _ Hc); rewrite Hq in Hp; lia).
  assert (t ∈ L) as HtL by (apply elem_of_cons in Hin as [?|?]; done).
  destruct (Z.eqb_spec t 0) as [Ht0|_].
  { destruct (co_nz _ _ _ _ Hc). rewrite <- Ht0. right. apply elem_of_app. by left. }
  unfold kill_found. rewrite (proj2 (is_state_false _ _) (st_alive _ _ _ Hst t Hin)).
  pose proof (core_ring_nodup _ _ _ _ Hc) as [_ HndL]%NoDup_cons.
  apply list_elem_of_split in HtL as (L1 & L2 & HL).
  destruct (Z.eqb_spec t (current s)) as [Hq|Hq]; intros [= <- <-]; right; (split; [done|]);
    exists t, L1, L2; (split; [done|]); (split; [done|]); [left|right].
  - split; [done|]. split; [done|]. unfold task_exit.
    destruct (inv_put_current s L D F (set_state TASK_DEAD) Hi (keeps_set_state _ _) eq_refl) as [Hc1 Hca1];
      [congruence|].
    destruct (schedule_spec _ L D F Hc1 Hca1) as (L' & D' & Hsw & Hst' & Hcase). rewrite get_put_eq in Hcase.
    destruct Hcase as [(Hx & _)|(_ & -> & L1' & L2' & HL' & ->)]; [done|].
    cbn [put set_tasks current] in *. rewrite <- Hq in HL'.
    assert (L1' = L1 /\ L2' = L2) as [-> ->].
    { rewrite HL in HL', HndL. by apply nodup_split in HL' as [-> ->]. }
    rewrite <- Hq in *. split; [|by split; [apply Hsw|]].
    pose proof (st_dead _ _ _ Hst' t ltac:(left)) as Hdead. intros Hcur.
    by apply (st_alive _ _ _ Hst' (current _) (st_cur _ _ _ Hst')); rewrite Hcur.
  - rewrite HL in Hi, Hc. split; [done|]. destruct (unlink_spec s L1 t L2 D F Hc) as (_ & Hr & Hcur & _).
    split; [done|]. split; [by apply kill_other|]. intros a Ha. rewrite get_put_ne.
    + apply (proj2 Hr).
    + intros ->. pose proof (core_ring_nodup _ _ _ _ Hc) as Hnd.
      assert (a :: IDLE :: L1 ++ L2 ≡ₚ IDLE :: L1 ++ a :: L2) as HP by solve_Permutation.
      rewrite <- HP in Hnd. by apply NoDup_cons in Hnd as [? _].
Qed.

(** C19: round robin without starvation at the top level.  A ready task whose
    priority no other task exceeds runs after at most as many calls of
    [schedule] as there are tasks in the queue. *)
Theorem schedule_round_robin s L D F a :
  sched_inv s L D F -> top_ready s L a ->
  exists n, (n <= length (IDLE :: L))%nat /\ current (Nat.iter n schedule s) = a.
Proof.
  intros Hi Htr. pose proof Hi as [Hc Hst]. pose proof (core_ring_nodup _ _ _ _ Hc) as Hnd.
  assert (a ∈ scan (current s) (IDLE :: L)) as Hin.
  { apply elem_of_scan; [apply (st_cur _ _ _ Hst)|done|apply (tr_in _ _ _ Htr)]. }
  assert (length (scan (current s) (IDLE :: L)) = length (IDLE :: L)) as Hlen.
  { pose proof (st_cur _ _ _ Hst) as Hcur. apply list_elem_of_split in Hcur as (L1 & L2 & HR).
    rewrite HR in *. rewrite scan_split; [rewrite !length_app; cbn [length]; lia|].
    apply NoDup_app in Hnd as (_ & Hx & _). intros Hq. apply (Hx _ Hq). left. }
  apply list_elem_of_split in Hin as (X & Y & Hs).
  destruct (round_robin_at (length X) s L D F a X Y eq_refl Hi Htr Hs) as (n & Hn & Hcur).
  exists n. split; [|done]. rewrite <- Hlen, Hs, length_app. cbn [length]. lia.
Qed.

(** [sleep_ms] of a task other than idle parks it with the deadline
    [ticks + max 1 (ms / 10)] and switches away; while it is parked,
    [sched_wake_sleepers] leaves it asleep before that tick and makes it ready
    at or after it. *)
Theorem sleep_until_deadline s L D F ms s2 L2 D2 F2 :
  sched_inv s L D F -> 0 <= ms -> 0 <= te_ticks (env s) ->
  te_ticks (env s) + Z.max 1 (ms / TIMER_INTERVAL_MS) < 2 ^ 64 ->
  current s <> IDLE -> rt_period_cyc (get s (current s)) = 0 ->
  sched_inv s2 L2 D2 F2 -> current s ∈ L2 ->
  let a := current s in
  let s1 := sleep_ms ms s in
  (exists v, get s2 a = set_next v (get s1 a)) ->
  current s1 <> a /\ state (get s1 a) = TASK_SLEEPING /\
  state (get (sched_wake_sleepers s2) a) =
    if te_ticks (env s) + Z.max 1 (ms / TIMER_INTERVAL_MS) <=? te_ticks (env s2)
    then TASK_READY else TASK_SLEEPING.
Proof.
  intros Hi Hms Htk Hov Hni Hper Hi2 Hin2 a s1 [v Hg2]. pose proof Hi as [Hc Hst].
  set (d := te_ticks (env s) + Z.max 1 (ms / TIMER_INTERVAL_MS)) in *.
  set (f := fun tk => set_state TASK_SLEEPING (set_sleep_until d tk)).
  assert (s1 = schedule (put s a f)) as Hs1.
  { subst s1 a. unfold sleep_ms.
    assert ((if ms / TIMER_INTERVAL_MS =? 0 then 1 else ms / TIMER_INTERVAL_MS) = Z.max 1 (ms / TIMER_INTERVAL_MS)) as ->.
    { unfold TIMER_INTERVAL_MS. destruct (Z.eqb_spec (ms / 10) 0); dlia. }
    fold d. rewrite u64_small by lia. f_equal. unfold put, set_tasks, upd.
    cbn [tasks current next_pid dead_list next_asid env]. f_equal. by rewrite task_at_insert_eq, insert_insert_eq. }
  assert (keeps (get s a) (f (get s a))) as Hk by (constructor; try done; intros []; by constructor).
  destruct (inv_put_current s L D F f Hi Hk eq_refl ltac:(done)) as [Hc1 Hca1]. fold a in Hc1, Hca1.
  destruct (schedule_spec _ L D F Hc1 Hca1) as (L' & D' & Hsw & Hst' & Hcase). rewrite <- Hs1 in *.
  assert (a ∈ IDLE :: L) as Ha by apply (st_cur _ _ _ Hst).
  assert (next_task (put s a f) L <> a) as Hnx.
  { unfold next_task. intros Hq.
    destruct (pick_spec (tasks (put s a f)) (current (put s a f))
      (scan (current (put s a f)) (IDLE :: L)) IDLE (-1)) as [[Hp _]|(X1 & X2 & _ & Hr & _)];
      [exact (Hni (eq_trans (eq_sym Hq) Hp))|].
    rewrite Hq in Hr. fold (get (put s a f) a) in Hr. rewrite get_put_eq in Hr. unfold runnable, is_state in Hr.
    cbn in Hr. by rewrite andb_false_r in Hr. }
  pose proof (sw_state _ _ _ _ _ _ _ Hsw a Ha) as Hs. rewrite decide_False in Hs by congruence.
  rewrite get_put_eq in Hs. rewrite decide_False in Hs by (intros [_ Hx]; done). cbn in Hs.
  split; [by rewrite (sw_cur _ _ _ _ _ _ _ Hsw)|]. split; [done|].
  destruct (wake_sleepers_spec s2 L2 D2 F2 Hi2) as (_ & _ & _ & Hw). rewrite Hw, decide_True by done.
  destruct (sw_rest _ _ _ _ _ _ _ Hsw a Ha) as (st & w & Hre). rewrite get_put_eq in Hre.
  assert (sleep_until (get s2 a) = d /\ rt_period_cyc (get s2 a) = 0 /\ state (get s2 a) = TASK_SLEEPING)
    as (Hsu & Hpe & Hss).
  { rewrite Hg2, Hre. cbn [set_next set_state sleep_until rt_period_cyc state]. split; [done|]. split; [done|].
    rewrite Hre in Hs. done. }
  unfold woken, expired. rewrite (proj2 (is_state_true _ _) Hss), Hpe, Hsu. cbn [andb Z.eqb].
  destruct (d <=? te_ticks (env s2)); [done|]. done.
Qed.

(** C21: growth of a user stack.  A fault grows the stack by exactly one page
    of memory, recorded for the reaper, only when it lies between 4 and 64
    pages below the stack top of a user task that has grown by less than 60
    pages; it never touches another task, and the cap of 60 pages is never
    exceeded. *)
Theorem sched_try_grow_stack_bounds s L D F far r s' :
  sched_inv s L D F -> 0 <= far < 2 ^ 64 ->
  sched_try_grow_stack (current s) far s = (r, s') ->
  let a := current s in
  sched_inv s' L D F /\ current s' = a /\
  0 <= stack_grown_count (get s' a) <= 60 /\
  (forall b, b <> a -> get s' b = get s b) /\
  ((r = 0 /\ get s' a = get s a) \/
   (r = 1 /\ ttbr0 (get s a) <> 0 /\ 0x800000 - 64 * 4096 <= far < 0x800000 - 4 * 4096 /\
    exists pa, run_ok pa 1 /\
      get s' a = set_stack_grown_count (stack_grown_count (get s a) + 1)
                   (set_stack_grown_phys (wr (stack_grown_phys (get s a)) (stack_grown_count (get s a)) pa)
                      (get s a)))).
Proof.
  intros Hi Hfar Hg a. pose proof Hi as [Hc Hst].
  destruct (try_grow_spec s L D F a far r s' Hi ltac:(right; apply (st_cur _ _ _ Hst)) Hfar Hg) as [Hi' Hcase].
  assert (current s' = a) as Hcur.
  { revert Hg. unfold sched_try_grow_stack. subst a.
    repeat case_match; intros [= <- <-]; done. }
  split; [done|]. split; [done|].
  assert (task_wf (get s' a)) as [_ Hcnt _].
  { apply (co_wf _ _ _ _ (proj1 Hi')). pose proof (st_cur _ _ _ (proj2 Hi')) as Hx. rewrite Hcur in Hx.
    revert Hx. rewrite !elem_of_cons, elem_of_app. tauto. }
  split; [exact Hcnt|]. unfold get in *.
  destruct Hcase as [[-> Ht]|(-> & Httbr & _ & Hz & pa & Hpa & Ht)]; rewrite Ht.
  - split; [done|by left].
  - split; [intros b Hb; by rewrite task_at_upd_ne|]. right. split; [done|]. split; [done|]. split; [exact Hz|].
    exists pa. split; [done|]. by rewrite task_at_upd_eq.
Qed.

Fixpoint asids (n : nat) s : list Z :=
  match n with O => [] | S n' => let '(a, s') := sched_asid_alloc s in a :: asids n' s' end.

Lemma asids_seq n s :
  1 <= next_asid s -> next_asid s + Z.of_nat n <= 65536 -> asids n s = seqZ (next_asid s) (Z.of_nat n).
Proof.
  revert s. induction n as [|n IH]; intros s H1' H2'; [by rewrite seqZ_nil|]. cbn [asids sched_asid_alloc].
  rewrite seqZ_cons by lia. f_equal. unfold sched_asid_alloc. cbv zeta.
  destruct n as [|n].
  { cbn [asids]. by rewrite seqZ_nil by lia. }
  assert (u16 (next_asid s + 1) = next_asid s + 1) as Hu by (apply u16_small; lia).
  rewrite Hu. destruct (Z.eqb_spec (next_asid s + 1) 0); [lia|]. rewrite IH; cbn [next_asid set_next_asid]; [|lia|lia].
  f_equal; lia.
Qed.

(** ASIDs.  The first 65535 address spaces after boot get pairwise
    different ASIDs, all between 1 and 65535, then the counter starts again at
    1; and the table and the ASID packed into TTBR0 come back out of it. *)
Theorem sched_asids_distinct s n :
  next_asid s = 1 -> Z.of_nat n <= 65535 ->
  NoDup (asids n s) /\ Forall (fun a => 1 <= a <= 65535) (asids n s) /\
  (forall s', next_asid s' = 65535 -> next_asid (sched_asid_alloc s').2 = 1) /\
  (forall l0 a, 0 <= l0 < 2 ^ 48 -> a ∈ asids n s ->
     Mmu.ttbr_baddr (Mmu.ttbr_pack l0 a) = l0 /\ Mmu.ttbr_asid (Mmu.ttbr_pack l0 a) = a).
Proof.
  intros Hn Hle. rewrite asids_seq, Hn by lia. split; [apply NoDup_seqZ|]. split.
  { apply Forall_forall. intros a Ha%elem_of_seqZ. lia. }
  split.
  { intros s' Hs'. unfold sched_asid_alloc. cbn [snd next_asid set_next_asid]. by rewrite Hs'. }
  intros l0 a Hl Ha%elem_of_seqZ. split; [apply Mmu.ttbr_pack_baddr|apply Mmu.ttbr_pack_asid]; lia.
Qed.
End theorems.

(** ** A concrete instance *)

#[global] Instance demo_layout : Layout := {
  text_start := 0xFFFF000040080000;
  user_text_end := 0xFFFF000040090000;
  task_trampoline := 0xFFFF000040080100;
  kernel_task_trampoline := 0xFFFF000040080200;
  fork_return := 0xFFFF000040080300;
  IDLE := 8
}.
#[global] Instance demo_layout_ok : LayoutOk bump.
Proof.
  constructor; [done| |by vm_compute].
  intros r e (_ & HF & _) Hin. rewrite Forall_forall in HF. specialize (HF _ Hin). cbn in HF. lia.
Qed.

(** Boot, two kernel tasks created by the boot thread, and the first switch. *)
Notation demo_boot := (sched_init (boot (MkBump 16 4096 0 0 62500000))).
Notation demo_one := (sched_create_kernel_task [97] 0x1000 demo_boot).2.
Notation demo_two := (sched_create_kernel_task [98] 0x2000 demo_one).2.
Notation demo_run := (schedule demo_two).

(** Membership in a concrete list, case by case. *)
Ltac each_elem :=
  let a := fresh "a" in let Ha := fresh "Ha" in
  intros a Ha; cbn [app] in Ha; rewrite ?elem_of_cons, elem_of_nil in Ha;
  repeat (destruct Ha as [->|Ha]; [|]); [..|destruct Ha].
Ltac check_inv :=
  split; constructor;
  [by vm_compute
  |by vm_compute
  |cbn [app]; apply (bool_decide_unpack _); by vm_compute
  |let a := fresh "a" in intros a; rewrite <- (elem_of_list_to_set (C := gset Z)); revert a; apply set_eq; by vm_compute
  |cbn [app]; apply (bool_decide_unpack _); by vm_compute
  |apply (bool_decide_unpack _); by vm_compute
  |each_elem; by vm_compute
  |by vm_compute
  |by vm_compute
  |by vm_compute
  |each_elem; vm_compute; by constructor
  |vm_compute; split; [apply (bool_decide_unpack _); by vm_compute|repeat constructor; done]
  |apply (bool_decide_unpack _); by vm_compute
  |each_elem; let X := fresh in intros X; vm_compute in X; done
  |each_elem
  |each_elem; let X := fresh in intros X; vm_compute in X; done || reflexivity].

Lemma demo_two_inv : sched_inv demo_two [16; 32] [] res0.
Proof. check_inv. Qed.
Lemma demo_run_inv : sched_inv demo_run [16; 32] [] res0.
Proof. check_inv. Qed.

Lemma sched_reachable_inv_witness :
  te_ok res0 (MkBump 16 4096 0 0 62500000) /\ rtc step demo_boot (schedule demo_boot) /\
  exists L D, sched_inv (schedule demo_boot) L D res0.
Proof.
  assert (te_ok res0 (MkBump 16 4096 0 0 62500000)) as Hok by (split; [constructor|by repeat constructor]).
  assert (rtc step demo_boot (schedule demo_boot)) as Hr by (eapply rtc_l; [apply st_schedule|apply rtc_refl]).
  split; [exact Hok|]. split; [exact Hr|].
  exact (sched_reachable_inv (MkBump 16 4096 0 0 62500000) res0 (schedule demo_boot) Hok Hr).
Defined.

Lemma schedule_correct_witness :
  sched_inv demo_two [16; 32] [] res0 /\ sched_inv demo_run [16; 32] [] res0.
Proof. split; [exact demo_two_inv|apply (schedule_correct demo_two [16; 32] [] res0 demo_two_inv)]. Defined.

Lemma sched_kill_task_correct_witness :
  let '(r, s') := sched_kill_task 2 demo_two in
  (r = -1 /\ s' = demo_two /\ (2 = 0 \/ forall a, a ∈ [16; 32] -> pid (get demo_two a) <> 2)) \/
  (r = 0 /\ exists t L1 L2, [16; 32] = L1 ++ t :: L2 /\ pid (get demo_two t) = 2 /\
     ((t = current demo_two /\ s' = task_exit demo_two /\ current s' <> t /\ sched_inv s' (L1 ++ L2) [t] res0) \/
      (t <> current demo_two /\ current s' = current demo_two /\ sched_inv s' (L1 ++ L2) (t :: []) res0 /\
       forall a, a ∈ IDLE :: L1 ++ L2 -> exists v, get s' a = set_next v (get demo_two a)))).
Proof.
  destruct (sched_kill_task 2 demo_two) as [r s'] eqn:Hk.
  exact (sched_kill_task_correct demo_two [16; 32] [] res0 2 r s' demo_two_inv Hk).
Defined.

Lemma schedule_round_robin_witness :
  top_ready demo_two [16; 32] 32 /\
  exists n, (n <= 3)%nat /\ current (Nat.iter n schedule demo_two) = 32.
Proof.
  assert (top_ready demo_two [16; 32] 32) as Htr.
  { constructor; [apply (bool_decide_unpack _); by vm_compute|by vm_compute|]. each_elem; by vm_compute. }
  split; [exact Htr|]. exact (schedule_round_robin demo_two [16; 32] [] res0 32 demo_two_inv Htr).
Defined.

Lemma sleep_until_deadline_witness :
  let s1 := sleep_ms 25 demo_run in
  current s1 <> 16 /\ state (get s1 16) = TASK_SLEEPING /\
  state (get (sched_wake_sleepers s1) 16) = TASK_SLEEPING.
Proof.
  assert (sched_inv (sleep_ms 25 demo_run) [16; 32] [] res0) as Hi2 by check_inv.
  exact (sleep_until_deadline demo_run [16; 32] [] res0 25 (sleep_ms 25 demo_run) [16; 32] [] res0
    demo_run_inv ltac:(done) ltac:(by vm_compute) ltac:(by vm_compute) ltac:(by vm_compute) ltac:(by vm_compute)
    Hi2 ltac:(apply (bool_decide_unpack _); by vm_compute)
    (ex_intro _ (next (get (sleep_ms 25 demo_run) 16)) (eq_sym (set_next_id _)))).
Defined.

(** A user task, running. *)
Notation demo_user := (schedule (sched_create_task [117] 0xFFFF000040080400 demo_boot).2).
Lemma sched_try_grow_stack_bounds_witness :
  exists s', sched_try_grow_stack (current demo_user) 0x7fb123 demo_user = (1, s') /\
    sched_inv s' [16] [] res0 /\ stack_grown_count (get s' 16) = 1.
Proof.
  assert (sched_inv demo_user [16] [] res0) as Hi by check_inv.
  destruct (sched_try_grow_stack (current demo_user) 0x7fb123 demo_user) as [r s'] eqn:Hg.
  assert (0 <= 0x7fb123 < 2 ^ 64) as Hf by lia.
  pose proof (proj1 (sched_try_grow_stack_bounds demo_user [16] [] res0 0x7fb123 r s' Hi Hf Hg)) as Hi'.
  assert (r = (sched_try_grow_stack (current demo_user) 0x7fb123 demo_user).1) as Hr by (by rewrite Hg).
  assert (s' = (sched_try_grow_stack (current demo_user) 0x7fb123 demo_user).2) as Hs by (by rewrite Hg).
  exists s'. split; [f_equal; rewrite Hr; by vm_compute|]. split; [exact Hi'|]. rewrite Hs. by vm_compute.
Defined.

Lemma sched_asids_distinct_witness :
  next_asid demo_boot = 1 /\ NoDup (asids 5 demo_boot) /\ asids 5 demo_boot = [1; 2; 3; 4; 5].
Proof.
  assert (next_asid demo_boot = 1) as Hn by done. split; [exact Hn|]. split; [|by vm_compute].
  exact (proj1 (sched_asids_distinct demo_boot 5 Hn ltac:(lia))).
Defined.
End SchedThm.
