(* ===== verification/Rtos.v ===== *)
(** * Real-time tasks and blocking primitives (src/src/sched/rtos.c)

    Periodic tasks with deadline accounting, mutexes with priority inheritance
    and semaphores, on top of [Sched].  Mutexes and semaphores live in stores
    keyed by their address.  [schedule] returns in the model with another task
    current; what [rt_mutex_lock] does after its [schedule] is
    [rt_mutex_lock_resume], run when the task is selected again. *)
From S2P Require Import Prelude PageAlloc Heap Mmu Task TaskEnv BumpEnv Sched SchedInv SchedThm.
From Stdlib Require Import Sorting.Sorted.
From stdpp Require Import strings.
#[local] Open Scope Z_scope.

Module Rtos.
Import SchedInv.

Record rt_mutex := MkMutex { owner : Z; waiters : Z; locked : Z }.
Record rt_sem := MkSem { count : Z; sem_waiters : Z }.

Record rtos (E : Type) := MkRtos {
  sc : sched E;
  mutexes : gmap Z rt_mutex;
  sems : gmap Z rt_sem
}.
Arguments MkRtos {E}. Arguments sc {E}. Arguments mutexes {E}. Arguments sems {E}.

Section ops.
Context {E : Type} `{TaskEnv E} `{Layout}.
Implicit Types (s : sched E) (r : rtos E).

Definition set_sc r s : rtos E := MkRtos s (mutexes r) (sems r).
Definition mutex_at r (m : Z) : rt_mutex := default (MkMutex 0 0 0) (mutexes r !! m).
Definition sem_at r (m : Z) : rt_sem := default (MkSem 0 0) (sems r !! m).
Definition set_mutex r (m : Z) (v : rt_mutex) : rtos E := MkRtos (sc r) (<[m := v]> (mutexes r)) (sems r).
Definition set_sem r (m : Z) (v : rt_sem) : rtos E := MkRtos (sc r) (mutexes r) (<[m := v]> (sems r)).

(** ** Periodic tasks *)
Definition us_to_cyc (us : Z) s : Z := u64 (us * te_freq (env s)) / 1000000.
Definition cyc_to_us (cyc : Z) s : Z :=
  let f := te_freq (env s) in if negb (f =? 0) then u64 (cyc * 1000000) / f else 0.

Definition rt_create_periodic (nm : list Z) (entry prio period_us deadline_us : Z) s : Z * sched E :=
  let '(p, s) := sched_create_rt_task nm entry prio s in
  if p <? 0 then (-1, s)
  else
    let t := sched_find_task (u64 p) s in
    if t =? 0 then (-1, s)
    else
      let now := te_count (env s) in
      let period := us_to_cyc period_us s in
      let s := put s t (set_rt_period_cyc period) in
      let deadline := if negb (deadline_us =? 0) then us_to_cyc deadline_us s
                      else rt_period_cyc (get s t) in
      let s := put s t (set_rt_deadline_cyc deadline) in
      let s := put s t (set_rt_release_cyc now) in
      let s := put s t (set_rt_next_release (u64 (now + rt_period_cyc (get s t)))) in
      (p, put s t (set_rt_activations 1)).

Definition rt_wait_next_period s : sched E :=
  let t := sched_current s in
  if rt_period_cyc (get s t) =? 0 then s
  else
    let now := te_count (env s) in
    let resp := u64 (now - rt_release_cyc (get s t)) in
    let s := put s t (set_rt_last_resp_cyc resp) in
    let s :=
      if 1 <? rt_activations (get s t) then
        let s := if rt_wcrt_cyc (get s t) <? resp then put s t (set_rt_wcrt_cyc resp) else s in
        if rt_deadline_cyc (get s t) <? resp
        then put s t (set_rt_deadline_misses (u32 (rt_deadline_misses (get s t) + 1))) else s
      else s in
    schedule (put s t (set_state TASK_SLEEPING)).

(** the body of the loop of [rt_tick_release] for one task *)
Definition release_one (now t earliest : Z) s : Z * sched E :=
  if 0 <? rt_period_cyc (get s t) then
    let s :=
      if rt_next_release (get s t) <=? now then
        let sched_release := rt_next_release (get s t) in
        let s :=
          if is_state TASK_SLEEPING (get s t) then
            let s := put s t (set_rt_release_cyc sched_release) in
            let s := put s t (set_state TASK_READY) in
            put s t (set_rt_activations (u32 (rt_activations (get s t) + 1)))
          else put s t (set_rt_deadline_misses (u32 (rt_deadline_misses (get s t) + 1))) in
        put s t (set_rt_next_release (u64 (sched_release + rt_period_cyc (get s t))))
      else s in
    let earliest := if (earliest =? 0) || (rt_next_release (get s t) <? earliest)
                    then rt_next_release (get s t) else earliest in
    (earliest, s)
  else (earliest, s).

Fixpoint release_loop (n : nat) (now head t earliest : Z) s : Z * sched E :=
  match n with
  | O => (earliest, s)
  | S n' =>
      let '(earliest, s) := release_one now t earliest s in
      let t := next (get s t) in
      if t =? head then (earliest, s) else release_loop n' now head t earliest s
  end.
Definition rt_tick_release s : Z * sched E :=
  release_loop (fuel s) (te_count (env s)) sched_first_task sched_first_task 0 s.

(** ** Wait queues, through [wait_next], highest priority first *)
Fixpoint wq_walk (n : nat) s (me p : Z) : Z :=
  match n with
  | O => p
  | S n' =>
      let nxt := wait_next (get s p) in
      if negb (nxt =? 0) && (priority (get s me) <=? priority (get s nxt))
      then wq_walk n' s me nxt else p
  end.

Definition wq_insert (head me : Z) s : Z * sched E :=
  let s := put s me (set_wait_next 0) in
  if (head =? 0) || (priority (get s head) <? priority (get s me))
  then (me, put s me (set_wait_next head))
  else
    let p := wq_walk (fuel s) s me head in
    let s := put s me (set_wait_next (wait_next (get s p))) in
    (head, put s p (set_wait_next me)).

(** ** Priority inheritance: at most 8 owners along the chain *)
Fixpoint pi_loop (n : nat) (M : gmap Z rt_mutex) (own prio : Z) s : sched E :=
  match n with
  | O => s
  | S n' =>
      if own =? 0 then s
      else if prio <=? priority (get s own) then s
      else
        let s := put s own (set_priority prio) in
        let bm := blocked_on (get s own) in
        if bm =? 0 then s
        else pi_loop n' M (owner (default (MkMutex 0 0 0) (M !! bm))) prio s
  end.
Definition pi_propagate (own prio : Z) r : rtos E := set_sc r (pi_loop 8 (mutexes r) own prio (sc r)).

(** ** Mutexes *)
Definition rt_mutex_init (m : Z) r : rtos E := set_mutex r m (MkMutex 0 0 0).

Definition rt_mutex_lock_resume (me : Z) r : rtos E := set_sc r (put (sc r) me (set_blocked_on 0)).

Definition rt_mutex_lock (m : Z) r : rtos E :=
  if locked (mutex_at r m) =? 0
  then set_mutex r m (MkMutex (sched_current (sc r)) (waiters (mutex_at r m)) 1)
  else
    let me := sched_current (sc r) in
    let r := set_sc r (put (sc r) me (set_blocked_on m)) in
    let '(h, s) := wq_insert (waiters (mutex_at r m)) me (sc r) in
    let r := set_mutex (set_sc r s) m (MkMutex (owner (mutex_at r m)) h (locked (mutex_at r m))) in
    let r := pi_propagate (owner (mutex_at r m)) (priority (get (sc r) me)) r in
    let r := set_sc r (put (sc r) me (set_state TASK_BLOCKED)) in
    let r := set_sc r (schedule (sc r)) in
    if sched_current (sc r) =? me then rt_mutex_lock_resume me r else r.

Definition rt_mutex_unlock (m : Z) r : rtos E :=
  let me := sched_current (sc r) in
  let r := set_sc r (put (sc r) me (set_priority (base_priority (get (sc r) me)))) in
  if waiters (mutex_at r m) =? 0
  then set_mutex r m (MkMutex 0 (waiters (mutex_at r m)) 0)
  else
    let w := waiters (mutex_at r m) in
    let h := wait_next (get (sc r) w) in
    let r := set_sc r (put (sc r) w (set_wait_next 0)) in
    let r := set_mutex r m (MkMutex w h (locked (mutex_at r m))) in
    let r := set_sc r (put (sc r) w (set_state TASK_READY)) in
    set_sc r (schedule (sc r)).

(** ** Semaphores; [count] is a 32-bit int *)
Definition rt_sem_init (m initial : Z) r : rtos E := set_sem r m (MkSem initial 0).

Definition rt_sem_wait (m : Z) r : rtos E :=
  if 0 <? count (sem_at r m)
  then set_sem r m (MkSem (count (sem_at r m) - 1) (sem_waiters (sem_at r m)))
  else
    let me := sched_current (sc r) in
    let '(h, s) := wq_insert (sem_waiters (sem_at r m)) me (sc r) in
    let r := set_sem (set_sc r s) m (MkSem (count (sem_at r m)) h) in
    let r := set_sc r (put (sc r) me (set_state TASK_BLOCKED)) in
    set_sc r (schedule (sc r)).

Definition rt_sem_post (m : Z) r : rtos E :=
  if negb (sem_waiters (sem_at r m) =? 0) then
    let w := sem_waiters (sem_at r m) in
    let h := wait_next (get (sc r) w) in
    let r := set_sem r m (MkSem (count (sem_at r m)) h) in
    let r := set_sc r (put (sc r) w (set_wait_next 0)) in
    let r := set_sc r (put (sc r) w (set_state TASK_READY)) in
    set_sc r (schedule (sc r))
  else set_sem r m (MkSem (s32 (count (sem_at r m) + 1)) (sem_waiters (sem_at r m))).

(** ** The built-in demos: the tasks they start, once; the arguments are the
    addresses of the task bodies *)
Definition rt_demo_start (fast hi mid lo : Z) (started : bool) s : bool * sched E :=
  if started then (started, s)
  else
    let s := (rt_create_periodic (cstr "rt_fast") fast 35 5000 5000 s).2 in
    let s := (rt_create_periodic (cstr "rt_hi") hi 30 100000 100000 s).2 in
    let s := (rt_create_periodic (cstr "rt_mid") mid 20 200000 200000 s).2 in
    (true, (rt_create_periodic (cstr "rt_lo") lo 12 500000 500000 s).2).

Definition rt_pi_demo_start (pi_mutex low med high : Z) (started : bool) r : bool * rtos E :=
  if started then (started, r)
  else
    let r := rt_mutex_init pi_mutex r in
    let s := (sched_create_rt_task (cstr "pi_low") low 12 (sc r)).2 in
    let s := (sched_create_rt_task (cstr "pi_med") med 16 s).2 in
    (true, set_sc r (sched_create_rt_task (cstr "pi_high") high 20 s).2).
End ops.

(** ** Wait queues as lists *)
Fixpoint wpath (T : gmap Z task) (a : Z) (Q : list Z) : Prop :=
  match Q with
  | [] => a = 0
  | x :: Q' => a = x /\ x <> 0 /\ wpath T (wait_next (task_at T x)) Q'
  end.

(** The place of [me]: after everybody of the same or a higher priority. *)
Fixpoint wq_ins (pr : Z -> Z) (me : Z) (Q : list Z) : list Z :=
  match Q with
  | [] => [me]
  | x :: Q' => if pr x <? pr me then me :: x :: Q' else x :: wq_ins pr me Q'
  end.

Definition by_prio (pr : Z -> Z) (Q : list Z) : Prop := StronglySorted (fun a b => pr b <= pr a) Q.

Lemma wq_ins_split pr me Q :
  by_prio pr Q -> exists Q1 Q2, Q = Q1 ++ Q2 /\ wq_ins pr me Q = Q1 ++ me :: Q2 /\
    Forall (fun a => pr me <= pr a) Q1 /\ Forall (fun a => pr a < pr me) Q2.
Proof.
  induction 1 as [|x Q HQ IH Hx]; cbn [wq_ins]; [by exists [], []|].
  destruct (Z.ltb_spec (pr x) (pr me)) as [Hlt|Hge].
  - exists [], (x :: Q). split; [done|]. split; [done|]. split; [constructor|]. constructor; [done|].
    eapply Forall_impl; [exact Hx|]. cbn. lia.
  - destruct IH as (Q1 & Q2 & -> & -> & H1' & H2'). exists (x :: Q1), Q2. split; [done|]. split; [done|].
    split; [by constructor|done].
Qed.

Lemma wq_ins_perm pr me Q : wq_ins pr me Q ≡ₚ me :: Q.
Proof.
  induction Q as [|x Q IH]; cbn [wq_ins]; [done|]. case_if; [done|]. rewrite IH. apply Permutation_swap.
Qed.

Lemma wq_ins_sorted pr me Q : by_prio pr Q -> by_prio pr (wq_ins pr me Q).
Proof.
  induction 1 as [|x Q HQ IH Hx]; cbn [wq_ins]; [repeat constructor|].
  destruct (Z.ltb_spec (pr x) (pr me)) as [Hlt|Hge].
  - constructor; [by constructor|]. constructor; [lia|]. eapply Forall_impl; [exact Hx|]. cbn. lia.
  - constructor; [done|]. rewrite wq_ins_perm. by constructor.
Qed.

Lemma last_cons_default (x d : Z) Q : List.last (x :: Q) d = List.last Q x.
Proof.
  revert x d. induction Q as [|y Q IH]; intros x d; [done|].
  change (List.last (x :: y :: Q) d) with (List.last (y :: Q) d). by rewrite !IH.
Qed.

Lemma wpath_frame T T' a Q :
  (forall x, x ∈ Q -> wait_next (task_at T' x) = wait_next (task_at T x)) -> wpath T a Q -> wpath T' a Q.
Proof.
  revert a. induction Q as [|x Q IH]; intros a Hf; cbn [wpath]; [done|].
  intros (-> & Hx & Hp). split; [done|]. split; [done|]. rewrite Hf by left. apply IH; [|done].
  intros y Hy. apply Hf. by right.
Qed.

Section correctness.
Context {E : Type} `{TaskEnvLaws E} `{Layout} `{!LayoutOk E}.
Implicit Types (s : sched E) (r : rtos E).

Definition prio_of s (a : Z) : Z := priority (get s a).

(** The walk of [wq_insert] stops at the last task that keeps its place. *)
Lemma wq_walk_spec n s me p Q :
  wpath (tasks s) (wait_next (get s p)) Q -> (length Q < n)%nat ->
  exists Q1 Q2, Q = Q1 ++ Q2 /\ wq_walk n s me p = List.last Q1 p /\
    wpath (tasks s) (wait_next (get s (wq_walk n s me p))) Q2 /\
    wq_ins (prio_of s) me Q = Q1 ++ me :: Q2.
Proof.
  revert p Q. induction n as [|n IH]; intros p Q Hp Hn; [lia|]. cbn [wq_walk]. cbv zeta.
  destruct Q as [|x Q]; cbn [wpath] in Hp.
  { rewrite Hp. cbn [Z.eqb negb andb]. exists [], []. repeat (split; [done|]). done. }
  destruct Hp as (Hx & Hnz & Hp). rewrite Hx in *. rewrite (proj2 (Z.eqb_neq x 0) Hnz). cbn [negb andb wq_ins].
  unfold prio_of at 1 2. rewrite Z.leb_antisym.
  destruct (Z.ltb_spec (priority (get s x)) (priority (get s me))) as [Hlt|Hge]; cbn [negb].
  - exists [], (x :: Q). split; [done|]. split; [done|]. split; [|done]. rewrite Hx. done.
  - destruct (IH x Q Hp) as (Q1 & Q2 & -> & Hw & Hp2 & Hins); [cbn [length] in Hn; lia|].
    exists (x :: Q1), Q2. split; [done|]. rewrite Hw. split; [by rewrite last_cons_default|]. rewrite Hw in Hp2.
    split; [done|]. by rewrite Hins.
Qed.

(** What [wq_insert] may change: the queue links of the tasks. *)
Definition requeued (tk tk' : task) : Prop := exists v, tk' = set_wait_next v tk.
Lemma requeued_refl tk : requeued tk tk.
Proof. exists (wait_next tk). by destruct tk. Qed.
Lemma requeued_put s s' a v :
  (forall x, requeued (get s x) (get s' x)) -> forall x, requeued (get s x) (get (put s' a (set_wait_next v)) x).
Proof.
  intros Hr x. rewrite get_put. destruct (Hr x) as [w Hw]. case_decide; [|by exists w]. exists v. by rewrite Hw.
Qed.

Lemma wpath_split T Q1 Q2 a :
  wpath T a (Q1 ++ Q2) -> Q1 <> [] ->
  exists M q, Q1 = M ++ [q] /\ wpath T (wait_next (task_at T q)) Q2 /\
    forall T', (forall x, x ∈ M -> wait_next (task_at T' x) = wait_next (task_at T x)) ->
      forall Q', wpath T' (wait_next (task_at T' q)) Q' -> wpath T' a (Q1 ++ Q').
Proof.
  revert a. induction Q1 as [|x Q1 IH]; intros a Hp Hne; [done|]. destruct Hp as (-> & Hx & Hp).
  destruct Q1 as [|y Q1].
  - exists [], x. split; [done|]. split; [done|]. intros T' _ Q' HQ'. cbn [app wpath]. done.
  - destruct (IH (wait_next (task_at T x)) Hp) as (M & q & HM & Hq & Hrest); [done|].
    exists (x :: M), q. split; [by rewrite HM|]. split; [done|]. intros T' HT' Q' HQ'.
    change ((x :: y :: Q1) ++ Q') with (x :: ((y :: Q1) ++ Q')). cbn [wpath]. split; [done|]. split; [done|].
    rewrite HT' by left. apply Hrest; [|done]. intros z Hz. apply HT'. by right.
Qed.

Lemma keeps_set_wait v tk : keeps tk (set_wait_next v tk).
Proof. solve_keeps. Qed.
Lemma keeps_set_blocked v tk : keeps tk (set_blocked_on v tk).
Proof. solve_keeps. Qed.

Lemma core_put_wait s L D F a v :
  core s L D F -> a ∈ IDLE :: L ++ D -> core (put s a (set_wait_next v)) L D F.
Proof. intros Hc Ha. apply core_put; [done|done|apply keeps_set_wait|done]. Qed.

Lemma wq_ins_ext pr pr' me Q :
  (forall a, pr' a = pr a) -> wq_ins pr' me Q = wq_ins pr me Q.
Proof. intros Hp. induction Q as [|x Q IH]; cbn [wq_ins]; [done|]. by rewrite !Hp, IH. Qed.

(** Inserting behind [q], the last of [Q1]. *)
Lemma wpath_insert s h me Q1 Q2 q :
  let s' := put (put s me (set_wait_next (wait_next (get s q)))) q (set_wait_next me) in
  wpath (tasks s) h (Q1 ++ Q2) -> NoDup (Q1 ++ Q2) -> me ∉ Q1 ++ Q2 -> me <> 0 ->
  (exists M, Q1 = M ++ [q]) -> wpath (tasks s') h (Q1 ++ me :: Q2).
Proof.
  intros s' Hp Hnd Hme Hnz [M HM].
  destruct (wpath_split _ Q1 Q2 h Hp) as (M' & q' & HM' & Hq & Hrest); [by rewrite HM; destruct M|].
  rewrite HM in HM'. apply app_inj_tail in HM' as [<- <-]. rewrite HM in Hnd, Hme.
  assert (q :: M ++ Q2 ≡ₚ (M ++ [q]) ++ Q2) as HP by solve_Permutation.
  rewrite <- HP in Hnd, Hme. apply NoDup_cons in Hnd as [Hqn _]. rewrite not_elem_of_app in Hqn.
  rewrite not_elem_of_cons, not_elem_of_app in Hme. destruct Hme as (Hmq & HmM & Hm2), Hqn as (HqM & Hq2).
  assert (forall x, x <> q -> x <> me -> get s' x = get s x) as Hsame.
  { intros x Hxq Hxm. subst s'. by rewrite !get_put_ne. }
  assert (get s' q = set_wait_next me (get s q)) as Hgq.
  { subst s'. rewrite get_put_eq, get_put_ne by congruence. done. }
  assert (get s' me = set_wait_next (wait_next (get s q)) (get s me)) as Hgm.
  { subst s'. rewrite get_put_ne by congruence. by rewrite get_put_eq. }
  apply Hrest.
  - intros x Hx. fold (get s' x). rewrite Hsame; [done|by intros ->..].
  - fold (get s' q). rewrite Hgq. cbn [wait_next set_wait_next wpath]. split; [done|]. split; [done|].
    fold (get s' me). rewrite Hgm. cbn [wait_next set_wait_next].
    eapply wpath_frame; [|exact Hq]. intros x Hx. fold (get s' x). rewrite Hsame; [done|by intros ->..].
Qed.

Lemma wq_insert_spec s L D F h me Q h' s' :
  core s L D F -> me ∈ IDLE :: L ++ D -> wpath (tasks s) h Q -> NoDup Q -> me ∉ Q ->
  (forall x, x ∈ Q -> x ∈ IDLE :: L ++ D) -> wq_insert h me s = (h', s') ->
  wpath (tasks s') h' (wq_ins (prio_of s) me Q) /\ (forall x, requeued (get s x) (get s' x)) /\
  core s' L D F /\ current s' = current s /\ env s' = env s.
Proof.
  intros Hc Hme Hp Hnd Hmq Hsub. unfold wq_insert. set (s1 := put s me (set_wait_next 0)).
  assert (me <> 0) as Hnz by (intros ->; by apply (co_nz _ _ _ _ Hc)).
  assert (core s1 L D F) as Hc1 by by apply core_put_wait.
  assert (forall x, requeued (get s x) (get s1 x)) as Hr1.
  { apply requeued_put. intros x. apply requeued_refl. }
  assert (forall x, priority (get s1 x) = priority (get s x)) as Hpr by (intros x; by destruct (Hr1 x) as [v ->]).
  assert (wpath (tasks s1) h Q) as Hp1.
  { eapply wpath_frame; [|exact Hp]. intros x Hx. fold (get s1 x). subst s1.
    rewrite get_put_ne; [done|]. by intros ->. }
  destruct ((h =? 0) || (priority (get s1 h) <? priority (get s1 me))) eqn:Eg.
  - intros [= <- <-]. split; [|split; [by apply requeued_put|split; [by apply core_put_wait|done]]].
    assert (wq_ins (prio_of s) me Q = me :: Q) as ->.
    { destruct Q as [|x Q]; [done|]. destruct Hp1 as (-> & Hx & _). cbn [wq_ins]. unfold prio_of.
      rewrite (proj2 (Z.eqb_neq x 0) Hx), !Hpr in Eg. cbn [orb] in Eg. by rewrite Eg. }
    cbn [wpath]. split; [done|]. split; [done|].
    change (task_at (tasks (put s1 me (set_wait_next h))) me) with (get (put s1 me (set_wait_next h)) me).
    rewrite get_put_eq. cbn [wait_next set_wait_next].
    eapply wpath_frame; [|exact Hp1]. intros x Hx.
    change (task_at (tasks (put s1 me (set_wait_next h))) x) with (get (put s1 me (set_wait_next h)) x).
    rewrite get_put_ne; [done|]. by intros ->.
  - apply orb_false_iff in Eg as [Eh%Z.eqb_neq Elt]. intros [= <- <-].
    destruct Q as [|x Q]; [done|]. destruct Hp1 as (-> & Hx & Hp1).
    destruct (wq_walk_spec (fuel s1) s1 me x Q Hp1) as (Q1 & Q2 & HQ & Hw & Hp2 & Hins).
    { unfold fuel. rewrite (core_size _ _ _ _ Hc1).
      pose proof (submseteq_length (x :: Q) (IDLE :: L ++ D) ltac:(by apply NoDup_submseteq)) as Hl.
      cbn [length] in *. lia. }
    set (q := wq_walk (fuel s1) s1 me x) in *.
    assert (exists M, x :: Q1 = M ++ [q]) as Hlast.
    { destruct (exists_last (l := x :: Q1)) as (M & z & HM); [done|]. exists M. rewrite HM. f_equal. f_equal.
      rewrite Hw, <- (last_cons_default x 0), HM. symmetry. apply last_last. }
    assert (wq_ins (prio_of s) me (x :: Q) = (x :: Q1) ++ me :: Q2) as ->.
    { cbn [wq_ins]. unfold prio_of at 1 2. rewrite <- !Hpr, Elt. cbn [app]. f_equal.
      rewrite <- Hins. apply wq_ins_ext. intros a. unfold prio_of. by rewrite Hpr. }
    assert (q ∈ IDLE :: L ++ D) as Hqin.
    { apply Hsub. destruct Hlast as [M HM]. rewrite HQ. change (x :: Q1 ++ Q2) with ((x :: Q1) ++ Q2).
      rewrite HM. apply elem_of_app. left. apply elem_of_app. right. left. }
    split; [|split; [by do 2 apply requeued_put|split; [|done]]].
    2: { apply core_put_wait; [by apply core_put_wait|done]. }
    rewrite HQ in Hnd, Hmq. change (x :: Q1 ++ Q2) with ((x :: Q1) ++ Q2) in Hnd, Hmq.
    apply wpath_insert; try done. rewrite HQ in Hp1. cbn [app wpath]. done.
Qed.

(** ** Priority inheritance *)
Definition owners_ok (M : gmap Z rt_mutex) (l : list Z) : Prop :=
  forall m v, M !! m = Some v -> owner v = 0 \/ owner v ∈ l.

(** A task keeps everything but its effective priority, which may rise to [prio]. *)
Definition boosted (prio : Z) (tk tk' : task) : Prop :=
  tk' = tk \/ (priority tk < prio /\ tk' = set_priority prio tk).

Lemma boosted_get (prio : Z) tk tk' :
  boosted prio tk tk' ->
  state tk' = state tk /\ wait_next tk' = wait_next tk /\ blocked_on tk' = blocked_on tk /\
  base_priority tk' = base_priority tk /\ priority tk <= priority tk'.
Proof. intros [->|[Hlt ->]]; cbn; repeat split; lia. Qed.

Lemma pi_loop_spec n M own prio s L D F :
  core s L D F -> 0 <= prio <= PRIO_MAX -> owners_ok M (IDLE :: L ++ D) ->
  own = 0 \/ own ∈ IDLE :: L ++ D ->
  let s' := pi_loop n M own prio s in
  core s' L D F /\ current s' = current s /\ env s' = env s /\
  (forall x, boosted prio (get s x) (get s' x)) /\
  ((0 < n)%nat -> own <> 0 -> priority (get s' own) = Z.max prio (priority (get s own))) /\
  (blocked_on (get s own) = 0 -> forall x, x <> own -> get s' x = get s x).
Proof.
  revert own s. induction n as [|n IH]; intros own s Hc Hpr HM Ho; cbn [pi_loop]; cbv zeta.
  { do 3 (split; [done|]). split; [by left|]. split; [lia|done]. }
  destruct (Z.eqb_spec own 0) as [->|Hnz].
  { do 3 (split; [done|]). split; [by left|]. split; done. }
  destruct Ho as [?|Ho]; [done|].
  destruct (Z.leb_spec prio (priority (get s own))) as [Hle|Hlt].
  { do 3 (split; [done|]). split; [by left|]. split; [lia|done]. }
  set (s1 := put s own (set_priority prio)).
  assert (core s1 L D F) as Hc1 by (apply core_put; [done|done|by apply keeps_set_priority|done]).
  assert (forall x, boosted prio (get s x) (get s1 x)) as Hb1.
  { intros x. subst s1. rewrite get_put. destruct (decide (own = x)) as [->|]; [by right|by left]. }
  assert (get s1 own = set_priority prio (get s own)) as Hg1 by apply get_put_eq.
  destruct (Z.eqb_spec (blocked_on (get s1 own)) 0) as [Hz|Hbz].
  { split; [done|]. split; [done|]. split; [done|]. split; [done|]. split.
    - intros _ _. rewrite Hg1. cbn. lia.
    - intros _ x Hx. subst s1. by rewrite get_put_ne. }
  set (o2 := owner _).
  assert (o2 = 0 \/ o2 ∈ IDLE :: L ++ D) as Ho2.
  { subst o2. destruct (M !! blocked_on (get s1 own)) as [v|] eqn:Ev; cbn [default]; [by eapply HM|by left]. }
  destruct (IH o2 s1 Hc1 Hpr HM Ho2) as (IHc & IHcur & IHe & IHb & IHo & IHr).
  split; [done|]. split; [by rewrite IHcur|]. split; [by rewrite IHe|]. split.
  { intros x. destruct (Hb1 x) as [Hx|[Hlx Hx]]; destruct (IHb x) as [Hy|[Hly Hy]]; rewrite ?Hx in *.
    - left. done.
    - right. done.
    - right. split; [done|]. by rewrite Hy.
    - cbn in Hly. lia. }
  split.
  - intros _ _. destruct (IHb own) as [Hy|[Hly Hy]]; rewrite Hg1 in *; [rewrite Hy; cbn; lia|cbn in Hly; lia].
  - intros Hbo. rewrite Hg1 in Hbz. cbn in Hbz. done.
Qed.

(** ** Preparations for [schedule]: the states of all tasks are as before *)
Record quiet s s' (L D : list Z) F : Prop := {
  qu_core : core s' L D F;
  qu_cur : current s' = current s;
  qu_state x : state (get s' x) = state (get s x)
}.

Lemma quiet_callable s s' L D F v :
  sched_inv s L D F -> quiet s s' L D F -> v <> TASK_DEAD ->
  core (put s' (current s) (set_state v)) L D F /\ callable (put s' (current s) (set_state v)) L.
Proof.
  intros Hi [Hc Hcur Hs] Hv. pose proof (inv_callable _ _ _ _ Hi) as [H1' H2' H3'].
  assert (current s ∈ IDLE :: L ++ D) as Hin.
  { revert H1'. rewrite !elem_of_cons, elem_of_app. tauto. }
  split; [apply core_put; [done|done|apply keeps_set_state|done]|].
  constructor; cbn [put set_tasks current]; rewrite ?Hcur; [done|..].
  - intros a Ha Hne. rewrite get_put_ne, Hs by done. by apply H2'.
  - rewrite get_put. case_decide; [done|]. by rewrite Hs.
Qed.

(** The waiters of a mutex or semaphore: a queue of blocked tasks in order of
    priority. *)
Record wq_ok s (L : list Z) (h : Z) (Q : list Z) : Prop := {
  wo_path : wpath (tasks s) h Q;
  wo_nodup : NoDup Q;
  wo_in x : x ∈ Q -> x ∈ L;
  wo_sorted : by_prio (prio_of s) Q;
  wo_blocked x : x ∈ Q -> state (get s x) = TASK_BLOCKED;
  wo_cur : current s ∉ Q
}.

Lemma by_prio_ext pr pr' Q : (forall x, x ∈ Q -> pr' x = pr x) -> by_prio pr Q -> by_prio pr' Q.
Proof.
  intros He. induction 1 as [|x Q HQ IH Hx]; [constructor|]. constructor.
  - apply IH. intros y Hy. apply He. by right.
  - rewrite Forall_forall in *. intros y Hy. rewrite (He x), (He y) by (by left || by right). by apply Hx.
Qed.

(** The selected task has the highest priority of all runnable ones. *)
Lemma next_task_max s L D F x :
  core s L D F -> current s ∈ IDLE :: L -> x ∈ IDLE :: L -> runnable (current s) x (get s x) = true ->
  priority (get s x) <= priority (get s (next_task s L)).
Proof.
  intros Hc Hin Hx Hrun. pose proof (core_ring_nodup _ _ _ _ Hc) as Hnd.
  assert (x ∈ scan (current s) (IDLE :: L)) as Hxs by by apply elem_of_scan.
  assert (0 <= priority (get s x)) as Hp0.
  { apply (tw_prio _ (co_wf _ _ _ _ Hc x ltac:(revert Hx; rewrite !elem_of_cons, elem_of_app; tauto))). }
  unfold next_task.
  destruct (pick_spec (tasks s) (current s) (scan (current s) (IDLE :: L)) IDLE (-1))
    as [[_ Hn]|(X1 & X2 & HX & _ & _ & Hb & Ha)]; unfold get in *.
  - pose proof (Hn x Hxs Hrun). lia.
  - rewrite HX in Hxs. apply elem_of_app in Hxs as [H1x|[->|H2x]%elem_of_cons].
    + pose proof (Hb x H1x Hrun). lia.
    + done.
    + by apply Ha.
Qed.

(** A blocked current task is switched away from; the queue keeps its links. *)
Lemma block_switch s L D F v :
  core (put s (current s) (set_state v)) L D F -> callable (put s (current s) (set_state v)) L ->
  current s <> IDLE -> v = TASK_BLOCKED \/ v = TASK_SLEEPING ->
  let s' := schedule (put s (current s) (set_state v)) in
  sched_inv s' L [] F /\ current s' <> current s /\ state (get s' (current s)) = v /\
  (forall x, x ∈ IDLE :: L -> restated (get s x) (get s' x)) /\
  (forall x, x ∈ IDLE :: L -> x <> current s -> state (get s x) = TASK_READY ->
     priority (get s x) <= priority (get s' (current s'))).
Proof.
  intros Hc Hca Hni Hv s'. set (s1 := put s (current s) (set_state v)) in *.
  assert (current s1 = current s) as Hcs by done. rewrite <- Hcs in Hni |- *.
  destruct (schedule_spec s1 L D F Hc Hca) as (L' & D' & Hsw & Hst & Hcase). fold s' in Hsw, Hst.
  assert (state (get s1 (current s1)) = v) as Hs1 by (rewrite Hcs; subst s1; by rewrite get_put_eq).
  pose proof (ca_cur _ _ Hca) as Hin.
  assert (v <> TASK_DEAD /\ v <> TASK_RUNNING /\ v <> TASK_READY) as (Hv1 & Hv2 & Hv3) by (destruct Hv; subst v; done).
  destruct Hcase as [(_ & -> & ->)|(Hd & _)]; [|congruence].
  assert (next_task s1 L <> current s1) as Hnx.
  { unfold next_task. intros Hq.
    destruct (pick_spec (tasks s1) (current s1) (scan (current s1) (IDLE :: L)) IDLE (-1)) as [[Hp _]|(X1 & X2 & _ & Hr & _)];
      [congruence|]. rewrite Hq in Hr. fold (get s1 (current s1)) in Hr. unfold runnable, is_state in Hr.
    rewrite Hs1, !bool_decide_eq_false_2, andb_false_r in Hr by done. done. }
  split; [split; [apply Hsw|done]|]. split; [by rewrite (sw_cur _ _ _ _ _ _ _ Hsw)|]. split.
  { rewrite (sw_state _ _ _ _ _ _ _ Hsw) by done. rewrite decide_False by congruence.
    rewrite decide_False by (intros [_ ?]; congruence). done. }
  assert (forall x, restated (get s x) (get s1 x)) as Hre.
  { intros x. subst s1. rewrite get_put. case_decide; [apply restated_state|]; apply restated_refl. }
  assert (forall x, x ∈ IDLE :: L -> restated (get s x) (get s' x)) as Hre'.
  { intros x Hx. destruct (Hre x) as (st1 & v1 & Hx1).
    destruct (sw_rest _ _ _ _ _ _ _ Hsw x Hx) as (st2 & v2 & ->). exists st2, v2. by rewrite Hx1. }
  split; [done|]. intros x Hx Hne Hr.
  assert (get s1 x = get s x) as Hgx by (subst s1; by apply get_put_ne).
  assert (current s' ∈ IDLE :: L) as Hcin by apply (st_cur _ _ _ Hst).
  destruct (sw_rest _ _ _ _ _ _ _ Hsw _ Hcin) as (st2 & v2 & ->).
  cbn [priority set_state set_next]. rewrite (sw_cur _ _ _ _ _ _ _ Hsw), <- Hgx.
  apply (next_task_max s1 L D F); try done. rewrite Hgx. unfold runnable.
  by rewrite (proj2 (is_state_true _ _) Hr).
Qed.

Lemma wpath_restated s s' (l : list Z) h Q :
  (forall x, x ∈ l -> restated (get s x) (get s' x)) -> Q ⊆ l ->
  wpath (tasks s) h Q -> wpath (tasks s') h Q.
Proof.
  intros Hr Hsub. apply wpath_frame. intros x Hx. fold (get s' x) (get s x).
  by destruct (Hr x (Hsub x Hx)) as (? & ? & ->).
Qed.

Lemma mutex_at_set r m v : mutex_at (set_mutex r m v) m = v.
Proof. unfold mutex_at. cbn [mutexes set_mutex]. by rewrite lookup_insert_eq. Qed.

(** The state in front of the final [schedule] of a contended [rt_mutex_lock]. *)
Lemma lock_prepare r L D F m Q :
  let s := sc r in
  let me := current s in
  let mu := mutex_at r m in
  sched_inv s L D F -> me <> IDLE -> wq_ok s L (waiters mu) Q -> owners_ok (mutexes r) (IDLE :: L) ->
  exists h' s2 s3,
    wq_insert (waiters mu) me (put s me (set_blocked_on m)) = (h', s2) /\
    s3 = pi_loop 8 (<[m := MkMutex (owner mu) h' (locked mu)]> (mutexes r)) (owner mu) (priority (get s me)) s2 /\
    priority (get s2 me) = priority (get s me) /\
    quiet s s3 L D F /\ wpath (tasks s3) h' (wq_ins (prio_of s) me Q) /\
    blocked_on (get s3 me) = m /\
    (forall x, x <> me -> blocked_on (get s3 x) = blocked_on (get s x)) /\
    (forall x, priority (get s x) <= priority (get s3 x)) /\
    (owner mu <> 0 -> priority (get s me) <= priority (get s3 (owner mu))) /\
    (owner mu <> me -> blocked_on (get s (owner mu)) = 0 ->
     forall x, x <> owner mu -> priority (get s3 x) = priority (get s x)).
Proof.
  intros s me mu Hi Hni [Hp Hnd Hin Hsort Hbl Hcur] HM. pose proof Hi as [Hc Hst].
  assert (me ∈ IDLE :: L) as Hme by apply (st_cur _ _ _ Hst).
  assert (forall x, x ∈ IDLE :: L -> x ∈ IDLE :: L ++ D) as Hl.
  { intros x. rewrite !elem_of_cons, elem_of_app. tauto. }
  set (s1 := put s me (set_blocked_on m)).
  assert (core s1 L D F) as Hc1 by (apply core_put; [done|by apply Hl|apply keeps_set_blocked|done]).
  assert (forall x, get s1 x = if decide (me = x) then set_blocked_on m (get s x) else get s x) as Hg1.
  { intros x. apply get_put. }
  destruct (wq_insert (waiters mu) me s1) as [h' s2] eqn:Ew.
  destruct (wq_insert_spec s1 L D F (waiters mu) me Q h' s2) as (Hp2 & Hr2 & Hc2 & Hcur2 & _); try done.
  { by apply Hl. }
  { eapply wpath_frame; [|exact Hp]. intros x Hx. fold (get s1 x). rewrite Hg1.
    rewrite decide_False; [done|]. by intros <-. }
  { intros x Hx. apply Hl. right. by apply Hin. }
  assert (forall x, priority (get s2 x) = priority (get s x) /\ state (get s2 x) = state (get s x) /\
            blocked_on (get s2 x) = if decide (me = x) then m else blocked_on (get s x)) as Hg2.
  { intros x. destruct (Hr2 x) as [v ->]. rewrite Hg1. by case_decide. }
  set (M := <[m := MkMutex (owner mu) h' (locked mu)]> (mutexes r)).
  assert (owner mu = 0 \/ owner mu ∈ IDLE :: L) as Ho.
  { subst mu. unfold mutex_at. destruct (mutexes r !! m) as [v|] eqn:Ev; cbn [default]; [by eapply HM|by left]. }
  assert (owners_ok M (IDLE :: L ++ D)) as HM2.
  { intros k v. unfold M. destruct (decide (m = k)) as [<-|Hne].
    - rewrite lookup_insert_eq. intros [= <-]. cbn [owner]. destruct Ho; [by left|right; by apply Hl].
    - rewrite lookup_insert_ne by done. intros Hv. destruct (HM k v Hv); [by left|right; by apply Hl]. }
  set (s3 := pi_loop 8 M (owner mu) (priority (get s me)) s2).
  assert (0 <= priority (get s me) <= PRIO_MAX) as Hpm.
  { apply (co_wf _ _ _ _ Hc). by apply Hl. }
  destruct (pi_loop_spec 8 M (owner mu) (priority (get s me)) s2 L D F Hc2 Hpm HM2)
    as (Hc3 & Hcur3 & _ & Hb3 & Ho3 & Hr3); [destruct Ho; [by left|right; by apply Hl]|]. fold s3 in Hc3, Hcur3, Hb3, Ho3, Hr3.
  exists h', s2, s3. split; [done|]. split; [done|]. split; [apply Hg2|]. split.
  { constructor; [done|by rewrite Hcur3, Hcur2|]. intros x.
    destruct (boosted_get _ _ _ (Hb3 x)) as (-> & _). apply Hg2. }
  split.
  { eapply wpath_frame; [|erewrite wq_ins_ext; [exact Hp2|]].
    - intros x _. apply (boosted_get _ _ _ (Hb3 x)).
    - intros x. unfold prio_of. rewrite Hg1. by case_decide. }
  assert (forall x, blocked_on (get s3 x) = if decide (me = x) then m else blocked_on (get s x)) as Hbo.
  { intros x. destruct (boosted_get _ _ _ (Hb3 x)) as (_ & _ & -> & _). apply Hg2. }
  split; [rewrite Hbo; by rewrite decide_True|]. split; [intros x Hx; rewrite Hbo; by rewrite decide_False|].
  split.
  { intros x. pose proof (boosted_get _ _ _ (Hb3 x)) as (_ & _ & _ & _ & Hle). destruct (Hg2 x) as (Hx & _). lia. }
  split.
  - intros Hoz. rewrite Ho3 by (lia || done). lia.
  - intros Hom Hb0 x Hx. rewrite Hr3; [apply Hg2| |done]. destruct (Hg2 (owner mu)) as (_ & _ & ->).
    by rewrite decide_False.
Qed.

(** C23: [rt_mutex_lock].  A free mutex is taken at once and nothing else
    changes.  On a held mutex the caller is inserted into the wait queue behind
    everybody of its own or a higher priority, is marked blocked on it and is
    switched away from; the owner inherits at least its priority, and if the
    owner is ready, no task of a priority below the caller's is selected, so
    tasks of a priority in between cannot delay the release.  The queue stays
    sorted when the owner is not itself blocked. *)
Theorem rt_mutex_lock_correct r L D F m Q :
  let s := sc r in
  let me := current s in
  let mu := mutex_at r m in
  sched_inv s L D F -> me <> IDLE -> wq_ok s L (waiters mu) Q -> owners_ok (mutexes r) (IDLE :: L) ->
  owner mu <> me ->
  let r' := rt_mutex_lock m r in
  let s' := sc r' in
  (locked mu = 0 /\ s' = s /\ mutex_at r' m = MkMutex me (waiters mu) 1) \/
  (locked mu <> 0 /\ sched_inv s' L [] F /\ current s' <> me /\
   state (get s' me) = TASK_BLOCKED /\ blocked_on (get s' me) = m /\
   owner (mutex_at r' m) = owner mu /\ locked (mutex_at r' m) = locked mu /\
   wpath (tasks s') (waiters (mutex_at r' m)) (wq_ins (prio_of s) me Q) /\
   (blocked_on (get s (owner mu)) = 0 -> owner mu ∉ Q ->
    by_prio (prio_of s') (wq_ins (prio_of s) me Q)) /\
   (owner mu ∈ L -> priority (get s me) <= priority (get s' (owner mu)) /\
     (state (get s (owner mu)) = TASK_READY ->
      priority (get s me) <= priority (get s' (current s'))))).
Proof.
  intros s me mu Hi Hni Hq HM Hom r' s'. subst r'.
  destruct (lock_prepare r L D F m Q Hi Hni Hq HM)
    as (h' & s2 & s3 & Ew & Hs3 & Hp2 & Hqu & Hwp & Hbm & _ & Hmono & Hown & Hsame).
  fold s me mu in Ew, Hs3, Hp2, Hqu, Hwp, Hbm, Hmono, Hown, Hsame. unfold rt_mutex_lock in s'.
  fold mu s in s'. destruct (Z.eqb_spec (locked mu) 0) as [Hz|Hz]; [left|right].
  { split; [done|]. split; [done|]. unfold rt_mutex_lock. fold mu s. rewrite (proj2 (Z.eqb_eq _ _) Hz).
    unfold mutex_at. cbn [mutexes set_mutex]. by rewrite lookup_insert_eq. }
  destruct (quiet_callable s s3 L D F TASK_BLOCKED Hi Hqu ltac:(done)) as [Hc4 Hca4]. fold me in Hc4, Hca4.
  rewrite <- (qu_cur _ _ _ _ _ Hqu : current s3 = me) in Hc4, Hca4.
  destruct (block_switch s3 L D F TASK_BLOCKED Hc4 Hca4) as (Hi5 & Hne5 & Hst5 & Hre5 & Hpr5); [by rewrite (qu_cur _ _ _ _ _ Hqu)|by left|].
  rewrite (qu_cur _ _ _ _ _ Hqu : current s3 = me) in *. set (s5 := schedule (put s3 me (set_state TASK_BLOCKED))) in *.
  assert (rt_mutex_lock m r = MkRtos s5 (<[m := MkMutex (owner mu) h' (locked mu)]> (mutexes r)) (sems r)) as Hr'.
  { unfold rt_mutex_lock. fold mu s. rewrite (proj2 (Z.eqb_neq _ _) Hz). unfold sched_current. fold me.
    cbn [sc set_sc mutexes sems]. change (mutex_at (set_sc r (put s me (set_blocked_on m))) m) with mu.
    rewrite Ew, mutex_at_set. unfold pi_propagate, set_mutex. cbn [sc set_sc mutexes sems owner].
    change (mutex_at (set_sc r (put s me (set_blocked_on m))) m) with mu. cbn [sc set_sc mutexes sems].
    rewrite Hp2, <- Hs3. fold s5.
    destruct (Z.eqb_spec (current s5) me); done. }
  assert (s' = s5) as ->.
  { transitivity (sc (rt_mutex_lock m r)); [unfold s', rt_mutex_lock; fold mu s; by rewrite (proj2 (Z.eqb_neq _ _) Hz)|by rewrite Hr']. }
  rewrite Hr'. unfold mutex_at. cbn [mutexes sc]. rewrite lookup_insert_eq. cbn [default owner waiters locked].
  destruct Hq as [Hp Hnd Hin Hsort Hbl Hcur].
  assert (me ∈ IDLE :: L) as Hme by apply (st_cur _ _ _ (proj2 Hi)).
  assert (wq_ins (prio_of s) me Q ⊆ IDLE :: L) as Hsub.
  { intros x Hx. rewrite wq_ins_perm in Hx. apply elem_of_cons in Hx as [->|Hx]; [done|]. right. by apply Hin. }
  assert (forall x, x ∈ IDLE :: L -> priority (get s5 x) = priority (get s3 x)) as Hp5.
  { intros x Hx. by destruct (Hre5 x Hx) as (? & ? & ->). }
  split; [done|]. split; [done|]. split; [done|]. split; [done|]. split.
  { destruct (Hre5 me Hme) as (? & ? & ->). done. }
  split; [done|]. split; [done|]. split; [by eapply wpath_restated|]. split.
  - intros Hb0 HoQ. apply (by_prio_ext (prio_of s)); [|by apply wq_ins_sorted]. intros x Hx. unfold prio_of.
    rewrite Hp5 by by apply Hsub. apply Hsame; [done|done|]. intros ->. rewrite wq_ins_perm in Hx.
    by apply elem_of_cons in Hx as [?|?].
  - intros HoL. assert (owner mu <> 0) as Hoz.
    { intros Hq0. apply (co_nz _ _ _ _ (proj1 Hi)). rewrite <- Hq0. right. apply elem_of_app. by left. }
    assert (owner mu ∈ IDLE :: L) as HoL' by by right.
    split; [rewrite Hp5 by done; by apply Hown|]. intros Hrd. transitivity (priority (get s3 (owner mu))); [by apply Hown|].
    apply Hpr5; [done|done|]. by rewrite (qu_state _ _ _ _ _ Hqu).
Qed.

(** Granting: the head of the queue leaves it, becomes ready, and [schedule]
    runs. *)
Lemma grant_switch s L D F h w Q :
  sched_inv s L D F -> wq_ok s L h (w :: Q) ->
  let s' := schedule (put (put s w (set_wait_next 0)) w (set_state TASK_READY)) in
  h = w /\ sched_inv s' L [] F /\ wpath (tasks s') (wait_next (get s w)) Q /\
  wait_next (get s' w) = 0 /\
  state (get s' w) = (if decide (w = current s') then TASK_RUNNING else TASK_READY) /\
  (forall x, x ∈ IDLE :: L -> priority (get s' x) = priority (get s x)) /\
  priority (get s w) <= priority (get s' (current s')) /\
  (forall x, x ∈ w :: Q -> priority (get s x) <= priority (get s w)).
Proof.
  intros Hi Hq s'. pose proof Hi as [Hc Hst]. destruct Hq as [(Hh & Hwz & Hp) Hnd Hin Hsort Hbl Hcur].
  assert (w ∈ IDLE :: L) as Hw by (right; apply Hin; left).
  assert (w ∈ IDLE :: L ++ D) as Hw' by (revert Hw; rewrite !elem_of_cons, elem_of_app; tauto).
  apply not_elem_of_cons in Hcur as [Hcw HcQ]. apply NoDup_cons in Hnd as [HwQ Hnd].
  set (s1 := put (put s w (set_wait_next 0)) w (set_state TASK_READY)) in *.
  assert (forall x, get s1 x = if decide (w = x) then set_state TASK_READY (set_wait_next 0 (get s x)) else get s x) as Hg1.
  { intros x. subst s1. rewrite !get_put. by case_decide. }
  assert (core s1 L D F) as Hc1.
  { apply core_put; [by apply core_put_wait|done|apply keeps_set_state|done]. }
  assert (callable s1 L) as Hca1.
  { pose proof (inv_callable _ _ _ _ Hi) as [H1' H2' H3']. constructor; [done|..].
    - intros a Ha Hne. rewrite Hg1. case_decide; [done|]. by apply H2'.
    - rewrite Hg1. by case_decide. }
  destruct (schedule_spec s1 L D F Hc1 Hca1) as (L' & D' & Hsw & Hst' & Hcase). fold s' in Hsw, Hst'.
  destruct Hcase as [(_ & -> & ->)|(Hd & _)].
  2: { rewrite Hg1 in Hd. change (current s1) with (current s) in Hd. rewrite decide_False in Hd by congruence.
       by destruct (st_alive _ _ _ Hst _ (st_cur _ _ _ Hst)). }
  assert (forall x, x ∈ IDLE :: L -> priority (get s' x) = priority (get s x)) as Hpr.
  { intros x Hx. destruct (sw_rest _ _ _ _ _ _ _ Hsw x Hx) as (? & ? & ->). rewrite Hg1. by case_decide. }
  split; [done|]. split; [split; [apply Hsw|done]|]. split.
  { eapply wpath_frame; [|exact Hp]. intros x Hx. fold (get s' x) (get s x).
    destruct (sw_rest _ _ _ _ _ _ _ Hsw x) as (? & ? & ->); [right; apply Hin; by right|].
    rewrite Hg1. rewrite decide_False; [done|]. by intros ->. }
  split.
  { destruct (sw_rest _ _ _ _ _ _ _ Hsw w Hw) as (? & ? & ->). rewrite Hg1. by rewrite decide_True. }
  split.
  { rewrite (sw_state _ _ _ _ _ _ _ Hsw w Hw), (sw_cur _ _ _ _ _ _ _ Hsw). case_decide; [done|].
    rewrite decide_False by (intros [Hx _]; exact (Hcw (eq_sym Hx))). rewrite Hg1. by rewrite decide_True. }
  split; [done|]. split.
  - rewrite Hpr by apply (st_cur _ _ _ Hst'). rewrite (sw_cur _ _ _ _ _ _ _ Hsw).
    assert (runnable (current s1) w (get s1 w) = true) as Hrun.
    { unfold runnable. rewrite Hg1, decide_True by done. done. }
    pose proof (next_task_max s1 L D F w Hc1 (ca_cur _ _ Hca1) Hw Hrun) as Hle.
    assert (forall x, priority (get s1 x) = priority (get s x)) as Hpp by (intros x; rewrite Hg1; by case_decide).
    by rewrite !Hpp in Hle.
  - intros x [->|Hx]%elem_of_cons; [done|]. apply StronglySorted_inv in Hsort as [_ Hall].
    rewrite Forall_forall in Hall. by apply Hall.
Qed.

Lemma wq_ok_put s L h Q a f :
  wq_ok s L h Q -> a ∉ Q -> current (put s a f) = current s -> wq_ok (put s a f) L h Q.
Proof.
  intros [Hp Hnd Hin Hsort Hbl Hcur] Ha _.
  assert (forall x, x ∈ Q -> get (put s a f) x = get s x) as Hg by (intros x Hx; apply get_put_ne; by intros ->).
  constructor; try done.
  - eapply wpath_frame; [|exact Hp]. intros x Hx. fold (get (put s a f) x). by rewrite Hg.
  - eapply by_prio_ext; [|exact Hsort]. intros x Hx. unfold prio_of. by rewrite Hg.
  - intros x Hx. rewrite Hg by done. by apply Hbl.
Qed.

(** C24: [rt_mutex_unlock] takes the caller back to its base priority.  With no
    waiter the mutex becomes free; otherwise it stays locked and goes to the
    first waiter, which no other waiter outranks and which becomes ready (or
    running), the rest of the queue keeps its order, and the task selected next
    has at least the priority of the new owner. *)
Theorem rt_mutex_unlock_correct r L D F m Q :
  let s := sc r in
  let me := current s in
  let mu := mutex_at r m in
  sched_inv s L D F -> wq_ok s L (waiters mu) Q -> 0 <= base_priority (get s me) <= PRIO_MAX ->
  let r' := rt_mutex_unlock m r in
  let s' := sc r' in
  match Q with
  | [] => s' = put s me (set_priority (base_priority (get s me))) /\ mutex_at r' m = MkMutex 0 0 0 /\
          sched_inv s' L D F
  | w :: Q' =>
      sched_inv s' L [] F /\ owner (mutex_at r' m) = w /\ locked (mutex_at r' m) = locked mu /\
      wpath (tasks s') (waiters (mutex_at r' m)) Q' /\
      state (get s' w) = (if decide (w = current s') then TASK_RUNNING else TASK_READY) /\
      (forall x, x ∈ Q -> priority (get s x) <= priority (get s w)) /\
      priority (get s w) <= priority (get s' (current s')) /\
      priority (get s' me) = base_priority (get s me)
  end.
Proof.
  intros s me mu Hi Hq Hb r' s'. pose proof Hi as [Hc Hst].
  set (s1 := put s me (set_priority (base_priority (get s me)))).
  assert (me ∈ IDLE :: L) as Hme by apply (st_cur _ _ _ Hst).
  assert (me ∉ Q) as HmQ by apply (wo_cur _ _ _ _ Hq).
  assert (sched_inv s1 L D F) as Hi1.
  { split; [apply core_put; [done| |by apply keeps_set_priority|done]|].
    - revert Hme. rewrite !elem_of_cons, elem_of_app. tauto.
    - apply (states_change s L D me _ (env s1)); done. }
  assert (wq_ok s1 L (waiters mu) Q) as Hq1 by by apply wq_ok_put.
  destruct Q as [|w Q'].
  - assert (waiters mu = 0) as Hw by apply (wo_path _ _ _ _ Hq).
    assert (r' = set_mutex (set_sc r s1) m (MkMutex 0 (waiters mu) 0)) as Hr'.
    { subst r'. unfold rt_mutex_unlock. fold s. unfold sched_current. fold me. fold s1.
      change (mutex_at (set_sc r s1) m) with mu. by rewrite Hw. }
    subst s'. rewrite Hr', mutex_at_set, Hw. done.
  - destruct (grant_switch s1 L D F (waiters mu) w Q' Hi1 Hq1) as (Hw & Hi2 & Hp2 & _ & Hst2 & Hpr2 & Hmax & Hall).
    assert (w <> 0) as Hwz by apply (wo_path _ _ _ _ Hq).
    assert (me <> w) as Hne by (intros ->; apply HmQ; left).
    set (s2 := schedule (put (put s1 w (set_wait_next 0)) w (set_state TASK_READY))) in *.
    assert (r' = set_sc (set_mutex (set_sc r s1) m (MkMutex w (wait_next (get s1 w)) (locked mu))) s2) as Hr'.
    { subst r'. unfold rt_mutex_unlock. fold s. unfold sched_current. fold me. fold s1.
      change (mutex_at (set_sc r s1) m) with mu. rewrite Hw, (proj2 (Z.eqb_neq w 0) Hwz).
      change (mutex_at (set_sc (set_sc r s1) _) m) with mu. done. }
    subst s'. rewrite Hr'. change (mutex_at (set_sc ?a s2) m) with (mutex_at a m). rewrite mutex_at_set.
    cbn [sc set_sc owner waiters locked].
    assert (forall x, x <> me -> get s1 x = get s x) as Hg1 by (intros x Hx; by apply get_put_ne).
    split; [done|]. split; [done|]. split; [done|]. split; [done|]. split; [done|]. split.
    + intros x Hx. rewrite <- (Hg1 x), <- (Hg1 w); [by apply Hall|done|]. by intros ->.
    + rewrite <- (Hg1 w) by done. split; [done|]. rewrite Hpr2 by done. subst s1. by rewrite get_put_eq.
Qed.

Lemma sem_at_set r m v : sem_at (set_sem r m v) m = v.
Proof. unfold sem_at. cbn [sems set_sem]. by rewrite lookup_insert_eq. Qed.

(** Semaphores.  [rt_sem_wait] takes a token if there is one; otherwise
    the caller joins the queue at its place, blocks and is switched away from.
    [rt_sem_post] adds a token when nobody waits and otherwise hands it to the
    first waiter, which becomes ready and leaves the queue: a token is never
    both counted and granted. *)
Theorem rt_sem_correct r L D F m Q :
  let s := sc r in
  let me := current s in
  let sm := sem_at r m in
  sched_inv s L D F -> me <> IDLE -> wq_ok s L (sem_waiters sm) Q -> - 2 ^ 31 <= count sm < 2 ^ 31 - 1 ->
  (let r' := rt_sem_wait m r in
   let s' := sc r' in
   (0 < count sm /\ s' = s /\ sem_at r' m = MkSem (count sm - 1) (sem_waiters sm)) \/
   (count sm <= 0 /\ sched_inv s' L [] F /\ current s' <> me /\ state (get s' me) = TASK_BLOCKED /\
    count (sem_at r' m) = count sm /\
    wpath (tasks s') (sem_waiters (sem_at r' m)) (wq_ins (prio_of s) me Q))) /\
  (let r' := rt_sem_post m r in
   let s' := sc r' in
   match Q with
   | [] => s' = s /\ sem_at r' m = MkSem (count sm + 1) 0
   | w :: Q' =>
       sched_inv s' L [] F /\ count (sem_at r' m) = count sm /\
       wpath (tasks s') (sem_waiters (sem_at r' m)) Q' /\
       state (get s' w) = (if decide (w = current s') then TASK_RUNNING else TASK_READY) /\
       priority (get s w) <= priority (get s' (current s'))
   end).
Proof.
  intros s me sm Hi Hni Hq Hcnt. pose proof Hi as [Hc Hst]. split.
  - intros r' s'. destruct (Z.ltb_spec 0 (count sm)) as [Hpos|Hle]; [left|right].
    { assert (r' = set_sem r m (MkSem (count sm - 1) (sem_waiters sm))) as Hr'.
      { subst r'. unfold rt_sem_wait. fold sm. by rewrite (proj2 (Z.ltb_lt _ _) Hpos). }
      subst s'. rewrite Hr', sem_at_set. done. }
    pose proof Hq as [Hp Hnd Hin _ _ Hcur].
    assert (me ∈ IDLE :: L) as Hme by apply (st_cur _ _ _ Hst).
    assert (forall x, x ∈ IDLE :: L -> x ∈ IDLE :: L ++ D) as Hl.
    { intros x. rewrite !elem_of_cons, elem_of_app. tauto. }
    destruct (wq_insert (sem_waiters sm) me s) as [h' s2] eqn:Ew.
    destruct (wq_insert_spec s L D F (sem_waiters sm) me Q h' s2) as (Hp2 & Hr2 & Hc2 & Hcur2 & _); try done.
    { by apply Hl. }
    { intros x Hx. apply Hl. right. by apply Hin. }
    assert (quiet s s2 L D F) as Hqu.
    { constructor; [done|done|]. intros x. by destruct (Hr2 x) as [v ->]. }
    destruct (quiet_callable s s2 L D F TASK_BLOCKED Hi Hqu ltac:(done)) as [Hc4 Hca4].
    rewrite <- Hcur2 in Hc4, Hca4.
    destruct (block_switch s2 L D F TASK_BLOCKED Hc4 Hca4) as (Hi5 & Hne5 & Hst5 & Hre5 & _);
      [by rewrite Hcur2|by left|]. rewrite Hcur2 in *. fold me in Hi5, Hne5, Hst5, Hre5.
    assert (r' = set_sc (set_sem (set_sc r s2) m (MkSem (count sm) h'))
                   (schedule (put s2 me (set_state TASK_BLOCKED)))) as Hr'.
    { subst r'. unfold rt_sem_wait. fold sm. destruct (Z.ltb_spec 0 (count sm)); [lia|].
      unfold sched_current. fold s me. rewrite Ew. done. }
    subst s'. rewrite Hr'. change (sem_at (set_sc ?a ?b) m) with (sem_at a m). rewrite sem_at_set.
    cbn [sc set_sc count sem_waiters]. do 5 (split; [done|]).
    eapply wpath_restated; [exact Hre5| |exact Hp2]. intros x Hx. rewrite wq_ins_perm in Hx.
    apply elem_of_cons in Hx as [->|Hx]; [done|]. right. by apply Hin.
  - intros r' s'. destruct Q as [|w Q'].
    + assert (sem_waiters sm = 0) as Hw by apply (wo_path _ _ _ _ Hq).
      assert (r' = set_sem r m (MkSem (count sm + 1) 0)) as Hr'.
      { subst r'. unfold rt_sem_post. fold sm. rewrite Hw. cbn [Z.eqb negb]. do 2 f_equal.
        unfold s32, to_signed, wrap. cbn [Z.pow]. case_if; dlia. }
      subst s'. rewrite Hr', sem_at_set. done.
    + destruct (grant_switch s L D F (sem_waiters sm) w Q' Hi Hq) as (Hw & Hi2 & Hp2 & _ & Hst2 & _ & Hmax & _).
      assert (w <> 0) as Hwz by apply (wo_path _ _ _ _ Hq).
      assert (r' = set_sc (set_sem r m (MkSem (count sm) (wait_next (get s w))))
                (schedule (put (put s w (set_wait_next 0)) w (set_state TASK_READY)))) as Hr'.
      { subst r'. unfold rt_sem_post. fold sm s. rewrite Hw, (proj2 (Z.eqb_neq w 0) Hwz). done. }
      subst s'. rewrite Hr'. change (sem_at (set_sc ?a ?b) m) with (sem_at a m). rewrite sem_at_set. done.
Qed.

(** ** Releases of periodic tasks *)

(** What one tick does to a task. *)
Definition released (now : Z) (tk : task) : task :=
  if (0 <? rt_period_cyc tk) && (rt_next_release tk <=? now) then
    set_rt_next_release (u64 (rt_next_release tk + rt_period_cyc tk))
      (if is_state TASK_SLEEPING tk
       then set_rt_activations (u32 (rt_activations tk + 1))
              (set_state TASK_READY (set_rt_release_cyc (rt_next_release tk) tk))
       else set_rt_deadline_misses (u32 (rt_deadline_misses tk + 1)) tk)
  else tk.

Lemma released_keeps now tk :
  keeps tk (released now tk) /\ held (released now tk) = held tk /\
  (state tk <> TASK_DEAD -> state (released now tk) <> TASK_DEAD) /\
  (state (released now tk) = TASK_RUNNING -> state tk = TASK_RUNNING) /\
  rt_period_cyc (released now tk) = rt_period_cyc tk.
Proof.
  unfold released. destruct (_ && _); [destruct (is_state TASK_SLEEPING tk)|]; (split; [solve_keeps|done]).
Qed.

Definition sooner (e : Z) (tk : task) : Z :=
  if 0 <? rt_period_cyc tk
  then if (e =? 0) || (rt_next_release tk <? e) then rt_next_release tk else e else e.

Lemma release_one_eq now t e s :
  t ∈ dom (tasks s) ->
  release_one now t e s = (sooner e (released now (get s t)), put s t (released now)).
Proof.
  intros Hin. assert (forall f, f (get s t) = get s t -> put s t f = s) as Hid.
  { intros f Hf. unfold put, upd, set_tasks. destruct s as [T c np dl na en]. cbn in *. f_equal.
    apply elem_of_dom in Hin as [tk Htk]. unfold get, task_at in Hf. cbn in Hf. rewrite Htk in Hf. cbn in Hf.
    unfold task_at. rewrite Htk. cbn. by rewrite Hf, insert_id. }
  unfold release_one, sooner. pose proof (released_keeps now (get s t)) as (_ & _ & _ & _ & ->).
  destruct (0 <? rt_period_cyc (get s t)) eqn:Ep.
  - destruct (rt_next_release (get s t) <=? now) eqn:En.
    + destruct (is_state TASK_SLEEPING (get s t)) eqn:Es; unfold put, get, set_tasks, upd in *;
        cbn [tasks current next_pid dead_list next_asid env]; rewrite !task_at_insert_eq, !insert_insert_eq;
        unfold released; rewrite Ep, En, Es; done.
    + assert (released now (get s t) = get s t) as Hr by (unfold released; rewrite Ep, En; done).
      rewrite Hr. f_equal. symmetry. by apply Hid.
  - f_equal. symmetry. apply Hid. unfold released. by rewrite Ep.
Qed.

Lemma release_loop_spec n now head t Q e s L D F :
  core s L D F -> path (tasks s) t Q head -> Q <> [] -> head ∉ tail Q -> NoDup Q -> Q ⊆ IDLE :: L ->
  (length Q <= n)%nat ->
  let '(e', s') := release_loop n now head t e s in
  core s' L D F /\ current s' = current s /\ env s' = env s /\
  (forall a, get s' a = if decide (a ∈ Q) then released now (get s a) else get s a) /\
  e' = fold_left (fun e a => sooner e (released now (get s a))) Q e.
Proof.
  revert t Q e s. induction n as [|n IH]; intros t Q e s Hc Hp Hne Hh Hnd Hsub Hn.
  { destruct Q; [done|cbn [length] in Hn; lia]. }
  destruct Q as [|x Q]; [done|]. destruct Hp as [-> Hp]. apply NoDup_cons in Hnd as [HxQ Hnd].
  assert (x ∈ IDLE :: L) as HxL by (apply Hsub; left).
  assert (x ∈ dom (tasks s)) as Hxd.
  { apply (co_dom _ _ _ _ Hc). revert HxL. rewrite !elem_of_cons, elem_of_app. tauto. }
  cbn [release_loop]. rewrite release_one_eq by done. set (s1 := put s x (released now)).
  destruct (released_keeps now (get s x)) as (Hk & Hh' & _ & _ & _).
  assert (core s1 L D F) as Hc1 by by apply core_put_id.
  assert (forall a, get s1 a = if decide (a = x) then released now (get s a) else get s a) as Hg1.
  { intros a. subst s1. rewrite get_put. destruct (decide (x = a)) as [->|]; [by rewrite decide_True|].
    by rewrite decide_False by congruence. }
  assert (next (get s1 x) = nx (tasks s) x) as Hnx1 by (rewrite Hg1, decide_True by done; apply (kp_next _ _ Hk)).
  rewrite Hnx1. destruct Q as [|y Q].
  - cbn [path] in Hp. rewrite Hp, Z.eqb_refl. do 3 (split; [done|]). split; [|done].
    intros a. rewrite Hg1. destruct (decide (a = x)) as [->|Hax]; [by rewrite decide_True by left|].
    rewrite decide_False; [done|]. by intros ?%list_elem_of_singleton.
  - pose proof Hp as [Hy _]. cbn [tail] in Hh. apply not_elem_of_cons in Hh as [Hh1 Hh2].
    destruct (Z.eqb_spec (nx (tasks s) x) head); [congruence|].
    specialize (IH (nx (tasks s) x) (y :: Q) (sooner e (released now (get s x))) s1 Hc1).
    destruct (release_loop n now head _ _ s1) as [e' s'].
    destruct IH as (IHc & IHcur & IHe & IHg & IHm); try done.
    { eapply path_frame; [|exact Hp]. intros a Ha. unfold nx. fold (get s1 a) (get s a). rewrite Hg1.
      rewrite decide_False; [done|]. by intros ->. }
    { intros a Ha. apply Hsub. by right. }
    { cbn [length] in *. lia. }
    split; [done|]. split; [done|]. split; [done|]. split.
    + intros a. rewrite IHg, Hg1. destruct (decide (a = x)) as [->|Hax].
      * rewrite decide_False by done. by rewrite decide_True by left.
      * destruct (decide (a ∈ y :: Q)); [by rewrite decide_True by by right|].
        rewrite decide_False; [done|]. by intros [?|?]%elem_of_cons.
    + rewrite IHm. cbn [fold_left]. assert (forall l z, x ∉ l ->
        fold_left (fun e a => sooner e (released now (get s1 a))) l z =
        fold_left (fun e a => sooner e (released now (get s a))) l z) as Hfl.
      { induction l as [|b l IHl]; intros z Hxl; [done|]. cbn [fold_left].
        apply not_elem_of_cons in Hxl as [Hxb Hxl]. rewrite (Hg1 b), decide_False by congruence. by apply IHl. }
      apply (Hfl (y :: Q)). done.
Qed.

(** The minimum of the pending releases. *)
Lemma sooner_min l (g : Z -> task) e :
  (forall a, a ∈ l -> 0 < rt_period_cyc (g a) -> 0 < rt_next_release (g a)) -> 0 <= e ->
  let m := fold_left (fun e a => sooner e (g a)) l e in
  (m = 0 /\ e = 0 /\ forall a, a ∈ l -> rt_period_cyc (g a) <= 0) \/
  (0 < m /\ (m = e \/ exists a, a ∈ l /\ 0 < rt_period_cyc (g a) /\ m = rt_next_release (g a)) /\
   (0 < e -> m <= e) /\ forall a, a ∈ l -> 0 < rt_period_cyc (g a) -> m <= rt_next_release (g a)).
Proof.
  revert e. induction l as [|x l IH]; intros e Hpos He; cbn [fold_left].
  { destruct (decide (e = 0)) as [->|]; [left|right].
    - split; [done|]. split; [done|]. intros a Ha. by apply not_elem_of_nil in Ha.
    - split; [lia|]. split; [by left|]. split; [lia|]. intros a Ha. by apply not_elem_of_nil in Ha. }
  assert (forall a, a ∈ l -> 0 < rt_period_cyc (g a) -> 0 < rt_next_release (g a)) as Hpos'.
  { intros a Ha. apply Hpos. by right. }
  pose proof (Hpos x ltac:(left)) as Hx.
  assert (0 <= sooner e (g x) /\ (0 < rt_period_cyc (g x) -> 0 < sooner e (g x) <= rt_next_release (g x)) /\
          (0 < e -> sooner e (g x) <= e) /\ (sooner e (g x) = e \/ (0 < rt_period_cyc (g x) /\ sooner e (g x) = rt_next_release (g x))) /\
          (rt_period_cyc (g x) <= 0 -> sooner e (g x) = e)) as (Hs0 & Hs1 & Hs2 & Hs3 & Hs4).
  { unfold sooner. destruct (Z.ltb_spec 0 (rt_period_cyc (g x))); [|repeat split; try lia].
    destruct (Z.eqb_spec e 0), (Z.ltb_spec (rt_next_release (g x)) e); cbn [orb]; repeat split; try lia. }
  destruct (IH (sooner e (g x)) Hpos' Hs0) as [(Hm & Hz & Hn)|(Hm & Hc & Hle & Hall)]; [left|right].
  - split; [done|]. assert (rt_period_cyc (g x) <= 0) as Hp by lia. split; [rewrite <- Hz; symmetry; by apply Hs4|].
    intros a [->|Ha]%elem_of_cons; [done|by apply Hn].
  - split; [done|]. split; [|split].
    + destruct Hc as [Hc|(a & Ha & ? & ?)]; [|right; exists a; split; [by right|done]].
      destruct Hs3 as [Hs3|[? Hs3]]; [left; congruence|right; exists x; split; [left|split; [done|congruence]]].
    + intros. lia.
    + intros a [->|Ha]%elem_of_cons Hpa; [lia|by apply Hall].
Qed.

(** [rt_tick_release] on the tasks of the run queue. *)
Lemma tick_release_run s L D F e s' :
  sched_inv s L D F -> rt_tick_release s = (e, s') ->
  sched_inv s' L D F /\ current s' = current s /\
  (forall a, get s' a = if decide (a ∈ IDLE :: L) then released (te_count (env s)) (get s a) else get s a) /\
  e = fold_left (fun e a => sooner e (released (te_count (env s)) (get s a))) (IDLE :: L) 0.
Proof.
  intros [Hc Hst] Hr. destruct (core_walk _ _ _ _ Hc) as (Hp & Ht & _ & Hn).
  pose proof (release_loop_spec (fuel s) (te_count (env s)) IDLE IDLE (IDLE :: L) 0 s L D F Hc Hp ltac:(done) Ht
    (core_ring_nodup _ _ _ _ Hc) ltac:(done) Hn) as Hsp.
  unfold rt_tick_release, sched_first_task in Hr. rewrite Hr in Hsp. destruct Hsp as (Hc' & Hcur & _ & Hg & He).
  assert (forall a, a ∈ IDLE :: L -> get s' a = released (te_count (env s)) (get s a)) as Hg'.
  { intros a Ha. by rewrite Hg, decide_True. }
  split; [split; [done|]|done]. destruct Hst as [Hs1 Hs2 Hs3 Hs4]. constructor; [by rewrite Hcur|..]; intros a Ha.
  - rewrite Hg' by done. by apply released_keeps, Hs2.
  - rewrite Hg, decide_False; [by apply Hs3|]. intros Hin.
    pose proof (co_nodup _ _ _ _ Hc) as Hnd. change (IDLE :: L ++ D) with ((IDLE :: L) ++ D) in Hnd.
    apply NoDup_app in Hnd as (_ & Hdj & _). by eapply Hdj.
  - rewrite Hg', Hcur by done. intros Hru. apply Hs4; [done|]. by apply released_keeps in Hru.
Qed.
Lemma tick_release_inv s L D F e s' :
  sched_inv s L D F -> rt_tick_release s = (e, s') ->
  sched_inv s' L D F /\ current s' = current s /\
  (forall a, get s' a = if decide (a ∈ IDLE :: L) then released (te_count (env s)) (get s a) else get s a).
Proof. intros Hi Hr. destruct (tick_release_run _ _ _ _ _ _ Hi Hr) as (? & ? & ? & _). done. Qed.
Lemma tick_release_spec s L D F e s' :
  sched_inv s L D F -> rt_tick_release s = (e, s') ->
  (forall a, a ∈ IDLE :: L -> 0 < rt_period_cyc (get s a) ->
     0 < rt_next_release (get s a) /\ rt_next_release (get s a) + rt_period_cyc (get s a) < 2 ^ 64) ->
  sched_inv s' L D F /\ current s' = current s /\
  (forall a, get s' a = if decide (a ∈ IDLE :: L) then released (te_count (env s)) (get s a) else get s a) /\
  ((e = 0 /\ forall a, a ∈ IDLE :: L -> rt_period_cyc (get s a) <= 0) \/
   (exists a, a ∈ IDLE :: L /\ 0 < rt_period_cyc (get s a) /\ e = rt_next_release (get s' a) /\
    forall b, b ∈ IDLE :: L -> 0 < rt_period_cyc (get s b) -> e <= rt_next_release (get s' b))).
Proof.
  intros Hi Hr Hno. destruct (tick_release_run _ _ _ _ _ _ Hi Hr) as (Hi' & Hcur & Hg & He).
  assert (forall a, a ∈ IDLE :: L -> get s' a = released (te_count (env s)) (get s a)) as Hg'.
  { intros a Ha. by rewrite Hg, decide_True. }
  do 3 (split; [done|]).
  assert (forall a, rt_period_cyc (released (te_count (env s)) (get s a)) = rt_period_cyc (get s a)) as Hper.
  { intros a. apply released_keeps. }
  destruct (sooner_min (IDLE :: L) (fun a => released (te_count (env s)) (get s a)) 0) as [(Hm & _ & Hall)|(Hm & Hc0 & _ & Hall)].
  - intros a Ha. rewrite Hper. intros Hpa. destruct (Hno a Ha Hpa) as [H1' H2']. unfold released.
    destruct (_ && _); [|done]. cbn [rt_next_release set_rt_next_release]. rewrite u64_small; lia.
  - done.
  - left. rewrite He. split; [done|]. intros a Ha. rewrite <- Hper. by apply Hall.
  - right. rewrite <- He in *. destruct Hc0 as [Hz|(a & Ha & Hpa & Hea)]; [lia|]. exists a. rewrite Hg' by done.
    rewrite Hper in Hpa. do 3 (split; [done|]). intros b Hb Hpb. rewrite Hg' by done. apply Hall; [done|].
    by rewrite Hper.
Qed.

(** [rt_tick_release].  Every periodic task whose release time has come is
    released: a sleeping one becomes ready with that release recorded, one that
    still runs its previous job is charged a deadline miss, and in both cases
    the next release moves on by one period; no other task changes.  The result
    is the earliest of the pending releases, 0 exactly when no task is
    periodic. *)
Theorem rt_tick_release_correct s L D F e s' :
  sched_inv s L D F -> rt_tick_release s = (e, s') ->
  (forall a, a ∈ IDLE :: L -> 0 < rt_period_cyc (get s a) ->
     0 < rt_next_release (get s a) /\ rt_next_release (get s a) + rt_period_cyc (get s a) < 2 ^ 64) ->
  sched_inv s' L D F /\ current s' = current s /\
  (forall a, get s' a = if decide (a ∈ IDLE :: L) then released (te_count (env s)) (get s a) else get s a) /\
  ((e = 0 /\ forall a, a ∈ IDLE :: L -> rt_period_cyc (get s a) <= 0) \/
   (exists a, a ∈ IDLE :: L /\ 0 < rt_period_cyc (get s a) /\ e = rt_next_release (get s' a) /\
    forall b, b ∈ IDLE :: L -> 0 < rt_period_cyc (get s b) -> e <= rt_next_release (get s' b))).
Proof. apply tick_release_spec. Qed.

(** The record of a finished job with response time [resp]. *)
Definition job_done (resp : Z) (tk : task) : task :=
  let tk1 := set_rt_last_resp_cyc resp tk in
  if 1 <? rt_activations tk then
    let tk2 := if rt_wcrt_cyc tk <? resp then set_rt_wcrt_cyc resp tk1 else tk1 in
    if rt_deadline_cyc tk <? resp then set_rt_deadline_misses (u32 (rt_deadline_misses tk + 1)) tk2 else tk2
  else tk1.

(** [rt_wait_next_period] does nothing for a task without a period.  For a
    periodic task it records the response time of the job, from its release to
    now; from the second job on, the worst-case response time becomes the
    maximum of the old value and this one and a response beyond the deadline
    counts as a miss; then the task sleeps until its next release and another
    task runs. *)
Theorem rt_wait_next_period_correct s L D F :
  let me := current s in
  let resp := u64 (te_count (env s) - rt_release_cyc (get s me)) in
  sched_inv s L D F -> me <> IDLE ->
  let s' := rt_wait_next_period s in
  (rt_period_cyc (get s me) = 0 /\ s' = s) \/
  (rt_period_cyc (get s me) <> 0 /\ sched_inv s' L [] F /\ current s' <> me /\
   state (get s' me) = TASK_SLEEPING /\ restated (job_done resp (get s me)) (get s' me) /\
   rt_last_resp_cyc (get s' me) = resp /\
   rt_wcrt_cyc (get s' me) = (if 1 <? rt_activations (get s me) then Z.max (rt_wcrt_cyc (get s me)) resp
                              else rt_wcrt_cyc (get s me)) /\
   (forall x, x ∈ IDLE :: L -> x <> me -> restated (get s x) (get s' x))).
Proof.
  intros me resp Hi Hni s'. unfold rt_wait_next_period, sched_current in s'. fold me in s'.
  destruct (Z.eqb_spec (rt_period_cyc (get s me)) 0) as [Hz|Hz]; [by left|right]. pose proof Hi as [Hc Hst].
  assert (me ∈ IDLE :: L) as Hme by apply (st_cur _ _ _ Hst).
  set (s1 := put s me (job_done resp)).
  assert (s' = schedule (put s1 me (set_state TASK_SLEEPING))) as Hs'.
  { subst s' s1. f_equal. f_equal. fold resp. rewrite get_put_eq.
    cbn [rt_activations set_rt_last_resp_cyc]. unfold job_done.
    destruct (1 <? rt_activations (get s me)) eqn:Ea; [|unfold put, upd; unfold get in Ea; by rewrite Ea].
    cbn [rt_wcrt_cyc set_rt_last_resp_cyc].
    destruct (rt_wcrt_cyc (get s me) <? resp) eqn:Ew; rewrite ?get_put_eq; cbn [rt_deadline_cyc set_rt_last_resp_cyc set_rt_wcrt_cyc];
      destruct (rt_deadline_cyc (get s me) <? resp) eqn:Ed;
      unfold put, get, set_tasks, upd in *; cbn [tasks current next_pid dead_list next_asid env];
      rewrite ?task_at_insert_eq, ?insert_insert_eq; rewrite Ea, Ew, Ed; done. }
  assert (keeps (get s me) (job_done resp (get s me)) /\ held (job_done resp (get s me)) = held (get s me) /\
          state (job_done resp (get s me)) = state (get s me)) as (Hk & Hh & Hsm).
  { unfold job_done. repeat case_match; (split; [solve_keeps|done]). }
  assert (quiet s s1 L D F) as Hqu.
  { constructor; [|done|].
    - by apply core_put_id.
    - intros x. subst s1. rewrite get_put. by case_decide; subst. }
  destruct (quiet_callable s s1 L D F TASK_SLEEPING Hi Hqu ltac:(done)) as [Hc4 Hca4].
  change (current s) with (current s1) in Hc4, Hca4.
  destruct (block_switch s1 L D F TASK_SLEEPING Hc4 Hca4) as (Hi5 & Hne5 & Hst5 & Hre5 & _); [done|by right|].
  change (current s1) with me in Hi5, Hne5, Hst5, Hre5. rewrite <- Hs' in Hi5, Hne5, Hst5, Hre5.
  split; [done|]. split; [done|]. split; [done|]. split; [done|].
  assert (restated (job_done resp (get s me)) (get s' me)) as Hj.
  { specialize (Hre5 me Hme). subst s1. by rewrite get_put_eq in Hre5. }
  split; [done|]. split; [|split].
  - destruct Hj as (? & ? & ->). unfold job_done. by repeat case_match.
  - destruct Hj as (? & ? & ->). cbn [rt_wcrt_cyc set_state set_next]. unfold job_done.
    destruct (1 <? rt_activations (get s me)); [|done].
    destruct (Z.ltb_spec (rt_wcrt_cyc (get s me)) resp); repeat case_match; cbn; lia.
  - intros x Hx Hne. specialize (Hre5 x Hx). subst s1. by rewrite get_put_ne in Hre5.
Qed.
End correctness.

(** ** Witnesses: two tasks, a mutex held by the second, a periodic task *)
Import SchedThm.
Notation demo_mutex := (MkRtos demo_run {[ 1000 := MkMutex 32 0 1 ]} {[ 2000 := MkSem 0 0 ]}).
Notation demo_wait := (rt_mutex_lock 1000 demo_mutex).
Notation demo_periodic := (schedule (rt_create_periodic [112] 0x3000 20 5000 5000 demo_boot).2).

Lemma demo_mutex_wq h : h = 0 -> wq_ok demo_run [16; 32] h [].
Proof.
  intros ->. constructor; try done; try (intros x Hx; by apply not_elem_of_nil in Hx); try constructor.
  intros Hx. by apply not_elem_of_nil in Hx.
Qed.

Lemma rt_mutex_lock_correct_witness :
  sched_inv (sc demo_wait) [16; 32] [] res0 /\ state (get (sc demo_wait) 16) = TASK_BLOCKED.
Proof.
  assert (owners_ok (mutexes demo_mutex) [IDLE; 16; 32]) as HM.
  { intros m v Hv. cbn [mutexes] in Hv. apply lookup_singleton_Some in Hv as [_ <-]. right. cbn. set_solver. }
  assert (current demo_run <> IDLE) as Hni by (vm_compute; done).
  assert (owner (mutex_at demo_mutex 1000) <> current demo_run) as Hno by (vm_compute; done).
  destruct (rt_mutex_lock_correct demo_mutex [16; 32] [] res0 1000 [] demo_run_inv Hni (demo_mutex_wq _ ltac:(by vm_compute)) HM Hno)
    as [(Hz & _)|(_ & Hi & _ & Hs & _)]; [by vm_compute in Hz|]. split; [exact Hi|exact Hs].
Defined.

Lemma demo_wait_inv : sched_inv (sc demo_wait) [16; 32] [] res0.
Proof. check_inv. Qed.
Lemma demo_wait_wq : wq_ok (sc demo_wait) [16; 32] (waiters (mutex_at demo_wait 1000)) [16].
Proof.
  constructor.
  - by vm_compute.
  - apply NoDup_singleton.
  - intros x ->%list_elem_of_singleton. left.
  - repeat constructor.
  - intros x ->%list_elem_of_singleton. by vm_compute.
  - intros Hx%list_elem_of_singleton. by vm_compute in Hx.
Qed.

Lemma rt_mutex_unlock_correct_witness :
  let r' := rt_mutex_unlock 1000 demo_wait in
  sched_inv (sc r') [16; 32] [] res0 /\ owner (mutex_at r' 1000) = 16.
Proof.
  assert (0 <= base_priority (get (sc demo_wait) (current (sc demo_wait))) <= PRIO_MAX) as Hb by (by vm_compute).
  pose proof (rt_mutex_unlock_correct demo_wait [16; 32] [] res0 1000 [16] demo_wait_inv demo_wait_wq Hb) as Hu.
  split; [exact (proj1 Hu)|exact (proj1 (proj2 Hu))].
Defined.

Lemma rt_sem_correct_witness :
  let r' := rt_sem_wait 2000 demo_mutex in
  count (sem_at r' 2000) = 0 /\ state (get (sc r') 16) = TASK_BLOCKED.
Proof.
  assert (current demo_run <> IDLE) as Hni by (vm_compute; done).
  assert (- 2 ^ 31 <= count (sem_at demo_mutex 2000) < 2 ^ 31 - 1) as Hcnt by (by vm_compute).
  destruct (proj1 (rt_sem_correct demo_mutex [16; 32] [] res0 2000 [] demo_run_inv Hni (demo_mutex_wq _ ltac:(by vm_compute)) Hcnt))
    as [(Hz & _)|(_ & _ & _ & Hs & Hc & _)]; [by vm_compute in Hz|]. split; [exact Hc|exact Hs].
Defined.

Lemma demo_periodic_inv : sched_inv demo_periodic [16] [] res0.
Proof. check_inv. Qed.

Lemma rt_tick_release_correct_witness :
  exists s', rt_tick_release demo_periodic = (312500, s') /\ sched_inv s' [16] [] res0.
Proof.
  destruct (rt_tick_release demo_periodic) as [e s'] eqn:Hr.
  assert (forall a, a ∈ [IDLE; 16] -> 0 < rt_period_cyc (get demo_periodic a) ->
    0 < rt_next_release (get demo_periodic a) /\
    rt_next_release (get demo_periodic a) + rt_period_cyc (get demo_periodic a) < 2 ^ 64) as Hno.
  { each_elem; intros Hp; [vm_compute in Hp; discriminate Hp|clear Hp; split; vm_compute; reflexivity]. }
  pose proof (proj1 (rt_tick_release_correct demo_periodic [16] [] res0 e s' demo_periodic_inv Hr Hno)) as Hi.
  assert (e = (rt_tick_release demo_periodic).1) as He by (by rewrite Hr).
  exists s'. split; [f_equal; rewrite He; by vm_compute|exact Hi].
Defined.

Lemma rt_wait_next_period_correct_witness :
  sched_inv (rt_wait_next_period demo_periodic) [16] [] res0 /\
  current (rt_wait_next_period demo_periodic) = IDLE.
Proof.
  assert (current demo_periodic <> IDLE) as Hni by (vm_compute; done).
  destruct (rt_wait_next_period_correct demo_periodic [16] [] res0 demo_periodic_inv Hni)
    as [(Hz & _)|(_ & Hi & _)]; [by vm_compute in Hz|]. split; [exact Hi|by vm_compute].
Defined.
End Rtos.
