(* ===== verification/Strings.v ===== *)
(** * Strings and formatted output (src/src/lib/strings/strings.c)

    Memory as a total map from addresses to bytes for the mem* and str*
    functions; the buffer of [kvsnprintf] as a list.  A C string is the list
    of its characters, without the final 0; the variable arguments are a list
    of numbers and strings. *)
From S2P Require Import Prelude Bytes.
From stdpp Require Import strings.
#[local] Open Scope Z_scope.

Module Strings.

(** ** Memory blocks *)

(** [for (i = i0; i < i0 + n; i++) d[i] = s[i];] *)
Fixpoint copy_up (n : nat) (i d s : Z) (m : mem) : mem :=
  match n with
  | O => m
  | S n' => copy_up n' (i + 1) d s (st8 m (d + i) (m (s + i)))
  end.
(** [for (i = n; i > 0; i--) d[i - 1] = s[i - 1];] *)
Fixpoint copy_down (n : nat) (d s : Z) (m : mem) : mem :=
  match n with
  | O => m
  | S n' => copy_down n' d s (st8 m (d + Z.of_nat n') (m (s + Z.of_nat n')))
  end.

Definition memcpy (dest src n : Z) (m : mem) : mem := copy_up (Z.to_nat n) 0 dest src m.

Definition memmove (dest src n : Z) (m : mem) : mem :=
  if (dest =? src) || (n =? 0) then m
  else if dest <? src then copy_up (Z.to_nat n) 0 dest src m
  else copy_down (Z.to_nat n) dest src m.

Fixpoint set_loop (n : nat) (i d c : Z) (m : mem) : mem :=
  match n with O => m | S n' => set_loop n' (i + 1) d c (st8 m (d + i) (u8 c)) end.
Definition memset (dest c n : Z) (m : mem) : mem := set_loop (Z.to_nat n) 0 dest c m.

Fixpoint cmp_loop (n : nat) (i a b : Z) (m : mem) : Z :=
  match n with
  | O => 0
  | S n' => if negb (m (a + i) =? m (b + i)) then m (a + i) - m (b + i) else cmp_loop n' (i + 1) a b m
  end.
Definition memcmp (a b n : Z) (m : mem) : Z := cmp_loop (Z.to_nat n) 0 a b m.

(** ** Strings in memory; the fuel bounds the search for the final 0 *)
Fixpoint strlen_loop (fuel : nat) (n s : Z) (m : mem) : Z :=
  match fuel with
  | O => n
  | S f => if m (s + n) =? 0 then n else strlen_loop f (n + 1) s m
  end.
Definition strlen (fuel : nat) (s : Z) (m : mem) : Z := strlen_loop fuel 0 s m.
Definition strnlen (s maxlen : Z) (m : mem) : Z := strlen_loop (Z.to_nat maxlen) 0 s m.

Fixpoint strcmp (fuel : nat) (a b : Z) (m : mem) : Z :=
  match fuel with
  | O => 0
  | S f => if negb (m a =? 0) && (m a =? m b) then strcmp f (a + 1) (b + 1) m else u8 (m a) - u8 (m b)
  end.

Fixpoint strncmp_loop (n : nat) (i a b : Z) (m : mem) : Z :=
  match n with
  | O => 0
  | S n' =>
      let ca := u8 (m (a + i)) in
      let cb := u8 (m (b + i)) in
      if negb (ca =? cb) then ca - cb else if ca =? 0 then 0 else strncmp_loop n' (i + 1) a b m
  end.
Definition strncmp (a b n : Z) (m : mem) : Z := strncmp_loop (Z.to_nat n) 0 a b m.

(** the copying and the padding loop of [strncpy]; [k] iterations are left *)
Fixpoint pad_loop (k : nat) (i d : Z) (m : mem) : mem :=
  match k with O => m | S k' => pad_loop k' (i + 1) d (st8 m (d + i) 0) end.
Fixpoint ncpy_loop (k : nat) (i d s : Z) (m : mem) : mem :=
  match k with
  | O => m
  | S k' => if m (s + i) =? 0 then pad_loop k i d m
            else ncpy_loop k' (i + 1) d s (st8 m (d + i) (m (s + i)))
  end.
Definition strncpy (dest src n : Z) (m : mem) : mem := ncpy_loop (Z.to_nat n) 0 dest src m.

(** [strchr]: address of the character, 0 when there is none *)
Fixpoint strchr (fuel : nat) (s c : Z) (m : mem) : Z :=
  match fuel with
  | O => 0
  | S f =>
      let target := u8 c in
      if negb (m s =? 0) then if u8 (m s) =? target then s else strchr f (s + 1) c m
      else if target =? 0 then s else 0
  end.

(** ** Formatted output *)
Record out := MkOut { buf : list Z; pos : Z }.

Definition buf_putc (buflen c : Z) (o : out) : out :=
  MkOut (if pos o + 1 <? buflen then wr (buf o) (pos o) c else buf o) (pos o + 1).

Definition buf_puts (buflen : Z) (s : list Z) (o : out) : out :=
  fold_left (fun o c => buf_putc buflen c o) s o.

(** "0123456789abcdef" *)
Definition digits (d : Z) : Z := if d <? 10 then 48 + d else 97 + (d - 10).
(** the loop that fills [tmp]; the first element is [tmp[0]], the last digit *)
Fixpoint tmp_loop (fuel : nat) (val base : Z) : list Z :=
  match fuel with
  | O => []
  | S f => if 0 <? val then digits (val mod base) :: tmp_loop f (val / base) base else []
  end.
Definition buf_putu (buflen val base : Z) (o : out) : out :=
  if val =? 0 then buf_putc buflen 48 o
  else buf_puts buflen (reverse (tmp_loop 64 val base)) o.

(** The variable arguments: numbers, strings, the null pointer. *)
Inductive arg := ANum (v : Z) | AStr (s : list Z) | ANull.
Definition num (a : option arg) : Z := match a with Some (ANum v) => v | _ => 0 end.
Definition str (a : option arg) : list Z :=
  match a with Some (AStr s) => s | _ => [40; 110; 117; 108; 108; 41] end.   (* "(null)" *)

Definition put_int (buflen val : Z) (o : out) : out :=
  if val <? 0
  then buf_putu buflen (u64 (0 - u64 val)) 10 (buf_putc buflen 45 o)
  else buf_putu buflen (u64 val) 10 o.

Fixpoint fmt_loop (buflen : Z) (fmt : list Z) (args : list arg) (o : out) : out :=
  match fmt with
  | [] => o
  | c :: fmt' =>
      if negb (c =? 37) then fmt_loop buflen fmt' args (buf_putc buflen c o)
      else
        match fmt' with
        | [] => o
        | k :: fmt'' =>
            if k =? 115 then fmt_loop buflen fmt'' (tail args) (buf_puts buflen (str (head args)) o)
            else if k =? 100 then fmt_loop buflen fmt'' (tail args) (put_int buflen (s32 (num (head args))) o)
            else if k =? 117 then fmt_loop buflen fmt'' (tail args) (buf_putu buflen (u64 (num (head args))) 10 o)
            else if k =? 120 then fmt_loop buflen fmt'' (tail args) (buf_putu buflen (u64 (num (head args))) 16 o)
            else if k =? 99 then fmt_loop buflen fmt'' (tail args) (buf_putc buflen (u8 (num (head args))) o)
            else if k =? 37 then fmt_loop buflen fmt'' args (buf_putc buflen 37 o)
            else fmt_loop buflen fmt'' args (buf_putc buflen k (buf_putc buflen 37 o))
        end
  end.

(** Returns the value of the function and the buffer. *)
Definition kvsnprintf (b : list Z) (buflen : Z) (fmt : list Z) (args : list arg) : Z * list Z :=
  let o := fmt_loop buflen fmt args (MkOut b 0) in
  (s32 (pos o),
   if 0 <? buflen then wr (buf o) (if pos o <? buflen then pos o else buflen - 1) 0 else buf o).
Definition ksnprintf (b : list Z) (buflen : Z) (fmt : list Z) (args : list arg) : Z * list Z :=
  kvsnprintf b buflen fmt args.

(** ** memmove *)
Ltac by_cases :=
  repeat match goal with
  | |- context [?a =? ?b] => destruct (Z.eqb_spec a b)
  | |- context [?a <=? ?b] => destruct (Z.leb_spec a b)
  | |- context [?a <? ?b] => destruct (Z.ltb_spec a b)
  end; cbn [andb orb negb]; try lia; try done; try (f_equal; lia).

Lemma copy_up_spec n i d s m x :
  d < s \/ s + i + Z.of_nat n <= d -> 0 <= i ->
  copy_up n i d s m x = if (d + i <=? x) && (x <? d + i + Z.of_nat n) then m (x - d + s) else m x.
Proof.
  revert i m. induction n as [|n IH]; intros i m Hds Hi; cbn [copy_up].
  { by_cases. }
  rewrite IH by lia. unfold st8. by_cases.
Qed.

Lemma copy_down_spec n d s m x :
  s < d -> copy_down n d s m x = if (d <=? x) && (x <? d + Z.of_nat n) then m (x - d + s) else m x.
Proof.
  revert m. induction n as [|n IH]; intros m Hds; cbn [copy_down].
  { by_cases. }
  rewrite IH by lia. unfold st8. by_cases.
Qed.

(** C28: [memmove] moves the [n] bytes that were at [src] to [dest], however the
    two ranges overlap, and changes nothing else; [memcpy] does the same when
    [dest] lies below [src] or the ranges do not overlap. *)
Theorem memmove_correct dest src n m x :
  0 <= n ->
  memmove dest src n m x = (if (dest <=? x) && (x <? dest + n) then m (x - dest + src) else m x) /\
  (dest < src \/ src + n <= dest -> memcpy dest src n m x = memmove dest src n m x).
Proof.
  intros Hn. assert (memmove dest src n m x =
    (if (dest <=? x) && (x <? dest + n) then m (x - dest + src) else m x)) as Hmm.
  { unfold memmove. destruct (Z.eqb_spec dest src) as [->|Hne]; cbn [orb].
    { case_if; [f_equal; lia|done]. }
    destruct (Z.eqb_spec n 0) as [->|Hn0]; [by_cases|].
    destruct (Z.ltb_spec dest src).
    - rewrite copy_up_spec by lia. by_cases.
    - rewrite copy_down_spec by lia. by_cases. }
  split; [done|]. intros Hov. rewrite Hmm. unfold memcpy. rewrite copy_up_spec by lia. by_cases.
Qed.

(** ** The text [kvsnprintf] stands for *)
Fixpoint num_text (fuel : nat) (val base : Z) : list Z :=
  match fuel with
  | O => []
  | S f => if val <? base then [digits val] else num_text f (val / base) base ++ [digits (val mod base)]
  end.
Definition utext (val base : Z) : list Z := num_text 64 val base.
Definition itext (val : Z) : list Z := if val <? 0 then 45 :: utext (- val) 10 else utext val 10.

Fixpoint render (fmt : list Z) (args : list arg) : list Z :=
  match fmt with
  | [] => []
  | c :: fmt' =>
      if negb (c =? 37) then c :: render fmt' args
      else
        match fmt' with
        | [] => []
        | k :: fmt'' =>
            if k =? 115 then str (head args) ++ render fmt'' (tail args)
            else if k =? 100 then itext (s32 (num (head args))) ++ render fmt'' (tail args)
            else if k =? 117 then utext (u64 (num (head args))) 10 ++ render fmt'' (tail args)
            else if k =? 120 then utext (u64 (num (head args))) 16 ++ render fmt'' (tail args)
            else if k =? 99 then u8 (num (head args)) :: render fmt'' (tail args)
            else if k =? 37 then 37 :: render fmt'' args
            else 37 :: k :: render fmt'' args
        end
  end.

(** *** Digits *)
Lemma tmp_loop_text f val base :
  1 < base -> 0 < val -> val < base ^ Z.of_nat f ->
  reverse (tmp_loop f val base) = num_text f val base.
Proof.
  intros Hb. revert val. induction f as [|f IH]; intros val Hv Hlt; [cbn in Hlt; lia|].
  cbn [tmp_loop num_text]. destruct (Z.ltb_spec 0 val); [|lia]. rewrite reverse_cons.
  destruct (Z.ltb_spec val base) as [Hs|Hs].
  - rewrite Z.mod_small, Z.div_small by lia. destruct f; [done|]. cbn [tmp_loop]. by case_if; [lia|].
  - rewrite IH; [done| |].
    + apply Z.div_str_pos. lia.
    + apply Z.div_lt_upper_bound; [lia|]. rewrite Nat2Z.inj_succ, Z.pow_succ_r in Hlt by lia. lia.
Qed.

Lemma pow_64 base : 1 < base -> 2 ^ 64 <= base ^ 64.
Proof. intros. apply Z.pow_le_mono_l. lia. Qed.

Lemma putu_text buflen val base o :
  1 < base -> 0 <= val < 2 ^ 64 -> buf_putu buflen val base o = buf_puts buflen (utext val base) o.
Proof.
  intros Hb Hv. unfold buf_putu, utext. destruct (Z.eqb_spec val 0) as [->|Hnz].
  - unfold buf_puts. cbn [num_text]. destruct (Z.ltb_spec 0 base); [|lia]. done.
  - rewrite tmp_loop_text; [done|lia|lia|]. pose proof (pow_64 base Hb). change (Z.of_nat 64) with 64. lia.
Qed.

(** *** The buffer after the text [l] has been put out *)
Definition emitted (buflen : nat) (b : list Z) (l : list Z) : out :=
  let k := Nat.min (length l) (buflen - 1) in MkOut (take k l ++ drop k b) (Z.of_nat (length l)).

Lemma putc_emitted buflen b l c :
  length b = buflen ->
  buf_putc (Z.of_nat buflen) c (emitted buflen b l) = emitted buflen b (l ++ [c]).
Proof.
  intros Hb. unfold buf_putc, emitted. cbn [buf pos]. rewrite length_app. cbn [length].
  destruct (Z.ltb_spec (Z.of_nat (length l) + 1) (Z.of_nat buflen)) as [Hlt|Hge].
  - rewrite !Nat.min_l by lia. f_equal; [|lia]. unfold wr. rewrite Nat2Z.id.
    rewrite (take_ge l), (take_ge (l ++ [c])) by (rewrite ?length_app; cbn; lia).
    rewrite insert_app_r_alt, Nat.sub_diag by lia. rewrite <- app_assoc. f_equal.
    destruct (drop (length l) b) as [|x d] eqn:Ed.
    + apply (f_equal length) in Ed. rewrite length_drop in Ed. cbn in Ed. lia.
    + cbn. f_equal. rewrite <- drop_drop, Ed. done.
  - rewrite !Nat.min_r by lia. f_equal; [|lia]. rewrite take_app_le by lia. done.
Qed.

Lemma puts_emitted buflen b l t :
  length b = buflen -> buf_puts (Z.of_nat buflen) t (emitted buflen b l) = emitted buflen b (l ++ t).
Proof.
  intros Hb. unfold buf_puts. revert l. induction t as [|c t IH]; intros l; cbn [fold_left].
  - by rewrite app_nil_r.
  - rewrite putc_emitted, IH, <- app_assoc by done. done.
Qed.

Lemma put_int_emitted buflen b l v :
  length b = buflen -> - 2 ^ 31 <= v < 2 ^ 31 ->
  put_int (Z.of_nat buflen) v (emitted buflen b l) = emitted buflen b (l ++ itext v).
Proof.
  intros Hb Hv. unfold put_int, itext. destruct (Z.ltb_spec v 0) as [Hneg|Hpos].
  - assert (u64 (0 - u64 v) = - v) as ->.
    { unfold u64, wrap. rewrite <- (Z.mod_unique_pos v (2 ^ 64) (-1) (v + 2 ^ 64)) by lia.
      symmetry. apply (Z.mod_unique_pos _ _ (-1)); lia. }
    rewrite putu_text by lia. rewrite putc_emitted, puts_emitted, <- app_assoc by done. done.
  - rewrite u64_small, putu_text by lia. by apply puts_emitted.
Qed.

Lemma s32_range v : - 2 ^ 31 <= s32 v < 2 ^ 31.
Proof.
  unfold s32, to_signed. pose proof (wrap_range 32 v ltac:(lia)). case_if; lia.
Qed.

Lemma fmt_emitted buflen b fmt args l :
  length b = buflen ->
  fmt_loop (Z.of_nat buflen) fmt args (emitted buflen b l) = emitted buflen b (l ++ render fmt args).
Proof.
  intros Hb. remember (length fmt) as n eqn:Hn. revert fmt args l Hn.
  induction n as [n IH] using lt_wf_ind. intros fmt args l Hn.
  destruct fmt as [|c fmt]; cbn [fmt_loop render]; [by rewrite app_nil_r|].
  destruct (c =? 37) eqn:Ec; cbn [negb].
  2: { rewrite putc_emitted by done. rewrite (IH (length fmt)); [|cbn [length] in Hn; lia|done].
       by rewrite <- app_assoc. }
  destruct fmt as [|k fmt]; [by rewrite app_nil_r|].
  assert (forall args' l', fmt_loop (Z.of_nat buflen) fmt args' (emitted buflen b l') =
            emitted buflen b (l' ++ render fmt args')) as IH'.
  { intros args' l'. apply (IH (length fmt)); [cbn [length] in Hn; lia|done]. }
  pose proof (u64_range (num (head args))) as Hu.
  repeat case_if; rewrite ?putu_text by lia; rewrite ?put_int_emitted by (done || apply s32_range);
    rewrite ?puts_emitted, ?putc_emitted by done; rewrite IH', <- ?app_assoc; done.
Qed.

Lemma kvsnprintf_spec b buflen fmt args :
  buflen = Z.of_nat (length b) -> Z.of_nat (length (render fmt args)) < 2 ^ 31 ->
  let text := render fmt args in
  let k := Nat.min (length text) (length b - 1) in
  kvsnprintf b buflen fmt args =
  (Z.of_nat (length text), if 0 <? buflen then take k text ++ 0 :: drop (S k) b else b).
Proof.
  intros -> Hlen text k. unfold kvsnprintf.
  assert (MkOut b 0 = emitted (length b) b []) as -> by done.
  rewrite fmt_emitted by done. cbn [app]. unfold emitted. cbn [buf pos].
  fold text. fold k. f_equal.
  { fold text in Hlen. unfold s32, to_signed. rewrite wrap_small by lia. case_if; lia. }
  destruct (Z.ltb_spec 0 (Z.of_nat (length b))) as [Hpos|Hz].
  - assert ((if Z.of_nat (length text) <? Z.of_nat (length b) then Z.of_nat (length text)
             else Z.of_nat (length b) - 1) = Z.of_nat k) as ->.
    { subst k. destruct (Z.ltb_spec (Z.of_nat (length text)) (Z.of_nat (length b))); lia. }
    unfold wr. rewrite Nat2Z.id. rewrite insert_app_r_alt by (rewrite length_take; lia).
    rewrite length_take, Nat.min_l by lia. rewrite Nat.sub_diag. f_equal.
    destruct (drop k b) as [|x d] eqn:Ed.
    + apply (f_equal length) in Ed. rewrite length_drop in Ed. cbn in Ed. subst k. lia.
    + cbn. f_equal. replace (S k) with (k + 1)%nat by lia. rewrite <- drop_drop, Ed. done.
  - destruct b; [|cbn [length] in Hz; lia]. subst k. cbn [length Nat.sub]. by rewrite Nat.min_0_r.
Qed.



(** *** Numbers come back *)
Definition digit_val (c : Z) : Z := if c <? 58 then c - 48 else c - 97 + 10.
Definition text_val (base : Z) (l : list Z) : Z := fold_left (fun v c => v * base + digit_val c) l 0.

Lemma digit_val_digits d : 0 <= d < 16 -> digit_val (digits d) = d.
Proof. intros. unfold digit_val, digits. repeat case_if; lia. Qed.

Lemma num_text_val f val base :
  1 < base <= 16 -> 0 <= val < base ^ Z.of_nat f -> text_val base (num_text f val base) = val.
Proof.
  intros Hb. revert val. induction f as [|f IH]; intros val Hv.
  { cbn in *. lia. }
  cbn [num_text]. destruct (Z.ltb_spec val base) as [Hs|Hs].
  - unfold text_val. cbn. rewrite digit_val_digits by lia. lia.
  - unfold text_val. rewrite fold_left_app. cbn [fold_left]. fold (text_val base (num_text f (val / base) base)).
    rewrite IH, digit_val_digits.
    + pose proof (Z.div_mod val base). lia.
    + pose proof (Z.mod_pos_bound val base). lia.
    + split; [apply Z.div_pos; lia|]. apply Z.div_lt_upper_bound; [lia|].
      rewrite Nat2Z.inj_succ, Z.pow_succ_r in Hv by lia. lia.
Qed.

Lemma tmp_loop_len f val base n :
  1 < base -> 0 <= val < base ^ Z.of_nat n -> (length (tmp_loop f val base) <= n)%nat.
Proof.
  intros Hb. revert val n. induction f as [|f IH]; intros val n Hv; cbn [tmp_loop]; [cbn; lia|].
  destruct (Z.ltb_spec 0 val) as [Hp|]; [|cbn; lia]. cbn [length].
  destruct n as [|n]; [cbn in Hv; lia|]. apply le_n_S, IH. split; [apply Z.div_pos; lia|].
  apply Z.div_lt_upper_bound; [lia|]. rewrite Nat2Z.inj_succ, Z.pow_succ_r in Hv by lia. lia.
Qed.

(** The digits [buf_putu] puts out denote the number, in the two bases the
    format string can select, and the 24-byte scratch array is never overrun
    (at most 20 digits). *)
Theorem buf_putu_roundtrip buflen val base o :
  0 <= val < 2 ^ 64 -> base = 10 \/ base = 16 ->
  buf_putu buflen val base o = buf_puts buflen (utext val base) o /\
  text_val base (utext val base) = val /\ (length (tmp_loop 64 val base) <= 20)%nat.
Proof.
  intros Hv Hb. assert (1 < base <= 16) as Hb' by lia.
  split; [by apply putu_text; lia|]. split.
  - apply num_text_val; [lia|]. pose proof (pow_64 base ltac:(lia)). change (Z.of_nat 64) with 64. lia.
  - apply tmp_loop_len; [lia|]. split; [lia|]. destruct Hb as [-> | ->]; cbn; lia.
Qed.

Lemma buf_putu_roundtrip_witness : text_val 10 (utext 65535 10) = 65535.
Proof.
  exact (proj1 (proj2 (buf_putu_roundtrip 0 65535 10 (MkOut [] 0) ltac:(lia) (or_introl eq_refl)))).
Defined.

Lemma memmove_correct_witness :
  memmove 101 100 3 (fun a => a) 103 = 102 /\ memcpy 100 101 3 (fun a => a) 102 = 103.
Proof.
  split; [exact (proj1 (memmove_correct 101 100 3 (fun a => a) 103 ltac:(lia)))|].
  rewrite (proj2 (memmove_correct 100 101 3 (fun a => a) 102 ltac:(lia)) ltac:(lia)). reflexivity.
Defined.
End Strings.
