(* ===== verification/Uart.v ===== *)
(** * The UART driver (src/src/lib/uart/uart.c)

    What the console functions send, the register writes of the two
    initialisations, and the receive ring of the second UART, which the
    interrupt handler fills and the framing layer empties.  The hardware
    queues are arguments and results: a function that sends gives the bytes it
    stores to the data register, and an interrupt comes with the bytes the
    receive queue holds until it is empty.  C strings are lists of characters
    without the final 0. *)
From S2P Require Import Prelude Bytes Strings.
#[local] Open Scope Z_scope.

Module Uart.
Import Strings.

(** ** Register writes (address, value) of the initialisations *)
Definition UART_BASE : Z := 0x09000000.
Definition UART1_BASE : Z := 0x09040000.
Definition UART_INT_RX : Z := 1 <<< 4.
Definition setup (base : Z) : list (Z * Z) :=
  [(base + 0x30, 0); (base + 0x44, 0x7FF); (base + 0x24, 13); (base + 0x28, 2);
   (base + 0x2C, (1 <<< 4) .| (1 <<< 5) .| (1 <<< 6))].
Definition enable (base : Z) : list (Z * Z) := [(base + 0x30, (1 <<< 0) .| (1 <<< 8) .| (1 <<< 9))].
Definition uart_init : list (Z * Z) := setup UART_BASE ++ enable UART_BASE.

(** ** Console output *)
Definition uart_putc (c : Z) : list Z := [c].
(** [rx] are the bytes the console will receive; [None] is waiting for ever. *)
Definition uart_getc (rx : list Z) : option (Z * list Z) :=
  match rx with [] => None | b :: rx' => Some (u8 b, rx') end.
Definition uart_puts (s : list Z) : list Z := s.
Definition uart_println (s : list Z) : list Z := uart_puts s ++ uart_putc 10.
Definition uart_errorln (err : list Z) : list Z :=
  uart_puts [91; 69; 82; 82; 79; 82; 33; 93; 58; 32] ++ uart_puts err ++ uart_putc 10.   (* "[ERROR!]: " *)

(** [nibble < 10 ? '0' + nibble : 'A' + nibble - 10] *)
Definition hex_digit (d : Z) : Z := if d <? 10 then 48 + d else 65 + d - 10.
(** The loop [for (i = w * (n - 1); i >= 0; i -= w)] over the digits of [w]
    bits; [n] rounds are left. *)
Fixpoint digit_loop (n : nat) (w value : Z) (started : bool) : list Z :=
  match n with
  | O => []
  | S n' =>
      let i := w * Z.of_nat n' in
      let d := (value >>> i) .& (2 ^ w - 1) in
      if negb (d =? 0) || started || (i =? 0) then uart_putc (hex_digit d) ++ digit_loop n' w value true
      else digit_loop n' w value started
  end.
Definition uart_puthex (value : Z) : list Z := uart_puts [48; 120] ++ digit_loop 16 4 value false.
Definition uart_putbin (value : Z) : list Z := uart_puts [48; 98] ++ digit_loop 64 1 value false.

(** the loop that fills [buf]; the first element is [buf[0]] *)
Fixpoint dec_loop (fuel : nat) (value : Z) : list Z :=
  match fuel with
  | O => []
  | S f => if negb (value =? 0) then 48 + value mod 10 :: dec_loop f (value / 10) else []
  end.
Definition uart_putdec (value : Z) : list Z :=
  if value =? 0 then uart_putc 48 else reverse (dec_loop 64 value).

Fixpoint uart_printf (fmt : list Z) (args : list arg) : list Z :=
  match fmt with
  | [] => []
  | c :: fmt' =>
      if negb (c =? 37) then uart_putc c ++ uart_printf fmt' args
      else
        match fmt' with
        | [] => []
        | k :: fmt'' =>
            let val := num (head args) in
            if k =? 115 then uart_puts (str (head args)) ++ uart_printf fmt'' (tail args)
            else if k =? 100 then
              (if s64 val <? 0 then uart_putc 45 ++ uart_putdec (u64 (- s64 val)) else uart_putdec (u64 (s64 val)))
              ++ uart_printf fmt'' (tail args)
            else if k =? 117 then uart_putdec (u64 val) ++ uart_printf fmt'' (tail args)
            else if k =? 120 then uart_puthex (u64 val) ++ uart_printf fmt'' (tail args)
            else if k =? 112 then uart_puthex (u64 val) ++ uart_printf fmt'' (tail args)
            else if k =? 98 then uart_putbin (u64 val) ++ uart_printf fmt'' (tail args)
            else if k =? 99 then uart_putc (u8 val) ++ uart_printf fmt'' (tail args)
            else if k =? 37 then uart_putc 37 ++ uart_printf fmt'' args
            else uart_putc 37 ++ uart_putc k ++ uart_printf fmt'' args
        end
  end.

(** ** The receive ring of UART1 *)
Definition UART1_RING_SZ : Z := 256.
Record ring := MkRing { u1_ring : list Z; u1_head : Z; u1_tail : Z }.

Definition uart1_init (r : ring) : list (Z * Z) * ring :=
  (setup UART1_BASE ++ [(UART1_BASE + 0x38, UART_INT_RX)] ++ enable UART1_BASE, MkRing (u1_ring r) 0 0).

Definition uart1_putc (c : Z) : list Z := [c].

(** [fifo] are the bytes the receive queue yields until it is empty. *)
Fixpoint isr_loop (fifo : list Z) (r : ring) : ring :=
  match fifo with
  | [] => r
  | b :: fifo' =>
      let next := u32 (u1_head r + 1) mod UART1_RING_SZ in
      isr_loop fifo'
        (if negb (next =? u1_tail r) then MkRing (wr (u1_ring r) (u1_head r) (u8 b)) next (u1_tail r) else r)
  end.
Definition uart1_rx_isr (fifo : list Z) (r : ring) : ring := isr_loop fifo r.

Definition uart1_getc_nonblock (r : ring) : Z * ring :=
  if negb (u1_tail r =? u1_head r)
  then (rd (u1_ring r) (u1_tail r), MkRing (u1_ring r) (u1_head r) (u32 (u1_tail r + 1) mod UART1_RING_SZ))
  else (-1, r).
Definition uart1_rx_available (r : ring) : Z := u32 (u1_head r - u1_tail r) mod UART1_RING_SZ.

(** ** Numbers come back *)
Definition hex_val (c : Z) : Z := if c <? 58 then c - 48 else c - 65 + 10.
Definition denotes (base : Z) (l : list Z) (acc : Z) : Z := fold_left (fun v c => v * base + hex_val c) l acc.
Lemma hex_val_digit d : 0 <= d < 16 -> hex_val (hex_digit d) = d.
Proof. intros. unfold hex_val, hex_digit. repeat case_if; lia. Qed.

(** One digit of [w] bits off the top. *)
Lemma top_digit n w v :
  0 < w -> 0 <= v < 2 ^ (w * Z.of_nat (S n)) ->
  let d := (v >>> (w * Z.of_nat n)) .& (2 ^ w - 1) in
  0 <= d < 2 ^ w /\ v = d * 2 ^ (w * Z.of_nat n) + v mod 2 ^ (w * Z.of_nat n).
Proof.
  intros Hw Hv. cbv zeta. replace (2 ^ w - 1) with (Z.ones w) by (rewrite Z.ones_equiv; lia).
  rewrite Z.land_ones, Z.shiftr_div_pow2 by lia.
  assert (v / 2 ^ (w * Z.of_nat n) < 2 ^ w) as Hlt.
  { apply Z.div_lt_upper_bound; [apply Z.pow_pos_nonneg; lia|]. rewrite <- Z.pow_add_r by lia.
    replace (w * Z.of_nat n + w) with (w * Z.of_nat (S n)) by lia. lia. }
  assert (0 <= v / 2 ^ (w * Z.of_nat n)) by (apply Z.div_pos; [lia|apply Z.pow_pos_nonneg; lia]).
  rewrite Z.mod_small by lia. split; [lia|]. pose proof (Z.pow_pos_nonneg 2 (w * Z.of_nat n) ltac:(lia) ltac:(lia)).
  pose proof (Z.div_mod v (2 ^ (w * Z.of_nat n)) ltac:(lia)). lia.
Qed.
(** The digits below the top one do not see the bits above them. *)
Lemma digit_loop_mod n w v started :
  0 < w -> digit_loop n w (v mod 2 ^ (w * Z.of_nat n)) started = digit_loop n w v started.
Proof.
  intros Hw. assert (forall k m st, (k <= m)%nat -> digit_loop k w (v mod 2 ^ (w * Z.of_nat m)) st = digit_loop k w v st) as Hk.
  { induction k as [|k IH]; intros m st Hkm; cbn [digit_loop]; [done|].
    assert (((v mod 2 ^ (w * Z.of_nat m)) >>> (w * Z.of_nat k)) .& (2 ^ w - 1) = (v >>> (w * Z.of_nat k)) .& (2 ^ w - 1)) as ->.
    { replace (2 ^ w - 1) with (Z.ones w) by (rewrite Z.ones_equiv; lia). apply Z.bits_inj'. intros i Hi.
      rewrite !Z.land_spec, !Z.shiftr_spec by lia. destruct (Z.ltb_spec i w).
      - rewrite Z.mod_pow2_bits_low; [done|]. nia.
      - rewrite Z.ones_spec_high by lia. by rewrite !andb_false_r. }
    rewrite !IH by lia. done. }
  by apply Hk.
Qed.
Lemma digit_loop_val n w v started acc :
  0 < w <= 4 -> 0 <= v < 2 ^ (w * Z.of_nat n) -> (started = false -> acc = 0) ->
  denotes (2 ^ w) (digit_loop n w v started) acc = acc * 2 ^ (w * Z.of_nat n) + v.
Proof.
  intros Hw. revert v started acc. induction n as [|n IH]; intros v started acc Hv Hacc.
  { cbn [digit_loop]. unfold denotes. cbn [fold_left]. rewrite Z.mul_0_r in *. change (2 ^ 0) with 1 in *. lia. }
  destruct (top_digit n w v ltac:(lia) Hv) as [Hd Hvd]. cbn [digit_loop]. cbv zeta.
  set (d := (v >>> (w * Z.of_nat n)) .& (2 ^ w - 1)) in *. set (K := 2 ^ (w * Z.of_nat n)) in *.
  assert (0 < K) as HK by (apply Z.pow_pos_nonneg; lia).
  assert (0 <= v mod K < K) as Hm by (apply Z.mod_pos_bound; lia).
  assert (2 ^ (w * Z.of_nat (S n)) = 2 ^ w * K) as HS.
  { unfold K. rewrite <- Z.pow_add_r by lia. f_equal. lia. }
  assert (2 ^ w <= 2 ^ 4) by (apply Z.pow_le_mono_r; lia).
  rewrite <- !(digit_loop_mod n w v) by lia. fold K. rewrite HS.
  destruct (Z.eqb_spec d 0) as [Hd0|Hd0]; cbn [negb orb].
  - destruct started; cbn [orb].
    + cbn [uart_putc app]. unfold denotes. cbn [fold_left]. fold (denotes (2 ^ w) (digit_loop n w (v mod K) true)).
      unfold denotes in IH. rewrite IH by done. fold K. rewrite hex_val_digit by lia. nia.
    + rewrite Hacc by done. destruct (Z.eqb_spec (w * Z.of_nat n) 0) as [Hz|Hz].
      * cbn [uart_putc app]. unfold denotes. cbn [fold_left]. unfold denotes in IH. rewrite IH by done. fold K.
        rewrite hex_val_digit by lia. nia.
      * rewrite IH by done. fold K. nia.
  - cbn [uart_putc app]. unfold denotes. cbn [fold_left]. unfold denotes in IH. rewrite IH by done. fold K.
    rewrite hex_val_digit by lia. nia.
Qed.
(** The shape of the digits: as many as fit, and no leading zero. *)
Lemma digit_loop_shape n w v :
  0 < w <= 4 -> 0 <= v ->
  (length (digit_loop n w v true) <= n)%nat /\ (length (digit_loop n w v false) <= n)%nat /\
  ((0 < n)%nat -> exists c l, digit_loop n w v false = c :: l /\ (c = 48 -> l = [])).
Proof.
  intros Hw Hv. induction n as [|n (IH1 & IH2 & IH3)]; cbn [digit_loop]; [by split; [|split; [|lia]]|]. cbv zeta.
  set (d := (v >>> (w * Z.of_nat n)) .& (2 ^ w - 1)).
  assert (0 <= d) as Hd by (apply Z.land_nonneg; left; by apply Z.shiftr_nonneg).
  rewrite orb_true_r. cbn [orb uart_putc app length]. split; [lia|].
  destruct (Z.eqb_spec d 0) as [->|Hd0]; cbn [negb orb].
  - destruct (Z.eqb_spec (w * Z.of_nat n) 0) as [Hz|Hz].
    + assert (n = 0%nat) as -> by nia. cbn [digit_loop app length]. split; [lia|]. intros _. by exists (hex_digit 0), [].
    + split; [lia|]. intros _. apply IH3. nia.
  - cbn [app length]. split; [lia|]. intros _. eexists _, _. split; [done|]. unfold hex_digit. case_if; lia.
Qed.

Lemma dec_loop_text f v : 0 < v -> v < 10 ^ Z.of_nat f -> reverse (dec_loop f v) = num_text f v 10.
Proof.
  intros Hv Hf. rewrite <- (tmp_loop_text f v 10) by done. f_equal. clear Hf. revert v Hv.
  assert (forall v, 0 <= v -> dec_loop f v = tmp_loop f v 10) as Hd; [|by intros; apply Hd; lia].
  induction f as [|f IH]; intros v Hv; cbn [dec_loop tmp_loop]; [done|].
  destruct (Z.eqb_spec v 0), (Z.ltb_spec 0 v); cbn [negb]; try lia; [done|].
  rewrite IH by (apply Z.div_pos; lia). f_equal. unfold digits. pose proof (Z.mod_pos_bound v 10). case_if; lia.
Qed.

(** What is printed denotes the number in its base and has no leading zero; the
    decimal digits fit the array of 20 characters. *)
Theorem uart_numbers v :
  is_u 64 v ->
  (exists l, uart_puthex v = [48; 120] ++ l /\ denotes 16 l 0 = v /\ (1 <= length l <= 16)%nat /\ (hd 0 l = 48 -> l = [48])) /\
  (exists l, uart_putbin v = [48; 98] ++ l /\ denotes 2 l 0 = v /\ (1 <= length l <= 64)%nat /\ (hd 0 l = 48 -> l = [48])) /\
  text_val 10 (uart_putdec v) = v /\ uart_putdec v = utext v 10 /\ (length (dec_loop 64 v) <= 20)%nat.
Proof.
  unfold is_u. intros Hv.
  assert (forall n w, (0 < n)%nat -> 0 < w <= 4 -> w * Z.of_nat n = 64 ->
    denotes (2 ^ w) (digit_loop n w v false) 0 = v /\ (1 <= length (digit_loop n w v false) <= n)%nat /\
    (hd 0 (digit_loop n w v false) = 48 -> digit_loop n w v false = [48])) as Hl.
  { intros n w Hn Hw Hnw. split; [rewrite digit_loop_val by (rewrite ?Hnw; done || lia); lia|].
    destruct (digit_loop_shape n w v Hw ltac:(lia)) as (_ & H2 & H3). destruct (H3 Hn) as (c & l & Hc & Hz).
    rewrite Hc in *. cbn [length hd] in *. split; [lia|]. intros ->. by rewrite Hz. }
  split; [eexists; split; [reflexivity|]; apply (Hl 16%nat 4); lia|].
  split; [eexists; split; [reflexivity|]; apply (Hl 64%nat 1); lia|].
  assert (uart_putdec v = utext v 10) as ->.
  { unfold uart_putdec, utext. destruct (Z.eqb_spec v 0) as [->|]; [done|]. apply dec_loop_text; cbn; lia. }
  split; [apply num_text_val; cbn; lia|]. split; [done|].
  assert (forall f n x, 0 <= x < 10 ^ Z.of_nat n -> (length (dec_loop f x) <= n)%nat) as Hlen; [|apply Hlen; cbn; lia].
  induction f as [|f IH]; intros n x Hx; cbn [dec_loop]; [cbn; lia|].
  destruct (Z.eqb_spec x 0); cbn [negb length]; [lia|]. destruct n as [|n]; [cbn in Hx; lia|]. apply le_n_S, IH.
  split; [apply Z.div_pos; lia|]. apply Z.div_lt_upper_bound; [lia|]. rewrite Nat2Z.inj_succ, Z.pow_succ_r in Hx by lia. lia.
Qed.

(** ** The ring is a queue

    A queue of at most 255 bytes: a byte that arrives when it is full is
    dropped, the oldest byte is taken first. *)
Definition CAPACITY : Z := UART1_RING_SZ - 1.
Definition q_push (q : list Z) (b : Z) : list Z := if Z.of_nat (length q) <? CAPACITY then q ++ [u8 b] else q.
Definition q_get (q : list Z) : Z * list Z := match q with [] => (-1, []) | b :: q' => (b, q') end.

(** What the two sides do, in any order. *)
Inductive uop := Interrupt (fifo : list Z) | Getc | Available.
Fixpoint ring_run (ops : list uop) (r : ring) : list Z * ring :=
  match ops with
  | [] => ([], r)
  | Interrupt fifo :: ops' => ring_run ops' (uart1_rx_isr fifo r)
  | Getc :: ops' => let '(c, r') := uart1_getc_nonblock r in let '(out, r'') := ring_run ops' r' in (c :: out, r'')
  | Available :: ops' => let '(out, r') := ring_run ops' r in (uart1_rx_available r :: out, r')
  end.
Fixpoint queue_run (ops : list uop) (q : list Z) : list Z * list Z :=
  match ops with
  | [] => ([], q)
  | Interrupt fifo :: ops' => queue_run ops' (fold_left q_push fifo q)
  | Getc :: ops' => let '(c, q') := q_get q in let '(out, q'') := queue_run ops' q' in (c :: out, q'')
  | Available :: ops' => let '(out, q') := queue_run ops' q in (Z.of_nat (length q) :: out, q')
  end.

Record ring_repr (r : ring) (q : list Z) : Prop := {
  rr_len : length (u1_ring r) = 256%nat;
  rr_tail : 0 <= u1_tail r < 256;
  rr_cap : Z.of_nat (length q) <= CAPACITY;
  rr_head : u1_head r = (u1_tail r + Z.of_nat (length q)) mod 256;
  rr_elem i b : q !! i = Some b -> rd (u1_ring r) ((u1_tail r + Z.of_nat i) mod 256) = b
}.

Lemma u1_push r q b :
  ring_repr r q ->
  let next := u32 (u1_head r + 1) mod UART1_RING_SZ in
  ring_repr (if negb (next =? u1_tail r) then MkRing (wr (u1_ring r) (u1_head r) (u8 b)) next (u1_tail r) else r) (q_push q b).
Proof.
  intros [Hl Ht Hc Hh He]. cbv zeta. unfold q_push, CAPACITY, UART1_RING_SZ in *.
  assert (0 <= u1_head r < 256) by (rewrite Hh; apply Z.mod_pos_bound; lia). rewrite u32_small by lia.
  assert ((u1_head r + 1) mod 256 = (u1_tail r + Z.of_nat (length q) + 1) mod 256) as Hn by (rewrite Hh; dlia).
  destruct (Z.ltb_spec (Z.of_nat (length q)) (256 - 1)).
  - destruct (Z.eqb_spec ((u1_head r + 1) mod 256) (u1_tail r)) as [Hx|Hx]; cbn [negb]; [exfalso; dlia|].
    constructor; cbn [u1_ring u1_head u1_tail]; rewrite ?length_app, ?length_wr; cbn [length]; unfold CAPACITY, UART1_RING_SZ; try done; try lia.
    + rewrite Hn. f_equal. lia.
    + intros i x Hi. destruct (decide (i < length q)%nat) as [Hlt|Hge].
      * rewrite lookup_app_l in Hi by done. rewrite rd_wr_ne by dlia. by apply He.
      * assert (i = length q) as -> by (apply lookup_lt_Some in Hi; rewrite length_app in Hi; cbn in Hi; lia).
        rewrite lookup_app_r, Nat.sub_diag in Hi by lia. injection Hi as <-. rewrite <- Hh, rd_wr_eq by lia. done.
  - destruct (Z.eqb_spec ((u1_head r + 1) mod 256) (u1_tail r)) as [Hx|Hx]; cbn [negb]; [done|exfalso; dlia].
Qed.
Lemma isr_repr fifo r q : ring_repr r q -> ring_repr (uart1_rx_isr fifo r) (fold_left q_push fifo q).
Proof.
  unfold uart1_rx_isr. revert r q. induction fifo as [|b fifo IH]; intros r q Hr; cbn [isr_loop fold_left]; [done|].
  apply IH, (u1_push r q b Hr).
Qed.
Lemma getc_repr r q :
  ring_repr r q -> (uart1_getc_nonblock r).1 = (q_get q).1 /\ ring_repr (uart1_getc_nonblock r).2 (q_get q).2.
Proof.
  intros Hr. pose proof Hr as [Hl Ht Hc Hh He]. unfold uart1_getc_nonblock, CAPACITY, UART1_RING_SZ in *.
  destruct q as [|b q]; cbn [q_get fst snd length] in *.
  - rewrite Z.add_0_r, Z.mod_small in Hh by lia. by rewrite Hh, Z.eqb_refl.
  - destruct (Z.eqb_spec (u1_tail r) (u1_head r)) as [Hx|Hx]; cbn [negb fst snd]; [exfalso; dlia|].
    split; [rewrite <- (He 0%nat b eq_refl); f_equal; dlia|]. rewrite u32_small by lia.
    constructor; cbn [u1_ring u1_head u1_tail]; unfold CAPACITY, UART1_RING_SZ; try done; try dlia.
    intros i x Hi. rewrite <- (He (S i) x Hi). f_equal. dlia.
Qed.
Lemma available_repr r q : ring_repr r q -> uart1_rx_available r = Z.of_nat (length q).
Proof.
  intros [Hl Ht Hc Hh He]. unfold uart1_rx_available, CAPACITY, UART1_RING_SZ, u32, wrap in *. dlia.
Qed.

(** C22: the receive ring of the second UART is a bounded queue.  After
    [uart1_init], whatever the order of receive interrupts (each with any
    number of bytes), reads and size queries, the values returned are those of
    a first-in first-out queue of 255 bytes that drops what arrives when it is
    full: no byte is lost, repeated or reordered otherwise, across any number
    of wraps of the indices. *)
Theorem uart1_ring_refines ops r :
  length (u1_ring r) = 256%nat ->
  let '(_, r0) := uart1_init r in
  let '(out, r') := ring_run ops r0 in
  out = (queue_run ops []).1 /\ ring_repr r' (queue_run ops []).2.
Proof.
  intros Hl. cbn [uart1_init]. assert (ring_repr (MkRing (u1_ring r) 0 0) []) as Hr.
  { constructor; cbn; unfold CAPACITY, UART1_RING_SZ; try done; lia. }
  revert Hr. generalize (MkRing (u1_ring r) 0 0) as r0. generalize (@nil Z) as q. clear r Hl.
  induction ops as [|op ops IH]; intros q r Hr; [done|]. destruct op as [fifo| |]; cbn [ring_run queue_run].
  - by apply IH, isr_repr.
  - destruct (getc_repr r q Hr) as [Hc Hr']. destruct (uart1_getc_nonblock r) as [c r1], (q_get q) as [c' q1].
    cbn [fst snd] in *. specialize (IH q1 r1 Hr'). destruct (ring_run ops r1) as [out r2], (queue_run ops q1) as [out' q2].
    cbn [fst snd] in *. by destruct IH as [-> ?]; subst.
  - specialize (IH q r Hr). rewrite (available_repr r q Hr).
    destruct (ring_run ops r) as [out r2], (queue_run ops q) as [out' q2]. cbn [fst snd] in *. by destruct IH as [-> ?].
Qed.

(** 300 bytes in one interrupt: 255 are kept. *)
Definition demo_ops : list uop := [Interrupt (seqZ 0 300); Available; Getc; Getc; Interrupt [7; 8; 9]; Available].
Definition demo_ring : ring := MkRing (replicate 256 0) 5 9.
Lemma demo_queue : (queue_run demo_ops []).1 = [255; 0; 1; 255].
Proof. by vm_compute. Qed.
Lemma uart1_ring_refines_witness :
  let '(_, r0) := uart1_init demo_ring in
  let '(out, _) := ring_run demo_ops r0 in out = [255; 0; 1; 255].
Proof.
  pose proof (uart1_ring_refines demo_ops demo_ring ltac:(reflexivity)) as Hx.
  destruct (uart1_init demo_ring) as [w r0]. destruct (ring_run demo_ops r0) as [out r'].
  rewrite <- demo_queue. exact (proj1 Hx).
Defined.
End Uart.
