(* ===== verification/Signal.v ===== *)
(** * Signals (src/src/syscall/signal.c, src/src/syscall/signal.h)

    The context of a call is the scheduler state (with the task records that
    hold the handlers and the masks), the trap frame of the running task and
    the memory its address space shows.  [task_exit] does not return, so the
    functions that can reach it yield an [outcome].  Console output is not
    modelled. *)
From S2P Require Import Prelude PageAlloc Bytes Mmu Task TaskEnv BumpEnv Sched SchedInv SchedThm.
From Stdlib Require Import Sorted.
#[local] Open Scope Z_scope.

Module Signal.
Export Sched SchedInv SchedThm.

Definition SIGKILL : Z := 9.
Definition SIGALRM : Z := 14.
Definition SIG_MIN : Z := 1.
Definition SIG_MAX : Z := 31.
Definition SIG_DFL : Z := 0.
Definition SIG_IGN : Z := 1.
Definition SIG_BLOCK : Z := 0.
Definition SIG_UNBLOCK : Z := 1.
Definition SIG_SETMASK : Z := 2.
Definition SIGFRAME_RESERVE : Z := 288.
Definition SIZEOF_SIGFRAME : Z := 280.

(** [trap_frame_t], and the saved SP_EL0 behind it ([tf_get_sp]) *)
Record trap_frame := MkFrame {
  regs : list Z; elr : Z; spsr : Z; esr : Z; far : Z; tf_sp : Z
}.
Definition set_elr (v : Z) (f : trap_frame) : trap_frame :=
  MkFrame (regs f) v (spsr f) (esr f) (far f) (tf_sp f).
Definition set_spsr (v : Z) (f : trap_frame) : trap_frame :=
  MkFrame (regs f) (elr f) v (esr f) (far f) (tf_sp f).
Definition set_reg (i v : Z) (f : trap_frame) : trap_frame :=
  MkFrame (wr (regs f) i v) (elr f) (spsr f) (esr f) (far f) (tf_sp f).
Definition tf_set_sp (v : Z) (f : trap_frame) : trap_frame :=
  MkFrame (regs f) (elr f) (spsr f) (esr f) (far f) v.

(** The offsets of [sigframe_t]. *)
Definition OFF_SP : Z := 248.
Definition OFF_ELR : Z := 256.
Definition OFF_SPSR : Z := 264.
Definition OFF_TRAMP : Z := 272.

Record ctx (E : Type) := MkCtx { kern : sched E; frame : trap_frame; um : mem }.
Arguments MkCtx {E}. Arguments kern {E}. Arguments frame {E}. Arguments um {E}.

(** The function returned a value, or the running task has exited. *)
Inductive outcome := Ret (r : Z) | Exited.

(** [for (i = 0; i < 31; i++) sf->regs[i] = frame->regs[i]] and back *)
Fixpoint save_regs (n : nat) (i base : Z) (rs : list Z) (m : mem) : mem :=
  match n with
  | O => m
  | S n' => save_regs n' (i + 1) base rs (st_le 8 (u64 (base + 8 * i)) (rd rs i) m)
  end.
Fixpoint load_regs (n : nat) (i base : Z) (m : mem) (f : trap_frame) : trap_frame :=
  match n with
  | O => f
  | S n' => load_regs n' (i + 1) base m (set_reg i (ld_le 8 (u64 (base + 8 * i)) m) f)
  end.

(** The first signal of [pending] from number [k] on, 0 when there is none. *)
Fixpoint first_sig (n : nat) (k pending : Z) : Z :=
  match n with
  | O => 0
  | S n' => if test_mask pending (1 <<< k) then k else first_sig n' (k + 1) pending
  end.

Section ops.
Context {E : Type} `{TaskEnv E} `{Layout}.
Implicit Types c : ctx E.

Definition with_kern c (s : sched E) : ctx E := MkCtx s (frame c) (um c).
Definition put_task c (t : Z) (f : task -> task) : ctx E := with_kern c (put (kern c) t f).
Definition task_of c (t : Z) : task := get (kern c) t.

Definition signal_terminate c : outcome * ctx E := (Exited, with_kern c (task_exit (kern c))).

(** The stores of the signal frame. *)
Definition store_frame (new_sp : Z) (f : trap_frame) (m : mem) : mem :=
  let m := save_regs 31 0 new_sp (regs f) m in
  let m := st_le 8 (u64 (new_sp + OFF_SP)) (tf_sp f) m in
  let m := st_le 8 (u64 (new_sp + OFF_ELR)) (elr f) m in
  let m := st_le 8 (u64 (new_sp + OFF_SPSR)) (spsr f) m in
  st_le 8 (u64 (new_sp + OFF_TRAMP)) Mmu.USER_SIGTRAMP_VA m.

Definition deliver_one (t sig handler : Z) c : outcome * ctx E :=
  let f := frame c in
  let old_sp := tf_sp f in
  let new_sp := u64 (old_sp - SIGFRAME_RESERVE) .& unot 64 15 in
  let stack_lo :=
    u64 (Mmu.USER_STACK_TOP -
         u64 (Mmu.USER_STACK_PAGES + stack_grown_count (task_of c t)) * PAGE_SIZE) in
  if (new_sp <? stack_lo) || (Mmu.USER_STACK_TOP <? old_sp) then signal_terminate c
  else
    let m := store_frame new_sp f (um c) in
    let f := set_elr handler f in
    let f := set_reg 0 (u64 sig) f in
    let f := set_reg 30 Mmu.USER_SIGTRAMP_VA f in
    let f := tf_set_sp new_sp f in
    (Ret 1, MkCtx (kern c) f m).

(** The [for (;;)] loop; [None] when the fuel runs out. *)
Fixpoint deliver_loop (fuel : nat) (t : Z) c : option (outcome * ctx E) :=
  match fuel with
  | O => None
  | S fuel =>
      let pending := sig_pending (task_of c t) .& unot 32 (sig_blocked (task_of c t)) in
      if pending =? 0 then Some (Ret 0, c)
      else
        let sig := first_sig 31 SIG_MIN pending in
        if sig =? 0 then Some (Ret 0, c)
        else
          let c := put_task c t (fun tk => set_sig_pending (sig_pending tk .& unot 32 (1 <<< sig)) tk) in
          if sig =? SIGKILL then Some (signal_terminate c)
          else
            let handler := rd (sig_handlers (task_of c t)) sig in
            if handler =? SIG_IGN then deliver_loop fuel t c
            else if handler =? SIG_DFL then Some (signal_terminate c)
            else Some (deliver_one t sig handler c)
  end.

Definition signal_check_and_deliver (t : Z) c : option (outcome * ctx E) :=
  if t =? 0 then Some (Ret 0, c)
  else if negb (spsr (frame c) .& 0xF =? 0) then Some (Ret 0, c)
  else deliver_loop 32 t c.

Definition signal_sigreturn c : outcome * ctx E :=
  let user_sp := tf_sp (frame c) in
  if (Mmu.USER_STACK_TOP <=? user_sp) || (Mmu.USER_STACK_TOP <? u64 (user_sp + SIZEOF_SIGFRAME))
  then (Exited, with_kern c (task_exit (kern c)))
  else
    let m := um c in
    let f := load_regs 31 0 user_sp m (frame c) in
    let f := set_elr (ld_le 8 (u64 (user_sp + OFF_ELR)) m) f in
    let f := set_spsr (ld_le 8 (u64 (user_sp + OFF_SPSR)) m) f in
    let f := tf_set_sp (ld_le 8 (u64 (user_sp + OFF_SP)) m) f in
    (Ret 0, MkCtx (kern c) f m).

Definition signal_sigaction (t signum handler : Z) c : Z * ctx E :=
  if (signum <? SIG_MIN) || (SIG_MAX <? signum) || (signum =? SIGKILL) then (-1, c)
  else (0, put_task c t (fun tk => set_sig_handlers (wr (sig_handlers tk) signum handler) tk)).

Definition u32_ptr_ok (ptr : Z) : bool :=
  if ptr =? 0 then false
  else if (Mmu.USER_STACK_TOP <? u64 (ptr + 4)) || (u64 (ptr + 4) <? ptr) then false
  else true.

(** The new mask of [signal_sigprocmask]; [None] for an unknown [how]. *)
Definition new_mask (how oldmask set_ : Z) : option Z :=
  if how =? SIG_BLOCK then Some (oldmask .| set_)
  else if how =? SIG_UNBLOCK then Some (oldmask .& unot 32 set_)
  else if how =? SIG_SETMASK then Some set_
  else None.

(** The part of [signal_sigprocmask] behind the change of the mask. *)
Definition return_mask (oldset_ptr oldmask : Z) c : Z * ctx E :=
  if negb (oldset_ptr =? 0) then
    if negb (u32_ptr_ok oldset_ptr) then (-1, c)
    else (0, MkCtx (kern c) (frame c) (st_le 4 oldset_ptr oldmask (um c)))
  else (0, c).

Definition signal_sigprocmask (t how set_ptr oldset_ptr : Z) c : Z * ctx E :=
  let oldmask := sig_blocked (task_of c t) in
  if negb (set_ptr =? 0) then
    if negb (u32_ptr_ok set_ptr) then (-1, c)
    else
      match new_mask how oldmask (ld_le 4 set_ptr (um c)) with
      | None => (-1, c)
      | Some blocked =>
          return_mask oldset_ptr oldmask
            (put_task c t (set_sig_blocked (blocked .& unot 32 (1 <<< SIGKILL))))
      end
  else return_mask oldset_ptr oldmask c.

Definition ticks_per_sec : Z := 1000 / TIMER_INTERVAL_MS.

Definition signal_alarm (t seconds : Z) (s : sched E) : Z * sched E :=
  let prev_ticks := sig_alarm_ticks (get s t) in
  let prev_seconds := u64 (prev_ticks + ticks_per_sec - 1) / ticks_per_sec in
  (s64 prev_seconds, put s t (set_sig_alarm_ticks (u64 (seconds * ticks_per_sec)))).

(** The body of the walk of [signal_tick_alarms]. *)
Definition tick_alarm (tk : task) : task :=
  if 0 <? sig_alarm_ticks tk then
    let tk := set_sig_alarm_ticks (sig_alarm_ticks tk - 1) tk in
    if sig_alarm_ticks tk =? 0 then set_sig_pending (sig_pending tk .| (1 <<< SIGALRM)) tk else tk
  else tk.
Fixpoint alarm_loop (n : nat) (head t : Z) (s : sched E) : sched E :=
  match n with
  | O => s
  | S n' =>
      let s := put s t tick_alarm in
      let t := next (get s t) in
      if t =? head then s else alarm_loop n' head t s
  end.
Definition signal_tick_alarms (s : sched E) : sched E :=
  let head := sched_first_task in
  if head =? 0 then s else alarm_loop (fuel s) head head s.
End ops.

(** ** Selection of the signal *)

(** The pending signals that are not blocked, in the order of their numbers. *)
Definition deliverable (tk : task) : list Z :=
  filter (fun n => Z.testbit (sig_pending tk) n = true /\ Z.testbit (sig_blocked tk) n = false)
    (seqZ SIG_MIN 31).

(** What the handlers [hs] ask for when the signals [l] are pending: the
    signals that are consumed and what happens with the last of them. *)
Inductive action := Nothing | Terminate (sig : Z) | Handle (sig handler : Z).
Fixpoint verdict (hs l : list Z) : list Z * action :=
  match l with
  | [] => ([], Nothing)
  | n :: l' =>
      if n =? SIGKILL then ([n], Terminate n)
      else if rd hs n =? SIG_IGN then (n :: (verdict hs l').1, (verdict hs l').2)
      else if rd hs n =? SIG_DFL then ([n], Terminate n)
      else ([n], Handle n (rd hs n))
  end.
(** The mask without the signals [l]. *)
Definition consume (l : list Z) (pending : Z) : Z :=
  fold_left (fun p n => p .& unot 32 (1 <<< n)) l pending.

(** The masks have 32 bits, there is a slot for every signal, and SIGKILL is
    neither blocked nor handled. *)
Record sig_ok (tk : task) : Prop := {
  so_pending : is_u 32 (sig_pending tk);
  so_blocked : is_u 32 (sig_blocked tk);
  so_handlers : length (sig_handlers tk) = 32%nat;
  so_words : Forall (is_u 64) (sig_handlers tk);
  so_kill_open : Z.testbit (sig_blocked tk) SIGKILL = false;
  so_kill_dfl : rd (sig_handlers tk) SIGKILL = SIG_DFL
}.

Lemma clear_u32 x n : is_u 32 x -> is_u 32 (x .& unot 32 n).
Proof. intros. by apply land_range_l. Qed.
Lemma consume_u32 l x : is_u 32 x -> is_u 32 (consume l x).
Proof. revert x. induction l as [|n l IH]; intros x Hx; [done|]. apply IH. by apply clear_u32. Qed.

Lemma consume_bit l x i :
  is_u 32 x -> Forall (fun n => 0 <= n < 32) l -> 0 <= i ->
  Z.testbit (consume l x) i = Z.testbit x i && bool_decide (i ∉ l).
Proof.
  intros Hx Hl Hi. revert x Hx. induction Hl as [|n l Hn Hl IH]; intros x Hx; cbn [consume fold_left].
  { rewrite bool_decide_true by apply not_elem_of_nil. by rewrite andb_true_r. }
  fold (consume l (x .& unot 32 (1 <<< n))). rewrite IH by by apply clear_u32.
  rewrite testbit_clearbit by (exact Hx || lia). rewrite <- andb_assoc. f_equal.
  destruct (decide (i = n)) as [->|Hne].
  - rewrite bool_decide_true by done. rewrite (bool_decide_false (n ∉ n :: l)); [done|].
    intros Hni. apply Hni. by left.
  - rewrite bool_decide_false by done. cbn [negb andb]. apply bool_decide_ext. rewrite not_elem_of_cons. tauto.
Qed.

Lemma first_sig_hd n k p :
  0 <= k -> first_sig n k p = default 0 (head (filter (fun i => Z.testbit p i = true) (seqZ k (Z.of_nat n)))).
Proof.
  revert k. induction n as [|n IH]; intros k Hk; [done|]. cbn [first_sig].
  rewrite seqZ_cons by lia. rewrite filter_cons, test_mask_bit by lia.
  destruct (Z.testbit p k) eqn:Ek.
  - by rewrite decide_True by done.
  - rewrite decide_False by done. rewrite IH by lia.
    change (k + 1) with (Z.succ k). by replace (Z.pred (Z.of_nat (S n))) with (Z.of_nat n) by lia.
Qed.

Lemma deliverable_bits tk :
  sig_ok tk ->
  deliverable tk =
  filter (fun i => Z.testbit (sig_pending tk .& unot 32 (sig_blocked tk)) i = true) (seqZ SIG_MIN 31).
Proof.
  intros Hs. apply filter_ext_in. intros i Hi%elem_of_seqZ. unfold SIG_MIN in *.
  rewrite Z.land_spec, testbit_unot by lia. rewrite andb_true_iff, negb_true_iff. done.
Qed.

Lemma first_deliverable tk :
  sig_ok tk ->
  first_sig 31 SIG_MIN (sig_pending tk .& unot 32 (sig_blocked tk)) = default 0 (head (deliverable tk)).
Proof. intros Hs. rewrite first_sig_hd by (unfold SIG_MIN; lia). by rewrite deliverable_bits. Qed.

Lemma deliverable_zero tk :
  sig_ok tk -> sig_pending tk .& unot 32 (sig_blocked tk) = 0 -> deliverable tk = [].
Proof.
  intros Hs Hz. rewrite deliverable_bits by done. rewrite Hz.
  erewrite (filter_ext_in _ (fun _ => False)); [|intros i _; rewrite Z.bits_0; done].
  by induction (seqZ SIG_MIN 31).
Qed.

Lemma deliverable_range tk n : n ∈ deliverable tk -> 1 <= n < 32.
Proof. intros [_ Hn%elem_of_seqZ]%list_elem_of_filter. unfold SIG_MIN in *. lia. Qed.

Lemma deliverable_len tk : (length (deliverable tk) <= 31)%nat.
Proof. apply (length_filter _ (seqZ SIG_MIN 31)). Qed.

(** Clearing the first of them leaves the others. *)
Lemma deliverable_rest tk n l :
  sig_ok tk -> deliverable tk = n :: l ->
  deliverable (set_sig_pending (sig_pending tk .& unot 32 (1 <<< n)) tk) = l.
Proof.
  intros Hs Hd. pose proof (deliverable_range tk n ltac:(rewrite Hd; left)) as Hn.
  assert (NoDup (n :: l)) as [Hnl Hnd]%NoDup_cons.
  { rewrite <- Hd. apply NoDup_filter, NoDup_seqZ. }
  assert (l = filter (fun i => i <> n) (n :: l)) as ->.
  { rewrite filter_cons_False by tauto. clear Hd Hnd. induction l as [|x l IH]; [done|].
    apply not_elem_of_cons in Hnl as [Hx Hnl]. rewrite filter_cons_True by congruence. by rewrite <- IH. }
  rewrite <- Hd. unfold deliverable. rewrite list_filter_filter. apply filter_ext_in.
  intros i Hi%elem_of_seqZ. cbn [sig_pending sig_blocked set_sig_pending]. unfold SIG_MIN in *.
  rewrite testbit_clearbit; [|apply (so_pending _ Hs)|lia|lia].
  rewrite andb_true_iff, negb_true_iff, bool_decide_eq_false. tauto.
Qed.

Lemma sig_ok_clear tk n : sig_ok tk -> sig_ok (set_sig_pending (sig_pending tk .& unot 32 n) tk).
Proof. intros []. constructor; cbn; try done. by apply clear_u32. Qed.

Section delivery.
Context {E : Type} `{TaskEnv E} `{Layout}.
Implicit Types c : ctx E.

Definition in_store c (t : Z) : Prop := t ∈ dom (tasks (kern c)).

(** The outcome that [verdict] prescribes. *)
Definition after_verdict (t : Z) c : outcome * ctx E :=
  let tk := task_of c t in
  let '(used, act) := verdict (sig_handlers tk) (deliverable tk) in
  let c := put_task c t (set_sig_pending (consume used (sig_pending tk))) in
  match act with
  | Nothing => (Ret 0, c)
  | Terminate _ => signal_terminate c
  | Handle sig handler => deliver_one t sig handler c
  end.

Lemma task_of_put c t f : task_of (put_task c t f) t = f (task_of c t).
Proof. apply get_put_eq. Qed.

Lemma put_task_id c t f : in_store c t -> f (task_of c t) = task_of c t -> put_task c t f = c.
Proof.
  intros [tk Ht]%elem_of_dom Hf. unfold put_task, put, upd, with_kern, task_of, get, set_tasks in *.
  rewrite Hf. unfold task_at. rewrite Ht. cbn [default]. rewrite insert_id by done.
  by destruct c as [[] ? ?].
Qed.

Lemma put_task_twice c t f g : put_task (put_task c t f) t g = put_task c t (fun tk => g (f tk)).
Proof.
  unfold put_task, with_kern, put, upd, set_tasks. cbn [kern frame um tasks current next_pid dead_list next_asid env].
  rewrite task_at_insert_eq, insert_insert_eq. done.
Qed.

Lemma put_task_ext c t f g : f (task_of c t) = g (task_of c t) -> put_task c t f = put_task c t g.
Proof.
  intros Hf. unfold put_task, put, upd. unfold task_of, get in Hf. by rewrite Hf.
Qed.

Lemma in_store_put c t f : in_store (put_task c t f) t.
Proof. apply elem_of_dom. unfold put_task, put, upd. cbn. rewrite lookup_insert_eq. by eexists. Qed.

Lemma deliver_loop_spec n t c :
  in_store c t -> sig_ok (task_of c t) -> (length (deliverable (task_of c t)) < n)%nat ->
  deliver_loop n t c = Some (after_verdict t c).
Proof.
  remember (deliverable (task_of c t)) as l eqn:Hl. revert c n Hl.
  induction l as [|sig l IH]; intros c n Hl Ht Hs Hn; (destruct n as [|n]; [lia|]); cbn [deliver_loop];
    rewrite first_deliverable by done; unfold after_verdict; rewrite <- Hl; cbn [verdict head from_option id].
  - assert (put_task c t (set_sig_pending (consume [] (sig_pending (task_of c t)))) = c) as ->.
    { apply put_task_id; [done|]. by destruct (task_of c t). }
    by destruct (_ =? 0).
  - destruct (Z.eqb_spec (sig_pending (task_of c t) .& unot 32 (sig_blocked (task_of c t))) 0) as [Hz|Hz].
    { apply deliverable_zero in Hz; [congruence|done]. }
    pose proof (deliverable_range (task_of c t) sig ltac:(rewrite <- Hl; left)).
    destruct (Z.eqb_spec sig 0); [lia|].
    set (c1 := put_task c t (fun tk => _)).
    assert (put_task c t (set_sig_pending (consume [sig] (sig_pending (task_of c t)))) = c1) as Hc1.
    { unfold c1. by apply put_task_ext. }
    destruct (sig =? SIGKILL); [cbv beta iota zeta; by rewrite Hc1|].
    assert (sig_handlers (task_of c1 t) = sig_handlers (task_of c t)) as -> by (unfold c1; by rewrite task_of_put).
    destruct (rd (sig_handlers (task_of c t)) sig =? SIG_IGN).
    + assert (task_of c1 t = set_sig_pending (sig_pending (task_of c t) .& unot 32 (1 <<< sig)) (task_of c t))
        as Htk by (unfold c1; by rewrite task_of_put).
      cbn [length] in Hn.
      rewrite (IH c1); [|by rewrite Htk, (deliverable_rest _ _ l)|apply in_store_put
                        |rewrite Htk; by apply sig_ok_clear|lia].
      f_equal. unfold after_verdict. rewrite Htk, (deliverable_rest _ _ l) by done.
      cbn [sig_handlers set_sig_pending sig_pending].
      assert (forall u, put_task c1 t (set_sig_pending (consume u (sig_pending (task_of c t) .& unot 32 (1 <<< sig)))) =
              put_task c t (set_sig_pending (consume (sig :: u) (sig_pending (task_of c t))))) as Hu.
      { intros u. unfold c1. rewrite put_task_twice. by apply put_task_ext. }
      destruct (verdict (sig_handlers (task_of c t)) l) as [u act]. cbv beta iota zeta. cbn [fst snd].
      by rewrite Hu.
    + destruct (rd (sig_handlers (task_of c t)) sig =? SIG_DFL); cbv beta iota zeta; by rewrite Hc1.
Qed.

(** ** The signal frame *)
Definition frame_ok (f : trap_frame) : Prop :=
  length (regs f) = 31%nat /\ Forall (is_u 64) (regs f) /\ is_u 64 (elr f) /\ is_u 64 (spsr f) /\ is_u 64 (tf_sp f).

Lemma rd_ext (l l' : list Z) :
  length l = length l' -> (forall j, 0 <= j < Z.of_nat (length l) -> rd l j = rd l' j) -> l = l'.
Proof.
  intros Hlen Hj. apply list_eq_same_length with (length l); [done|done|].
  intros i x y Hi Hx Hy. specialize (Hj (Z.of_nat i) ltac:(lia)). unfold rd in Hj.
  rewrite Nat2Z.id, !nth_lookup, Hx, Hy in Hj. done.
Qed.

Lemma save_regs_other n i base rs m x :
  0 <= base -> 0 <= i -> base + 8 * (i + Z.of_nat n) <= 2 ^ 64 ->
  x < base + 8 * i \/ base + 8 * (i + Z.of_nat n) <= x -> save_regs n i base rs m x = m x.
Proof.
  intros Hb. revert i m. induction n as [|n IH]; intros i m Hi Hn Hx; cbn [save_regs]; [done|].
  rewrite IH by lia. rewrite u64_small by lia. apply st_le_other. lia.
Qed.

Lemma save_regs_ld n i base rs m j :
  0 <= base -> 0 <= i -> base + 8 * (i + Z.of_nat n) <= 2 ^ 64 -> Forall (is_u 64) rs ->
  Z.of_nat (length rs) = i + Z.of_nat n -> i <= j < i + Z.of_nat n ->
  ld_le 8 (base + 8 * j) (save_regs n i base rs m) = rd rs j.
Proof.
  intros Hb. revert i m. induction n as [|n IH]; intros i m Hi Hn Hrs Hlen Hj; cbn [save_regs]; [lia|].
  rewrite u64_small by lia. destruct (decide (j = i)) as [->|Hne].
  - erewrite ld_le_ext; [apply ld_st_eq|intros x Hx; apply save_regs_other; lia].
    apply (rd_Forall (is_u 64)); [done|lia].
  - apply IH; try done; lia.
Qed.

Lemma load_regs_spec n i base m f :
  0 <= base -> 0 <= i -> base + 8 * (i + Z.of_nat n) <= 2 ^ 64 ->
  i + Z.of_nat n <= Z.of_nat (length (regs f)) ->
  let f' := load_regs n i base m f in
  length (regs f') = length (regs f) /\ tf_sp f' = tf_sp f /\ elr f' = elr f /\ spsr f' = spsr f /\
  forall j, 0 <= j -> rd (regs f') j =
    if (i <=? j) && (j <? i + Z.of_nat n) then ld_le 8 (base + 8 * j) m else rd (regs f) j.
Proof.
  intros Hb. revert i f. induction n as [|n IH]; intros i f Hi Hn Hlen; cbn [load_regs].
  { do 4 (split; [done|]). intros j Hj. destruct (Z.leb_spec i j), (Z.ltb_spec j (i + Z.of_nat 0)); try done; lia. }
  destruct (IH (i + 1) (set_reg i (ld_le 8 (u64 (base + 8 * i)) m) f)) as (IH1 & IH2 & IH3 & IH4 & IH5);
    [lia|lia|cbn; rewrite length_wr; lia|]. cbv zeta.
  split; [rewrite IH1; apply length_wr|]. do 3 (split; [done|]). intros j Hj. rewrite IH5 by done. cbn [regs set_reg].
  rewrite u64_small by lia. destruct (decide (j = i)) as [->|Hne].
  - rewrite rd_wr_eq by lia. repeat case_if; done || lia.
  - rewrite rd_wr_ne by lia. repeat case_if; done || lia.
Qed.

(** What the frame at [b] holds. *)
Record saved (b : Z) (f : trap_frame) (m : mem) : Prop := {
  sv_regs j : 0 <= j < 31 -> ld_le 8 (b + 8 * j) m = rd (regs f) j;
  sv_sp : ld_le 8 (b + OFF_SP) m = tf_sp f;
  sv_elr : ld_le 8 (b + OFF_ELR) m = elr f;
  sv_spsr : ld_le 8 (b + OFF_SPSR) m = spsr f
}.

Lemma store_frame_saved b f m :
  0 <= b -> b + SIZEOF_SIGFRAME <= 2 ^ 64 -> frame_ok f -> saved b f (store_frame b f m).
Proof.
  unfold SIZEOF_SIGFRAME. intros Hb Hb2 (Hlen & Hrs & He & Hp & Hs). unfold store_frame, OFF_SP, OFF_ELR, OFF_SPSR, OFF_TRAMP.
  rewrite !u64_small by lia. constructor; unfold OFF_SP, OFF_ELR, OFF_SPSR.
  - intros j Hj. rewrite !ld_st_ne by lia. apply save_regs_ld; done || lia.
  - rewrite !(ld_st_ne 8 8 (b + 248)) by lia. by apply ld_st_eq.
  - rewrite !(ld_st_ne 8 8 (b + 256)) by lia. by apply ld_st_eq.
  - rewrite (ld_st_ne 8 8 (b + 264)) by lia. by apply ld_st_eq.
Qed.

Lemma store_frame_other b f m x :
  0 <= b -> b + SIZEOF_SIGFRAME <= 2 ^ 64 -> x < b \/ b + SIZEOF_SIGFRAME <= x -> store_frame b f m x = m x.
Proof.
  unfold SIZEOF_SIGFRAME. intros Hb Hb2 Hx. unfold store_frame, OFF_SP, OFF_ELR, OFF_SPSR, OFF_TRAMP.
  rewrite !u64_small by lia. rewrite !st_le_other by lia. apply save_regs_other; lia.
Qed.

Lemma saved_ext b f m m' :
  (forall x, b <= x < b + SIZEOF_SIGFRAME -> m' x = m x) -> saved b f m -> saved b f m'.
Proof.
  unfold SIZEOF_SIGFRAME. intros Hm [H1' H2' H3' H4']. unfold OFF_SP, OFF_ELR, OFF_SPSR in *. constructor;
    unfold OFF_SP, OFF_ELR, OFF_SPSR; intros;
    (rewrite (ld_le_ext _ _ m' m); [by auto|intros; apply Hm; lia]).
Qed.

Lemma sigreturn_saved c f :
  saved (tf_sp (frame c)) f (um c) -> length (regs f) = 31%nat -> length (regs (frame c)) = 31%nat ->
  0 <= tf_sp (frame c) -> tf_sp (frame c) + SIZEOF_SIGFRAME <= Mmu.USER_STACK_TOP ->
  exists f', signal_sigreturn c = (Ret 0, MkCtx (kern c) f' (um c)) /\
    regs f' = regs f /\ elr f' = elr f /\ spsr f' = spsr f /\ tf_sp f' = tf_sp f.
Proof.
  intros [Hr Hs He Hp] Hlf Hlc Hsp Hhi. unfold signal_sigreturn, SIZEOF_SIGFRAME, Mmu.USER_STACK_TOP, OFF_SP, OFF_ELR, OFF_SPSR in *.
  rewrite !u64_small by lia. destruct (Z.leb_spec 0x800000 (tf_sp (frame c))); [lia|].
  destruct (Z.ltb_spec 0x800000 (tf_sp (frame c) + 280)); [lia|]. cbn [orb].
  destruct (load_regs_spec 31 0 (tf_sp (frame c)) (um c) (frame c)) as (L1 & _ & _ & _ & L5); [lia|lia|lia|lia|].
  eexists. split; [done|]. cbn [regs set_elr set_spsr tf_set_sp elr spsr tf_sp]. split; [|done].
  apply rd_ext; [lia|]. intros j Hj. rewrite L5 by lia. rewrite L1, Hlc in Hj.
  destruct (Z.leb_spec 0 j), (Z.ltb_spec j (0 + Z.of_nat 31)); cbn [andb]; try lia. apply Hr. lia.
Qed.
End delivery.

(** ** The invariant *)
Section invariant.
Context {E : Type} `{TaskEnvLaws E} `{Layout}.
Implicit Types (c : ctx E) (s : sched E).

Lemma keeps_handlers v tk : keeps tk (set_sig_handlers v tk).
Proof. solve_keeps. Qed.
Lemma keeps_pending v tk : keeps tk (set_sig_pending v tk).
Proof. solve_keeps. Qed.
Lemma keeps_blocked v tk : keeps tk (set_sig_blocked v tk).
Proof. solve_keeps. Qed.
Lemma keeps_alarm v tk : keeps tk (set_sig_alarm_ticks v tk).
Proof. solve_keeps. Qed.
Lemma keeps_tick tk : keeps tk (tick_alarm tk).
Proof. unfold tick_alarm. repeat case_if; solve_keeps. Qed.

Lemma tick_alarm_frame tk :
  next (tick_alarm tk) = next tk /\ state (tick_alarm tk) = state tk /\ held (tick_alarm tk) = held tk.
Proof. unfold tick_alarm. by repeat case_if. Qed.

Lemma sig_ok_restated tk tk' : restated tk tk' -> sig_ok tk -> sig_ok tk'.
Proof. intros (st & v & ->) []. by constructor. Qed.

Lemma sig_ok_tick tk : sig_ok tk -> sig_ok (tick_alarm tk).
Proof.
  intros []. unfold tick_alarm. repeat case_if; constructor; cbn; try done.
  by apply lor_range.
Qed.

(** Every task on the ring is counted down, in one turn of the walk. *)
Lemma alarm_loop_spec n t L0 s L D F :
  core s L D F -> path (tasks s) t L0 IDLE -> L0 <> [] -> IDLE ∉ tail L0 -> NoDup L0 -> L0 ⊆ IDLE :: L ->
  (length L0 <= n)%nat ->
  let s' := alarm_loop n IDLE t s in
  core s' L D F /\ current s' = current s /\
  (forall a, get s' a = if decide (a ∈ L0) then tick_alarm (get s a) else get s a).
Proof.
  revert t L0 s. induction n as [|n IH]; intros t L0 s Hc Hp Hne Hn Hnd Hsub Hlen;
    (destruct L0 as [|x L0]; [done|cbn [length] in Hlen]); [lia|]. cbn [alarm_loop path tail] in *. cbv zeta.
  destruct Hp as [-> Hp]. apply NoDup_cons in Hnd as [Hx Hnd].
  set (s1 := put s x tick_alarm).
  assert (forall a, next (get s1 a) = next (get s a)) as Hnext.
  { intros a. unfold s1. rewrite get_put. case_decide; [apply tick_alarm_frame|done]. }
  assert (core s1 L D F) as Hc1.
  { apply core_put_id; [done|apply Hsub; left|apply keeps_tick|apply tick_alarm_frame]. }
  assert (path (tasks s1) (next (get s1 x)) L0 IDLE) as Hp1.
  { rewrite Hnext. eapply path_frame; [|exact Hp]. intros a _. apply Hnext. }
  destruct L0 as [|y L0].
  - cbn [path] in Hp1. rewrite Hp1, Z.eqb_refl. do 2 (split; [done|]). intros a. unfold s1. rewrite get_put.
    destruct (decide (x = a)) as [->|]; [by rewrite decide_True by left|].
    rewrite decide_False; [done|]. intros [?|?%elem_of_nil]%elem_of_cons; congruence.
  - assert (next (get s1 x) = y) as Hy by apply Hp1. apply not_elem_of_cons in Hn as [Hn1 Hn2].
    destruct (Z.eqb_spec (next (get s1 x)) IDLE); [congruence|].
    destruct (IH (next (get s1 x)) (y :: L0) s1) as (IH1 & IH2 & IH3); try done; [|lia|].
    { intros a Ha. apply Hsub. by right. }
    split; [done|]. split; [done|]. intros a. rewrite IH3. unfold s1. rewrite get_put.
    destruct (decide (x = a)) as [->|].
    + rewrite decide_False by done. by rewrite decide_True by left.
    + destruct (decide (a ∈ y :: L0)).
      * by rewrite decide_True by by right.
      * rewrite decide_False; [done|]. by intros [?|?]%elem_of_cons.
Qed.

Lemma tick_alarms_spec s L D F :
  sched_inv s L D F ->
  let s' := signal_tick_alarms s in
  sched_inv s' L D F /\ current s' = current s /\
  (forall a, get s' a = if decide (a ∈ IDLE :: L) then tick_alarm (get s a) else get s a).
Proof.
  intros [Hc Hst]. pose proof (core_ring_nodup _ _ _ _ Hc) as Hnd.
  destruct (core_walk _ _ _ _ Hc) as (Hp & Ht & Hz & Hn). unfold signal_tick_alarms, sched_first_task.
  apply not_elem_of_cons in Hz as [Hz _]. destruct (Z.eqb_spec IDLE 0); [congruence|].
  destruct (alarm_loop_spec (fuel s) IDLE (IDLE :: L) s L D F) as (Hc' & Hcur & Hg); try done.
  cbv zeta. split; [|done]. split; [done|].
  assert (forall a, state (get (alarm_loop (fuel s) IDLE IDLE s) a) = state (get s a)) as Hs.
  { intros a. rewrite Hg. case_decide; [apply tick_alarm_frame|done]. }
  destruct Hst as [Hs1 Hs2 Hs3 Hs4]. constructor; try intros a Ha; rewrite ?Hs, ?Hcur; auto.
Qed.

Definition sig_inv_at c (L D : list Z) (F : res) : Prop :=
  sched_inv (kern c) L D F /\ (forall a, a ∈ IDLE :: L -> sig_ok (get (kern c) a)) /\
  frame_ok (frame c) /\ (forall x, is_byte (um c x)).
Definition sig_inv (F : res) c : Prop := exists L D, sig_inv_at c L D F.

Lemma inv_exit c L D F :
  sig_inv_at c L D F -> current (kern c) <> IDLE -> sig_inv F (with_kern c (task_exit (kern c))).
Proof.
  intros (Hi & Hs & Hf & Hm) Hne. unfold task_exit.
  destruct (inv_put_current (kern c) L D F (set_state TASK_DEAD) Hi) as [Hc Hca];
    [apply keeps_set_state|done|done|].
  destruct (schedule_spec _ _ _ _ Hc Hca) as (L' & D' & Hsw & Hst & Hcase). exists L', D'.
  split; [split; [apply (sw_core _ _ _ _ _ _ _ Hsw)|done]|]. split; [|done].
  intros a Ha. assert (a ∈ IDLE :: L) as HaL.
  { destruct Hcase as [(_ & -> & _)|(_ & _ & L1 & L2 & -> & ->)]; [done|].
    revert Ha. rewrite !elem_of_cons, !elem_of_app, elem_of_cons. tauto. }
  eapply sig_ok_restated; [by apply (sw_rest _ _ _ _ _ _ _ Hsw)|].
  rewrite get_put. case_decide; [|by apply Hs]. destruct (Hs a HaL). by constructor.
Qed.

Lemma inv_put c L D F t f :
  sig_inv_at c L D F -> t ∈ IDLE :: L -> keeps (get (kern c) t) (f (get (kern c) t)) ->
  held (f (get (kern c) t)) = held (get (kern c) t) -> state (f (get (kern c) t)) = state (get (kern c) t) ->
  (sig_ok (get (kern c) t) -> sig_ok (f (get (kern c) t))) -> sig_inv_at (put_task c t f) L D F.
Proof.
  intros (Hi & Hs & Hf & Hm) Ht Hk Hh Hst Hso. split; [|split; [|done]].
  - pose proof Hi as [Hc Hst']. cbn [put_task with_kern kern].
    split; [by apply core_put_id|]. destruct Hst' as [Hs1 Hs2 Hs3 Hs4].
    assert (forall a, state (get (put (kern c) t f) a) = state (get (kern c) a)) as Hsame.
    { intros a. rewrite get_put. case_decide as Hd; [by rewrite <- Hd|done]. }
    constructor; try intros a Ha; rewrite ?Hsame; auto.
  - intros a Ha. cbn [put_task with_kern kern]. rewrite get_put. case_decide as Hd; [subst; by auto|by auto].
Qed.

(** The calls for the running task, with the program that runs in between. *)
Inductive sig_step : ctx E -> ctx E -> Prop :=
| ss_action signum handler r c c' :
    is_u 64 handler -> signal_sigaction (current (kern c)) signum handler c = (r, c') -> sig_step c c'
| ss_mask how set_ptr oldset_ptr r c c' :
    signal_sigprocmask (current (kern c)) how set_ptr oldset_ptr c = (r, c') -> sig_step c c'
| ss_alarm seconds r s' c :
    signal_alarm (current (kern c)) seconds (kern c) = (r, s') -> sig_step c (with_kern c s')
| ss_tick c : sig_step c (with_kern c (signal_tick_alarms (kern c)))
| ss_deliver o c c' :
    current (kern c) <> IDLE -> signal_check_and_deliver (current (kern c)) c = Some (o, c') -> sig_step c c'
| ss_return o c c' : current (kern c) <> IDLE -> signal_sigreturn c = (o, c') -> sig_step c c'
| ss_user f m c : frame_ok f -> (forall x, is_byte (m x)) -> sig_step c (MkCtx (kern c) f m).

Lemma inv_current c L D F : sig_inv_at c L D F -> current (kern c) ∈ IDLE :: L.
Proof. intros ([_ Hst] & _). apply (st_cur _ _ _ Hst). Qed.
Lemma inv_store c L D F : sig_inv_at c L D F -> in_store c (current (kern c)) /\ current (kern c) <> 0.
Proof.
  intros Hi. pose proof (inv_current _ _ _ _ Hi) as Hin. destruct Hi as ([Hc _] & _).
  assert (current (kern c) ∈ IDLE :: L ++ D) as Hin'.
  { revert Hin. rewrite !elem_of_cons, elem_of_app. tauto. }
  split; [by eapply core_in|]. intros Hz. apply (co_nz _ _ _ _ Hc). by rewrite <- Hz.
Qed.

Lemma sigaction_inv c L D F signum handler r c' :
  sig_inv_at c L D F -> is_u 64 handler ->
  signal_sigaction (current (kern c)) signum handler c = (r, c') -> sig_inv_at c' L D F.
Proof.
  intros Hi Hh. unfold signal_sigaction, SIG_MIN, SIG_MAX. case_if; intros [= <- <-]; [done|].
  apply inv_put; [done|by eapply inv_current|apply keeps_handlers|done|done|].
  intros []. constructor; cbn [sig_pending sig_blocked sig_handlers set_sig_handlers]; try done.
  - by rewrite length_wr.
  - by apply Forall_wr.
  - unfold SIGKILL in *. rewrite rd_wr_ne by lia. done.
Qed.

Lemma new_mask_u32 how old set_ m :
  is_u 32 old -> is_u 32 set_ -> new_mask how old set_ = Some m -> is_u 32 m.
Proof.
  intros Ho Hs. unfold new_mask. repeat case_if; intros [= <-]; [by apply lor_range|by apply clear_u32|done].
Qed.

Lemma return_mask_inv c L D F q old r c' :
  sig_inv_at c L D F -> is_u 32 old -> return_mask q old c = (r, c') -> sig_inv_at c' L D F.
Proof.
  intros (Hi & Hs & Hf & Hm) Ho. unfold return_mask. repeat case_if; intros [= <- <-]; try done.
  split; [done|]. split; [done|]. split; [done|]. cbn [um]. intros x. apply st_le_byte; [apply Ho|done].
Qed.

Lemma sigprocmask_inv c L D F how p q r c' :
  sig_inv_at c L D F -> signal_sigprocmask (current (kern c)) how p q c = (r, c') -> sig_inv_at c' L D F.
Proof.
  intros Hi. pose proof (inv_current _ _ _ _ Hi) as Hcur. pose proof Hi as (_ & Hs & _ & Hm).
  pose proof (so_blocked _ (Hs _ Hcur)) as Ho.
  unfold signal_sigprocmask. destruct (p =? 0); cbn [negb]; [by apply return_mask_inv|].
  case_if; [by intros [= <- <-]|]. destruct (new_mask _ _ _) as [b|] eqn:Hb; [|by intros [= <- <-]].
  apply new_mask_u32 in Hb; [|done|by apply (ld_le_range 4)].
  apply return_mask_inv; [|done]. apply inv_put; [done|done|apply keeps_blocked|done|done|].
  intros []. constructor; cbn [sig_pending sig_blocked sig_handlers set_sig_blocked]; try done.
  - by apply clear_u32.
  - rewrite testbit_clearbit by (exact Hb || unfold SIGKILL; lia). by rewrite andb_false_r.
Qed.

Lemma sig_ok_consume tk l : sig_ok tk -> sig_ok (set_sig_pending (consume l (sig_pending tk)) tk).
Proof. intros []. constructor; cbn; try done. by apply consume_u32. Qed.

Lemma save_regs_byte n i b rs m :
  Forall (is_u 64) rs -> (forall x, is_byte (m x)) -> 0 <= i -> i + Z.of_nat n <= Z.of_nat (length rs) ->
  forall x, is_byte (save_regs n i b rs m x).
Proof.
  intros Hrs. revert i m. induction n as [|n IH]; intros i m Hm Hi Hlen x; cbn [save_regs]; [done|].
  apply IH; [|lia|lia]. intros y. apply st_le_byte; [|done].
  apply (rd_Forall (is_u 64) rs i Hrs). lia.
Qed.

Lemma deliver_one_inv c L D F sig handler o c' :
  sig_inv_at c L D F -> current (kern c) <> IDLE -> is_u 64 handler ->
  deliver_one (current (kern c)) sig handler c = (o, c') -> sig_inv F c'.
Proof.
  intros Hi Hne Hh. unfold deliver_one. case_if.
  { unfold signal_terminate. intros [= <- <-]. by eapply inv_exit. }
  intros [= <- <-]. exists L, D. destruct Hi as (Hi & Hs & (Hlen & Hrs & He & Hp & Hsp) & Hm).
  split; [done|]. split; [done|]. split.
  - unfold frame_ok. cbn [regs set_elr set_reg tf_set_sp elr spsr tf_sp frame]. rewrite !length_wr.
    split; [done|]. split; [|split; [done|split; [done|by apply land_range_l, u64_range]]].
    apply Forall_wr; [apply Forall_wr; [done|apply u64_range]|done].
  - cbn [um]. intros x. unfold store_frame. apply st_le_byte; [done|]. apply st_le_byte; [apply Hp|].
    apply st_le_byte; [apply He|]. apply st_le_byte; [apply Hsp|]. apply save_regs_byte; done || lia.
Qed.

(** ** What the verdict means *)
Lemma seqZ_sorted m n : StronglySorted Z.lt (seqZ m (Z.of_nat n)).
Proof.
  revert m. induction n as [|n IH]; intros m; [constructor|]. rewrite seqZ_cons by lia. constructor.
  - replace (Z.pred (Z.of_nat (S n))) with (Z.of_nat n) by lia. apply IH.
  - apply Forall_forall. intros x Hx%elem_of_seqZ. lia.
Qed.
Lemma filter_sorted (P : Z -> Prop) `{!forall x, Decision (P x)} l :
  StronglySorted Z.lt l -> StronglySorted Z.lt (filter P l).
Proof.
  induction 1 as [|x l Hl IH Hx]; [constructor|]. rewrite filter_cons. case_decide; [|done].
  constructor; [done|]. rewrite Forall_forall in Hx |- *.
  intros y [_ Hy]%list_elem_of_filter. by apply Hx.
Qed.
Lemma deliverable_sorted tk : StronglySorted Z.lt (deliverable tk).
Proof. apply filter_sorted, (seqZ_sorted _ 31). Qed.

Lemma verdict_handle hs l used sig h :
  verdict hs l = (used, Handle sig h) -> sig ∈ l /\ h = rd hs sig.
Proof.
  revert used. induction l as [|n l IH]; intros used; cbn [verdict]; [done|]. repeat case_if; intros [= <- Hv].
  - destruct (IH (verdict hs l).1) as [? ?]; [rewrite <- Hv; by destruct (verdict hs l)|]. split; [by right|done].
  - subst. split; [by left|done].
Qed.

(** A deliverable SIGKILL is reached, unless a signal of a lower number is
    handled or terminates the task first. *)
Lemma verdict_kill hs l :
  StronglySorted Z.lt l -> SIGKILL ∈ l ->
  match (verdict hs l).2 with Nothing => False | Terminate _ => True | Handle sig _ => sig < SIGKILL end.
Proof.
  induction 1 as [|n l Hl IH Hn]; [by intros ?%elem_of_nil|]. intros Hk. cbn [verdict].
  destruct (Z.eqb_spec n SIGKILL) as [->|Hne]; [done|]. apply elem_of_cons in Hk as [?|Hk]; [congruence|].
  rewrite Forall_forall in Hn. specialize (Hn _ Hk). repeat case_if; cbn [snd]; [by apply IH|done|done].
Qed.

Lemma check_and_deliver_spec t c :
  t <> 0 -> in_store c t -> sig_ok (task_of c t) ->
  signal_check_and_deliver t c =
  Some (if spsr (frame c) .& 0xF =? 0 then after_verdict t c else (Ret 0, c)).
Proof.
  intros Ht Hin Hs. unfold signal_check_and_deliver. destruct (Z.eqb_spec t 0); [done|].
  destruct (_ =? 0); cbn [negb]; [|done]. apply deliver_loop_spec; [done|done|].
  pose proof (deliverable_len (task_of c t)). lia.
Qed.

Lemma deliver_inv c L D F o c' :
  sig_inv_at c L D F -> current (kern c) <> IDLE ->
  signal_check_and_deliver (current (kern c)) c = Some (o, c') -> sig_inv F c'.
Proof.
  intros Hi Hne. destruct (inv_store _ _ _ _ Hi) as [Hin Hz]. pose proof (inv_current _ _ _ _ Hi) as Hcur.
  pose proof Hi as (_ & Hs & _). specialize (Hs _ Hcur). rewrite check_and_deliver_spec by done.
  case_if; [|intros [= <- <-]; by exists L, D]. unfold after_verdict.
  destruct (verdict _ _) as [used act] eqn:Hv.
  set (c1 := put_task c (current (kern c)) _).
  assert (sig_inv_at c1 L D F) as Hi1.
  { apply inv_put; [done|done|apply keeps_pending|done|done|]. intros. by apply sig_ok_consume. }
  assert (current (kern c1) = current (kern c)) as Hc1 by done.
  destruct act as [|sig|sig h]; intros Ho%(inj Some).
  - simplify_eq. by exists L, D.
  - unfold signal_terminate in Ho. injection Ho as <- <-. eapply inv_exit; [done|congruence].
  - eapply deliver_one_inv; [exact Hi1|congruence| |rewrite Hc1; exact Ho].
    apply verdict_handle in Hv as [Hsig ->]. apply deliverable_range in Hsig.
    pose proof (so_handlers _ Hs). apply rd_Forall; [apply (so_words _ Hs)|]. unfold task_of. lia.
Qed.

Lemma sigreturn_inv c L D F o c' :
  sig_inv_at c L D F -> current (kern c) <> IDLE -> signal_sigreturn c = (o, c') -> sig_inv F c'.
Proof.
  intros Hi Hne. unfold signal_sigreturn. case_if; intros [= <- <-]; [by eapply inv_exit|].
  exists L, D. destruct Hi as (Hi & Hs & (Hlen & Hrs & He & Hp & Hsp) & Hm).
  split; [done|]. split; [done|]. split; [|done]. cbn [frame].
  assert (forall a, is_u 64 (ld_le 8 a (um c))) as Hld by (intros; by apply (ld_le_range 8)).
  assert (forall n i f, length (regs f) = 31%nat -> Forall (is_u 64) (regs f) ->
    let f' := load_regs n i (tf_sp (frame c)) (um c) f in
    length (regs f') = 31%nat /\ Forall (is_u 64) (regs f')) as Hl.
  { induction n as [|n IH]; intros i f Hlf Hf; cbn [load_regs]; [done|]. apply IH; cbn [regs set_reg].
    - by rewrite length_wr.
    - by apply Forall_wr. }
  destruct (Hl 31%nat 0 (frame c) Hlen Hrs). repeat split; try done; apply Hld.
Qed.

Lemma sig_step_inv c c' F : sig_inv F c -> sig_step c c' -> sig_inv F c'.
Proof.
  intros (L & D & Hi) Hstep. destruct Hstep as [| | |c| | |].
  - exists L, D. by eapply sigaction_inv.
  - exists L, D. by eapply sigprocmask_inv.
  - exists L, D. unfold signal_alarm in *. simplify_eq.
    apply (inv_put c); [done|by eapply inv_current|apply keeps_alarm|done|done|]. intros []. by constructor.
  - destruct Hi as (Hi & Hs & ? & ?). destruct (tick_alarms_spec _ _ _ _ Hi) as (Hi' & _ & Hg).
    exists L, D. split; [done|]. split; [|done]. intros a Ha. cbn [kern with_kern]. rewrite Hg.
    rewrite decide_True by done. by apply sig_ok_tick, Hs.
  - by eapply deliver_inv.
  - by eapply sigreturn_inv.
  - destruct Hi as (? & ? & _ & _). by exists L, D.
Qed.
End invariant.

(** ** The theorems *)
Section theorems.
Context {E : Type} `{TaskEnvLaws E} `{Layout}.
Implicit Types c : ctx E.

(** C31: [signal_check_and_deliver] returns, and does what the reference
    [verdict] prescribes: the deliverable signals are taken in the order of
    their numbers, ignored ones are consumed, and the first that is not
    ignored terminates the task (SIGKILL, default action) or is delivered to
    its handler; exactly the consumed signals leave the pending mask, and a
    frame that returns to EL1 is left alone.  The 32 rounds of fuel are always
    enough. *)
Theorem signal_check_and_deliver_correct t c used act :
  t <> 0 -> in_store c t -> sig_ok (task_of c t) ->
  verdict (sig_handlers (task_of c t)) (deliverable (task_of c t)) = (used, act) ->
  let pending' := consume used (sig_pending (task_of c t)) in
  let c' := put_task c t (set_sig_pending pending') in
  signal_check_and_deliver t c =
  Some (if negb (spsr (frame c) .& 0xF =? 0) then (Ret 0, c)
        else match act with
             | Nothing => (Ret 0, c')
             | Terminate _ => (Exited, with_kern c' (task_exit (kern c')))
             | Handle sig handler => deliver_one t sig handler c'
             end) /\
  (forall i, 0 <= i -> Z.testbit pending' i = Z.testbit (sig_pending (task_of c t)) i && bool_decide (i ∉ used)).
Proof.
  intros Ht Hin Hs Hv pending' c'. split.
  - rewrite check_and_deliver_spec by done. unfold after_verdict. rewrite Hv. by destruct (_ =? 0).
  - intros i Hi. apply consume_bit; [apply (so_pending _ Hs)| |done].
    apply Forall_forall. intros n Hn. assert (n ∈ deliverable (task_of c t)) as Hd%deliverable_range; [|lia].
    clear - Hv Hn. revert used act Hv Hn. induction (deliverable (task_of c t)) as [|x l IH]; intros used act; cbn [verdict].
    { intros [= <- <-] ?%elem_of_nil. done. }
    repeat case_if; intros [= <- <-]; try (intros ->%list_elem_of_singleton; left).
    intros [->|Hn]%elem_of_cons; [left|right]. eapply IH; [apply surjective_pairing|done].
Qed.


(** C33: no sequence of calls makes SIGKILL blocked, handled or ignored, and the
    scheduler's invariant is kept: in every state that is reached, each task on
    the run queue has a well-formed signal state, and with SIGKILL pending the
    next return to EL0 ends the task, unless a signal with a smaller number is
    handled first. *)
Theorem sigkill_kills c0 c F :
  sig_inv F c0 -> rtc sig_step c0 c ->
  sig_inv F c /\
  (Z.testbit (sig_pending (task_of c (current (kern c)))) SIGKILL = true -> spsr (frame c) .& 0xF = 0 ->
   exists o c', signal_check_and_deliver (current (kern c)) c = Some (o, c') /\
     (o = Exited \/ (o = Ret 1 /\ 1 <= rd (regs (frame c')) 0 < SIGKILL))).
Proof.
  intros H0' Hr. assert (sig_inv F c) as Hi.
  { revert H0'. induction Hr as [|c0 c1 c Hs Hr IH]; [done|]. intros H0'. apply IH. by eapply sig_step_inv. }
  split; [done|]. intros Hp Hel. destruct Hi as (L & D & Hi). destruct (inv_store _ _ _ _ Hi) as [Hin Hz].
  pose proof (inv_current _ _ _ _ Hi) as Hcur. destruct Hi as (_ & Hs & (Hlen & _) & _). specialize (Hs _ Hcur).
  rewrite check_and_deliver_spec by done. rewrite Hel, Z.eqb_refl. unfold after_verdict.
  set (tk := task_of c (current (kern c))) in *.
  pose proof (verdict_kill (sig_handlers tk) (deliverable tk) (deliverable_sorted tk)) as Hv.
  destruct (verdict _ _) as [used act] eqn:Hev. cbn [snd] in Hv. specialize (Hv ltac:(
    apply list_elem_of_filter; split; [split; [done|apply (so_kill_open _ Hs)]|apply elem_of_seqZ; unfold SIG_MIN, SIGKILL; lia])).
  destruct act as [|sig|sig h]; [done|do 2 eexists; split; [done|by left]|].
  apply verdict_handle in Hev as [Hsig%deliverable_range _]. unfold deliver_one. case_if.
  - do 2 eexists. split; [done|by left].
  - do 2 eexists. split; [done|right]. split; [done|]. cbn [frame tf_set_sp regs set_reg set_elr put_task with_kern].
    rewrite rd_wr_ne, rd_wr_eq by (rewrite ?length_wr; lia). rewrite u64_small; lia.
Qed.
End theorems.

(** ** Concrete instances *)

(** The running task of the scheduler's example, with SIGHUP (1) ignored, a
    handler for SIGINT (2), and the signals 1, 2 and 9 pending. *)
Notation demo_frame := (MkFrame (replicate 31 7) 0x400100 0 0 0 0x7FFF00).
Notation demo_ctx :=
  (put_task (MkCtx demo_run demo_frame (fun _ => 0)) 16
     (fun tk => set_sig_pending 0x206 (set_sig_handlers (wr (wr (sig_handlers tk) 1 1) 2 0x400800) tk))).

(** All entries of a computed list are 64-bit words. *)
Ltac check_words :=
  match goal with |- Forall _ ?l =>
    let v := eval vm_compute in l in
    let Hv := fresh in assert (l = v) as Hv by (vm_compute; reflexivity); rewrite Hv; clear Hv
  end; repeat (constructor; [split; [discriminate|reflexivity]|]); constructor.
Lemma demo_sig_inv : sig_inv_at demo_ctx [16; 32] [] res0.
Proof.
  split; [check_inv|]. split; [|split].
  - each_elem; (constructor; [vm_compute; split; [discriminate|reflexivity]|vm_compute; split; [discriminate|reflexivity]
      |vm_compute; reflexivity|check_words|vm_compute; reflexivity|vm_compute; reflexivity]).
  - split; [reflexivity|]. split; [check_words|]. vm_compute. repeat split; discriminate || reflexivity.
  - intros x. vm_compute. split; [discriminate|reflexivity].
Qed.

Lemma signal_check_and_deliver_correct_witness :
  verdict (sig_handlers (task_of demo_ctx 16)) (deliverable (task_of demo_ctx 16)) = ([1; 2], Handle 2 0x400800) /\
  signal_check_and_deliver 16 demo_ctx =
    Some (if negb (spsr (frame demo_ctx) .& 0xF =? 0) then (Ret 0, demo_ctx)
          else deliver_one 16 2 0x400800
            (put_task demo_ctx 16 (set_sig_pending (consume [1; 2] (sig_pending (task_of demo_ctx 16)))))).
Proof.
  assert (verdict (sig_handlers (task_of demo_ctx 16)) (deliverable (task_of demo_ctx 16)) = ([1; 2], Handle 2 0x400800))
    as Hv by by vm_compute.
  split; [exact Hv|].
  exact (proj1 (signal_check_and_deliver_correct 16 demo_ctx [1; 2] (Handle 2 0x400800) ltac:(lia)
    (in_store_put (MkCtx demo_run demo_frame (fun _ => 0)) 16 _)
    (proj1 (proj2 demo_sig_inv) 16 ltac:(right; left)) Hv)).
Defined.


Lemma sigkill_kills_witness :
  sig_inv res0 demo_ctx /\
  exists o c', signal_check_and_deliver 16 demo_ctx = Some (o, c') /\
    (o = Exited \/ (o = Ret 1 /\ 1 <= rd (regs (frame c')) 0 < SIGKILL)).
Proof.
  assert (sig_inv res0 demo_ctx) as Hi by (exists [16; 32], []; exact demo_sig_inv).
  split; [exact Hi|].
  exact (proj2 (sigkill_kills demo_ctx demo_ctx res0 Hi (rtc_refl _ _)) ltac:(by vm_compute) ltac:(by vm_compute)).
Defined.

(** The reservation wraps for a stack pointer below 288: the new stack pointer
    is in the kernel's half of the address space and passes the check. *)
Example deliver_one_wraps :
  let c := MkCtx demo_run (MkFrame (replicate 31 7) 0x400100 0 0 0 16) (fun _ => 0) in
  tf_sp (frame (deliver_one 16 2 0x400800 c).2) = 2 ^ 64 - 272.
Proof. by vm_compute. Qed.
End Signal.
