(* ===== verification/Timer.v ===== *)
(** * The timer and the latency statistics
      (src/src/exception/timer/timer.c, src/src/lib/bench/bench.c)

    The statics of timer.c and the two registers it programs.  The physical
    counter is an input: each read of CNTPCT_EL0 is an argument.  The
    scheduler sees the tick count and the counter through its environment, so
    the handler passes them on with [ck_set] before it calls it.  The only
    callback the source installs ([bench_irq_noop_tick]) does nothing; console
    output is not modelled. *)
From S2P Require Import Prelude PageAlloc Mmu Task TaskEnv BumpEnv Sched SchedInv SchedThm Rtos Signal.
From Stdlib Require Import Vectors.FinFun.
#[local] Open Scope Z_scope.

Module Timer.
Export Sched SchedInv SchedThm Rtos Signal.

(** ** Samples and statistics of bench.c *)
Definition BENCH_ITERS : Z := 1000.
Definition BENCH_CPU_HZ : Z := 62500000.

Record bench := MkBench { g_irq_armed : bool; g_irq_idx : Z; g_irq_samples : list Z }.

Definition bench_irq_sampling (b : bench) : bool := g_irq_armed b.
Definition bench_irq_sample (latency_ticks : Z) (b : bench) : bench :=
  if negb (g_irq_armed b) then b
  else
    let i := g_irq_idx b in
    if i <? BENCH_ITERS
    then MkBench (g_irq_armed b) (u32 (i + 1)) (wr (g_irq_samples b) i latency_ticks)
    else b.

(** [while (j >= gap && a[j - gap] > tmp)], with the final store [a[j] = tmp] *)
Fixpoint sift (fuel : nat) (gap tmp j : Z) (a : list Z) : list Z :=
  match fuel with
  | O => wr a j tmp
  | S f =>
      if (gap <=? j) && (tmp <? rd a (j - gap))
      then sift f gap tmp (j - gap) (wr a j (rd a (j - gap)))
      else wr a j tmp
  end.
(** [for (i = gap; i < n; i++)]; [k] rounds are left *)
Fixpoint gap_pass (k : nat) (gap i : Z) (a : list Z) : list Z :=
  match k with
  | O => a
  | S k' => gap_pass k' gap (i + 1) (sift (Z.to_nat i) gap (rd a i) i a)
  end.
Fixpoint gap_loop (fuel : nat) (n gap : Z) (a : list Z) : list Z :=
  match fuel with
  | O => a
  | S f => if 0 <? gap then gap_loop f n (gap / 2) (gap_pass (Z.to_nat (n - gap)) gap gap a) else a
  end.
Definition bench_sort (a : list Z) (n : Z) : list Z := gap_loop 32 n (n / 2) a.

Record bench_stats := MkStats { smin : Z; smax : Z; mean : Z; p50 : Z; p99 : Z }.
Fixpoint sum_loop (k : nat) (i sum : Z) (a : list Z) : Z :=
  match k with O => sum | S k' => sum_loop k' (i + 1) (u64 (sum + rd a i)) a end.
(** Returns the statistics and the sorted array. *)
Definition bench_compute (a : list Z) (n : Z) : bench_stats * list Z :=
  if n =? 0 then (MkStats 0 0 0 0 0, a)
  else
    let sum := sum_loop (Z.to_nat n) 0 0 a in
    let a := bench_sort a n in
    (MkStats (rd a 0) (rd a (n - 1)) (sum / n) (rd a (u32 (n * 50) / 100)) (rd a (u32 (n * 99) / 100)), a).
Definition cyc_to_ns (cycles : Z) : Z := u64 (cycles * 1000000000) / BENCH_CPU_HZ.

(** ** The timer *)
Record timer := MkTimer {
  timer_freq : Z;
  timer_interval : Z;
  tick_count : Z;
  tick_callback : Z;
  g_next_tick : Z;
  cntp_cval : Z;
  cntp_ctl : Z
}.

(** [timer_init], with the value of CNTFRQ_EL0 *)
Definition timer_init (cntfrq : Z) (t : timer) : timer :=
  MkTimer cntfrq (timer_interval t) (tick_count t) (tick_callback t) (g_next_tick t) (cntp_cval t) (cntp_ctl t).

Definition timer_start (interval_ms now : Z) (t : timer) : timer :=
  if timer_freq t =? 0 then t
  else
    let interval := u64 (timer_freq t * interval_ms) / 1000 in
    let next_tick := u64 (now + interval) in
    MkTimer (timer_freq t) interval 0 (tick_callback t) next_tick next_tick 1.

Definition timer_stop (t : timer) : timer :=
  MkTimer (timer_freq t) (timer_interval t) (tick_count t) (tick_callback t) (g_next_tick t) (cntp_cval t) 0.
Definition timer_set_callback (cb : Z) (t : timer) : timer :=
  MkTimer (timer_freq t) (timer_interval t) (tick_count t) cb (g_next_tick t) (cntp_cval t) (cntp_ctl t).
Definition timer_set_interval_ticks (ticks : Z) (t : timer) : timer :=
  MkTimer (timer_freq t) ticks (tick_count t) (tick_callback t) (g_next_tick t) (cntp_cval t) (cntp_ctl t).
Definition timer_get_frequency (t : timer) : Z := timer_freq t.
Definition timer_get_ticks (t : timer) : Z := tick_count t.
Definition timer_get_interval_ticks (t : timer) : Z := timer_interval t.
Definition timer_uptime_ms (t : timer) : Z := u64 (tick_count t * TIMER_INTERVAL_MS).
Definition timer_uptime_seconds (t : timer) : Z := u64 (tick_count t * TIMER_INTERVAL_MS) / 1000.

(** The clock the scheduler reads. *)
Class ClockEnv (E : Type) `{TaskEnv E} := {
  ck_set : Z -> Z -> Z -> E -> E;    (* frequency, ticks, counter *)
  ck_freq f k n e : te_freq (ck_set f k n e) = f;
  ck_ticks f k n e : te_ticks (ck_set f k n e) = k;
  ck_count f k n e : te_count (ck_set f k n e) = n;
  ck_ok f k n r e : te_ok r e -> te_ok r (ck_set f k n e)
}.

Section ops.
Context {E : Type} `{TaskEnv E} `{!ClockEnv E} `{Layout}.
Implicit Types (s : sched E) (t : timer) (b : bench).

Definition at_time t (now : Z) s : sched E :=
  set_env s (ck_set (timer_freq t) (tick_count t) now (env s)).

(** The scheduler tick of [timer_handle_irq]. *)
Definition tick_part (now : Z) t s : timer * sched E :=
  if g_next_tick t <=? now then
    let t := MkTimer (timer_freq t) (timer_interval t) (u64 (tick_count t + 1)) (tick_callback t)
                     (u64 (g_next_tick t + timer_interval t)) (cntp_cval t) (cntp_ctl t) in
    let s := sched_wake_sleepers (at_time t now s) in
    let s := signal_tick_alarms s in
    (t, s)
  else (t, s).

(** The deadline that is programmed. *)
Definition next_event (next_tick interval rt_earliest now2 : Z) : Z :=
  let next_ev := if negb (rt_earliest =? 0) && (rt_earliest <? next_tick) then rt_earliest else next_tick in
  let slack := interval / 100 in
  let slack := if slack =? 0 then 1 else slack in
  if next_ev <=? now2 then u64 (now2 + slack) else next_ev.

(** The counter is read four times: for the latency sample, for the tick, by
    [rt_tick_release] and for the deadline. *)
Definition timer_handle_irq (now_pct now now_rt now2 : Z) (st : timer * bench * sched E)
  : timer * bench * sched E :=
  let '(t, b, s) := st in
  let b := bench_irq_sample (u64 (now_pct - cntp_cval t)) b in
  let '(t, s) := tick_part now t s in
  let '(rt_earliest, s) := rt_tick_release (at_time t now_rt s) in
  let next_ev := next_event (g_next_tick t) (timer_interval t) rt_earliest now2 in
  (MkTimer (timer_freq t) (timer_interval t) (tick_count t) (tick_callback t) (g_next_tick t) next_ev (cntp_ctl t), b, s).
End ops.

(** ** The deadline *)
Definition slack (interval : Z) : Z := Z.max 1 (interval / 100).

Lemma next_event_spec next_tick interval e now2 :
  0 <= interval -> 0 <= e -> 0 <= now2 -> now2 + slack interval < 2 ^ 64 ->
  let v := next_event next_tick interval e now2 in
  now2 < v /\ v <= Z.max next_tick (now2 + slack interval) /\
  (0 < e -> v <= Z.max e (now2 + slack interval)).
Proof.
  intros Hi He Hn Hs. unfold next_event, slack in *. cbv zeta.
  assert (0 <= interval / 100) by (apply Z.div_pos; lia).
  rewrite u64_small by (case_if; lia).
  destruct (Z.eqb_spec e 0), (Z.ltb_spec e next_tick); cbn [negb andb]; repeat case_if; lia.
Qed.

Section irq.
Context {E : Type} `{TaskEnvLaws E} `{!ClockEnv E} `{Layout}.
Implicit Types (s : sched E) (t : timer) (b : bench).

(** What one interrupt does to a task of the run queue. *)
Definition ticked (tick : bool) (k : Z) (idle : bool) (tk : task) : task :=
  if tick then tick_alarm (if idle then tk else woken k tk) else tk.

Lemma ticked_rt tick k idle tk :
  rt_period_cyc (ticked tick k idle tk) = rt_period_cyc tk /\
  rt_next_release (ticked tick k idle tk) = rt_next_release tk.
Proof. unfold ticked, tick_alarm, woken. by repeat case_if. Qed.

Lemma released_pos now tk :
  0 < rt_period_cyc tk -> 0 < rt_next_release tk -> rt_next_release tk + rt_period_cyc tk < 2 ^ 64 ->
  0 < rt_next_release (released now tk).
Proof. intros. unfold released. repeat case_if; cbn; rewrite ?u64_small by lia; lia. Qed.

Lemma at_time_inv t now s L D F : sched_inv s L D F -> sched_inv (at_time t now s) L D F.
Proof.
  intros Hi. pose proof Hi as [Hc _]. apply inv_set_env; [done|]. apply ck_ok, (co_res _ _ _ _ Hc).
Qed.

Lemma tick_part_spec now t s L D F :
  sched_inv s L D F -> 0 <= tick_count t < 2 ^ 64 - 1 ->
  let tick := g_next_tick t <=? now in
  let '(t', s') := tick_part now t s in
  sched_inv s' L D F /\ current s' = current s /\
  timer_interval t' = timer_interval t /\
  tick_count t' = (if tick then tick_count t + 1 else tick_count t) /\
  g_next_tick t' = (if tick then u64 (g_next_tick t + timer_interval t) else g_next_tick t) /\
  (forall a, a ∈ IDLE :: L -> get s' a = ticked tick (tick_count t + 1) (bool_decide (a ∉ L)) (get s a)).
Proof.
  intros Hi Hk. unfold tick_part. destruct (g_next_tick t <=? now); cbv zeta; [|done].
  set (t' := MkTimer _ _ _ _ _ _ _).
  destruct (wake_sleepers_spec _ _ _ _ (at_time_inv t' now s L D F Hi)) as (Hi1 & Hc1 & _ & Hg1).
  destruct (tick_alarms_spec _ _ _ _ Hi1) as (Hi2 & Hc2 & Hg2).
  split; [done|]. split; [by rewrite Hc2, Hc1|]. split; [done|].
  assert (tick_count t' = tick_count t + 1) as Ht by (cbn; rewrite u64_small; lia).
  split; [done|]. split; [done|]. intros a Ha. rewrite Hg2, decide_True, Hg1 by done.
  unfold at_time. cbn [env set_env]. rewrite ck_ticks, Ht. unfold ticked.
  change (get (set_env s _) a) with (get s a).
  destruct (decide (a ∈ L)); [by rewrite bool_decide_false by tauto|by rewrite bool_decide_true].
Qed.

(** C34: the timer interrupt.  The scheduler tick happens exactly when the tick
    boundary is reached: then the tick count and the boundary advance by one
    period, sleepers whose time has come are woken and the alarms counted
    down; an early interrupt leaves all of it alone.  Every due periodic task
    is released.  The deadline programmed for the next interrupt lies in the
    future, not after the next tick boundary and not after any pending release
    (or, where these have already passed, at most the slack away), so neither
    a tick nor a release is lost.  The scheduler's invariant is kept. *)
Theorem timer_handle_irq_correct now_pct now now_rt now2 t b s t' b' s' L D F :
  sched_inv s L D F ->
  0 <= tick_count t < 2 ^ 64 - 1 -> 0 <= timer_interval t -> 0 <= g_next_tick t ->
  g_next_tick t + timer_interval t < 2 ^ 64 -> 0 <= now2 -> now2 + slack (timer_interval t) < 2 ^ 64 ->
  (forall a, a ∈ IDLE :: L -> 0 < rt_period_cyc (get s a) ->
     0 < rt_next_release (get s a) /\ rt_next_release (get s a) + rt_period_cyc (get s a) < 2 ^ 64) ->
  timer_handle_irq now_pct now now_rt now2 (t, b, s) = (t', b', s') ->
  let tick := g_next_tick t <=? now in
  sched_inv s' L D F /\ current s' = current s /\
  tick_count t' = (if tick then tick_count t + 1 else tick_count t) /\
  g_next_tick t' = (if tick then g_next_tick t + timer_interval t else g_next_tick t) /\
  (forall a, a ∈ IDLE :: L ->
     get s' a = released now_rt (ticked tick (tick_count t + 1) (bool_decide (a ∉ L)) (get s a))) /\
  now2 < cntp_cval t' /\
  cntp_cval t' <= Z.max (g_next_tick t') (now2 + slack (timer_interval t)) /\
  (forall a, a ∈ IDLE :: L -> 0 < rt_period_cyc (get s a) ->
     cntp_cval t' <= Z.max (rt_next_release (get s' a)) (now2 + slack (timer_interval t))).
Proof.
  intros Hi Hk Hiv Hg Hov Hn2 Hsl Hrt. unfold timer_handle_irq.
  pose proof (tick_part_spec now t s L D F Hi Hk) as Htp. destruct (tick_part now t s) as [t1 s1].
  destruct Htp as (Hi1 & Hc1 & Hiv1 & Hk1 & Hg1 & Hget1). rewrite u64_small in Hg1 by lia.
  pose proof (at_time_inv t1 now_rt s1 L D F Hi1) as Hi2.
  destruct (rt_tick_release (at_time t1 now_rt s1)) as [e s2] eqn:Hr.
  assert (forall a, a ∈ IDLE :: L -> get (at_time t1 now_rt s1) a =
    ticked (g_next_tick t <=? now) (tick_count t + 1) (bool_decide (a ∉ L)) (get s a)) as Hget2.
  { intros a Ha. rewrite <- Hget1 by done. done. }
  destruct (tick_release_spec _ L D F e s2 Hi2 Hr) as (Hi3 & Hc3 & Hg3 & He).
  { intros a Ha. rewrite Hget2 by done. destruct (ticked_rt (g_next_tick t <=? now) (tick_count t + 1)
      (bool_decide (a ∉ L)) (get s a)) as [-> ->]. by apply Hrt. }
  intros [= <- _ <-]. cbv zeta. cbn [tick_count g_next_tick cntp_cval].
  unfold at_time in Hg3 at 1. cbn [env set_env] in Hg3. rewrite ck_count in Hg3.
  assert (forall a, a ∈ IDLE :: L -> 0 < rt_period_cyc (get (at_time t1 now_rt s1) a) ->
    0 < rt_next_release (get s2 a)) as Hpos.
  { intros a Ha. rewrite Hg3, decide_True, Hget2 by done. intros Hp.
    destruct (ticked_rt (g_next_tick t <=? now) (tick_count t + 1) (bool_decide (a ∉ L)) (get s a)) as [Hp' Hn'].
    apply released_pos; [done|..]; rewrite ?Hn', ?Hp'; apply Hrt; congruence. }
  assert (0 <= e) as He0.
  { destruct He as [[-> _]|(a & Ha & Hp & -> & _)]; [done|]. by apply Z.lt_le_incl, Hpos. }
  destruct (next_event_spec (g_next_tick t1) (timer_interval t1) e now2) as (Hv1 & Hv2 & Hv3);
    [lia|lia|lia|by rewrite Hiv1|]. rewrite Hiv1 in *.
  split; [done|]. split; [by rewrite Hc3|]. split; [done|]. split; [done|].
  split; [intros a Ha; by rewrite Hg3, decide_True, Hget2 by done|].
  split; [done|]. split; [done|]. intros a Ha Hp.
  assert (0 < rt_period_cyc (get (at_time t1 now_rt s1) a)) as Hpa.
  { rewrite Hget2 by done. by rewrite (proj1 (ticked_rt _ _ _ _)). }
  destruct He as [[-> Hall]|(x & Hx & Hpx & Hex & Hall)]; [specialize (Hall a Ha); lia|].
  specialize (Hall a Ha Hpa). specialize (Hv3 ltac:(rewrite Hex; by apply Hpos)). lia.
Qed.
End irq.

(** ** The statistics *)
Definition nondecr (a : list Z) (k : Z) : Prop := forall p q, 0 <= p <= q -> q < k -> rd a p <= rd a q.
Definition len (a : list Z) : Z := Z.of_nat (length a).

(** Moving an element and putting another in its place is a swap. *)
Lemma wr_swap a i j x :
  0 <= i < len a -> 0 <= j < len a -> i <> j -> wr (wr a j (rd a i)) i x ≡ₚ wr a j x.
Proof.
  unfold len. intros Hi Hj Hij. apply (Permutation_nth (A := Z) _ _ 0). rewrite !length_wr. split; [done|].
  set (n := length a) in *.
  exists (fun k => if decide (k = Z.to_nat i) then Z.to_nat j else if decide (k = Z.to_nat j) then Z.to_nat i else k).
  split; [|split].
  - intros k Hk. repeat case_decide; lia.
  - intros k k' Hk Hk'. repeat case_decide; lia.
  - intros k Hk.
    assert (forall l m, nth m l 0 = rd l (Z.of_nat m)) as Hrd by (intros; unfold rd; by rewrite Nat2Z.id).
    rewrite !Hrd. repeat case_decide; subst; rewrite ?Z2Nat.id by lia.
    + rewrite (rd_wr_ne a j i), (rd_wr_ne _ i j), rd_wr_eq by (rewrite ?length_wr; lia). done.
    + rewrite !rd_wr_eq by (rewrite ?length_wr; lia). done.
    + rewrite !rd_wr_ne by lia. done.
Qed.

Lemma wr_rd a i : wr a i (rd a i) = a.
Proof.
  unfold wr, rd. destruct (decide (Z.to_nat i < length a)%nat) as [Hl|Hl].
  - apply list_insert_id. rewrite nth_lookup. destruct (a !! Z.to_nat i) eqn:Ei; [done|].
    apply lookup_ge_None in Ei. lia.
  - apply list_insert_ge. lia.
Qed.

Lemma sift_perm f gap tmp j a :
  0 < gap -> 0 <= j < len a -> sift f gap tmp j a ≡ₚ wr a j tmp.
Proof.
  unfold len. revert j a. induction f as [|f IH]; intros j a Hg Hj; cbn [sift]; [done|].
  destruct (Z.leb_spec gap j); cbn [andb]; [|done]. case_if; [|done].
  rewrite IH by (rewrite ?length_wr; lia). apply wr_swap; unfold len; lia.
Qed.

Lemma gap_pass_perm k gap i a :
  0 < gap <= i -> i + Z.of_nat k <= len a -> gap_pass k gap i a ≡ₚ a.
Proof.
  unfold len. revert i a. induction k as [|k IH]; intros i a Hg Hi; cbn [gap_pass]; [done|].
  assert (sift (Z.to_nat i) gap (rd a i) i a ≡ₚ a) as Hs.
  { rewrite sift_perm by (unfold len; lia). by rewrite wr_rd. }
  rewrite IH; [done|lia|]. rewrite (Permutation_length Hs). lia.
Qed.

Lemma gap_loop_perm f n gap a : n = len a -> gap_loop f n gap a ≡ₚ a.
Proof.
  revert gap a. induction f as [|f IH]; intros gap a Hn; cbn [gap_loop]; [done|].
  destruct (Z.ltb_spec 0 gap); [|done].
  assert (gap_pass (Z.to_nat (n - gap)) gap gap a ≡ₚ a) as Hp.
  { destruct (decide (gap <= n)); [apply gap_pass_perm; unfold len in *; lia|].
    by replace (Z.to_nat (n - gap)) with 0%nat by lia. }
  rewrite IH; [done|]. unfold len in *. by rewrite (Permutation_length Hp).
Qed.

(** The last pass, with gap 1, is an insertion sort: [a] is in order up to [i]
    apart from the hole at [j], and [tmp] belongs at or before it. *)
Lemma sift_sorted tmp i j a :
  0 <= j <= i -> i < len a ->
  (forall p q, 0 <= p <= q -> q <= i -> p <> j -> q <> j -> rd a p <= rd a q) ->
  (forall q, j < q <= i -> tmp <= rd a q) ->
  nondecr (sift (Z.to_nat j) 1 tmp j a) (i + 1).
Proof.
  unfold len. intros Hj. remember (Z.to_nat j) as f eqn:Hf. revert j a Hj Hf.
  induction f as [|f IH]; intros j a Hj Hf Hi Hs Ht; cbn [sift].
  { intros p q Hpq Hq. assert (j = 0) as -> by lia. destruct (decide (q = 0)) as [->|]; [by replace p with 0 by lia|].
    rewrite (rd_wr_ne a 0 q) by lia. destruct (decide (p = 0)) as [->|]; [rewrite rd_wr_eq by lia; apply Ht; lia|].
    rewrite rd_wr_ne by lia. apply Hs; lia. }
  destruct (Z.leb_spec 1 j); [|lia]. cbn [andb]. destruct (Z.ltb_spec tmp (rd a (j - 1))) as [Hlt|Hge].
  - apply IH; [lia|lia|rewrite length_wr; lia| |].
    + intros p q Hpq Hq Hp Hq'. destruct (decide (p = j)) as [->|]; [|destruct (decide (q = j)) as [->|]].
      * rewrite rd_wr_eq by lia. destruct (decide (q = j)) as [->|]; [rewrite rd_wr_eq by lia; lia|].
        rewrite rd_wr_ne by lia. apply Hs; lia.
      * rewrite (rd_wr_ne a j p), rd_wr_eq by lia. apply Hs; lia.
      * rewrite !rd_wr_ne by lia. apply Hs; lia.
    + intros q Hq. destruct (decide (q = j)) as [->|]; [rewrite rd_wr_eq by lia; lia|].
      rewrite rd_wr_ne by lia. apply Ht. lia.
  - intros p q Hpq Hq. destruct (decide (p = j)) as [->|].
    + rewrite rd_wr_eq by lia. destruct (decide (q = j)) as [->|]; [rewrite rd_wr_eq by lia; lia|].
      rewrite rd_wr_ne by lia. apply Ht. lia.
    + rewrite (rd_wr_ne a j p) by lia. destruct (decide (q = j)) as [->|].
      * rewrite rd_wr_eq by lia. specialize (Hs p (j - 1)). lia.
      * rewrite rd_wr_ne by lia. apply Hs; lia.
Qed.

Lemma gap_pass_sorted k i a :
  1 <= i -> i + Z.of_nat k <= len a -> nondecr a i -> nondecr (gap_pass k 1 i a) (i + Z.of_nat k).
Proof.
  unfold len. revert i a. induction k as [|k IH]; intros i a Hi Hk Hs; cbn [gap_pass].
  { by replace (i + Z.of_nat 0) with i by lia. }
  replace (i + Z.of_nat (S k)) with (i + 1 + Z.of_nat k) by lia. apply IH; [lia| |].
  - rewrite (Permutation_length (sift_perm (Z.to_nat i) 1 (rd a i) i a ltac:(lia) ltac:(unfold len; lia))).
    rewrite length_wr. lia.
  - apply sift_sorted; [lia|unfold len; lia| |lia].
    intros p q Hpq Hq Hp Hq'. apply Hs; lia.
Qed.

Lemma gap_loop_sorted f n gap a :
  n = len a -> 0 < gap < 2 ^ Z.of_nat f -> gap <= n -> nondecr (gap_loop f n gap a) n.
Proof.
  revert gap a. induction f as [|f IH]; intros gap a Hn Hg Hgn; [cbn in Hg; lia|].
  rewrite Nat2Z.inj_succ, Z.pow_succ_r in Hg by lia. cbn [gap_loop].
  destruct (Z.ltb_spec 0 gap); [|lia].
  assert (n = len (gap_pass (Z.to_nat (n - gap)) gap gap a)) as Hlen.
  { unfold len in *. rewrite (gap_pass_perm (Z.to_nat (n - gap)) gap gap a); [done|lia|unfold len; lia]. }
  destruct (decide (gap = 1)) as [->|Hne].
  - assert (nondecr (gap_pass (Z.to_nat (n - 1)) 1 1 a) n) as Hs.
    { replace n with (1 + Z.of_nat (Z.to_nat (n - 1))) at 2 by lia. apply gap_pass_sorted; [lia|unfold len in *; lia|].
      intros p q Hpq Hq. by replace p with q by lia. }
    by destruct f.
  - apply IH; [done| |]; dlia.
Qed.

Lemma bench_sort_spec a :
  len a < 2 ^ 32 -> bench_sort a (len a) ≡ₚ a /\ nondecr (bench_sort a (len a)) (len a).
Proof.
  intros Hl. split; [by apply gap_loop_perm|]. destruct (decide (2 <= len a)) as [H2|H2].
  - apply gap_loop_sorted; [done| |dlia]. change (2 ^ Z.of_nat 32) with (2 ^ 32). dlia.
  - assert (len a / 2 = 0) as Hz by (unfold len in *; dlia). unfold bench_sort. rewrite Hz. cbn [gap_loop Z.ltb Z.compare].
    intros p q Hpq Hq. by replace p with q by lia.
Qed.

Lemma sum_loop_spec k i sum a :
  0 <= i -> i + Z.of_nat k = len a -> Forall (fun x => 0 <= x) a -> 0 <= sum ->
  sum + foldr Z.add 0 (drop (Z.to_nat i) a) < 2 ^ 64 ->
  sum_loop k i sum a = sum + foldr Z.add 0 (drop (Z.to_nat i) a).
Proof.
  unfold len. revert i sum. induction k as [|k IH]; intros i sum Hi Hk Hpos Hs Hlt; cbn [sum_loop].
  { rewrite drop_ge by lia. cbn. lia. }
  destruct (drop (Z.to_nat i) a) as [|x l] eqn:Hd.
  { apply (f_equal length) in Hd. rewrite length_drop in Hd. cbn in Hd. lia. }
  assert (a !! Z.to_nat i = Some x) as Hx by (rewrite <- (Nat.add_0_r (Z.to_nat i)), <- lookup_drop, Hd; done).
  assert (rd a i = x) as -> by (unfold rd; by rewrite nth_lookup, Hx).
  assert (drop (Z.to_nat (i + 1)) a = l) as Hd'.
  { replace (Z.to_nat (i + 1)) with (Z.to_nat i + 1)%nat by lia. by rewrite <- drop_drop, Hd. }
  assert (Forall (fun x => 0 <= x) (x :: l)) as [Hx0 Hl0]%Forall_cons by (rewrite <- Hd; by apply Forall_drop).
  assert (0 <= foldr Z.add 0 l) as Hf by (clear - Hl0; induction Hl0; cbn; lia).
  cbn [foldr] in Hlt |- *. rewrite u64_small by lia.
  rewrite IH; rewrite ?Hd'; try done; lia.
Qed.

(** [bench_compute] sorts the samples (the Shell sort ends with all of them
    in order, none lost) and reports the true minimum, maximum, mean and the
    order statistics at 50 and 99 percent. *)
Theorem bench_compute_correct a st a' :
  0 < len a -> len a * 99 < 2 ^ 32 -> Forall (fun x => 0 <= x) a -> foldr Z.add 0 a < 2 ^ 64 ->
  bench_compute a (len a) = (st, a') ->
  a' ≡ₚ a /\ nondecr a' (len a) /\ (forall x, x ∈ a -> smin st <= x <= smax st) /\ smin st ∈ a /\ smax st ∈ a /\
  mean st = foldr Z.add 0 a / len a /\
  p50 st = rd a' (len a * 50 / 100) /\ p99 st = rd a' (len a * 99 / 100).
Proof.
  intros Hl Hl2 Hpos Hsum. unfold bench_compute. destruct (Z.eqb_spec (len a) 0); [lia|]. intros [= <- <-].
  destruct (bench_sort_spec a ltac:(lia)) as [Hp Hs].
  assert (len (bench_sort a (len a)) = len a) as Hlen by (unfold len in *; by rewrite (Permutation_length Hp)).
  assert (forall i, 0 <= i < len a -> rd (bench_sort a (len a)) i ∈ a) as Hin.
  { intros i Hi. apply (elem_of_Permutation_proper _ _ _ Hp). unfold rd. rewrite nth_lookup.
    destruct (bench_sort a (len a) !! Z.to_nat i) eqn:Ei; [by eapply list_elem_of_lookup_2|].
    apply lookup_ge_None in Ei. unfold len in *. lia. }
  cbn [smin smax mean p50 p99]. do 2 (split; [done|]). split.
  { intros x Hx. apply (elem_of_Permutation_proper _ _ _ Hp) in Hx. apply list_elem_of_lookup in Hx as [i Hi].
    pose proof (lookup_lt_Some _ _ _ Hi) as Hlt.
    assert (rd (bench_sort a (len a)) (Z.of_nat i) = x) as <-.
    { unfold rd. rewrite Nat2Z.id, nth_lookup, Hi. done. }
    unfold len in Hlen. split; apply Hs; unfold len in *; lia. }
  split; [apply Hin; lia|]. split; [apply Hin; lia|]. split.
  - f_equal. rewrite (sum_loop_spec (Z.to_nat (len a)) 0 0); [done|lia|lia|done|lia|done].
  - rewrite !u32_small by lia. done.
Qed.

Lemma bench_compute_correct_witness :
  bench_compute [30; 10; 20] 3 = (MkStats 10 30 20 20 30, [10; 20; 30]) /\ [10; 20; 30] ≡ₚ [30; 10; 20].
Proof.
  assert (bench_compute [30; 10; 20] 3 = (MkStats 10 30 20 20 30, [10; 20; 30])) as Hc by by vm_compute.
  split; [exact Hc|].
  exact (proj1 (bench_compute_correct [30; 10; 20] _ _ ltac:(done) ltac:(done)
    ltac:(repeat constructor; lia) ltac:(done) Hc)).
Defined.

(** ** A concrete clock *)
#[global] Instance bump_clock : ClockEnv bump := {
  ck_set f k n e := MkBump (brk e) (pbrk e) k n f;
  ck_freq _ _ _ _ := eq_refl;
  ck_ticks _ _ _ _ := eq_refl;
  ck_count _ _ _ _ := eq_refl;
  ck_ok _ _ _ _ _ Hok := Hok
}.

(** 10 ms at 62.5 MHz are 625000 counts.  Task 16 sleeps until tick 2, and the
    second tick boundary has just been reached. *)
Notation demo_timer := (MkTimer 62500000 625000 1 0 1250000 1250000 1).
Lemma timer_handle_irq_correct_witness :
  let r := timer_handle_irq 1250100 1250100 1250200 1250300 (demo_timer, MkBench false 0 [], sleep_ms 25 demo_run) in
  sched_inv r.2 [16; 32] [] res0 /\ tick_count r.1.1 = 2 /\
  state (get r.2 16) = TASK_READY /\ cntp_cval r.1.1 = 1875000.
Proof.
  assert (sched_inv (sleep_ms 25 demo_run) [16; 32] [] res0) as Hi by check_inv. cbv zeta.
  destruct (timer_handle_irq 1250100 1250100 1250200 1250300 (demo_timer, MkBench false 0 [], sleep_ms 25 demo_run))
    as [[t' b'] s'] eqn:Hr.
  assert (forall a, a ∈ [IDLE; 16; 32] -> 0 < rt_period_cyc (get (sleep_ms 25 demo_run) a) ->
    0 < rt_next_release (get (sleep_ms 25 demo_run) a) /\
    rt_next_release (get (sleep_ms 25 demo_run) a) + rt_period_cyc (get (sleep_ms 25 demo_run) a) < 2 ^ 64) as Hno.
  { each_elem; intros Hp; vm_compute in Hp; discriminate Hp. }
  pose proof (proj1 (timer_handle_irq_correct 1250100 1250100 1250200 1250300 demo_timer (MkBench false 0 [])
    (sleep_ms 25 demo_run) t' b' s' [16; 32] [] res0 Hi ltac:(cbn; lia) ltac:(cbn; lia) ltac:(cbn; lia)
    ltac:(cbn; lia) ltac:(lia) ltac:(vm_compute; reflexivity) Hno Hr)) as Hi'.
  assert ((t', b', s') = timer_handle_irq 1250100 1250100 1250200 1250300
    (demo_timer, MkBench false 0 [], sleep_ms 25 demo_run)) as Heq by (by rewrite Hr).
  assert (t' = (t', b', s').1.1) as Ht by done. assert (s' = (t', b', s').2) as Hs by done.
  cbn [fst snd]. split; [exact Hi'|]. rewrite Heq in Ht, Hs. rewrite Ht, Hs.
  split; [by vm_compute|]. split; by vm_compute.
Defined.
End Timer.
