(* ===== verification/Virtqueue.v ===== *)
(** * Split virtqueues (src/src/pci/virtio/virtqueue.c, virtqueue.h)

    The descriptor table, the two rings and the driver's bookkeeping.  The
    device shares the table and the rings: what it does is a step of its own
    ([device_complete]), and what the driver reads from it in
    [virtqueue_setup] is an argument.  Register writes are collected in a
    list.  Barriers and console output are not modelled. *)
From S2P Require Import Prelude Heap TaskEnv.
#[local] Open Scope Z_scope.

Module Virtqueue.

Definition VIRTQ_DESC_F_NEXT : Z := 1.
Definition VIRTQ_DESC_F_WRITE : Z := 2.
Definition VIRTIO_MSI_NO_VECTOR : Z := 0xFFFF.
Definition VIRTQ_MAX_SIZE : Z := 128.
Definition VIRTQ_NO_DESC : Z := 0xFFFF.
Definition VIRTQUEUE_POLL_MAX_SPINS : Z := 10000000.

Record virtq_desc := MkDesc { addr : Z; dlen : Z; flags : Z; next : Z }.
Definition zero_desc : virtq_desc := MkDesc 0 0 0 0.
Record virtq_seg := MkSeg { pa : Z; slen : Z; sflags : Z }.
#[global] Instance virtq_seg_eq_dec : EqDecision virtq_seg.
Proof. solve_decision. Defined.

Record virtqueue := MkVq {
  size : Z;
  free_head : Z;
  num_free : Z;
  last_used : Z;
  notify_addr : Z;
  desc_va : Z; avail_va : Z; used_va : Z;          (* the pointers of the struct *)
  desc : list virtq_desc;
  avail_idx : Z; avail_ring : list Z;
  used_idx : Z; used_ring : list (Z * Z)           (* (id, len) *)
}.

Definition dget (vq : virtqueue) (i : Z) : virtq_desc := nth (Z.to_nat i) (desc vq) zero_desc.
Definition set_desc (i : Z) (d : virtq_desc) (vq : virtqueue) : virtqueue :=
  MkVq (size vq) (free_head vq) (num_free vq) (last_used vq) (notify_addr vq) (desc_va vq) (avail_va vq) (used_va vq)
    (<[Z.to_nat i := d]> (desc vq)) (avail_idx vq) (avail_ring vq) (used_idx vq) (used_ring vq).
Definition set_free (head n : Z) (vq : virtqueue) : virtqueue :=
  MkVq (size vq) head n (last_used vq) (notify_addr vq) (desc_va vq) (avail_va vq) (used_va vq)
    (desc vq) (avail_idx vq) (avail_ring vq) (used_idx vq) (used_ring vq).
Definition set_last_used (v : Z) (vq : virtqueue) : virtqueue :=
  MkVq (size vq) (free_head vq) (num_free vq) v (notify_addr vq) (desc_va vq) (avail_va vq) (used_va vq)
    (desc vq) (avail_idx vq) (avail_ring vq) (used_idx vq) (used_ring vq).
(** [avail->ring[avail_idx % size] = idx; avail->idx = avail_idx + 1] *)
Definition publish (idx : Z) (vq : virtqueue) : virtqueue :=
  MkVq (size vq) (free_head vq) (num_free vq) (last_used vq) (notify_addr vq) (desc_va vq) (avail_va vq) (used_va vq)
    (desc vq) (u16 (avail_idx vq + 1)) (wr (avail_ring vq) (avail_idx vq mod size vq) idx)
    (used_idx vq) (used_ring vq).

(** ** The free list *)
Fixpoint init_loop (n : nat) (i : Z) (vq : virtqueue) : virtqueue :=
  match n with
  | O => vq
  | S n' =>
      let d := dget vq i in
      let nx := if i + 1 <? size vq then u16 (i + 1) else VIRTQ_NO_DESC in
      init_loop n' (i + 1) (set_desc i (MkDesc (addr d) (dlen d) (flags d) nx) vq)
  end.
Definition virtqueue_init_free_list (vq : virtqueue) : virtqueue :=
  let vq := init_loop (Z.to_nat (size vq)) 0 vq in
  set_free (if 0 <? size vq then 0 else VIRTQ_NO_DESC) (size vq) vq.

Definition virtqueue_alloc_desc (vq : virtqueue) : Z * virtqueue :=
  let idx := free_head vq in
  if idx =? VIRTQ_NO_DESC then (VIRTQ_NO_DESC, vq)
  else (idx, set_free (next (dget vq idx)) (u16 (num_free vq - 1)) vq).

(** The walk of [virtqueue_free_chain]; a chain has at most [size] links. *)
Fixpoint free_loop (fuel : nat) (idx : Z) (vq : virtqueue) : virtqueue :=
  match fuel with
  | O => vq
  | S f =>
      if size vq <=? idx then vq
      else
        let fl := flags (dget vq idx) in
        let nx := next (dget vq idx) in
        let vq := set_desc idx (MkDesc 0 0 0 (free_head vq)) vq in
        let vq := set_free idx (u16 (num_free vq + 1)) vq in
        if negb (test_mask fl VIRTQ_DESC_F_NEXT) then vq else free_loop f nx vq
  end.
Definition virtqueue_free_chain (head : Z) (vq : virtqueue) : virtqueue :=
  free_loop (Z.to_nat (size vq)) head vq.

(** ** Submission *)
Definition virtqueue_submit (buf_pa len fl : Z) (vq : virtqueue) : Z * virtqueue :=
  let '(idx, vq) := virtqueue_alloc_desc vq in
  if idx =? VIRTQ_NO_DESC then (VIRTQ_NO_DESC, vq)
  else
    let vq := set_desc idx (MkDesc buf_pa len (fl .& unot 16 VIRTQ_DESC_F_NEXT) 0) vq in
    (idx, publish idx vq).

Fixpoint alloc_loop (n : nat) (vq : virtqueue) : list Z * virtqueue :=
  match n with
  | O => ([], vq)
  | S n' =>
      let '(i, vq) := virtqueue_alloc_desc vq in
      let '(l, vq) := alloc_loop n' vq in
      (i :: l, vq)
  end.
(** The loop that fills the descriptors [idx] with the segments [segs]. *)
Fixpoint link_loop (idx : list Z) (segs : list virtq_seg) (vq : virtqueue) : virtqueue :=
  match idx, segs with
  | x :: idx', sg :: segs' =>
      let last := match idx' with [] => true | _ => false end in
      let fl := if negb last then sflags sg .| VIRTQ_DESC_F_NEXT else sflags sg in
      link_loop idx' segs' (set_desc x (MkDesc (pa sg) (slen sg) fl (if negb last then hd 0 idx' else 0)) vq)
  | _, _ => vq
  end.
Definition virtqueue_submit_chain (segs : list virtq_seg) (vq : virtqueue) : Z * virtqueue :=
  let n := Z.of_nat (length segs) in
  if (n =? 0) || (num_free vq <? n) then (VIRTQ_NO_DESC, vq)
  else
    let '(idx, vq) := alloc_loop (length segs) vq in
    let vq := link_loop idx segs vq in
    (hd 0 idx, publish (hd 0 idx) vq).

(** ** Completion *)

(** [Some (id, len)] for the return value 1 *)
Definition virtqueue_get_used (vq : virtqueue) : option (Z * Z) * virtqueue :=
  if used_idx vq =? last_used vq then (None, vq)
  else
    let slot := last_used vq mod size vq in
    let '(head, written) := nth (Z.to_nat slot) (used_ring vq) (0, 0) in
    let vq := set_last_used (u16 (last_used vq + 1)) vq in
    if size vq <=? head then (None, vq)
    else (Some (u16 head, written), virtqueue_free_chain (u16 head) vq).

(** [device k] is what the device does before the [k]-th look. *)
Fixpoint poll_loop (left : nat) (k : Z) (device : Z -> virtqueue -> virtqueue) (vq : virtqueue) : Z * virtqueue :=
  match left with
  | O => (0, vq)
  | S left' =>
      match virtqueue_get_used (device k vq) with
      | (Some (_, written), vq) => (written, vq)
      | (None, vq) => poll_loop left' (k + 1) device vq
      end
  end.
Definition virtqueue_poll (device : Z -> virtqueue -> virtqueue) (vq : virtqueue) : Z * virtqueue :=
  poll_loop (Z.to_nat VIRTQUEUE_POLL_MAX_SPINS) 0 device vq.

Definition virtqueue_num_free (vq : virtqueue) : Z := num_free vq.

(** ** Configuration *)

(** A register write: width, address, value. *)
Definition write : Type := Z * Z * Z.
Definition VIRTIO_COMMON_MSIX : Z := 0x10.
Definition VIRTIO_COMMON_Q_SELECT : Z := 0x16.
Definition VIRTIO_COMMON_Q_SIZE : Z := 0x18.
Definition VIRTIO_COMMON_Q_MSIX : Z := 0x1A.
Definition VIRTIO_COMMON_Q_ENABLE : Z := 0x1C.
Definition VIRTIO_COMMON_Q_DESCLO : Z := 0x20.
Definition VIRTIO_COMMON_Q_DESCHI : Z := 0x24.
Definition VIRTIO_COMMON_Q_DRIVERLO : Z := 0x28.
Definition VIRTIO_COMMON_Q_DRIVERHI : Z := 0x2C.
Definition VIRTIO_COMMON_Q_DEVICELO : Z := 0x30.
Definition VIRTIO_COMMON_Q_DEVICEHI : Z := 0x34.

(** Both halves of an address. *)
Definition write_pa (lo hi pa : Z) : list write := [(32, lo, u32 (pa .& 0xFFFFFFFF)); (32, hi, u32 (pa >>> 32))].

(** [max_size] and [notify_off] are the values read from the device; the
    capabilities give [notify_base] and [mult].  [None] is EERROR. *)
Definition virtqueue_setup (base queue_idx max_size notify_off notify_base mult : Z) (vq : virtqueue)
  : list write * option virtqueue :=
  let w1 := [(16, base + VIRTIO_COMMON_MSIX, VIRTIO_MSI_NO_VECTOR); (16, base + VIRTIO_COMMON_Q_SELECT, queue_idx)] in
  if max_size =? 0 then (w1, None)
  else
    let qsize := if max_size <? VIRTQ_MAX_SIZE then max_size else VIRTQ_MAX_SIZE in
    let w2 := [(16, base + VIRTIO_COMMON_Q_SIZE, qsize); (16, base + VIRTIO_COMMON_Q_MSIX, VIRTIO_MSI_NO_VECTOR)]
      ++ write_pa (base + VIRTIO_COMMON_Q_DESCLO) (base + VIRTIO_COMMON_Q_DESCHI) (VIRT_TO_PHYS (desc_va vq))
      ++ write_pa (base + VIRTIO_COMMON_Q_DRIVERLO) (base + VIRTIO_COMMON_Q_DRIVERHI) (VIRT_TO_PHYS (avail_va vq))
      ++ write_pa (base + VIRTIO_COMMON_Q_DEVICELO) (base + VIRTIO_COMMON_Q_DEVICEHI) (VIRT_TO_PHYS (used_va vq)) in
    let vq := MkVq qsize (free_head vq) (num_free vq) 0 (u64 (notify_base + u32 (notify_off * mult)))
                (desc_va vq) (avail_va vq) (used_va vq)
                (replicate (Z.to_nat qsize) zero_desc ++ drop (Z.to_nat qsize) (desc vq))
                0 (replicate 128 0) 0 (replicate 128 (0, 0)) in
    (w1 ++ w2 ++ [(16, base + VIRTIO_COMMON_Q_ENABLE, 1)], Some (virtqueue_init_free_list vq)).

(** [virtqueue_notify]: one 16-bit write *)
Definition virtqueue_notify (vq : virtqueue) : list write := [(16, notify_addr vq, 0)].

(** ** The device *)

(** It completes the chain with head [id], having written [len] bytes. *)
Definition device_complete (id len : Z) (vq : virtqueue) : virtqueue :=
  MkVq (size vq) (free_head vq) (num_free vq) (last_used vq) (notify_addr vq) (desc_va vq) (avail_va vq) (used_va vq)
    (desc vq) (avail_idx vq) (avail_ring vq) (u16 (used_idx vq + 1))
    (<[Z.to_nat (used_idx vq mod size vq) := (id, len)]> (used_ring vq)).

(** The chain the device sees from descriptor [i] on. *)
Fixpoint read_chain (fuel : nat) (vq : virtqueue) (i : Z) : list virtq_seg :=
  match fuel with
  | O => []
  | S f =>
      let d := dget vq i in
      MkSeg (addr d) (dlen d) (flags d .& unot 16 VIRTQ_DESC_F_NEXT) ::
      (if test_mask (flags d) VIRTQ_DESC_F_NEXT then read_chain f vq (next d) else [])
  end.

(** ** Invariant *)

(** The list threaded through [next] from [a] on. *)
Fixpoint flist (g : Z -> virtq_desc) (a : Z) (l : list Z) : Prop :=
  match l with
  | [] => a = VIRTQ_NO_DESC
  | x :: l' => a = x /\ flist g (next (g x)) l'
  end.
(** The descriptors of a chain, linked as the device follows them. *)
Fixpoint chain (g : Z -> virtq_desc) (c : list Z) : Prop :=
  match c with
  | [] => False
  | x :: c' =>
      test_mask (flags (g x)) VIRTQ_DESC_F_NEXT = bool_decide (c' <> []) /\
      (c' = [] \/ (next (g x) = hd 0 c' /\ chain g c'))
  end.

Lemma flist_frame g g' a l : (forall x, x ∈ l -> g' x = g x) -> flist g a l -> flist g' a l.
Proof.
  revert a. induction l as [|x l IH]; intros a Hg; cbn [flist]; [done|]. intros [-> Hl]. split; [done|].
  rewrite Hg by left. apply IH; [|done]. intros y Hy. apply Hg. by right.
Qed.
Lemma chain_frame g g' c : (forall x, x ∈ c -> g' x = g x) -> chain g c -> chain g' c.
Proof.
  induction c as [|x c IH]; intros Hg; cbn [chain]; [done|]. rewrite Hg by left. intros [Hf Hc].
  split; [done|]. destruct Hc as [->|[Hn Hc]]; [by left|right]. split; [done|].
  apply IH; [|done]. intros y Hy. apply Hg. by right.
Qed.

(** [fr] is the free list, [chains] the chains in flight, [dn] the heads of
    those the device has completed and the driver has not yet seen. *)
Record vq_inv (vq : virtqueue) (fr : list Z) (chains : list (list Z)) (dn : list Z) : Prop := {
  vi_size : 0 < size vq <= VIRTQ_MAX_SIZE;
  vi_pow : 65536 mod size vq = 0;
  vi_desc : size vq <= Z.of_nat (length (desc vq));
  vi_avail : length (avail_ring vq) = 128%nat;
  vi_used : length (used_ring vq) = 128%nat;
  vi_free : flist (dget vq) (free_head vq) fr;
  vi_num : num_free vq = Z.of_nat (length fr);
  vi_chains : Forall (chain (dget vq)) chains;
  vi_part : fr ++ concat chains ≡ₚ seqZ 0 (size vq);
  vi_last : 0 <= last_used vq < 65536;
  vi_idx : used_idx vq = u16 (last_used vq + Z.of_nat (length dn));
  vi_ring k h : dn !! k = Some h ->
    (nth (Z.to_nat ((last_used vq + Z.of_nat k) mod size vq)) (used_ring vq) (0, 0)).1 = h;
  vi_dn : NoDup dn;
  vi_heads h : h ∈ dn -> h ∈ (hd 0 <$> chains)
}.

Lemma dget_set_eq i d vq : 0 <= i < Z.of_nat (length (desc vq)) -> dget (set_desc i d vq) i = d.
Proof. intros. unfold dget. cbn [desc set_desc]. rewrite nth_lookup, list_lookup_insert_eq by lia. done. Qed.
Lemma dget_set_ne i j d vq : 0 <= i -> 0 <= j -> i <> j -> dget (set_desc i d vq) j = dget vq j.
Proof. intros. unfold dget. cbn [desc set_desc]. rewrite !nth_lookup, list_lookup_insert_ne by lia. done. Qed.

(** What is left alone by the operations on descriptors. *)
Record same_rings (vq vq' : virtqueue) : Prop := {
  sr_size : size vq' = size vq;
  sr_last : last_used vq' = last_used vq;
  sr_notify : notify_addr vq' = notify_addr vq;
  sr_len : length (desc vq') = length (desc vq);
  sr_aidx : avail_idx vq' = avail_idx vq;
  sr_aring : avail_ring vq' = avail_ring vq;
  sr_uidx : used_idx vq' = used_idx vq;
  sr_uring : used_ring vq' = used_ring vq
}.
Lemma same_rings_refl vq : same_rings vq vq.
Proof. by constructor. Qed.
Lemma same_rings_trans v1 v2 v3 : same_rings v1 v2 -> same_rings v2 v3 -> same_rings v1 v3.
Proof. intros [] []. constructor; congruence. Qed.
Lemma same_rings_set i d vq : same_rings vq (set_desc i d vq).
Proof. constructor; try done. apply length_insert. Qed.
Lemma same_rings_free h n vq : same_rings vq (set_free h n vq).
Proof. by constructor. Qed.
#[local] Hint Resolve same_rings_refl same_rings_set same_rings_free : kernel.

Definition in_table (vq : virtqueue) (x : Z) : Prop := 0 <= x < size vq /\ x < Z.of_nat (length (desc vq)).

(** Freeing a chain pushes its descriptors one by one. *)
Lemma free_loop_spec fuel c fr vq :
  chain (dget vq) c -> flist (dget vq) (free_head vq) fr -> NoDup (c ++ fr) -> Forall (in_table vq) (c ++ fr) ->
  num_free vq = Z.of_nat (length fr) -> num_free vq + Z.of_nat (length c) < 65536 -> (length c <= fuel)%nat ->
  let vq' := free_loop fuel (hd 0 c) vq in
  same_rings vq vq' /\ flist (dget vq') (free_head vq') (reverse c ++ fr) /\
  num_free vq' = Z.of_nat (length (reverse c ++ fr)) /\
  (forall i, 0 <= i -> i ∉ c -> dget vq' i = dget vq i).
Proof.
  revert c fr vq. induction fuel as [|f IH]; intros c fr vq Hc Hf Hnd Htab Hn Hov Hlen;
    (destruct c as [|x c]; [done|cbn [length] in *]); [lia|].
  cbn [free_loop hd chain app] in *. apply NoDup_cons in Hnd as [Hx Hnd]. apply Forall_cons in Htab as [Hxt Htab].
  destruct Hc as [Hfl Hc]. destruct (Z.leb_spec (size vq) x); [destruct Hxt; lia|].
  set (vq1 := set_free x _ _). pose proof Hxt as [Hx1 Hx2].
  assert (forall i, 0 <= i -> i <> x -> dget vq1 i = dget vq i) as Hg1.
  { intros i Hi Hne. unfold vq1. change (dget (set_free _ _ ?v) i) with (dget v i). apply dget_set_ne; lia. }
  assert (dget vq1 x = MkDesc 0 0 0 (free_head vq)) as Hgx.
  { unfold vq1. change (dget (set_free _ _ ?v) x) with (dget v x). apply dget_set_eq. lia. }
  assert (same_rings vq vq1) as Hs1.
  { eapply same_rings_trans; [apply (same_rings_set x)|apply same_rings_free]. }
  assert (num_free vq1 = Z.of_nat (length (x :: fr))) as Hn1.
  { unfold vq1. cbn [num_free set_free set_desc length]. rewrite u16_small; lia. }
  assert (flist (dget vq1) (free_head vq1) (x :: fr)) as Hf1.
  { split; [done|]. rewrite Hgx. cbn [next]. eapply flist_frame; [|exact Hf]. intros y Hy. apply Hg1.
    - rewrite Forall_app, !Forall_forall in Htab. apply Htab in Hy as [? _]. lia.
    - intros ->. apply Hx. apply elem_of_app. by right. }
  rewrite Hfl. destruct Hc as [->|[Hnx Hc]].
  - rewrite bool_decide_false by tauto. cbn [negb reverse]. cbv zeta. split; [done|]. split; [done|]. split; [done|].
    intros i Hi Hni. apply Hg1; [done|]. intros ->. apply Hni. left.
  - destruct c as [|y c]; [done|]. rewrite bool_decide_true by done. cbn [negb]. rewrite Hnx.
    destruct (IH (y :: c) (x :: fr) vq1) as (H1' & H2' & H3' & H4'); try done.
    + eapply chain_frame; [|exact Hc]. intros z Hz. apply Hg1.
      * rewrite Forall_app, !Forall_forall in Htab. apply Htab in Hz as [? _]. lia.
      * intros ->. apply Hx. apply elem_of_app. by left.
    + rewrite <- Permutation_middle. by apply NoDup_cons.
    + rewrite <- Permutation_middle. constructor.
      * split; [rewrite (sr_size _ _ Hs1); lia|rewrite (sr_len _ _ Hs1); lia].
      * eapply Forall_impl; [exact Htab|]. intros z [? ?]. split; [rewrite (sr_size _ _ Hs1); lia|rewrite (sr_len _ _ Hs1); lia].
    + rewrite Hn1. cbn [length] in *. lia.
    + cbn [length] in *. lia.
    + cbv zeta. rewrite (reverse_cons (y :: c) x), <- app_assoc. split; [by eapply same_rings_trans|].
      split; [done|]. split; [done|]. intros i Hi Hni. apply not_elem_of_cons in Hni as [? ?].
      rewrite H4' by done. by apply Hg1.
Qed.

Lemma alloc_desc_spec vq x fr :
  flist (dget vq) (free_head vq) (x :: fr) -> num_free vq = Z.of_nat (length (x :: fr)) -> x <> VIRTQ_NO_DESC ->
  num_free vq < 65536 ->
  exists vq', virtqueue_alloc_desc vq = (x, vq') /\ same_rings vq vq' /\ dget vq' = dget vq /\
    flist (dget vq') (free_head vq') fr /\ num_free vq' = Z.of_nat (length fr).
Proof.
  cbn [flist length]. intros [Hx Hf] Hn Hne Hlt. unfold virtqueue_alloc_desc. rewrite Hx.
  destruct (Z.eqb_spec x VIRTQ_NO_DESC); [done|]. eexists. split; [done|]. split; [apply same_rings_free|].
  split; [done|]. split; [done|]. cbn [num_free set_free]. rewrite u16_small; lia.
Qed.

Lemma alloc_loop_spec c fr vq :
  flist (dget vq) (free_head vq) (c ++ fr) -> num_free vq = Z.of_nat (length (c ++ fr)) -> VIRTQ_NO_DESC ∉ c ->
  num_free vq < 65536 ->
  exists vq', alloc_loop (length c) vq = (c, vq') /\ same_rings vq vq' /\ dget vq' = dget vq /\
    flist (dget vq') (free_head vq') fr /\ num_free vq' = Z.of_nat (length fr).
Proof.
  revert vq. induction c as [|x c IH]; intros vq Hf Hn Hnd Hlt; cbn [app length alloc_loop] in *.
  { exists vq. by repeat (split; [done|]). }
  apply not_elem_of_cons in Hnd as [Hx Hnd].
  destruct (alloc_desc_spec vq x (c ++ fr) Hf Hn ltac:(done) Hlt) as (v1 & -> & Hs1 & Hg1 & Hf1 & Hn1).
  destruct (IH v1 Hf1 Hn1 Hnd ltac:(lia)) as (v2 & -> & Hs2 & Hg2 & Hf2 & Hn2).
  exists v2. split; [done|]. split; [by eapply same_rings_trans|]. split; [congruence|]. done.
Qed.

(** A segment as callers pass it: the link flag is not set. *)
Definition seg_ok (sg : virtq_seg) : Prop := is_u 16 (sflags sg) /\ Z.testbit (sflags sg) 0 = false.

Lemma next_bit x : test_mask x VIRTQ_DESC_F_NEXT = Z.testbit x 0.
Proof. apply (test_mask_bit x 0). lia. Qed.
Lemma set_next_bit x : test_mask (x .| VIRTQ_DESC_F_NEXT) VIRTQ_DESC_F_NEXT = true.
Proof. rewrite next_bit, Z.lor_spec. unfold VIRTQ_DESC_F_NEXT. by rewrite orb_true_r. Qed.
Lemma clear_next_bit x :
  is_u 16 x -> Z.testbit x 0 = false -> (x .& unot 16 VIRTQ_DESC_F_NEXT = x /\
    (x .| VIRTQ_DESC_F_NEXT) .& unot 16 VIRTQ_DESC_F_NEXT = x).
Proof.
  intros Hx H0'. unfold is_u in Hx.
  assert (forall y, is_u 16 y -> (forall i, i <> 0 -> Z.testbit y i = Z.testbit x i) ->
    y .& unot 16 VIRTQ_DESC_F_NEXT = x) as Hy.
  { intros y Hyr Hyb. apply Z.bits_inj'. intros i Hi. change VIRTQ_DESC_F_NEXT with (1 <<< 0).
    rewrite testbit_clearbit by (exact Hyr || lia).
    destruct (decide (i = 0)) as [->|Hne]; [by rewrite andb_false_r, H0'|].
    rewrite bool_decide_false by done. by rewrite andb_true_r, Hyb. }
  split; apply Hy; try done; [by apply lor_range|]. intros i Hi. rewrite Z.lor_spec.
  change VIRTQ_DESC_F_NEXT with (1 <<< 0). rewrite testbit_bit by lia. rewrite bool_decide_false by done. apply orb_false_r.
Qed.

Lemma read_chain_S f vq i :
  read_chain (S f) vq i =
  MkSeg (addr (dget vq i)) (dlen (dget vq i)) (flags (dget vq i) .& unot 16 VIRTQ_DESC_F_NEXT) ::
  (if test_mask (flags (dget vq i)) VIRTQ_DESC_F_NEXT then read_chain f vq (next (dget vq i)) else []).
Proof. done. Qed.

(** The filled descriptors form a chain that carries the segments. *)
Lemma link_loop_spec idx segs vq :
  idx <> [] -> length idx = length segs -> NoDup idx -> Forall (in_table vq) idx -> Forall seg_ok segs ->
  let vq' := link_loop idx segs vq in
  same_rings vq vq' /\ free_head vq' = free_head vq /\ num_free vq' = num_free vq /\
  chain (dget vq') idx /\ read_chain (length idx) vq' (hd 0 idx) = segs /\
  (forall i, 0 <= i -> i ∉ idx -> dget vq' i = dget vq i).
Proof.
  revert segs vq. induction idx as [|x idx IH]; intros [|sg segs] vq Hne Hlen Hnd Htab Hseg; try done.
  cbn [link_loop hd length] in *. cbv zeta. apply NoDup_cons in Hnd as [Hx Hnd]. apply Forall_cons in Htab as [[Hx1 Hx2] Htab].
  apply Forall_cons in Hseg as [[Hs1 Hs2] Hseg]. destruct (clear_next_bit _ Hs1 Hs2) as [Hcl1 Hcl2].
  destruct idx as [|y idx].
  - destruct segs; [|done]. cbn [negb link_loop]. set (d := MkDesc _ _ _ _).
    assert (dget (set_desc x d vq) x = d) as Hd by (apply dget_set_eq; lia).
    split; [apply same_rings_set|]. split; [done|]. split; [done|]. cbn [chain read_chain]. rewrite Hd. cbn [flags addr dlen d].
    rewrite next_bit, Hs2, Hcl1. split; [split; [done|by left]|]. split; [by destruct sg|].
    intros i Hi Hni. apply not_elem_of_cons in Hni as [? _]. apply dget_set_ne; lia.
  - cbn [negb hd]. set (d := MkDesc _ _ _ _). set (v1 := set_desc x d vq).
    assert (dget v1 x = d) as Hd by (apply dget_set_eq; lia).
    destruct (IH segs v1) as (H1' & H2' & H3' & H4' & H5' & H6'); try done; [lia| |].
    { eapply Forall_impl; [exact Htab|]. intros z [? ?]. split; [done|]. unfold v1. by rewrite (sr_len _ _ (same_rings_set x d vq)). }
    assert (dget (link_loop (y :: idx) segs v1) x = d) as Hdx by (rewrite H6' by (done || lia); done).
    split; [by eapply same_rings_trans; [apply (same_rings_set x d)|]|]. split; [done|]. split; [done|].
    split; [|split].
    + cbn [chain]. rewrite Hdx. cbn [flags next d]. rewrite set_next_bit, bool_decide_true by done. split; [done|by right].
    + rewrite read_chain_S, Hdx. cbn [flags next addr dlen d]. rewrite set_next_bit, Hcl2.
      f_equal; [by destruct sg|exact H5'].
    + intros i Hi Hni. apply not_elem_of_cons in Hni as [? ?]. rewrite H6' by done. apply dget_set_ne; lia.
Qed.

(** ** Consequences of the partition *)
Lemma inv_table vq fr chains dn x :
  vq_inv vq fr chains dn -> x ∈ fr ++ concat chains -> in_table vq x.
Proof.
  intros Hi Hx. rewrite (vi_part _ _ _ _ Hi), elem_of_seqZ in Hx. pose proof (vi_desc _ _ _ _ Hi).
  unfold in_table. lia.
Qed.
Lemma vq_nodup vq fr chains dn : vq_inv vq fr chains dn -> NoDup (fr ++ concat chains).
Proof. intros Hi. rewrite (vi_part _ _ _ _ Hi). apply NoDup_seqZ. Qed.
Lemma inv_size vq fr chains dn :
  vq_inv vq fr chains dn -> Z.of_nat (length fr) + Z.of_nat (length (concat chains)) = size vq.
Proof.
  intros Hi. pose proof (vi_size _ _ _ _ Hi).
  pose proof (Permutation_length (vi_part _ _ _ _ Hi)) as Hl. rewrite length_app, length_seqZ in Hl. lia.
Qed.

(** Heads of distinct chains are distinct. *)
Lemma heads_nodup g chains : Forall (chain g) chains -> NoDup (concat chains) -> NoDup (hd 0 <$> chains).
Proof.
  induction 1 as [|c chains Hc Hcs IH]; cbn [concat fmap list_fmap]; intros Hnd; [constructor|].
  apply NoDup_app in Hnd as (Hn1 & Hdj & Hn2). constructor; [|by apply IH].
  destruct c as [|x c]; [done|]. cbn [hd]. intros Hin. apply (Hdj x); [left|].
  apply list_elem_of_fmap in Hin as (c' & Hx & Hin'). apply list_elem_of_In, in_concat. exists c'.
  split; [by apply list_elem_of_In|]. rewrite Forall_forall in Hcs. specialize (Hcs c' Hin').
  destruct c'; [done|]. cbn in Hx. subst. by left.
Qed.

Lemma slot_u16 x n sz : 0 < sz -> 65536 mod sz = 0 -> u16 (x + n) mod sz = (x + n) mod sz.
Proof.
  intros Hsz Hp. unfold u16, wrap. change (2 ^ 16) with 65536.
  apply Z.mod_mod_divide, Z.mod_divide; [lia|done].
Qed.

Lemma read_chain_frame f v v' c :
  chain (dget v) c -> (forall x, x ∈ c -> dget v' x = dget v x) ->
  read_chain f v' (hd 0 c) = read_chain f v (hd 0 c).
Proof.
  revert c. induction f as [|f IH]; intros c Hc Hg; [done|]. destruct c as [|x c]; [done|]. cbn [hd].
  rewrite !read_chain_S, Hg by left. destruct Hc as [Hf Hc]. f_equal. rewrite Hf.
  destruct Hc as [->|[Hn Hc]]; [done|]. rewrite Hn. rewrite (IH c); [done|done|]. intros y Hy. apply Hg. by right.
Qed.

Lemma in_chain_flight (c : list Z) chains x : c ∈ chains -> x ∈ c -> x ∈ concat chains.
Proof. intros Hc Hx. apply list_elem_of_In, in_concat. exists c. split; by apply list_elem_of_In. Qed.

(** ** The abstract queue: how much room there is, the requests in flight under
    the number that identifies them, and the completions not yet collected. *)
Record aqueue := MkA { a_free : Z; a_flight : list (Z * list virtq_seg); a_done : list (Z * Z) }.

Definition request (vq : virtqueue) (c : list Z) : Z * list virtq_seg :=
  (hd 0 c, read_chain (length c) vq (hd 0 c)).

Definition repr (vq : virtqueue) (a : aqueue) : Prop :=
  exists fr chains, vq_inv vq fr chains (a_done a).*1 /\ a_free a = Z.of_nat (length fr) /\
    a_flight a = request vq <$> chains /\
    (forall k h l, a_done a !! k = Some (h, l) ->
       nth (Z.to_nat ((last_used vq + Z.of_nat k) mod size vq)) (used_ring vq) (0, 0) = (h, l)).

Lemma request_frame v v' chains :
  Forall (chain (dget v)) chains -> (forall x, x ∈ concat chains -> dget v' x = dget v x) ->
  request v' <$> chains = request v <$> chains.
Proof.
  intros Hc Hg. apply list_fmap_ext. intros i c Hic. unfold request. f_equal.
  assert (c ∈ chains) as Hin by by eapply list_elem_of_lookup_2. rewrite Forall_forall in Hc.
  apply read_chain_frame; [by apply Hc|]. intros x Hx. apply Hg. by eapply in_chain_flight.
Qed.

(** A free descriptor identifies no request in flight. *)
Lemma free_fresh vq fr chains dn x :
  vq_inv vq fr chains dn -> x ∈ fr -> 0 <= x < size vq /\ x <> VIRTQ_NO_DESC /\ x ∉ (hd 0 <$> chains).
Proof.
  intros Hi Hx. destruct (inv_table _ _ _ _ x Hi) as [Hr _]; [set_solver|]. split; [done|].
  pose proof (vi_size _ _ _ _ Hi). split; [unfold VIRTQ_NO_DESC, VIRTQ_MAX_SIZE in *; lia|].
  pose proof (vq_nodup _ _ _ _ Hi) as (_ & Hdj & _)%NoDup_app. intros Hin. apply (Hdj _ Hx).
  apply list_elem_of_fmap in Hin as (c & -> & Hin). eapply in_chain_flight; [done|].
  pose proof (vi_chains _ _ _ _ Hi) as Hcs. rewrite Forall_forall in Hcs. specialize (Hcs _ Hin). destruct c; [done|left].
Qed.

(** Taking the first descriptors of the free list for one request. *)
Lemma submit_inv vq v1 v2 c fr chains dn segs :
  vq_inv vq (c ++ fr) chains dn -> c <> [] -> length c = length segs -> Forall seg_ok segs ->
  same_rings vq v1 -> dget v1 = dget vq -> flist (dget v1) (free_head v1) fr -> num_free v1 = Z.of_nat (length fr) ->
  v2 = link_loop c segs v1 ->
  same_rings vq v2 /\ vq_inv (publish (hd 0 c) v2) fr (c :: chains) dn /\
  request (publish (hd 0 c) v2) <$> (c :: chains) = (hd 0 c, segs) :: (request vq <$> chains).
Proof.
  intros Hi Hne Hlen Hseg Hs1 Hg1 Hf1 Hn1 ->. pose proof (vq_nodup _ _ _ _ Hi) as Hnd.
  assert (Forall (in_table v1) c) as Htab.
  { apply Forall_forall. intros x Hx. destruct (inv_table _ _ _ _ x Hi) as [? ?]; [set_solver|].
    split; [by rewrite (sr_size _ _ Hs1)|by rewrite (sr_len _ _ Hs1)]. }
  rewrite <- app_assoc in Hnd. apply NoDup_app in Hnd as (Hndc & Hdj & Hndr).
  destruct (link_loop_spec c segs v1 Hne Hlen Hndc Htab Hseg) as (Hs2 & Hfh & Hnf & Hch & Hrd & Hg2).
  pose proof (same_rings_trans _ _ _ Hs1 Hs2) as Hs. set (v2 := link_loop c segs v1) in *.
  assert (forall x, x ∈ fr ++ concat chains -> dget v2 x = dget vq x) as Hg.
  { intros x Hx. rewrite Hg2, Hg1; [done| |].
    - destruct (inv_table _ _ _ _ x Hi) as [? ?]; [set_solver|lia].
    - intros Hc. by apply (Hdj x). }
  change (dget (publish ?h ?v)) with (dget v) in *. destruct Hi as [I1 I2 I3 I4 I5 I6 I7 I8 I9 I10 I11 I12 I13 I14].
  split; [done|]. split.
  - constructor; cbn [size desc avail_ring used_ring free_head num_free last_used used_idx publish];
      rewrite ?(sr_size _ _ Hs), ?(sr_len _ _ Hs), ?(sr_uring _ _ Hs), ?(sr_last _ _ Hs), ?(sr_uidx _ _ Hs), ?length_wr,
        ?(sr_aring _ _ Hs), ?Hfh, ?Hnf; try done.
    + eapply flist_frame; [|exact Hf1]. intros x Hx. rewrite Hg1. apply Hg. set_solver.
    + constructor; [done|]. rewrite Forall_forall in I8 |- *. intros c' Hc'.
      eapply chain_frame; [|by apply I8]. intros x Hx. apply Hg, elem_of_app. right. by eapply in_chain_flight.
    + cbn [concat]. by rewrite app_assoc, (Permutation_app_comm fr c).
    + intros h Hh. cbn [fmap list_fmap]. right. by apply I14.
  - cbn [fmap list_fmap]. f_equal.
    + unfold request. f_equal. rewrite (read_chain_frame _ v2) by done. done.
    + apply (request_frame vq (publish (hd 0 c) v2)); [done|]. intros x Hx. apply (Hg x). set_solver.
Qed.

Lemma slot_next x n sz : 0 < sz -> 65536 mod sz = 0 -> (u16 x + n) mod sz = (x + n) mod sz.
Proof.
  intros Hsz Hp. rewrite (Z.add_mod (u16 x)), (Z.add_mod x) by lia.
  pose proof (slot_u16 x 0 sz Hsz Hp) as Hs. rewrite Z.add_0_r in Hs. by rewrite Hs.
Qed.
Lemma u16_add x n : u16 (u16 x + n) = u16 (x + n).
Proof. unfold u16, wrap. by rewrite Z.add_mod_idemp_l by lia. Qed.

Lemma read_chain_len vq c : chain (dget vq) c -> length (read_chain (length c) vq (hd 0 c)) = length c.
Proof.
  induction c as [|x c IH]; [done|]. cbn [length hd]. rewrite read_chain_S. cbn [length].
  intros [Hf Hc]. rewrite Hf. destruct Hc as [->|[Hn Hc]]; [done|]. rewrite Hn.
  destruct c as [|y c]; [done|]. rewrite bool_decide_true by done. by rewrite IH.
Qed.

Lemma flight_heads vq chains : (request vq <$> chains).*1 = hd 0 <$> chains.
Proof. rewrite <- list_fmap_compose. by apply list_fmap_ext. Qed.

(** [virtqueue_submit_chain] accepts a request or changes nothing. *)
Lemma submit_chain_sim vq a segs :
  repr vq a -> Forall seg_ok segs ->
  let '(h, vq') := virtqueue_submit_chain segs vq in
  ((segs = [] \/ a_free a < Z.of_nat (length segs)) /\ h = VIRTQ_NO_DESC /\ vq' = vq) \/
  (segs <> [] /\ Z.of_nat (length segs) <= a_free a /\ h ∉ (a_flight a).*1 /\ 0 <= h < size vq /\
   rd (avail_ring vq') (avail_idx vq mod size vq) = h /\ avail_idx vq' = u16 (avail_idx vq + 1) /\
   repr vq' (MkA (a_free a - Z.of_nat (length segs)) ((h, segs) :: a_flight a) (a_done a))).
Proof.
  intros (fr & chains & Hi & Hfree & Hfl & Hdn) Hseg. unfold virtqueue_submit_chain.
  rewrite (vi_num _ _ _ _ Hi), <- Hfree. destruct (Z.eqb_spec (Z.of_nat (length segs)) 0) as [Hz|Hz]; cbn [orb].
  { left. destruct segs; [by repeat split; left|cbn in Hz; lia]. }
  destruct (Z.ltb_spec (a_free a) (Z.of_nat (length segs))) as [Hlt|Hge]; [left; by repeat split; right|].
  set (c := take (length segs) fr). set (fr' := drop (length segs) fr).
  assert (fr = c ++ fr') as Hsplit by (symmetry; apply take_drop).
  assert (length c = length segs) as Hlc by (unfold c; rewrite length_take; lia).
  assert (c <> []) as Hne by (intros Hc; rewrite Hc in Hlc; cbn in Hlc; lia).
  rewrite Hsplit in Hi. pose proof (inv_size _ _ _ _ Hi) as Hsz. pose proof (vi_size _ _ _ _ Hi) as Hs128.
  assert (forall x, x ∈ c -> x ∈ c ++ fr') as Hcin by set_solver.
  assert (VIRTQ_NO_DESC ∉ c) as Hno by (intros Hin; by destruct (free_fresh _ _ _ _ _ Hi (Hcin _ Hin)) as (_ & ? & _)).
  destruct (alloc_loop_spec c fr' vq (vi_free _ _ _ _ Hi) (vi_num _ _ _ _ Hi) Hno) as (v1 & Ha & Hs1 & Hg1 & Hf1 & Hn1).
  { rewrite (vi_num _ _ _ _ Hi). unfold VIRTQ_MAX_SIZE in *. lia. }
  rewrite Hlc in Ha. rewrite Ha. right.
  destruct (submit_inv vq v1 _ c fr' chains _ segs Hi Hne Hlc Hseg Hs1 Hg1 Hf1 Hn1 eq_refl) as (Hs & Hi' & Hreq).
  assert (hd 0 c ∈ c) as Hhd by (destruct c; [done|left]).
  destruct (free_fresh _ _ _ _ (hd 0 c) Hi (Hcin _ Hhd)) as (Hr & _ & Hfresh).
  split; [intros ->; cbn in Hz; lia|]. split; [done|]. split; [by rewrite Hfl, flight_heads|].
  split; [done|]. split; [|split].
  - cbn [avail_ring publish]. rewrite (sr_aring _ _ Hs), (sr_aidx _ _ Hs), (sr_size _ _ Hs). apply rd_wr_eq.
    rewrite (vi_avail _ _ _ _ Hi). pose proof (Z.mod_pos_bound (avail_idx vq) (size vq)). unfold VIRTQ_MAX_SIZE in *. lia.
  - cbn [avail_idx publish]. by rewrite (sr_aidx _ _ Hs).
  - exists fr', (c :: chains). cbn [a_done a_free a_flight]. split; [done|].
    split; [rewrite Hfree, Hsplit, length_app; lia|]. split; [by rewrite Hreq, Hfl|].
    intros k h l Hk. cbn [last_used used_ring size publish].
    rewrite (sr_last _ _ Hs), (sr_size _ _ Hs), (sr_uring _ _ Hs). by apply Hdn.
Qed.

(** [virtqueue_submit] is [virtqueue_submit_chain] of one segment. *)
Lemma submit_as_chain buf_pa len fl vq :
  num_free vq = 0 /\ free_head vq = VIRTQ_NO_DESC \/ 0 < num_free vq /\ free_head vq <> VIRTQ_NO_DESC ->
  virtqueue_submit buf_pa len fl vq =
  virtqueue_submit_chain [MkSeg buf_pa len (fl .& unot 16 VIRTQ_DESC_F_NEXT)] vq.
Proof.
  intros Hcase. unfold virtqueue_submit, virtqueue_submit_chain. cbn [length alloc_loop].
  change (Z.of_nat 1) with 1. cbn [Z.eqb orb]. unfold virtqueue_alloc_desc.
  destruct (Z.eqb_spec (free_head vq) VIRTQ_NO_DESC) as [Hh|Hh], (Z.ltb_spec (num_free vq) 1); try lia.
  - done.
  - cbn [link_loop negb hd pa slen sflags]. destruct (Z.eqb_spec (free_head vq) VIRTQ_NO_DESC); [done|]. done.
Qed.

Lemma inv_head vq fr chains dn :
  vq_inv vq fr chains dn ->
  num_free vq = 0 /\ free_head vq = VIRTQ_NO_DESC \/ 0 < num_free vq /\ free_head vq <> VIRTQ_NO_DESC.
Proof.
  intros Hi. rewrite (vi_num _ _ _ _ Hi). pose proof (vi_free _ _ _ _ Hi) as Hf. destruct fr as [|x fr].
  - left. done.
  - right. destruct Hf as [-> _]. cbn [length]. split; [lia|]. by apply (free_fresh _ _ _ _ x Hi ltac:(left)).
Qed.

(** There are at most [size] requests in flight. *)
Lemma heads_room vq fr chains dn l :
  vq_inv vq fr chains dn -> NoDup l -> l ⊆ (hd 0 <$> chains) -> Z.of_nat (length l) <= size vq.
Proof.
  intros Hi Hnd Hl. pose proof (inv_size _ _ _ _ Hi) as Hsz.
  assert (l ⊆+ (hd 0 <$> chains)) as Hsub by by apply NoDup_submseteq.
  apply submseteq_length in Hsub. rewrite length_fmap in Hsub.
  assert (forall cs, Forall (chain (dget vq)) cs -> (length cs <= length (concat cs))%nat) as Hlen.
  { induction 1 as [|c cs Hc _ IH]; [done|]. cbn [concat length]. rewrite length_app. destruct c; [done|cbn; lia]. }
  specialize (Hlen _ (vi_chains _ _ _ _ Hi)). lia.
Qed.

(** Writing the slot behind [n] occupied ones does not touch these. *)
Lemma ring_push (ring : list (Z * Z)) x (d : list (Z * Z)) sz p :
  0 < sz <= Z.of_nat (length ring) -> Z.of_nat (length d) < sz ->
  (forall k q, d !! k = Some q -> nth (Z.to_nat ((x + Z.of_nat k) mod sz)) ring (0, 0) = q) ->
  forall k q, (d ++ [p]) !! k = Some q ->
    nth (Z.to_nat ((x + Z.of_nat k) mod sz)) (<[Z.to_nat ((x + Z.of_nat (length d)) mod sz) := p]> ring) (0, 0) = q.
Proof.
  intros Hsz Hroom Hd k q Hk. rewrite nth_lookup.
  pose proof (Z.mod_pos_bound (x + Z.of_nat k) sz ltac:(lia)) as Hb.
  apply lookup_app_Some in Hk as [Hk|[Hge Hk]].
  - pose proof (lookup_lt_Some _ _ _ Hk) as Hlt. rewrite list_lookup_insert_ne.
    + rewrite <- nth_lookup. by apply Hd.
    + intros Heq. apply Z2Nat.inj in Heq; [|apply Z.mod_pos_bound; lia|lia].
      assert ((Z.of_nat (length d) - Z.of_nat k) mod sz = 0) as Hz.
      { replace (Z.of_nat (length d) - Z.of_nat k) with (x + Z.of_nat (length d) - (x + Z.of_nat k)) by lia.
        rewrite Zminus_mod, Heq, Z.sub_diag. done. }
      rewrite Z.mod_small in Hz by lia. lia.
  - apply list_lookup_singleton_Some in Hk as [Hk <-].
    replace (Z.of_nat k) with (Z.of_nat (length d)) in * by lia.
    rewrite list_lookup_insert_eq; [done|]. lia.
Qed.

(** A completion by the device. *)
Lemma device_sim vq a h len :
  repr vq a -> h ∈ (a_flight a).*1 -> h ∉ (a_done a).*1 ->
  repr (device_complete h len vq) (MkA (a_free a) (a_flight a) (a_done a ++ [(h, len)])).
Proof.
  intros (fr & chains & Hi & Hfree & Hfl & Hdn) Hh Hnew. exists fr, chains. cbn [a_done a_free a_flight].
  rewrite Hfl, flight_heads in Hh. 
  assert (Z.of_nat (length (a_done a)) < size vq) as Hroom.
  { pose proof (heads_room _ _ _ _ (h :: (a_done a).*1) Hi) as Hr. cbn [length] in Hr. rewrite length_fmap in Hr.
    apply Z.le_succ_l. rewrite <- Nat2Z.inj_succ. apply Hr.
    - apply NoDup_cons. split; [done|apply (vi_dn _ _ _ _ Hi)].
    - intros x [->|Hx]%elem_of_cons; [done|by apply (vi_heads _ _ _ _ Hi)]. }
  pose proof (vi_size _ _ _ _ Hi) as Hs128. pose proof (vi_pow _ _ _ _ Hi) as Hpow. unfold VIRTQ_MAX_SIZE in Hs128.
  assert (used_idx vq mod size vq = (last_used vq + Z.of_nat (length (a_done a))) mod size vq) as Hslot.
  { rewrite (vi_idx _ _ _ _ Hi), length_fmap. by apply slot_u16; lia. }
  pose proof (ring_push (used_ring vq) (last_used vq) (a_done a) (size vq) (h, len)
    ltac:(rewrite (vi_used _ _ _ _ Hi); lia) Hroom ltac:(intros k [? ?] Hk; by apply Hdn)) as Hring.
  rewrite <- Hslot in Hring.
  split; [|split; [done|split; [|by intros k h' l' Hk; apply Hring]]].
  2: { rewrite Hfl. symmetry. by apply request_frame; [apply (vi_chains _ _ _ _ Hi)|]. }
  destruct Hi as [I1 I2 I3 I4 I5 I6 I7 I8 I9 I10 I11 I12 I13 I14].
  constructor; cbn [size desc avail_ring used_ring free_head num_free last_used used_idx device_complete]; try done.
  - by rewrite length_insert.
  - rewrite I11, u16_add, !length_fmap, length_app. cbn [length]. f_equal. lia.
  - intros k h' Hk. apply list_lookup_fmap_Some in Hk as ([h2 l2] & -> & Hk). apply Hring in Hk. by rewrite Hk.
  - rewrite fmap_app. apply NoDup_app. split; [done|]. split; [|apply NoDup_singleton].
    intros x Hx ->%list_elem_of_singleton. done.
  - intros x. rewrite fmap_app. intros [Hx| ->%list_elem_of_singleton]%elem_of_app; [by apply I14|done].
Qed.

Lemma concat_mid (cs1 : list (list Z)) c cs2 : concat (cs1 ++ c :: cs2) ≡ₚ c ++ concat (cs1 ++ cs2).
Proof. rewrite !concat_app. cbn [concat]. by rewrite !app_assoc, (Permutation_app_comm (concat cs1) c). Qed.

(** Giving the descriptors of a chain back. *)
Lemma free_chain_inv vq fr cs1 c cs2 dn h :
  vq_inv vq fr (cs1 ++ c :: cs2) (h :: dn) -> h = hd 0 c ->
  let vq' := virtqueue_free_chain h (set_last_used (u16 (last_used vq + 1)) vq) in
  vq_inv vq' (reverse c ++ fr) (cs1 ++ cs2) dn /\ size vq' = size vq /\ used_ring vq' = used_ring vq /\
  last_used vq' = u16 (last_used vq + 1) /\ (forall x, x ∈ concat (cs1 ++ cs2) -> dget vq' x = dget vq x).
Proof.
  intros Hi ->. unfold virtqueue_free_chain. set (v1 := set_last_used _ vq). pose proof (inv_size _ _ _ _ Hi) as Hsz.
  pose proof (vi_size _ _ _ _ Hi) as Hs128. unfold VIRTQ_MAX_SIZE in Hs128.
  assert (c ++ fr ++ concat (cs1 ++ cs2) ≡ₚ fr ++ concat (cs1 ++ c :: cs2)) as Hperm.
  { rewrite concat_mid, !app_assoc. by rewrite (Permutation_app_comm c fr). }
  pose proof (vq_nodup _ _ _ _ Hi) as Hnd. rewrite <- Hperm, app_assoc in Hnd. apply NoDup_app in Hnd as (Hndc & Hdj & _).
  assert (forall x, x ∈ c ++ fr ++ concat (cs1 ++ cs2) -> in_table vq x) as Htab.
  { intros x Hx. rewrite Hperm in Hx. by eapply inv_table. }
  assert (length c + length fr <= Z.to_nat (size vq))%nat as Hle.
  { pose proof (Permutation_length Hperm) as Hl. rewrite !length_app in Hl. lia. }
  pose proof (vi_chains _ _ _ _ Hi) as Hcs. rewrite Forall_app, Forall_cons in Hcs. destruct Hcs as (Hc1 & Hc & Hc2).
  destruct (free_loop_spec (Z.to_nat (size v1)) c fr v1) as (Hs & Hf & Hn & Hg).
  { done. }
  { apply (vi_free _ _ _ _ Hi). }
  { done. }
  { apply Forall_forall. intros x Hx. apply (Htab x). rewrite app_assoc. set_solver. }
  { apply (vi_num _ _ _ _ Hi). }
  { change (num_free v1) with (num_free vq). rewrite (vi_num _ _ _ _ Hi). lia. }
  { change (size v1) with (size vq). lia. }
  assert (forall x, x ∈ concat (cs1 ++ cs2) -> dget (free_loop (Z.to_nat (size v1)) (hd 0 c) v1) x = dget vq x) as Hgx.
  { intros x Hx. rewrite Hg; [done| |].
    - destruct (Htab x) as [? _]; [rewrite !elem_of_app; auto|lia].
    - intros Hxc. apply (Hdj x); [apply elem_of_app; by left|done]. }
  split; [|split; [apply (sr_size _ _ Hs)|split; [apply (sr_uring _ _ Hs)|split; [apply (sr_last _ _ Hs)|done]]]].
  destruct Hi as [I1 I2 I3 I4 I5 I6 I7 I8 I9 I10 I11 I12 I13 I14]. apply NoDup_cons in I13 as [Hh I13].
  constructor; rewrite ?(sr_size _ _ Hs), ?(sr_len _ _ Hs), ?(sr_uring _ _ Hs), ?(sr_last _ _ Hs), ?(sr_uidx _ _ Hs),
    ?(sr_aring _ _ Hs); unfold v1; cbn [size desc avail_ring used_ring last_used used_idx set_last_used]; try done.
  - apply Forall_forall. intros c' Hc'. eapply chain_frame.
    + intros x Hx. apply Hgx. by eapply in_chain_flight.
    + rewrite Forall_forall in I8. apply I8. set_solver.
  - rewrite <- app_assoc. etransitivity; [|exact I9]. rewrite <- Hperm. apply Permutation_app; [apply reverse_Permutation|done].
  - apply u16_range.
  - rewrite I11, u16_add. cbn [length]. f_equal. lia.
  - intros k h Hk. rewrite slot_next by lia. specialize (I12 (S k) h Hk). rewrite <- I12. do 4 f_equal. lia.
  - intros x Hx. specialize (I14 x ltac:(right; done)). rewrite fmap_app in I14 |- *. cbn [fmap list_fmap] in I14.
    rewrite elem_of_app, elem_of_cons in I14. rewrite elem_of_app. destruct I14 as [?|[->|?]]; [by left|done|by right].
Qed.

(** Collecting the first completion frees its request. *)
Lemma get_used_sim vq a :
  repr vq a ->
  match a_done a with
  | [] => virtqueue_get_used vq = (None, vq)
  | (h, len) :: dn =>
      exists vq' f1 segs f2, virtqueue_get_used vq = (Some (h, len), vq') /\
        a_flight a = f1 ++ (h, segs) :: f2 /\
        repr vq' (MkA (a_free a + Z.of_nat (length segs)) (f1 ++ f2) dn)
  end.
Proof.
  intros (fr & chains & Hi & Hfree & Hfl & Hdn). unfold virtqueue_get_used. rewrite (vi_idx _ _ _ _ Hi), length_fmap.
  pose proof (vi_last _ _ _ _ Hi) as Hlast. pose proof (vi_size _ _ _ _ Hi) as Hs128. unfold VIRTQ_MAX_SIZE in Hs128.
  destruct (a_done a) as [|[h len] dn] eqn:Hd; cbn [length].
  { rewrite Z.add_0_r, u16_small, Z.eqb_refl by lia. done. }
  cbn [fmap list_fmap fst] in Hi. assert (h ∈ hd 0 <$> chains) as Hh by (apply (vi_heads _ _ _ _ Hi); left).
  assert (Z.of_nat (S (length dn)) <= size vq) as Hroom.
  { rewrite <- (length_fmap fst dn). apply (heads_room _ _ _ _ (h :: dn.*1) Hi); [apply (vi_dn _ _ _ _ Hi)|].
    intros x. apply (vi_heads _ _ _ _ Hi). }
  destruct (Z.eqb_spec (u16 (last_used vq + Z.of_nat (S (length dn)))) (last_used vq)) as [Heq|_].
  { unfold u16, wrap in Heq. change (2 ^ 16) with 65536 in Heq. dlia. }
  pose proof (Hdn 0%nat h len eq_refl) as H0'. rewrite Z.add_0_r in H0'. rewrite H0'.
  apply list_elem_of_fmap in Hh as (c & Hhc & Hin). apply list_elem_of_split in Hin as (cs1 & cs2 & ->).
  assert (chain (dget vq) c) as Hc.
  { pose proof (vi_chains _ _ _ _ Hi) as Hcs. rewrite Forall_app, Forall_cons in Hcs. tauto. }
  assert (0 <= h < size vq) as Hr.
  { apply (inv_table _ _ _ _ h Hi). rewrite concat_mid. destruct c; [done|]. cbn in Hhc. subst. set_solver. }
  cbn [size set_last_used]. destruct (Z.leb_spec (size vq) h); [lia|]. rewrite u16_small by lia.
  destruct (free_chain_inv vq fr cs1 c cs2 dn.*1 h Hi Hhc) as (Hi' & Hsz & Hur & Hlu & Hg).
  do 4 eexists. split; [done|]. rewrite Hfl, fmap_app. cbn [fmap list_fmap]. unfold request at 2. rewrite <- Hhc.
  split; [done|]. exists (reverse c ++ fr), (cs1 ++ cs2). cbn [a_done a_free a_flight]. split; [done|].
  split; [|split].
  - rewrite Hfree, Hhc, read_chain_len, length_app, length_reverse by done. lia.
  - rewrite <- fmap_app. symmetry. apply request_frame; [|done].
    pose proof (vi_chains _ _ _ _ Hi) as Hcs. rewrite Forall_app, Forall_cons in Hcs. rewrite Forall_app. tauto.
  - intros k h' l' Hk. rewrite Hlu, Hsz, Hur, slot_next by (lia || apply (vi_pow _ _ _ _ Hi)).
    rewrite <- (Hdn (S k) h' l' Hk). do 3 f_equal. lia.
Qed.

(** ** The fresh queue *)
Lemma init_loop_spec n i vq :
  0 <= i -> i + Z.of_nat n <= Z.of_nat (length (desc vq)) -> size vq < 65536 ->
  let vq' := init_loop n i vq in
  same_rings vq vq' /\
  (forall j, i <= j < i + Z.of_nat n -> next (dget vq' j) = if j + 1 <? size vq then j + 1 else VIRTQ_NO_DESC) /\
  (forall j, 0 <= j < i -> dget vq' j = dget vq j).
Proof.
  revert i vq. induction n as [|n IH]; intros i vq Hi Hn Hsz; cbn [init_loop]; cbv zeta.
  { split; [apply same_rings_refl|]. split; [lia|done]. }
  set (d := MkDesc _ _ _ _). pose proof (same_rings_set i d vq) as Hs1.
  destruct (IH (i + 1) (set_desc i d vq)) as (Hs & Hj & Hlow);
    [lia|rewrite (sr_len _ _ Hs1); lia|rewrite (sr_size _ _ Hs1); lia|].
  split; [by eapply same_rings_trans|]. split.
  - intros j Hjr. destruct (decide (j = i)) as [->|]; [|rewrite Hj by lia; done].
    rewrite Hlow, dget_set_eq by lia. cbn [next d]. destruct (Z.ltb_spec (i + 1) (size vq)); [|done].
    rewrite u16_small; lia.
  - intros j Hjr. rewrite Hlow by lia. apply dget_set_ne; lia.
Qed.

Lemma flist_seq g sz n i :
  (forall j, i <= j < i + Z.of_nat n -> next (g j) = if j + 1 <? sz then j + 1 else VIRTQ_NO_DESC) ->
  i + Z.of_nat n = sz -> flist g (if i <? sz then i else VIRTQ_NO_DESC) (seqZ i (Z.of_nat n)).
Proof.
  revert i. induction n as [|n IH]; intros i Hg Hsz.
  { cbn. destruct (Z.ltb_spec i sz); [lia|done]. }
  destruct (Z.ltb_spec i sz); [|lia]. rewrite seqZ_cons by lia. split; [done|]. rewrite Hg by lia.
  replace (Z.pred (Z.of_nat (S n))) with (Z.of_nat n) by lia. apply IH; [intros; apply Hg; lia|lia].
Qed.

Lemma setup_sim base q max_size noff nbase mult vq :
  0 < max_size -> 65536 mod (Z.min max_size VIRTQ_MAX_SIZE) = 0 -> length (desc vq) = 128%nat ->
  exists w vq', virtqueue_setup base q max_size noff nbase mult vq = (w, Some vq') /\
    size vq' = Z.min max_size VIRTQ_MAX_SIZE /\ repr vq' (MkA (size vq') [] []).
Proof.
  unfold VIRTQ_MAX_SIZE. intros Hm Hp Hl. unfold virtqueue_setup, VIRTQ_MAX_SIZE. destruct (Z.eqb_spec max_size 0); [lia|].
  replace (if max_size <? 128 then max_size else 128) with (Z.min max_size 128)
    by (destruct (Z.ltb_spec max_size 128); lia).
  set (qs := Z.min max_size 128) in *. do 2 eexists. split; [done|].
  set (v0 := MkVq _ _ _ _ _ _ _ _ _ _ _ _ _). unfold virtqueue_init_free_list.
  change (size v0) with qs. assert (length (desc v0) = 128%nat) as Hl0.
  { cbn [desc v0]. rewrite length_app, length_replicate, length_drop. lia. }
  destruct (init_loop_spec (Z.to_nat qs) 0 v0) as (Hs & Hj & _); [lia|lia|cbn; lia|].
  pose proof (sr_size _ _ Hs) as Hsz. change (size v0) with qs in Hsz. set (v1 := init_loop _ 0 v0) in *.
  rewrite Hsz. cbn [size set_free]. split; [done|]. exists (seqZ 0 qs), []. cbn [a_done a_free a_flight fmap list_fmap].
  split; [|split; [rewrite Hsz, length_seqZ; lia|by split]].
  constructor; cbn [size desc avail_ring used_ring free_head num_free last_used used_idx set_free];
    rewrite ?Hsz, ?(sr_len _ _ Hs), ?Hl0, ?(sr_uring _ _ Hs), ?(sr_last _ _ Hs), ?(sr_uidx _ _ Hs), ?(sr_aring _ _ Hs);
    try done; unfold VIRTQ_MAX_SIZE; try lia.
  - change (dget (set_free _ _ v1)) with (dget v1). rewrite <- (Z2Nat.id qs) at 2 by lia.
    apply flist_seq; [intros j Hjr; rewrite Hj by lia; done|lia].
  - rewrite length_seqZ. lia.
  - cbn [concat]. by rewrite app_nil_r.
  - constructor.
Qed.

(** C36: the virtqueue implements the abstract queue.  After [virtqueue_setup]
    all descriptors are free.  [virtqueue_submit_chain] refuses an empty
    request or one that does not fit and then changes nothing; otherwise the
    request is in flight under a number no other request in flight has, the
    device finds its segments under that number in the available ring, and the
    room shrinks by their count.  [virtqueue_submit] is the case of one
    segment.  The device may complete the requests in any order;
    [virtqueue_get_used] returns the completions in the order they were made,
    and gives back exactly the descriptors of that request. *)
Theorem virtqueue_refines :
  (forall base q max_size noff nbase mult vq,
     0 < max_size -> 65536 mod (Z.min max_size VIRTQ_MAX_SIZE) = 0 -> length (desc vq) = 128%nat ->
     exists w vq', virtqueue_setup base q max_size noff nbase mult vq = (w, Some vq') /\
       size vq' = Z.min max_size VIRTQ_MAX_SIZE /\ repr vq' (MkA (size vq') [] [])) /\
  (forall vq a segs, repr vq a -> Forall seg_ok segs ->
     let '(h, vq') := virtqueue_submit_chain segs vq in
     ((segs = [] \/ a_free a < Z.of_nat (length segs)) /\ h = VIRTQ_NO_DESC /\ vq' = vq) \/
     (segs <> [] /\ Z.of_nat (length segs) <= a_free a /\ h ∉ (a_flight a).*1 /\ 0 <= h < size vq /\
      rd (avail_ring vq') (avail_idx vq mod size vq) = h /\ avail_idx vq' = u16 (avail_idx vq + 1) /\
      repr vq' (MkA (a_free a - Z.of_nat (length segs)) ((h, segs) :: a_flight a) (a_done a)))) /\
  (forall vq a buf_pa len fl, repr vq a ->
     virtqueue_submit buf_pa len fl vq =
     virtqueue_submit_chain [MkSeg buf_pa len (fl .& unot 16 VIRTQ_DESC_F_NEXT)] vq) /\
  (forall vq a h len, repr vq a -> h ∈ (a_flight a).*1 -> h ∉ (a_done a).*1 ->
     repr (device_complete h len vq) (MkA (a_free a) (a_flight a) (a_done a ++ [(h, len)]))) /\
  (forall vq a, repr vq a ->
     match a_done a with
     | [] => virtqueue_get_used vq = (None, vq)
     | (h, len) :: dn =>
         exists vq' f1 segs f2, virtqueue_get_used vq = (Some (h, len), vq') /\
           a_flight a = f1 ++ (h, segs) :: f2 /\
           repr vq' (MkA (a_free a + Z.of_nat (length segs)) (f1 ++ f2) dn)
     end).
Proof.
  split; [exact setup_sim|]. split; [exact submit_chain_sim|]. split; [|split; [exact device_sim|exact get_used_sim]].
  intros vq a buf_pa len fl (fr & chains & Hi & _). apply submit_as_chain. by eapply inv_head.
Qed.

(** A queue of 4, two requests, the second completed first. *)
Definition demo_vq : virtqueue := MkVq 0 0 0 0 0 0 0 0 (replicate 128 zero_desc) 0 (replicate 128 0) 0 (replicate 128 (0, 0)).
Lemma virtqueue_refines_witness :
  exists w vq, virtqueue_setup 0 0 4 0 0 0 demo_vq = (w, Some vq) /\ repr vq (MkA 4 [] []) /\
    (let '(h1, v1) := virtqueue_submit_chain [MkSeg 0x1000 16 0; MkSeg 0x2000 512 2; MkSeg 0x3000 1 2] vq in
     let '(h2, v2) := virtqueue_submit 0x4000 8 0 v1 in
     let '(r, v3) := virtqueue_get_used (device_complete h2 8 v2) in
     h1 = 0 /\ h2 = 3 /\ r = Some (3, 8) /\ num_free v3 = 1).
Proof.
  destruct (proj1 virtqueue_refines 0 0 4 0 0 0 demo_vq ltac:(lia) ltac:(vm_compute; reflexivity)
    ltac:(vm_compute; reflexivity)) as (w & vq & Hs & Hsz & Hr).
  change (Z.min 4 VIRTQ_MAX_SIZE) with 4 in Hsz. rewrite Hsz in Hr.
  exists w, vq. split; [exact Hs|]. split; [exact Hr|].
  assert (vq = default demo_vq (virtqueue_setup 0 0 4 0 0 0 demo_vq).2) as -> by (by rewrite Hs).
  vm_compute. auto.
Defined.

(** The device's identifier is only checked against the size of the table: a
    number that is not in flight puts a free descriptor on the free list a
    second time, which then has a cycle. *)
Example free_chain_cycle :
  let vq := default demo_vq (virtqueue_setup 0 0 4 0 0 0 demo_vq).2 in
  let vq := (virtqueue_get_used (device_complete 0 0 vq)).2 in
  num_free vq = 5 /\ free_head vq = 0 /\ next (dget vq 0) = 0.
Proof. by vm_compute. Qed.
End Virtqueue.
