(* ===== verification/Vfs.v ===== *)
(** * The virtual file system (src/src/fs/vfs/vfs.c, vfs.h)

    The pool of vnodes, path resolution, and the fd tables.  A vnode pointer
    is 0 or [i + 1] for [&node_pool[i]]; open files and fd tables live in
    stores keyed by the address [kmalloc] gave.  The vtables are interfaces:
    [Lookup] is what a file system does for a name that is not cached, and
    [FileOps] what the drivers do for read, write and ioctl. *)
From S2P Require Import Prelude PageAlloc Heap Mmu TaskEnv BumpEnv.
From AAC_tactics Require Import AAC.
#[local] Open Scope Z_scope.

Module Vfs.

Definition MAX_VNODES : Z := 128.
Definition MAX_FDS : Z := 64.
Definition SEEK_SET : Z := 0.
Definition SEEK_CUR : Z := 1.
Definition SEEK_END : Z := 2.
(** [sizeof(file_t)] and [sizeof(fd_table_t)] *)
Definition SIZEOF_FILE : Z := 16.
Definition SIZEOF_FD_TABLE : Z := 512.

Inductive vnode_type := VNODE_REG | VNODE_DIR | VNODE_CHR | VNODE_BLK.
#[global] Instance vnode_type_eq_dec : EqDecision vnode_type.
Proof. solve_decision. Defined.

Record vnode := MkVnode {
  name : list Z;           (* 64 bytes *)
  vtype : vnode_type;
  ops : Z;
  v_ops : Z;
  private_data : Z;
  vsize : Z;
  parent : Z;
  children : Z;
  next : Z
}.
Definition zero_vnode : vnode := MkVnode (replicate 64 0) VNODE_REG 0 0 0 0 0 0 0.
Definition set_children (v : Z) (n : vnode) : vnode :=
  MkVnode (name n) (vtype n) (ops n) (v_ops n) (private_data n) (vsize n) (parent n) v (next n).
Definition set_parent (v : Z) (n : vnode) : vnode :=
  MkVnode (name n) (vtype n) (ops n) (v_ops n) (private_data n) (vsize n) v (children n) (next n).
Definition set_next (v : Z) (n : vnode) : vnode :=
  MkVnode (name n) (vtype n) (ops n) (v_ops n) (private_data n) (vsize n) (parent n) (children n) v.
Definition set_ops (v : Z) (n : vnode) : vnode :=
  MkVnode (name n) (vtype n) v (v_ops n) (private_data n) (vsize n) (parent n) (children n) (next n).

(** [file_t] *)
Record file := MkFile { fvnode : Z; offset : Z }.

Record vfs (E : Type) := MkVfs {
  node_pool : list vnode;          (* the entries below [node_count] *)
  root : Z;
  files : gmap Z file;
  tables : gmap Z (list Z);
  venv : E
}.
Arguments MkVfs {E}. Arguments node_pool {E}. Arguments root {E}. Arguments files {E}.
Arguments tables {E}. Arguments venv {E}.

(** [for (i = 0; i < 63 && name[i]; i++) n->name[i] = name[i]], on zeroed bytes;
    a string is the list of its characters *)
Fixpoint copy_name (n : nat) (i : Z) (dst src : list Z) : list Z :=
  match n with
  | O => dst
  | S n' => if rd src i =? 0 then dst else copy_name n' (i + 1) (wr dst i (rd src i)) src
  end.

(** [name_match]: the first [len] characters and the end of the name *)
Fixpoint match_loop (n : nat) (i : Z) (node_name s : list Z) : bool :=
  match n with
  | O => rd node_name i =? 0
  | S n' => if negb (rd node_name i =? rd s i) then false else match_loop n' (i + 1) node_name s
  end.
Definition name_match (node_name s : list Z) : bool := match_loop (length s) 0 node_name s.

Definition SLASH : Z := 47.
Definition DOT : Z := 46.
Fixpoint skip_slashes (p : list Z) : list Z :=
  match p with
  | c :: p' => if c =? SLASH then skip_slashes p' else p
  | [] => []
  end.
(** The characters up to the next slash, and the rest. *)
Fixpoint span (p : list Z) : list Z * list Z :=
  match p with
  | c :: p' => if negb (c =? SLASH) then let '(a, b) := span p' in (c :: a, b) else ([], p)
  | [] => ([], [])
  end.

(** ** The file system behind a directory *)
Class Lookup (E : Type) := {
  fs_lookup : Z -> Z -> list Z -> vfs E -> Z * vfs E     (* v_ops, directory, name *)
}.

Section ops.
Context {E : Type} `{TaskEnv E} `{Lookup E}.
Implicit Types s : vfs E.

Definition node s (p : Z) : vnode := nth (Z.to_nat (p - 1)) (node_pool s) zero_vnode.
Definition put_node s (p : Z) (f : vnode -> vnode) : vfs E :=
  MkVfs (<[Z.to_nat (p - 1) := f (node s p)]> (node_pool s)) (root s) (files s) (tables s) (venv s).
Definition node_count s : Z := Z.of_nat (length (node_pool s)).
Definition set_venv s (e : E) : vfs E := MkVfs (node_pool s) (root s) (files s) (tables s) e.

Definition alloc_vnode (nm : list Z) (ty : vnode_type) s : Z * vfs E :=
  if MAX_VNODES <=? node_count s then (0, s)
  else
    let n := MkVnode (copy_name 63 0 (replicate 64 0) nm) ty 0 0 0 0 0 0 0 in
    (node_count s + 1, MkVfs (node_pool s ++ [n]) (root s) (files s) (tables s) (venv s)).

Definition vfs_init s : vfs E :=
  let '(n, s) := alloc_vnode [SLASH] VNODE_DIR s in
  MkVfs (node_pool s) n (files s) (tables s) (venv s).
Definition vfs_root s : Z := root s.

Definition vfs_create_node (par : Z) (nm : list Z) (ty : vnode_type) s : Z * vfs E :=
  let '(n, s) := alloc_vnode nm ty s in
  if n =? 0 then (0, s)
  else
    let s := put_node s n (set_parent par) in
    let s := if negb (par =? 0)
             then put_node (put_node s n (set_next (children (node s par)))) par (set_children n)
             else s in
    (n, s).

(** The walk over the children; a pool of [n] nodes has chains of at most [n]. *)
Fixpoint child_loop (fuel : nat) (c : Z) (nm : list Z) s : Z :=
  match fuel with
  | O => 0
  | S f =>
      if c =? 0 then 0
      else if name_match (name (node s c)) nm then c
      else child_loop f (next (node s c)) nm s
  end.
Definition find_child (dir : Z) (nm : list Z) s : Z * vfs E :=
  let c := child_loop (S (length (node_pool s))) (children (node s dir)) nm s in
  if negb (c =? 0) then (c, s)
  else if negb (v_ops (node s dir) =? 0) then fs_lookup (v_ops (node s dir)) dir nm s
  else (0, s).

(** The loop of [vfs_resolve]; every round consumes a character. *)
Fixpoint resolve_loop (fuel : nat) (cur : Z) (path : list Z) s : Z * vfs E :=
  match fuel with
  | O => (cur, s)
  | S f =>
      match skip_slashes path with
      | [] => (cur, s)
      | p =>
          let '(comp, rest) := span p in
          if negb (bool_decide (vtype (node s cur) = VNODE_DIR)) then (0, s)
          else if bool_decide (comp = [DOT]) then resolve_loop f cur rest s
          else if bool_decide (comp = [DOT; DOT]) then
            resolve_loop f (if negb (parent (node s cur) =? 0) then parent (node s cur) else cur) rest s
          else
            let '(child, s) := find_child cur comp s in
            if child =? 0 then (0, s) else resolve_loop f child rest s
      end
  end.
Definition vfs_resolve (path : list Z) s : Z * vfs E :=
  match path with
  | c :: path' => if negb (c =? SLASH) then (0, s) else resolve_loop (S (length path')) (root s) path' s
  | [] => (0, s)
  end.

Definition dev_path : list Z := [47; 100; 101; 118].    (* "/dev" *)
Definition register_dev (nm : list Z) (ty : vnode_type) (fops : Z) s : Z * vfs E :=
  let '(dev, s) := vfs_resolve dev_path s in
  let '(dev, s) := if dev =? 0 then vfs_create_node (vfs_root s) (tail dev_path) VNODE_DIR s else (dev, s) in
  let '(n, s) := vfs_create_node dev nm ty s in
  (n, if negb (n =? 0) then put_node s n (set_ops fops) else s).
Definition vfs_register_chardev (nm : list Z) (fops : Z) s : Z * vfs E := register_dev nm VNODE_CHR fops s.
Definition vfs_register_blockdev (nm : list Z) (fops : Z) s : Z * vfs E := register_dev nm VNODE_BLK fops s.

(** ** fd tables *)
Definition fds s (t : Z) : list Z := default [] (tables s !! t).
Definition get_file s (f : Z) : file := default (MkFile 0 0) (files s !! f).
Definition set_table s (t : Z) (l : list Z) : vfs E :=
  MkVfs (node_pool s) (root s) (files s) (<[t := l]> (tables s)) (venv s).
Definition set_file s (f : Z) (v : file) : vfs E :=
  MkVfs (node_pool s) (root s) (<[f := v]> (files s)) (tables s) (venv s).
Definition drop_file s (f : Z) : vfs E :=
  MkVfs (node_pool s) (root s) (delete f (files s)) (tables s) (te_kfree f (venv s)).

Definition fd_table_create s : Z * vfs E :=
  let '(t, e) := te_kmalloc SIZEOF_FD_TABLE (venv s) in
  let s := set_venv s e in
  if negb (t =? 0) then (t, set_table s t (replicate 64 0)) else (0, s).

Fixpoint destroy_loop (l : list Z) s : vfs E :=
  match l with
  | [] => s
  | f :: l' => destroy_loop l' (if negb (f =? 0) then drop_file s f else s)
  end.
Definition fd_table_destroy (t : Z) s : vfs E :=
  if t =? 0 then s
  else
    let s := destroy_loop (fds s t) s in
    MkVfs (node_pool s) (root s) (files s) (delete t (tables s)) (te_kfree t (venv s)).

Fixpoint fd_loop (i : Z) (l : list Z) : Z :=
  match l with
  | [] => -1
  | f :: l' => if f =? 0 then i else fd_loop (i + 1) l'
  end.
Definition alloc_fd (t : Z) s : Z := fd_loop 0 (fds s t).

Definition fd_open (t : Z) (path : list Z) s : Z * vfs E :=
  let '(n, s) := vfs_resolve path s in
  if n =? 0 then (-1, s)
  else
    let fd := alloc_fd t s in
    if fd <? 0 then (-1, s)
    else
      let '(f, e) := te_kmalloc SIZEOF_FILE (venv s) in
      let s := set_venv s e in
      if f =? 0 then (-1, s)
      else
        let s := set_file s f (MkFile n 0) in
        (fd, set_table s t (wr (fds s t) fd f)).

(** [fd < 0 || fd >= MAX_FDS || !t->fds[fd]] *)
Definition bad_fd (t fd : Z) s : bool := (fd <? 0) || (MAX_FDS <=? fd) || (rd (fds s t) fd =? 0).

Definition fd_close (t fd : Z) s : Z * vfs E :=
  if bad_fd t fd s then (-1, s)
  else
    let s := drop_file s (rd (fds s t) fd) in
    (0, set_table s t (wr (fds s t) fd 0)).

Definition fd_seek (t fd off whence : Z) s : Z * vfs E :=
  if bad_fd t fd s then (-1, s)
  else
    let f := rd (fds s t) fd in
    let n := node s (fvnode (get_file s f)) in
    if bool_decide (vtype n = VNODE_CHR) then (-1, s)
    else
      let new_off :=
        if whence =? SEEK_SET then Some off
        else if whence =? SEEK_CUR then Some (s64 (offset (get_file s f) + off))
        else if whence =? SEEK_END then
          if negb (bool_decide (vtype n = VNODE_REG)) then None else Some (s64 (s64 (vsize n) + off))
        else None in
      match new_off with
      | None => (-1, s)
      | Some v => if v <? 0 then (-1, s) else (v, set_file s f (MkFile (fvnode (get_file s f)) v))
      end.
End ops.

(** ** Dispatch to the drivers

    [fo_read k] is [None] when the vtable [k] has no read entry; the driver
    gets the vnode, the open file and its own world [W] (buffers and devices). *)
Class FileOps (E W : Type) := {
  fo_read : Z -> option (Z -> Z -> Z -> Z -> vfs E * W -> Z * (vfs E * W));
  fo_write : Z -> option (Z -> Z -> Z -> Z -> vfs E * W -> Z * (vfs E * W));
  fo_ioctl : Z -> option (Z -> Z -> Z -> Z -> vfs E * W -> Z * (vfs E * W))
}.

Section dispatch.
Context {E W : Type} `{TaskEnv E} `{FileOps E W}.

(** The part that [fd_read], [fd_write] and [fd_ioctl] share; [a] and [b] are
    the buffer and the count, or the command and its argument. *)
Definition dispatch (entry : Z -> option (Z -> Z -> Z -> Z -> vfs E * W -> Z * (vfs E * W)))
  (t fd a b : Z) (sw : vfs E * W) : Z * (vfs E * W) :=
  let s := sw.1 in
  if bad_fd t fd s then (-1, sw)
  else
    let f := rd (fds s t) fd in
    let n := fvnode (get_file s f) in
    let o := ops (node s n) in
    if o =? 0 then (-1, sw)
    else match entry o with None => (-1, sw) | Some op => op n f a b sw end.

Definition fd_read (t fd buf count : Z) (sw : vfs E * W) : Z * (vfs E * W) := dispatch fo_read t fd buf count sw.
Definition fd_write (t fd buf count : Z) (sw : vfs E * W) : Z * (vfs E * W) := dispatch fo_write t fd buf count sw.
Definition fd_ioctl (t fd cmd arg : Z) (sw : vfs E * W) : Z * (vfs E * W) := dispatch fo_ioctl t fd cmd arg sw.
End dispatch.

(** ** Paths *)

(** The reference: split at the slashes, drop the empty parts. *)
Fixpoint split_at (p : list Z) : list (list Z) :=
  match p with
  | [] => [[]]
  | c :: p' =>
      if c =? SLASH then [] :: split_at p'
      else match split_at p' with x :: r => (c :: x) :: r | [] => [[c]] end
  end.
Definition components (p : list Z) : list (list Z) := filter (fun x => x <> []) (split_at p).

Lemma split_at_ne p : split_at p <> [].
Proof. destruct p as [|c p]; cbn; [done|]. case_if; [done|]. by destruct (split_at p). Qed.

Lemma components_slash p : components (SLASH :: p) = components p.
Proof. unfold components. cbn [split_at]. rewrite Z.eqb_refl, filter_cons_False by tauto. done. Qed.

Lemma components_skip p : components (skip_slashes p) = components p.
Proof.
  induction p as [|c p IH]; [done|]. cbn [skip_slashes].
  destruct (Z.eqb_spec c SLASH) as [->|]; [|done]. by rewrite components_slash.
Qed.

Lemma span_spec p a b :
  span p = (a, b) -> p = a ++ b /\ SLASH ∉ a /\ (b = [] \/ exists b', b = SLASH :: b').
Proof.
  revert a b. induction p as [|c p IH]; intros a b; cbn [span].
  { intros [= <- <-]. split; [done|]. split; [apply not_elem_of_nil|by left]. }
  destruct (Z.eqb_spec c SLASH) as [->|Hc]; cbn [negb].
  { intros [= <- <-]. split; [done|]. split; [apply not_elem_of_nil|right; by exists p]. }
  destruct (span p) as [a' b']. intros [= <- <-]. destruct (IH a' b' eq_refl) as (-> & Hn & Hb).
  split; [done|]. split; [|done]. rewrite not_elem_of_cons. done.
Qed.

Lemma split_at_app a b :
  SLASH ∉ a -> split_at (a ++ SLASH :: b) = a :: split_at b.
Proof.
  induction a as [|c a IH]; intros Hn; cbn [app split_at]; [by rewrite Z.eqb_refl|].
  apply not_elem_of_cons in Hn as [Hc Hn]. rewrite IH by done. destruct (Z.eqb_spec c SLASH); [congruence|done].
Qed.
Lemma split_at_one a : SLASH ∉ a -> split_at a = [a].
Proof.
  induction a as [|c a IH]; intros Hn; cbn [split_at]; [done|].
  apply not_elem_of_cons in Hn as [Hc Hn]. rewrite IH by done. destruct (Z.eqb_spec c SLASH); [congruence|done].
Qed.

Lemma components_span p a b : span p = (a, b) -> a <> [] -> components p = a :: components b.
Proof.
  intros Hs Ha. destruct (span_spec _ _ _ Hs) as (-> & Hn & Hb). unfold components. destruct Hb as [->|[b' ->]].
  - rewrite app_nil_r, split_at_one by done. rewrite filter_cons_True by done. done.
  - by rewrite split_at_app, filter_cons_True by done.
Qed.

Lemma components_app p a : SLASH ∉ a -> a <> [] -> components (p ++ SLASH :: a) = components p ++ [a].
Proof.
  intros Hn Ha. induction p as [|c p IH]; cbn [app].
  { rewrite components_slash. unfold components. rewrite split_at_one, filter_cons_True by done. done. }
  destruct (Z.eqb_spec c SLASH) as [->|Hc]; [by rewrite !components_slash|].
  revert IH. unfold components. cbn [split_at]. destruct (Z.eqb_spec c SLASH); [congruence|].
  destruct (split_at p) as [|x r] eqn:Ex; [by apply split_at_ne in Ex|].
  destruct (split_at (p ++ SLASH :: a)) as [|y q] eqn:Ey; [by apply split_at_ne in Ey|].
  assert (y = x) as ->.
  { revert Ex Ey. clear. revert x r y q. induction p as [|d p IH]; intros x r y q; cbn [app split_at].
    - rewrite Z.eqb_refl. congruence.
    - case_if; [congruence|]. destruct (split_at p) as [|x' r'] eqn:Ex'; [by apply split_at_ne in Ex'|].
      destruct (split_at (p ++ SLASH :: a)) as [|y' q'] eqn:Ey'; [by apply split_at_ne in Ey'|].
      intros [= <- <-] [= <- <-]. f_equal. by eapply IH. }
  rewrite !(filter_cons_True _ (c :: x)) by done. cbn [app]. intros Heq. f_equal.
  destruct (decide (x = [])) as [->|Hx]; [by rewrite !filter_cons_False in Heq by tauto|].
  rewrite !filter_cons_True in Heq by done. by injection Heq.
Qed.

(** ** Names *)
Definition valid_name (nm : list Z) : Prop :=
  nm <> [] /\ 0 ∉ nm /\ SLASH ∉ nm /\ (length nm <= 63)%nat /\ nm <> [DOT] /\ nm <> [DOT; DOT].

Lemma copy_name_spec n i dst src k :
  0 <= i -> Z.of_nat n + i <= Z.of_nat (length dst) -> 0 ∉ src -> 0 <= k -> Z.of_nat (length src) <= i + Z.of_nat n ->
  rd (copy_name n i dst src) k = if (i <=? k) && (k <? Z.of_nat (length src)) then rd src k else rd dst k.
Proof.
  revert i dst. induction n as [|n IH]; intros i dst Hi Hn Hz Hk Hl; cbn [copy_name].
  { destruct (Z.leb_spec i k), (Z.ltb_spec k (Z.of_nat (length src))); cbn [andb]; try done. lia. }
  destruct (decide (i < Z.of_nat (length src))) as [Hlt|Hge].
  - assert (rd src i <> 0) as Hne.
    { intros H0'. apply Hz. rewrite <- H0'. unfold rd. rewrite nth_lookup.
      destruct (src !! Z.to_nat i) eqn:Es; [by eapply list_elem_of_lookup_2|]. apply lookup_ge_None in Es. lia. }
    destruct (Z.eqb_spec (rd src i) 0); [done|]. rewrite IH by (rewrite ?length_wr; lia || done).
    destruct (decide (k = i)) as [->|].
    + rewrite rd_wr_eq by lia. repeat case_if; done || lia.
    + rewrite rd_wr_ne by lia. repeat case_if; done || lia.
  - assert (rd src i = 0) as ->.
    { unfold rd. apply nth_overflow. lia. }
    cbn [Z.eqb]. repeat case_if; done || lia.
Qed.

Lemma match_loop_spec n i a s :
  match_loop n i a s = true <->
  (forall k, i <= k < i + Z.of_nat n -> rd a k = rd s k) /\ rd a (i + Z.of_nat n) = 0.
Proof.
  revert i. induction n as [|n IH]; intros i; cbn [match_loop].
  { rewrite Z.eqb_eq. replace (i + Z.of_nat 0) with i by lia. split; [intros ?; split; [lia|done]|by intros [_ ?]]. }
  replace (i + Z.of_nat (S n)) with (i + 1 + Z.of_nat n) by lia.
  destruct (Z.eqb_spec (rd a i) (rd s i)) as [He|He]; cbn [negb].
  - rewrite IH. split; intros [Hk H0']; (split; [|done]); intros k Hkr; [|apply Hk; lia].
    destruct (decide (k = i)) as [->|]; [done|apply Hk; lia].
  - split; [done|]. intros [Hk _]. exfalso. apply He, Hk. lia.
Qed.

Definition stored (nm : list Z) : list Z := copy_name 63 0 (replicate 64 0) nm.
Lemma stored_rd nm k : 0 ∉ nm -> (length nm <= 63)%nat -> 0 <= k < 64 -> rd (stored nm) k = rd nm k.
Proof.
  intros Hz Hl Hk. unfold stored. rewrite copy_name_spec by (rewrite ?length_replicate; lia || done).
  destruct (Z.leb_spec 0 k); [|lia]. cbn [andb]. case_if; [done|]. rewrite rd_replicate by lia.
  symmetry. unfold rd. apply nth_overflow. lia.
Qed.

Lemma rd_nz l i : 0 ∉ l -> 0 <= i < Z.of_nat (length l) -> rd l i <> 0.
Proof.
  intros Hz Hi H0'. apply Hz. rewrite <- H0'. unfold rd. rewrite nth_lookup.
  destruct (l !! Z.to_nat i) eqn:Es; [by eapply list_elem_of_lookup_2|]. apply lookup_ge_None in Es. lia.
Qed.
Lemma rd_out l i : Z.of_nat (length l) <= i -> rd l i = 0.
Proof. intros. unfold rd. apply nth_overflow. lia. Qed.

(** A stored name matches exactly the component it was made from. *)
Lemma name_match_stored nm comp :
  0 ∉ nm -> (length nm <= 63)%nat -> 0 ∉ comp -> name_match (stored nm) comp = bool_decide (comp = nm).
Proof.
  intros Hz Hl Hc. apply eq_bool_prop_intro. rewrite bool_decide_spec. unfold name_match.
  rewrite Is_true_true, match_loop_spec. split.
  - intros [Hk H0']. cbn [Z.add] in *.
    assert (length comp <= length nm)%nat as Hle.
    { destruct (decide (length comp <= length nm)%nat) as [|Hgt]; [done|]. exfalso.
      apply (rd_nz comp (Z.of_nat (length nm)) Hc); [lia|]. rewrite <- (Hk (Z.of_nat (length nm))) by lia.
      rewrite stored_rd by (done || lia). by apply rd_out. }
    assert (length nm <= length comp)%nat as Hge.
    { destruct (decide (length nm <= length comp)%nat) as [|Hgt]; [done|]. exfalso.
      apply (rd_nz nm (0 + Z.of_nat (length comp)) Hz); [lia|]. rewrite <- stored_rd by (done || lia). done. }
    apply list_eq_same_length with (length nm); [lia|lia|]. intros i x y Hi Hx Hy.
    specialize (Hk (Z.of_nat i) ltac:(lia)). rewrite stored_rd in Hk by (done || lia).
    unfold rd in Hk. rewrite Nat2Z.id, !nth_lookup, Hx, Hy in Hk. done.
  - intros ->. split; [intros k Hk; apply stored_rd; done || lia|]. rewrite stored_rd by (done || lia).
    apply rd_out. lia.
Qed.

(** ** The tree *)
Section tree.
Context {E : Type} `{TaskEnv E} `{Lookup E}.
Implicit Types s : vfs E.

Definition is_node s (p : Z) : Prop := 1 <= p <= node_count s.
Definition is_dir s (p : Z) : bool := bool_decide (vtype (node s p) = VNODE_DIR).

(** Links stay in the pool, and the sibling list runs towards older nodes. *)
Record tree_ok s : Prop := {
  tr_count : node_count s <= MAX_VNODES;
  tr_root : is_node s (root s);
  tr_next p : is_node s p -> 0 <= next (node s p) < p;
  tr_children p : is_node s p -> 0 <= children (node s p) <= node_count s;
  tr_parent p : is_node s p -> 0 <= parent (node s p) <= node_count s
}.

(** The child of [dir] with that name in the cache. *)
Definition cached s (dir : Z) (comp : list Z) : Z :=
  child_loop (S (length (node_pool s))) (children (node s dir)) comp s.

(** Following the components from [cur], in the cache; 0 when there is no way. *)
Fixpoint walk s (cur : Z) (comps : list (list Z)) : Z :=
  match comps with
  | [] => cur
  | c :: cs =>
      if negb (is_dir s cur) then 0
      else if bool_decide (c = [DOT]) then walk s cur cs
      else if bool_decide (c = [DOT; DOT])
           then walk s (if parent (node s cur) =? 0 then cur else parent (node s cur)) cs
      else if cached s cur c =? 0 then 0 else walk s (cached s cur c) cs
  end.

Lemma find_child_cached s dir comp :
  cached s dir comp <> 0 \/ v_ops (node s dir) = 0 -> find_child dir comp s = (cached s dir comp, s).
Proof.
  intros Hc. unfold find_child. fold (cached s dir comp).
  destruct (Z.eqb_spec (cached s dir comp) 0) as [Hz|]; cbn [negb]; [|done].
  destruct Hc as [Hc| ->]; [done|]. by rewrite Z.eqb_refl, Hz.
Qed.

Lemma skip_not_slash p c q : skip_slashes p = c :: q -> c <> SLASH /\ (length (c :: q) <= length p)%nat.
Proof.
  induction p as [|d p IH]; cbn [skip_slashes]; [done|]. destruct (Z.eqb_spec d SLASH).
  - intros [? ?]%IH. split; [done|]. cbn [length] in *. lia.
  - intros [= -> ->]. done.
Qed.

(** With no file system behind the directories, or on a path that is cached,
    resolution is the walk. *)
Lemma resolve_loop_walk f cur path s :
  (length path < f)%nat ->
  walk s cur (components path) <> 0 \/ (forall p, v_ops (node s p) = 0) ->
  resolve_loop f cur path s = (walk s cur (components path), s).
Proof.
  revert cur path. induction f as [|f IH]; intros cur path Hf Hw; [lia|]. cbn [resolve_loop].
  rewrite <- (components_skip path) in *. destruct (skip_slashes path) as [|c p] eqn:Hsk; [done|].
  destruct (skip_not_slash _ _ _ Hsk) as [Hc Hlen].
  destruct (span (c :: p)) as [comp rest] eqn:Hsp.
  assert (comp <> []) as Hne.
  { intros ->. destruct (span_spec _ _ _ Hsp) as (Heq & _ & [->|[b ->]]); [done|]. cbn in Heq. congruence. }
  rewrite (components_span _ _ _ Hsp Hne) in *. cbn [walk] in *. fold (is_dir s cur).
  destruct (span_spec _ _ _ Hsp) as (Heq & _ & _). rewrite Heq, length_app in Hlen.
  assert (length rest < f)%nat as Hr by (destruct comp; [done|cbn [length] in *; lia]).
  destruct (is_dir s cur); cbn [negb] in *; [|done].
  case_bool_decide; [by apply IH|]. case_bool_decide.
  - destruct (parent (node s cur) =? 0); cbn [negb]; by apply IH.
  - rewrite find_child_cached; [|destruct Hw as [Hw|Hw]; [left|by right]].
    + destruct (cached s cur comp =? 0); [done|by apply IH].
    + intros Hz. by rewrite Hz in Hw.
Qed.

Lemma resolve_walk path s :
  walk s (root s) (components path) <> 0 \/ (forall p, v_ops (node s p) = 0) ->
  vfs_resolve (SLASH :: path) s = (walk s (root s) (components path), s).
Proof. intros Hw. unfold vfs_resolve. rewrite Z.eqb_refl. cbn [negb]. apply resolve_loop_walk; [lia|done]. Qed.

(** Enough fuel is any number above the pointer. *)
Lemma child_loop_fuel f g c nm s :
  tree_ok s -> 0 <= c <= node_count s -> (Z.to_nat c < f)%nat -> (Z.to_nat c < g)%nat ->
  child_loop f c nm s = child_loop g c nm s.
Proof.
  intros Hok. revert g c. induction f as [|f IH]; intros g c Hc Hf Hg; [lia|]. destruct g as [|g]; [lia|].
  cbn [child_loop]. destruct (Z.eqb_spec c 0); [done|]. case_if; [done|].
  pose proof (tr_next _ Hok c ltac:(unfold is_node; lia)). apply IH; lia.
Qed.

Lemma node_put_eq s p f : is_node s p -> node (put_node s p f) p = f (node s p).
Proof.
  unfold is_node, node_count. intros Hp. unfold node, put_node. cbn [node_pool].
  by rewrite nth_lookup, list_lookup_insert_eq by lia.
Qed.
Lemma node_put_ne s p q f : 1 <= p -> 1 <= q -> p <> q -> node (put_node s p f) q = node s q.
Proof.
  intros. unfold node, put_node. cbn [node_pool]. by rewrite !nth_lookup, list_lookup_insert_ne by lia.
Qed.
Lemma count_put s p f : node_count (put_node s p f) = node_count s.
Proof. unfold node_count, put_node. cbn [node_pool]. by rewrite length_insert. Qed.

(** What [vfs_create_node] leaves. *)
Lemma create_node_spec par nm ty s n s' :
  tree_ok s -> is_node s par -> vfs_create_node par nm ty s = (n, s') -> n <> 0 ->
  n = node_count s + 1 /\ node_count s' = n /\ root s' = root s /\
  node s' n = MkVnode (stored nm) ty 0 0 0 0 par 0 (children (node s par)) /\
  node s' par = set_children n (node s par) /\
  (forall p, is_node s p -> p <> par -> node s' p = node s p).
Proof.
  intros Hok Hp. pose proof Hp as Hp'. unfold is_node in Hp'. unfold vfs_create_node, alloc_vnode.
  destruct (Z.leb_spec MAX_VNODES (node_count s)); [by intros [= <- <-]|].
  set (v := MkVnode _ _ _ _ _ _ _ _ _).
  set (s1 := MkVfs (node_pool s ++ [v]) (root s) (files s) (tables s) (venv s)).
  assert (node_count s1 = node_count s + 1) as Hc1 by (unfold node_count; cbn; rewrite length_app; cbn; lia).
  assert (forall p, is_node s p -> node s1 p = node s p) as Hold.
  { unfold is_node, node_count. intros p Hpn. unfold node. cbn [node_pool s1].
    by rewrite !nth_lookup, lookup_app_l by lia. }
  assert (node s1 (node_count s + 1) = v) as Hnew.
  { unfold node, node_count. cbn [node_pool s1]. rewrite nth_lookup, list_lookup_middle by lia. done. }
  destruct (Z.eqb_spec (node_count s + 1) 0); [lia|]. destruct (Z.eqb_spec par 0); [lia|]. cbn [negb].
  intros [= <- <-] _. set (n := node_count s + 1) in *.
  assert (is_node s1 n) as Hn1 by (unfold is_node; lia). assert (par <> n) by lia.
  split; [done|]. split; [by rewrite !count_put|]. split; [done|].
  set (s2 := put_node s1 n (set_parent par)).
  assert (node s2 par = node s par) as Hpar by (unfold s2; rewrite node_put_ne, Hold by (done || lia); done).
  assert (node s2 n = set_parent par v) as Hn2 by (unfold s2; rewrite node_put_eq, Hnew by done; done).
  assert (is_node s2 n /\ is_node s2 par) as [? ?] by (unfold is_node, s2; rewrite count_put; lia).
  set (s3 := put_node s2 n _).
  assert (is_node s3 par) by (unfold is_node, s3; rewrite count_put; done).
  split; [|split].
  - rewrite node_put_ne by lia. unfold s3. rewrite node_put_eq, Hn2, Hpar by done. done.
  - rewrite node_put_eq by done. unfold s3. rewrite node_put_ne, Hpar by lia. done.
  - intros p Hpn Hne. pose proof Hpn as Hpn'. unfold is_node in Hpn'.
    rewrite node_put_ne by lia. unfold s3. rewrite node_put_ne by lia. unfold s2. rewrite node_put_ne by lia. by apply Hold.
Qed.

Lemma child_loop_node f c nm s :
  tree_ok s -> 0 <= c <= node_count s -> 0 <= child_loop f c nm s <= node_count s.
Proof.
  intros Hok. revert c. induction f as [|f IH]; intros c Hc; cbn [child_loop]; [lia|].
  destruct (Z.eqb_spec c 0); [lia|]. case_if; [lia|].
  pose proof (tr_next _ Hok c ltac:(unfold is_node; lia)). apply IH. lia.
Qed.
Lemma cached_node s p c : tree_ok s -> is_node s p -> cached s p c <> 0 -> is_node s (cached s p c).
Proof.
  intros Hok Hp Hne. pose proof (child_loop_node (S (length (node_pool s))) (children (node s p)) c s Hok
    (tr_children _ Hok p Hp)) as Hr. fold (cached s p c) in Hr. unfold is_node. lia.
Qed.
Lemma parent_node s p :
  tree_ok s -> is_node s p -> is_node s (if parent (node s p) =? 0 then p else parent (node s p)).
Proof.
  intros Hok Hp. pose proof (tr_parent _ Hok p Hp). unfold is_node in *.
  destruct (Z.eqb_spec (parent (node s p)) 0); lia.
Qed.

Lemma child_loop_frame f c nm s s' :
  tree_ok s -> 0 <= c <= node_count s ->
  (forall p, is_node s p -> name (node s' p) = name (node s p) /\ next (node s' p) = next (node s p)) ->
  child_loop f c nm s' = child_loop f c nm s.
Proof.
  intros Hok Hc Hs. revert c Hc. induction f as [|f IH]; intros c Hc; cbn [child_loop]; [done|].
  destruct (Z.eqb_spec c 0); [done|]. assert (is_node s c) as Hn by (unfold is_node; lia).
  destruct (Hs c Hn) as [-> ->]. case_if; [done|]. pose proof (tr_next _ Hok c Hn). apply IH. lia.
Qed.

Section creation.
Context (par n : Z) (nm : list Z) (ty : vnode_type) (s s' : vfs E).
Hypothesis (Hok : tree_ok s) (Hpar : is_node s par).
Hypothesis (Hcreate : vfs_create_node par nm ty s = (n, s')) (Hn : n <> 0).

Lemma create_is_node p : is_node s' p <-> is_node s p \/ p = n.
Proof.
  destruct (create_node_spec _ _ _ _ _ _ Hok Hpar Hcreate Hn) as (-> & Hc & _). unfold is_node. rewrite Hc.
  unfold node_count. lia.
Qed.

Lemma create_old p :
  is_node s p -> node s' p = set_children (if decide (p = par) then n else children (node s p)) (node s p).
Proof.
  destruct (create_node_spec _ _ _ _ _ _ Hok Hpar Hcreate Hn) as (_ & _ & _ & _ & Hp & Hrest). intros Hpn.
  case_decide as Hd; [by subst|]. rewrite Hrest by done. by destruct (node s p).
Qed.

Lemma create_tree_ok : tree_ok s'.
Proof.
  destruct (create_node_spec _ _ _ _ _ _ Hok Hpar Hcreate Hn) as (Heq & Hc & Hroot & Hnew & _ & _).
  pose proof Hok as [O1 O2 O3 O4 O5]. pose proof (O4 par Hpar). unfold is_node in Hpar.
  constructor.
  - revert Hcreate. unfold vfs_create_node, alloc_vnode. destruct (Z.leb_spec MAX_VNODES (node_count s)).
    + intros [= <- <-]. lia.
    + intros _. rewrite Hc. lia.
  - rewrite Hroot. apply create_is_node. by left.
  - intros p [Hp| ->]%create_is_node; [rewrite create_old by done; by apply O3|]. rewrite Hnew. cbn [next]. lia.
  - intros p [Hp| ->]%create_is_node; [|rewrite Hnew; cbn [children]; lia].
    rewrite create_old by done. cbn [children set_children]. pose proof (O4 p Hp). case_decide; lia.
  - intros p [Hp| ->]%create_is_node; [|rewrite Hnew; cbn [parent]; lia].
    rewrite create_old by done. cbn [parent set_children]. pose proof (O5 p Hp). lia.
Qed.

(** The new child is found first under its name; nothing else changes. *)
Lemma create_cached p c :
  is_node s p ->
  cached s' p c = if bool_decide (p = par) && name_match (stored nm) c then n else cached s p c.
Proof.
  intros Hp. destruct (create_node_spec _ _ _ _ _ _ Hok Hpar Hcreate Hn) as (Heq & Hc & _ & Hnew & _ & _).
  assert (length (node_pool s') = S (length (node_pool s))) as Hlen by (unfold node_count in *; lia).
  assert (forall f c0, 0 <= c0 <= node_count s -> child_loop f c0 c s' = child_loop f c0 c s) as Hframe.
  { intros f c0 Hc0. apply child_loop_frame; [done|done|]. intros q Hq. by rewrite create_old. }
  pose proof (tr_children _ Hok p Hp) as Hch. unfold node_count in Hch.
  unfold cached. rewrite Hlen, create_old by done. cbn [children set_children]. case_decide as Hd.
  - subst p. rewrite bool_decide_true by done. cbn [andb].
    change (child_loop (S (S (length (node_pool s)))) n c s') with
      (if n =? 0 then 0 else if name_match (name (node s' n)) c then n
       else child_loop (S (length (node_pool s))) (next (node s' n)) c s').
    destruct (Z.eqb_spec n 0); [done|]. rewrite Hnew. cbn [name next]. case_if; [done|]. apply Hframe. unfold node_count. lia.
  - rewrite bool_decide_false by done. cbn [andb]. rewrite Hframe by (unfold node_count; lia).
    apply child_loop_fuel; [done|unfold node_count; lia|lia|lia].
Qed.

(** Paths that led somewhere before lead to the same node. *)
Lemma create_walk cur comps :
  0 ∉ nm -> (length nm <= 63)%nat -> cached s par nm = 0 -> is_node s cur ->
  Forall (fun c => 0 ∉ c) comps -> walk s cur comps <> 0 -> walk s' cur comps = walk s cur comps.
Proof.
  intros Hz Hl Hnone. revert cur. induction comps as [|c comps IH]; intros cur Hcur Hcs Hw; [done|].
  apply Forall_cons in Hcs as [Hcz Hcs]. cbn [walk] in *. unfold is_dir in *. rewrite create_old by done.
  cbn [vtype parent set_children].
  destruct (bool_decide (vtype (node s cur) = VNODE_DIR)); cbn [negb] in *; [|done].
  case_bool_decide; [by apply IH|]. case_bool_decide; [apply IH; [by apply parent_node|done|done]|].
  rewrite create_cached by done. rewrite name_match_stored by done.
  destruct (Z.eqb_spec (cached s cur c) 0) as [|Hne]; [done|].
  destruct (decide (cur = par /\ c = nm)) as [[-> ->]|Hnot]; [done|].
  assert (bool_decide (cur = par) && bool_decide (c = nm) = false) as ->.
  { apply andb_false_iff. rewrite !bool_decide_eq_false. destruct (decide (cur = par)); [right|by left]. tauto. }
  destruct (Z.eqb_spec (cached s cur c) 0); [done|]. apply IH; [by apply cached_node|done|done].
Qed.
End creation.
End tree.

Section naming.
Context {E : Type} `{TaskEnv E} `{Lookup E}.
Implicit Types s : vfs E.

Lemma walk_app s cur cs ds : walk s cur cs <> 0 -> walk s cur (cs ++ ds) = walk s (walk s cur cs) ds.
Proof.
  revert cur. induction cs as [|c cs IH]; intros cur; [done|]. cbn [walk app]. repeat case_if; done || apply IH.
Qed.

Lemma components_nz path : 0 ∉ path -> Forall (fun c => 0 ∉ c) (components path).
Proof.
  intros Hz. apply Forall_forall. intros c [_ Hc]%list_elem_of_filter. revert c Hc.
  induction path as [|x path IH]; intros c; cbn [split_at].
  { intros ->%list_elem_of_singleton. apply not_elem_of_nil. }
  apply not_elem_of_cons in Hz as [Hx Hz]. specialize (IH Hz). case_if.
  { intros [->|Hc]%elem_of_cons; [apply not_elem_of_nil|by apply IH]. }
  destruct (split_at path) as [|y r]; [intros ->%list_elem_of_singleton; set_solver|].
  intros [->|Hc]%elem_of_cons.
  - rewrite not_elem_of_cons. split; [done|]. apply IH. left.
  - apply IH. by right.
Qed.

End naming.

(** ** fd tables: ownership *)

(** The open files a table refers to, and all of them. *)
Definition nz (l : list Z) : list Z := filter (fun f => f <> 0) l.
Definition handles (T : gmap Z (list Z)) : list Z := map_to_list T ≫= (fun p => nz p.2).

Lemma handles_delete T t l : T !! t = Some l -> handles T ≡ₚ nz l ++ handles (delete t T).
Proof.
  intros Ht. unfold handles. rewrite <- (map_to_list_delete T t l Ht). done.
Qed.
Lemma handles_insert T t l : handles (<[t := l]> T) ≡ₚ nz l ++ handles (delete t T).
Proof.
  rewrite (handles_delete (<[t := l]> T) t l) by apply lookup_insert_eq. by rewrite delete_insert_eq.
Qed.

Lemma wr_split l i : 0 <= i < Z.of_nat (length l) -> exists l1 l2,
  l = l1 ++ rd l i :: l2 /\ (forall v, wr l i v = l1 ++ v :: l2) /\ Z.of_nat (length l1) = i.
Proof.
  intros Hi. exists (take (Z.to_nat i) l), (drop (S (Z.to_nat i)) l).
  assert (l !! Z.to_nat i = Some (rd l i)) as Hl.
  { unfold rd. rewrite nth_lookup. destruct (l !! Z.to_nat i) eqn:El; [done|]. apply lookup_ge_None in El. lia. }
  split; [by rewrite take_drop_middle|]. split; [|rewrite length_take; lia].
  intros v. unfold wr. by rewrite insert_take_drop by lia.
Qed.
(** The handles after an entry of a table is set from [rd l i] to [v]. *)
Lemma nz_wr l i v :
  0 <= i < Z.of_nat (length l) -> exists r, nz l ≡ₚ nz [rd l i] ++ r /\ nz (wr l i v) ≡ₚ nz [v] ++ r.
Proof.
  intros Hi. destruct (wr_split l i Hi) as (l1 & l2 & Hl & Hw & _). exists (nz l1 ++ nz l2). split.
  - rewrite Hl at 1. unfold nz. by rewrite <- Permutation_middle, !filter_cons, filter_app; case_decide.
  - rewrite Hw. unfold nz. by rewrite <- Permutation_middle, !filter_cons, filter_app; case_decide.
Qed.

Lemma nz_0 : nz [0] = [].
Proof. unfold nz. by rewrite filter_cons_False by tauto. Qed.
Lemma nz_1 f : f <> 0 -> nz [f] = [f].
Proof. intros. unfold nz. by rewrite filter_cons_True by done. Qed.

Lemma fd_loop_spec i l :
  (fd_loop i l = -1 /\ 0 ∉ l) \/
  (exists l1 l2, l = l1 ++ 0 :: l2 /\ 0 ∉ l1 /\ fd_loop i l = i + Z.of_nat (length l1)).
Proof.
  revert i. induction l as [|x l IH]; intros i; cbn [fd_loop]; [left; split; [done|apply not_elem_of_nil]|].
  destruct (Z.eqb_spec x 0) as [->|Hx].
  { right. exists [], l. split; [done|]. split; [apply not_elem_of_nil|cbn; lia]. }
  destruct (IH (i + 1)) as [[-> Hn]|(l1 & l2 & -> & Hn & ->)]; [left|right].
  - split; [done|]. rewrite not_elem_of_cons. done.
  - exists (x :: l1), l2. split; [done|]. split; [rewrite not_elem_of_cons; done|cbn [length]; lia].
Qed.

Definition keys {A} (m : gmap Z A) : list Z := (map_to_list m).*1.
Lemma keys_insert {A} (m : gmap Z A) k v : m !! k = None -> keys (<[k := v]> m) ≡ₚ k :: keys m.
Proof. intros Hk. unfold keys. by rewrite (map_to_list_insert m k v Hk). Qed.
Lemma keys_update {A} (m : gmap Z A) k v w : m !! k = Some w -> keys (<[k := v]> m) ≡ₚ keys m.
Proof.
  intros Hk. unfold keys. rewrite <- (map_to_list_delete (<[k := v]> m) k v) by apply lookup_insert_eq.
  rewrite delete_insert_eq. by rewrite <- (map_to_list_delete m k w Hk).
Qed.
Lemma keys_delete {A} (m : gmap Z A) k w : m !! k = Some w -> keys m ≡ₚ k :: keys (delete k m).
Proof. intros Hk. unfold keys. by rewrite <- (map_to_list_delete m k w Hk). Qed.
Lemma elem_of_keys {A} (m : gmap Z A) k : k ∈ keys m <-> is_Some (m !! k).
Proof.
  unfold keys. rewrite list_elem_of_fmap. split.
  - intros ([k' v] & -> & Hin%elem_of_map_to_list). by exists v.
  - intros [v Hv]. exists (k, v). split; [done|]. by apply elem_of_map_to_list.
Qed.

(** The file system may keep memory for the nodes it creates, but touches
    neither the open files nor the tables. *)
Class LookupLaws (E : Type) `{TaskEnv E} `{Lookup E} := {
  lk_frame v dir nm (s : vfs E) r s' :
    fs_lookup v dir nm s = (r, s') ->
    files s' = files s /\ tables s' = tables s /\
    forall q, te_ok q (venv s) -> exists g, te_ok (g ⋆ q) (venv s')
}.

Section ownership.
Context {E : Type} `{TaskEnvLaws E} `{!Lookup E} `{!LookupLaws E}.
Implicit Types (s : vfs E) (F : res).

Definition fd_res s : res := MkRes (keys (tables s) ++ keys (files s)) [] [] [].

(** Tables have 64 entries; every open file is referred to by exactly one entry
    of one table; the heap blocks handed out for tables and files are exactly
    these, next to the resources [F] of everybody else. *)
Record fd_inv s F : Prop := {
  fi_len t l : tables s !! t = Some l -> length l = 64%nat;
  fi_files : handles (tables s) ≡ₚ keys (files s);
  fi_res : te_ok (fd_res s ⋆ F) (venv s)
}.

Lemma fd_blocks s F : fd_inv s F -> NoDup (keys (tables s) ++ keys (files s)) /\ 0 ∉ keys (tables s) ++ keys (files s).
Proof.
  intros Hi. destruct (te_blocks_ok _ _ (fi_res _ _ Hi)) as [Hnd Hz]. cbn [r_blocks res_app fd_res] in *.
  apply NoDup_app in Hnd as (? & _ & _). rewrite elem_of_app in Hz. tauto.
Qed.

(** Comparing ledgers comes down to the blocks. *)
Lemma fd_res_step s s' F p :
  p :: keys (tables s) ++ keys (files s) ≡ₚ keys (tables s') ++ keys (files s') ->
  hblock p ⋆ (fd_res s ⋆ F) ≡ fd_res s' ⋆ F.
Proof.
  intros Hp. split; [|done]. cbn [r_blocks fd_res res_app hblock app]. by rewrite <- Hp.
Qed.

(** A fresh block is none of ours. *)
Lemma fd_fresh_block s F p e :
  te_ok (hblock p ⋆ (fd_res s ⋆ F)) e -> tables s !! p = None /\ files s !! p = None.
Proof.
  intros Hok. destruct (te_blocks_ok _ _ Hok) as [Hnd _]. cbn [r_blocks res_app fd_res hblock app] in Hnd.
  apply NoDup_cons in Hnd as [Hn _]. rewrite !elem_of_app, !elem_of_keys in Hn.
  split; apply eq_None_not_Some; tauto.
Qed.

Lemma create_table_inv s F t s' :
  fd_inv s F -> fd_table_create s = (t, s') ->
  fd_inv s' F /\ files s' = files s /\
  ((t = 0 /\ tables s' = tables s) \/
   (t <> 0 /\ tables s !! t = None /\ tables s' = <[t := replicate 64 0]> (tables s))).
Proof.
  intros Hi. unfold fd_table_create, SIZEOF_FD_TABLE. destruct (te_kmalloc _ (venv s)) as [p e] eqn:Hk.
  apply (te_kmalloc_law (fd_res s ⋆ F)) in Hk as [[-> Hok]|[Hp Hok]]; [| |apply (fi_res _ _ Hi)|lia].
  - cbn [Z.eqb negb]. intros [= <- <-]. destruct Hi. by split; [constructor|split; [done|left]].
  - destruct (Z.eqb_spec p 0); [done|]. cbn [negb]. intros [= <- <-]. destruct (fd_fresh_block _ _ _ _ Hok) as [Ht _].
    split; [|split; [done|right; done]]. destruct Hi as [I1 I2 I3]. constructor; cbn [tables files venv set_table set_venv].
    + intros t l. destruct (decide (p = t)) as [->|]; [rewrite lookup_insert_eq; by intros [= <-]|].
      rewrite lookup_insert_ne by done. apply I1.
    + rewrite handles_insert, delete_id by done. exact I2.
    + eapply te_ok_proper; [|exact Hok]. apply fd_res_step. cbn [tables files set_table set_venv].
      by rewrite keys_insert.
Qed.

Lemma bad_fd_false t fd s F :
  fd_inv s F -> bad_fd t fd s = false ->
  exists l, tables s !! t = Some l /\ fds s t = l /\ 0 <= fd < Z.of_nat (length l) /\ rd l fd <> 0.
Proof.
  intros Hi. unfold bad_fd, MAX_FDS, fds. destruct (tables s !! t) as [l|] eqn:Ht; cbn [from_option id default].
  - pose proof (fi_len _ _ Hi _ _ Ht). intros Hb. exists l. split; [done|]. split; [done|]. lia.
  - unfold rd. destruct (Z.to_nat fd); cbn [nth]; by rewrite orb_true_r.
Qed.

Lemma handle_file s F t l fd :
  fd_inv s F -> tables s !! t = Some l -> 0 <= fd < Z.of_nat (length l) -> rd l fd <> 0 ->
  is_Some (files s !! rd l fd).
Proof.
  intros Hi Ht Hfd Hne. apply elem_of_keys. rewrite <- (fi_files _ _ Hi), (handles_delete _ _ _ Ht).
  apply elem_of_app. left. destruct (nz_wr l fd 0 Hfd) as (r & -> & _). rewrite nz_1 by done. left.
Qed.

Lemma close_inv s F t fd r s' :
  fd_inv s F -> fd_close t fd s = (r, s') ->
  fd_inv s' F /\
  ((r = -1 /\ s' = s /\ bad_fd t fd s = true) \/
   (r = 0 /\ bad_fd t fd s = false /\ files s' = delete (rd (fds s t) fd) (files s) /\
    tables s' = <[t := wr (fds s t) fd 0]> (tables s))).
Proof.
  intros Hi. unfold fd_close. destruct (bad_fd t fd s) eqn:Hb; [intros [= <- <-]; by split; [|left]|].
  destruct (bad_fd_false _ _ _ _ Hi Hb) as (l & Ht & Hl & Hfd & Hne). destruct (handle_file _ _ _ _ _ Hi Ht Hfd Hne) as [fl Hf].
  intros [= <- <-]. change (fds (drop_file s _) t) with (fds s t). rewrite Hl.
  split; [|right; done]. destruct (nz_wr l fd 0 Hfd) as (rr & Hr1 & Hr2). pose proof Hi as [I1 I2 I3].
  constructor; cbn [tables files venv set_table drop_file].
  - intros t' l'. destruct (decide (t = t')) as [<-|]; [rewrite lookup_insert_eq; intros [= <-]; rewrite length_wr; by eapply I1|].
    rewrite lookup_insert_ne by done. apply I1.
  - rewrite handles_insert, Hr2. apply (Permutation_cons_inv (a := rd l fd)).
    rewrite <- (keys_delete _ _ _ Hf), <- I2, (handles_delete _ _ _ Ht), Hr1. by rewrite nz_0, nz_1 by done.
  - apply te_kfree_law. eapply te_ok_proper; [|exact I3]. symmetry.
    set (s' := set_table _ _ _). apply (fd_res_step s' s). cbn [tables files s' set_table drop_file].
    rewrite (keys_update _ _ _ _ Ht), (keys_delete _ _ _ Hf). by rewrite Permutation_middle.
Qed.

(** Resolution does not touch the tables. *)
Lemma resolve_loop_frame f cur path s n s' :
  resolve_loop f cur path s = (n, s') ->
  files s' = files s /\ tables s' = tables s /\ forall q, te_ok q (venv s) -> exists g, te_ok (g ⋆ q) (venv s').
Proof.
  assert (forall s0 : vfs E, files s0 = files s0 /\ tables s0 = tables s0 /\
    forall q, te_ok q (venv s0) -> exists g, te_ok (g ⋆ q) (venv s0)) as Hid.
  { intros s0. split; [done|]. split; [done|]. intros q Hq. exists res0. eapply te_ok_proper; [|exact Hq]. by rewrite res_app_0. }
  revert cur path s. induction f as [|f IH]; intros cur path s; cbn [resolve_loop]; [intros [= <- <-]; apply Hid|].
  destruct (skip_slashes path); [intros [= <- <-]; apply Hid|]. destruct (span _) as [comp rest].
  case_if; [intros [= <- <-]; apply Hid|]. case_if; [apply IH|]. case_if; [apply IH|].
  destruct (find_child cur comp s) as [child s1] eqn:Hfc.
  assert (files s1 = files s /\ tables s1 = tables s /\
    forall q, te_ok q (venv s) -> exists g, te_ok (g ⋆ q) (venv s1)) as (Hf1 & Ht1 & Hg1).
  { revert Hfc. unfold find_child. case_if; [intros [= <- <-]; apply Hid|].
    case_if; [apply lk_frame|intros [= <- <-]; apply Hid]. }
  case_if; [intros [= <- <-]; done|]. intros (Hf & Ht & Hg)%IH. split; [congruence|]. split; [congruence|].
  intros q Hq. destruct (Hg1 q Hq) as [g1 Hq1]. destruct (Hg _ Hq1) as [g2 Hq2]. exists (g2 ⋆ g1).
  eapply te_ok_proper; [|exact Hq2]. by rewrite res_app_assoc.
Qed.

Lemma resolve_frame path s F n s' :
  fd_inv s F -> vfs_resolve path s = (n, s') ->
  exists g, fd_inv s' (g ⋆ F) /\ files s' = files s /\ tables s' = tables s.
Proof.
  intros Hi. assert (exists g, fd_inv s (g ⋆ F)) as [g0 Hi0].
  { exists res0. destruct Hi as [I1 I2 I3]. constructor; [done|done|]. eapply te_ok_proper; [|exact I3]. by rewrite res_app_0. }
  unfold vfs_resolve. destruct path as [|c path]; [intros [= <- <-]; by exists g0|].
  case_if; [intros [= <- <-]; by exists g0|]. intros (Hf & Ht & Hg)%resolve_loop_frame.
  destruct (Hg _ (fi_res _ _ Hi)) as [g Hok]. exists g. split; [|done]. destruct Hi as [I1 I2 I3].
  constructor; rewrite ?Ht, ?Hf; [done|done|]. eapply te_ok_proper; [|exact Hok].
  unfold fd_res. rewrite Ht, Hf. aac_reflexivity.
Qed.

Lemma open_inv s F t path fd s' :
  fd_inv s F -> is_Some (tables s !! t) -> fd_open t path s = (fd, s') ->
  exists g, fd_inv s' (g ⋆ F) /\
  ((fd = -1 /\ files s' = files s /\ tables s' = tables s) \/
   (0 <= fd < MAX_FDS /\ rd (fds s t) fd = 0 /\ (forall i, 0 <= i < fd -> rd (fds s t) i <> 0) /\
    exists f n, files s !! f = None /\ f <> 0 /\ n <> 0 /\ (vfs_resolve path s).1 = n /\
      files s' = <[f := MkFile n 0]> (files s) /\ tables s' = <[t := wr (fds s t) fd f]> (tables s))).
Proof.
  intros Hi [l Ht]. unfold fd_open. destruct (vfs_resolve path s) as [n s1] eqn:Hr.
  destruct (resolve_frame _ _ _ _ _ Hi Hr) as (g & Hi1 & Hf1 & Ht1). cbn [fst].
  destruct (Z.eqb_spec n 0); [intros [= <- <-]; exists g; by split; [|left]|].
  unfold alloc_fd, fds. rewrite Ht1, Ht. cbn [default from_option id].
  destruct (fd_loop_spec 0 l) as [[-> _]|(l1 & l2 & Hl & Hn1 & ->)]; [intros [= <- <-]; exists g; by split; [|left]|].
  destruct (Z.ltb_spec (0 + Z.of_nat (length l1)) 0); [lia|].
  destruct (te_kmalloc SIZEOF_FILE (venv s1)) as [f e] eqn:Hk.
  apply (te_kmalloc_law (fd_res s1 ⋆ (g ⋆ F))) in Hk as [[-> Hok]|[Hp Hok]];
    [| |apply (fi_res _ _ Hi1)|unfold SIZEOF_FILE; lia]; exists g.
  { cbn [Z.eqb] in *. simplify_eq. split; [|by left]. destruct Hi1. by constructor. }
  destruct (Z.eqb_spec f 0); [done|]. destruct (fd_fresh_block _ _ _ _ Hok) as [_ Hfn]. rewrite Hf1 in Hfn.
  match goal with Hx : (_, _) = (fd, s') |- _ => injection Hx as <- <- end. cbn [tables set_table set_file set_venv].
  rewrite Ht1, Ht. cbn [default from_option id]. set (i := 0 + Z.of_nat (length l1)) in *.
  pose proof (fi_len _ _ Hi _ _ Ht) as Hlen.
  assert (0 <= i < Z.of_nat (length l)) as Hir by (rewrite Hl, length_app; cbn; lia).
  assert (rd l i = 0) as Hri by (unfold rd; rewrite Hl, nth_lookup, list_lookup_middle by lia; done).
  split; [|right; split; [unfold MAX_FDS; lia|split; [done|split; [|exists f, n; cbn [files set_table set_file set_venv]; by rewrite Hf1]]]].
  2: { intros j Hj Hz. apply Hn1. rewrite <- Hz. unfold rd. rewrite Hl, nth_lookup, lookup_app_l by lia.
       destruct (l1 !! Z.to_nat j) eqn:Ej; [by eapply list_elem_of_lookup_2|]. apply lookup_ge_None in Ej. lia. }
  destruct (nz_wr l i f Hir) as (rr & Hr1 & Hr2). rewrite Hri in Hr1. destruct Hi1 as [I1 I2 I3].
  constructor; cbn [tables files venv set_table set_file set_venv]; rewrite ?Ht1, ?Hf1 in *.
  - intros t' l'. destruct (decide (t = t')) as [<-|]; [rewrite lookup_insert_eq; intros [= <-]; by rewrite length_wr|].
    rewrite lookup_insert_ne by done. apply I1.
  - rewrite handles_insert, Hr2, keys_insert by done. rewrite nz_1 by done. cbn [app].
    apply perm_skip. rewrite <- I2, (handles_delete _ _ _ Ht), Hr1. by rewrite nz_0.
  - eapply te_ok_proper; [|exact Hok]. apply fd_res_step. cbn [tables files set_table set_file set_venv]. rewrite Ht1, Hf1.
    rewrite (keys_update _ _ _ _ Ht), keys_insert by done. by rewrite Permutation_middle.
Qed.

Lemma destroy_loop_spec l rest s F :
  nz l ++ rest ≡ₚ keys (files s) -> te_ok (fd_res s ⋆ F) (venv s) ->
  let s' := destroy_loop l s in
  tables s' = tables s /\ keys (files s') ≡ₚ rest /\ te_ok (fd_res s' ⋆ F) (venv s').
Proof.
  revert s. induction l as [|f l IH]; intros s Hp Hok; cbn [destroy_loop]; cbv zeta.
  { split; [done|]. split; [by rewrite <- Hp|done]. }
  destruct (Z.eqb_spec f 0) as [->|Hf]; cbn [negb].
  { apply IH; [|done]. unfold nz in Hp. by rewrite filter_cons_False in Hp by tauto. }
  assert (nz (f :: l) = f :: nz l) as Hnz by (unfold nz; by rewrite filter_cons_True).
  rewrite Hnz in Hp. cbn [app] in Hp.
  assert (is_Some (files s !! f)) as [v Hv] by (apply elem_of_keys; rewrite <- Hp; left).
  apply (IH (drop_file s f)); cbn [files tables venv drop_file].
  - apply (Permutation_cons_inv (a := f)). by rewrite Hp, (keys_delete _ _ _ Hv).
  - apply te_kfree_law. eapply te_ok_proper; [|exact Hok]. symmetry. apply (fd_res_step (drop_file s f) s).
    cbn [tables files drop_file]. rewrite (keys_delete _ _ _ Hv). by rewrite Permutation_middle.
Qed.

Lemma destroy_inv s F t l :
  fd_inv s F -> tables s !! t = Some l ->
  fd_inv (fd_table_destroy t s) F /\ tables (fd_table_destroy t s) = delete t (tables s) /\
  keys (files s) ≡ₚ nz l ++ keys (files (fd_table_destroy t s)).
Proof.
  intros Hi Ht. assert (t <> 0) as Hne.
  { intros ->. destruct (fd_blocks _ _ Hi) as [_ Hz]. apply Hz, elem_of_app. left. apply elem_of_keys. by exists l. }
  unfold fd_table_destroy, fds. rewrite Ht. cbn [default from_option id]. destruct (Z.eqb_spec t 0); [done|].
  pose proof Hi as [I1 I2 I3]. rewrite (handles_delete _ _ _ Ht) in I2.
  destruct (destroy_loop_spec l (handles (delete t (tables s))) s F I2 I3) as (Ht' & Hk & Hok).
  set (s1 := destroy_loop l s) in *. cbn [tables files]. rewrite Ht'.
  split; [|split; [done|by rewrite Hk, <- I2]]. constructor; cbn [tables files venv].
  - intros t' l'. destruct (decide (t = t')) as [<-|]; [by rewrite lookup_delete_eq|]. rewrite lookup_delete_ne by done. apply I1.
  - by rewrite Hk.
  - apply te_kfree_law. eapply te_ok_proper; [|exact Hok]. symmetry. set (s2 := MkVfs _ _ _ _ _).
    apply (fd_res_step s2 s1). cbn [tables files s2]. rewrite Ht'. by rewrite (keys_delete _ _ _ Ht).
Qed.

Lemma seek_inv s F t fd off whence r s' :
  fd_inv s F -> fd_seek t fd off whence s = (r, s') ->
  fd_inv s' F /\ tables s' = tables s /\
  ((r = -1 /\ s' = s) \/
   (0 <= r /\ bad_fd t fd s = false /\ files s' = <[rd (fds s t) fd := MkFile (fvnode (get_file s (rd (fds s t) fd))) r]> (files s))).
Proof.
  intros Hi. unfold fd_seek. destruct (bad_fd t fd s) eqn:Hb; [intros [= <- <-]; auto|].
  destruct (bad_fd_false _ _ _ _ Hi Hb) as (l & Ht & Hl & Hfd & Hne). destruct (handle_file _ _ _ _ _ Hi Ht Hfd Hne) as [fl Hf].
  rewrite Hl. case_if; [intros [= <- <-]; auto|]. cbv zeta. set (o := if whence =? SEEK_SET then _ else _).
  destruct o as [v|]; [|intros [= <- <-]; auto]. destruct (Z.ltb_spec v 0); [intros [= <- <-]; auto|].
  intros [= <- <-]. split; [|split; [done|right; done]]. destruct Hi as [I1 I2 I3].
  constructor; cbn [tables files venv set_file]; [done|by rewrite (keys_update _ _ _ _ Hf)|].
  eapply te_ok_proper; [|exact I3]. split; [|done]. cbn [r_blocks fd_res res_app tables files set_file].
  by rewrite (keys_update _ _ _ _ Hf).
Qed.

(** C38: ownership in the fd tables.  As long as tables are reached through
    these operations, every open file belongs to exactly one descriptor of one
    table, and the heap blocks in use for tables and files are exactly those
    that can be reached, so nothing leaks and nothing is freed twice.
    [fd_open] returns the lowest free descriptor with offset 0 on the node the
    path resolves to, or fails and leaves tables and files alone; [fd_close]
    frees exactly its file; [fd_table_destroy] frees the files of the table and
    the table.  (The file system may keep memory [g] for the nodes it creates
    while a path is resolved.) *)
Theorem fd_ownership s F t :
  fd_inv s F ->
  (forall t' s', fd_table_create s = (t', s') ->
     fd_inv s' F /\ files s' = files s /\
     ((t' = 0 /\ tables s' = tables s) \/
      (t' <> 0 /\ tables s !! t' = None /\ tables s' = <[t' := replicate 64 0]> (tables s)))) /\
  (forall path fd s', is_Some (tables s !! t) -> fd_open t path s = (fd, s') ->
     exists g, fd_inv s' (g ⋆ F) /\
     ((fd = -1 /\ files s' = files s /\ tables s' = tables s) \/
      (0 <= fd < MAX_FDS /\ rd (fds s t) fd = 0 /\ (forall i, 0 <= i < fd -> rd (fds s t) i <> 0) /\
       exists f n, files s !! f = None /\ f <> 0 /\ n <> 0 /\ (vfs_resolve path s).1 = n /\
         files s' = <[f := MkFile n 0]> (files s) /\ tables s' = <[t := wr (fds s t) fd f]> (tables s)))) /\
  (forall fd r s', fd_close t fd s = (r, s') ->
     fd_inv s' F /\
     ((r = -1 /\ s' = s /\ bad_fd t fd s = true) \/
      (r = 0 /\ bad_fd t fd s = false /\ files s' = delete (rd (fds s t) fd) (files s) /\
       tables s' = <[t := wr (fds s t) fd 0]> (tables s)))) /\
  (forall fd off whence r s', fd_seek t fd off whence s = (r, s') ->
     fd_inv s' F /\ tables s' = tables s /\ (r = -1 /\ s' = s \/ 0 <= r /\ bad_fd t fd s = false /\
       files s' = <[rd (fds s t) fd := MkFile (fvnode (get_file s (rd (fds s t) fd))) r]> (files s))) /\
  (forall l, tables s !! t = Some l ->
     fd_inv (fd_table_destroy t s) F /\ tables (fd_table_destroy t s) = delete t (tables s) /\
     keys (files s) ≡ₚ nz l ++ keys (files (fd_table_destroy t s))).
Proof.
  intros Hi. split; [intros t' s'; by apply create_table_inv|]. split; [intros path fd s'; by apply open_inv|].
  split; [intros fd r s'; by apply close_inv|]. split; [intros fd off whence r s'; by apply seek_inv|].
  intros l. by apply destroy_inv.
Qed.
End ownership.

(** ** Concrete instances *)

(** No file system is mounted. *)
#[global] Instance no_lookup {E} : Lookup E := { fs_lookup _ _ _ s := (0, s) }.
#[global] Instance no_lookup_laws {E} `{TaskEnvLaws E} : LookupLaws E.
Proof.
  constructor. intros v dir nm s r s' [= <- <-]. split; [done|]. split; [done|]. intros q Hq. exists res0.
  eapply te_ok_proper; [|exact Hq]. by rewrite res_app_0.
Qed.

(** The tree with /dev/null, the directory /usr and a table. *)
Notation demo_empty := (MkVfs [] 0 ∅ ∅ (MkBump 16 4096 0 0 62500000)).
Notation demo_dev := (vfs_register_chardev [110; 117; 108; 108] 0x1000 (vfs_init demo_empty)).2.
Notation demo_tree := (vfs_create_node 1 [117; 115; 114] VNODE_DIR demo_dev).2.
Notation demo_fds := (fd_table_create demo_tree).2.

Lemma demo_tree_ok : tree_ok demo_tree.
Proof.
  constructor; [vm_compute; discriminate|vm_compute; split; discriminate|..]; intros p [Hp1 Hp2];
    change (node_count demo_tree) with 4 in Hp2; assert (p = 1 \/ p = 2 \/ p = 3 \/ p = 4) as Hp by lia;
    destruct Hp as [->|[->|[->| ->]]]; vm_compute; split; (discriminate || reflexivity).
Qed.


Lemma demo_fds_inv : fd_inv demo_fds res0.
Proof.
  constructor.
  - intros t l Ht. assert (tables demo_fds = {[16 := replicate 64 0]}) as Hm by (vm_compute; reflexivity).
    rewrite Hm in Ht. apply lookup_singleton_Some in Ht as [_ <-]. done.
  - by vm_compute.
  - split; [vm_compute; repeat constructor; set_solver|]. vm_compute. repeat constructor; done.
Qed.

Lemma fd_ownership_witness :
  let '(fd, s') := fd_open 16 [47; 100; 101; 118; 47; 110; 117; 108; 108] demo_fds in
  fd = 0 /\ exists g, fd_inv s' (g ⋆ res0).
Proof.
  destruct (fd_open 16 [47; 100; 101; 118; 47; 110; 117; 108; 108] demo_fds) as [fd s'] eqn:Ho.
  assert (fd = (fd_open 16 [47; 100; 101; 118; 47; 110; 117; 108; 108] demo_fds).1) as Hfd by (by rewrite Ho).
  vm_compute in Hfd. split; [exact Hfd|].
  assert (is_Some (tables demo_fds !! 16)) as Hs by (vm_compute; eexists; reflexivity).
  destruct (proj1 (proj2 (fd_ownership demo_fds res0 16 demo_fds_inv)) _ fd s' Hs Ho) as (g & Hi & _).
  exists g. exact Hi.
Defined.
End Vfs.
