(* ===== verification/Elf.v ===== *)
(** * The ELF loader (src/src/syscall/elf.c, elf.h)

    The file is the list of its bytes, at the kernel address [kaddr]; headers
    are read from it at the offsets of the packed structures.  Pages, copies
    and mappings go through [TaskEnv].  Cache maintenance and console output
    are not modelled. *)
From S2P Require Import Prelude PageAlloc Bytes Heap Mmu Task TaskEnv BumpEnv Sched SchedInv.
From AAC_tactics Require Import AAC.
#[local] Open Scope Z_scope.

Module Elf.
Export SchedInv.

Definition MAX_PHNUM : Z := 32.
Definition ELFCLASS64 : Z := 2.
Definition ELFDATA2LSB : Z := 1.
Definition EV_CURRENT : Z := 1.
Definition ET_EXEC : Z := 2.
Definition EM_AARCH64 : Z := 0xB7.
Definition PT_LOAD : Z := 1.
Definition PF_X : Z := 1 <<< 0.
Definition PF_W : Z := 1 <<< 1.
Definition PF_R : Z := 1 <<< 2.
Definition SIZEOF_EHDR : Z := 64.
Definition SIZEOF_PHDR : Z := 56.

(** The members of [Elf64_Ehdr] the loader reads. *)
Record Elf64_Ehdr := MkEhdr {
  e_ident : list Z; e_type : Z; e_machine : Z; e_entry : Z; e_phoff : Z; e_phentsize : Z; e_phnum : Z
}.
Definition read_ehdr (kbuf : list Z) : Elf64_Ehdr :=
  MkEhdr (take 16 kbuf) (ld_le 2 16 (rd kbuf)) (ld_le 2 18 (rd kbuf)) (ld_le 8 24 (rd kbuf)) (ld_le 8 32 (rd kbuf))
    (ld_le 2 54 (rd kbuf)) (ld_le 2 56 (rd kbuf)).
Record Elf64_Phdr := MkPhdr {
  p_type : Z; p_flags : Z; p_offset : Z; p_vaddr : Z; p_filesz : Z; p_memsz : Z
}.
Definition read_phdr (kbuf : list Z) (a : Z) : Elf64_Phdr :=
  MkPhdr (ld_le 4 a (rd kbuf)) (ld_le 4 (a + 4) (rd kbuf)) (ld_le 8 (a + 8) (rd kbuf)) (ld_le 8 (a + 16) (rd kbuf))
    (ld_le 8 (a + 32) (rd kbuf)) (ld_le 8 (a + 40) (rd kbuf)).

(** [None] is the result -1 *)
Definition parse_flags (pf : Z) : option Z :=
  let f := Mmu.PTE_ATTRIDX 1 .| Mmu.PTE_PXN in
  let f := if test_mask pf PF_W then f .| Mmu.PTE_AP_RW_EL0 else f .| Mmu.PTE_AP_RO_EL0 in
  let f := if negb (test_mask pf PF_X) then f .| Mmu.PTE_UXN else f in
  if test_mask pf PF_W && test_mask pf PF_X then None
  else if negb (test_mask pf PF_R) then None
  else Some f.

(** The checks of the file header. *)
Definition header_ok (eh : Elf64_Ehdr) (size : Z) : bool :=
  if negb (rd (e_ident eh) 0 =? 0x7F) || negb (rd (e_ident eh) 1 =? 69) ||
     negb (rd (e_ident eh) 2 =? 76) || negb (rd (e_ident eh) 3 =? 70) then false
  else if negb (rd (e_ident eh) 4 =? ELFCLASS64) then false
  else if negb (rd (e_ident eh) 5 =? ELFDATA2LSB) then false
  else if negb (rd (e_ident eh) 6 =? EV_CURRENT) then false
  else if negb (e_type eh =? ET_EXEC) then false
  else if negb (e_machine eh =? EM_AARCH64) then false
  else if negb (e_phentsize eh =? SIZEOF_PHDR) then false
  else if (e_phnum eh =? 0) || (MAX_PHNUM <? e_phnum eh) then false
  else if (size <? e_phoff eh) || (size <? u64 (e_phoff eh + e_phnum eh * SIZEOF_PHDR)) then false
  else true.

Section ops.
Context {E : Type} `{TaskEnv E}.

Definition free_regions (img : elf_image) (e : E) : elf_image * E :=
  (MkImage (entry img) 0 (regions img), free_image (take (Z.to_nat (region_count img)) (regions img)) e).

(** One PT_LOAD segment; [false] for the failures, all of which free. *)
Definition load_segment (kaddr size l0 : Z) (ph : Elf64_Phdr) (img : elf_image) (e : E) : bool * (elf_image * E) :=
  if p_memsz ph <? p_filesz ph then (false, free_regions img e)
  else if (size <? u64 (p_offset ph + p_filesz ph)) || (u64 (p_offset ph + p_filesz ph) <? p_offset ph)
       then (false, free_regions img e)
  else if (Mmu.USER_STACK_TOP <=? p_vaddr ph) || (Mmu.USER_STACK_TOP <? u64 (p_vaddr ph + p_memsz ph)) ||
          (u64 (p_vaddr ph + p_memsz ph) <? p_vaddr ph)
       then (false, free_regions img e)
  else if ELF_MAX_REGIONS <=? region_count img then (false, free_regions img e)
  else
    match parse_flags (p_flags ph) with
    | None => (false, free_regions img e)
    | Some pte_flags =>
        let va_lo := p_vaddr ph .& unot 64 (PAGE_SIZE - 1) in
        let va_hi := u64 (p_vaddr ph + p_memsz ph + PAGE_SIZE - 1) .& unot 64 (PAGE_SIZE - 1) in
        let pages := u64 (va_hi - va_lo) / PAGE_SIZE in
        let '(pa, e) := te_alloc_pages pages e in
        if pa =? 0 then (false, free_regions img e)
        else
          let kva := PHYS_TO_VIRT pa in
          let e := te_zero kva (pages * PAGE_SIZE) e in
          let e := if 0 <? p_filesz ph
                   then te_copy (u64 (kva + (p_vaddr ph - va_lo))) (u64 (kaddr + p_offset ph)) (p_filesz ph) e
                   else e in
          let e := te_map_user l0 va_lo pa pages pte_flags e in
          let rs := <[Z.to_nat (region_count img) := MkElfRegion pa pages]> (regions img) in
          (true, (MkImage (entry img) (region_count img + 1) rs, e))
    end.

(** The walk over the program headers. *)
Fixpoint load_loop (phs : list Elf64_Phdr) (kaddr size l0 : Z) (img : elf_image) (e : E) : bool * (elf_image * E) :=
  match phs with
  | [] => (true, (img, e))
  | ph :: phs' =>
      if negb (p_type ph =? PT_LOAD) then load_loop phs' kaddr size l0 img e
      else
        match load_segment kaddr size l0 ph img e with
        | (false, r) => (false, r)
        | (true, (img, e)) => load_loop phs' kaddr size l0 img e
        end
  end.

(** [e_entry] lies in this executable segment *)
Definition entry_in (ent : Z) (ph : Elf64_Phdr) : bool :=
  (p_type ph =? PT_LOAD) &&
  ((p_vaddr ph <=? ent) && (ent <? u64 (p_vaddr ph + p_memsz ph)) && test_mask (p_flags ph) PF_X).
Fixpoint entry_loop (ent : Z) (phs : list Elf64_Phdr) : bool :=
  match phs with
  | [] => false
  | ph :: phs' => if entry_in ent ph then true else entry_loop ent phs'
  end.

Definition phdrs (kbuf : list Z) (eh : Elf64_Ehdr) : list Elf64_Phdr :=
  (fun i => read_phdr kbuf (e_phoff eh + Z.of_nat i * SIZEOF_PHDR)) <$> seq 0 (Z.to_nat (e_phnum eh)).

Definition elf_load (kaddr : Z) (kbuf : list Z) (l0 : Z) (out : elf_image) (e : E) : Z * (elf_image * E) :=
  let size := Z.of_nat (length kbuf) in
  if size <? SIZEOF_EHDR then (-1, (out, e))
  else
    let eh := read_ehdr kbuf in
    if negb (header_ok eh size) then (-1, (out, e))
    else
      let img := MkImage (e_entry eh) 0 (regions out) in
      let phs := phdrs kbuf eh in
      match load_loop phs kaddr size l0 img e with
      | (false, r) => (-1, r)
      | (true, (img, e)) =>
          if region_count img =? 0 then (-1, (img, e))
          else if negb (entry_loop (e_entry eh) phs) then (-1, free_regions img e)
          else (0, (img, e))
      end.
End ops.

(** ** Permissions *)

(** Write permission and execute permission of a user page, from its flags. *)
Definition el0_write (f : Z) : bool := Z.testbit f 6 && negb (Z.testbit f 7).
Definition el0_exec (f : Z) : bool := negb (Z.testbit f 54).
Definition el1_exec (f : Z) : bool := negb (Z.testbit f 53).

Lemma parse_flags_spec pf f :
  parse_flags pf = Some f ->
  el0_write f = test_mask pf PF_W /\ el0_exec f = test_mask pf PF_X /\ el1_exec f = false /\
  (el0_write f && el0_exec f = false) /\ f .& Mmu.PTE_ADDR_MASK = 0.
Proof.
  unfold parse_flags. destruct (test_mask pf PF_W), (test_mask pf PF_X), (test_mask pf PF_R); cbn [andb negb];
    intros Hf; inversion_clear Hf; by vm_compute.
Qed.

(** ** One segment *)
Record phdr_ok (ph : Elf64_Phdr) : Prop := {
  po_offset : is_u 64 (p_offset ph);
  po_vaddr : is_u 64 (p_vaddr ph);
  po_filesz : is_u 64 (p_filesz ph);
  po_memsz : is_u 64 (p_memsz ph)
}.

(** What is accepted of a segment in a file of [size] bytes. *)
Definition seg_safe (size : Z) (ph : Elf64_Phdr) : Prop :=
  0 <= p_filesz ph <= p_memsz ph /\ 0 <= p_offset ph /\ p_offset ph + p_filesz ph <= size /\
  0 <= p_vaddr ph /\ p_vaddr ph + p_memsz ph <= Mmu.USER_STACK_TOP /\
  exists f, parse_flags (p_flags ph) = Some f /\ el0_write f && el0_exec f = false /\ el1_exec f = false.

Section loading.
Context {E : Type} `{TaskEnvLaws E}.

Record img_ok (img : elf_image) : Prop := {
  io_count : 0 <= region_count img <= ELF_MAX_REGIONS;
  io_len : length (regions img) = 4%nat
}.
Definition img_res (img : elf_image) : res := image_res (take (Z.to_nat (region_count img)) (regions img)).

Lemma free_regions_ok img F e img' e' :
  te_ok (img_res img ⋆ F) e -> free_regions img e = (img', e') -> te_ok F e' /\ region_count img' = 0.
Proof. intros Hok [= <- <-]. split; [by apply free_image_ok|done]. Qed.

(** The pages that cover the segment. *)
Lemma span_pages va sz :
  0 <= va -> 0 <= sz -> va + sz <= Mmu.USER_STACK_TOP ->
  let lo := va .& unot 64 (PAGE_SIZE - 1) in
  let hi := u64 (va + sz + PAGE_SIZE - 1) .& unot 64 (PAGE_SIZE - 1) in
  let pages := u64 (hi - lo) / PAGE_SIZE in
  0 <= lo <= va /\ va < lo + PAGE_SIZE /\ lo mod PAGE_SIZE = 0 /\ va + sz <= lo + pages * PAGE_SIZE /\
  0 <= pages < 2 ^ 32 /\ lo + pages * PAGE_SIZE <= 2 ^ 48.
Proof.
  unfold Mmu.USER_STACK_TOP, PAGE_SIZE. intros Hv Hs Ht. cbv zeta. change (4096 - 1) with (2 ^ 12 - 1).
  rewrite (u64_small (va + sz + 4096 - 1)), !land_unot_ones by lia. change (2 ^ 12) with 4096.
  rewrite u64_small by dlia. dlia.
Qed.

Lemma image_res_app r1 r2 : image_res (r1 ++ r2) ≡ image_res r1 ⋆ image_res r2.
Proof.
  induction r1 as [|r r1 IH]; cbn [app image_res]; [by rewrite res_app_0|]. rewrite IH. by rewrite res_app_assoc.
Qed.

Lemma img_res_add img pa n :
  img_ok img -> region_count img < ELF_MAX_REGIONS -> pa <> 0 -> n <> 0 ->
  img_res (MkImage (entry img) (region_count img + 1) (<[Z.to_nat (region_count img) := MkElfRegion pa n]> (regions img)))
  ≡ run pa n ⋆ img_res img.
Proof.
  unfold ELF_MAX_REGIONS. intros [Hc Hl] Hlt Hpa Hn. unfold ELF_MAX_REGIONS in *. unfold img_res. cbn [region_count regions].
  replace (Z.to_nat (region_count img + 1)) with (S (Z.to_nat (region_count img))) by lia.
  set (k := Z.to_nat (region_count img)). assert (k < 4)%nat as Hk by (unfold k; lia).
  erewrite take_S_r by (apply list_lookup_insert_eq; lia). rewrite take_insert_ge by lia.
  rewrite image_res_app. cbn [image_res phys rpages]. destruct (Z.eqb_spec pa 0), (Z.eqb_spec n 0); try done. cbn [negb andb].
  aac_reflexivity.
Qed.

(** An addition of 64-bit numbers whose result is not below the first did not wrap. *)
Lemma u64_no_wrap x y : is_u 64 x -> is_u 64 y -> x <= u64 (x + y) -> u64 (x + y) = x + y.
Proof.
  unfold is_u. intros Hx Hy Hle. apply u64_small. split; [lia|].
  destruct (decide (x + y < 2 ^ 64)) as [|Hge]; [done|].
  assert (u64 (x + y) = x + y - 2 ^ 64); [|lia].
  unfold u64, wrap. symmetry. apply (Z.mod_unique _ _ 1); lia.
Qed.

(** Zeroing, copying and mapping stay inside the new pages. *)
Lemma fill_ok R l0 pa n va lo filesz src f e :
  te_ok (run pa n ⋆ R) e -> l0 ∈ r_spaces R -> run_ok pa n -> 0 <= n -> 0 <= filesz ->
  0 <= lo <= va -> lo mod PAGE_SIZE = 0 -> va + filesz <= lo + n * PAGE_SIZE -> lo + n * PAGE_SIZE <= 2 ^ 48 ->
  f .& Mmu.PTE_ADDR_MASK = 0 ->
  let e := te_zero (PHYS_TO_VIRT pa) (n * PAGE_SIZE) e in
  let e := if 0 <? filesz then te_copy (u64 (PHYS_TO_VIRT pa + (va - lo))) src filesz e else e in
  te_ok (run pa n ⋆ R) (te_map_user l0 lo pa n f e).
Proof.
  intros Hok Hl0 Hrun Hn Hfs Hlo Hal Hhi Htop Hf. cbv zeta. pose proof Hrun as (Hr1 & Hr2 & Hr3).
  assert ((pa, n) ∈ r_runs (run pa n ⋆ R)) as Hin by left.
  pose proof (stack_run pa n Hrun Hn) as Hir. pose proof (p2v pa n Hrun Hn) as Hkv.
  apply te_map_user_law; try done; try lia.
  - case_if; [|eapply te_zero_law; [done|exact Hin|unfold PAGE_SIZE; lia|done]].
    eapply te_copy_law; [eapply te_zero_law; [done|exact Hin|unfold PAGE_SIZE; lia|done]|exact Hin|done|].
    rewrite Hkv. unfold in_run, KERNEL_VA_OFFSET, PAGE_SIZE in *. cbn [fst snd].
    rewrite u64_small by lia. lia.
Qed.

Lemma load_segment_ok kaddr size l0 ph img e F ok img' e' :
  phdr_ok ph -> img_ok img -> te_ok (img_res img ⋆ F) e -> l0 ∈ r_spaces F ->
  load_segment kaddr size l0 ph img e = (ok, (img', e')) ->
  (ok = false /\ te_ok F e' /\ region_count img' = 0) \/
  (ok = true /\ te_ok (img_res img' ⋆ F) e' /\ img_ok img' /\ entry img' = entry img /\ seg_safe size ph /\
   region_count img' = region_count img + 1).
Proof.
  intros [P1 P2 P3 P4] Hio Hok Hl0.
  assert (forall e0, te_ok (img_res img ⋆ F) e0 -> (false, free_regions img e0) = (ok, (img', e')) ->
    ok = false /\ te_ok F e' /\ region_count img' = 0) as Hfail.
  { intros e0 Hok0 [<- Hf]%pair_equal_spec. split; [done|]. by eapply free_regions_ok. }
  unfold load_segment. destruct (Z.ltb_spec (p_memsz ph) (p_filesz ph)); [left; by eapply Hfail|].
  case_if; [left; by eapply Hfail|].
  pose proof (u64_no_wrap (p_offset ph) (p_filesz ph) P1 P3 ltac:(lia)) as Hoff.
  case_if; [left; by eapply Hfail|].
  pose proof (u64_no_wrap (p_vaddr ph) (p_memsz ph) P2 P4 ltac:(lia)) as Hva. unfold is_u in *.
  destruct (Z.leb_spec ELF_MAX_REGIONS (region_count img)) as [|Hcnt]; [left; by eapply Hfail|].
  destruct (parse_flags (p_flags ph)) as [f|] eqn:Hpf; [|left; by eapply Hfail].
  destruct (parse_flags_spec _ _ Hpf) as (_ & _ & Hx1 & Hwx & Hmask).
  destruct (span_pages (p_vaddr ph) (p_memsz ph)) as (S1 & S2 & S3 & S4 & S5 & S6); [lia|lia|lia|].
  set (lo := p_vaddr ph .& _) in *. set (n := u64 (_ - lo) / PAGE_SIZE) in *.
  destruct (te_alloc_pages n e) as [pa e1] eqn:Ha. destruct (decide (n = 0)) as [Hn0|Hn0].
  { rewrite Hn0, te_alloc_zero_law in Ha. injection Ha as <- <-. cbn [Z.eqb]. left. by eapply Hfail. }
  apply (te_alloc_pages_law (img_res img ⋆ F)) in Ha as [[-> Hok1]|[Hpa Hok1]]; [left; by eapply Hfail| |done|lia].
  assert (pa <> 0) as Hpa0 by (destruct Hpa; lia). destruct (Z.eqb_spec pa 0); [done|].
  intros [= <- <- <-]. right. split; [done|]. split; [|split; [|split; [done|split; [|done]]]].
  - rewrite img_res_add, res_app_assoc by done. apply fill_ok; try done; try lia.
    cbn [r_spaces res_app]. apply elem_of_app. by right.
  - destruct Hio. constructor; cbn [region_count regions]; [lia|by rewrite length_insert].
  - unfold seg_safe. repeat split; try lia. exists f. done.
Qed.

Lemma load_loop_ok phs kaddr size l0 img e F ok img' e' :
  Forall phdr_ok phs -> img_ok img -> te_ok (img_res img ⋆ F) e -> l0 ∈ r_spaces F ->
  load_loop phs kaddr size l0 img e = (ok, (img', e')) ->
  (ok = false /\ te_ok F e' /\ region_count img' = 0) \/
  (ok = true /\ te_ok (img_res img' ⋆ F) e' /\ img_ok img' /\ entry img' = entry img /\
   (forall ph, ph ∈ phs -> p_type ph = PT_LOAD -> seg_safe size ph) /\
   region_count img' = region_count img + Z.of_nat (length (filter (fun ph => p_type ph = PT_LOAD) phs))).
Proof.
  intros Hph. revert img e. induction Hph as [|ph phs Hp Hph IH]; intros img e Hio Hok Hl0; cbn [load_loop].
  { intros [= <- <- <-]. right. split; [done|]. split; [done|]. split; [done|]. split; [done|].
    split; [intros ph ?%elem_of_nil; done|cbn; lia]. }
  destruct (Z.eqb_spec (p_type ph) PT_LOAD) as [Ht|Ht]; cbn [negb].
  - destruct (load_segment kaddr size l0 ph img e) as [b [img1 e1]] eqn:Hls.
    destruct (load_segment_ok _ _ _ _ _ _ _ _ _ _ Hp Hio Hok Hl0 Hls) as [(-> & Hok1 & Hc1)|(-> & Hok1 & Hio1 & He1 & Hs1 & Hc1)].
    { intros [= <- <- <-]. by left. }
    intros [?|(Hb & Hok2 & Hio2 & He2 & Hall & Hc2)]%IH; [by left|right|done|done|done].
    split; [done|]. split; [done|]. split; [done|]. split; [congruence|]. split.
    + intros ph' [->|Hin]%elem_of_cons; [done|by apply Hall].
    + rewrite filter_cons_True by done. cbn [length]. lia.
  - intros [?|(Hb & Hok2 & Hio2 & He2 & Hall & Hc2)]%IH; [by left|right|done|done|done].
    split; [done|]. split; [done|]. split; [done|]. split; [done|]. split.
    + intros ph' [->|Hin]%elem_of_cons; [done|by apply Hall].
    + by rewrite filter_cons_False.
Qed.

Lemma entry_loop_in ent phs :
  entry_loop ent phs = true -> exists ph, ph ∈ phs /\ entry_in ent ph = true.
Proof.
  induction phs as [|ph phs IH]; cbn [entry_loop]; [done|]. case_if.
  - intros _. exists ph. split; [left|done].
  - intros (ph' & Hin & He)%IH. exists ph'. split; [by right|done].
Qed.

Lemma phdrs_ok kbuf eh : Forall is_byte kbuf -> Forall phdr_ok (phdrs kbuf eh).
Proof.
  intros Hb. apply Forall_forall. intros ph (i & -> & _)%list_elem_of_fmap.
  constructor; apply (ld_le_range 8); intros; by apply rd_byte.
Qed.

(** The two ways the loader ends. *)
Lemma elf_load_cases kaddr kbuf l0 out e F r img e' :
  Forall is_byte kbuf -> length (regions out) = 4%nat -> te_ok F e -> l0 ∈ r_spaces F ->
  elf_load kaddr kbuf l0 out e = (r, (img, e')) ->
  let size := Z.of_nat (length kbuf) in
  let phs := phdrs kbuf (read_ehdr kbuf) in
  (r = -1 /\ te_ok F e') \/
  (r = 0 /\ te_ok (img_res img ⋆ F) e' /\ header_ok (read_ehdr kbuf) size = true /\ img_ok img /\
   region_count img <> 0 /\ entry img = e_entry (read_ehdr kbuf) /\
   region_count img = Z.of_nat (length (filter (fun ph => p_type ph = PT_LOAD) phs)) /\
   (forall ph, ph ∈ phs -> p_type ph = PT_LOAD -> seg_safe size ph) /\
   entry_loop (e_entry (read_ehdr kbuf)) phs = true).
Proof.
  intros Hb Hlen Hok Hl0. unfold elf_load. case_if; [intros [= <- <- <-]; by left|].
  destruct (header_ok _ _) eqn:Hh; cbn [negb]; [|intros [= <- <- <-]; by left]. cbv zeta.
  set (phs := phdrs kbuf (read_ehdr kbuf)). set (img0 := MkImage _ 0 _).
  assert (img_ok img0) as Hio by (constructor; [cbn; unfold ELF_MAX_REGIONS; lia|done]).
  assert (te_ok (img_res img0 ⋆ F) e) as Hok0.
  { change (img_res img0) with res0. eapply te_ok_proper; [|exact Hok]. by rewrite res_app_0. }
  destruct (load_loop phs _ _ _ _ _) as [b [img1 e1]] eqn:Hl.
  destruct (load_loop_ok _ _ _ _ _ _ _ _ _ _ (phdrs_ok _ _ Hb) Hio Hok0 Hl0 Hl) as
    [(-> & Hok1 & _)|(-> & Hok1 & Hio1 & He1 & Hall & Hc1)]; [intros [= <- <- <-]; by left|].
  cbn [region_count img0 entry] in Hc1, He1. destruct (Z.eqb_spec (region_count img1) 0) as [Hz|Hz].
  { intros [= <- <- <-]. left. split; [done|]. unfold img_res in Hok1. rewrite Hz in Hok1.
    change (take (Z.to_nat 0) (regions img1)) with (@nil elf_region) in Hok1. cbn [image_res] in Hok1.
    eapply te_ok_proper; [|exact Hok1]. by rewrite res_app_0. }
  destruct (entry_loop _ phs) eqn:Hent; cbn [negb].
  2: { intros [<- Hf]%pair_equal_spec. left. split; [done|]. by eapply free_regions_ok. }
  intros [= <- <- <-]. right. do 6 (split; [done|]). split; [by rewrite Hc1|]. done.
Qed.

End loading.

(** ** A concrete file: one executable segment of 124 bytes at 0x400000 *)
Fixpoint le (n : nat) (v : Z) : list Z := match n with O => [] | S n' => v mod 256 :: le n' (v / 256) end.
Definition demo_elf (pf : Z) : list Z :=
  [0x7F; 69; 76; 70; 2; 1; 1] ++ replicate 9 0 ++ le 2 2 ++ le 2 0xB7 ++ le 4 1 ++ le 8 0x400078 ++ le 8 64 ++ le 8 0
  ++ le 4 0 ++ le 2 64 ++ le 2 56 ++ le 2 1 ++ le 2 0 ++ le 2 0 ++ le 2 0
  ++ le 4 1 ++ le 4 pf ++ le 8 0 ++ le 8 0x400000 ++ le 8 0 ++ le 8 124 ++ le 8 124 ++ le 8 4096 ++ [0; 0; 0; 0x14].


(** A segment that is writable and executable is refused. *)
Example elf_load_rejects_wx :
  (elf_load 0x10000 (demo_elf 7) 4096 zero_image (MkBump 16 8192 0 0 0)).1 = -1.
Proof. by vm_compute. Qed.
End Elf.
