(* ===== verification/Fat32.v ===== *)
(** * The FAT32 file system (src/src/fs/fat32/fat32.c, fat32_vfs.c, fat32.h)

    The volume on a block device: the mounted geometry, the file allocation
    table, directories of 32-byte entries, and the data of files on chains of
    clusters.  The block device is the interface [BlkDev]; the one sector
    buffer [sec_buf], which every operation shares, is part of the state.

    Operations live in a small state monad whose outcome is [None] only when
    the fuel of a walk along a cluster chain runs out.  C strings are lists of
    characters without the final 0; [rd] gives that 0. *)
From S2P Require Import Prelude Bytes PageAlloc Heap Mmu TaskEnv BumpEnv Vfs.
#[local] Open Scope Z_scope.

Module Fat32.

Definition SECTOR : Z := 512.
Definition DIR_ENTRY_SIZE : Z := 32.
Definition ATTR_LFN : Z := 0x0F.
Definition ATTR_VOLUME_ID : Z := 0x08.
Definition ATTR_DIRECTORY : Z := 0x10.
Definition FAT32_EOC : Z := 0x0FFFFFF8.
Definition ESUCCESS : Z := 1.
Definition EERROR : Z := 0.

(** [memcpy(buf + off, l, length l)] inside a buffer. *)
Definition splice (buf : list Z) (off : Z) (l : list Z) : list Z :=
  take (Z.to_nat off) buf ++ l ++ drop (Z.to_nat off + length l) buf.
(** The bytes of a little-endian integer. *)
Fixpoint le_bytes (n : nat) (v : Z) : list Z :=
  match n with O => [] | S n' => v mod 256 :: le_bytes n' (v / 256) end.

(** ** On-disk structures *)
Record bpb := MkBpb {
  jmp : list Z;
  oem : list Z;
  b_bytes_per_sector : Z;
  b_sectors_per_cluster : Z;
  b_reserved_sectors : Z;
  b_num_fats : Z;
  b_root_entries_16 : Z;
  b_total_sectors_16 : Z;
  b_media : Z;
  b_fat_size_16 : Z;
  b_sectors_per_track : Z;
  b_num_heads : Z;
  b_hidden_sectors : Z;
  b_total_sectors_32 : Z;
  b_fat_size_32 : Z;
  b_ext_flags : Z;
  b_fs_version : Z;
  b_root_cluster : Z
}.
(** [memcpy(&b, sec_buf, sizeof(b))], the structure being packed *)
Definition parse_bpb (buf : list Z) : bpb :=
  let ld n a := ld_le n a (rd buf) in
  MkBpb (take 3 buf) (take 8 (drop 3 buf)) (ld 2%nat 11) (ld 1%nat 13) (ld 2%nat 14) (ld 1%nat 16)
        (ld 2%nat 17) (ld 2%nat 19) (ld 1%nat 21) (ld 2%nat 22) (ld 2%nat 24) (ld 2%nat 26) (ld 4%nat 28)
        (ld 4%nat 32) (ld 4%nat 36) (ld 2%nat 40) (ld 2%nat 42) (ld 4%nat 44).

Record dir_entry := MkEntry {
  e_name : list Z;             (* 11 bytes *)
  e_attr : Z;
  e_nt_res : Z;
  e_ctime_tenth : Z;
  e_ctime : Z;
  e_cdate : Z;
  e_adate : Z;
  e_first_cluster_hi : Z;
  e_wtime : Z;
  e_wdate : Z;
  e_first_cluster_lo : Z;
  e_size : Z
}.
Definition parse_entry (buf : list Z) (off : Z) : dir_entry :=
  let ld n a := ld_le n (off + a) (rd buf) in
  MkEntry ((fun i => rd buf (off + i)) <$> seqZ 0 11) (ld 1%nat 11) (ld 1%nat 12) (ld 1%nat 13) (ld 2%nat 14)
          (ld 2%nat 16) (ld 2%nat 18) (ld 2%nat 20) (ld 2%nat 22) (ld 2%nat 24) (ld 2%nat 26) (ld 4%nat 28).
Definition entry_bytes (e : dir_entry) : list Z :=
  e_name e ++ le_bytes 1 (e_attr e) ++ le_bytes 1 (e_nt_res e) ++ le_bytes 1 (e_ctime_tenth e) ++
  le_bytes 2 (e_ctime e) ++ le_bytes 2 (e_cdate e) ++ le_bytes 2 (e_adate e) ++
  le_bytes 2 (e_first_cluster_hi e) ++ le_bytes 2 (e_wtime e) ++ le_bytes 2 (e_wdate e) ++
  le_bytes 2 (e_first_cluster_lo e) ++ le_bytes 4 (e_size e).

(** The static [vol]. *)
Record volume := MkVol {
  fat_start_sector : Z;
  data_start_sector : Z;
  sectors_per_cluster : Z;
  root_cluster : Z;
  bytes_per_cluster : Z
}.

(** ** 8.3 names *)
Definition upper (c : Z) : Z := if (97 <=? c) && (c <=? 122) then u8 (c - 32) else c.
Fixpoint stem_loop (n : nat) (i : Z) (name out : list Z) : Z * list Z :=
  match n with
  | O => (i, out)
  | S n' =>
      if negb (rd name i =? 0) && negb (rd name i =? Vfs.DOT)
      then stem_loop n' (i + 1) name (wr out i (upper (rd name i)))
      else (i, out)
  end.
Fixpoint skip_loop (fuel : nat) (i : Z) (name : list Z) : Z :=
  match fuel with
  | O => i
  | S f => if negb (rd name i =? 0) && negb (rd name i =? Vfs.DOT) then skip_loop f (i + 1) name else i
  end.
Fixpoint ext_loop (n : nat) (i j : Z) (name out : list Z) : list Z :=
  match n with
  | O => out
  | S n' =>
      if negb (rd name i =? 0)
      then ext_loop n' (i + 1) (j + 1) name (wr out (8 + j) (upper (rd name i)))
      else out
  end.
Definition to_83 (name : list Z) : list Z :=
  let '(i, out) := stem_loop 8 0 name (replicate 11 32) in
  let i := skip_loop (length name) i name in
  let i := if rd name i =? Vfs.DOT then i + 1 else i in
  ext_loop 3 i 0 name out.

(** ** The block device

    [blk_read sector buf d] gives the return code, the buffer and the device
    after the call; one sector is moved. *)
Class BlkDev (D : Type) := {
  blk_read : Z -> list Z -> D -> Z * list Z * D;
  blk_write : Z -> list Z -> D -> Z * D
}.

Record fs (D : Type) := MkFs { vol : volume; sec_buf : list Z; dev : D }.
Arguments MkFs {D}. Arguments vol {D}. Arguments sec_buf {D}. Arguments dev {D}.

Definition M (D A : Type) : Type := fs D -> option (A * fs D).
#[global] Instance M_ret {D} : MRet (M D) := fun A a st => Some (a, st).
#[global] Instance M_bind {D} : MBind (M D) := fun A B k m st =>
  match m st with Some (a, st') => k a st' | None => None end.

(** The three ways a scan of directory slots goes on. *)
Inductive scan (A : Type) := Hit (a : A) | Return | Continue.
Arguments Hit {A}. Arguments Return {A}. Arguments Continue {A}.

(** The slots of the sector in [buf] from [off] on: [dir_lookup] stops at a
    free slot that was never used, and skips deleted, long-name and label
    entries. *)
Fixpoint lookup_slots (n : nat) (off : Z) (target buf : list Z) : scan (Z * Z * Z) :=
  match n with
  | O => Continue
  | S n' =>
      let e := parse_entry buf off in
      if rd (e_name e) 0 =? 0x00 then Return
      else if rd (e_name e) 0 =? 0xE5 then lookup_slots n' (off + DIR_ENTRY_SIZE) target buf
      else if e_attr e =? ATTR_LFN then lookup_slots n' (off + DIR_ENTRY_SIZE) target buf
      else if test_mask (e_attr e) ATTR_VOLUME_ID then lookup_slots n' (off + DIR_ENTRY_SIZE) target buf
      else if bool_decide (e_name e = target)
           then Hit ((e_first_cluster_hi e <<< 16) .| e_first_cluster_lo e, e_size e, e_attr e)
      else lookup_slots n' (off + DIR_ENTRY_SIZE) target buf
  end.
Fixpoint free_slot (n : nat) (off : Z) (buf : list Z) : option Z :=
  match n with
  | O => None
  | S n' => if (rd buf off =? 0x00) || (rd buf off =? 0xE5) then Some off
            else free_slot n' (off + DIR_ENTRY_SIZE) buf
  end.
Definition SLOTS : nat := 16.      (* SECTOR / DIR_ENTRY_SIZE *)

Section ops.
Context {D : Type} `{BlkDev D}.

Definition get_vol : M D volume := fun st => Some (vol st, st).
Definition get_buf : M D (list Z) := fun st => Some (sec_buf st, st).
Definition set_buf (b : list Z) : M D unit := fun st => Some (tt, MkFs (vol st) b (dev st)).
Definition set_vol (v : volume) : M D unit := fun st => Some (tt, MkFs v (sec_buf st) (dev st)).
Definition read_sec (s : Z) : M D Z := fun st =>
  let '(r, b, d) := blk_read s (sec_buf st) (dev st) in Some (r, MkFs (vol st) b d).
Definition write_sec (s : Z) : M D Z := fun st =>
  let '(r, d) := blk_write s (sec_buf st) (dev st) in Some (r, MkFs (vol st) (sec_buf st) d).

Definition cluster_to_sector (v : volume) (cluster : Z) : Z :=
  u32 (data_start_sector v + u32 (u32 (cluster - 2) * sectors_per_cluster v)).

(** The sector and the offset of a FAT entry. *)
Definition fat_sector (v : volume) (cluster : Z) : Z :=
  u32 (fat_start_sector v + u32 (cluster * 4) / SECTOR).
Definition fat_off (cluster : Z) : Z := u32 (cluster * 4) mod SECTOR.

Definition fat_next (cluster : Z) : M D Z :=
  v ← get_vol;
  r ← read_sec (fat_sector v cluster);
  if negb (r =? ESUCCESS) then mret FAT32_EOC
  else
    b ← get_buf;
    mret (ld_le 4 (fat_off cluster) (rd b) .& 0x0FFFFFFF).

Definition fat32_mount : M D Z :=
  r ← read_sec 0;
  if negb (r =? ESUCCESS) then mret EERROR
  else
    buf ← get_buf;
    let b := parse_bpb buf in
    if negb (b_bytes_per_sector b =? SECTOR) then mret EERROR
    else if negb (b_fat_size_16 b =? 0) || negb (b_root_entries_16 b =? 0) then mret EERROR
    else
      _ ← set_vol (MkVol (b_reserved_sectors b)
                         (u32 (b_reserved_sectors b + u32 (b_num_fats b * b_fat_size_32 b)))
                         (b_sectors_per_cluster b) (b_root_cluster b)
                         (u32 (b_sectors_per_cluster b * SECTOR)));
      mret ESUCCESS.

(** [dir_lookup]: the sectors of a cluster, then the clusters of the chain.
    [None] is EERROR. *)
Fixpoint lookup_sectors (n : nat) (s base : Z) (target : list Z) : M D (scan (Z * Z * Z)) :=
  match n with
  | O => mret Continue
  | S n' =>
      r ← read_sec (u32 (base + s));
      if negb (r =? ESUCCESS) then mret Return
      else
        b ← get_buf;
        match lookup_slots SLOTS 0 target b with
        | Continue => lookup_sectors n' (s + 1) base target
        | x => mret x
        end
  end.
Fixpoint lookup_loop (fuel : nat) (cluster : Z) (target : list Z) : M D (option (Z * Z * Z)) :=
  match fuel with
  | O => fun _ => None
  | S f =>
      if cluster <? FAT32_EOC then
        v ← get_vol;
        x ← lookup_sectors (Z.to_nat (sectors_per_cluster v)) 0 (cluster_to_sector v cluster) target;
        match x with
        | Hit a => mret (Some a)
        | Return => mret None
        | Continue => next ← fat_next cluster; lookup_loop f next target
        end
      else mret None
  end.
Definition dir_lookup (fuel : nat) (dir_cluster : Z) (target : list Z) : M D (option (Z * Z * Z)) :=
  lookup_loop fuel dir_cluster target.

(** [fat32_find]: every round consumes a component.  [None] is EERROR. *)
Fixpoint find_loop (n fuel : nat) (path : list Z) (cur_cluster : Z) : M D (option (Z * Z)) :=
  match n with
  | O => mret None
  | S n' =>
      match path with
      | [] => mret None
      | _ =>
          let '(seg, rest) := Vfs.span path in
          let path := Vfs.skip_slashes rest in
          x ← dir_lookup fuel cur_cluster (to_83 (take 12 seg));
          match x with
          | None => mret None
          | Some (cluster, size, attr) =>
              if negb (bool_decide (path = [])) then
                if negb (test_mask attr ATTR_DIRECTORY) then mret None
                else find_loop n' fuel path cluster
              else mret (Some (cluster, size))
          end
      end
  end.
Definition fat32_find (fuel : nat) (path : list Z) : M D (option (Z * Z)) :=
  let path := Vfs.skip_slashes path in
  v ← get_vol;
  find_loop (S (length path)) fuel path (root_cluster v).

Definition fat_write (cluster value : Z) : M D Z :=
  v ← get_vol;
  r ← read_sec (fat_sector v cluster);
  if negb (r =? ESUCCESS) then mret EERROR
  else
    b ← get_buf;
    let existing := ld_le 4 (fat_off cluster) (rd b) in
    let value := (existing .& 0xF0000000) .| (value .& 0x0FFFFFFF) in
    _ ← set_buf (splice b (fat_off cluster) (le_bytes 4 value));
    r ← write_sec (fat_sector v cluster);
    if negb (r =? ESUCCESS) then mret EERROR else mret ESUCCESS.

Fixpoint alloc_loop (fuel : nat) (c : Z) : M D Z :=
  match fuel with
  | O => fun _ => None
  | S f =>
      v ← get_vol;
      if data_start_sector v <=? fat_sector v c then mret 0
      else
        r ← read_sec (fat_sector v c);
        if negb (r =? ESUCCESS) then mret 0
        else
          b ← get_buf;
          if (ld_le 4 (fat_off c) (rd b) .& 0x0FFFFFFF) =? 0 then
            r ← fat_write c 0x0FFFFFFF;
            if negb (r =? ESUCCESS) then mret 0 else mret c
          else alloc_loop f (u32 (c + 1))
  end.
Definition fat_alloc_cluster (fuel : nat) : M D Z := alloc_loop fuel 2.

(** [dir_add_entry]; the sectors of a cluster, then the chain. *)
Fixpoint add_sectors (n : nat) (s base : Z) (entry : dir_entry) : M D (scan unit) :=
  match n with
  | O => mret Continue
  | S n' =>
      r ← read_sec (u32 (base + s));
      if negb (r =? ESUCCESS) then mret Return
      else
        b ← get_buf;
        match free_slot SLOTS 0 b with
        | Some off =>
            _ ← set_buf (splice b off (entry_bytes entry));
            r ← write_sec (u32 (base + s));
            if negb (r =? ESUCCESS) then mret Return else mret (Hit tt)
        | None => add_sectors n' (s + 1) base entry
        end
  end.
Fixpoint add_loop (fuel : nat) (cluster : Z) (entry : dir_entry) : M D Z :=
  match fuel with
  | O => fun _ => None
  | S f =>
      if cluster <? FAT32_EOC then
        v ← get_vol;
        x ← add_sectors (Z.to_nat (sectors_per_cluster v)) 0 (cluster_to_sector v cluster) entry;
        match x with
        | Hit _ => mret ESUCCESS
        | Return => mret EERROR
        | Continue => next ← fat_next cluster; add_loop f next entry
        end
      else mret EERROR
  end.
Definition dir_add_entry (fuel : nat) (dir_cluster : Z) (entry : dir_entry) : M D Z :=
  add_loop fuel dir_cluster entry.

(** [cluster_write_data]; [src] is what remains to be written, and [None] is a
    failed write. *)
Fixpoint write_sectors (n : nat) (s base : Z) (src : list Z) : M D (option (list Z)) :=
  match n with
  | O => mret (Some src)
  | S n' =>
      match src with
      | [] => mret (Some src)
      | _ =>
          let remaining := Z.of_nat (length src) in
          _ ← set_buf (if remaining <? SECTOR then src ++ replicate (Z.to_nat (SECTOR - remaining)) 0
                       else take (Z.to_nat SECTOR) src);
          r ← write_sec (u32 (base + s));
          if negb (r =? ESUCCESS) then mret None
          else
            let chunk := if remaining <? SECTOR then remaining else SECTOR in
            write_sectors n' (s + 1) base (drop (Z.to_nat chunk) src)
      end
  end.
Fixpoint write_loop (fuel : nat) (cluster : Z) (src : list Z) : M D Z :=
  match fuel with
  | O => fun _ => None
  | S f =>
      if (0 <? Z.of_nat (length src)) && (cluster <? FAT32_EOC) then
        v ← get_vol;
        x ← write_sectors (Z.to_nat (sectors_per_cluster v)) 0 (cluster_to_sector v cluster) src;
        match x with
        | None => mret EERROR
        | Some src => next ← fat_next cluster; write_loop f next src
        end
      else mret ESUCCESS
  end.
Definition cluster_write_data (fuel : nat) (first_cluster : Z) (data : list Z) : M D Z :=
  write_loop fuel first_cluster data.

(** [fat32_read]: what is left to read and the bytes put out. *)
Fixpoint read_sectors (n : nat) (s base remaining : Z) (out : list Z) : M D (option (Z * list Z)) :=
  match n with
  | O => mret (Some (remaining, out))
  | S n' =>
      if 0 <? remaining then
        r ← read_sec (u32 (base + s));
        if negb (r =? ESUCCESS) then mret None
        else
          b ← get_buf;
          let chunk := if remaining <? SECTOR then remaining else SECTOR in
          read_sectors n' (s + 1) base (u32 (remaining - chunk)) (out ++ take (Z.to_nat chunk) b)
      else mret (Some (remaining, out))
  end.
Fixpoint read_loop (fuel : nat) (cluster remaining : Z) (out : list Z) : M D (option (Z * list Z)) :=
  match fuel with
  | O => fun _ => None
  | S f =>
      if (0 <? remaining) && (cluster <? FAT32_EOC) then
        v ← get_vol;
        x ← read_sectors (Z.to_nat (sectors_per_cluster v)) 0 (cluster_to_sector v cluster) remaining out;
        match x with
        | None => mret None
        | Some (remaining, out) => next ← fat_next cluster; read_loop f next remaining out
        end
      else mret (Some (remaining, out))
  end.
(** The return value and the bytes at the start of the buffer; on an error
    the buffer is not specified. *)
Definition fat32_read (fuel : nat) (first_cluster size buf_len : Z) : M D (Z * list Z) :=
  let size := if buf_len <? size then buf_len else size in
  x ← read_loop fuel first_cluster size [];
  match x with
  | None => mret (-1, [])
  | Some (remaining, out) => mret (s32 (u32 (size - remaining)), out)
  end.

(** [fat32_create] *)
(** The text before the last slash, if there is one, and the text after it. *)
Fixpoint split_last (p : list Z) : option (list Z) * list Z :=
  match p with
  | [] => (None, [])
  | c :: p' =>
      match split_last p' with
      | (Some d, n) => (Some (c :: d), n)
      | (None, n) => if c =? Vfs.SLASH then (Some [], n) else (None, c :: n)
      end
  end.
(** The walk to the parent; [None] is EERROR. *)
Fixpoint parent_loop (n fuel : nat) (walk : list Z) (dir_cluster : Z) : M D (option Z) :=
  match n with
  | O => mret (Some dir_cluster)
  | S n' =>
      match walk with
      | [] => mret (Some dir_cluster)
      | _ =>
          let '(seg, rest) := Vfs.span walk in
          x ← dir_lookup fuel dir_cluster (to_83 (take 12 seg));
          match x with
          | None => mret None
          | Some (cluster, _, attr) =>
              if negb (test_mask attr ATTR_DIRECTORY) then mret None
              else parent_loop n' fuel (Vfs.skip_slashes rest) cluster
          end
      end
  end.
(** The allocation of [n] more clusters; the result is the first cluster. *)
Fixpoint chain_loop (n fuel : nat) (i first_cluster prev_cluster : Z) : M D (option Z) :=
  match n with
  | O => mret (Some first_cluster)
  | S n' =>
      c ← fat_alloc_cluster fuel;
      if c =? 0 then mret None
      else
        let first_cluster := if i =? 0 then c else first_cluster in
        if negb (prev_cluster =? 0) then
          r ← fat_write prev_cluster c;
          if negb (r =? ESUCCESS) then mret None else chain_loop n' fuel (i + 1) first_cluster c
        else chain_loop n' fuel (i + 1) first_cluster c
  end.
Definition clusters_needed (v : volume) (len : Z) : Z :=
  if len =? 0 then 0 else u32 (u32 (len + bytes_per_cluster v) - 1) / bytes_per_cluster v.
Definition new_entry (filename : list Z) (first_cluster len : Z) : dir_entry :=
  MkEntry (to_83 filename) 0x20 0 0 0 0 0 (u16 (first_cluster >>> 16)) 0 0
          (u16 (first_cluster .& 0xFFFF)) len.
(** [data] has [len] bytes. *)
Definition fat32_create (fuel : nat) (path data : list Z) : M D Z :=
  let len := Z.of_nat (length data) in
  let p := Vfs.skip_slashes path in
  v ← get_vol;
  let '(dirs, fname) := split_last p in
  dir ← match dirs with
        | Some d => parent_loop (length d) fuel d (root_cluster v)
        | None => mret (Some (root_cluster v))
        end;
  match dir with
  | None => mret EERROR
  | Some dir_cluster =>
      let filename := take 12 fname in
      first ← chain_loop (Z.to_nat (clusters_needed v len)) fuel 0 0 0;
      match first with
      | None => mret EERROR
      | Some first_cluster =>
          r ← (if (0 <? len) && negb (first_cluster =? 0)
               then cluster_write_data fuel first_cluster data else mret ESUCCESS);
          if negb (r =? ESUCCESS) then mret EERROR
          else
            r ← dir_add_entry fuel dir_cluster (new_entry filename first_cluster len);
            if negb (r =? ESUCCESS) then mret EERROR else mret ESUCCESS
      end
  end.

(** [None] is EERROR; otherwise the first cluster, the size and [is_dir]. *)
Definition fat32_lookup_in_dir (fuel : nat) (dir_cluster : Z) (name : list Z) : M D (option (Z * Z * Z)) :=
  x ← dir_lookup fuel dir_cluster (to_83 name);
  match x with
  | None => mret None
  | Some (cluster, size, attr) =>
      mret (Some (cluster, size, if test_mask attr ATTR_DIRECTORY then 1 else 0))
  end.
Definition fat32_root_cluster : M D Z := v ← get_vol; mret (root_cluster v).
End ops.

(** ** Behind the VFS (fat32_vfs.c)

    [privs] is the memory of the [fat32_priv_t] blocks by address. *)
Record fat32_priv := MkPriv { first_cluster : Z; psize : Z }.
Record fvs (E D : Type) := MkFvs { vf : Vfs.vfs E; ft : fs D; privs : gmap Z fat32_priv }.
Arguments MkFvs {E D}. Arguments vf {E D}. Arguments ft {E D}. Arguments privs {E D}.

(** [sizeof(fat32_priv_t)], and the identities of the two vtables *)
Definition SIZEOF_PRIV : Z := 8.
Definition fat32_file_ops : Z := 1.
Definition fat32_dir_ops : Z := 2.

Definition set_private (p size : Z) (n : Vfs.vnode) : Vfs.vnode :=
  Vfs.MkVnode (Vfs.name n) (Vfs.vtype n) (Vfs.ops n) (Vfs.v_ops n) p size
              (Vfs.parent n) (Vfs.children n) (Vfs.next n).
Definition set_v_ops (o : Z) (n : Vfs.vnode) : Vfs.vnode :=
  Vfs.MkVnode (Vfs.name n) (Vfs.vtype n) (Vfs.ops n) o (Vfs.private_data n) (Vfs.vsize n)
              (Vfs.parent n) (Vfs.children n) (Vfs.next n).

Section vfs_ops.
Context {E D : Type} `{TaskEnv E} `{BlkDev D}.

Definition fat32_lookup (fuel : nat) (dir : Z) (nm : list Z) (w : fvs E D) : option (Z * fvs E D) :=
  let pd := Vfs.private_data (Vfs.node (vf w) dir) in
  if pd =? 0 then Some (0, w)
  else if 12 <? Z.of_nat (length nm) then Some (0, w)
  else
    match fat32_lookup_in_dir fuel (first_cluster (default (MkPriv 0 0) (privs w !! pd))) nm (ft w) with
    | None => None
    | Some (None, t) => Some (0, MkFvs (vf w) t (privs w))
    | Some (Some (cluster, size, is_dir), t) =>
        let '(cpd, e) := te_kmalloc SIZEOF_PRIV (Vfs.venv (vf w)) in
        let s := Vfs.set_venv (vf w) e in
        if cpd =? 0 then Some (0, MkFvs s t (privs w))
        else
          let pr := <[cpd := MkPriv cluster size]> (privs w) in
          let '(child, s) :=
            Vfs.vfs_create_node dir nm (if negb (is_dir =? 0) then Vfs.VNODE_DIR else Vfs.VNODE_REG) s in
          if child =? 0
          then Some (0, MkFvs (Vfs.set_venv s (te_kfree cpd (Vfs.venv s))) t (delete cpd pr))
          else
            let s := Vfs.put_node s child (set_private cpd size) in
            let s := Vfs.put_node s child (if negb (is_dir =? 0) then set_v_ops fat32_dir_ops
                                           else Vfs.set_ops fat32_file_ops) in
            Some (child, MkFvs s t pr)
    end.

(** The return value and the bytes copied to the caller's buffer. *)
Definition fat32_file_read (fuel : nat) (n f count : Z) (w : fvs E D) : option (Z * list Z * fvs E D) :=
  let s := vf w in
  let pd := Vfs.private_data (Vfs.node s n) in
  if pd =? 0 then Some (-1, [], w)
  else
    let p := default (MkPriv 0 0) (privs w !! pd) in
    let offset := Vfs.offset (Vfs.get_file s f) in
    if psize p <=? offset then Some (0, [], w)
    else
      let remaining := psize p - offset in
      let to_read := u32 (if remaining <? count then remaining else count) in
      let total_needed := u32 (u32 offset + to_read) in
      let '(tmp, e) := te_kmalloc total_needed (Vfs.venv s) in
      let s := Vfs.set_venv s e in
      if tmp =? 0 then Some (-1, [], MkFvs s (ft w) (privs w))
      else
        match fat32_read fuel (first_cluster p) total_needed total_needed (ft w) with
        | None => None
        | Some ((got, bytes), t) =>
            let s := Vfs.set_venv s (te_kfree tmp (Vfs.venv s)) in
            if got <? 0 then Some (-1, [], MkFvs s t (privs w))
            else if u32 got <=? u32 offset then Some (0, [], MkFvs s t (privs w))
            else
              let to_read := if u32 got <? total_needed then u32 (u32 got - u32 offset) else to_read in
              let s := Vfs.set_file s f (Vfs.MkFile (Vfs.fvnode (Vfs.get_file s f)) (u64 (offset + to_read))) in
              Some (s32 to_read, take (Z.to_nat to_read) (drop (Z.to_nat offset) bytes),
                    MkFvs s t (privs w))
        end.

Context `{Vfs.Lookup E}.
Definition fat32_vfs_mount (path : list Z) (w : fvs E D) : Z * fvs E D :=
  let '(mp, s) := Vfs.vfs_resolve path (vf w) in
  if mp =? 0 then (EERROR, MkFvs s (ft w) (privs w))
  else if negb (bool_decide (Vfs.vtype (Vfs.node s mp) = Vfs.VNODE_DIR)) then (EERROR, MkFvs s (ft w) (privs w))
  else
    let '(pd, e) := te_kmalloc SIZEOF_PRIV (Vfs.venv s) in
    let s := Vfs.set_venv s e in
    if pd =? 0 then (EERROR, MkFvs s (ft w) (privs w))
    else
      let s := Vfs.put_node s mp (fun n => set_v_ops fat32_dir_ops (set_private pd (Vfs.vsize n) n)) in
      (ESUCCESS, MkFvs s (ft w) (<[pd := MkPriv (root_cluster (vol (ft w))) 0]> (privs w))).
End vfs_ops.

(** ** What the device promises

    [contents d s] is sector [s]; on a [live] sector, one within the capacity
    that the device can serve, a read gives the contents and a write replaces
    them, and neither affects any other sector. *)
Class BlkLaws (D : Type) `{BlkDev D} := {
  contents : D -> Z -> list Z;
  live : D -> Z -> Prop;
  contents_bytes d s : live d s -> length (contents d s) = 512%nat /\ Forall is_byte (contents d s);
  blk_read_law d s b : live d s -> exists d',
    blk_read s b d = (ESUCCESS, contents d s, d') /\
    (forall x, contents d' x = contents d x) /\ (forall x, live d' x <-> live d x);
  blk_write_law d s b : live d s -> length b = 512%nat -> Forall is_byte b -> exists d',
    blk_write s b d = (ESUCCESS, d') /\
    (forall x, contents d' x = if x =? s then b else contents d x) /\ (forall x, live d' x <-> live d x)
}.

(** A disk as the list of bytes of each sector. *)
Definition disk : Type := Z -> list Z.
Definition upd (σ : disk) (s : Z) (b : list Z) : disk := fun x => if x =? s then b else σ x.
Lemma upd_eq σ s b : upd σ s b s = b.
Proof. unfold upd. by rewrite Z.eqb_refl. Qed.
Lemma upd_ne σ s b x : x <> s -> upd σ s b x = σ x.
Proof. intros. unfold upd. by destruct (Z.eqb_spec x s). Qed.

(** ** Bytes in a buffer *)
Lemma length_splice b off l :
  0 <= off -> (Z.to_nat off + length l <= length b)%nat -> length (splice b off l) = length b.
Proof. intros. unfold splice. rewrite !length_app, length_take, length_drop. lia. Qed.
Lemma rd_splice b off l x :
  0 <= off -> 0 <= x -> (Z.to_nat off + length l <= length b)%nat ->
  rd (splice b off l) x =
    if (off <=? x) && (x <? off + Z.of_nat (length l)) then rd l (x - off) else rd b x.
Proof.
  intros Ho Hx Hl. unfold rd, splice. rewrite !nth_lookup.
  destruct (Z.leb_spec off x); cbn [andb].
  - rewrite lookup_app_r by (rewrite length_take; lia). rewrite length_take.
    destruct (Z.ltb_spec x (off + Z.of_nat (length l))).
    + rewrite lookup_app_l by lia. do 2 f_equal. lia.
    + rewrite lookup_app_r, lookup_drop by lia. do 2 f_equal. lia.
  - rewrite lookup_app_l by (rewrite length_take; lia). by rewrite lookup_take_lt by lia.
Qed.
Lemma Forall_splice P b off l : Forall P b -> Forall P l -> Forall P (splice b off l).
Proof. intros. unfold splice. rewrite !Forall_app. split; [by apply Forall_take|]. split; [done|by apply Forall_drop]. Qed.

Lemma length_le_bytes n v : length (le_bytes n v) = n.
Proof. revert v. induction n as [|n IH]; intros v; cbn [le_bytes length]; [done|]. by rewrite IH. Qed.
Lemma le_bytes_byte n v : Forall is_byte (le_bytes n v).
Proof. revert v. induction n as [|n IH]; intros v; cbn [le_bytes]; constructor; [unfold is_byte; dlia|done]. Qed.

Lemma rd_cons x l i : 0 <= i -> rd (x :: l) i = if i =? 0 then x else rd l (i - 1).
Proof.
  intros. unfold rd. destruct (Z.eqb_spec i 0) as [->|]; [done|].
  replace (Z.to_nat i) with (S (Z.to_nat (i - 1))) by lia. done.
Qed.
Lemma ld_le_bytes n v : 0 <= v < 256 ^ Z.of_nat n -> ld_le n 0 (rd (le_bytes n v)) = v.
Proof.
  revert v. induction n as [|n IH]; intros v Hv; [change (0 = v); cbn in Hv; lia|].
  rewrite Nat2Z.inj_succ, Z.pow_succ_r in Hv by lia. rewrite ld_le_S. cbn [le_bytes].
  rewrite rd_cons by lia. cbn [Z.eqb].
  rewrite (ld_le_shift n 0 1), (ld_le_ext _ _ _ (rd (le_bytes n (v / 256)))); [rewrite IH by dlia; dlia|].
  intros x Hx. rewrite rd_cons by lia. destruct (Z.eqb_spec (x + 1) 0); [lia|]. f_equal. lia.
Qed.
(** A little-endian field put into a buffer reads back, others are unchanged. *)
Lemma ld_splice_eq n b off v :
  0 <= off -> (Z.to_nat off + n <= length b)%nat -> 0 <= v < 256 ^ Z.of_nat n ->
  ld_le n off (rd (splice b off (le_bytes n v))) = v.
Proof.
  intros Ho Hl Hv. rewrite <- (ld_le_bytes n v Hv) at 2. rewrite <- (Z.add_0_l off) at 1. rewrite ld_le_shift.
  apply ld_le_ext. intros x Hx. rewrite rd_splice by (rewrite ?length_le_bytes; lia). rewrite length_le_bytes.
  destruct (Z.leb_spec off (x + off)); [|lia]. destruct (Z.ltb_spec (x + off) (off + Z.of_nat n)); [|lia].
  cbn [andb]. f_equal. lia.
Qed.
Lemma ld_splice_ne n b off l a :
  0 <= off -> 0 <= a -> (Z.to_nat off + length l <= length b)%nat ->
  a + Z.of_nat n <= off \/ off + Z.of_nat (length l) <= a ->
  ld_le n a (rd (splice b off l)) = ld_le n a (rd b).
Proof.
  intros Ho Ha Hl Hd. apply ld_le_ext. intros x Hx. rewrite rd_splice by lia.
  destruct (Z.leb_spec off x), (Z.ltb_spec x (off + Z.of_nat (length l))); cbn [andb]; done || lia.
Qed.

(** ** 8.3 names *)
Lemma upper_byte c : is_byte c -> is_byte (upper c).
Proof. unfold is_byte, upper. case_if; [|done]. intros. rewrite u8_small; lia. Qed.
Lemma upper_nz c : 0 < c < 256 -> upper c <> 0.
Proof. unfold upper. case_if; [|lia]. intros. rewrite u8_small; lia. Qed.
Lemma upper_e5 c : 0 <= c < 256 -> upper c = 0xE5 -> c = 0xE5.
Proof. unfold upper. case_if; [|done]. intros ?. rewrite u8_small; lia. Qed.
Lemma stem_loop_S n i name out :
  stem_loop (S n) i name out =
    if negb (rd name i =? 0) && negb (rd name i =? Vfs.DOT)
    then stem_loop n (i + 1) name (wr out i (upper (rd name i))) else (i, out).
Proof. done. Qed.
Lemma stem_loop_spec n i name out :
  0 <= i -> Forall is_byte name -> Forall is_byte out ->
  let r := (stem_loop n i name out).2 in
  length r = length out /\ Forall is_byte r /\ (0 < i -> rd r 0 = rd out 0).
Proof.
  revert i out. induction n as [|n IH]; intros i out Hi HF Ho; cbn [stem_loop]; [done|].
  case_if; [|done]. destruct (IH (i + 1) (wr out i (upper (rd name i)))) as (Hl & Hb & Hr); [lia|done| |].
  { apply Forall_wr; [done|by apply upper_byte, rd_byte]. }
  split; [by rewrite Hl, length_wr|]. split; [done|]. intros. rewrite Hr by lia. by rewrite rd_wr_ne by lia.
Qed.
Lemma ext_loop_spec n i j name out :
  0 <= j -> Forall is_byte name -> Forall is_byte out ->
  let r := ext_loop n i j name out in
  length r = length out /\ Forall is_byte r /\ rd r 0 = rd out 0.
Proof.
  revert i j out. induction n as [|n IH]; intros i j out Hj HF Ho; cbn [ext_loop]; [done|].
  case_if; [|done]. destruct (IH (i + 1) (j + 1) (wr out (8 + j) (upper (rd name i)))) as (Hl & Hb & Hr); [lia|done| |].
  { apply Forall_wr; [done|by apply upper_byte, rd_byte]. }
  split; [by rewrite Hl, length_wr|]. split; [done|]. rewrite Hr. by rewrite rd_wr_ne by lia.
Qed.
(** Eleven bytes; the first is that of the name in upper case, or a space. *)
Lemma to_83_spec name :
  Forall is_byte name ->
  length (to_83 name) = 11%nat /\ Forall is_byte (to_83 name) /\
  rd (to_83 name) 0 = if (rd name 0 =? 0) || (rd name 0 =? Vfs.DOT) then 32 else upper (rd name 0).
Proof.
  intros HF. unfold to_83.
  assert (Forall is_byte (replicate 11 32)) as Hsp by (apply Forall_replicate; unfold is_byte; lia).
  assert (length (stem_loop 8 0 name (replicate 11 32)).2 = 11%nat /\
    Forall is_byte (stem_loop 8 0 name (replicate 11 32)).2 /\
    rd (stem_loop 8 0 name (replicate 11 32)).2 0 =
      if (rd name 0 =? 0) || (rd name 0 =? Vfs.DOT) then 32 else upper (rd name 0)) as (Hl & Hb & Hr).
  { destruct (stem_loop_spec 8 0 name (replicate 11 32)) as (Hl & Hb & _); [lia|done|done|].
    split; [done|]. split; [done|]. rewrite (stem_loop_S 7).
    destruct (rd name 0 =? 0), (rd name 0 =? Vfs.DOT); cbn [negb andb orb]; try done.
    destruct (stem_loop_spec 7 (0 + 1) name (wr (replicate 11 32) 0 (upper (rd name 0)))) as (_ & _ & Hr);
      [lia|done|apply Forall_wr; [done|by apply upper_byte, rd_byte]|].
    rewrite Hr by lia. by rewrite rd_wr_eq by (rewrite length_replicate; lia). }
  destruct (stem_loop 8 0 name (replicate 11 32)) as [i out]. cbn [snd] in *.
  destruct (ext_loop_spec 3 (if rd name (skip_loop (length name) i name) =? Vfs.DOT
    then skip_loop (length name) i name + 1 else skip_loop (length name) i name) 0 name out) as (Hl' & Hb' & Hr');
    [lia|done|done|]. by rewrite Hl', Hr'.
Qed.

(** The names a new entry can have: C strings that do not look deleted. *)
Definition name_ok (fname : list Z) : Prop :=
  (length fname <= 12)%nat /\ Forall (fun c => 0 < c < 256) fname /\ rd fname 0 <> 0xE5.
Lemma to_83_first fname : name_ok fname -> rd (to_83 fname) 0 <> 0 /\ rd (to_83 fname) 0 <> 0xE5.
Proof.
  intros (_ & HF & Hne). assert (Forall is_byte fname) as Hb by (eapply Forall_impl; [exact HF|unfold is_byte; lia]).
  destruct (to_83_spec fname Hb) as (_ & _ & ->). pose proof (rd_byte fname 0 Hb) as Hr. unfold is_byte in Hr.
  destruct (Z.eqb_spec (rd fname 0) 0), (Z.eqb_spec (rd fname 0) Vfs.DOT); cbn [orb]; try done.
  split; [apply upper_nz; lia|]. intros ?%upper_e5; done || lia.
Qed.

Lemma join16 x : 0 <= x < 2 ^ 32 -> (u16 (x >>> 16) <<< 16) .| u16 (x .& 0xFFFF) = x.
Proof.
  intros Hx. change 0xFFFF with (Z.ones 16). rewrite Z.shiftr_div_pow2, Z.land_ones by lia.
  rewrite !u16_small by dlia. rewrite <- Z.shiftr_div_pow2, <- Z.land_ones by lia. apply Z.bits_inj'. intros i Hi.
  rewrite Z.lor_spec, Z.shiftl_spec, Z.land_spec by lia. destruct (decide (i < 16)).
  - rewrite (Z.testbit_neg_r _ (i - 16)), Z.ones_spec_low by lia. by rewrite andb_true_r.
  - rewrite Z.shiftr_spec, Z.ones_spec_high, andb_false_r, orb_false_r by lia. f_equal. lia.
Qed.

(** ** A program logic for the operations on live sectors

    [exec σ ob m r σ' ob']: from any state whose disk is [σ] (and whose buffer
    is [b], when [ob] is [Some b]), [m] returns [r] in a state with the disk
    [σ'] and the buffer [ob'].  [L] is the set of sectors that are live. *)
Section logic.
Context {D : Type} `{BlkLaws D} (v : volume) (L : Z -> Prop).
Implicit Types σ : disk.

Definition disk_ok σ : Prop := forall s, L s -> length (σ s) = 512%nat /\ Forall is_byte (σ s).
Definition at_disk σ (ob : option (list Z)) (st : fs D) : Prop :=
  vol st = v /\ (forall s, contents (dev st) s = σ s) /\ (forall s, L s -> live (dev st) s) /\
  match ob with Some b => sec_buf st = b | None => True end.
Definition exec {A} σ ob (m : M D A) (r : A) σ' ob' : Prop :=
  forall st, at_disk σ ob st -> exists st', m st = Some (r, st') /\ at_disk σ' ob' st'.

Lemma at_disk_ok σ ob st : at_disk σ ob st -> disk_ok σ.
Proof. intros (_ & Hc & HL & _) s Hs. rewrite <- Hc. apply contents_bytes, HL, Hs. Qed.
Lemma exec_ok {A} σ ob (m : M D A) r σ' ob' : (disk_ok σ -> exec σ ob m r σ' ob') -> exec σ ob m r σ' ob'.
Proof. intros Hx st Hst. apply Hx; [by eapply at_disk_ok|done]. Qed.
Lemma exec_forget {A} σ ob (m : M D A) r σ' ob' : exec σ ob m r σ' ob' -> exec σ ob m r σ' None.
Proof. intros Hx st Hst. destruct (Hx st Hst) as (st' & Hm & ? & ? & ? & _). by exists st'. Qed.
Lemma exec_any {A} σ ob (m : M D A) r σ' ob' : exec σ None m r σ' ob' -> exec σ ob m r σ' ob'.
Proof. intros Hx st (? & ? & ? & _). by apply Hx. Qed.
Lemma exec_ret {A} σ ob (a : A) : exec σ ob (mret a) a σ ob.
Proof. intros st Hst. by exists st. Qed.
Lemma exec_bind {A B} σ ob (m : M D A) a σ1 ob1 (k : A -> M D B) b σ2 ob2 :
  exec σ ob m a σ1 ob1 -> exec σ1 ob1 (k a) b σ2 ob2 -> exec σ ob (m ≫= k) b σ2 ob2.
Proof.
  intros Hm Hk st Hst. destruct (Hm st Hst) as (st1 & E1 & Hst1). unfold mbind, M_bind. rewrite E1.
  by apply Hk.
Qed.
Lemma exec_get_vol σ ob : exec σ ob get_vol v σ ob.
Proof. intros st Hst. exists st. split; [|done]. unfold get_vol. by destruct Hst as [-> _]. Qed.
Lemma exec_get_buf σ b : exec σ (Some b) get_buf b σ (Some b).
Proof. intros st Hst. exists st. split; [|done]. unfold get_buf. by destruct Hst as (_ & _ & _ & ->). Qed.
Lemma exec_set_buf σ ob b : exec σ ob (set_buf b) tt σ (Some b).
Proof. intros st (? & ? & ? & _). by eexists. Qed.
Lemma exec_read σ ob s : L s -> exec σ ob (read_sec s) ESUCCESS σ (Some (σ s)).
Proof.
  intros Hs st (Hv & Hc & HL & _). destruct (blk_read_law (dev st) s (sec_buf st) (HL s Hs)) as (d' & E & Hc' & HL').
  unfold read_sec. rewrite E. eexists. split; [done|]. split; [done|]. cbn [dev sec_buf].
  split; [intros x; by rewrite Hc', Hc|]. split; [intros x Hx; by apply HL', HL|apply Hc].
Qed.
Lemma exec_write σ b s :
  L s -> length b = 512%nat -> Forall is_byte b ->
  exec σ (Some b) (write_sec s) ESUCCESS (upd σ s b) (Some b).
Proof.
  intros Hs Hb HF st (Hv & Hc & HL & <-).
  destruct (blk_write_law (dev st) s (sec_buf st) (HL s Hs) Hb HF) as (d' & E & Hc' & HL').
  unfold write_sec. rewrite E. eexists. split; [done|]. split; [done|]. cbn [dev sec_buf].
  split; [intros x; unfold upd; by rewrite Hc', Hc|]. split; [intros x Hx; by apply HL', HL|done].
Qed.
Lemma exec_det {A} σ ob (m : M D A) r1 σ1 o1 st r2 st2 :
  exec σ ob m r1 σ1 o1 -> at_disk σ ob st -> m st = Some (r2, st2) -> r1 = r2 /\ at_disk σ1 o1 st2.
Proof. intros Hx Hst Hm. destruct (Hx st Hst) as (st' & E & ?). rewrite Hm in E. by simplify_eq. Qed.

(** Steps of a symbolic execution. *)
Ltac xvol := eapply exec_bind; [apply exec_get_vol|].
Ltac xread tac :=
  eapply exec_bind; [apply exec_read; tac|]; cbn [negb Z.eqb ESUCCESS];
  eapply exec_bind; [apply exec_get_buf|].
Ltac xret := eapply exec_forget, exec_ret.

(** ** Geometry *)

(** The number of entries between the start of the FAT and the data. *)
Definition ncl : Z := (data_start_sector v - fat_start_sector v) * 128.
Record volume_ok : Prop := {
  vo_spc : 0 < sectors_per_cluster v < 256;
  vo_bpc : bytes_per_cluster v = sectors_per_cluster v * SECTOR;
  vo_fat : 0 <= fat_start_sector v < data_start_sector v;
  vo_ncl : ncl <= FAT32_EOC;
  vo_end : data_start_sector v + ncl * sectors_per_cluster v < 2 ^ 32
}.
Context (Hvol : volume_ok).

Definition valid (c : Z) : Prop := 2 <= c < ncl.
(** Sector [s] of cluster [c]. *)
Definition csec (c s : Z) : Z := data_start_sector v + (c - 2) * sectors_per_cluster v + s.
Definition csecs (c : Z) : list Z := csec c <$> seqZ 0 (sectors_per_cluster v).
Definition chain_secs (l : list Z) : list Z := l ≫= csecs.

Lemma data_start_u32 : data_start_sector v < 2 ^ 32.
Proof.
  destruct Hvol as [Hs _ Hf _ He]. assert (0 <= ncl * sectors_per_cluster v); [|lia].
  apply Z.mul_nonneg_nonneg; unfold ncl; lia.
Qed.
Lemma fat_sector_val c : 0 <= c < ncl + 128 -> fat_sector v c = fat_start_sector v + c / 128.
Proof.
  intros Hc. pose proof data_start_u32. destruct Hvol as [_ _ Hf Hn _]. clear Hvol.
  unfold ncl, FAT32_EOC in *. unfold fat_sector, SECTOR.
  rewrite (u32_small (c * 4)) by lia. replace (c * 4 / 512) with (c / 128) by dlia.
  apply u32_small. dlia.
Qed.
Lemma fat_off_val c : 0 <= c < ncl + 128 -> fat_off c = (c mod 128) * 4.
Proof.
  intros Hc. destruct Hvol as [_ _ _ Hn _]. unfold ncl, FAT32_EOC in *. unfold fat_off, SECTOR.
  rewrite u32_small by lia. dlia.
Qed.
Lemma fat_sector_lt c : 0 <= c < ncl -> fat_start_sector v <= fat_sector v c < data_start_sector v.
Proof. intros Hc. rewrite fat_sector_val by lia. unfold ncl in Hc. dlia. Qed.
Lemma csec_val c s :
  valid c -> 0 <= s < sectors_per_cluster v -> u32 (cluster_to_sector v c + s) = csec c s.
Proof.
  intros [Hc1 Hc2] Hs. destruct Hvol as [Hp _ Hf Hn He]. unfold FAT32_EOC in Hn. unfold cluster_to_sector, csec.
  assert ((c - 2) * sectors_per_cluster v + s < ncl * sectors_per_cluster v) by nia.
  assert (0 <= (c - 2) * sectors_per_cluster v) by nia.
  rewrite (u32_small (c - 2)) by lia. rewrite (u32_small ((c - 2) * _)) by lia.
  rewrite (u32_small (data_start_sector v + _)) by lia. by rewrite u32_small by lia.
Qed.
Lemma csec_ge c s : valid c -> 0 <= s -> data_start_sector v <= csec c s.
Proof. intros [? ?] ?. destruct Hvol. unfold csec. nia. Qed.
Lemma csec_inj c s c' s' :
  0 <= s < sectors_per_cluster v -> 0 <= s' < sectors_per_cluster v -> csec c s = csec c' s' -> c = c' /\ s = s'.
Proof.
  intros Hs Hs' He. unfold csec in He.
  assert ((c - 2) * sectors_per_cluster v + s = (c' - 2) * sectors_per_cluster v + s') by lia.
  assert (c = c'); [|subst; lia]. nia.
Qed.
Lemma elem_of_csecs c x : x ∈ csecs c <-> exists s, x = csec c s /\ 0 <= s < sectors_per_cluster v.
Proof.
  unfold csecs. rewrite list_elem_of_fmap. split; intros (s & -> & Hs); exists s; (split; [done|]); rewrite elem_of_seqZ in *; lia.
Qed.
Lemma elem_of_chain_secs l x :
  x ∈ chain_secs l <-> exists c s, x = csec c s /\ c ∈ l /\ 0 <= s < sectors_per_cluster v.
Proof.
  unfold chain_secs. rewrite list_elem_of_bind. setoid_rewrite elem_of_csecs. naive_solver.
Qed.

(** ** The file allocation table *)
Context (HLfat : forall s, fat_start_sector v <= s < data_start_sector v -> L s).

Definition fat_word σ (c : Z) : Z := ld_le 4 (fat_off c) (rd (σ (fat_sector v c))).
Definition fat σ (c : Z) : Z := fat_word σ c .& 0x0FFFFFFF.
Definition fat_set σ (c x : Z) : disk :=
  upd σ (fat_sector v c)
      (splice (σ (fat_sector v c)) (fat_off c)
              (le_bytes 4 ((fat_word σ c .& 0xF0000000) .| (x .& 0x0FFFFFFF)))).

Lemma fat_live c : 0 <= c < ncl -> L (fat_sector v c).
Proof. intros Hc. by apply HLfat, fat_sector_lt. Qed.
Lemma fat_off_range c : 0 <= c < ncl -> 0 <= fat_off c <= 508.
Proof. intros Hc. rewrite fat_off_val by lia. dlia. Qed.
Lemma fat_word_range σ c : disk_ok σ -> 0 <= c < ncl -> 0 <= fat_word σ c < 2 ^ 32.
Proof.
  intros Hok Hc. destruct (Hok _ (fat_live c Hc)) as [Hl HF]. pose proof (fat_off_range c Hc).
  apply (ld_le_range 4). intros x Hx. apply rd_Forall; [done|lia].
Qed.
Lemma fat_range σ c : disk_ok σ -> 0 <= c < ncl -> 0 <= fat σ c < 2 ^ 28.
Proof.
  intros Hok Hc. pose proof (fat_word_range σ c Hok Hc). unfold fat. change 0x0FFFFFFF with (Z.ones 28).
  rewrite Z.land_ones by lia. apply Z.mod_pos_bound. lia.
Qed.
Lemma fat_merge_range w x : 0 <= w < 2 ^ 32 -> 0 <= (w .& 0xF0000000) .| (x .& 0x0FFFFFFF) < 2 ^ 32.
Proof.
  intros. apply lor_range; [lia|by apply land_range_l|].
  rewrite Z.land_comm. apply land_range_l; lia.
Qed.
Lemma fat_merge w x : 0 <= x < 2 ^ 28 -> ((w .& 0xF0000000) .| (x .& 0x0FFFFFFF)) .& 0x0FFFFFFF = x.
Proof.
  intros. rewrite Z.land_lor_distr_l, <- !Z.land_assoc. change (0xF0000000 .& 0x0FFFFFFF) with 0.
  change (0x0FFFFFFF .& 0x0FFFFFFF) with (Z.ones 28). rewrite Z.land_0_r, Z.lor_0_l, Z.land_ones by lia.
  by apply Z.mod_small.
Qed.

Lemma fat_set_ok σ c x : disk_ok σ -> 0 <= c < ncl -> disk_ok (fat_set σ c x).
Proof.
  intros Hok Hc s Hs. unfold fat_set, upd. case_if; [|by apply Hok].
  destruct (Hok _ (fat_live c Hc)) as [Hl HF]. pose proof (fat_off_range c Hc). split.
  - rewrite length_splice; rewrite ?length_le_bytes; lia.
  - apply Forall_splice; [done|apply le_bytes_byte].
Qed.
Lemma fat_set_eq σ c x : disk_ok σ -> 0 <= c < ncl -> 0 <= x < 2 ^ 28 -> fat (fat_set σ c x) c = x.
Proof.
  intros Hok Hc Hx. destruct (Hok _ (fat_live c Hc)) as [Hl _]. pose proof (fat_off_range c Hc).
  unfold fat, fat_set, fat_word at 1. rewrite upd_eq, ld_splice_eq; [by apply fat_merge|lia|lia|].
  apply fat_merge_range. by apply fat_word_range.
Qed.
Lemma fat_set_ne σ c x c' :
  disk_ok σ -> 0 <= c < ncl -> 0 <= c' < ncl -> c' <> c -> fat (fat_set σ c x) c' = fat σ c'.
Proof.
  intros Hok Hc Hc' Hne. unfold fat, fat_set. f_equal. unfold fat_word at 1.
  destruct (decide (fat_sector v c' = fat_sector v c)) as [He|Hs]; [|by rewrite upd_ne].
  destruct (Hok _ (fat_live c Hc)) as [Hl _]. pose proof (fat_off_range c Hc). pose proof (fat_off_range c' Hc').
  rewrite He, upd_eq, ld_splice_ne; unfold fat_word; rewrite ?length_le_bytes, ?He; try done; try lia.
  rewrite !fat_sector_val in He by lia. rewrite !fat_off_val by lia. dlia.
Qed.
Lemma fat_set_data σ c x s : 0 <= c < ncl -> data_start_sector v <= s -> fat_set σ c x s = σ s.
Proof. intros Hc Hs. pose proof (fat_sector_lt c Hc). apply upd_ne. lia. Qed.
Lemma fat_ext σ σ' c :
  0 <= c < ncl -> (forall s, s < data_start_sector v -> σ' s = σ s) -> fat σ' c = fat σ c.
Proof. intros Hc He. pose proof (fat_sector_lt c Hc). unfold fat, fat_word. by rewrite He by lia. Qed.

Lemma exec_fat_next σ ob c : 0 <= c < ncl -> exec σ ob (fat_next c) (fat σ c) σ None.
Proof. intros Hc. xvol. xread ltac:(by apply fat_live). xret. Qed.
Lemma exec_fat_write σ ob c x : 0 <= c < ncl -> exec σ ob (fat_write c x) ESUCCESS (fat_set σ c x) None.
Proof.
  intros Hc. apply exec_ok. intros Hok. destruct (Hok _ (fat_live c Hc)) as [Hl HF]. pose proof (fat_off_range c Hc).
  xvol. xread ltac:(by apply fat_live). eapply exec_bind; [apply exec_set_buf|].
  eapply exec_bind; [apply exec_write; [by apply fat_live| |]|xret].
  - rewrite length_splice; rewrite ?length_le_bytes; lia.
  - apply Forall_splice; [done|apply le_bytes_byte].
Qed.

(** ** Free clusters *)
Definition free_from σ (c : Z) : list Z := filter (fun x => fat σ x = 0) (seqZ c (ncl - c)).
Definition free_list σ : list Z := free_from σ 2.

Lemma free_list_valid σ c : c ∈ free_list σ -> valid c /\ fat σ c = 0.
Proof. unfold free_list, free_from. rewrite list_elem_of_filter, elem_of_seqZ. unfold valid. lia. Qed.
Lemma free_list_NoDup σ : NoDup (free_list σ).
Proof. apply NoDup_filter, NoDup_seqZ. Qed.

(** The scan finds the first free cluster, or ends with 0 at the data area. *)
Lemma exec_alloc_loop σ ob fuel c :
  0 <= c <= ncl -> (Z.to_nat (ncl - c) < fuel)%nat ->
  match free_from σ c with
  | c0 :: _ => exec σ ob (alloc_loop fuel c) c0 (fat_set σ c0 0x0FFFFFFF) None
  | [] => exec σ ob (alloc_loop fuel c) 0 σ None
  end.
Proof.
  revert ob c. induction fuel as [|fuel IH]; intros ob c Hc Hf; [lia|]. cbn [alloc_loop].
  destruct (decide (c = ncl)) as [->|Hn].
  { unfold free_from. rewrite Z.sub_diag. cbn. xvol. rewrite fat_sector_val by lia.
    destruct (Z.leb_spec (data_start_sector v) (fat_start_sector v + ncl / 128)) as [_|Hl]; [xret|].
    unfold ncl in Hl. dlia. }
  assert (0 <= c < ncl) as Hr by lia. pose proof (fat_sector_lt c Hr).
  assert (u32 (c + 1) = c + 1) as Hu.
  { apply u32_small. destruct Hvol as [_ _ _ Hn' _]. unfold FAT32_EOC in Hn'. lia. }
  specialize (IH (Some (σ (fat_sector v c))) (c + 1) ltac:(lia) ltac:(lia)).
  unfold free_from in *. rewrite seqZ_cons by lia. replace (Z.pred (ncl - c)) with (ncl - (c + 1)) by lia.
  rewrite <- Z.add_1_r, filter_cons. destruct (decide (fat σ c = 0)) as [Hz|Hz].
  - xvol. destruct (Z.leb_spec (data_start_sector v) (fat_sector v c)); [lia|].
    xread ltac:(by apply fat_live). fold (fat_word σ c) (fat σ c). rewrite Hz. cbn [Z.eqb].
    eapply exec_bind; [by apply exec_fat_write|xret].
  - destruct (filter _ _) as [|c0 l];
    (xvol; destruct (Z.leb_spec (data_start_sector v) (fat_sector v c)); [lia|];
     xread ltac:(by apply fat_live); fold (fat_word σ c) (fat σ c);
     destruct (Z.eqb_spec (fat σ c) 0); [done|]; by rewrite Hu).
Qed.

Lemma filter_ne_notin (c : Z) (l : list Z) : c ∉ l -> filter (fun x => x <> c) l = l.
Proof.
  induction l as [|x l IH]; [done|]. intros [Hx Hl]%not_elem_of_cons.
  rewrite filter_cons_True by done. by rewrite IH.
Qed.
Lemma free_list_set σ c x :
  disk_ok σ -> valid c -> 0 < x < 2 ^ 28 -> free_list (fat_set σ c x) = filter (fun y => y <> c) (free_list σ).
Proof.
  intros Hok Hc Hx. unfold valid in Hc. unfold free_list, free_from. rewrite list_filter_filter.
  apply filter_ext_in. intros y Hy%elem_of_seqZ. destruct (decide (y = c)) as [->|Hne].
  - rewrite fat_set_eq by (done || lia). lia.
  - rewrite fat_set_ne by (done || lia). tauto.
Qed.

(** ** Cluster chains *)
Fixpoint chain σ (c : Z) (l : list Z) : Prop :=
  match l with
  | [] => FAT32_EOC <= c
  | x :: l' => c = x /\ valid x /\ chain σ (fat σ x) l'
  end.

Lemma chain_used σ c l x : chain σ c l -> x ∈ l -> valid x /\ fat σ x <> 0.
Proof.
  revert c. induction l as [|y l IH]; intros c; [by intros _ ?%elem_of_nil|]. intros (-> & Hv & Hl) [->|Hx]%elem_of_cons.
  - split; [done|]. destruct l as [|z l]; cbn [chain] in Hl; [unfold FAT32_EOC in Hl; lia|].
    destruct Hl as (-> & Hz & _). unfold valid in Hz. lia.
  - by eapply IH.
Qed.
Lemma chain_det σ c l l' : chain σ c l -> chain σ c l' -> l = l'.
Proof.
  destruct Hvol as [_ _ _ Hn _].
  assert (forall x, valid x -> FAT32_EOC <= x -> False) as Hx by (unfold valid; lia).
  revert c l'. induction l as [|y l IH]; intros c [|y' l']; cbn [chain]; [done| | |].
  - intros He (-> & Hv & _). by destruct (Hx _ Hv).
  - intros (-> & Hv & _) He. by destruct (Hx _ Hv).
  - intros (-> & Hv & Hl) (-> & _ & Hl'). f_equal. by eapply IH.
Qed.
Lemma chain_suffix σ c a b : chain σ c (a ++ b) -> exists c', chain σ c' b.
Proof. revert c. induction a as [|x a IH]; intros c; cbn [app chain]; [by eauto|]. intros (_ & _ & Hc). by eapply IH. Qed.
Lemma chain_NoDup σ c l : chain σ c l -> NoDup l.
Proof.
  revert c. induction l as [|x l IH]; intros c Hl; constructor.
  - intros Hin. destruct Hl as (-> & Hv & Hl). apply list_elem_of_split in Hin as (a & b & ->).
    destruct (chain_suffix _ _ a _ Hl) as (c' & Hc'). assert (c' = x) as -> by (by destruct Hc').
    assert (chain σ x (x :: a ++ x :: b)) as Hx by (by split).
    pose proof (chain_det _ _ _ _ Hc' Hx) as He. apply (f_equal length) in He.
    cbn [length] in He. rewrite length_app in He. cbn [length] in He. lia.
  - destruct Hl as (_ & _ & Hl). by eapply IH.
Qed.
(** A chain visits a cluster once, so the number of entries is enough fuel. *)
Lemma chain_length σ c l : chain σ c l -> (length l < Z.to_nat ncl)%nat.
Proof.
  intros Hl. pose proof (chain_NoDup _ _ _ Hl) as Hnd. destruct Hvol as [_ _ Hf _ _].
  assert (l ⊆+ seqZ 2 (ncl - 2)) as Hs.
  { apply NoDup_submseteq; [done|]. intros x Hx. destruct (chain_used _ _ _ _ Hl Hx) as [Hv _].
    apply elem_of_seqZ. unfold valid in Hv. lia. }
  apply submseteq_length in Hs. rewrite length_seqZ in Hs. unfold ncl in *. lia.
Qed.
Lemma chain_ext σ σ' c l : (forall x, x ∈ l -> fat σ' x = fat σ x) -> chain σ c l -> chain σ' c l.
Proof.
  revert c. induction l as [|x l IH]; intros c He; cbn [chain]; [done|]. intros (-> & Hv & Hl).
  split; [done|]. split; [done|]. rewrite He by set_solver. apply IH; [set_solver|done].
Qed.

(** What the allocation of the clusters [l] after [prev] makes of the disk. *)
Definition EOC_MARK : Z := 0x0FFFFFFF.
Fixpoint link σ (prev : Z) (l : list Z) : disk :=
  match l with
  | [] => σ
  | c :: l' =>
      link (if prev =? 0 then fat_set σ c EOC_MARK else fat_set (fat_set σ c EOC_MARK) prev c) c l'
  end.
Definition prev_ok (prev : Z) : Prop := prev = 0 \/ valid prev.

(** One step of it. *)
Lemma link_step σ prev c :
  disk_ok σ -> prev_ok prev -> valid c -> prev <> c ->
  let σ1 := if prev =? 0 then fat_set σ c EOC_MARK else fat_set (fat_set σ c EOC_MARK) prev c in
  disk_ok σ1 /\ (forall s, data_start_sector v <= s -> σ1 s = σ s) /\
  (forall x, valid x -> x <> prev -> x <> c -> fat σ1 x = fat σ x) /\
  fat σ1 c = EOC_MARK /\ (prev <> 0 -> fat σ1 prev = c).
Proof.
  intros Hok Hp Hc Hne. unfold prev_ok, valid in *. pose proof (vo_ncl Hvol) as Hn. unfold FAT32_EOC in Hn.
  assert (disk_ok (fat_set σ c EOC_MARK)) by (apply fat_set_ok; done || lia).
  assert (fat (fat_set σ c EOC_MARK) c = EOC_MARK) by (apply fat_set_eq; unfold EOC_MARK; done || lia).
  destruct (Z.eqb_spec prev 0) as [->|Hp0]; cbn zeta.
  - split; [done|]. split; [intros; apply fat_set_data; lia|]. split; [intros; apply fat_set_ne; done || lia|]. done.
  - assert (2 <= prev < ncl) by lia. split; [apply fat_set_ok; done || lia|].
    split; [intros; rewrite !fat_set_data by lia; done|].
    split; [intros; rewrite !fat_set_ne by (done || lia); done|].
    split; [by rewrite fat_set_ne by (done || lia)|intros _; apply fat_set_eq; done || lia].
Qed.

Lemma link_spec σ prev l :
  disk_ok σ -> prev_ok prev -> Forall valid l -> NoDup (prev :: l) ->
  let σ' := link σ prev l in
  disk_ok σ' /\ (forall s, data_start_sector v <= s -> σ' s = σ s) /\
  (forall x, valid x -> x ∉ prev :: l -> fat σ' x = fat σ x) /\
  (prev <> 0 -> fat σ' prev = hd (fat σ prev) l) /\ (l <> [] -> chain σ' (hd 0 l) l).
Proof.
  cbn zeta. revert σ prev. induction l as [|c l IH]; intros σ prev Hok Hp HF Hnd; cbn [link hd]; [done|].
  apply Forall_cons in HF as [Hc HF]. apply NoDup_cons in Hnd as [Hin Hnd]. apply not_elem_of_cons in Hin as [Hpc Hin].
  destruct (link_step σ prev c Hok Hp Hc Hpc) as (Hok1 & Hd1 & Hx1 & Hc1 & Hp1). cbn zeta in *.
  destruct (IH _ c Hok1 (or_intror Hc) HF Hnd) as (Hok2 & Hd2 & Hx2 & Hc2 & Hl2).
  set (σ1 := if prev =? 0 then _ else _) in *.
  split; [done|]. split; [intros s Hs; by rewrite Hd2, Hd1|].
  split; [intros x Hx Hxn; rewrite Hx2, Hx1; set_solver|].
  split; [intros Hp0; rewrite Hx2; [by apply Hp1|by destruct Hp|by apply not_elem_of_cons]|].
  intros _. cbn [chain]. split; [done|]. split; [done|]. rewrite Hc2, Hc1 by (unfold valid in Hc; lia).
  destruct l as [|y l]; cbn [hd]; [cbn; unfold FAT32_EOC, EOC_MARK; lia|]. by apply Hl2.
Qed.

(** [chain_loop] takes the first free clusters in order. *)
Lemma exec_chain_loop σ ob fuel i first prev l rest :
  (Z.to_nat ncl <= fuel)%nat -> free_list σ = l ++ rest -> 0 <= i ->
  (i = 0 /\ prev = 0 \/ 0 < i /\ valid prev /\ fat σ prev <> 0) ->
  exec σ ob (chain_loop (length l) fuel i first prev) (Some (if i =? 0 then hd first l else first))
       (link σ prev l) None.
Proof.
  intros Hfuel. revert σ ob i first prev. induction l as [|c l IH]; intros σ ob i first prev Hfl Hi Hp;
    cbn [length chain_loop link hd].
  { case_if; xret. }
  apply exec_ok. intros Hok.
  pose proof (free_list_NoDup σ) as Hnd. rewrite Hfl in Hnd. cbn [app] in Hnd. apply NoDup_cons in Hnd as [Hcn Hnd].
  destruct (free_list_valid σ c) as [Hc Hc0]; [rewrite Hfl; set_solver|].
  pose proof (exec_alloc_loop σ ob fuel 2) as Ha. unfold free_list in Hfl. rewrite Hfl in Ha. cbn [app] in Ha.
  assert (2 <= ncl) by (unfold ncl; destruct Hvol; lia).
  eapply exec_bind; [apply Ha; lia|]. fold (free_list σ) in Hfl. unfold valid in Hc.
  assert (free_list (fat_set σ c EOC_MARK) = l ++ rest) as Hf1.
  { rewrite free_list_set, Hfl by (done || unfold EOC_MARK; lia). cbn [app].
    rewrite filter_cons_False by tauto. by apply filter_ne_notin. }
  destruct (Z.eqb_spec c 0); [lia|]. destruct (Z.eqb_spec prev 0) as [->|Hp0]; cbn [negb].
  - destruct Hp as [[-> _]|(? & ? & ?)]; [|unfold valid in *; lia]. cbn [Z.eqb].
    apply exec_any, (IH (fat_set σ c EOC_MARK) _ 1 c c Hf1); [lia|]. right. split; [lia|]. split; [done|].
    rewrite fat_set_eq by (done || unfold EOC_MARK; lia). done.
  - destruct Hp as [[_ ->]|(Hi0 & Hpv & Hpu)]; [done|]. destruct (Z.eqb_spec i 0); [lia|].
    pose proof (vo_ncl Hvol) as Hn. unfold FAT32_EOC in Hn. pose proof Hpv as Hpv'. unfold valid in Hpv'.
    assert (prev <> c) by congruence.
    assert (disk_ok (fat_set σ c EOC_MARK)) by (apply fat_set_ok; done || lia).
    eapply exec_bind; [apply exec_fat_write; lia|]. cbn [negb Z.eqb ESUCCESS].
    replace first with (if (i + 1) =? 0 then hd first l else first) at 2 by (by destruct (Z.eqb_spec (i + 1) 0); [lia|]).
    apply exec_any, (IH _ None (i + 1) first c); [|lia|right; split; [lia|]; split; [done|]].
    + rewrite free_list_set by (done || lia). change 0x0FFFFFFF with EOC_MARK. rewrite Hf1. apply filter_ne_notin.
      intros Hin. destruct (free_list_valid σ prev) as [_ Hu]; [rewrite Hfl; set_solver|done].
    + rewrite fat_set_ne, fat_set_eq by (done || unfold EOC_MARK; lia). done.
Qed.

(** ** The data of a chain *)
Definition pad (l : list Z) : list Z := l ++ replicate (512 - length l) 0.
Fixpoint wr_secs σ (ss data : list Z) : disk :=
  match ss with
  | [] => σ
  | s :: ss' => match data with [] => σ | _ => wr_secs (upd σ s (pad (take 512 data))) ss' (drop 512 data) end
  end.
Definition bytes_of σ (ss : list Z) : list Z := concat (σ <$> ss).

Lemma bytes_of_cons σ s ss : bytes_of σ (s :: ss) = σ s ++ bytes_of σ ss.
Proof. done. Qed.
Lemma bytes_of_app σ s1 s2 : bytes_of σ (s1 ++ s2) = bytes_of σ s1 ++ bytes_of σ s2.
Proof. unfold bytes_of. by rewrite fmap_app, concat_app. Qed.
Lemma wr_secs_nil σ ss : wr_secs σ ss [] = σ.
Proof. by destruct ss. Qed.
Lemma wr_secs_app σ s1 s2 data :
  wr_secs σ (s1 ++ s2) data = wr_secs (wr_secs σ s1 data) s2 (drop (512 * length s1) data).
Proof.
  revert σ data. induction s1 as [|s s1 IH]; intros σ data; cbn [app wr_secs length].
  { by rewrite Nat.mul_0_r, drop_0. }
  destruct data as [|x data]; [by rewrite drop_nil, wr_secs_nil|]. rewrite IH, drop_drop. do 2 f_equal. lia.
Qed.
Lemma wr_secs_other σ ss data s : s ∉ ss -> wr_secs σ ss data s = σ s.
Proof.
  revert σ data. induction ss as [|s' ss IH]; intros σ data Hn; cbn [wr_secs]; [done|].
  apply not_elem_of_cons in Hn as [Hs Hn]. destruct data; [done|]. by rewrite IH, upd_ne.
Qed.
Lemma length_pad l : (length l <= 512)%nat -> length (pad l) = 512%nat.
Proof. intros. unfold pad. rewrite length_app, length_replicate. lia. Qed.

(** The bytes written are the bytes read. *)
Lemma wr_secs_bytes σ ss data :
  NoDup ss -> (length data <= 512 * length ss)%nat ->
  take (length data) (bytes_of (wr_secs σ ss data) ss) = data.
Proof.
  revert σ data. induction ss as [|s ss IH]; intros σ data Hnd Hl; cbn [length] in Hl.
  { destruct data; [done|cbn in Hl; lia]. }
  apply NoDup_cons in Hnd as [Hs Hnd]. destruct data as [|x data']; [done|]. remember (x :: data') as data eqn:Hd.
  assert (length data <> 0%nat) as Hnz by (by subst).
  unfold bytes_of. rewrite fmap_cons. cbn [concat].
  replace (wr_secs σ (s :: ss) data) with (wr_secs (upd σ s (pad (take 512 data))) ss (drop 512 data)) by (by subst).
  rewrite (wr_secs_other _ _ _ s), upd_eq by done.
  assert (length (pad (take 512 data)) = 512%nat) as Hp by (apply length_pad; rewrite length_take; lia).
  destruct (decide (length data <= 512)%nat) as [Hle|Hgt].
  - rewrite take_app_le by lia. unfold pad. rewrite (take_ge data 512), take_app_le by lia. by rewrite take_ge by lia.
  - rewrite take_app_ge by lia. rewrite Hp. unfold pad. rewrite length_take, Nat.min_l, Nat.sub_diag by lia.
    cbn [replicate]. rewrite app_nil_r. fold (bytes_of (wr_secs (upd σ s (take 512 data)) ss (drop 512 data)) ss).
    rewrite <- (take_drop 512 data) at 5. f_equal. rewrite <- length_drop at 1. apply IH; [done|]. rewrite length_drop. lia.
Qed.

Definition clusters_live (l : list Z) : Prop :=
  forall c s, c ∈ l -> 0 <= s < sectors_per_cluster v -> L (csec c s).
Lemma clusters_live_cons c l : clusters_live (c :: l) -> clusters_live [c] /\ clusters_live l.
Proof. intros Hl. split; intros x s Hx Hs; apply Hl; set_solver. Qed.

(** What [write_sectors] puts into the buffer. *)
Lemma chunk_pad src :
  (if Z.of_nat (length src) <? SECTOR then src ++ replicate (Z.to_nat (SECTOR - Z.of_nat (length src))) 0
   else take (Z.to_nat SECTOR) src) = pad (take 512 src).
Proof.
  unfold pad. change (Z.to_nat SECTOR) with 512%nat. destruct (Z.ltb_spec (Z.of_nat (length src)) SECTOR) as [Hl|Hl];
    unfold SECTOR in *.
  - rewrite take_ge by lia. do 2 f_equal. lia.
  - rewrite length_take, Nat.min_l, Nat.sub_diag by lia. cbn [replicate]. by rewrite app_nil_r.
Qed.
Lemma pad_byte src : Forall is_byte src -> Forall is_byte (pad (take 512 src)).
Proof. intros. apply Forall_app. split; [by apply Forall_take|]. apply Forall_replicate. unfold is_byte. lia. Qed.

Lemma exec_write_sectors σ ob n s c src :
  valid c -> clusters_live [c] -> 0 <= s -> s + Z.of_nat n = sectors_per_cluster v -> Forall is_byte src ->
  exec σ ob (write_sectors n s (cluster_to_sector v c) src) (Some (drop (512 * n) src))
       (wr_secs σ (csec c <$> seqZ s (Z.of_nat n)) src) None.
Proof.
  intros Hc HL. revert σ ob s src. induction n as [|n IH]; intros σ ob s src Hs Hn HF; cbn [write_sectors].
  { rewrite Nat.mul_0_r, drop_0. xret. }
  rewrite seqZ_cons, fmap_cons by lia. destruct src as [|x src']; [rewrite drop_nil; xret|].
  remember (x :: src') as src eqn:Hd. cbn zeta. rewrite chunk_pad.
  replace (wr_secs σ (csec c s :: _) src)
    with (wr_secs (upd σ (csec c s) (pad (take 512 src))) (csec c <$> seqZ (s + 1) (Z.of_nat n)) (drop 512 src));
    [|subst src; cbn [wr_secs]; do 3 f_equal; lia].
  eapply exec_bind; [apply exec_set_buf|]. rewrite csec_val by (done || lia). eapply exec_bind.
  { apply exec_write; [apply HL; [set_solver|lia]|apply length_pad; rewrite length_take; lia|by apply pad_byte]. }
  cbn [negb Z.eqb ESUCCESS]. replace (drop (512 * S n) src) with (drop (512 * n) (drop 512 src)) by (rewrite drop_drop; f_equal; lia).
  destruct (Z.ltb_spec (Z.of_nat (length src)) SECTOR) as [Hl|Hl]; unfold SECTOR in *.
  - replace (drop (Z.to_nat (Z.of_nat (length src))) src) with (drop 512 src); [|rewrite !drop_ge by lia; done].
    apply exec_any, IH; [lia|lia|by apply Forall_drop].
  - apply exec_any, IH; [lia|lia|by apply Forall_drop].
Qed.

Lemma wr_secs_fat σ ss data c :
  (forall s, s ∈ ss -> data_start_sector v <= s) -> 0 <= c < ncl -> fat (wr_secs σ ss data) c = fat σ c.
Proof. intros Hs Hc. apply fat_ext; [done|]. intros s Hlt. apply wr_secs_other. intros Hin. specialize (Hs s Hin). lia. Qed.
Lemma chain_secs_ge l s : Forall valid l -> s ∈ chain_secs l -> data_start_sector v <= s.
Proof.
  intros HF (c & k & -> & Hc & Hk)%elem_of_chain_secs. rewrite Forall_forall in HF. apply csec_ge; [by apply HF|lia].
Qed.
Lemma length_csecs c : Z.of_nat (length (csecs c)) = sectors_per_cluster v.
Proof. unfold csecs. rewrite length_fmap, length_seqZ. pose proof (vo_spc Hvol). lia. Qed.
Lemma chain_Forall σ c l : chain σ c l -> Forall valid l.
Proof. intros Hl. apply Forall_forall. intros x Hx. by eapply chain_used. Qed.

Lemma exec_write_loop σ ob fuel c l src :
  chain σ c l -> clusters_live l -> (length l < fuel)%nat -> Forall is_byte src ->
  exec σ ob (write_loop fuel c src) ESUCCESS (wr_secs σ (chain_secs l) src) None.
Proof.
  revert σ ob c l src. induction fuel as [|fuel IH]; intros σ ob c l src Hl HL Hf HF; [lia|]. cbn [write_loop].
  destruct src as [|x src']; [rewrite wr_secs_nil; xret|]. remember (x :: src') as src eqn:Hd.
  destruct (Z.ltb_spec 0 (Z.of_nat (length src))) as [_|Hx]; [|subst; cbn in Hx; lia]. cbn [andb].
  destruct l as [|y l]; cbn [chain] in Hl.
  { destruct (Z.ltb_spec c FAT32_EOC); [lia|]. xret. }
  destruct Hl as (-> & Hy & Hl). pose proof (vo_ncl Hvol). pose proof Hy as [Hy1 Hy2].
  destruct (Z.ltb_spec y FAT32_EOC); [|lia]. xvol. apply clusters_live_cons in HL as [HLy HL]. pose proof (vo_spc Hvol).
  eapply exec_bind; [apply exec_write_sectors; [done|done|lia|lia|done]|]. cbn beta iota.
  eapply exec_bind; [apply exec_fat_next; lia|].
  change (chain_secs (y :: l)) with (csecs y ++ chain_secs l). rewrite wr_secs_app.
  replace (512 * length (csecs y))%nat with (512 * Z.to_nat (sectors_per_cluster v))%nat
    by (pose proof (length_csecs y); lia).
  unfold csecs. rewrite Z2Nat.id by lia.
  assert (forall z, valid z -> fat (wr_secs σ (csec y <$> seqZ 0 (sectors_per_cluster v)) src) z = fat σ z) as Hfat.
  { intros z [? ?]. apply wr_secs_fat; [|lia]. intros s Hs%elem_of_csecs. destruct Hs as (k & -> & ?).
    apply csec_ge; [done|lia]. }
  rewrite Hfat by done. apply IH; [|done|cbn [length] in Hf; lia|by apply Forall_drop].
  eapply chain_ext; [|exact Hl]. intros z Hz. apply Hfat. by eapply chain_used.
Qed.

Lemma exec_read_sectors σ ob n s c remaining out :
  valid c -> clusters_live [c] -> 0 <= s -> s + Z.of_nat n = sectors_per_cluster v -> 0 <= remaining < 2 ^ 32 ->
  exec σ ob (read_sectors n s (cluster_to_sector v c) remaining out)
       (Some (Z.max 0 (remaining - 512 * Z.of_nat n),
              out ++ take (Z.to_nat remaining) (bytes_of σ (csec c <$> seqZ s (Z.of_nat n))))) σ None.
Proof.
  intros Hc HL. revert ob s remaining out. induction n as [|n IH]; intros ob s rem out Hs Hn Hr; cbn [read_sectors].
  { change (seqZ s (Z.of_nat 0)) with (@nil Z). cbn [fmap list_fmap bytes_of concat]. rewrite take_nil, app_nil_r.
    replace (Z.max 0 (rem - 512 * Z.of_nat 0)) with rem by lia. xret. }
  destruct (Z.ltb_spec 0 rem) as [Hp|Hz].
  2:{ assert (rem = 0) as -> by lia. cbn [Z.to_nat take]. rewrite app_nil_r.
      replace (Z.max 0 (0 - 512 * Z.of_nat (S n))) with 0 by lia. xret. }
  apply exec_ok. intros Hok. assert (L (csec c s)) as HLs by (apply HL; [set_solver|lia]).
  rewrite csec_val by (done || lia). xread ltac:(done). destruct (Hok _ HLs) as [Hlen _].
  rewrite seqZ_cons, fmap_cons by lia. replace (Z.pred (Z.of_nat (S n))) with (Z.of_nat n) by lia.
  rewrite <- Z.add_1_r, bytes_of_cons.
  unfold SECTOR. destruct (Z.ltb_spec rem 512) as [Hl|Hl].
  - rewrite Z.sub_diag, (u32_small 0) by lia. rewrite take_app_le by lia.
    replace (Z.max 0 (rem - 512 * Z.of_nat (S n))) with (Z.max 0 (0 - 512 * Z.of_nat n)) by lia.
    specialize (IH None (s + 1) 0 (out ++ take (Z.to_nat rem) (σ (csec c s)))).
    cbn [Z.to_nat take] in IH. rewrite app_nil_r in IH. apply exec_any, IH; lia.
  - rewrite u32_small by lia. rewrite take_app_ge by lia. rewrite Hlen, (take_ge _ (Z.to_nat 512)), app_assoc by lia.
    replace (Z.to_nat rem - 512)%nat with (Z.to_nat (rem - 512)) by lia.
    replace (Z.max 0 (rem - 512 * Z.of_nat (S n))) with (Z.max 0 (rem - 512 - 512 * Z.of_nat n)) by lia.
    apply exec_any, IH; lia.
Qed.

Lemma length_chain_secs l : Z.of_nat (length (chain_secs l)) = Z.of_nat (length l) * sectors_per_cluster v.
Proof.
  induction l as [|c l IH]; [done|]. change (chain_secs (c :: l)) with (csecs c ++ chain_secs l).
  rewrite length_app, Nat2Z.inj_add, length_csecs, IH. cbn [length]. lia.
Qed.
Lemma length_bytes_of σ ss : disk_ok σ -> (forall s, s ∈ ss -> L s) -> length (bytes_of σ ss) = (512 * length ss)%nat.
Proof.
  intros Hok. induction ss as [|s ss IH]; intros HL; [done|]. rewrite bytes_of_cons, length_app, IH by set_solver.
  destruct (Hok s) as [-> _]; [apply HL; set_solver|]. cbn [length]. lia.
Qed.
Lemma chain_secs_live l s : clusters_live l -> s ∈ chain_secs l -> L s.
Proof. intros HL (c & k & -> & Hc & Hk)%elem_of_chain_secs. by apply HL. Qed.

Lemma exec_read_loop σ ob fuel c l remaining out :
  chain σ c l -> clusters_live l -> (length l < fuel)%nat -> 0 <= remaining < 2 ^ 32 ->
  exec σ ob (read_loop fuel c remaining out)
       (Some (Z.max 0 (remaining - 512 * Z.of_nat (length (chain_secs l))),
              out ++ take (Z.to_nat remaining) (bytes_of σ (chain_secs l)))) σ None.
Proof.
  revert ob c l remaining out. induction fuel as [|fuel IH]; intros ob c l rem out Hl HL Hf Hr; [lia|]. cbn [read_loop].
  destruct (Z.ltb_spec 0 rem) as [Hp|Hz]; cbn [andb].
  2:{ assert (rem = 0) as -> by lia. cbn [Z.to_nat take]. rewrite app_nil_r.
      replace (Z.max 0 _) with 0 by lia. xret. }
  destruct l as [|y l]; cbn [chain] in Hl.
  { destruct (Z.ltb_spec c FAT32_EOC); [lia|]. change (chain_secs []) with (@nil Z).
    cbn [bytes_of fmap list_fmap concat length]. rewrite take_nil, app_nil_r. replace (Z.max 0 _) with rem by lia. xret. }
  destruct Hl as (-> & Hy & Hl). pose proof (vo_ncl Hvol). pose proof (vo_spc Hvol). pose proof Hy as [Hy1 Hy2].
  destruct (Z.ltb_spec y FAT32_EOC); [|lia]. xvol. apply clusters_live_cons in HL as [HLy HL].
  apply exec_ok. intros Hok. eapply exec_bind; [apply exec_read_sectors; [done|done|lia|lia|lia]|]. cbn beta iota.
  eapply exec_bind; [apply exec_fat_next; lia|]. rewrite Z2Nat.id by lia. fold (csecs y).
  change (chain_secs (y :: l)) with (csecs y ++ chain_secs l). rewrite bytes_of_app, length_app, Nat2Z.inj_add, length_csecs.
  assert (length (bytes_of σ (csecs y)) = (512 * Z.to_nat (sectors_per_cluster v))%nat) as Hlen.
  { rewrite length_bytes_of; [pose proof (length_csecs y); lia|done|].
    intros s (k & -> & Hk)%elem_of_csecs. apply HLy; [set_solver|done]. }
  rewrite take_app, Hlen, app_assoc.
  replace (Z.to_nat rem - 512 * Z.to_nat (sectors_per_cluster v))%nat
    with (Z.to_nat (Z.max 0 (rem - 512 * sectors_per_cluster v))) by lia.
  replace (Z.max 0 (rem - 512 * (sectors_per_cluster v + Z.of_nat (length (chain_secs l)))))
    with (Z.max 0 (Z.max 0 (rem - 512 * sectors_per_cluster v) - 512 * Z.of_nat (length (chain_secs l)))) by lia.
  apply IH; [done|done|cbn [length] in Hf; lia|lia].
Qed.

(** [fat32_read] of a size the chain covers gives that many bytes of it. *)
Lemma exec_fat32_read σ ob fuel c l size buf_len :
  chain σ c l -> clusters_live l -> (Z.to_nat ncl <= fuel)%nat ->
  0 <= size < 2 ^ 31 -> size <= buf_len -> size <= 512 * Z.of_nat (length (chain_secs l)) ->
  exec σ ob (fat32_read fuel c size buf_len) (size, take (Z.to_nat size) (bytes_of σ (chain_secs l))) σ None.
Proof.
  intros Hl HL Hf Hs Hb Hc. pose proof (chain_length _ _ _ Hl). unfold fat32_read.
  destruct (Z.ltb_spec buf_len size); [lia|].
  eapply exec_bind; [apply exec_read_loop; [done|done|lia|lia]|]. cbn beta iota zeta.
  replace (Z.max 0 _) with 0 by lia. rewrite Z.sub_0_r, u32_small by lia. unfold s32, to_signed.
  rewrite wrap_small by lia. destruct (Z.ltb_spec size (2 ^ (32 - 1))); [xret|cbn in *; lia].
Qed.

(** ** Directory slots *)
Lemma fmap_rd_seqZ l : rd l <$> seqZ 0 (Z.of_nat (length l)) = l.
Proof.
  apply list_eq_same_length with (length l); [done|by rewrite length_fmap, length_seqZ, Nat2Z.id|].
  intros i x y Hi Hx Hy. rewrite list_lookup_fmap, lookup_seqZ_lt in Hx by lia. cbn in Hx. injection Hx as <-.
  unfold rd. by rewrite Z.add_0_l, Nat2Z.id, nth_lookup, Hy.
Qed.
Lemma ld_skip n l r a : Z.of_nat (length l) <= a -> ld_le n a (rd (l ++ r)) = ld_le n (a - Z.of_nat (length l)) (rd r).
Proof.
  intros Ha. rewrite <- (Z.sub_add (Z.of_nat (length l)) a) at 1. rewrite ld_le_shift. apply ld_le_ext. intros x Hx.
  rewrite rd_app by lia. destruct (Z.ltb_spec (x + Z.of_nat (length l)) (Z.of_nat (length l))); [lia|]. f_equal. lia.
Qed.
Lemma ld_head n v' r : 0 <= v' < 256 ^ Z.of_nat n -> ld_le n 0 (rd (le_bytes n v' ++ r)) = v'.
Proof.
  intros Hv. rewrite <- (ld_le_bytes n v' Hv) at 2. apply ld_le_ext. intros x Hx. rewrite rd_app by lia.
  rewrite length_le_bytes. by destruct (Z.ltb_spec x (Z.of_nat n)); [|lia].
Qed.

(** The fields have their widths. *)
Record entry_ok (e : dir_entry) : Prop := {
  eo_name : length (e_name e) = 11%nat;
  eo_bytes : Forall is_byte (e_name e);
  eo_attr : 0 <= e_attr e < 256;
  eo_nt : 0 <= e_nt_res e < 256;
  eo_tenth : 0 <= e_ctime_tenth e < 256;
  eo_ctime : 0 <= e_ctime e < 65536;
  eo_cdate : 0 <= e_cdate e < 65536;
  eo_adate : 0 <= e_adate e < 65536;
  eo_hi : 0 <= e_first_cluster_hi e < 65536;
  eo_wtime : 0 <= e_wtime e < 65536;
  eo_wdate : 0 <= e_wdate e < 65536;
  eo_lo : 0 <= e_first_cluster_lo e < 65536;
  eo_size : 0 <= e_size e < 2 ^ 32
}.
Lemma length_entry_bytes e : entry_ok e -> length (entry_bytes e) = 32%nat.
Proof. intros He. unfold entry_bytes. rewrite !length_app, !length_le_bytes, eo_name by done. done. Qed.
Lemma entry_bytes_byte e : entry_ok e -> Forall is_byte (entry_bytes e).
Proof. intros He. unfold entry_bytes. rewrite !Forall_app. repeat split; try apply le_bytes_byte. by apply eo_bytes. Qed.

Ltac ld_field He := unfold entry_bytes; rewrite !ld_skip by (rewrite ?length_le_bytes, ?(eo_name _ He); lia);
  rewrite ?length_le_bytes, ?(eo_name _ He); rewrite ?Z.sub_0_r;
  match goal with |- ld_le ?n ?a _ = _ => replace a with 0 by lia end.

(** An entry put into a slot is parsed back. *)
Lemma parse_splice e b off :
  entry_ok e -> 0 <= off -> (Z.to_nat off + 32 <= length b)%nat -> parse_entry (splice b off (entry_bytes e)) off = e.
Proof.
  intros He Ho Hb. pose proof (length_entry_bytes e He) as Hlen.
  assert (forall x, 0 <= x < 32 -> rd (splice b off (entry_bytes e)) (off + x) = rd (entry_bytes e) x) as Hrd.
  { intros x Hx. rewrite rd_splice by lia. rewrite Hlen. destruct (Z.leb_spec off (off + x)); [|lia].
    destruct (Z.ltb_spec (off + x) (off + Z.of_nat 32)); [|lia]. cbn [andb]. f_equal. lia. }
  assert (forall n a, 0 <= a -> a + Z.of_nat n <= 32 ->
    ld_le n (off + a) (rd (splice b off (entry_bytes e))) = ld_le n a (rd (entry_bytes e))) as Hld.
  { intros n a Ha Hn. rewrite Z.add_comm, ld_le_shift. apply ld_le_ext. intros x Hx. rewrite <- Hrd by lia. f_equal. lia. }
  unfold parse_entry. rewrite !Hld by lia. destruct e as [nm a1 a2 a3 a4 a5 a6 a7 a8 a9 a10 a11]. f_equal.
  { transitivity (rd nm <$> seqZ 0 11).
    - apply list_fmap_ext. intros i x Hx. apply lookup_seqZ in Hx as [-> Hi]. rewrite Hrd by lia.
      unfold entry_bytes. rewrite rd_app by lia. pose proof (eo_name _ He) as Hn. cbn [e_name] in *. rewrite Hn.
      by destruct (Z.ltb_spec (0 + Z.of_nat i) (Z.of_nat 11)); [|lia].
    - pose proof (fmap_rd_seqZ nm) as Hf. pose proof (eo_name _ He) as Hn. cbn [e_name] in Hn. by rewrite Hn in Hf. }
  all: ld_field He; first [apply (ld_head 1)|apply (ld_head 2)|apply (ld_le_bytes 4)]; apply He.
Qed.

(** A slot is a sector and an offset in it. *)
Definition sec_slots (s : Z) : list (Z * Z) := (fun k => (s, DIR_ENTRY_SIZE * k)) <$> seqZ 0 16.
Definition slots_of (ss : list Z) : list (Z * Z) := ss ≫= sec_slots.
Definition slot_ok (p : Z * Z) : Prop := L p.1 /\ exists k, p.2 = 32 * k /\ 0 <= k < 16.
Lemma slots_of_ok ss : (forall s, s ∈ ss -> L s) -> Forall slot_ok (slots_of ss).
Proof.
  intros HL. apply Forall_forall. intros [s o] (s' & Hs & Hin)%list_elem_of_bind.
  apply list_elem_of_fmap in Hs as (k & [= -> ->] & Hk%elem_of_seqZ). split; [by apply HL|]. exists k. done.
Qed.
Lemma slots_of_cons s ss : slots_of (s :: ss) = sec_slots s ++ slots_of ss.
Proof. done. Qed.
Lemma slots_of_app s1 s2 : slots_of (s1 ++ s2) = slots_of s1 ++ slots_of s2.
Proof. unfold slots_of. by rewrite bind_app. Qed.

(** The reference searches, over the list of all the slots of a directory. *)
Definition verdict (target buf : list Z) (off : Z) : scan (Z * Z * Z) := lookup_slots 1 off target buf.
Fixpoint scan_slots σ (l : list (Z * Z)) (target : list Z) : scan (Z * Z * Z) :=
  match l with
  | [] => Continue
  | (s, o) :: l' => match verdict target (σ s) o with Continue => scan_slots σ l' target | x => x end
  end.
Definition is_free (b : list Z) (o : Z) : bool := (rd b o =? 0x00) || (rd b o =? 0xE5).
Fixpoint first_free σ (l : list (Z * Z)) : option (Z * Z) :=
  match l with
  | [] => None
  | (s, o) :: l' => if is_free (σ s) o then Some (s, o) else first_free σ l'
  end.

Lemma scan_slots_app σ l1 l2 t :
  scan_slots σ (l1 ++ l2) t = match scan_slots σ l1 t with Continue => scan_slots σ l2 t | x => x end.
Proof. induction l1 as [|[s o] l1 IH]; cbn [app scan_slots]; [done|]. by destruct (verdict _ _ _). Qed.
Lemma first_free_app σ l1 l2 :
  first_free σ (l1 ++ l2) = match first_free σ l1 with None => first_free σ l2 | x => x end.
Proof. induction l1 as [|[s o] l1 IH]; cbn [app first_free]; [done|]. by case_if. Qed.

Lemma lookup_slots_S n off t b :
  lookup_slots (S n) off t b =
    match verdict t b off with Continue => lookup_slots n (off + DIR_ENTRY_SIZE) t b | x => x end.
Proof. unfold verdict. cbn [lookup_slots]. by case_ifs. Qed.
Lemma lookup_slots_scan σ s t n k :
  lookup_slots n (DIR_ENTRY_SIZE * k) t (σ s) =
    scan_slots σ ((fun k => (s, DIR_ENTRY_SIZE * k)) <$> seqZ k (Z.of_nat n)) t.
Proof.
  revert k. induction n as [|n IH]; intros k; [done|]. rewrite lookup_slots_S, seqZ_cons, fmap_cons by lia.
  cbn [scan_slots]. replace (Z.pred (Z.of_nat (S n))) with (Z.of_nat n) by lia.
  replace (DIR_ENTRY_SIZE * k + DIR_ENTRY_SIZE) with (DIR_ENTRY_SIZE * Z.succ k) by (unfold DIR_ENTRY_SIZE; lia).
  by rewrite IH.
Qed.
Lemma free_slot_first σ s n k :
  first_free σ ((fun k => (s, DIR_ENTRY_SIZE * k)) <$> seqZ k (Z.of_nat n)) =
    (fun o => (s, o)) <$> free_slot n (DIR_ENTRY_SIZE * k) (σ s).
Proof.
  revert k. induction n as [|n IH]; intros k; [done|]. rewrite seqZ_cons, fmap_cons by lia.
  cbn [first_free free_slot]. unfold is_free. case_if; [done|].
  replace (Z.pred (Z.of_nat (S n))) with (Z.of_nat n) by lia. rewrite IH. do 2 f_equal. unfold DIR_ENTRY_SIZE. lia.
Qed.

Lemma exec_lookup_sectors σ ob n s c t :
  valid c -> clusters_live [c] -> 0 <= s -> s + Z.of_nat n = sectors_per_cluster v ->
  exec σ ob (lookup_sectors n s (cluster_to_sector v c) t)
       (scan_slots σ (slots_of (csec c <$> seqZ s (Z.of_nat n))) t) σ None.
Proof.
  intros Hc HL. revert ob s. induction n as [|n IH]; intros ob s Hs Hn; cbn [lookup_sectors]; [xret|].
  rewrite csec_val by (done || lia). xread ltac:(apply HL; [set_solver|lia]).
  rewrite seqZ_cons, fmap_cons, slots_of_cons, scan_slots_app by lia.
  pose proof (lookup_slots_scan σ (csec c s) t 16 0) as Hsc. change (DIR_ENTRY_SIZE * 0) with 0 in Hsc.
  change (seqZ 0 (Z.of_nat 16)) with (seqZ 0 16) in Hsc. fold (sec_slots (csec c s)) in Hsc. rewrite <- Hsc.
  unfold SLOTS. destruct (lookup_slots 16 0 t (σ (csec c s))); [xret|xret|].
  replace (Z.pred (Z.of_nat (S n))) with (Z.of_nat n) by lia. rewrite <- Z.add_1_r. apply exec_any, IH; lia.
Qed.

Definition scan_result {A} (x : scan A) : option A := match x with Hit a => Some a | _ => None end.
Definition dir_slots (l : list Z) : list (Z * Z) := slots_of (chain_secs l).
Lemma dir_slots_cons c l :
  dir_slots (c :: l) = slots_of (csec c <$> seqZ 0 (Z.of_nat (Z.to_nat (sectors_per_cluster v)))) ++ dir_slots l.
Proof.
  unfold dir_slots. change (chain_secs (c :: l)) with (csecs c ++ chain_secs l). rewrite slots_of_app. unfold csecs.
  pose proof (vo_spc Hvol). by rewrite Z2Nat.id by lia.
Qed.

(** [dir_lookup] is the search of the slots. *)
Lemma exec_lookup_loop σ ob fuel c l t :
  chain σ c l -> clusters_live l -> (length l < fuel)%nat ->
  exec σ ob (lookup_loop fuel c t) (scan_result (scan_slots σ (dir_slots l) t)) σ None.
Proof.
  revert ob c l. induction fuel as [|fuel IH]; intros ob c l Hl HL Hf; [lia|]. cbn [lookup_loop].
  destruct l as [|y l]; cbn [chain] in Hl.
  { destruct (Z.ltb_spec c FAT32_EOC); [lia|xret]. }
  destruct Hl as (-> & Hy & Hl). pose proof (vo_ncl Hvol). pose proof (vo_spc Hvol). pose proof Hy as [Hy1 Hy2].
  destruct (Z.ltb_spec y FAT32_EOC); [|lia]. xvol. apply clusters_live_cons in HL as [HLy HL].
  eapply exec_bind; [apply exec_lookup_sectors; [done|done|lia|lia]|].
  rewrite dir_slots_cons, scan_slots_app. destruct (scan_slots σ (slots_of _) t); [xret|xret|].
  eapply exec_bind; [apply exec_fat_next; lia|]. apply IH; [done|done|cbn [length] in Hf; lia].
Qed.

(** [dir_add_entry] fills the first free slot. *)
Definition put_entry σ (s o : Z) (e : dir_entry) : disk := upd σ s (splice (σ s) o (entry_bytes e)).
Definition add_ref σ (l : list (Z * Z)) (e : dir_entry) : disk :=
  match first_free σ l with Some (s, o) => put_entry σ s o e | None => σ end.

Lemma first_free_in σ l s o : first_free σ l = Some (s, o) -> (s, o) ∈ l /\ is_free (σ s) o = true.
Proof.
  induction l as [|[s' o'] l IH]; cbn [first_free]; [done|]. case_if; [intros [= <- <-]; split; [set_solver|done]|].
  intros [? ?]%IH. split; [set_solver|done].
Qed.
Lemma exec_add_sectors σ ob n s c e :
  valid c -> clusters_live [c] -> 0 <= s -> s + Z.of_nat n = sectors_per_cluster v -> entry_ok e ->
  exec σ ob (add_sectors n s (cluster_to_sector v c) e)
       (match first_free σ (slots_of (csec c <$> seqZ s (Z.of_nat n))) with Some _ => Hit tt | None => Continue end)
       (add_ref σ (slots_of (csec c <$> seqZ s (Z.of_nat n))) e) None.
Proof.
  intros Hc HL. revert ob s. induction n as [|n IH]; intros ob s Hs Hn He; cbn [add_sectors]; [xret|].
  apply exec_ok. intros Hok. assert (L (csec c s)) as HLs by (apply HL; [set_solver|lia]).
  rewrite csec_val by (done || lia). xread ltac:(done). destruct (Hok _ HLs) as [Hlen HF].
  unfold add_ref. rewrite seqZ_cons, fmap_cons, slots_of_cons, first_free_app by lia.
  pose proof (free_slot_first σ (csec c s) 16 0) as Hsc. change (DIR_ENTRY_SIZE * 0) with 0 in Hsc.
  change (seqZ 0 (Z.of_nat 16)) with (seqZ 0 16) in Hsc. fold (sec_slots (csec c s)) in Hsc.
  unfold SLOTS. destruct (free_slot 16 0 (σ (csec c s))) as [o|] eqn:Efree; cbn [fmap option_fmap option_map] in Hsc; rewrite Hsc.
  - assert (0 <= o <= 480).
    { apply first_free_in in Hsc as [Hin _]. apply list_elem_of_fmap in Hin as (k & [= ->] & Hk%elem_of_seqZ).
      unfold DIR_ENTRY_SIZE. lia. }
    pose proof (length_entry_bytes e He). eapply exec_bind; [apply exec_set_buf|].
    eapply exec_bind; [apply exec_write; [done| |]|xret].
    + rewrite length_splice; lia.
    + apply Forall_splice; [done|by apply entry_bytes_byte].
  - replace (Z.pred (Z.of_nat (S n))) with (Z.of_nat n) by lia. rewrite <- Z.add_1_r. apply exec_any, IH; done || lia.
Qed.
Lemma exec_add_loop σ ob fuel c l e :
  chain σ c l -> clusters_live l -> (length l < fuel)%nat -> entry_ok e ->
  exec σ ob (add_loop fuel c e) (match first_free σ (dir_slots l) with Some _ => ESUCCESS | None => EERROR end)
       (add_ref σ (dir_slots l) e) None.
Proof.
  revert ob c l. induction fuel as [|fuel IH]; intros ob c l Hl HL Hf He; [lia|]. cbn [add_loop].
  destruct l as [|y l]; cbn [chain] in Hl.
  { destruct (Z.ltb_spec c FAT32_EOC); [lia|xret]. }
  destruct Hl as (-> & Hy & Hl). pose proof (vo_ncl Hvol). pose proof (vo_spc Hvol). pose proof Hy as [Hy1 Hy2].
  destruct (Z.ltb_spec y FAT32_EOC); [|lia]. xvol. apply clusters_live_cons in HL as [HLy HL].
  eapply exec_bind; [apply exec_add_sectors; [done|done|lia|lia|done]|].
  unfold add_ref. rewrite dir_slots_cons, first_free_app.
  destruct (first_free σ (slots_of _)) as [[s o]|]; [xret|].
  eapply exec_bind; [apply exec_fat_next; lia|]. apply IH; [done|done|cbn [length] in Hf; lia|done].
Qed.

(** What a slot says depends on its 32 bytes only. *)
Lemma verdict_ext t b b' o :
  (forall x, o <= x < o + 32 -> rd b' x = rd b x) -> verdict t b' o = verdict t b o.
Proof.
  intros He. unfold verdict. cbn [lookup_slots]. assert (parse_entry b' o = parse_entry b o) as Hp; [|by rewrite Hp].
  assert (forall n a, 0 <= a -> a + Z.of_nat n <= 32 -> ld_le n (o + a) (rd b') = ld_le n (o + a) (rd b)) as Hld.
  { intros n a Ha Hn. apply ld_le_ext. intros x Hx. apply He. lia. }
  unfold parse_entry. rewrite !Hld by lia. f_equal. apply list_fmap_ext. intros i x Hx.
  apply lookup_seqZ in Hx as [-> Hi]. apply He. lia.
Qed.
Lemma rd_name0 b o : rd (e_name (parse_entry b o)) 0 = rd b o.
Proof.
  unfold parse_entry. cbn [e_name]. rewrite seqZ_cons, fmap_cons, rd_cons by lia. cbn [Z.eqb]. by rewrite Z.add_0_r.
Qed.
Lemma free_verdict t b o : is_free b o = false -> verdict t b o <> Return.
Proof.
  unfold is_free, verdict. cbn [lookup_slots]. rewrite rd_name0. intros [E1 E2]%orb_false_iff.
  rewrite E1, E2. by case_ifs.
Qed.
Lemma put_entry_ok σ s o e : disk_ok σ -> slot_ok (s, o) -> entry_ok e -> disk_ok (put_entry σ s o e).
Proof.
  intros Hok [HL (k & Ho & Hk)] He x Hx. cbn [fst snd] in *. unfold put_entry, upd. case_if; [|by apply Hok].
  destruct (Hok s HL) as [Hl HF]. pose proof (length_entry_bytes e He). split; [rewrite length_splice; lia|].
  apply Forall_splice; [done|by apply entry_bytes_byte].
Qed.
(** Other slots keep their verdict. *)
Lemma put_entry_other σ s o e s' o' t :
  disk_ok σ -> slot_ok (s, o) -> slot_ok (s', o') -> entry_ok e -> (s', o') <> (s, o) ->
  verdict t (put_entry σ s o e s') o' = verdict t (σ s') o'.
Proof.
  intros Hok [HL (k & Ho & Hk)] [_ (k' & Ho' & Hk')] He Hne. cbn [fst snd] in *. unfold put_entry.
  destruct (decide (s' = s)) as [->|]; [|by rewrite upd_ne]. rewrite upd_eq. apply verdict_ext. intros x Hx.
  destruct (Hok s HL) as [Hl _]. pose proof (length_entry_bytes e He) as Hlen. rewrite rd_splice by lia. rewrite Hlen.
  assert (o' <> o) by congruence.
  destruct (Z.leb_spec o x), (Z.ltb_spec x (o + Z.of_nat 32)); cbn [andb]; done || lia.
Qed.

(** A new file's entry is the one the search finds, when there was none. *)
Definition entry_hit (e : dir_entry) : Z * Z * Z :=
  ((e_first_cluster_hi e <<< 16) .| e_first_cluster_lo e, e_size e, e_attr e).
Lemma add_ref_found σ l e :
  disk_ok σ -> Forall slot_ok l -> entry_ok e -> e_attr e = 0x20 ->
  rd (e_name e) 0 <> 0 -> rd (e_name e) 0 <> 0xE5 ->
  first_free σ l <> None -> scan_result (scan_slots σ l (e_name e)) = None ->
  scan_slots (add_ref σ l e) l (e_name e) = Hit (entry_hit e).
Proof.
  intros Hok HF He Hattr Hn0 Hne5 Hff. unfold add_ref.
  destruct (first_free σ l) as [[s o]|] eqn:Ef; [|done]. clear Hff.
  assert (slot_ok (s, o)) as Hso by (apply first_free_in in Ef as [Hin _]; rewrite Forall_forall in HF; by apply HF).
  revert Ef. induction l as [|[s' o'] l IH]; [done|]. apply Forall_cons in HF as [Hs' HF].
  cbn [first_free scan_slots]. destruct (is_free (σ s') o') eqn:Efree.
  - intros [= -> ->] _. destruct Hso as [HL (k & Ho & Hk)]. cbn [fst snd] in *. destruct (Hok s HL) as [Hl _].
    unfold put_entry. rewrite upd_eq. unfold verdict. cbn [lookup_slots]. rewrite parse_splice by (done || lia).
    destruct (Z.eqb_spec (rd (e_name e) 0) 0); [done|]. destruct (Z.eqb_spec (rd (e_name e) 0) 0xE5); [done|].
    unfold entry_hit. rewrite Hattr. change (0x20 =? ATTR_LFN) with false.
    change (test_mask 0x20 ATTR_VOLUME_ID) with false. cbv iota. by rewrite bool_decide_true.
  - intros Ef. rewrite put_entry_other; [|done|done|done|done|].
    2:{ intros [= -> ->]. apply first_free_in in Ef as [_ Ef]. congruence. }
    pose proof (free_verdict (e_name e) _ _ Efree) as Hnr. destruct (verdict _ _ _); [done|done|].
    intros Hs. by apply IH.
Qed.

Lemma scan_slots_ext σ σ' ss t : (forall s, s ∈ ss -> σ' s = σ s) -> scan_slots σ' (slots_of ss) t = scan_slots σ (slots_of ss) t.
Proof.
  intros He. induction ss as [|s ss IH]; [done|]. rewrite slots_of_cons, !scan_slots_app, IH by set_solver.
  assert (σ' s = σ s) as Hs by (apply He; set_solver). unfold sec_slots.
  change 16 with (Z.of_nat 16). rewrite <- !lookup_slots_scan, Hs. done.
Qed.
Lemma first_free_ext σ σ' ss : (forall s, s ∈ ss -> σ' s = σ s) -> first_free σ' (slots_of ss) = first_free σ (slots_of ss).
Proof.
  intros He. induction ss as [|s ss IH]; [done|]. rewrite slots_of_cons, !first_free_app, IH by set_solver.
  assert (σ' s = σ s) as Hs by (apply He; set_solver). unfold sec_slots.
  change 16 with (Z.of_nat 16). rewrite !free_slot_first, Hs. done.
Qed.
Lemma bytes_of_ext σ σ' ss : (forall s, s ∈ ss -> σ' s = σ s) -> bytes_of σ' ss = bytes_of σ ss.
Proof. intros He. induction ss as [|s ss IH]; [done|]. rewrite !bytes_of_cons, IH, He by set_solver. done. Qed.
Lemma new_entry_ok fname first len :
  Forall is_byte fname -> 0 <= len < 2 ^ 32 -> entry_ok (new_entry fname first len).
Proof.
  intros HF Hl. destruct (to_83_spec fname HF) as (? & ? & _). pose proof (u16_range (first >>> 16)).
  pose proof (u16_range (first .& 0xFFFF)). split; cbn [new_entry e_name e_attr e_nt_res e_ctime_tenth e_ctime e_cdate e_adate
    e_first_cluster_hi e_wtime e_wdate e_first_cluster_lo e_size]; done || lia.
Qed.

(** ** Paths *)
Lemma split_last_spec p :
  match split_last p with
  | (Some d, n) => p = d ++ Vfs.SLASH :: n
  | (None, n) => p = n
  end.
Proof.
  induction p as [|c p IH]; cbn [split_last]; [done|]. destruct (split_last p) as [[d|] n]; cbn [app]; subst.
  - done.
  - by destruct (Z.eqb_spec c Vfs.SLASH) as [->|].
Qed.
(** The directories on the way to the file, and its name. *)
Definition parent_comps (path : list Z) : list (list Z) :=
  Vfs.components (default [] (split_last (Vfs.skip_slashes path)).1).
Definition base_name (path : list Z) : list Z := (split_last (Vfs.skip_slashes path)).2.

(** Following directory entries from [d] along the components. *)
Inductive dir_path σ : Z -> list (list Z) -> Z -> Prop :=
| dp_nil d : dir_path σ d [] d
| dp_cons d l seg segs c size attr d' :
    chain σ d l -> clusters_live l -> scan_slots σ (dir_slots l) (to_83 (take 12 seg)) = Hit (c, size, attr) ->
    test_mask attr ATTR_DIRECTORY = true -> dir_path σ c segs d' -> dir_path σ d (seg :: segs) d'.

Definition no_slash (p : list Z) : Prop := match p with c :: _ => c <> Vfs.SLASH | [] => True end.
Lemma skip_no_slash p : no_slash (Vfs.skip_slashes p).
Proof. destruct (Vfs.skip_slashes p) as [|c q] eqn:E; [done|]. by apply Vfs.skip_not_slash in E as [? _]. Qed.
Lemma length_skip p : (length (Vfs.skip_slashes p) <= length p)%nat.
Proof. induction p as [|c p IH]; cbn [Vfs.skip_slashes]; [done|]. case_if; cbn [length]; lia. Qed.

Lemma exec_parent_loop σ ob n fuel walk d d' :
  dir_path σ d (Vfs.components walk) d' -> no_slash walk -> (length walk <= n)%nat -> (Z.to_nat ncl <= fuel)%nat ->
  exec σ ob (parent_loop n fuel walk d) (Some d') σ None.
Proof.
  intros Hp Hw Hn Hf. revert ob walk d Hp Hw Hn. induction n as [|n IH]; intros ob walk d Hp Hw Hn; cbn [parent_loop].
  { destruct walk; [|cbn [length] in Hn; lia]. inversion Hp; subst; xret. }
  destruct walk as [|x walk]; [inversion Hp; subst; xret|].
  destruct (Vfs.span (x :: walk)) as [seg rest] eqn:Es. pose proof (Vfs.span_spec _ _ _ Es) as (Hsr & _ & _).
  assert (seg <> []) as Hseg.
  { cbn [Vfs.span] in Es. cbn [no_slash] in Hw. destruct (Z.eqb_spec x Vfs.SLASH); [done|]. cbn [negb] in Es.
    destruct (Vfs.span walk). by simplify_eq. }
  rewrite (Vfs.components_span _ _ _ Es Hseg) in Hp.
  inversion Hp as [|? l ? ? c size attr ? Hl HL Hscan Hattr Hp']; subst. pose proof (chain_length _ _ _ Hl).
  eapply exec_bind; [apply exec_lookup_loop; [done|done|lia]|]. rewrite Hscan. cbn [scan_result]. rewrite Hattr. cbn [negb].
  apply exec_any, IH; [by rewrite Vfs.components_skip|apply skip_no_slash|].
  pose proof (length_skip rest). apply (f_equal length) in Hsr. rewrite length_app in Hsr.
  destruct seg; [done|]. cbn [length] in *. lia.
Qed.

(** The part of [fat32_create] that walks to the parent. *)
Lemma exec_parent_stage σ ob fuel path dirs fname dir :
  split_last (Vfs.skip_slashes path) = (dirs, fname) ->
  dir_path σ (root_cluster v) (parent_comps path) dir -> (Z.to_nat ncl <= fuel)%nat ->
  exec σ ob (match dirs with
             | Some d => parent_loop (length d) fuel d (root_cluster v)
             | None => mret (Some (root_cluster v))
             end) (Some dir) σ None.
Proof.
  intros Esp Hp Hf. unfold parent_comps in Hp. pose proof (split_last_spec (Vfs.skip_slashes path)) as Hs.
  pose proof (skip_no_slash path) as Hns. rewrite Esp in Hs, Hp. cbn [fst] in Hp.
  destruct dirs as [d|]; cbn [default] in Hp.
  - apply exec_parent_loop; [done| |done|done]. rewrite Hs in Hns. by destruct d.
  - inversion Hp; subst; xret.
Qed.

(** ** Creation *)

(** The disk after the creation of a file on the clusters [new]. *)
Definition create_disk σ (new dl data : list Z) (e : dir_entry) : disk :=
  add_ref (wr_secs (link σ 0 new) (chain_secs new) data) (dir_slots dl) e.

Lemma exec_fat32_create σ fuel path dir dl data :
  let len := Z.of_nat (length data) in
  let new := take (Z.to_nat (clusters_needed v len)) (free_list σ) in
  let e := new_entry (base_name path) (hd 0 new) len in
  (Z.to_nat ncl <= fuel)%nat ->
  dir_path σ (root_cluster v) (parent_comps path) dir -> chain σ dir dl -> clusters_live dl -> clusters_live new ->
  Forall is_byte data -> entry_ok e -> (length (base_name path) <= 12)%nat ->
  (Z.to_nat (clusters_needed v len) <= length (free_list σ))%nat ->
  (0 < len -> 0 < clusters_needed v len) ->
  let σ2 := wr_secs (link σ 0 new) (chain_secs new) data in
  chain σ2 dir dl -> (new <> [] -> chain (link σ 0 new) (hd 0 new) new) ->
  exec σ None (fat32_create fuel path data)
       (match first_free σ2 (dir_slots dl) with Some _ => ESUCCESS | None => EERROR end)
       (create_disk σ new dl data e) None.
Proof.
  intros len new e Hf Hp Hdl HLd HLn Hdata He Hname Hfree Hpos σ2 Hdl2 Hnew. unfold fat32_create. fold len. xvol.
  unfold base_name in *. destruct (split_last (Vfs.skip_slashes path)) as [dirs fname] eqn:Esp. cbn [fst snd] in *.
  eapply exec_bind; [by apply (exec_parent_stage _ _ _ path _ fname)|]. cbn beta iota zeta. rewrite take_ge by lia.
  assert (length new = Z.to_nat (clusters_needed v len)) as Hlen by (unfold new; rewrite length_take; lia).
  rewrite <- Hlen. eapply exec_bind.
  { apply (exec_chain_loop _ _ _ 0 0 0 new (drop (Z.to_nat (clusters_needed v len)) (free_list σ))); [done| |lia|by left].
    unfold new. by rewrite take_drop. }
  cbn [Z.eqb]. eapply exec_bind with (a := ESUCCESS) (σ1 := σ2) (ob1 := None).
  { destruct (Z.ltb_spec 0 len) as [Hl|Hl]; cbn [andb].
    - assert (new <> []) as Hnn by (intros E; rewrite E in Hlen; cbn in Hlen; specialize (Hpos Hl); lia).
      specialize (Hnew Hnn). assert (hd 0 new <> 0) as Hh.
      { destruct new; [done|]. cbn [chain hd] in *. destruct Hnew as (_ & [? ?] & _). lia. }
      destruct (Z.eqb_spec (hd 0 new) 0); [done|]. cbn [negb]. pose proof (chain_length _ _ _ Hnew).
      apply exec_write_loop; [done|done|lia|done].
    - assert (data = []) as Hd by (destruct data; [done|unfold len in Hl; cbn in Hl; lia]).
      unfold σ2. rewrite Hd, wr_secs_nil. xret. }
  cbn [negb Z.eqb ESUCCESS]. pose proof (chain_length _ _ _ Hdl).
  eapply exec_bind; [apply exec_add_loop; [exact Hdl2|done|lia|done]|].
  unfold create_disk. fold σ2. by destruct (first_free σ2 (dir_slots dl)); xret.
Qed.

Lemma chain_secs_disjoint l l' s : (forall x, x ∈ l -> x ∉ l') -> s ∈ chain_secs l -> s ∉ chain_secs l'.
Proof.
  intros Hd (c & k & -> & Hc & Hk)%elem_of_chain_secs (c' & k' & He & Hc' & Hk')%elem_of_chain_secs.
  apply csec_inj in He as [-> _]; [|done|done]. by apply (Hd c').
Qed.
Lemma chain_secs_NoDup l : NoDup l -> NoDup (chain_secs l).
Proof.
  intros Hnd. apply NoDup_bind; [|intros c _|done].
  - intros c1 c2 s _ _ (k1 & -> & Hk1)%elem_of_csecs (k2 & He & Hk2)%elem_of_csecs.
    by apply csec_inj in He as [-> _].
  - apply NoDup_fmap_2_strong; [|apply NoDup_seqZ]. intros x y Hx%elem_of_seqZ Hy%elem_of_seqZ He.
    apply csec_inj in He; [tauto|lia|lia].
Qed.
Lemma wr_secs_ok σ ss data : disk_ok σ -> Forall is_byte data -> disk_ok (wr_secs σ ss data).
Proof.
  revert σ data. induction ss as [|s ss IH]; intros σ data Hok HF; cbn [wr_secs]; [done|].
  destruct data as [|x data]; [done|]. apply IH; [|by apply Forall_drop]. intros y Hy. unfold upd.
  case_if; [|by apply Hok]. split; [apply length_pad; rewrite length_take; lia|by apply pad_byte].
Qed.
Lemma add_ref_other σ dl e s : s ∉ chain_secs dl -> add_ref σ (dir_slots dl) e s = σ s.
Proof.
  intros Hs. unfold add_ref. destruct (first_free σ (dir_slots dl)) as [[s' o]|] eqn:Ef; [|done].
  apply first_free_in in Ef as [(x & Hx & Hin)%list_elem_of_bind _].
  apply list_elem_of_fmap in Hx as (k & [= -> ->] & _). apply upd_ne. intros ->. done.
Qed.

(** Chains that were in use stay as they are; outside the directory so do
    their bytes, and the new clusters form a chain with the data. *)
Lemma create_disk_spec σ new rest dir dl data e :
  disk_ok σ -> free_list σ = new ++ rest -> chain σ dir dl ->
  let σ1 := link σ 0 new in
  let σ2 := wr_secs σ1 (chain_secs new) data in
  let σ3 := create_disk σ new dl data e in
  (forall s, s ∈ chain_secs dl -> σ2 s = σ s) /\ disk_ok σ1 /\
  (forall c l, chain σ c l -> chain σ2 c l /\ chain σ3 c l) /\
  (forall c l, chain σ c l -> (forall x, x ∈ l -> x ∉ dl) -> bytes_of σ3 (chain_secs l) = bytes_of σ (chain_secs l)) /\
  (new <> [] -> chain σ1 (hd 0 new) new /\ chain σ3 (hd 0 new) new) /\
  bytes_of σ3 (chain_secs new) = bytes_of σ2 (chain_secs new).
Proof.
  intros Hok Hfree Hdl σ1 σ2 σ3.
  assert (Forall valid new /\ NoDup new) as [HF Hnd].
  { split; [|pose proof (free_list_NoDup σ) as Hn; rewrite Hfree in Hn; by apply NoDup_app in Hn as [? _]].
    apply Forall_forall. intros x Hx. apply (free_list_valid σ). rewrite Hfree. set_solver. }
  assert (forall x, x ∈ new -> fat σ x = 0) as Hz.
  { intros x Hx. apply free_list_valid. rewrite Hfree. set_solver. }
  destruct (link_spec σ 0 new) as (Hok1 & Hd1 & Hf1 & _ & Hc1); [done|by left|done| |].
  { constructor; [|done]. intros H0'. rewrite Forall_forall in HF. destruct (HF _ H0'). lia. }
  fold σ1 in Hok1, Hd1, Hf1, Hc1.
  assert (forall c l, chain σ c l -> forall x, x ∈ l -> x ∉ new) as Hdisj.
  { intros c l Hl x Hx Hn. destruct (chain_used _ _ _ _ Hl Hx) as [_ Hu]. by apply Hu, Hz. }
  assert (forall c l, chain σ c l -> forall s, s ∈ chain_secs l -> σ2 s = σ s) as H2.
  { intros c l Hl s Hs. unfold σ2. rewrite wr_secs_other by (eapply chain_secs_disjoint; [|exact Hs]; by eapply Hdisj).
    apply Hd1. eapply chain_secs_ge; [by eapply chain_Forall|done]. }
  assert (forall x, valid x -> fat σ2 x = fat σ1 x) as Hf2.
  { intros x [? ?]. apply wr_secs_fat; [|lia]. intros s Hs. by eapply chain_secs_ge. }
  assert (forall x, valid x -> fat σ3 x = fat σ2 x) as Hf3.
  { intros x [? ?]. apply fat_ext; [lia|]. intros s Hs. apply add_ref_other. intros Hin.
    assert (data_start_sector v <= s) by (eapply chain_secs_ge; [by eapply chain_Forall|done]). lia. }
  assert (forall x, valid x -> x ∉ new -> fat σ2 x = fat σ x) as Hf.
  { intros x Hx Hn. rewrite Hf2, Hf1; [done|done| |done]. apply not_elem_of_cons. split; [destruct Hx; lia|done]. }
  split; [by eapply H2|]. split; [done|]. split; [|split; [|split]].
  - intros c l Hl. assert (chain σ2 c l) as Hl2.
    { eapply chain_ext; [|exact Hl]. intros x Hx. apply Hf; [by eapply chain_used|by eapply Hdisj]. }
    split; [done|]. eapply chain_ext; [|exact Hl2]. intros x Hx. apply Hf3. by eapply chain_used.
  - intros c l Hl Hn. apply bytes_of_ext. intros s Hs. unfold σ3, create_disk. rewrite add_ref_other.
    + by eapply H2.
    + by eapply chain_secs_disjoint.
  - intros Hne. specialize (Hc1 Hne). split; [done|]. eapply chain_ext; [|exact Hc1]. intros x Hx.
    rewrite Forall_forall in HF. rewrite Hf3, Hf2 by (by apply HF). done.
  - apply bytes_of_ext. intros s Hs. apply add_ref_other. eapply chain_secs_disjoint; [|exact Hs].
    intros x Hx Hn. by apply (Hdisj _ _ Hdl x).
Qed.

(** Reading depends on the chain and its bytes only. *)
Lemma exec_read_same σ σ' fuel c l size buf_len :
  chain σ c l -> chain σ' c l -> bytes_of σ' (chain_secs l) = bytes_of σ (chain_secs l) -> clusters_live l ->
  (Z.to_nat ncl <= fuel)%nat -> 0 <= size < 2 ^ 32 -> 0 <= buf_len < 2 ^ 32 ->
  exists r, exec σ None (fat32_read fuel c size buf_len) r σ None /\
            exec σ' None (fat32_read fuel c size buf_len) r σ' None.
Proof.
  intros Hl Hl' Hb HL Hf Hs Hbl. pose proof (chain_length _ _ _ Hl). unfold fat32_read.
  set (n := if buf_len <? size then buf_len else size). assert (0 <= n < 2 ^ 32) by (unfold n; case_if; lia).
  eexists. split; (eapply exec_bind; [apply exec_read_loop; [done|done|lia|done]|]); cbn beta iota zeta; [xret|].
  rewrite Hb. xret.
Qed.

Lemma clusters_needed_enough len :
  0 <= len < 2 ^ 31 ->
  len <= 512 * sectors_per_cluster v * clusters_needed v len /\ (0 < len -> 0 < clusters_needed v len) /\
  0 <= clusters_needed v len.
Proof.
  intros Hl. destruct Hvol as [Hs Hb _ _ _]. unfold clusters_needed. rewrite Hb. unfold SECTOR.
  destruct (Z.eqb_spec len 0) as [->|Hne]; [lia|]. rewrite (u32_small (len + _)), u32_small by lia.
  set (b := sectors_per_cluster v * 512) in *. assert (0 < b) as Hb0 by lia.
  pose proof (Z.div_mod (len + b - 1) b ltac:(lia)). pose proof (Z.mod_pos_bound (len + b - 1) b Hb0).
  assert (0 < (len + b - 1) / b) by (apply Z.div_str_pos; lia). split; [|lia].
  replace (512 * sectors_per_cluster v) with b by lia. lia.
Qed.

(** Without enough free clusters the allocation fails. *)
Lemma exec_chain_fail σ ob n fuel i first prev :
  disk_ok σ -> (Z.to_nat ncl <= fuel)%nat -> (length (free_list σ) < n)%nat -> prev_ok prev ->
  exists σ', exec σ ob (chain_loop n fuel i first prev) None σ' None.
Proof.
  intros Hok Hfuel. revert σ ob i first prev Hok. induction n as [|n IH]; intros σ ob i first prev Hok Hn Hp; [lia|].
  cbn [chain_loop]. pose proof (exec_alloc_loop σ ob fuel 2) as Ha. fold (free_list σ) in Ha.
  assert (2 <= ncl) by (unfold ncl; destruct Hvol; lia).
  destruct (free_list σ) as [|c fl] eqn:Efl.
  { exists σ. eapply exec_bind; [apply Ha; lia|]. xret. }
  destruct (free_list_valid σ c) as [Hc Hc0]; [rewrite Efl; set_solver|]. pose proof Hc as [Hc1 Hc2].
  pose proof (vo_ncl Hvol) as Hnc. unfold FAT32_EOC in Hnc.
  assert (disk_ok (fat_set σ c EOC_MARK)) as Hok1 by (apply fat_set_ok; done || lia).
  assert (length (free_list (fat_set σ c EOC_MARK)) < n)%nat as Hn1.
  { rewrite free_list_set, Efl by (done || unfold EOC_MARK; lia). rewrite filter_cons_False by tauto.
    pose proof (length_filter (fun y => y <> c) fl). cbn [length] in Hn. lia. }
  destruct (Z.eqb_spec prev 0) as [->|Hp0].
  - destruct (IH (fat_set σ c EOC_MARK) None (i + 1) (if i =? 0 then c else first) c) as [σ' Hx]; [done|done|by right|].
    exists σ'. eapply exec_bind; [apply Ha; lia|]. destruct (Z.eqb_spec c 0); [lia|]. exact Hx.
  - destruct Hp as [?|[? ?]]; [done|].
    destruct (IH (fat_set (fat_set σ c EOC_MARK) prev c) None (i + 1) (if i =? 0 then c else first) c) as [σ' Hx];
      [apply fat_set_ok; done || lia| |by right|].
    { rewrite free_list_set by (done || lia). pose proof (length_filter (fun y => y <> prev) (free_list (fat_set σ c EOC_MARK))). lia. }
    exists σ'. eapply exec_bind; [apply Ha; lia|]. destruct (Z.eqb_spec c 0); [lia|].
    destruct (Z.eqb_spec prev 0); [done|]. cbn [negb]. eapply exec_bind; [apply exec_fat_write; lia|]. exact Hx.
Qed.

(** With the clusters and a slot at hand, creation succeeds and the file is
    there, with its bytes; other chains keep theirs. *)
Lemma exec_create_read σ fuel path dir dl data :
  let len := Z.of_nat (length data) in
  let new := take (Z.to_nat (clusters_needed v len)) (free_list σ) in
  disk_ok σ -> (Z.to_nat ncl <= fuel)%nat ->
  dir_path σ (root_cluster v) (parent_comps path) dir -> chain σ dir dl ->
  clusters_live dl -> clusters_live new -> name_ok (base_name path) ->
  Forall is_byte data -> len < 2 ^ 31 ->
  (Z.to_nat (clusters_needed v len) <= length (free_list σ))%nat ->
  first_free σ (dir_slots dl) <> None ->
  exists σ',
    exec σ None (fat32_create fuel path data) ESUCCESS σ' None /\
    (scan_result (scan_slots σ (dir_slots dl) (to_83 (base_name path))) = None ->
     exec σ' None (fat32_lookup_in_dir fuel dir (base_name path)) (Some (hd 0 new, len, 0)) σ' None) /\
    (forall buf_len, len <= buf_len -> exec σ' None (fat32_read fuel (hd 0 new) len buf_len) (len, data) σ' None) /\
    (forall c l, chain σ c l -> (forall x, x ∈ l -> x ∉ dl) ->
       chain σ' c l /\ bytes_of σ' (chain_secs l) = bytes_of σ (chain_secs l)).
Proof.
  intros len new Hok Hf Hp Hdl HLd HLn Hname Hdata Hlen Hfree Hslot.
  assert (free_list σ = new ++ drop (Z.to_nat (clusters_needed v len)) (free_list σ)) as Hsplit
    by (unfold new; by rewrite take_drop).
  assert (Forall is_byte (base_name path)) as Hnb.
  { destruct Hname as (_ & HF & _). eapply Forall_impl; [exact HF|unfold is_byte; lia]. }
  set (e := new_entry (base_name path) (hd 0 new) len).
  assert (entry_ok e) as He by (apply new_entry_ok; [done|lia]).
  destruct (create_disk_spec σ new _ dir dl data e Hok Hsplit Hdl) as (Hd2 & Hok1 & Hch & Hby & Hnew & Hnb').
  set (σ2 := wr_secs (link σ 0 new) (chain_secs new) data) in *. set (σ3 := create_disk σ new dl data e) in *.
  destruct (clusters_needed_enough len) as (Henough & Hpos & Hnn); [lia|].
  assert (first_free σ2 (dir_slots dl) = first_free σ (dir_slots dl)) as Hff by (by apply first_free_ext).
  destruct (Hch _ _ Hdl) as [Hdl2 Hdl3]. pose proof (chain_length _ _ _ Hdl).
  assert (0 <= hd 0 new < 2 ^ 32) as Hhd.
  { pose proof (vo_ncl Hvol) as Hn. unfold FAT32_EOC in Hn. destruct new as [|x l] eqn:En; cbn [hd]; [lia|].
    destruct (free_list_valid σ x) as [[? ?] _]; [rewrite Hsplit; set_solver|]. lia. }
  exists σ3. split; [|split; [|split]].
  - pose proof (exec_fat32_create σ fuel path dir dl data Hf Hp Hdl HLd HLn Hdata He) as Hx.
    cbn zeta in Hx. fold len in Hx. fold new in Hx. fold e in Hx. fold σ2 in Hx. fold σ3 in Hx. rewrite Hff in Hx. destruct (first_free σ (dir_slots dl)); [|done].
    destruct Hname as (Hl12 & _). apply Hx; [done|done|done|done|]. intros Hn. by apply Hnew.
  - intros Hnone. assert (scan_slots σ3 (dir_slots dl) (e_name e) = Hit (entry_hit e)) as Hhit.
    { destruct (to_83_first _ Hname) as [? ?]. apply (add_ref_found σ2); [by apply wr_secs_ok| |done|done|done|done| |].
      - apply slots_of_ok. intros s Hs. by apply (chain_secs_live dl).
      - by rewrite Hff.
      - unfold dir_slots. rewrite (scan_slots_ext σ) by done. done. }
    eapply exec_bind; [apply exec_lookup_loop; [done|done|lia]|]. change (to_83 (base_name path)) with (e_name e).
    rewrite Hhit. cbn [scan_result entry_hit e new_entry e_first_cluster_hi e_first_cluster_lo e_size e_attr].
    rewrite join16 by done. xret.
  - intros buf_len Hbl. destruct (decide (data = [])) as [Hd|Hd].
    + assert (len = 0) as Hl0 by (unfold len; by rewrite Hd). rewrite Hl0 in *. unfold fat32_read.
      destruct (Z.ltb_spec buf_len 0); [lia|]. destruct fuel as [|fuel]; [lia|]. rewrite Hd.
      eapply exec_bind; [cbn [read_loop Z.ltb Z.compare andb]; xret|]. xret.
    + assert (0 < len) as Hl0 by (unfold len; destruct data; [done|cbn [length]; lia]).
      assert (Z.of_nat (length new) = clusters_needed v len) as Hln by (unfold new; rewrite length_take; lia).
      assert (new <> []) as Hne by (intros E; rewrite E in Hln; cbn in Hln; lia).
      destruct (Hnew Hne) as [_ Hc3]. pose proof (length_chain_secs new) as Hcs.
      assert (data = take (Z.to_nat len) (bytes_of σ3 (chain_secs new))) as Hrd.
      { rewrite Hnb'. unfold len. rewrite Nat2Z.id. symmetry. apply wr_secs_bytes.
        - apply chain_secs_NoDup. pose proof (free_list_NoDup σ) as Hn'. rewrite Hsplit in Hn'.
          by apply NoDup_app in Hn' as [? _].
        - nia. }
      rewrite Hrd at 1. apply exec_fat32_read; done || nia.
  - intros c l Hl Hn. split; [by apply Hch|by eapply Hby].
Qed.

(** A lookup that reports no entry. *)
Lemma lookup_none σ fuel dir dl name st st0 :
  chain σ dir dl -> clusters_live dl -> (Z.to_nat ncl <= fuel)%nat -> at_disk σ None st ->
  fat32_lookup_in_dir fuel dir name st = Some (None, st0) ->
  scan_result (scan_slots σ (dir_slots dl) (to_83 name)) = None.
Proof.
  intros Hdl HL Hf Hst. pose proof (chain_length _ _ _ Hdl).
  destruct (exec_lookup_loop σ None fuel dir dl (to_83 name) Hdl HL ltac:(lia) st Hst) as (st1 & E & _).
  unfold fat32_lookup_in_dir, dir_lookup, mbind, M_bind. rewrite E.
  destruct (scan_result _) as [[[? ?] ?]|]; [done|]. done.
Qed.

(** Creation fails when the clusters run out. *)
Lemma exec_create_full σ fuel path dir data :
  disk_ok σ -> (Z.to_nat ncl <= fuel)%nat -> dir_path σ (root_cluster v) (parent_comps path) dir ->
  (length (free_list σ) < Z.to_nat (clusters_needed v (Z.of_nat (length data))))%nat ->
  exists σ', exec σ None (fat32_create fuel path data) EERROR σ' None.
Proof.
  intros Hok Hf Hp Hfull.
  destruct (exec_chain_fail σ None _ fuel 0 0 0 Hok Hf Hfull ltac:(by left)) as [σ' Hx]. exists σ'.
  unfold fat32_create. xvol. destruct (split_last (Vfs.skip_slashes path)) as [dirs fname] eqn:Esp.
  eapply exec_bind; [by apply (exec_parent_stage _ _ _ path _ fname)|]. cbn beta iota zeta.
  eapply exec_bind; [exact Hx|xret].
Qed.

(** Creation fails when the directory has no free slot. *)
Lemma exec_create_no_slot σ fuel path dir dl data :
  let len := Z.of_nat (length data) in
  let new := take (Z.to_nat (clusters_needed v len)) (free_list σ) in
  disk_ok σ -> (Z.to_nat ncl <= fuel)%nat ->
  dir_path σ (root_cluster v) (parent_comps path) dir -> chain σ dir dl ->
  clusters_live dl -> clusters_live new -> name_ok (base_name path) -> Forall is_byte data -> len < 2 ^ 31 ->
  (Z.to_nat (clusters_needed v len) <= length (free_list σ))%nat ->
  first_free σ (dir_slots dl) = None ->
  exists σ', exec σ None (fat32_create fuel path data) EERROR σ' None.
Proof.
  intros len new Hok Hf Hp Hdl HLd HLn Hname Hdata Hlen Hfree Hslot.
  assert (free_list σ = new ++ drop (Z.to_nat (clusters_needed v len)) (free_list σ)) as Hsplit
    by (unfold new; by rewrite take_drop).
  assert (Forall is_byte (base_name path)) as Hnb.
  { destruct Hname as (_ & HF & _). eapply Forall_impl; [exact HF|unfold is_byte; lia]. }
  set (e := new_entry (base_name path) (hd 0 new) len).
  assert (entry_ok e) as He by (apply new_entry_ok; [done|lia]).
  destruct (create_disk_spec σ new _ dir dl data e Hok Hsplit Hdl) as (Hd2 & _ & Hch & _ & Hnew & _).
  destruct (clusters_needed_enough len) as (_ & Hpos & _); [lia|]. destruct (Hch _ _ Hdl) as [Hdl2 _].
  pose proof (exec_fat32_create σ fuel path dir dl data Hf Hp Hdl HLd HLn Hdata He (proj1 Hname) Hfree Hpos Hdl2) as Hx.
  cbn zeta in Hx. fold len new in Hx. unfold dir_slots in Hx at 1. rewrite (first_free_ext σ) in Hx by done.
  fold (dir_slots dl) in Hx. rewrite Hslot in Hx. eexists. apply Hx. intros Hn. by apply Hnew.
Qed.
End logic.

(** ** The theorem *)
Section create.
Context {D : Type} `{BlkLaws D}.

(** A healthy volume: sound geometry, and the FAT, the directory with the
    chain [dl] that the path leads to and the clusters that would be taken are
    on live sectors.  The fuel covers every FAT entry. *)
Record create_pre (fuel : nat) (st : fs D) (path : list Z) (dir : Z) (dl data : list Z) : Prop := {
  cp_vol : volume_ok (vol st);
  cp_fat s : fat_start_sector (vol st) <= s < data_start_sector (vol st) -> live (dev st) s;
  cp_fuel : (Z.to_nat (ncl (vol st)) <= fuel)%nat;
  cp_path : dir_path (vol st) (live (dev st)) (contents (dev st)) (root_cluster (vol st)) (parent_comps path) dir;
  cp_dir : chain (vol st) (contents (dev st)) dir dl;
  cp_dir_live : clusters_live (vol st) (live (dev st)) dl;
  cp_new_live : clusters_live (vol st) (live (dev st))
    (take (Z.to_nat (clusters_needed (vol st) (Z.of_nat (length data)))) (free_list (vol st) (contents (dev st))));
  cp_name : name_ok (base_name path);
  cp_data : Forall is_byte data;
  cp_len : Z.of_nat (length data) < 2 ^ 31
}.
(** Enough free clusters, and a free slot in the directory. *)
Definition has_room (st : fs D) (dl data : list Z) : Prop :=
  (Z.to_nat (clusters_needed (vol st) (Z.of_nat (length data))) <= length (free_list (vol st) (contents (dev st))))%nat /\
  first_free (contents (dev st)) (dir_slots (vol st) dl) <> None.

Lemma at_disk_start (st : fs D) : at_disk (vol st) (live (dev st)) (contents (dev st)) None st.
Proof. done. Qed.

(** C40: on a healthy volume creating a file ends, and it succeeds exactly
    when there are enough free clusters and a free directory slot.  After a
    success, a name that was not in the directory before is found there, as a
    plain file of the given length, and reading it gives back exactly the bytes
    written, whatever larger buffer is used; and every chain of clusters outside
    the directory, that is every other file, reads as before. *)
Theorem fat32_create_read fuel (st : fs D) path dir dl data :
  create_pre fuel st path dir dl data ->
  let len := Z.of_nat (length data) in
  exists r st1,
    fat32_create fuel path data st = Some (r, st1) /\
    (r = ESUCCESS <-> has_room st dl data) /\ (r = EERROR <-> ~ has_room st dl data) /\
    (r = ESUCCESS ->
       (forall st0, fat32_lookup_in_dir fuel dir (base_name path) st = Some (None, st0) ->
          exists first st2,
            fat32_lookup_in_dir fuel dir (base_name path) st1 = Some (Some (first, len, 0), st2) /\
            forall buf_len, len <= buf_len ->
              exists st3, fat32_read fuel first len buf_len st2 = Some ((len, data), st3)) /\
       (forall c l size buf_len,
          chain (vol st) (contents (dev st)) c l -> clusters_live (vol st) (live (dev st)) l ->
          (forall x, x ∈ l -> x ∉ dl) -> 0 <= size < 2 ^ 32 -> 0 <= buf_len < 2 ^ 32 ->
          exists out st' st'', fat32_read fuel c size buf_len st = Some (out, st') /\
                               fat32_read fuel c size buf_len st1 = Some (out, st''))).
Proof.
  intros [Hvol Hfat Hf Hp Hdl HLd HLn Hname Hdata Hlen] len. pose proof (at_disk_start st) as Hst.
  pose proof (at_disk_ok _ _ _ _ _ Hst) as Hok. unfold has_room. fold len in HLn, Hlen |- *.
  destruct (decide (Z.to_nat (clusters_needed (vol st) len) <= length (free_list (vol st) (contents (dev st))))%nat) as [Hfree|Hfull].
  2:{ assert (length (free_list (vol st) (contents (dev st))) < Z.to_nat (clusters_needed (vol st) len))%nat as Hlt by lia.
      destruct (exec_create_full _ _ Hvol Hfat _ _ _ _ data Hok Hf Hp Hlt) as (σ' & Hx).
      destruct (Hx st Hst) as (st1 & E & _). exists EERROR, st1. split; [done|]. split; [split; [done|tauto]|]. split; [tauto|done]. }
  destruct (decide (first_free (contents (dev st)) (dir_slots (vol st) dl) = None)) as [Hno|Hslot].
  { destruct (exec_create_no_slot _ _ Hvol Hfat _ _ _ _ _ _ Hok Hf Hp Hdl HLd HLn Hname Hdata Hlen Hfree Hno) as (σ' & Hx).
    destruct (Hx st Hst) as (st1 & E & _). exists EERROR, st1. split; [done|]. split; [split; [done|tauto]|]. split; [tauto|done]. }
  destruct (exec_create_read _ _ Hvol Hfat _ _ _ _ _ _ Hok Hf Hp Hdl HLd HLn Hname Hdata Hlen Hfree Hslot)
    as (σ' & Hc & Hlk & Hrd & Hoth).
  destruct (Hc st Hst) as (st1 & E & Hst1). exists ESUCCESS, st1. split; [done|]. split; [tauto|].
  split; [split; [done|tauto]|]. intros _. split.
  - intros st0 Hnone. pose proof (chain_length _ Hvol _ _ _ Hdl). eexists.
    destruct (Hlk ltac:(eapply lookup_none; done) st1 Hst1) as (st2 & E2 & Hst2). exists st2. split; [exact E2|].
    intros buf_len Hb. destruct (Hrd buf_len Hb st2 Hst2) as (st3 & E3 & _). by exists st3.
  - intros c l size buf_len Hl HLl Hn Hs Hb. destruct (Hoth c l Hl Hn) as [Hl' Hby].
    destruct (exec_read_same _ _ Hvol Hfat _ _ fuel c l size buf_len Hl Hl' Hby HLl Hf Hs Hb) as (out & H1 & H2).
    destruct (H1 st Hst) as (st' & E1 & _). destruct (H2 st1 Hst1) as (st'' & E2 & _). by exists out, st', st''.
Qed.
End create.

(** ** A memory disk *)
Record ram := MkRam { cap : Z; secs : gmap Z (list Z) }.
Definition ram_get (d : ram) (s : Z) : list Z := default (replicate 512 0) (secs d !! s).
#[global] Instance ram_dev : BlkDev ram := {
  blk_read s b d := if (0 <=? s) && (s <? cap d) then (ESUCCESS, ram_get d s, d) else (EERROR, b, d);
  blk_write s b d :=
    if (0 <=? s) && (s <? cap d) then (ESUCCESS, MkRam (cap d) (<[s := b]> (secs d))) else (EERROR, d)
}.
Definition ram_live (d : ram) (s : Z) : Prop :=
  0 <= s < cap d /\ length (ram_get d s) = 512%nat /\ Forall is_byte (ram_get d s).
Lemma ram_get_insert c m s b x : ram_get (MkRam c (<[s := b]> m)) x = if x =? s then b else ram_get (MkRam c m) x.
Proof.
  unfold ram_get. cbn [secs]. destruct (Z.eqb_spec x s) as [->|].
  - by rewrite lookup_insert_eq.
  - by rewrite lookup_insert_ne by done.
Qed.
#[global] Program Instance ram_laws : BlkLaws ram := { contents := ram_get; live := ram_live }.
Next Obligation. intros d s (_ & ? & ?). done. Qed.
Next Obligation.
  intros d s b (Hs & _). exists d. split; [|done]. cbn.
  destruct (Z.leb_spec 0 s); [|lia]. destruct (Z.ltb_spec s (cap d)); [done|lia].
Qed.
Next Obligation.
  intros [c m] s b (Hs & Hl) Hb HF. exists (MkRam c (<[s := b]> m)). cbn in *.
  destruct (Z.leb_spec 0 s); [|lia]. destruct (Z.ltb_spec s c); [|lia]. split; [done|]. split.
  - intros x. apply ram_get_insert.
  - intros x. unfold ram_live. rewrite ram_get_insert. cbn [cap]. destruct (Z.eqb_spec x s) as [->|]; [tauto|done].
Qed.

(** A volume of sixteen sectors: one FAT sector, clusters of one sector, the
    root directory in cluster 2. *)
Notation fat0 := ([0xF8; 0xFF; 0xFF; 0x0F; 0xFF; 0xFF; 0xFF; 0x0F; 0xFF; 0xFF; 0xFF; 0x0F] ++ replicate 500 0).
Notation demo_vol := (MkVol 1 2 1 2 512).
Notation demo := (MkFs demo_vol (replicate 512 0) (MkRam 16 {[ 1 := fat0 ]})).
Notation demo_path := [47; 97; 46; 116; 120; 116].      (* "/a.txt" *)
Notation demo_data := (replicate 600 0xAB).

Lemma demo_live s : 0 <= s < 16 -> ram_live (MkRam 16 {[ 1 := fat0 ]}) s.
Proof.
  intros Hs. split; [done|]. unfold ram_get. cbn [secs]. destruct (decide (s = 1)) as [->|].
  - rewrite lookup_singleton_eq. cbn [default]. split; [done|]. apply Forall_app. split.
    + repeat constructor; unfold is_byte; lia.
    + apply Forall_replicate. unfold is_byte. lia.
  - rewrite lookup_singleton_ne by done. cbn [default]. split; [done|]. apply Forall_replicate. unfold is_byte. lia.
Qed.
Lemma demo_clusters_live l : Forall (fun c => 2 <= c < 16) l -> clusters_live demo_vol (ram_live (MkRam 16 {[ 1 := fat0 ]})) l.
Proof.
  intros HF c s Hc Hs. rewrite Forall_forall in HF. specialize (HF c Hc). apply demo_live.
  unfold csec. cbn [data_start_sector sectors_per_cluster] in *. lia.
Qed.
Lemma demo_pre : create_pre 128 demo demo_path 2 [2] demo_data.
Proof.
  split; cbn [vol dev].
  - split; cbn; unfold SECTOR, FAT32_EOC, ncl; cbn; lia.
  - cbn. intros s Hs. apply demo_live. lia.
  - vm_compute. apply le_n.
  - replace (parent_comps demo_path) with (@nil (list Z)) by (vm_compute; reflexivity). constructor.
  - cbn [chain]. split; [done|]. split; [unfold valid, ncl; cbn; lia|]. vm_compute. discriminate.
  - apply demo_clusters_live. repeat constructor; lia.
  - replace (take _ _) with [3; 4] by (vm_compute; reflexivity). apply demo_clusters_live. repeat constructor; lia.
  - replace (base_name demo_path) with [97; 46; 116; 120; 116] by (vm_compute; reflexivity).
    split; [cbn; lia|]. split; [repeat constructor; lia|vm_compute; discriminate].
  - apply Forall_replicate. unfold is_byte. lia.
  - rewrite length_replicate. lia.
Qed.
Lemma demo_room : has_room demo [2] demo_data.
Proof. split; [vm_compute; repeat constructor|vm_compute; discriminate]. Qed.

Lemma demo_absent : exists st0, fat32_lookup_in_dir 128 2 (base_name demo_path) demo = Some (None, st0).
Proof.
  destruct (fat32_lookup_in_dir 128 2 (base_name demo_path) demo) as [[[x|] st0]|] eqn:E; [| |];
    apply (f_equal (fun r => match r with Some (Some _, _) => 0 | Some (None, _) => 1 | None => 2 end)) in E;
    vm_compute in E; [discriminate| |discriminate].
  by exists st0.
Qed.

Lemma fat32_create_read_witness :
  exists st1 first st2 st3,
    fat32_create 128 demo_path demo_data demo = Some (ESUCCESS, st1) /\
    fat32_lookup_in_dir 128 2 (base_name demo_path) st1 = Some (Some (first, 600, 0), st2) /\
    fat32_read 128 first 600 600 st2 = Some ((600, demo_data), st3).
Proof.
  destruct (fat32_create_read 128 demo demo_path 2 [2] demo_data demo_pre) as (r & st1 & E & Hr & _ & Hs).
  destruct Hr as [_ Hr]. specialize (Hr demo_room). rewrite Hr in E. destruct (Hs Hr) as [Hl _].
  destruct demo_absent as (st0 & E0). destruct (Hl st0 E0) as (first & st2 & E2 & Hrd).
  rewrite length_replicate in E2, Hrd.
  destruct (Hrd 600 (Z.le_refl 600)) as (st3 & E3).
  exists st1, first, st2, st3. split; [exact E|]. split; [exact E2|exact E3].
Defined.

(** ** What the code leaves open *)

(** A chain that loops is walked for ever: no fuel is enough. *)
Notation busy := (replicate 512 0x41).
Notation fat_cycle := (replicate 8 0xFF ++ [2; 0; 0; 0] ++ replicate 500 0).
Notation cyclic := (MkRam 16 (<[2 := busy]> {[ 1 := fat_cycle ]})).
Lemma cycle_sectors b :
  lookup_sectors 1 0 (cluster_to_sector demo_vol 2) [] (MkFs demo_vol b cyclic) =
    Some (Continue, MkFs demo_vol busy cyclic).
Proof. vm_compute. reflexivity. Qed.
Lemma cycle_next : fat_next 2 (MkFs demo_vol busy cyclic) = Some (2, MkFs demo_vol fat_cycle cyclic).
Proof. vm_compute. reflexivity. Qed.
Lemma cycle_step b f :
  lookup_loop (S f) 2 [] (MkFs demo_vol b cyclic) = lookup_loop f 2 [] (MkFs demo_vol fat_cycle cyclic).
Proof.
  cbn [lookup_loop]. change (2 <? FAT32_EOC) with true. unfold mbind, M_bind, get_vol. cbn [vol sectors_per_cluster].
  change (Z.to_nat 1) with 1%nat. by rewrite cycle_sectors, cycle_next.
Qed.
Example dir_lookup_diverges fuel b : dir_lookup fuel 2 [] (MkFs demo_vol b cyclic) = None.
Proof.
  unfold dir_lookup. revert b. induction fuel as [|fuel IH]; intros b; [done|]. rewrite cycle_step. apply IH.
Qed.

(** The rounding up of the length wraps, so such a file gets no cluster. *)
Example clusters_needed_wraps : clusters_needed demo_vol 0xFFFFFFFF = 0.
Proof. reflexivity. Qed.

(** A name is cut to twelve characters first, which can lose the extension. *)
Example long_name_loses_extension :
  let n := [108; 111; 110; 103; 102; 105; 108; 101; 110; 97; 109; 101; 46; 116; 120; 116] in
  to_83 n = [76; 79; 78; 71; 70; 73; 76; 69; 84; 88; 84] /\
  to_83 (take 12 n) = [76; 79; 78; 71; 70; 73; 76; 69; 32; 32; 32].
Proof. split; reflexivity. Qed.
End Fat32.
