(* ===== verification/Pci.v ===== *)
(** * PCI and the virtio transport (src/src/pci/pci.c, pci.h, virtio/virtio.c, virtio.h)

    Enumeration of the functions on the bus, assignment of base addresses
    from the two memory windows, and the walks through the capability list.
    Configuration space is the interface [CfgSpace], accessed by width and
    address in the ECAM window.  Reading it has no effect.  Console output is
    left out, so [pci_dump_capabilities] is the list it prints. *)
From stdpp Require Import finite.
From S2P Require Import Prelude.
#[local] Open Scope Z_scope.

Module Pci.

Definition PCI_ECAM_PHYS : Z := 0x4010000000.
Definition PCI_MMIO32_PHYS : Z := 0x10000000.
Definition PCI_MMIO32_LIMIT : Z := 0x3EFEFFFF.
Definition PCI_MMIO64_PHYS : Z := 0x8000000000.
Definition PCI_MMIO64_LIMIT : Z := 0xFFFFFFFFFF.
Definition MAX_PCI_DEVICES : Z := 16.
Definition MAX_PCI_BUS : Z := 256.
Definition MAX_PCI_SLOT : Z := 32.
Definition MAX_PCI_FUNC : Z := 8.
Definition PCI_VENDOR_ID : Z := 0x00.
Definition PCI_DEVICE_ID : Z := 0x02.
Definition PCI_COMMAND : Z := 0x04.
Definition PCI_STATUS : Z := 0x06.
Definition PCI_HEADER_TYPE : Z := 0x0E.
Definition PCI_BAR0 : Z := 0x10.
Definition PCI_CAP_PTR : Z := 0x34.
Definition PCI_INTERRUPT_PIN : Z := 0x3D.
Definition PCI_CMD_INTX_DISABLE : Z := 1 <<< 10.
Definition ESUCCESS : Z := 1.
Definition EERROR : Z := 0.

(** ** State *)
Record pci_device := MkDev { bus : Z; slot : Z; func : Z; vendor_id : Z; device_id : Z; bar_addr : list Z }.
Definition set_bar (i a : Z) (dv : pci_device) : pci_device :=
  MkDev (bus dv) (slot dv) (func dv) (vendor_id dv) (device_id dv) (wr (bar_addr dv) i a).
(** The statics: the filled part of [pci_devices] and the two cursors. *)
Record pci := MkPci { pci_devices : list pci_device; mmio32_next : Z; mmio64_next : Z }.
Definition pci_boot : pci := MkPci [] PCI_MMIO32_PHYS PCI_MMIO64_PHYS.

(** Configuration space: width and address. *)
Class CfgSpace (H : Type) := {
  ecam_read : Z -> Z -> H -> Z;
  ecam_write : Z -> Z -> Z -> H -> H;
  (** a read of [w] bits gives [w] bits *)
  ecam_read_range w a h : 0 <= w -> 0 <= ecam_read w a h < 2 ^ w
}.

(** ** Base addresses *)

(** The arithmetic that [alloc_mmio32] and [alloc_mmio64] share: address (or 0) and new cursor. *)
Definition alloc_mmio (limit size next : Z) : Z * Z :=
  let mask := u64 (size - 1) in
  let next := u64 (next + mask) .& unot 64 mask in
  if limit <? u64 (u64 (next + size) - 1) then (0, next) else (next, u64 (next + size)).
Definition alloc_mmio32 (size : Z) (s : pci) : Z * pci :=
  let '(addr, n) := alloc_mmio PCI_MMIO32_LIMIT size (mmio32_next s) in
  (addr, MkPci (pci_devices s) n (mmio64_next s)).
Definition alloc_mmio64 (size : Z) (s : pci) : Z * pci :=
  let '(addr, n) := alloc_mmio PCI_MMIO64_LIMIT size (mmio64_next s) in
  (addr, MkPci (pci_devices s) (mmio32_next s) n).

Definition pci_make_ecam_addr (bus slot func offset : Z) : Z :=
  PCI_ECAM_PHYS .| (bus <<< 20) .| (slot <<< 15) .| (func <<< 12) .| offset.

Section ops.
Context {H : Type} `{CfgSpace H}.
Implicit Types (h : H) (b d f : Z).

Definition pci_config_read32 b d f off h : Z := ecam_read 32 (pci_make_ecam_addr b d f off) h.
Definition pci_config_read16 b d f off h : Z := ecam_read 16 (pci_make_ecam_addr b d f off) h.
Definition pci_config_read8 b d f off h : Z := ecam_read 8 (pci_make_ecam_addr b d f off) h.
Definition pci_config_write32 b d f off val h : H := ecam_write 32 (pci_make_ecam_addr b d f off) val h.
Definition pci_config_write16 b d f off val h : H := ecam_write 16 (pci_make_ecam_addr b d f off) val h.
Definition pci_config_write8 b d f off val h : H := ecam_write 8 (pci_make_ecam_addr b d f off) val h.

(** ** Enumeration *)

(** The functions in the order of the three nested loops. *)
Definition functions : list (Z * Z * Z) :=
  b ← seqZ 0 MAX_PCI_BUS; d ← seqZ 0 MAX_PCI_SLOT; f ← seqZ 0 MAX_PCI_FUNC; [(b, d, f)].
Fixpoint enumerate_loop (l : list (Z * Z * Z)) (ds : list pci_device) h : list pci_device :=
  match l with
  | [] => ds
  | (b, d, f) :: l' =>
      let vid := pci_config_read16 b d f PCI_VENDOR_ID h in
      if vid =? 0xFFFF then enumerate_loop l' ds h
      else
        let did := pci_config_read16 b d f PCI_DEVICE_ID h in
        if MAX_PCI_DEVICES <=? Z.of_nat (length ds) then ds
        else enumerate_loop l' (ds ++ [MkDev b d f vid did (replicate 6 0)]) h
  end.
Definition pci_enumerate_bus (s : pci) h : pci :=
  MkPci (enumerate_loop functions (pci_devices s) h) (mmio32_next s) (mmio64_next s).

(** The device, on [ESUCCESS], is the copy made through the pointer. *)
Fixpoint find_device_loop (vid did : Z) (l : list pci_device) : Z * option pci_device :=
  match l with
  | [] => (EERROR, None)
  | dv :: l' => if (vendor_id dv =? vid) && (device_id dv =? did) then (ESUCCESS, Some dv) else find_device_loop vid did l'
  end.
Definition pci_find_device (vid did : Z) (s : pci) : Z * option pci_device := find_device_loop vid did (pci_devices s).

Definition pci_get_header_type (dv : pci_device) h : Z := pci_config_read8 (bus dv) (slot dv) (func dv) PCI_HEADER_TYPE h.

(** ** Sizing and assigning *)
Definition pci_get_bar_size b d f off h : Z * H :=
  let original := pci_config_read32 b d f off h in
  let h := pci_config_write32 b d f off 0xFFFFFFFF h in
  let size_mask := pci_config_read32 b d f off h in
  let h := pci_config_write32 b d f off original h in
  let size_mask := size_mask .& unot 32 0xF in
  if size_mask =? 0 then (0, h) else (u32 (unot 32 size_mask + 1), h).
Definition pci_get_bar_size64 b d f lo hi h : Z * H :=
  let orig_lo := pci_config_read32 b d f lo h in
  let orig_hi := pci_config_read32 b d f hi h in
  let h := pci_config_write32 b d f lo 0xFFFFFFFF h in
  let h := pci_config_write32 b d f hi 0xFFFFFFFF h in
  let mask_lo := pci_config_read32 b d f lo h in
  let mask_hi := pci_config_read32 b d f hi h in
  let h := pci_config_write32 b d f lo orig_lo h in
  let h := pci_config_write32 b d f hi orig_hi h in
  let mask := (mask_hi <<< 32) .| (mask_lo .& unot 64 0xF) in
  (u64 (unot 64 mask + 1), h).

(** The loop over the six registers from [i] on; a 64-bit one takes two. *)
Fixpoint assign_loop (n : nat) (i : Z) (dv : pci_device) (s : pci) h : pci_device * pci * H :=
  match n with
  | O => (dv, s, h)
  | S n' =>
      if 6 <=? i then (dv, s, h)
      else
        let '(b, d, f) := (bus dv, slot dv, func dv) in
        let bar_offset := PCI_BAR0 + i * 4 in
        let bar := pci_config_read32 b d f bar_offset h in
        if test_mask bar 0x01 then assign_loop n' (i + 1) dv s h
        else
          let type := (bar >>> 1) .& 0x03 in
          if type =? 0x00 then
            let '(size, h) := pci_get_bar_size b d f bar_offset h in
            if (size =? 0) || (size =? 0xFFFFFFFF) then assign_loop n' (i + 1) (set_bar i 0 dv) s h
            else
              let '(addr, s) := alloc_mmio32 size s in
              let h := pci_config_write32 b d f bar_offset (u32 addr) h in
              assign_loop n' (i + 1) (set_bar i addr dv) s h
          else if type =? 0x02 then
            if 6 <=? i + 1 then assign_loop n' (i + 1) (set_bar i 0 dv) s h
            else
              let bar_offset_hi := PCI_BAR0 + (i + 1) * 4 in
              let '(size64, h) := pci_get_bar_size64 b d f bar_offset bar_offset_hi h in
              if size64 =? 0 then assign_loop n' (i + 2) (set_bar i 0 dv) s h
              else
                let '(addr, s) := alloc_mmio64 size64 s in
                let h := pci_config_write32 b d f bar_offset (u32 (addr .& 0xFFFFFFFF)) h in
                let h := pci_config_write32 b d f (bar_offset + 4) (u32 (addr >>> 32)) h in
                assign_loop n' (i + 2) (set_bar i addr dv) s h
          else assign_loop n' (i + 1) dv s h
  end.
Definition pci_assign_bars (dv : pci_device) (s : pci) h : pci_device * pci * H := assign_loop 6 0 dv s h.

Definition pci_enable_device (dv : pci_device) h : H :=
  let cmd := pci_config_read16 (bus dv) (slot dv) (func dv) PCI_COMMAND h in
  let cmd := cmd .| (1 <<< 1) in
  let cmd := cmd .| (1 <<< 2) in
  pci_config_write16 (bus dv) (slot dv) (func dv) PCI_COMMAND cmd h.

(** ** Capabilities *)
Fixpoint cap_loop (hops : nat) (dv : pci_device) (cap_id ptr : Z) h : Z :=
  match hops with
  | O => 0
  | S n =>
      if ptr <? 0x40 then 0
      else if pci_config_read8 (bus dv) (slot dv) (func dv) ptr h =? cap_id then ptr
      else
        let ptr := pci_config_read8 (bus dv) (slot dv) (func dv) (ptr + 1) h .& 0xFC in
        if ptr =? 0 then 0 else cap_loop n dv cap_id ptr h
  end.
Definition pci_find_capability (dv : pci_device) (cap_id : Z) h : Z :=
  let status := pci_config_read16 (bus dv) (slot dv) (func dv) PCI_STATUS h in
  if negb (test_mask status (1 <<< 4)) then 0
  else cap_loop 48 dv cap_id (pci_config_read8 (bus dv) (slot dv) (func dv) PCI_CAP_PTR h .& 0xFC) h.

(** The lines it prints: identifier and offset. *)
Fixpoint dump_loop (hops : nat) (dv : pci_device) (ptr : Z) h : list (Z * Z) :=
  match hops with
  | O => []
  | S n =>
      if ptr <? 0x40 then []
      else
        let id := pci_config_read8 (bus dv) (slot dv) (func dv) ptr h in
        let next := pci_config_read8 (bus dv) (slot dv) (func dv) (ptr + 1) h .& 0xFC in
        (id, ptr) :: (if next =? 0 then [] else dump_loop n dv next h)
  end.
Definition pci_dump_capabilities (dv : pci_device) h : list (Z * Z) :=
  let status := pci_config_read16 (bus dv) (slot dv) (func dv) PCI_STATUS h in
  if negb (test_mask status (1 <<< 4)) then []
  else dump_loop 48 dv (pci_config_read8 (bus dv) (slot dv) (func dv) PCI_CAP_PTR h .& 0xFC) h.

(** ** Interrupts *)
Definition pci_enable_intx (dv : pci_device) h : H :=
  let cmd := pci_config_read16 (bus dv) (slot dv) (func dv) PCI_COMMAND h in
  let cmd := cmd .& unot 16 PCI_CMD_INTX_DISABLE in
  pci_config_write16 (bus dv) (slot dv) (func dv) PCI_COMMAND cmd h.
Definition pci_intx_intid (dv : pci_device) h : Z :=
  let pin := pci_config_read8 (bus dv) (slot dv) (func dv) PCI_INTERRUPT_PIN h in
  if (pin =? 0) || (4 <? pin) then 0
  else
    let spi := u32 (3 + u32 (u32 (slot dv + pin) - 1) mod 4) in
    u32 (32 + spi).

(** ** The virtio transport *)
Record virtio_pci_caps := MkCaps {
  common_cfg : Z; notify_base : Z; isr_cfg : Z; device_cfg : Z; notify_off_multiplier : Z
}.
Definition virtio_populate_capabilities (dv : pci_device) (c : virtio_pci_caps) (cap_ptr : Z) h : virtio_pci_caps :=
  let '(b, d, f) := (bus dv, slot dv, func dv) in
  let cfg_type := pci_config_read8 b d f (cap_ptr + 3) h in
  let bar := pci_config_read8 b d f (cap_ptr + 4) h in
  let offset := pci_config_read32 b d f (cap_ptr + 8) h in
  if 6 <=? bar then c
  else
    let cap_addr := u64 (rd (bar_addr dv) bar + offset) in
    match cfg_type with
    | 1 => MkCaps cap_addr (notify_base c) (isr_cfg c) (device_cfg c) (notify_off_multiplier c)
    | 2 => MkCaps (common_cfg c) cap_addr (isr_cfg c) (device_cfg c) (pci_config_read32 b d f (cap_ptr + 0x10) h)
    | 3 => MkCaps (common_cfg c) (notify_base c) cap_addr (device_cfg c) (notify_off_multiplier c)
    | 4 => MkCaps (common_cfg c) (notify_base c) (isr_cfg c) cap_addr (notify_off_multiplier c)
    | _ => c
    end.
(** One capability: only vendor-specific ones count. *)
Definition virtio_cap (dv : pci_device) h (c : virtio_pci_caps) (cap_ptr : Z) : virtio_pci_caps :=
  let cap_id := pci_config_read8 (bus dv) (slot dv) (func dv) cap_ptr h in
  if cap_id =? 0x11 then c
  else if cap_id =? 0x09 then virtio_populate_capabilities dv c cap_ptr h
  else c.
(** [while (cap_ptr)]; [None] when the fuel is used up. *)
Fixpoint parse_loop (fuel : nat) (dv : pci_device) (c : virtio_pci_caps) (cap_ptr : Z) h : option virtio_pci_caps :=
  if cap_ptr =? 0 then Some c
  else match fuel with
  | O => None
  | S n =>
      let next := pci_config_read8 (bus dv) (slot dv) (func dv) (cap_ptr + 1) h in
      parse_loop n dv (virtio_cap dv h c cap_ptr) next h
  end.
Definition virtio_parse_capabilities (fuel : nat) (dv : pci_device) (c : virtio_pci_caps) h : option virtio_pci_caps :=
  let status := pci_config_read16 (bus dv) (slot dv) (func dv) PCI_STATUS h in
  if negb (test_mask status (1 <<< 4)) then Some c
  else parse_loop fuel dv c (pci_config_read8 (bus dv) (slot dv) (func dv) PCI_CAP_PTR h) h.
End ops.

(** ** Addresses of configuration space *)
Lemma lor_field k hi lo : 0 <= k -> 0 <= lo < 2 ^ k -> (hi <<< k) .| lo = hi * 2 ^ k + lo.
Proof.
  intros Hk Hlo. rewrite <- Z.shiftl_mul_pow2 by done. symmetry. rewrite <- Z.lxor_lor; [apply Z.add_nocarry_lxor|];
  apply Z.bits_inj'; intros n Hn; rewrite Z.land_spec, Z.bits_0, Z.shiftl_spec by done;
  destruct (decide (n < k)); try (rewrite Z.testbit_neg_r by lia; done);
  rewrite (testbit_high k lo n) by lia; apply andb_false_r.
Qed.
Definition bdf_ok (b d f : Z) : Prop := 0 <= b < MAX_PCI_BUS /\ 0 <= d < MAX_PCI_SLOT /\ 0 <= f < MAX_PCI_FUNC.
Lemma ecam_val b d f off : bdf_ok b d f -> 0 <= off < 4096 ->
  pci_make_ecam_addr b d f off = PCI_ECAM_PHYS + b * 0x100000 + d * 0x8000 + f * 0x1000 + off.
Proof.
  unfold bdf_ok, MAX_PCI_BUS, MAX_PCI_SLOT, MAX_PCI_FUNC, pci_make_ecam_addr. intros Hb Ho.
  change PCI_ECAM_PHYS with (0x401 <<< 28) at 1. rewrite (lor_field 12), (lor_field 15), (lor_field 20), (lor_field 28) by lia. unfold PCI_ECAM_PHYS. lia.
Qed.
(** Every register of every function has an address of its own in the window. *)
Lemma ecam_injective b d f off b' d' f' off' :
  bdf_ok b d f -> bdf_ok b' d' f' -> 0 <= off < 4096 -> 0 <= off' < 4096 ->
  pci_make_ecam_addr b d f off = pci_make_ecam_addr b' d' f' off' -> (b, d, f, off) = (b', d', f', off').
Proof.
  intros Hb Hb' Ho Ho'. rewrite !ecam_val by done. unfold bdf_ok, MAX_PCI_BUS, MAX_PCI_SLOT, MAX_PCI_FUNC in *. intros.
  assert (off = off') by lia. assert (f = f') by lia. assert (d = d') by lia. assert (b = b') by lia. congruence.
Qed.

(** ** The windows *)
Definition align_up (k x : Z) : Z := (x + 2 ^ k - 1) / 2 ^ k * 2 ^ k.
Lemma align_up_spec k x : 0 <= k -> x <= align_up k x < x + 2 ^ k /\ align_up k x mod 2 ^ k = 0.
Proof. intros Hk. pose proof (Z.pow_pos_nonneg 2 k eq_refl Hk). unfold align_up. split; [dlia|apply Z.mod_mul; lia]. Qed.
Lemma align_up_le k x m : 0 <= k -> x <= m -> m mod 2 ^ k = 0 -> align_up k x <= m.
Proof.
  intros Hk Hx Hm. pose proof (Z.pow_pos_nonneg 2 k eq_refl Hk) as Hp. apply Z.mod_divide in Hm as [q ->]; [|lia].
  unfold align_up. apply Z.mul_le_mono_nonneg_r; [lia|]. apply Z.lt_succ_r, Z.div_lt_upper_bound; lia.
Qed.
(** The top of the address space is a multiple of every size, so rounding up never wraps. *)
Lemma alloc_mmio_spec limit k next : 0 <= k < 64 -> 0 <= next <= 2 ^ 63 -> 0 <= limit < 2 ^ 63 ->
  alloc_mmio limit (2 ^ k) next =
  let a := align_up k next in if limit <? a + 2 ^ k - 1 then (0, a) else (a, a + 2 ^ k).
Proof.
  intros Hk Hn Hl. pose proof (Z.pow_pos_nonneg 2 k eq_refl ltac:(lia)) as Hp.
  assert (Hp63 : 2 ^ k <= 2 ^ 63) by (apply Z.pow_le_mono_r; lia).
  unfold alloc_mmio. rewrite (u64_small (2 ^ k - 1)) by lia. rewrite (u64_small (next + (2 ^ k - 1))) by lia.
  rewrite land_unot_ones by lia. replace (next + (2 ^ k - 1)) with (next + 2 ^ k - 1) by lia. fold (align_up k next).
  pose proof (align_up_spec k next ltac:(lia)) as [Ha Hm].
  assert (Ha63 : align_up k next <= 2 ^ 63).
  { apply align_up_le; [lia..|]. replace 63 with (63 - k + k) by lia. rewrite Z.pow_add_r by lia. apply Z.mod_mul. lia. }
  cbv zeta. set (a := align_up k next) in *. clearbody a.
  destruct (decide (a + 2 ^ k = 2 ^ 64)) as [Ht|Ht].
  - rewrite Ht. change (u64 (2 ^ 64)) with 0. change (u64 (0 - 1)) with (2 ^ 64 - 1). by rewrite (proj2 (Z.ltb_lt limit (2 ^ 64 - 1)) ltac:(lia)).
  - rewrite (u64_small (a + 2 ^ k)) by lia. rewrite u64_small by lia. done.
Qed.

(** A range of bus addresses that some base address register was given. *)
Record region := MkRegion { wide : bool; base : Z; order : Z }.
Definition top (r : region) : Z := base r + 2 ^ order r.
Definition cursor (w : bool) (s : pci) : Z := if w then mmio64_next s else mmio32_next s.
Definition window_lo (w : bool) : Z := if w then PCI_MMIO64_PHYS else PCI_MMIO32_PHYS.
Definition window_hi (w : bool) : Z := if w then PCI_MMIO64_LIMIT else PCI_MMIO32_LIMIT.
Definition region_ok (s : pci) (r : region) : Prop :=
  0 <= order r < 64 /\ base r mod 2 ^ order r = 0 /\ window_lo (wide r) <= base r /\
  top r - 1 <= window_hi (wide r) /\ top r <= cursor (wide r) s.
Definition apart (r r' : region) : Prop := top r <= base r' \/ top r' <= base r.
(** Everything handed out is aligned, inside its window, behind the cursor, and overlaps nothing else. *)
Definition pci_inv (s : pci) (G : list region) : Prop :=
  (forall w, window_lo w <= cursor w s <= 2 ^ 63) /\ Forall (region_ok s) G /\
  (forall i j r r', G !! i = Some r -> G !! j = Some r' -> (i < j)%nat -> apart r r').
Definition alloc (w : bool) (size : Z) (s : pci) : Z * pci := if w then alloc_mmio64 size s else alloc_mmio32 size s.

Lemma window_facts w : 0 < window_lo w < window_hi w /\ window_hi w < 2 ^ 63.
Proof. by destruct w. Qed.
Lemma windows_apart : window_hi false < window_lo true.
Proof. done. Qed.
Lemma pci_region_mono s s' r : (forall w, cursor w s <= cursor w s') -> region_ok s r -> region_ok s' r.
Proof. unfold region_ok. intros Hc Hr. specialize (Hc (wide r)). naive_solver lia. Qed.
Lemma pci_inv_mono s s' G :
  (forall w, cursor w s <= cursor w s' <= 2 ^ 63) -> pci_inv s G -> pci_inv s' G.
Proof.
  intros Hc (Hw & HG & Hd). split; [intros w; specialize (Hc w); specialize (Hw w); lia|]. split; [|done].
  eapply Forall_impl; [exact HG|]. intros r. apply pci_region_mono. intros w. apply Hc.
Qed.
(** A region between the old and the new cursor meets nothing that was handed out before. *)
Lemma pci_inv_grow s s' G r :
  (forall w, cursor w s <= cursor w s' <= 2 ^ 63) -> cursor (wide r) s <= base r -> region_ok s' r ->
  pci_inv s G -> pci_inv s' (G ++ [r]).
Proof.
  intros Hc Hb Hr Hi. destruct (pci_inv_mono _ _ _ Hc Hi) as (Hw & HG & Hd). destruct Hi as (Hw0 & HG0 & _).
  split; [done|]. split; [by apply Forall_app; split; [|constructor]|].
  intros i j r1 r2 H1 H2 Hij. apply lookup_snoc_Some in H2 as [[Hj H2]|[-> <-]].
  - apply lookup_snoc_Some in H1 as [[_ H1]|[-> _]]; [by eapply Hd|lia].
  - apply lookup_snoc_Some in H1 as [[_ H1]|[-> _]]; [|lia]. rewrite Forall_lookup in HG0. apply HG0 in H1 as (Ho & _ & Hlo & Hhi & Htop).
    destruct Hr as (Ho' & _ & Hlo' & Hhi' & _). pose proof windows_apart.
    pose proof (Z.pow_pos_nonneg 2 (order r1) eq_refl ltac:(lia)). pose proof (Z.pow_pos_nonneg 2 (order r) eq_refl ltac:(lia)).
    unfold apart, top in *. destruct (wide r1) eqn:E1, (wide r) eqn:E2; lia.
Qed.

Lemma cursor_alloc w k s : 0 <= k < 64 -> 0 <= cursor w s <= 2 ^ 63 ->
  let a := align_up k (cursor w s) in
  exists s', alloc w (2 ^ k) s = (if window_hi w <? a + 2 ^ k - 1 then 0 else a, s') /\
    pci_devices s' = pci_devices s /\ cursor (negb w) s' = cursor (negb w) s /\
    cursor w s' = (if window_hi w <? a + 2 ^ k - 1 then a else a + 2 ^ k).
Proof.
  intros Hk Hc a. pose proof (window_facts w) as Hw.
  destruct w; cbn [alloc cursor window_hi negb] in *; unfold alloc_mmio64, alloc_mmio32;
    rewrite alloc_mmio_spec by lia; fold a; cbv zeta; destruct (_ <? _); eexists; (split; [reflexivity|]); done.
Qed.
(** One allocation: it fails only if nothing of that size is left above the cursor. *)
Lemma alloc_inv w k s G : pci_inv s G -> 0 <= k < 64 ->
  exists a s', alloc w (2 ^ k) s = (a, s') /\ pci_devices s' = pci_devices s /\
    (forall w', cursor w' s <= cursor w' s' <= 2 ^ 63) /\ 0 <= a < 2 ^ 63 /\ a mod 2 ^ k = 0 /\ (w = false -> a < 2 ^ 32) /\
    (a = 0 -> window_hi w < cursor w s' + 2 ^ k - 1) /\
    pci_inv s' (if a =? 0 then G else G ++ [MkRegion w a k]).
Proof.
  intros Hi Hk. pose proof Hi as (Hw & _ & _). pose proof (window_facts w) as Hf. pose proof (Hw w) as Hcw.
  destruct (cursor_alloc w k s Hk ltac:(lia)) as (s' & Ha & Hd & Hn & Hc).
  pose proof (align_up_spec k (cursor w s) ltac:(lia)) as [Hal Hm]. pose proof (Z.pow_pos_nonneg 2 k eq_refl ltac:(lia)) as Hp.
  assert (Ha63 : align_up k (cursor w s) <= 2 ^ 63).
  { apply align_up_le; [lia..|]. replace 63 with (63 - k + k) by lia. rewrite Z.pow_add_r by lia. apply Z.mod_mul. lia. }
  set (a := align_up k (cursor w s)) in *. clearbody a.
  assert (Hcur : forall w', cursor w' s <= cursor w' s' <= 2 ^ 63).
  { intros w'. pose proof (Hw w'). destruct (decide (w' = w)) as [->|Hne].
    - rewrite Hc. destruct (Z.ltb_spec (window_hi w) (a + 2 ^ k - 1)); lia.
    - assert (w' = negb w) as -> by (by destruct w, w'). rewrite Hn. lia. }
  exists (if window_hi w <? a + 2 ^ k - 1 then 0 else a), s'. split; [done|]. split; [done|]. split; [done|].
  destruct (Z.ltb_spec (window_hi w) (a + 2 ^ k - 1)) as [Hov|Hfit].
  - rewrite Zmod_0_l. repeat (split; [lia|]). cbn [Z.eqb]. by eapply pci_inv_mono.
  - split; [lia|]. split; [done|]. split; [intros ->; unfold window_hi, PCI_MMIO32_LIMIT in Hfit; lia|]. split; [lia|].
    rewrite (proj2 (Z.eqb_neq a 0)) by lia. eapply pci_inv_grow; [done| | |done]; cbn [wide base]; [lia|].
    unfold region_ok, top. cbn [wide base order]. rewrite Hc. repeat split; [lia..|done|lia|lia|lia].
Qed.

(** ** Base address registers

    What the code relies on (PCI Local Bus specification, 6.2.5): a base
    address register has bits that can be written and bits that cannot, and
    writing it changes no other register. *)
Definition bar_reg (b d f i : Z) : Z := pci_make_ecam_addr b d f (PCI_BAR0 + i * 4).
Class CfgLaws (H : Type) `{CfgSpace H} := {
  wmask : Z -> Z;
  bar_write_eq b d f i v h : bdf_ok b d f -> 0 <= i < 6 ->
    ecam_read 32 (bar_reg b d f i) (ecam_write 32 (bar_reg b d f i) v h) =
    (v .& wmask (bar_reg b d f i)) .| (ecam_read 32 (bar_reg b d f i) h .& unot 32 (wmask (bar_reg b d f i)));
  bar_write_ne b d f i v h w a : bdf_ok b d f -> 0 <= i < 6 -> 8 <= w ->
    a + w / 8 <= bar_reg b d f i \/ bar_reg b d f i + 4 <= a ->
    ecam_read w a (ecam_write 32 (bar_reg b d f i) v h) = ecam_read w a h
}.

(** The kinds of register; the number is the logarithm of the size. *)
Inductive bar_kind := BarNone | BarIO | BarReserved | Bar32 (k : Z) | Bar64 (k : Z).
Definition mask32 (k : Z) : Z := 2 ^ 32 - 2 ^ k.
Definition lo_order (k : Z) : Z := Z.min k 32.
Definition hi_order (k : Z) : Z := Z.max 0 (k - 32).
(** The part of a register above bit [k]. *)
Definition high_part (k x : Z) : Z := x / 2 ^ k * 2 ^ k.

Lemma pow_range k : 0 <= k <= 32 -> 0 < 2 ^ k <= 2 ^ 32.
Proof. intros. split; [apply Z.pow_pos_nonneg; lia|apply Z.pow_le_mono_r; lia]. Qed.
Lemma unot_ones k : 0 <= k <= 32 -> unot 32 (2 ^ k - 1) = mask32 k.
Proof.
  intros Hk. pose proof (pow_range k Hk). unfold unot, mask32, wrap, Z.lnot. symmetry. apply Z.mod_unique with (-1); lia.
Qed.
(** Writing a register whose writable bits are those above [k]. *)
Lemma write_masked k v old : 0 <= k <= 32 -> 0 <= v < 2 ^ 32 -> 0 <= old ->
  (v .& mask32 k) .| (old .& unot 32 (mask32 k)) = high_part k v + old mod 2 ^ k.
Proof.
  intros Hk Hv Ho. pose proof (pow_range k Hk). rewrite <- unot_ones by done. rewrite land_unot_ones by lia.
  assert (unot 32 (unot 32 (2 ^ k - 1)) = Z.ones k) as ->.
  { rewrite unot_ones by done. unfold unot, mask32, wrap. rewrite Z.ones_equiv. unfold Z.lnot.
    symmetry. apply Z.mod_unique with (-1); lia. }
  rewrite Z.land_ones by lia. unfold high_part. rewrite <- Z.shiftl_mul_pow2 by lia.
  rewrite lor_field by (try lia; apply Z.mod_pos_bound; lia). by rewrite Z.shiftl_mul_pow2 by lia.
Qed.
Lemma high_part_low k a r : 0 <= k -> 0 <= r < 2 ^ k -> high_part k (high_part k a + r) = high_part k a.
Proof. intros Hk Hr. unfold high_part. rewrite Z.div_add_l by lia. rewrite (Z.div_small r) by lia. by rewrite Z.add_0_r. Qed.
Lemma high_part_aligned k a : 0 <= k -> a mod 2 ^ k = 0 -> high_part k a = a.
Proof. intros Hk Hm. pose proof (Z.pow_pos_nonneg 2 k eq_refl Hk). unfold high_part. rewrite (Z.div_mod a (2 ^ k)) at 2 by lia. lia. Qed.

(** The control bits of a register. *)
Lemma bar_odd x : test_mask x 0x01 = (x mod 2 =? 1).
Proof.
  unfold test_mask. change 0x01 with (Z.ones 1). rewrite Z.land_ones by lia. change (2 ^ 1) with 2.
  assert (x mod 2 = 0 \/ x mod 2 = 1) as [-> | ->] by dlia; done.
Qed.
Lemma bar_type x : (x >>> 1) .& 0x03 = x mod 8 / 2.
Proof. rewrite Z.shiftr_div_pow2 by lia. change 0x03 with (Z.ones 2). rewrite Z.land_ones by lia. change (2 ^ 1) with 2. change (2 ^ 2) with 4. dlia. Qed.
Lemma mod8 x k : 3 <= k -> x mod 8 = (x mod 2 ^ k) mod 8.
Proof.
  intros Hk. apply Znumtheory.Zmod_div_mod; [lia|apply Z.pow_pos_nonneg; lia|].
  exists (2 ^ (k - 3)). replace k with (k - 3 + 3) at 1 by lia. by rewrite Z.pow_add_r by lia.
Qed.

Section bars.
Context {H : Type} `{CfgLaws H} (b d f : Z) (Hbdf : bdf_ok b d f).
Implicit Types h : H.

Definition rdbar h (i : Z) : Z := ecam_read 32 (bar_reg b d f i) h.
Definition wmsk (i : Z) : Z := wmask (bar_reg b d f i).
(** An access that touches none of the six registers. *)
Definition off_bars (w a : Z) : Prop := 8 <= w /\ (a + w / 8 <= bar_reg b d f 0 \/ bar_reg b d f 5 + 4 <= a).

Definition bar_ok h (i : Z) (kd : bar_kind) : Prop :=
  match kd with
  | BarNone => rdbar h i = 0 /\ wmsk i = 0
  | BarIO => rdbar h i mod 2 = 1
  | BarReserved => rdbar h i mod 8 = 2 \/ rdbar h i mod 8 = 6
  | Bar32 k => 4 <= k < 32 /\ wmsk i = mask32 k /\ (rdbar h i mod 2 ^ k = 0 \/ rdbar h i mod 2 ^ k = 8)
  | Bar64 k =>
      4 <= k < 64 /\ wmsk i = mask32 (lo_order k) /\ wmsk (i + 1) = mask32 (hi_order k) /\
      (rdbar h i mod 2 ^ lo_order k = 4 \/ rdbar h i mod 2 ^ lo_order k = 12) /\ rdbar h (i + 1) mod 2 ^ hi_order k = 0
  end.
Definition bar_width (kd : bar_kind) : Z := match kd with Bar64 _ => 2 | _ => 1 end.
(** The registers from [i] on are those of the list. *)
Fixpoint conforms h (i : Z) (l : list bar_kind) : Prop :=
  match l with [] => i = 6 | kd :: l' => bar_ok h i kd /\ conforms h (i + bar_width kd) l' end.
(** The address a register decodes. *)
Definition decoded h (i : Z) (kd : bar_kind) : Z :=
  match kd with
  | Bar32 k => high_part k (rdbar h i)
  | Bar64 k => high_part (lo_order k) (rdbar h i) + 2 ^ 32 * high_part (hi_order k) (rdbar h (i + 1))
  | _ => 0
  end.

Lemma bar_reg_val i : 0 <= i < 6 -> bar_reg b d f i = bar_reg b d f 0 + 4 * i.
Proof. intros. unfold bar_reg, PCI_BAR0. rewrite !ecam_val by (done || lia). lia. Qed.
Lemma rdbar_range h i : 0 <= rdbar h i < 2 ^ 32.
Proof. by apply ecam_read_range. Qed.
Lemma rdbar_write_eq h i k v : 0 <= i < 6 -> wmsk i = mask32 k -> 0 <= k <= 32 -> 0 <= v < 2 ^ 32 ->
  rdbar (ecam_write 32 (bar_reg b d f i) v h) i = high_part k v + rdbar h i mod 2 ^ k.
Proof.
  intros Hi Hm Hk Hv. unfold rdbar. rewrite bar_write_eq by done. fold (wmsk i). rewrite Hm. apply write_masked; [done..|].
  apply rdbar_range.
Qed.
Lemma rdbar_write_ne h i j v : 0 <= i < 6 -> 0 <= j < 6 -> i <> j ->
  rdbar (ecam_write 32 (bar_reg b d f i) v h) j = rdbar h j.
Proof. intros Hi Hj Hne. apply bar_write_ne; [done..|]. rewrite (bar_reg_val i), (bar_reg_val j) by done. change (32 / 8) with 4. lia. Qed.
Lemma off_write h i v w a : 0 <= i < 6 -> off_bars w a -> ecam_read w a (ecam_write 32 (bar_reg b d f i) v h) = ecam_read w a h.
Proof. intros Hi Ho. destruct Ho as [Hw Ho]. apply bar_write_ne; [done..|]. rewrite (bar_reg_val i) by done. rewrite (bar_reg_val 5) in Ho by lia. lia. Qed.
Lemma decoded_write32 h i k a : 0 <= i < 6 -> 4 <= k < 32 -> wmsk i = mask32 k -> 0 <= a < 2 ^ 32 -> a mod 2 ^ k = 0 ->
  decoded (ecam_write 32 (bar_reg b d f i) a h) i (Bar32 k) = a.
Proof.
  intros Hi Hk Hm Ha Hal. cbn [decoded]. rewrite (rdbar_write_eq h i k) by (done || lia). rewrite high_part_low; [|lia|].
  - apply high_part_aligned; [lia|done].
  - apply Z.mod_pos_bound. pose proof (pow_range k). lia.
Qed.
Lemma decoded_write64 h i k a : 0 <= i < 5 -> 4 <= k < 64 -> wmsk i = mask32 (lo_order k) -> wmsk (i + 1) = mask32 (hi_order k) ->
  0 <= a < 2 ^ 64 -> a mod 2 ^ k = 0 ->
  decoded (ecam_write 32 (bar_reg b d f (i + 1)) (a / 2 ^ 32) (ecam_write 32 (bar_reg b d f i) (a mod 2 ^ 32) h)) i (Bar64 k) = a.
Proof.
  intros Hi Hk Hm Hm' Ha Hal. cbn [decoded].
  assert (Hlo : 4 <= lo_order k <= 32) by (unfold lo_order; lia). assert (Hhi : 0 <= hi_order k < 32) by (unfold hi_order; lia).
  pose proof (pow_range (lo_order k) ltac:(lia)). pose proof (pow_range (hi_order k) ltac:(lia)).
  rewrite (rdbar_write_eq _ (i + 1) (hi_order k)) by (done || dlia). rewrite !(rdbar_write_ne _ (i + 1) i) by lia.
  rewrite (rdbar_write_eq _ i (lo_order k)) by (done || dlia). rewrite !high_part_low by (lia || (apply Z.mod_pos_bound; lia)).
  apply Z.mod_divide in Hal as [q ->]; [|lia].
  assert (high_part (lo_order k) ((q * 2 ^ k) mod 2 ^ 32) = (q * 2 ^ k) mod 2 ^ 32) as ->.
  { apply high_part_aligned; [lia|]. unfold lo_order. destruct (decide (k <= 32)).
    - rewrite Z.min_l by lia. rewrite <- Znumtheory.Zmod_div_mod; [apply Z.mod_mul; lia|lia|lia|].
      exists (2 ^ (32 - k)). rewrite <- Z.pow_add_r by lia. f_equal. lia.
    - rewrite Z.min_r by lia. replace (2 ^ k) with (2 ^ (k - 32) * 2 ^ 32) by (rewrite <- Z.pow_add_r by lia; f_equal; lia).
      rewrite Z.mul_assoc, Z.mod_mul by lia. done. }
  assert (high_part (hi_order k) (q * 2 ^ k / 2 ^ 32) = q * 2 ^ k / 2 ^ 32) as ->.
  { apply high_part_aligned; [lia|]. unfold hi_order. destruct (decide (k <= 32)).
    - rewrite Z.max_l by lia. apply Z.mod_1_r.
    - rewrite Z.max_r by lia. replace (2 ^ k) with (2 ^ (k - 32) * 2 ^ 32) by (rewrite <- Z.pow_add_r by lia; f_equal; lia).
      rewrite Z.mul_assoc, Z.div_mul by lia. apply Z.mod_mul. apply Z.pow_nonzero; lia. }
  dlia.
Qed.

(** Two configuration spaces that read alike, as far as the code looks. *)
Definition same_cfg h h' : Prop :=
  (forall j, 0 <= j < 6 -> rdbar h' j = rdbar h j) /\ (forall w a, off_bars w a -> ecam_read w a h' = ecam_read w a h).
Lemma restore k x : 0 <= k -> 0 <= x -> high_part k x + (high_part k 0xFFFFFFFF + x mod 2 ^ k) mod 2 ^ k = x.
Proof.
  intros Hk Hx. pose proof (Z.pow_pos_nonneg 2 k eq_refl Hk). unfold high_part.
  rewrite (Z.add_comm (_ * _) (x mod _)), Z.mod_add, Z.mod_mod by lia. rewrite (Z.div_mod x (2 ^ k)) at 3 by lia. lia.
Qed.
Lemma ones_high k : 0 <= k <= 32 -> high_part k 0xFFFFFFFF = mask32 k.
Proof.
  intros Hk. pose proof (pow_range k Hk). unfold high_part, mask32. replace 32 with (32 - k + k) at 1 by lia.
  assert (0xFFFFFFFF / 2 ^ k = 2 ^ (32 - k) - 1) as ->.
  { symmetry. apply Z.div_unique with (2 ^ k - 1); [lia|]. rewrite Z.mul_sub_distr_l, <- Z.pow_add_r by lia. replace (k + (32 - k)) with 32 by lia. lia. }
  rewrite Z.pow_add_r by lia. lia.
Qed.
Lemma mask32_16 k : 4 <= k <= 32 -> exists q, mask32 k = q * 16 /\ 0 <= q < 2 ^ 28.
Proof.
  intros Hk. pose proof (pow_range k ltac:(lia)). unfold mask32. exists (2 ^ 28 - 2 ^ (k - 4)).
  replace k with (k - 4 + 4) at 1 by lia. rewrite Z.pow_add_r by lia. pose proof (Z.pow_pos_nonneg 2 (k - 4) eq_refl ltac:(lia)).
  assert (2 ^ (k - 4) <= 2 ^ 28) by (apply Z.pow_le_mono_r; lia). lia.
Qed.
(** The control bits do not survive the mask. *)
Lemma strip_control w k x : 32 <= w -> 4 <= k <= 32 -> 0 <= x < 16 -> (mask32 k + x) .& unot w 0xF = mask32 k.
Proof.
  intros Hw Hk Hx. destruct (mask32_16 k Hk) as (q & -> & Hq). assert (2 ^ 32 <= 2 ^ w) by (apply Z.pow_le_mono_r; lia).
  change 0xF with (2 ^ 4 - 1). rewrite land_unot_ones by lia. change (2 ^ 4) with 16. rewrite Z.div_add_l, (Z.div_small x) by lia. lia.
Qed.
Lemma probe32 h i k : 0 <= i < 6 -> wmsk i = mask32 k -> 4 <= k <= 32 -> rdbar h i mod 2 ^ k < 16 ->
  exists h', pci_get_bar_size b d f (PCI_BAR0 + i * 4) h = (if k =? 32 then 0 else 2 ^ k, h') /\ same_cfg h h'.
Proof.
  intros Hi Hm Hk Hx. pose proof (rdbar_range h i) as Hr. pose proof (pow_range k ltac:(lia)) as Hp.
  pose proof (Z.mod_pos_bound (rdbar h i) (2 ^ k) ltac:(lia)) as Hmod.
  unfold pci_get_bar_size, pci_config_write32, pci_config_read32. fold (bar_reg b d f i).
  set (h1 := ecam_write 32 _ 0xFFFFFFFF h). set (h2 := ecam_write 32 _ _ h1). fold (rdbar h1 i).
  assert (rdbar h1 i = mask32 k + rdbar h i mod 2 ^ k) as Hv1.
  { unfold h1. rewrite (rdbar_write_eq h i k) by (done || lia). by rewrite ones_high by lia. }
  assert (same_cfg h h2) as Hs.
  { split.
    - intros j Hj. unfold h2. fold (rdbar h i). destruct (decide (i = j)) as [<-|Hne].
      + rewrite (rdbar_write_eq h1 i k), Hv1 by (done || lia). rewrite <- ones_high by lia. apply restore; lia.
      + unfold h1. by rewrite !rdbar_write_ne by done.
    - intros w a Hoff. unfold h2, h1. by rewrite !off_write. }
  rewrite Hv1, strip_control by lia. exists h2. split; [|done]. unfold mask32. destruct (Z.eqb_spec k 32) as [->|Hne]; [done|].
  assert (2 ^ k < 2 ^ 32) by (apply Z.pow_lt_mono_r; lia). rewrite (proj2 (Z.eqb_neq _ 0)) by lia. f_equal.
  unfold unot, wrap, Z.lnot. assert (Z.pred (- (2 ^ 32 - 2 ^ k)) mod 2 ^ 32 = 2 ^ k - 1) as ->.
  { symmetry. apply Z.mod_unique with (-1); lia. }
  rewrite u32_small; lia.
Qed.
Lemma orders k : 4 <= k < 64 ->
  4 <= lo_order k <= 32 /\ 0 <= hi_order k < 32 /\ 2 ^ 32 * mask32 (hi_order k) + mask32 (lo_order k) = 2 ^ 64 - 2 ^ k.
Proof.
  intros Hk. unfold lo_order, hi_order, mask32. split; [lia|]. split; [lia|]. destruct (decide (k <= 32)).
  - rewrite (Z.min_l k), (Z.max_l 0) by lia. lia.
  - rewrite (Z.min_r k), (Z.max_r 0) by lia. replace (2 ^ k) with (2 ^ 32 * 2 ^ (k - 32)); [lia|].
    rewrite <- Z.pow_add_r by lia. f_equal. lia.
Qed.
Lemma probe64 h i k : 0 <= i < 5 -> bar_ok h i (Bar64 k) ->
  exists h', pci_get_bar_size64 b d f (PCI_BAR0 + i * 4) (PCI_BAR0 + (i + 1) * 4) h = (2 ^ k, h') /\ same_cfg h h'.
Proof.
  intros Hi (Hk & Hm & Hm' & Hx & Hx'). pose proof (rdbar_range h i) as Hr. pose proof (rdbar_range h (i + 1)) as Hr'.
  destruct (orders k Hk) as (Hlo & Hhi & Hsum).
  pose proof (pow_range (lo_order k) ltac:(lia)) as Hp. pose proof (pow_range (hi_order k) ltac:(lia)) as Hp'.
  unfold pci_get_bar_size64, pci_config_write32, pci_config_read32. fold (bar_reg b d f i) (bar_reg b d f (i + 1)).
  set (h1 := ecam_write 32 _ 0xFFFFFFFF h). set (h2 := ecam_write 32 _ 0xFFFFFFFF h1). fold (rdbar h i) (rdbar h (i + 1)) (rdbar h2 i) (rdbar h2 (i + 1)).
  set (h3 := ecam_write 32 _ _ h2). set (h4 := ecam_write 32 _ _ h3).
  assert (rdbar h2 i = mask32 (lo_order k) + rdbar h i mod 2 ^ lo_order k) as Hv2.
  { unfold h2, h1. rewrite rdbar_write_ne by lia. rewrite (rdbar_write_eq h i (lo_order k)) by (done || lia). by rewrite ones_high by lia. }
  assert (rdbar h2 (i + 1) = mask32 (hi_order k) + rdbar h (i + 1) mod 2 ^ hi_order k) as Hw2.
  { unfold h2. rewrite (rdbar_write_eq h1 (i + 1) (hi_order k)) by (done || lia). unfold h1. rewrite rdbar_write_ne by lia. by rewrite ones_high by lia. }
  assert (same_cfg h h4) as Hs.
  { split.
    - intros j Hj. unfold h4. destruct (decide (i + 1 = j)) as [<-|Hne].
      + rewrite (rdbar_write_eq h3 (i + 1) (hi_order k)) by (done || lia). unfold h3. rewrite rdbar_write_ne, Hw2 by lia.
        rewrite <- ones_high by lia. apply restore; lia.
      + rewrite rdbar_write_ne by lia. unfold h3. destruct (decide (i = j)) as [<-|Hne'].
        * rewrite (rdbar_write_eq h2 i (lo_order k)), Hv2 by (done || lia). rewrite <- ones_high by lia. apply restore; lia.
        * unfold h2, h1. by rewrite !rdbar_write_ne by lia.
    - intros w a Hoff. unfold h4, h3, h2, h1. by rewrite !off_write by (done || lia). }
  rewrite Hv2, Hw2, strip_control, Hx' by lia. exists h4. split; [|done]. f_equal. rewrite Z.add_0_r.
  rewrite lor_field; [|lia|unfold mask32; lia]. rewrite (Z.mul_comm _ (2 ^ 32)), Hsum.
  pose proof (Z.pow_pos_nonneg 2 k eq_refl ltac:(lia)). assert (2 ^ k < 2 ^ 64) by (apply Z.pow_lt_mono_r; lia).
  unfold unot, wrap, Z.lnot. assert (Z.pred (- (2 ^ 64 - 2 ^ k)) mod 2 ^ 64 = 2 ^ k - 1) as ->.
  { symmetry. apply Z.mod_unique with (-1); lia. }
  rewrite u64_small; lia.
Qed.

(** ** The assignment *)
Definition bar_done h0 h (s : pci) (dv : pci_device) (i : Z) (kd : bar_kind) : Prop :=
  let a := rd (bar_addr dv) i in
  match kd with
  | BarNone => a = 0 /\ rdbar h i = 0
  | BarIO | BarReserved => rdbar h i = rdbar h0 i
  | Bar32 k => decoded h i kd = a /\ (a = 0 -> PCI_MMIO32_LIMIT < mmio32_next s + 2 ^ k - 1)
  | Bar64 k => decoded h i kd = a /\ (a = 0 -> PCI_MMIO64_LIMIT < mmio64_next s + 2 ^ k - 1)
  end.
Fixpoint all_done h0 h (s : pci) (dv : pci_device) (i : Z) (l : list bar_kind) : Prop :=
  match l with [] => True | kd :: l' => bar_done h0 h s dv i kd /\ all_done h0 h s dv (i + bar_width kd) l' end.
Definition bar_region (dv : pci_device) (i : Z) (kd : bar_kind) : list region :=
  let a := rd (bar_addr dv) i in
  match kd with
  | Bar32 k => if a =? 0 then [] else [MkRegion false a k]
  | Bar64 k => if a =? 0 then [] else [MkRegion true a k]
  | _ => []
  end.
(** What the registers of a function were given. *)
Fixpoint bar_regions (dv : pci_device) (i : Z) (l : list bar_kind) : list region :=
  match l with [] => [] | kd :: l' => bar_region dv i kd ++ bar_regions dv (i + bar_width kd) l' end.

Definition at_bdf (dv : pci_device) : Prop := bus dv = b /\ slot dv = d /\ func dv = f.
(** A part of the loop that leaves the registers in [P] alone. *)
Definition frame (P : Z -> Prop) (dv dv' : pci_device) (s s' : pci) h h' : Prop :=
  at_bdf dv' /\ vendor_id dv' = vendor_id dv /\ device_id dv' = device_id dv /\ length (bar_addr dv') = 6%nat /\
  (forall j, 0 <= j < 6 -> P j -> rd (bar_addr dv') j = rd (bar_addr dv) j /\ rdbar h' j = rdbar h j) /\
  (forall w a, off_bars w a -> ecam_read w a h' = ecam_read w a h) /\
  (forall w, cursor w s <= cursor w s') /\ pci_devices s' = pci_devices s.
Lemma frame_trans (P Q R : Z -> Prop) dv dv1 dv2 s s1 s2 h h1 h2 :
  (forall j, R j -> P j /\ Q j) -> frame P dv dv1 s s1 h h1 -> frame Q dv1 dv2 s1 s2 h1 h2 -> frame R dv dv2 s s2 h h2.
Proof.
  intros HR (_ & Hv & Hd & _ & Hr & Ho & Hc & Hp) (Hb' & Hv' & Hd' & Hl' & Hr' & Ho' & Hc' & Hp').
  split; [done|]. split; [congruence|]. split; [congruence|]. split; [done|]. split.
  { intros j Hj [HP HQ]%HR. destruct (Hr j Hj HP), (Hr' j Hj HQ). split; congruence. }
  split; [intros w a Hoff; rewrite Ho', Ho; done|]. split; [|congruence].
  intros w. specialize (Hc w). specialize (Hc' w). lia.
Qed.
Lemma frame_refl (P : Z -> Prop) dv s h : at_bdf dv -> length (bar_addr dv) = 6%nat -> frame P dv dv s s h h.
Proof. intros Hb Hl. repeat (split; [done|]). done. Qed.

Lemma conforms_le h i l : conforms h i l -> i <= 6.
Proof. revert i. induction l as [|kd l IH]; intros i; cbn [conforms]; [lia|]. intros [_ Hl%IH]. destruct kd; cbn [bar_width] in Hl; lia. Qed.
Lemma bar_ok_ext h h' i kd : (forall j, i <= j < i + bar_width kd -> rdbar h' j = rdbar h j) -> bar_ok h i kd -> bar_ok h' i kd.
Proof.
  intros He. unfold bar_ok. destruct kd; cbn [bar_width] in He; rewrite ?(He i) by lia; try done. by rewrite (He (i + 1)) by lia.
Qed.
Lemma conforms_ext h h' i l : (forall j, i <= j < 6 -> rdbar h' j = rdbar h j) -> conforms h i l -> conforms h' i l.
Proof.
  revert i. induction l as [|kd l IH]; intros i He; cbn [conforms]; [done|]. intros [Hk Hl]. pose proof (conforms_le _ _ _ Hl) as Hle.
  split.
  - eapply bar_ok_ext; [|done]. intros j Hj. apply He. lia.
  - apply IH; [|done]. intros j Hj. apply He. destruct kd; cbn [bar_width] in Hj; lia.
Qed.
Lemma all_done_ext h0 h0' h s dv i l : (forall j, i <= j < 6 -> rdbar h0' j = rdbar h0 j) -> conforms h0 i l ->
  all_done h0' h s dv i l -> all_done h0 h s dv i l.
Proof.
  revert i. induction l as [|kd l IH]; intros i He; cbn [conforms all_done]; [done|]. intros [Hk Hl] [Hd Hr].
  pose proof (conforms_le _ _ _ Hl) as Hle. split.
  - destruct kd; try done; cbn [bar_done bar_width] in *; rewrite <- He by lia; done.
  - apply IH; [|done..]. intros j Hj. apply He. destruct kd; cbn [bar_width] in Hj; lia.
Qed.
(** What was done for a register stays done when the rest of the loop leaves it alone. *)
Lemma bar_done_frame h0 h h' s s' dv dv' i kd : 0 <= i -> i + bar_width kd <= 6 ->
  frame (fun j => j < i + bar_width kd) dv dv' s s' h h' ->
  bar_done h0 h s dv i kd -> bar_done h0 h' s' dv' i kd /\ bar_region dv' i kd = bar_region dv i kd.
Proof.
  intros Hi Hw (_ & _ & _ & _ & Hr & _ & Hc & _) Hd. pose proof (Hc true) as Hc64. pose proof (Hc false) as Hc32. cbn [cursor] in *.
  assert (Hwd : 1 <= bar_width kd) by (by destruct kd).
  destruct (Hr i ltac:(lia) ltac:(lia)) as [Ha Hb]. unfold bar_done, bar_region, decoded in *. rewrite Ha, Hb. split; [|done].
  destruct kd; cbn [bar_width] in *; try done; [naive_solver lia|].
  destruct (Hr (i + 1) ltac:(lia) ltac:(lia)) as [_ ->]. naive_solver lia.
Qed.

Lemma rd_set_bar dv i a j : 0 <= i < 6 -> 0 <= j < 6 -> length (bar_addr dv) = 6%nat ->
  rd (bar_addr (set_bar i a dv)) j = if j =? i then a else rd (bar_addr dv) j.
Proof.
  intros Hi Hj Hl. cbn [set_bar bar_addr]. destruct (Z.eqb_spec j i) as [->|Hne]; [apply rd_wr_eq; lia|].
  apply rd_wr_ne; lia.
Qed.
(** Setting the entry of register [i] after writing that register (and the next). *)
Lemma frame_set i wd dv a s s' h h' : 0 <= i < 6 -> at_bdf dv -> length (bar_addr dv) = 6%nat -> 1 <= wd ->
  (forall j, 0 <= j < 6 -> ~ (i <= j < i + wd) -> rdbar h' j = rdbar h j) ->
  (forall w a, off_bars w a -> ecam_read w a h' = ecam_read w a h) ->
  (forall w, cursor w s <= cursor w s') -> pci_devices s' = pci_devices s ->
  frame (fun j => ~ (i <= j < i + wd)) dv (set_bar i a dv) s s' h h'.
Proof.
  intros Hi Hb Hl Hwd Hr Ho Hc Hp. split; [done|]. split; [done|]. split; [done|].
  split; [cbn [set_bar bar_addr]; by rewrite length_wr|]. split; [|done].
  intros j Hj HP. rewrite rd_set_bar by done. rewrite (proj2 (Z.eqb_neq j i)) by lia. auto.
Qed.
Definition step_ok (i : Z) (kd : bar_kind) (n : nat) dv s h (G : list region) : Prop :=
  exists dv1 s1 h1, assign_loop (S n) i dv s h = assign_loop n (i + bar_width kd) dv1 s1 h1 /\
    frame (fun j => ~ (i <= j < i + bar_width kd)) dv dv1 s s1 h h1 /\
    bar_done h h1 s1 dv1 i kd /\ pci_inv s1 (G ++ bar_region dv1 i kd).

Section step.
Context (dv : pci_device) (s : pci) (h : H) (G : list region) (i : Z) (n : nat).
Context (Hb : at_bdf dv) (Hl : length (bar_addr dv) = 6%nat) (Hi : 0 <= i) (HG : pci_inv s G).

Lemma loop_start : i < 6 -> assign_loop (S n) i dv s h =
  if rdbar h i mod 2 =? 1 then assign_loop n (i + 1) dv s h
  else if rdbar h i mod 8 / 2 =? 0 then
    let '(size, h) := pci_get_bar_size b d f (PCI_BAR0 + i * 4) h in
    if (size =? 0) || (size =? 0xFFFFFFFF) then assign_loop n (i + 1) (set_bar i 0 dv) s h
    else let '(addr, s) := alloc false size s in
      assign_loop n (i + 1) (set_bar i addr dv) s (ecam_write 32 (bar_reg b d f i) (u32 addr) h)
  else if rdbar h i mod 8 / 2 =? 2 then
    if 6 <=? i + 1 then assign_loop n (i + 1) (set_bar i 0 dv) s h
    else let '(size64, h) := pci_get_bar_size64 b d f (PCI_BAR0 + i * 4) (PCI_BAR0 + (i + 1) * 4) h in
      if size64 =? 0 then assign_loop n (i + 2) (set_bar i 0 dv) s h
      else let '(addr, s) := alloc true size64 s in
        let h := ecam_write 32 (bar_reg b d f i) (u32 (addr .& 0xFFFFFFFF)) h in
        assign_loop n (i + 2) (set_bar i addr dv) s (ecam_write 32 (bar_reg b d f (i + 1)) (u32 (addr >>> 32)) h)
  else assign_loop n (i + 1) dv s h.
Proof.
  intros Hlt. cbn [assign_loop]. rewrite (proj2 (Z.leb_gt 6 i)) by lia. destruct Hb as (-> & -> & ->).
  change (pci_config_read32 b d f (PCI_BAR0 + i * 4) h) with (rdbar h i). rewrite bar_odd, bar_type.
  replace (PCI_BAR0 + i * 4 + 4) with (PCI_BAR0 + (i + 1) * 4) by (unfold PCI_BAR0; lia). reflexivity.
Qed.

Lemma step_plain kd : kd = BarIO \/ kd = BarReserved -> i < 6 -> bar_ok h i kd -> step_ok i kd n dv s h G.
Proof.
  intros Hkd Hlt Hok. exists dv, s, h. assert (bar_width kd = 1) as -> by (by destruct Hkd as [-> | ->]).
  assert (bar_region dv i kd = []) as -> by (by destruct Hkd as [-> | ->]). rewrite app_nil_r.
  split; [|split; [by apply frame_refl|split; [by destruct Hkd as [-> | ->]|done]]].
  rewrite loop_start by done. destruct Hkd as [-> | ->]; cbn [bar_ok] in Hok; [by rewrite Hok|].
  case_if; [done|]. rewrite (proj2 (Z.eqb_neq (_ / 2) 0)) by dlia. by rewrite (proj2 (Z.eqb_neq (_ / 2) 2)) by dlia.
Qed.
Lemma step_none : i < 6 -> bar_ok h i BarNone -> step_ok i BarNone n dv s h G.
Proof.
  intros Hlt [Hz Hm]. destruct (probe32 h i 32) as (h1 & Hp & Hs1 & Hs2); [lia|done|lia|by rewrite Hz|].
  exists (set_bar i 0 dv), s, h1. cbn [bar_width bar_region bar_done]. rewrite app_nil_r, rd_set_bar, Z.eqb_refl by (done || lia).
  split; [rewrite loop_start by done; rewrite Hz; cbv zeta; by rewrite Hp|].
  split; [|by rewrite Hs1 by lia]. apply frame_set; try done || lia. intros j Hj _. by apply Hs1.
Qed.
Lemma step_32 k : i < 6 -> bar_ok h i (Bar32 k) -> step_ok i (Bar32 k) n dv s h G.
Proof.
  intros Hlt (Hk & Hm & Hx). pose proof (rdbar_range h i) as Hr.
  destruct (probe32 h i k) as (h1 & Hp & Hs1 & Hs2); [lia|done|lia|lia|].
  destruct (alloc_inv false k s G HG) as (a & s1 & Ha & Hd & Hc & Har & Hal & H32 & Hz & Hinv); [lia|]. specialize (H32 eq_refl).
  pose proof (pow_range k ltac:(lia)) as Hpk. assert (Hlt32 : 2 ^ k < 2 ^ 32 - 1) by (pose proof (Z.pow_le_mono_r 2 k 31); lia).
  exists (set_bar i a dv), s1, (ecam_write 32 (bar_reg b d f i) a h1).
  cbn [bar_width bar_region bar_done]. rewrite rd_set_bar, Z.eqb_refl by (done || lia). split; [|split; [|split]].
  - rewrite loop_start by done. pose proof (mod8 (rdbar h i) k ltac:(lia)) as H8.
    assert (rdbar h i mod 8 = 0) as H80 by (rewrite H8; by destruct Hx as [-> | ->]).
    rewrite (proj2 (Z.eqb_neq (rdbar h i mod 2) 1)) by dlia. rewrite H80. cbv zeta. cbn [Z.eqb Z.div Z.div_eucl].
    change (0 / 2 =? 0) with true. cbv iota. rewrite Hp, (proj2 (Z.eqb_neq k 32)) by lia. cbv iota.
    rewrite (proj2 (Z.eqb_neq (2 ^ k) 0)), (proj2 (Z.eqb_neq (2 ^ k) 0xFFFFFFFF)) by lia. cbn [orb]. rewrite Ha.
    by rewrite u32_small by lia.
  - apply frame_set; try done || lia.
    + intros j Hj Hne. rewrite rdbar_write_ne by lia. by apply Hs1.
    + intros w a' Hoff. rewrite off_write by (done || lia). by apply Hs2.
    + intros w. apply Hc.
  - split; [|exact Hz]. apply decoded_write32; lia || done.
  - by destruct (a =? 0); rewrite ?app_nil_r.
Qed.
Lemma step_64 k : i + 2 <= 6 -> bar_ok h i (Bar64 k) -> step_ok i (Bar64 k) n dv s h G.
Proof.
  intros Hlt Hok. pose proof Hok as (Hk & Hm & Hm' & Hx & Hx'). pose proof (rdbar_range h i) as Hr.
  destruct (orders k Hk) as (Hlo & Hhi & Hsum). destruct (probe64 h i k) as (h1 & Hp & Hs1 & Hs2); [lia|done|].
  destruct (alloc_inv true k s G HG) as (a & s1 & Ha & Hd & Hc & Har & Hal & _ & Hz & Hinv); [lia|].
  pose proof (Z.pow_pos_nonneg 2 k eq_refl ltac:(lia)) as Hpk.
  exists (set_bar i a dv), s1, (ecam_write 32 (bar_reg b d f (i + 1)) (a / 2 ^ 32) (ecam_write 32 (bar_reg b d f i) (a mod 2 ^ 32) h1)).
  cbn [bar_width bar_region bar_done]. rewrite rd_set_bar, Z.eqb_refl by (done || lia). split; [|split; [|split]].
  - rewrite loop_start by lia. pose proof (mod8 (rdbar h i) (lo_order k) ltac:(lia)) as H8.
    assert (rdbar h i mod 8 = 4) as H84 by (rewrite H8; by destruct Hx as [-> | ->]).
    rewrite (proj2 (Z.eqb_neq (rdbar h i mod 2) 1)) by dlia. rewrite H84. change (4 / 2 =? 0) with false. change (4 / 2 =? 2) with true.
    cbv iota. rewrite (proj2 (Z.leb_gt 6 (i + 1))) by lia. rewrite Hp, (proj2 (Z.eqb_neq (2 ^ k) 0)) by lia. rewrite Ha. cbv zeta.
    rewrite Z.shiftr_div_pow2 by lia. change 0xFFFFFFFF with (Z.ones 32). rewrite Z.land_ones by lia. rewrite !u32_small by dlia. done.
  - apply frame_set; try done || lia.
    + intros j Hj Hne. rewrite !rdbar_write_ne by lia. by apply Hs1.
    + intros w a' Hoff. rewrite !off_write by (done || lia). by apply Hs2.
    + intros w. apply Hc.
  - split; [|exact Hz]. apply decoded_write64; done || lia.
  - by destruct (a =? 0); rewrite ?app_nil_r.
Qed.
End step.

Lemma step_any kd dv s h G i n : at_bdf dv -> length (bar_addr dv) = 6%nat -> 0 <= i -> i + bar_width kd <= 6 -> pci_inv s G ->
  bar_ok h i kd -> step_ok i kd n dv s h G.
Proof.
  intros Hb Hl Hi Hw HG Hok. destruct kd as [| | |k|k]; cbn [bar_width] in Hw.
  - apply step_none; auto with lia.
  - apply step_plain; auto with lia.
  - apply step_plain; auto with lia.
  - apply step_32; auto with lia.
  - apply step_64; auto with lia.
Qed.
Lemma assign_loop_done n i dv s h : 6 <= i -> assign_loop n i dv s h = (dv, s, h).
Proof. intros Hi. destruct n; [done|]. cbn [assign_loop]. by rewrite (proj2 (Z.leb_le 6 i)). Qed.
Lemma assign_loop_spec l : forall n i dv s h G,
  at_bdf dv -> length (bar_addr dv) = 6%nat -> 0 <= i -> 6 - i <= Z.of_nat n -> pci_inv s G -> conforms h i l ->
  exists dv' s' h', assign_loop n i dv s h = (dv', s', h') /\
    frame (fun j => j < i) dv dv' s s' h h' /\ all_done h h' s' dv' i l /\ pci_inv s' (G ++ bar_regions dv' i l).
Proof.
  induction l as [|kd l IH]; intros n i dv s h G Hb Hl Hi Hn HG; cbn [conforms].
  { intros ->. exists dv, s, h. rewrite assign_loop_done by lia. cbn [bar_regions all_done]. rewrite app_nil_r. auto using frame_refl. }
  intros [Hok Hrest]. pose proof (conforms_le _ _ _ Hrest) as Hle. assert (Hwd : 1 <= bar_width kd) by (by destruct kd).
  destruct n as [|n]; [lia|].
  destruct (step_any kd dv s h G i n) as (dv1 & s1 & h1 & Hs & Hf & Hdone & Hinv); [done..|].
  pose proof Hf as (Hb1 & _ & _ & Hl1 & Hr1 & _ & _ & _).
  assert (Hext : forall j, i + bar_width kd <= j < 6 -> rdbar h1 j = rdbar h j) by (intros j Hj; apply Hr1; lia).
  destruct (IH n (i + bar_width kd) dv1 s1 h1 (G ++ bar_region dv1 i kd)) as (dv' & s' & h' & Hs' & Hf' & Hd' & Hi');
    [done|done|lia|lia|done|by eapply conforms_ext|].
  destruct (bar_done_frame h h1 h' s1 s' dv1 dv' i kd Hi Hle Hf' Hdone) as [Hdn Hrg].
  exists dv', s', h'. rewrite Hs. split; [done|]. split; [|split].
  - eapply frame_trans; [|exact Hf|exact Hf']. cbn beta. lia.
  - cbn [all_done]. split; [done|]. by eapply all_done_ext.
  - cbn [bar_regions]. by rewrite Hrg, app_assoc.
Qed.
End bars.

Arguments conforms {H _ _} b d f h i l. Arguments all_done {H _} b d f h0 h s dv i l. Arguments off_bars b d f w a.

(** C25: assigning the base addresses of a function whose six registers are those
    of the list: everything that is handed out, to this and to all other
    functions, stays aligned, inside its window and without overlap; each
    memory register decodes the address that [bar_addr] has for it, which is 0
    only if the window has no room left for it above the cursor; I/O and
    reserved registers keep their value, and so does the rest of
    configuration space. *)
Theorem pci_assign_bars_correct {H} `{CfgLaws H} (dv : pci_device) (s : pci) (h : H) (G : list region) (l : list bar_kind) :
  bdf_ok (bus dv) (slot dv) (func dv) -> length (bar_addr dv) = 6%nat -> pci_inv s G ->
  conforms (bus dv) (slot dv) (func dv) h 0 l ->
  exists dv' s' h', pci_assign_bars dv s h = (dv', s', h') /\
    pci_inv s' (G ++ bar_regions dv' 0 l) /\ all_done (bus dv) (slot dv) (func dv) h h' s' dv' 0 l /\
    (forall w a, off_bars (bus dv) (slot dv) (func dv) w a -> ecam_read w a h' = ecam_read w a h) /\
    (bus dv', slot dv', func dv', vendor_id dv', device_id dv') = (bus dv, slot dv, func dv, vendor_id dv, device_id dv) /\
    pci_devices s' = pci_devices s.
Proof.
  intros Hb Hl HG Hc.
  destruct (assign_loop_spec _ _ _ Hb l 6 0 dv s h G) as (dv' & s' & h' & Hs & Hf & Hd & Hi); [done|done|lia|lia|done|done|].
  exists dv', s', h'. destruct Hf as ((-> & -> & ->) & -> & -> & _ & _ & Ho & _ & Hp). auto 10.
Qed.
Lemma pci_boot_inv : pci_inv pci_boot [].
Proof. split; [by intros []|]. split; [constructor|]. intros i j r r' Hr. by rewrite lookup_nil in Hr. Qed.

(** ** Enumeration *)
Section enumeration.
Context {H : Type} `{CfgSpace H}.
Definition present (h : H) (x : Z * Z * Z) : bool := negb (pci_config_read16 x.1.1 x.1.2 x.2 PCI_VENDOR_ID h =? 0xFFFF).
Definition device_of (h : H) (x : Z * Z * Z) : pci_device :=
  let '(b, d, f) := x in MkDev b d f (pci_config_read16 b d f PCI_VENDOR_ID h) (pci_config_read16 b d f PCI_DEVICE_ID h) (replicate 6 0).
Lemma enumerate_loop_spec h l ds : (length ds <= 16)%nat ->
  enumerate_loop l ds h = take 16 (ds ++ (device_of h <$> filter (fun x => present h x = true) l)).
Proof.
  revert ds. induction l as [|[[b d] f] l IH]; intros ds Hds; cbn [enumerate_loop].
  - cbn. rewrite app_nil_r. by rewrite take_ge.
  - assert (present h (b, d, f) = negb (pci_config_read16 b d f PCI_VENDOR_ID h =? 0xFFFF)) as Hp by done.
    rewrite filter_cons. destruct (Z.eqb_spec (pci_config_read16 b d f PCI_VENDOR_ID h) 0xFFFF) as [E|E]; cbn [negb] in Hp.
    + rewrite decide_False by (by rewrite Hp). by apply IH.
    + rewrite decide_True by done. cbn [fmap list_fmap device_of]. unfold MAX_PCI_DEVICES. case_if.
      * by rewrite take_app_le, take_ge by lia.
      * rewrite IH by (rewrite length_app; cbn [length]; lia). by rewrite <- app_assoc.
Qed.
Lemma elem_functions b d f : (b, d, f) ∈ functions <-> bdf_ok b d f.
Proof.
  unfold functions, bdf_ok. rewrite list_elem_of_bind. setoid_rewrite elem_of_seqZ. split.
  - intros (b' & Hx & Hb). apply list_elem_of_bind in Hx as (d' & Hx & Hd%elem_of_seqZ).
    apply list_elem_of_bind in Hx as (f' & Hx%list_elem_of_singleton & Hf%elem_of_seqZ). injection Hx as -> -> ->. lia.
  - intros (Hb & Hd & Hf). exists b. split; [|lia]. apply list_elem_of_bind. exists d. rewrite elem_of_seqZ. split; [|lia].
    apply list_elem_of_bind. exists f. rewrite elem_of_seqZ, list_elem_of_singleton. split; [done|lia].
Qed.
(** From boot, the table holds the first sixteen of the functions that answer,
    in the order of bus, slot and function, with their identifiers; and looking
    a device up gives the first entry that matches. *)
Theorem pci_enumerate_correct (s : pci) (h : H) : (length (pci_devices s) <= 16)%nat ->
  pci_devices (pci_enumerate_bus s h) = take 16 (pci_devices s ++ (device_of h <$> filter (fun x => present h x = true) functions)) /\
  (forall b d f, (b, d, f) ∈ functions <-> bdf_ok b d f) /\
  (forall vid did, pci_find_device vid did s =
     match list_find (fun dv => vendor_id dv = vid /\ device_id dv = did) (pci_devices s) with
     | Some (_, dv) => (ESUCCESS, Some dv) | None => (EERROR, None) end).
Proof.
  intros Hl. split; [by apply enumerate_loop_spec|]. split; [apply elem_functions|]. intros vid did. unfold pci_find_device.
  induction (pci_devices s) as [|dv l IH]; [done|]. cbn [find_device_loop list_find].
  destruct (Z.eqb_spec (vendor_id dv) vid), (Z.eqb_spec (device_id dv) did); cbn [andb];
    [by rewrite decide_True| rewrite decide_False by tauto..]; rewrite IH by (cbn in Hl; lia); by destruct (list_find _ l) as [[]|].
Qed.
End enumeration.

(** ** Walks through linked capabilities *)
Section walk.
Context (g : Z -> Z) (ok : Z -> Prop) (U : list Z) (HU : forall p, ok p -> p ∈ U).
(** [q] is [k] links from [p], and everything up to it is a node. *)
Definition steps (k : nat) (p q : Z) : Prop := Nat.iter k g p = q /\ forall j, (j <= k)%nat -> ok (Nat.iter j g p).
Lemma steps_cut i j k p q : (i < j <= k)%nat -> Nat.iter i g p = Nat.iter j g p -> steps k p q -> steps (k - (j - i)) p q.
Proof.
  intros Hij He [Hk Hok]. assert (Hs : forall m, Nat.iter (m + i) g p = Nat.iter (m + j) g p).
  { intros m. by rewrite !Nat.iter_add, He. }
  assert (Hi : forall m, (i <= m)%nat -> Nat.iter m g p = Nat.iter (m + (j - i)) g p).
  { intros m Hm. specialize (Hs (m - i)%nat). replace (m - i + i)%nat with m in Hs by lia. rewrite Hs. f_equal. lia. }
  split.
  - rewrite Hi by lia. rewrite <- Hk. f_equal. lia.
  - intros m Hm. destruct (decide (m < i)%nat); [apply Hok; lia|]. rewrite Hi by lia. apply Hok. lia.
Qed.
(** A node that can be reached is reached before the nodes run out, cycle or not. *)
Lemma steps_bounded k p q : steps k p q -> exists k', (k' < length U)%nat /\ steps k' p q.
Proof.
  induction (lt_wf k) as [k _ IH]. intros Hs. destruct (decide (k < length U)%nat); [by exists k|].
  destruct (list_pigeonhole ((fun j => Nat.iter j g p) <$> seq 0 (S k)) U) as (i & j & x & Hij & Hx & Hy).
  - intros x (j & -> & [_ Hj]%elem_of_seq)%list_elem_of_fmap. apply HU, Hs. lia.
  - rewrite length_fmap, length_seq. lia.
  - apply list_lookup_fmap_Some in Hx as (i' & -> & [Hi' ?]%lookup_seq). apply list_lookup_fmap_Some in Hy as (j' & He & [Hj' ?]%lookup_seq).
    cbn in Hi', Hj'. subst i' j'. apply (IH (k - (j - i))%nat); [lia|]. apply steps_cut; [lia|done|done].
Qed.
End walk.

Section capabilities.
Context {H : Type} `{CfgSpace H} (dv : pci_device) (h : H).
Definition cfg8 (off : Z) : Z := pci_config_read8 (bus dv) (slot dv) (func dv) off h.
Definition has_caps : bool := test_mask (pci_config_read16 (bus dv) (slot dv) (func dv) PCI_STATUS h) (1 <<< 4).
(** The list as [pci.c] follows it: links are cut to multiples of four and end below 0x40. *)
Definition next_cap (p : Z) : Z := cfg8 (p + 1) .& 0xFC.
Definition first_cap : Z := cfg8 PCI_CAP_PTR .& 0xFC.
Definition slot_ok (p : Z) : Prop := 0x40 <= p < 256 /\ p mod 4 = 0.
Inductive listed : Z -> Prop :=
| listed_first : 0x40 <= first_cap -> listed first_cap
| listed_next p : listed p -> 0x40 <= next_cap p -> listed (next_cap p).

Lemma cfg8_range off : 0 <= cfg8 off < 256.
Proof. by apply (ecam_read_range 8). Qed.
Lemma masked_slot off : 0 <= cfg8 off .& 0xFC < 256 /\ (cfg8 off .& 0xFC) mod 4 = 0.
Proof.
  pose proof (cfg8_range off). change 0xFC with (unot 8 (2 ^ 2 - 1)). rewrite land_unot_ones by lia. change (2 ^ 2) with 4. dlia.
Qed.
Lemma next_cap_ok p : 0x40 <= next_cap p -> slot_ok (next_cap p).
Proof. intros. pose proof (masked_slot (p + 1)). unfold slot_ok, next_cap in *. lia. Qed.
Lemma first_cap_ok : 0x40 <= first_cap -> slot_ok first_cap.
Proof. intros. pose proof (masked_slot PCI_CAP_PTR). unfold slot_ok, first_cap in *. lia. Qed.
Definition slots : list Z := (fun i => 0x40 + 4 * i) <$> seqZ 0 48.
Lemma slots_all p : slot_ok p -> p ∈ slots.
Proof. intros [Hp Hm]. apply list_elem_of_fmap. exists ((p - 0x40) / 4). rewrite elem_of_seqZ. dlia. Qed.
Lemma steps_S k p q : steps next_cap slot_ok (S k) p q <-> slot_ok p /\ steps next_cap slot_ok k (next_cap p) q.
Proof.
  unfold steps. rewrite Nat.iter_succ_r. split.
  - intros [Hk Hok]. split; [apply (Hok 0%nat); lia|]. split; [done|]. intros j Hj. rewrite <- Nat.iter_succ_r. apply Hok. lia.
  - intros [Hp [Hk Hok]]. split; [done|]. intros [|j] Hj; [done|]. rewrite Nat.iter_succ_r. apply Hok. lia.
Qed.
Lemma steps_0 p q : steps next_cap slot_ok 0 p q <-> slot_ok p /\ q = p.
Proof.
  unfold steps. cbn. split; [intros [<- Hok]; split; [by apply (Hok 0%nat)|done]|].
  intros [Hp ->]. split; [done|]. intros j Hj. replace j with 0%nat by lia. done.
Qed.
Lemma steps_ok k p q : steps next_cap slot_ok k p q -> slot_ok p /\ slot_ok q.
Proof. intros [<- Hok]. split; [apply (Hok 0%nat); lia|apply Hok; lia]. Qed.
Lemma listed_iff q : listed q <-> exists k, (k < 48)%nat /\ steps next_cap slot_ok k first_cap q.
Proof.
  split.
  - intros Hq.
    assert (exists k, steps next_cap slot_ok k first_cap q) as [k Hk].
    { induction Hq as [Hf|p Hp [k [Hk Hok]] Hn]; [exists 0%nat; apply steps_0; auto using first_cap_ok|].
      exists (S k). split; [by rewrite Nat.iter_succ, Hk|]. intros j Hj. destruct (decide (j = S k)) as [->|]; [|apply Hok; lia].
      rewrite Nat.iter_succ, Hk. by apply next_cap_ok. }
    exact (steps_bounded next_cap slot_ok slots slots_all k _ _ Hk).
  - intros (k & _ & Hk). revert q Hk. induction k as [|k IH]; intros q [<- Hok].
    + apply listed_first. apply (Hok 0%nat). lia.
    + rewrite Nat.iter_succ. apply listed_next; [apply IH; split; [done|]; intros j Hj; apply Hok; lia|]. apply (Hok (S k)); lia.
Qed.

Lemma cap_loop_spec n cap_id p :
  let q := cap_loop n dv cap_id p h in
  (q = 0 /\ forall k q', (k < n)%nat -> steps next_cap slot_ok k p q' -> cfg8 q' <> cap_id) \/
  (exists k, (k < n)%nat /\ (0x40 <= p -> slot_ok p -> steps next_cap slot_ok k p q) /\ 0x40 <= q /\ cfg8 q = cap_id /\
     forall j, (j < k)%nat -> cfg8 (Nat.iter j next_cap p) <> cap_id).
Proof.
  revert p. induction n as [|n IH]; intros p q; [left; split; [done|lia]|]. unfold q. cbn [cap_loop].
  case_if; [left; split; [done|]; intros k q' _ [[? _] _]%steps_ok; lia|].
  fold (cfg8 p). destruct (Z.eqb_spec (cfg8 p) cap_id) as [Hid|Hid].
  { right. exists 0%nat. split; [lia|]. split; [intros _ Hp; by apply steps_0|]. split; [lia|]. split; [done|lia]. }
  fold (cfg8 (p + 1)). fold (next_cap p). destruct (Z.eqb_spec (next_cap p) 0) as [Hz|Hz].
  { left. split; [done|]. intros [|k] q' Hk Hs; [by apply steps_0 in Hs as [_ ->]|].
    apply steps_S in Hs as [_ [[? _] _]%steps_ok]. lia. }
  destruct (IH (next_cap p)) as [[-> Hno]|(k & Hk & Hs & Hq & Hc & Hfst)]; [left|right].
  - split; [done|]. intros [|k] q' Hk Hs'; [by apply steps_0 in Hs' as [_ ->]|]. apply steps_S in Hs' as [_ Hs']. eapply Hno; [|done]. lia.
  - exists (S k). split; [lia|]. split.
    + intros _ Hp. apply steps_S. split; [done|]. destruct n as [|n]; [lia|]. cbn [cap_loop] in Hq.
      destruct (Z.ltb_spec (next_cap p) 0x40) as [Hlt|Hge]; [lia|]. apply Hs; [done|by apply next_cap_ok].
    + split; [done|]. split; [done|]. intros [|j] Hj; [done|]. rewrite Nat.iter_succ_r. apply Hfst. lia.
Qed.

Lemma first_loop n cap_id : 0x40 <= first_cap \/ cap_loop n dv cap_id first_cap h = 0.
Proof. destruct (Z.ltb_spec first_cap 0x40); [right|by left]. destruct n; [done|]. cbn [cap_loop]. by rewrite (proj2 (Z.ltb_lt _ _)). Qed.
Lemma dump_loop_low n p : p < 0x40 -> dump_loop n dv p h = [].
Proof. intros Hp. destruct n; [done|]. cbn [dump_loop]. by rewrite (proj2 (Z.ltb_lt _ _) Hp). Qed.
Lemma dump_loop_spec n p id q : slot_ok p ->
  (id, q) ∈ dump_loop n dv p h <-> exists k, (k < n)%nat /\ steps next_cap slot_ok k p q /\ id = cfg8 q.
Proof.
  revert p. induction n as [|n IH]; intros p Hp; cbn [dump_loop].
  { rewrite elem_of_nil. split; [done|]. intros (k & Hk & _). lia. }
  rewrite (proj2 (Z.ltb_ge p 0x40)) by (destruct Hp; lia). fold (cfg8 p) (cfg8 (p + 1)). fold (next_cap p).
  rewrite elem_of_cons. split.
  - intros [[= -> ->]|Hin]; [exists 0%nat; rewrite steps_0; auto with lia|].
    destruct (Z.eqb_spec (next_cap p) 0) as [Hz|Hz]; [by apply elem_of_nil in Hin|].
    destruct (Z.ltb_spec (next_cap p) 0x40) as [Hlt|Hge]; [rewrite dump_loop_low in Hin by done; by apply elem_of_nil in Hin|].
    apply IH in Hin as (k & Hk & Hs & Hid); [|by apply next_cap_ok]. exists (S k). rewrite steps_S. auto with lia.
  - intros ([|k] & Hk & Hs & ->); [apply steps_0 in Hs as [_ ->]; by left|right]. apply steps_S in Hs as [_ Hs].
    pose proof (steps_ok _ _ _ Hs) as [Hn _]. rewrite (proj2 (Z.eqb_neq (next_cap p) 0)) by (destruct Hn; lia).
    apply IH; [done|]. exists k. auto with lia.
Qed.
(** What is printed are the listed capabilities. *)
Theorem pci_dump_correct id q : (id, q) ∈ pci_dump_capabilities dv h <-> has_caps = true /\ listed q /\ id = cfg8 q.
Proof.
  unfold pci_dump_capabilities. fold has_caps. destruct has_caps; cbn [negb]; [|rewrite elem_of_nil; naive_solver].
  fold (cfg8 PCI_CAP_PTR). fold first_cap. rewrite listed_iff. destruct (decide (slot_ok first_cap)) as [Hf|Hf].
  - rewrite dump_loop_spec by done. naive_solver.
  - split; [intros Hin|intros (_ & (k & _ & [Hs _]%steps_ok) & _); done]. exfalso. apply Hf, first_cap_ok.
    destruct (decide (first_cap < 0x40)); [rewrite dump_loop_low in Hin by done; by apply elem_of_nil in Hin|lia].
Qed.
(** Looking for a capability ends on every device, also when the links form a
    cycle: 48 steps reach everything that is listed.  The result is the first
    listed capability with that identifier, and 0 exactly if there is none. *)
Theorem pci_find_capability_correct (cap_id : Z) :
  let q := pci_find_capability dv cap_id h in
  (has_caps = false -> q = 0) /\
  (has_caps = true ->
     (q = 0 <-> forall p, listed p -> cfg8 p <> cap_id) /\
     (q <> 0 -> listed q /\ slot_ok q /\ cfg8 q = cap_id /\
        exists k, Nat.iter k next_cap first_cap = q /\ forall j, (j < k)%nat -> cfg8 (Nat.iter j next_cap first_cap) <> cap_id)).
Proof.
  intros q. unfold q, pci_find_capability. fold has_caps. destruct has_caps; cbn [negb]; (split; [done|]); [intros _|done].
  fold (cfg8 PCI_CAP_PTR). fold first_cap. destruct (cap_loop_spec 48 cap_id first_cap) as [[-> Hno]|(k & Hk & Hs & Hq & Hid & Hfst)].
  - split; [|done]. split; [|done]. intros _ p (k & Hk & Hp)%listed_iff. by eapply Hno.
  - destruct (first_loop 48 cap_id) as [Hf|Hf]; [|lia]. specialize (Hs Hf (first_cap_ok Hf)).
    assert (Hl : listed (cap_loop 48 dv cap_id first_cap h)) by (apply listed_iff; eauto).
    split; [split; [lia|intros Hno; by destruct (Hno _ Hl)]|]. intros _. split; [done|]. split; [apply (steps_ok _ _ _ Hs)|]. split; [done|].
    exists k. split; [apply Hs|done].
Qed.

(** The list as [virtio.c] follows it: links as they are, up to 0. *)
Definition raw_next (p : Z) : Z := cfg8 (p + 1).
Definition raw_first : Z := cfg8 PCI_CAP_PTR.
Definition raw_caps (n : nat) : list Z := (fun j => Nat.iter j raw_next raw_first) <$> seq 0 n.
Definition raw_ok (p : Z) : Prop := 1 <= p < 256.

Lemma parse_loop_end n : forall fuel c p, (forall j, (j < n)%nat -> Nat.iter j raw_next p <> 0) -> Nat.iter n raw_next p = 0 -> (n <= fuel)%nat ->
  parse_loop fuel dv c p h = Some (foldl (virtio_cap dv h) c ((fun j => Nat.iter j raw_next p) <$> seq 0 n)).
Proof.
  induction n as [|n IH]; intros fuel c p Hnz Hz Hn.
  - change (p = 0) in Hz. subst p. by destruct fuel.
  - destruct fuel as [|fuel]; [lia|]. cbn [parse_loop]. pose proof (Hnz 0%nat ltac:(lia)) as Hp. change (p <> 0) in Hp.
    rewrite (proj2 (Z.eqb_neq p 0)) by done. fold (cfg8 (p + 1)). fold (raw_next p). rewrite IH.
    + cbn [seq fmap list_fmap foldl]. change (Nat.iter 0 raw_next p) with p. f_equal. f_equal. rewrite <- fmap_S_seq, <- list_fmap_compose.
      apply list_fmap_ext. intros i j _. unfold compose. by rewrite Nat.iter_succ_r.
    + intros j Hj. rewrite <- Nat.iter_succ_r. apply Hnz. lia.
    + by rewrite <- Nat.iter_succ_r.
    + lia.
Qed.
Lemma parse_loop_forever fuel c p : (forall j, Nat.iter j raw_next p <> 0) -> parse_loop fuel dv c p h = None.
Proof.
  revert c p. induction fuel as [|fuel IH]; intros c p Hnz; pose proof (Hnz 0%nat) as Hp; change (p <> 0) in Hp;
    cbn [parse_loop]; rewrite (proj2 (Z.eqb_neq p 0)) by done; [done|].
  apply IH. intros j. fold (cfg8 (p + 1)). fold (raw_next p). rewrite <- Nat.iter_succ_r. apply Hnz.
Qed.
Lemma first_zero k : Nat.iter k raw_next raw_first = 0 ->
  exists n, (n <= 255)%nat /\ Nat.iter n raw_next raw_first = 0 /\ forall j, (j < n)%nat -> Nat.iter j raw_next raw_first <> 0.
Proof.
  intros Hk. assert (exists n, Nat.iter n raw_next raw_first = 0 /\ forall j, (j < n)%nat -> Nat.iter j raw_next raw_first <> 0) as (n & Hn & Hnz).
  { induction (lt_wf k) as [k _ IH]. destruct (decide (Exists (fun j => Nat.iter j raw_next raw_first = 0) (seq 0 k))) as [Hex|Hno].
    - apply Exists_exists in Hex as (j & [_ Hj]%elem_of_seq & Hz). by apply (IH j).
    - exists k. split; [done|]. intros j Hj Hz. apply Hno, Exists_exists. exists j. split; [apply elem_of_seq; lia|done]. }
  destruct n as [|n]; [exists 0%nat; auto with lia|].
  assert (Hs : steps raw_next raw_ok n raw_first (Nat.iter n raw_next raw_first)).
  { split; [done|]. intros j Hj. specialize (Hnz j ltac:(lia)). unfold raw_ok.
    assert (0 <= Nat.iter j raw_next raw_first < 256) by (destruct j; [apply cfg8_range|rewrite Nat.iter_succ; apply cfg8_range]). lia. }
  destruct (steps_bounded raw_next raw_ok (seqZ 1 255)) with (2 := Hs) as (m & Hm & Hmq & Hmok).
  { intros p Hp. apply elem_of_seqZ. unfold raw_ok in Hp. lia. }
  rewrite length_seqZ in Hm. exists (S m). split; [lia|]. split; [by rewrite Nat.iter_succ, Hmq, <- Nat.iter_succ|].
  intros j Hj. specialize (Hmok j ltac:(lia)). unfold raw_ok in Hmok. lia.
Qed.

(** A vendor capability of type [t] with a usable register, and its address. *)
Definition is_cfg (t p : Z) : bool := (cfg8 p =? 0x09) && (cfg8 (p + 3) =? t) && (cfg8 (p + 4) <? 6).
Definition cfg_addr (p : Z) : Z := u64 (rd (bar_addr dv) (cfg8 (p + 4)) + pci_config_read32 (bus dv) (slot dv) (func dv) (p + 8) h).
Definition field (t : Z) (c : virtio_pci_caps) : Z :=
  match t with 1 => common_cfg c | 2 => notify_base c | 3 => isr_cfg c | 4 => device_cfg c | _ => 0 end.
Lemma virtio_cap_field t c p : 1 <= t <= 4 ->
  field t (virtio_cap dv h c p) = (if is_cfg t p then cfg_addr p else field t c) /\
  notify_off_multiplier (virtio_cap dv h c p) =
    (if is_cfg 2 p then pci_config_read32 (bus dv) (slot dv) (func dv) (p + 0x10) h else notify_off_multiplier c).
Proof.
  intros Ht. unfold virtio_cap, is_cfg. fold (cfg8 p). destruct (Z.eqb_spec (cfg8 p) 0x11) as [E|_]; [by rewrite E|].
  destruct (Z.eqb_spec (cfg8 p) 0x09) as [E|_]; [clear E|done]. unfold virtio_populate_capabilities. fold (cfg8 (p + 3)) (cfg8 (p + 4)).
  rewrite Z.leb_antisym. destruct (cfg8 (p + 4) <? 6); cbn [negb andb]; rewrite ?andb_false_r, ?andb_true_r; [|done].
  fold (cfg_addr p). pose proof (cfg8_range (p + 3)) as Hr. remember (cfg8 (p + 3)) as ty eqn:E; clear E.
  destruct (decide (1 <= ty <= 4)) as [Hty|Hty].
  - assert (ty = 1 \/ ty = 2 \/ ty = 3 \/ ty = 4) as [-> |[-> |[-> | ->]]] by lia;
    assert (t = 1 \/ t = 2 \/ t = 3 \/ t = 4) as [-> |[-> |[-> | ->]]] by lia; done.
  - rewrite (proj2 (Z.eqb_neq ty t)), (proj2 (Z.eqb_neq ty 2)) by lia.
    destruct ty as [|[[[]|[]|]|[[]|[]|]|]|]; try done; lia.
Qed.
Lemma foldl_field t l c : 1 <= t <= 4 -> Forall (fun p => is_cfg t p = false) l -> field t (foldl (virtio_cap dv h) c l) = field t c.
Proof.
  intros Ht. revert c. induction l as [|p l IH]; intros c Hl; [done|]. apply Forall_cons in Hl as [Hp Hl]. cbn [foldl].
  rewrite IH by done. by rewrite (proj1 (virtio_cap_field t c p Ht)), Hp.
Qed.
(** C26: the walk of [virtio_parse_capabilities] has no bound of its own.  If the
    links lead to 0 it ends within 255 steps, and each of the four addresses is
    that of the last vendor capability of its type whose register number is
    valid; if they do not, it never ends, whatever the fuel. *)
Theorem virtio_parse_correct (c : virtio_pci_caps) : has_caps = true ->
  (forall k, Nat.iter k raw_next raw_first = 0 ->
     exists n, (n <= 255)%nat /\ Nat.iter n raw_next raw_first = 0 /\
       let c' := foldl (virtio_cap dv h) c (raw_caps n) in
       virtio_parse_capabilities 255 dv c h = Some c' /\
       forall t l1 p l2, 1 <= t <= 4 -> raw_caps n = l1 ++ p :: l2 -> is_cfg t p = true -> Forall (fun x => is_cfg t x = false) l2 ->
         field t c' = cfg_addr p) /\
  ((forall k, Nat.iter k raw_next raw_first <> 0) -> forall fuel, virtio_parse_capabilities fuel dv c h = None).
Proof.
  intros Hc. unfold virtio_parse_capabilities. fold has_caps. rewrite Hc. cbn [negb]. fold (cfg8 PCI_CAP_PTR). fold raw_first. split.
  - intros k (n & Hn & Hz & Hnz)%first_zero. exists n. split; [done|]. split; [done|]. cbv zeta. split; [by apply parse_loop_end|].
    intros t l1 p l2 Ht -> Hp Hl2. rewrite foldl_app. cbn [foldl]. rewrite foldl_field by done.
    by rewrite (proj1 (virtio_cap_field t _ p Ht)), Hp.
  - intros Hnz fuel. by apply parse_loop_forever.
Qed.
End capabilities.

(** An interrupt is one of the four lines of the machine, INTID 35 to 38, or none. *)
Lemma pci_intx_intid_range {H} `{CfgSpace H} (dv : pci_device) (h : H) : 0 <= slot dv < 32 ->
  pci_intx_intid dv h = 0 \/ 35 <= pci_intx_intid dv h <= 38.
Proof.
  intros Hs. unfold pci_intx_intid. cbv zeta. set (pin := pci_config_read8 _ _ _ _ h).
  assert (0 <= pin < 256) by (by apply (ecam_read_range 8)). case_if; [by left|right].
  pose proof (Z.mod_pos_bound (u32 (u32 (slot dv + pin) - 1)) 4). rewrite (u32_small (3 + _)) by lia. rewrite u32_small by lia. lia.
Qed.

(** ** A machine

    Configuration space as a table of words; a word that is not there reads as
    ones.  [masks] has the bits of each word that can be written.  On it is a
    virtio device at 0:1.0 with the registers and capabilities QEMU gives a
    network card. *)
Module Demo.
Notation cfg := (gmap Z Z).
Definition word (h : cfg) (a : Z) : Z := u32 (default 0xFFFFFFFF (h !! (a / 4))).
Definition masks : gmap Z Z :=
  let a off := pci_make_ecam_addr 0 1 0 off / 4 in
  list_to_map [(a 0x04, 0x0000FFFF); (a 0x14, mask32 12); (a 0x20, mask32 14); (a 0x24, mask32 0)].
Definition mask_at (a : Z) : Z := u32 (default 0 (masks !! (a / 4))).
Definition put (old v m : Z) : Z := (v .& m) .| (old .& unot 32 m).
(** The bits of the word at [a] that an access of [w] bits covers. *)
Definition lanes (w a : Z) : Z := (2 ^ w - 1) <<< (8 * (a mod 4)).
#[export, refine] Instance demo_cfg : CfgSpace cfg := {
  ecam_read w a h := wrap w (word h a >>> (8 * (a mod 4)));
  ecam_write w a v h := <[a / 4 := put (word h a) (v <<< (8 * (a mod 4))) (mask_at a .& lanes w a)]> h
}.
Proof. intros w a h Hw. by apply wrap_range. Defined.
Lemma bar_reg_aligned b d f i : bdf_ok b d f -> 0 <= i < 6 -> bar_reg b d f i mod 4 = 0.
Proof. intros Hb Hi. unfold bar_reg, PCI_BAR0. rewrite ecam_val by (done || lia). unfold PCI_ECAM_PHYS. dlia. Qed.
Lemma word_insert h a x : word (<[a / 4 := x]> h) a = u32 x.
Proof. unfold word. by rewrite lookup_insert_eq. Qed.
#[export, refine] Instance demo_laws : CfgLaws cfg := { wmask := mask_at }.
Proof.
  - intros b d f i v h Hb Hi. pose proof (bar_reg_aligned b d f i Hb Hi) as Ha. set (a := bar_reg b d f i) in *. clearbody a.
    unfold ecam_read, ecam_write, demo_cfg, lanes. rewrite Ha. change (8 * 0) with 0. rewrite !Z.shiftr_0_r, !Z.shiftl_0_r.
    change (2 ^ 32 - 1) with (Z.ones 32). rewrite Z.land_ones, Z.mod_small by (lia || apply u32_range).
    rewrite word_insert. assert (forall x, 0 <= x < 2 ^ 32 -> wrap 32 x = x) as Hu by apply (wrap_small 32).
    pose proof (u32_range (default 0xFFFFFFFF (h !! (a / 4)))) as Ho. fold (word h a) in Ho. rewrite (Hu (word h a)) by done.
    rewrite Hu by apply u32_range. apply u32_small.
    apply lor_range; [lia|rewrite Z.land_comm|]; apply land_range_l; try lia; apply u32_range.
  - intros b d f i v h w a Hb Hi Hw Hd. pose proof (bar_reg_aligned b d f i Hb Hi) as Ha. set (r := bar_reg b d f i) in *. clearbody r.
    unfold ecam_read, ecam_write, demo_cfg, word. rewrite lookup_insert_ne; [done|].
    pose proof (Z.div_le_mono 8 w 8 ltac:(lia) Hw). change (8 / 8) with 1 in *. dlia.
Defined.

(** Five capabilities: MSI-X and the four of virtio, in register 4. *)
Definition bus0 : cfg :=
  let a off := pci_make_ecam_addr 0 1 0 off / 4 in
  list_to_map [
    (a 0x00, 0x10411AF4); (a 0x04, 0x00100000); (a 0x08, 0x02000001); (a 0x0C, 0); (a 0x10, 0x00000001); (a 0x14, 0);
    (a 0x18, 0); (a 0x1C, 0); (a 0x20, 0x0000000C); (a 0x24, 0); (a 0x34, 0x84); (a 0x3C, 0x00000100);
    (a 0x84, 0x01107009); (a 0x88, 4); (a 0x8C, 0); (a 0x90, 0x1000);
    (a 0x70, 0x02145009); (a 0x74, 4); (a 0x78, 0x3000); (a 0x7C, 0x1000); (a 0x80, 4);
    (a 0x50, 0x03106009); (a 0x54, 4); (a 0x58, 0x1000); (a 0x5C, 0x1000);
    (a 0x60, 0x04104009); (a 0x64, 4); (a 0x68, 0x2000); (a 0x6C, 0x1000);
    (a 0x40, 0x80030011)].
Definition layout : list bar_kind := [BarIO; Bar32 12; BarNone; BarNone; Bar64 14].
Definition nic : pci_device := MkDev 0 1 0 0x1AF4 0x1041 (replicate 6 0).

Lemma nic_conforms : conforms 0 1 0 bus0 0 layout.
Proof. cbn [conforms layout bar_width]. repeat split; try (vm_compute; congruence); try (left; vm_compute; reflexivity); right; vm_compute; reflexivity. Qed.

(** The card is found; its registers and capabilities come out as laid out. *)
Example nic_found :
  let s := pci_enumerate_bus pci_boot bus0 in
  pci_find_device 0x1AF4 0x1041 s = (ESUCCESS, Some nic) /\ pci_find_device 0x1AF4 0x1042 s = (EERROR, None).
Proof. vm_compute. done. Qed.
Example nic_brought_up :
  let '(dv, s, h) := pci_assign_bars nic pci_boot bus0 in
  let h := pci_enable_intx dv (pci_enable_device dv h) in
  bar_addr dv = [0; 0x10000000; 0; 0; 0x8000000000; 0] /\
  (mmio32_next s, mmio64_next s) = (0x10001000, 0x8000004000) /\
  pci_config_read16 0 1 0 PCI_COMMAND h = 6 /\ pci_intx_intid dv h = 36 /\
  pci_find_capability dv 0x11 h = 0x40 /\ pci_find_capability dv 0x05 h = 0 /\
  virtio_parse_capabilities 255 dv (MkCaps 0 0 0 0 0) h = Some (MkCaps 0x8000000000 0x8000003000 0x8000001000 0x8000002000 4).
Proof. vm_compute. done. Qed.
(** A capability linked to itself: [pci_find_capability] comes back, [virtio_parse_capabilities] does not. *)
Definition looped : cfg := <[pci_make_ecam_addr 0 1 0 0x84 / 4 := 0x01108409]> bus0.
Example parse_cycle : pci_find_capability nic 0x05 looped = 0 /\ forall fuel, virtio_parse_capabilities fuel nic (MkCaps 0 0 0 0 0) looped = None.
Proof.
  split; [by vm_compute|]. intros fuel. unfold virtio_parse_capabilities.
  assert (test_mask (pci_config_read16 (bus nic) (slot nic) (func nic) PCI_STATUS looped) (1 <<< 4) = true) as -> by (by vm_compute).
  cbn [negb]. apply parse_loop_forever. intros k. change (pci_config_read8 _ _ _ PCI_CAP_PTR looped) with (raw_first nic looped).
  assert (Nat.iter k (raw_next nic looped) (raw_first nic looped) = 0x84) as ->; [|done].
  induction k as [|k IH]; [by vm_compute|]. rewrite Nat.iter_succ, IH. by vm_compute.
Qed.
(** A request that does not fit moves the cursor all the same: the window is
    still empty, and nothing fits any more. *)
Example window_lost :
  (alloc_mmio32 (2 ^ 30) pci_boot).1 = 0 /\ (alloc_mmio32 4096 (alloc_mmio32 (2 ^ 30) pci_boot).2).1 = 0 /\
  (alloc_mmio32 4096 pci_boot).1 = PCI_MMIO32_PHYS.
Proof. by vm_compute. Qed.

Lemma pci_assign_bars_witness :
  exists dv' s' h', pci_assign_bars nic pci_boot bus0 = (dv', s', h') /\ pci_inv s' ([] ++ bar_regions dv' 0 layout).
Proof.
  assert (Hb : bdf_ok (bus nic) (slot nic) (func nic)) by (vm_compute; intuition congruence).
  destruct (pci_assign_bars_correct nic pci_boot bus0 [] layout Hb eq_refl pci_boot_inv nic_conforms) as (dv' & s' & h' & Ha & Hi & _).
  exists dv', s', h'. exact (conj Ha Hi).
Defined.
Lemma virtio_parse_witness : exists n, Nat.iter n (raw_next nic bus0) (raw_first nic bus0) = 0 /\
  virtio_parse_capabilities 255 nic (MkCaps 0 0 0 0 0) bus0 = Some (foldl (virtio_cap nic bus0) (MkCaps 0 0 0 0 0) (raw_caps nic bus0 n)).
Proof.
  assert (Hc : has_caps nic bus0 = true) by (by vm_compute).
  assert (Hz : Nat.iter 5 (raw_next nic bus0) (raw_first nic bus0) = 0) by (by vm_compute).
  destruct (proj1 (virtio_parse_correct nic bus0 (MkCaps 0 0 0 0 0) Hc) 5%nat Hz) as (n & _ & Hn & Hp & _).
  exists n. exact (conj Hn Hp).
Defined.
End Demo.

End Pci.
