(* ===== verification/Blk.v ===== *)
(** * The virtio block driver (src/src/pci/virtio/blk/blk.c, blk.h)

    The driver over the virtqueue of [Virtqueue]: bring-up, requests with
    their segments, waiting by polling or for the interrupt, the policy of
    timeouts, retries and resets, and the split of large transfers.  The
    device is the interface [BlkHw]: register accesses, and [hw_run], which
    is what the device does between two looks of the driver.  Memory is that
    of [Bytes], at kernel addresses; the device finds it through the physical
    addresses of the segments.

    Operations live in a state monad whose outcome is [None] when the device
    never answers a reset or the array of segments would be overrun. *)
From S2P Require Import Prelude PageAlloc Bytes Heap Mmu TaskEnv Virtqueue.
#[local] Open Scope Z_scope.

Module Blk.
Export Virtqueue.

Definition ESUCCESS : Z := 1.
Definition BLK_ETIMEDOUT : Z := -1.
Definition BLK_EIO : Z := -2.
Definition BLK_ERANGE : Z := -3.
Definition BLK_EROFS : Z := -4.
Definition BLK_ENOSPC : Z := -5.
Definition BLK_ENODEV : Z := -6.
Definition BLK_EINVAL : Z := -7.
Definition BLK_EUNSUPP : Z := -8.
Definition BLK_MODE_POLL : Z := 0.
Definition BLK_MODE_IRQ : Z := 1.
Definition BLK_DEFAULT_TIMEOUT_SPINS : Z := 10000000.
Definition BLK_DEFAULT_RETRIES : Z := 3.
Definition VIRTIO_BLK_SECTOR_SIZE : Z := 512.
Definition VIRTIO_BLK_DEFAULT_SEG_MAX : Z := 3.
Definition VIRTIO_BLK_DEFAULT_SIZE_MAX : Z := 0xFFFFFFFF.
Definition VIRTIO_BLK_F_SIZE_MAX : Z := 1.
Definition VIRTIO_BLK_F_SEG_MAX : Z := 2.
Definition VIRTIO_BLK_F_RO : Z := 5.
Definition VIRTIO_BLK_F_FLUSH : Z := 9.
Definition VIRTIO_F_VERSION_1 : Z := 32.
Definition VIRTIO_BLK_T_IN : Z := 0.
Definition VIRTIO_BLK_T_OUT : Z := 1.
Definition VIRTIO_BLK_T_FLUSH : Z := 4.
Definition VIRTIO_BLK_S_OK : Z := 0.
Definition VIRTIO_BLK_CFG_CAPACITY : Z := 0x00.
Definition VIRTIO_BLK_CFG_SIZE_MAX : Z := 0x08.
Definition VIRTIO_BLK_CFG_SEG_MAX : Z := 0x0C.
Definition VIRTIO_STATUS_ACKNOWLEDGE : Z := 1.
Definition VIRTIO_STATUS_DRIVER : Z := 2.
Definition VIRTIO_STATUS_DRIVER_OK : Z := 4.
Definition VIRTIO_STATUS_FEATURES_OK : Z := 8.
Definition VIRTIO_STATUS_FAILED : Z := 128.
Definition VIRTIO_COMMON_DFSELECT : Z := 0x00.
Definition VIRTIO_COMMON_DF : Z := 0x04.
Definition VIRTIO_COMMON_GFSELECT : Z := 0x08.
Definition VIRTIO_COMMON_GF : Z := 0x0C.
Definition VIRTIO_COMMON_STATUS : Z := 0x14.
Definition VIRTIO_COMMON_Q_NOFF : Z := 0x1E.
Definition VIRTIO_ISR_QUEUE : Z := 1.
Definition VIRTQ_DESC_F_NONE : Z := 0.
Definition BLK_FEATURE_MASK : Z :=
  (1 <<< VIRTIO_BLK_F_SIZE_MAX) .| (1 <<< VIRTIO_BLK_F_SEG_MAX) .| (1 <<< VIRTIO_BLK_F_RO)
  .| (1 <<< VIRTIO_BLK_F_FLUSH) .| (1 <<< VIRTIO_F_VERSION_1).

(** ** State *)
Record caps := MkCaps { common_cfg : Z; notify_base : Z; isr_cfg : Z; device_cfg : Z; notify_off_multiplier : Z }.
(** What the device advertises and the driver keeps of it. *)
Record config := MkConfig {
  capacity_sectors : Z; size_max : Z; seg_max : Z; features : Z; read_only : bool; has_flush : bool
}.
Record stats := MkStats { stat_timeouts : Z; stat_retries : Z; stat_resets : Z; stat_irqs : Z }.
Record virtio_blk := MkBlk {
  pci_caps : caps;
  vq : virtqueue;
  cfg : config;
  initialized : bool;
  mode : Z;
  irq : Z;
  irq_ready : bool;
  completions : Z;
  timeout_spins : Z;
  retries : Z;
  st : stats
}.

Definition set_vq (v : virtqueue) (b : virtio_blk) : virtio_blk :=
  MkBlk (pci_caps b) v (cfg b) (initialized b) (mode b) (irq b) (irq_ready b) (completions b) (timeout_spins b) (retries b) (st b).
Definition set_cfg (v : config) (b : virtio_blk) : virtio_blk :=
  MkBlk (pci_caps b) (vq b) v (initialized b) (mode b) (irq b) (irq_ready b) (completions b) (timeout_spins b) (retries b) (st b).
Definition set_initialized (v : bool) (b : virtio_blk) : virtio_blk :=
  MkBlk (pci_caps b) (vq b) (cfg b) v (mode b) (irq b) (irq_ready b) (completions b) (timeout_spins b) (retries b) (st b).
Definition set_mode (v : Z) (b : virtio_blk) : virtio_blk :=
  MkBlk (pci_caps b) (vq b) (cfg b) (initialized b) v (irq b) (irq_ready b) (completions b) (timeout_spins b) (retries b) (st b).
Definition set_completions (v : Z) (b : virtio_blk) : virtio_blk :=
  MkBlk (pci_caps b) (vq b) (cfg b) (initialized b) (mode b) (irq b) (irq_ready b) v (timeout_spins b) (retries b) (st b).
Definition set_timeout_spins (v : Z) (b : virtio_blk) : virtio_blk :=
  MkBlk (pci_caps b) (vq b) (cfg b) (initialized b) (mode b) (irq b) (irq_ready b) (completions b) v (retries b) (st b).
Definition set_retries (v : Z) (b : virtio_blk) : virtio_blk :=
  MkBlk (pci_caps b) (vq b) (cfg b) (initialized b) (mode b) (irq b) (irq_ready b) (completions b) (timeout_spins b) v (st b).
Definition set_stats (v : stats) (b : virtio_blk) : virtio_blk :=
  MkBlk (pci_caps b) (vq b) (cfg b) (initialized b) (mode b) (irq b) (irq_ready b) (completions b) (timeout_spins b) (retries b) v.

(** ** The device *)
Class BlkHw (H : Type) := {
  hw_read : Z -> Z -> H -> Z * H;            (* width, address *)
  hw_write : write -> H -> H;
  (** the device works on the queue and on memory *)
  hw_run : H -> virtqueue -> mem -> H * virtqueue * mem;
  (** the interrupt line *)
  hw_line : H -> bool;
  (** a bound on the reads of the status register a reset takes *)
  hw_patience : nat
}.
(** The statics [hdr] and [status] of [blk_submit_retry]. *)
Class BlkLayout := { hdr_at : Z; status_at : Z }.

(** [unmasked]: the interrupt controller forwards the line. *)
Record world (H : Type) := MkW { dev : virtio_blk; ram : mem; unmasked : bool; hw : H }.
Arguments MkW {H}. Arguments dev {H}. Arguments ram {H}. Arguments unmasked {H}. Arguments hw {H}.

Definition M (H A : Type) : Type := world H -> option (A * world H).
#[global] Instance M_ret {H} : MRet (M H) := fun A a w => Some (a, w).
#[global] Instance M_bind {H} : MBind (M H) := fun A B k m w =>
  match m w with Some (a, w') => k a w' | None => None end.

Section ops.
Context {H : Type} `{BlkHw H} `{BlkLayout}.
Implicit Types w : world H.

Definition get_dev : M H virtio_blk := fun w => Some (dev w, w).
Definition upd_dev (f : virtio_blk -> virtio_blk) : M H unit :=
  fun w => Some ((), MkW (f (dev w)) (ram w) (unmasked w) (hw w)).
Definition mmio_read (width a : Z) : M H Z :=
  fun w => let '(v, h) := hw_read width a (hw w) in Some (v, MkW (dev w) (ram w) (unmasked w) h).
Definition mmio_write (x : write) : M H unit :=
  fun w => Some ((), MkW (dev w) (ram w) (unmasked w) (hw_write x (hw w))).
Fixpoint mmio_writes (l : list write) : M H unit :=
  match l with [] => mret () | x :: l' => _ ← mmio_write x; mmio_writes l' end.
Definition gic_line (on : bool) : M H unit := fun w => Some ((), MkW (dev w) (ram w) on (hw w)).

(** ** Bring-up *)
Fixpoint wait_reset (n : nat) (a : Z) : M H unit :=
  match n with
  | O => fun _ => None
  | S n' => v ← mmio_read 8 a; if v =? 0 then mret () else wait_reset n' a
  end.
(** [status |= bit] on the status register *)
Definition set_status (base bit : Z) : M H unit :=
  s ← mmio_read 8 (base + VIRTIO_COMMON_STATUS); mmio_write (8, base + VIRTIO_COMMON_STATUS, s .| bit).

(** [virtqueue_setup] with its reads: the size before the addresses are
    written, the notification offset before the queue is enabled. *)
Definition setup_queue (base : Z) : M H Z :=
  b ← get_dev;
  _ ← mmio_writes (virtqueue_setup base 0 0 0 0 0 (vq b)).1;
  max_size ← mmio_read 16 (base + VIRTIO_COMMON_Q_SIZE);
  let ws := drop 2 (virtqueue_setup base 0 max_size 0 (notify_base (pci_caps b)) (notify_off_multiplier (pci_caps b)) (vq b)).1 in
  if max_size =? 0 then mret 0
  else
    _ ← mmio_writes (removelast ws);
    noff ← mmio_read 16 (base + VIRTIO_COMMON_Q_NOFF);
    match (virtqueue_setup base 0 max_size noff (notify_base (pci_caps b)) (notify_off_multiplier (pci_caps b)) (vq b)).2 with
    | None => mret 0
    | Some v => _ ← upd_dev (set_vq v); _ ← mmio_writes (drop (length ws - 1) ws); mret ESUCCESS
    end.

Definition has_feature (f bit : Z) : bool := test_mask f (1 <<< bit).
(** Step 8: the configuration, with the defaults and the clamps. *)
Definition read_config (accepted : Z) : M H config :=
  b ← get_dev;
  let dcfg := device_cfg (pci_caps b) in
  cap_lo ← mmio_read 32 (dcfg + VIRTIO_BLK_CFG_CAPACITY);
  cap_hi ← mmio_read 32 (dcfg + VIRTIO_BLK_CFG_CAPACITY + 4);
  size_max ← (if has_feature accepted VIRTIO_BLK_F_SIZE_MAX then mmio_read 32 (dcfg + VIRTIO_BLK_CFG_SIZE_MAX)
              else mret VIRTIO_BLK_DEFAULT_SIZE_MAX);
  seg_max ← (if has_feature accepted VIRTIO_BLK_F_SEG_MAX then mmio_read 32 (dcfg + VIRTIO_BLK_CFG_SEG_MAX)
             else mret VIRTIO_BLK_DEFAULT_SEG_MAX);
  mret (MkConfig ((cap_hi <<< 32) .| cap_lo)
          (if size_max <? VIRTIO_BLK_SECTOR_SIZE then VIRTIO_BLK_SECTOR_SIZE else size_max)
          (if seg_max <? 3 then 3 else seg_max)
          accepted (has_feature accepted VIRTIO_BLK_F_RO) (has_feature accepted VIRTIO_BLK_F_FLUSH)).

Definition blk_bringup : M H Z :=
  b ← get_dev;
  let base := common_cfg (pci_caps b) in
  _ ← mmio_write (8, base + VIRTIO_COMMON_STATUS, 0);
  _ ← wait_reset hw_patience (base + VIRTIO_COMMON_STATUS);
  _ ← set_status base VIRTIO_STATUS_ACKNOWLEDGE;
  _ ← set_status base VIRTIO_STATUS_DRIVER;
  _ ← mmio_write (32, base + VIRTIO_COMMON_DFSELECT, 0);
  feat_lo ← mmio_read 32 (base + VIRTIO_COMMON_DF);
  _ ← mmio_write (32, base + VIRTIO_COMMON_DFSELECT, 1);
  feat_hi ← mmio_read 32 (base + VIRTIO_COMMON_DF);
  let offered := (feat_hi <<< 32) .| feat_lo in
  let accepted := offered .& BLK_FEATURE_MASK in
  if negb (has_feature accepted VIRTIO_F_VERSION_1) then
    _ ← mmio_write (8, base + VIRTIO_COMMON_STATUS, VIRTIO_STATUS_FAILED); mret BLK_ENODEV
  else
    _ ← mmio_write (32, base + VIRTIO_COMMON_GFSELECT, 0);
    _ ← mmio_write (32, base + VIRTIO_COMMON_GF, u32 (accepted .& 0xFFFFFFFF));
    _ ← mmio_write (32, base + VIRTIO_COMMON_GFSELECT, 1);
    _ ← mmio_write (32, base + VIRTIO_COMMON_GF, u32 (accepted >>> 32));
    _ ← upd_dev (fun b => set_cfg (MkConfig (capacity_sectors (cfg b)) (size_max (cfg b)) (seg_max (cfg b)) accepted
                  (has_feature accepted VIRTIO_BLK_F_RO) (has_feature accepted VIRTIO_BLK_F_FLUSH)) b);
    _ ← set_status base VIRTIO_STATUS_FEATURES_OK;
    s ← mmio_read 8 (base + VIRTIO_COMMON_STATUS);
    if negb (test_mask s VIRTIO_STATUS_FEATURES_OK) then
      _ ← mmio_write (8, base + VIRTIO_COMMON_STATUS, VIRTIO_STATUS_FAILED); mret BLK_ENODEV
    else
      r ← setup_queue base;
      if negb (r =? ESUCCESS) then mret BLK_ENODEV
      else
        _ ← set_status base VIRTIO_STATUS_DRIVER_OK;
        c ← read_config accepted;
        _ ← upd_dev (set_cfg c);
        mret ESUCCESS.

(** [found], the header type, the capabilities and the interrupt number come
    from the PCI layer. *)
Definition pci_virtio_blk_init (found : bool) (header_type : Z) (pcaps : caps) (intx_intid : Z) : M H unit :=
  if negb found then mret ()
  else if negb (header_type .& 0x7F =? 0) then mret ()
  else
    _ ← upd_dev (fun b => MkBlk pcaps (vq b) (cfg b) (initialized b) BLK_MODE_POLL (irq b) (irq_ready b) (completions b)
                            BLK_DEFAULT_TIMEOUT_SPINS BLK_DEFAULT_RETRIES (st b));
    r ← blk_bringup;
    if negb (r =? ESUCCESS) then mret ()
    else
      upd_dev (fun b => MkBlk (pci_caps b) (vq b) (cfg b) true (mode b) intx_intid
                          (if intx_intid =? 0 then irq_ready b else true) (completions b) (timeout_spins b) (retries b) (st b)).

(** ** Interrupts and modes *)
Definition blk_get_irq (b : virtio_blk) : Z := irq b.
Definition blk_get_mode (b : virtio_blk) : Z := mode b.

(** The loop over the used ring; [n] entries can be new. *)
Fixpoint drain_loop (n : nat) (b : virtio_blk) : virtio_blk :=
  match n with
  | O => b
  | S n' =>
      match virtqueue_get_used (vq b) with
      | (Some _, v) => drain_loop n' (set_completions (u32 (completions b + 1)) (set_vq v b))
      | (None, v) => set_vq v b
      end
  end.
Definition blk_handle_irq : M H unit :=
  b ← get_dev;
  isr ← mmio_read 8 (isr_cfg (pci_caps b));
  _ ← upd_dev (fun b => set_stats (MkStats (stat_timeouts (st b)) (stat_retries (st b)) (stat_resets (st b))
                                     (u64 (stat_irqs (st b) + 1))) b);
  if negb (test_mask isr VIRTIO_ISR_QUEUE) then mret ()
  else upd_dev (fun b => drain_loop (S (Z.to_nat (u16 (used_idx (vq b) - last_used (vq b))))) b).

(** What happens between two instructions of the driver: the device works,
    and an interrupt that is asserted and not masked is taken. *)
Definition tick : M H unit := fun w =>
  let '(h, v, m) := hw_run (hw w) (vq (dev w)) (ram w) in
  let w := MkW (set_vq v (dev w)) m (unmasked w) h in
  if unmasked w && hw_line h then blk_handle_irq w else Some ((), w).

Definition blk_set_mode (md : Z) : M H Z :=
  b ← get_dev;
  let prev := mode b in
  if md =? BLK_MODE_IRQ then
    if negb (irq_ready b) then mret prev
    else if negb (prev =? BLK_MODE_IRQ) then
      _ ← mmio_read 8 (isr_cfg (pci_caps b));
      _ ← upd_dev (set_mode BLK_MODE_IRQ);
      _ ← gic_line true;
      mret prev
    else mret prev
  else if prev =? BLK_MODE_IRQ then
    _ ← gic_line false;
    _ ← upd_dev (set_mode BLK_MODE_POLL);
    _ ← mmio_read 8 (isr_cfg (pci_caps b));
    _ ← upd_dev (set_mode BLK_MODE_POLL);
    mret prev
  else _ ← upd_dev (set_mode BLK_MODE_POLL); mret prev.

Fixpoint wait_irq (spins : nat) (target : Z) : M H Z :=
  match spins with
  | O => mret BLK_ETIMEDOUT
  | S n =>
      _ ← tick; b ← get_dev;
      if 0 <=? s32 (u32 (completions b - target)) then mret ESUCCESS else wait_irq n target
  end.
Fixpoint wait_poll (spins : nat) : M H Z :=
  match spins with
  | O => mret BLK_ETIMEDOUT
  | S n =>
      _ ← tick; b ← get_dev;
      match virtqueue_get_used (vq b) with
      | (Some _, v) => _ ← upd_dev (set_vq v); mret ESUCCESS
      | (None, v) => _ ← upd_dev (set_vq v); wait_poll n
      end
  end.
Definition blk_wait_one : M H Z :=
  b ← get_dev;
  let budget := Z.to_nat (timeout_spins b) in
  if mode b =? BLK_MODE_IRQ then wait_irq budget (u32 (completions b + 1)) else wait_poll budget.

(** ** Reset, timeouts and retries *)
Definition add_reset (s : stats) : stats := MkStats (stat_timeouts s) (stat_retries s) (u64 (stat_resets s + 1)) (stat_irqs s).
Definition add_retry (s : stats) : stats := MkStats (stat_timeouts s) (u64 (stat_retries s + 1)) (stat_resets s) (stat_irqs s).
Definition add_timeout (s : stats) : stats := MkStats (u64 (stat_timeouts s + 1)) (stat_retries s) (stat_resets s) (stat_irqs s).

Definition blk_reset_device : M H Z :=
  _ ← upd_dev (fun b => set_initialized false (set_stats (add_reset (st b)) b));
  rc ← blk_bringup;
  if negb (rc =? ESUCCESS) then mret rc
  else _ ← upd_dev (fun b => set_initialized true (set_completions 0 b)); mret ESUCCESS.

Definition blk_set_timeout (spins : Z) : M H Z :=
  b ← get_dev; _ ← upd_dev (set_timeout_spins (if negb (spins =? 0) then spins else BLK_DEFAULT_TIMEOUT_SPINS));
  mret (timeout_spins b).
Definition blk_set_retries (n : Z) : M H Z :=
  b ← get_dev; _ ← upd_dev (set_retries (if negb (n =? 0) then n else 1)); mret (retries b).

(** ** Requests *)
Definition blk_max_data_segs (c : config) : Z :=
  let by_dev := u32 (seg_max c - 2) in
  let by_vq := VIRTQ_MAX_SIZE - 2 in
  if by_dev <? by_vq then by_dev else by_vq.

(** The data segments; the array has room for [room] more before the status
    segment, and [None] is an overrun. *)
Fixpoint data_loop (room : nat) (remaining offset buf sz fl : Z) : option (list virtq_seg) :=
  if remaining =? 0 then Some []
  else
    match room with
    | O => None
    | S room' =>
        let chunk := if remaining <? sz then remaining else sz in
        match data_loop room' (u32 (remaining - chunk)) (u32 (offset + chunk)) buf sz fl with
        | Some l => Some (MkSeg (VIRT_TO_PHYS (u64 (buf + offset))) chunk fl :: l)
        | None => None
        end
    end.
Definition build_segs (type buf count sz : Z) : option (list virtq_seg) :=
  let head := MkSeg (VIRT_TO_PHYS hdr_at) 16 VIRTQ_DESC_F_NONE in
  let last := MkSeg (VIRT_TO_PHYS status_at) 1 VIRTQ_DESC_F_WRITE in
  if negb (type =? VIRTIO_BLK_T_FLUSH) then
    let fl := if type =? VIRTIO_BLK_T_IN then VIRTQ_DESC_F_WRITE else VIRTQ_DESC_F_NONE in
    match data_loop 126 (u32 (count * VIRTIO_BLK_SECTOR_SIZE)) 0 buf sz fl with
    | Some l => Some (head :: l ++ [last])
    | None => None
    end
  else Some [head; last].

Definition store_header (type sector : Z) (m : mem) : mem :=
  let m := st_le 4 hdr_at type m in
  let m := st_le 4 (hdr_at + 4) 0 m in
  let m := st_le 8 (hdr_at + 8) sector m in
  st_le 1 status_at 0xFF m.

(** From the doorbell on. *)
Definition read_status : M H Z :=
  fun w => Some (if negb (ram w status_at =? VIRTIO_BLK_S_OK) then BLK_EIO else ESUCCESS, w).
Definition ring_and_wait (v : virtqueue) : M H Z :=
  _ ← mmio_writes (virtqueue_notify v);
  _ ← tick;
  rc ← blk_wait_one;
  if negb (rc =? ESUCCESS) then mret rc else read_status.

Definition blk_submit_once (type sector buf count : Z) : M H Z := fun w =>
  let w := MkW (dev w) (store_header type sector (ram w)) (unmasked w) (hw w) in
  match build_segs type buf count (size_max (cfg (dev w))) with
  | None => None
  | Some segs =>
      let '(head, v) := virtqueue_submit_chain segs (vq (dev w)) in
      let w := MkW (set_vq v (dev w)) (ram w) (unmasked w) (hw w) in
      if head =? VIRTQ_NO_DESC then Some (BLK_ENOSPC, w)
      else
        ring_and_wait v w
  end.

(** [n] attempts are left of [retries]. *)
Fixpoint retry_loop (n : nat) (first : bool) (rc type sector buf count : Z) : M H Z :=
  match n with
  | O => mret rc
  | S n' =>
      _ ← (if first then mret () else upd_dev (fun b => set_stats (add_retry (st b)) b));
      rc ← blk_submit_once type sector buf count;
      if rc =? ESUCCESS then mret ESUCCESS
      else if rc =? BLK_EIO then mret BLK_EIO
      else if rc =? BLK_ENOSPC then mret BLK_ENOSPC
      else
        _ ← upd_dev (fun b => set_stats (add_timeout (st b)) b);
        r ← blk_reset_device;
        if negb (r =? ESUCCESS) then mret BLK_ENODEV else retry_loop n' false rc type sector buf count
  end.
Definition blk_submit_retry (type sector buf count : Z) : M H Z :=
  b ← get_dev; retry_loop (Z.to_nat (retries b)) true BLK_ETIMEDOUT type sector buf count.

Definition max_sectors_per_req (c : config) : Z :=
  let max_bytes_per_req := u64 (blk_max_data_segs c * size_max c) in
  let n := u32 (max_bytes_per_req / VIRTIO_BLK_SECTOR_SIZE) in
  if n =? 0 then 1 else n.
(** [while (done < count)]; a round transfers at least one sector. *)
Fixpoint rw_loop (fuel : nat) (type sector buf done count maxs : Z) : M H Z :=
  match fuel with
  | O => mret ESUCCESS
  | S f =>
      if done <? count then
        let chunk := u32 (count - done) in
        let chunk := if maxs <? chunk then maxs else chunk in
        rc ← blk_submit_retry type (u64 (sector + done)) (u64 (buf + done * VIRTIO_BLK_SECTOR_SIZE)) chunk;
        if negb (rc =? ESUCCESS) then mret rc else rw_loop f type sector buf (u32 (done + chunk)) count maxs
      else mret ESUCCESS
  end.
Definition blk_rw (type sector buf count : Z) : M H Z :=
  b ← get_dev;
  if negb (initialized b) then mret BLK_ENODEV
  else if (count =? 0) || (buf =? 0) then mret BLK_EINVAL
  else if (capacity_sectors (cfg b) <=? sector) || (u64 (capacity_sectors (cfg b) - sector) <? count) then mret BLK_ERANGE
  else rw_loop (Z.to_nat count) type sector buf 0 count (max_sectors_per_req (cfg b)).

Definition blk_read (sector buf count : Z) : M H Z := blk_rw VIRTIO_BLK_T_IN sector buf count.
Definition blk_write (sector buf count : Z) : M H Z :=
  b ← get_dev; if read_only (cfg b) then mret BLK_EROFS else blk_rw VIRTIO_BLK_T_OUT sector buf count.
Definition blk_flush : M H Z :=
  b ← get_dev;
  if negb (initialized b) then mret BLK_ENODEV
  else if negb (has_flush (cfg b)) then mret BLK_EUNSUPP
  else if read_only (cfg b) then mret ESUCCESS
  else blk_submit_retry VIRTIO_BLK_T_FLUSH 0 0 0.

(** One operation in interrupt mode; the mode is restored. *)
Definition in_irq_mode (op : M H Z) : M H Z :=
  prev ← blk_set_mode BLK_MODE_IRQ; rc ← op; _ ← blk_set_mode prev; mret rc.
Definition blk_read_irq (sector buf count : Z) : M H Z := in_irq_mode (blk_read sector buf count).
Definition blk_write_irq (sector buf count : Z) : M H Z := in_irq_mode (blk_write sector buf count).
Definition blk_flush_irq : M H Z := in_irq_mode blk_flush.
End ops.

(** ** The device as the virtio specification has it

    The disk as an array of bytes.  A read request scatters the disk over the
    data segments, a write request gathers them. *)
Definition seg_va (sg : virtq_seg) : Z := PHYS_TO_VIRT (pa sg).
Fixpoint scatter (l : list virtq_seg) (pos : Z) (d : Z -> Z) (m : mem) : mem :=
  match l with
  | [] => m
  | sg :: l' =>
      scatter l' (pos + slen sg) d
        (fun a => if (seg_va sg <=? a) && (a <? seg_va sg + slen sg) then d (pos + (a - seg_va sg)) else m a)
  end.
Fixpoint gather (l : list virtq_seg) (pos : Z) (m : mem) (d : Z -> Z) : Z -> Z :=
  match l with
  | [] => d
  | sg :: l' =>
      gather l' (pos + slen sg) m
        (fun x => if (pos <=? x) && (x <? pos + slen sg) then m (seg_va sg + (x - pos)) else d x)
  end.
Definition total (l : list virtq_seg) : Z := fold_right (fun sg n => slen sg + n) 0 l.

(** A read or write request that the device has to carry out: header, data,
    status byte; within the capacity and the limits of the device. *)
Record valid_req (cap sgmax szmax : Z) (m : mem) (segs : list virtq_seg) (type sector : Z) (data : list virtq_seg) (q : Z) : Prop := {
  vr_segs : exists p, segs = MkSeg p 16 0 :: data ++ [MkSeg q 1 VIRTQ_DESC_F_WRITE] /\
    ld_le 4 (PHYS_TO_VIRT p) m = type /\ ld_le 8 (PHYS_TO_VIRT p + 8) m = sector;
  vr_type : type = VIRTIO_BLK_T_IN \/ type = VIRTIO_BLK_T_OUT;
  vr_flags : Forall (fun sg => sflags sg = if type =? VIRTIO_BLK_T_IN then VIRTQ_DESC_F_WRITE else 0) data;
  vr_lens : Forall (fun sg => 0 < slen sg <= szmax) data;
  vr_count : Z.of_nat (length segs) <= sgmax;
  vr_range : 0 <= sector /\ total data mod 512 = 0 /\ sector + total data / 512 <= cap
}.
Definition served (type sector : Z) (data : list virtq_seg) (q : Z) (d : Z -> Z) (m : mem) : (Z -> Z) * mem :=
  (if type =? VIRTIO_BLK_T_IN then d else gather data (512 * sector) m d,
   st8 (if type =? VIRTIO_BLK_T_IN then scatter data (512 * sector) d m else m) (PHYS_TO_VIRT q) VIRTIO_BLK_S_OK).

(** [hw_seen]: the requests the device has taken from the available ring;
    [hw_delay]: how often it still only works before it completes the next;
    at most [hw_latency] times after the doorbell. *)
Class BlkHwOk (H : Type) `{BlkHw H} := {
  hw_disk : H -> Z -> Z;
  hw_cap : H -> Z;
  hw_seg_max : H -> Z;
  hw_size_max : H -> Z;
  hw_doorbell : H -> Z;
  hw_seen : H -> Z;
  hw_delay : H -> nat;
  hw_latency : nat;
  hw_same h h' := hw_cap h' = hw_cap h /\ hw_seg_max h' = hw_seg_max h /\ hw_size_max h' = hw_size_max h /\
                  hw_doorbell h' = hw_doorbell h;
  hw_ring_law h :
    let h' := hw_write (16, hw_doorbell h, 0) h in
    hw_same h h' /\ hw_disk h' = hw_disk h /\ hw_seen h' = hw_seen h /\ (hw_delay h' <= hw_latency)%nat;
  (** nothing to do, or not yet done *)
  hw_idle_law h v m h' v' m' :
    hw_run h v m = (h', v', m') -> hw_seen h = avail_idx v \/ hw_delay h <> 0%nat ->
    v' = v /\ m' = m /\ hw_same h h' /\ hw_disk h' = hw_disk h /\ hw_seen h' = hw_seen h /\
    (hw_seen h <> avail_idx v -> hw_delay h = S (hw_delay h'));
  (** the next request is carried out and put on the used ring *)
  hw_serve_law h v m h' v' m' type sector data q :
    let head := rd (avail_ring v) (hw_seen h mod size v) in
    hw_run h v m = (h', v', m') -> hw_seen h <> avail_idx v -> hw_delay h = 0%nat ->
    valid_req (hw_cap h) (hw_seg_max h) (hw_size_max h) m (read_chain (Z.to_nat (size v)) v head) type sector data q ->
    (exists len, v' = device_complete head len v) /\ hw_same h h' /\ hw_seen h' = u16 (hw_seen h + 1) /\
    (forall x, hw_disk h' x = (served type sector data q (hw_disk h) m).1 x) /\
    (forall a, m' a = (served type sector data q (hw_disk h) m).2 a)
}.

(** ** Segments *)
Definition OFF : Z := KERNEL_VA_OFFSET.
Lemma virt_phys a : OFF <= a < 2 ^ 64 -> PHYS_TO_VIRT (VIRT_TO_PHYS a) = a.
Proof.
  unfold OFF, VIRT_TO_PHYS, PHYS_TO_VIRT, Heap.PHYS_TO_VIRT, KERNEL_VA_OFFSET, Heap.KERNEL_VA_OFFSET. intros Ha.
  rewrite (u64_small (a - _)) by lia. rewrite u64_small; lia.
Qed.

(** Segments that lie behind each other from [a] on, [r] bytes in all. *)
Fixpoint contig (l : list virtq_seg) (a r fl sz : Z) : Prop :=
  match l with
  | [] => r = 0
  | sg :: l' => pa sg = VIRT_TO_PHYS a /\ 0 < slen sg <= sz /\ slen sg <= r /\ sflags sg = fl /\
                contig l' (a + slen sg) (r - slen sg) fl sz
  end.
Lemma data_loop_ok room k r o buf sz fl :
  0 < sz -> 0 <= r -> 0 <= o -> o + r < 2 ^ 32 -> 0 <= buf -> buf + o + r <= 2 ^ 64 ->
  r <= Z.of_nat k * sz -> (k <= room)%nat ->
  exists l, data_loop room r o buf sz fl = Some l /\ contig l (buf + o) r fl sz /\ (length l <= k)%nat.
Proof.
  intros Hsz. revert k r o. induction room as [|room IH]; intros k r o Hr Ho Hor Hb Hbr Hk Hkr.
  { assert (k = 0%nat) as -> by lia. assert (r = 0) as -> by lia. exists []. cbn [data_loop contig length Z.eqb]. split; [done|]. split; [done|lia]. }
  cbn [data_loop]. destruct (Z.eqb_spec r 0) as [->|Hr0]; [exists []; split; [done|]; split; [done|cbn; lia]|].
  destruct k as [|k]; [lia|]. set (chunk := if r <? sz then r else sz).
  assert (0 < chunk <= sz /\ chunk <= r /\ r - chunk <= Z.of_nat k * sz) as (Hc1 & Hc2 & Hc3).
  { unfold chunk. destruct (Z.ltb_spec r sz); nia. }
  rewrite (u32_small (r - chunk)), (u32_small (o + chunk)), (u64_small (buf + o)) by lia.
  destruct (IH k (r - chunk) (o + chunk)) as (l & -> & Hc & Hlen); try lia.
  eexists. split; [done|]. cbn [contig length pa slen sflags]. split; [|lia].
  do 4 (split; [done|]). replace (buf + o + chunk) with (buf + (o + chunk)) by lia. done.
Qed.
Lemma contig_total l a r fl sz : contig l a r fl sz -> total l = r.
Proof. revert a r. induction l as [|sg l IH]; intros a r; cbn [contig total fold_right]; [done|]. intros (_ & _ & _ & _ & Hc). apply IH in Hc. unfold total in Hc. lia. Qed.
Lemma contig_forall l a r fl sz :
  contig l a r fl sz -> Forall (fun sg => sflags sg = fl) l /\ Forall (fun sg => 0 < slen sg <= sz) l.
Proof.
  revert a r. induction l as [|sg l IH]; intros a r; cbn [contig]; [done|]. intros (_ & ? & _ & ? & Hc).
  destruct (IH _ _ Hc). split; by constructor.
Qed.
Lemma contig_r l a r fl sz : contig l a r fl sz -> 0 <= r.
Proof. revert a r. destruct l; intros a r; cbn [contig]; lia. Qed.
Lemma scatter_contig l a r fl sz pos d m x :
  contig l a r fl sz -> OFF <= a -> a + r <= 2 ^ 64 ->
  scatter l pos d m x = if (a <=? x) && (x <? a + r) then d (pos + (x - a)) else m x.
Proof.
  revert a r pos m. induction l as [|sg l IH]; intros a r pos m; cbn [contig scatter].
  { intros -> _ _. case_if; [lia|done]. }
  intros (Hp & Hl & Hlr & _ & Hc) Ha Hr. rewrite (IH (a + slen sg) (r - slen sg)); [|done|lia|lia].
  unfold seg_va. rewrite Hp, virt_phys by lia.
  repeat case_if; try lia; try done; f_equal; lia.
Qed.
Lemma gather_contig l a r fl sz pos d m x :
  contig l a r fl sz -> OFF <= a -> a + r <= 2 ^ 64 ->
  gather l pos m d x = if (pos <=? x) && (x <? pos + r) then m (a + (x - pos)) else d x.
Proof.
  revert a r pos d. induction l as [|sg l IH]; intros a r pos d; cbn [contig gather].
  { intros -> _ _. case_if; [lia|done]. }
  intros (Hp & Hl & Hlr & _ & Hc) Ha Hr. rewrite (IH (a + slen sg) (r - slen sg)); [|done|lia|lia].
  unfold seg_va. rewrite Hp, virt_phys by lia.
  repeat case_if; try lia; try done; f_equal; lia.
Qed.

(** ** One request in flight *)
Lemma read_chain_more g c n v :
  g = dget v -> chain g c -> (length c <= n)%nat -> read_chain n v (hd 0 c) = read_chain (length c) v (hd 0 c).
Proof.
  intros ->. revert n. induction c as [|x c IH]; intros n Hc Hn; [done|]. cbn [length hd] in *.
  destruct n as [|n]; [lia|]. destruct Hc as [Hf Hc]. rewrite !read_chain_S, Hf. f_equal.
  destruct Hc as [->|[Hnx Hc]]; [by rewrite bool_decide_false by tauto|].
  destruct c as [|y c]; [done|]. rewrite bool_decide_true by done. rewrite Hnx. apply (IH n Hc). lia.
Qed.
(** What the device reads of the only request in flight. *)
Lemma flight_chain v free h segs dn :
  repr v (MkA free [(h, segs)] dn) -> read_chain (Z.to_nat (size v)) v h = segs.
Proof.
  intros (fr & chains & Hi & _ & Hfl & _). cbn [a_flight a_done] in *.
  destruct chains as [|c [|c' chains]]; cbn in Hfl; try done. injection Hfl as -> ->.
  pose proof (vi_chains _ _ _ _ Hi) as Hc. apply Forall_cons in Hc as [Hc _].
  apply (read_chain_more (dget v)); [done|done|]. pose proof (vi_part _ _ _ _ Hi) as HP.
  apply Permutation_length in HP. rewrite length_app, length_seqZ in HP. cbn [concat] in HP. rewrite app_nil_r in HP.
  pose proof (vi_size _ _ _ _ Hi). lia.
Qed.
Lemma repr_size v a : repr v a -> 0 < size v <= VIRTQ_MAX_SIZE.
Proof. intros (fr & chains & Hi & _). apply (vi_size _ _ _ _ Hi). Qed.
(** The operations that leave the size of the queue and its doorbell alone. *)
Lemma submit_size segs v : size (virtqueue_submit_chain segs v).2 = size v /\ notify_addr (virtqueue_submit_chain segs v).2 = notify_addr v.
Proof.
  unfold virtqueue_submit_chain. case_if; [done|].
  assert (forall n v, size (alloc_loop n v).2 = size v /\ notify_addr (alloc_loop n v).2 = notify_addr v) as Ha.
  { induction n as [|n IH]; intros u; cbn [alloc_loop]; [done|]. unfold virtqueue_alloc_desc. case_if.
    - specialize (IH u). destruct (alloc_loop n u). done.
    - match goal with |- context [alloc_loop n ?x] => specialize (IH x); destruct (alloc_loop n x) end. done. }
  assert (forall i sg v, size (link_loop i sg v) = size v /\ notify_addr (link_loop i sg v) = notify_addr v) as Hl.
  { induction i as [|x i IH]; intros [|sg l] u; cbn [link_loop]; try done.
    match goal with |- context [link_loop i l ?y] => destruct (IH l y) as [-> ->] end. done. }
  specialize (Ha (length segs) v). destruct (alloc_loop (length segs) v) as [idx v1]. cbn [snd] in *.
  cbn [size notify_addr publish]. destruct (Hl idx segs v1) as [-> ->]. done.
Qed.
Lemma get_used_size v : size (virtqueue_get_used v).2 = size v /\ notify_addr (virtqueue_get_used v).2 = notify_addr v /\
  avail_idx (virtqueue_get_used v).2 = avail_idx v.
Proof.
  unfold virtqueue_get_used. case_if; [done|]. destruct (nth _ _ _) as [head written]. case_if; [done|].
  unfold virtqueue_free_chain. cbn [snd].
  assert (forall n i v, size (free_loop n i v) = size v /\ notify_addr (free_loop n i v) = notify_addr v /\
    avail_idx (free_loop n i v) = avail_idx v) as Hf.
  { induction n as [|n IH]; intros i u; cbn [free_loop]; [done|]. repeat case_if; try done.
    match goal with |- context [free_loop n ?x ?y] => destruct (IH x y) as (-> & -> & ->) end. done. }
  match goal with |- context [free_loop ?n ?x ?y] => destruct (Hf n x y) as (-> & -> & ->) end. done.
Qed.

Section driver.
Context {H : Type} `{BlkHwOk H} `{BlkLayout}.
Implicit Types w : world H.

Lemma set_vq_id b : set_vq (vq b) b = b.
Proof. by destruct b. Qed.
Lemma set_vq_twice v v' b : set_vq v (set_vq v' b) = set_vq v b.
Proof. done. Qed.
Lemma hw_same_refl (h : H) : hw_same h h.
Proof. done. Qed.
Lemma hw_same_trans (h1 h2 h3 : H) : hw_same h1 h2 -> hw_same h2 h3 -> hw_same h1 h3.
Proof. intros (? & ? & ? & ?) (? & ? & ? & ?). repeat split; congruence. Qed.

(** In polling mode no interrupt is taken. *)
Lemma tick_quiet w h v m :
  unmasked w = false -> hw_run (hw w) (vq (dev w)) (ram w) = (h, v, m) ->
  tick w = Some ((), MkW (set_vq v (dev w)) m false h).
Proof. intros Hu Hr. unfold tick. rewrite Hr. cbn [unmasked]. by rewrite Hu. Qed.

(** A request has been published and the doorbell rung. *)
Record posted w (free head : Z) (segs : list virtq_seg) (type sector : Z) (data : list virtq_seg) (q : Z) : Prop := {
  po_quiet : unmasked w = false;
  po_poll : mode (dev w) =? BLK_MODE_IRQ = false;
  po_repr : repr (vq (dev w)) (MkA free [(head, segs)] []);
  po_head : rd (avail_ring (vq (dev w))) (hw_seen (hw w) mod size (vq (dev w))) = head;
  po_new : hw_seen (hw w) <> avail_idx (vq (dev w));
  po_next : u16 (hw_seen (hw w) + 1) = avail_idx (vq (dev w));
  po_valid : valid_req (hw_cap (hw w)) (hw_seg_max (hw w)) (hw_size_max (hw w)) (ram w) segs type sector data q
}.
(** The device has carried it out; the driver has not looked yet. *)
Definition finished w0 w (head : Z) type sector data q : Prop :=
  (exists len, dev w = set_vq (device_complete head len (vq (dev w0))) (dev w0)) /\ unmasked w = false /\
  hw_same (hw w0) (hw w) /\ hw_seen (hw w) = u16 (hw_seen (hw w0) + 1) /\
  (forall x, hw_disk (hw w) x = (served type sector data q (hw_disk (hw w0)) (ram w0)).1 x) /\
  (forall a, ram w a = (served type sector data q (hw_disk (hw w0)) (ram w0)).2 a).
(** It is still at work for [n] steps, or has finished. *)
Definition phase w0 (n : nat) w (head : Z) type sector data q : Prop :=
  (dev w = dev w0 /\ ram w = ram w0 /\ unmasked w = false /\ hw_same (hw w0) (hw w) /\ hw_disk (hw w) = hw_disk (hw w0) /\
   hw_seen (hw w) = hw_seen (hw w0) /\ hw_delay (hw w) = n) \/
  finished w0 w head type sector data q.

Lemma tick_phase w0 free head segs type sector data q n w :
  posted w0 free head segs type sector data q -> phase w0 n w head type sector data q ->
  exists w', tick w = Some ((), w') /\
    match n with O => finished w0 w' head type sector data q | S n' => phase w0 n' w' head type sector data q end.
Proof.
  intros [Hq Hpl Hre Hhd Hnew Hnext Hval] Hph. destruct (hw_run (hw w) (vq (dev w)) (ram w)) as [[h v] m] eqn:Hr.
  destruct Hph as [(Hd & Hm & Hu & Hs & Hdk & Hsn & Hdl)|Hfin].
  - rewrite (tick_quiet w h v m Hu Hr). eexists. split; [done|]. rewrite Hd, Hm in Hr. rewrite Hd. destruct n as [|n].
    + pose proof Hs as (Hc1 & Hc2 & Hc3 & Hc4).
      destruct (hw_serve_law (hw w) (vq (dev w0)) (ram w0) h v m type sector data q Hr) as ((len & ->) & Hs' & Hsn' & Hd' & Hm');
        [by rewrite Hsn|done|rewrite Hsn, Hhd, (flight_chain _ _ _ _ _ Hre), Hc1, Hc2, Hc3; done|].
      rewrite Hsn, Hhd, Hdk in *. split; [by exists len|]. cbn [dev ram unmasked hw]. split; [done|].
      split; [by eapply hw_same_trans|]. done.
    + destruct (hw_idle_law _ _ _ _ _ _ Hr) as (-> & -> & Hs' & Hdk' & Hsn' & Hn'); [right; by rewrite Hdl|].
      left. cbn [dev ram unmasked hw]. rewrite set_vq_id. do 3 (split; [done|]). split; [by eapply hw_same_trans|].
      split; [congruence|]. split; [congruence|]. assert (hw_delay (hw w) = S (hw_delay h)) by (apply Hn'; by rewrite Hsn). congruence.
  - assert (finished w0 (MkW (set_vq v (dev w)) m false h) head type sector data q) as Hf.
    { destruct Hfin as ((len & Hd) & Hu & Hs & Hsn & Hdk & Hm).
      destruct (hw_idle_law _ _ _ _ _ _ Hr) as (-> & -> & Hs' & Hdk' & Hsn' & _).
      { left. rewrite Hsn, Hnext, Hd. done. }
      rewrite set_vq_id. split; [by exists len|]. split; [done|]. split; [by eapply hw_same_trans|]. cbn [hw ram].
      split; [congruence|]. split; [intros x; by rewrite Hdk'|done]. }
    rewrite (tick_quiet w h v m (proj1 (proj2 Hfin)) Hr). eexists. split; [done|]. destruct n; [done|by right].
Qed.

(** Polling until the request is finished, and collecting it. *)
Definition collected w0 w (free : Z) (segs : list virtq_seg) type sector data q : Prop :=
  (exists v, dev w = set_vq v (dev w0) /\ repr v (MkA (free + Z.of_nat (length segs)) [] []) /\
     size v = size (vq (dev w0)) /\ notify_addr v = notify_addr (vq (dev w0)) /\ avail_idx v = avail_idx (vq (dev w0))) /\
  unmasked w = false /\ hw_same (hw w0) (hw w) /\ hw_seen (hw w) = u16 (hw_seen (hw w0) + 1) /\
  (forall x, hw_disk (hw w) x = (served type sector data q (hw_disk (hw w0)) (ram w0)).1 x) /\
  (forall a, ram w a = (served type sector data q (hw_disk (hw w0)) (ram w0)).2 a).
Lemma wait_poll_ok spins w0 free head segs type sector data q n w :
  posted w0 free head segs type sector data q -> phase w0 n w head type sector data q -> (n < spins)%nat ->
  exists w', wait_poll spins w = Some (ESUCCESS, w') /\ collected w0 w' free segs type sector data q.
Proof.
  intros Hpo. revert n w. induction spins as [|spins IH]; intros n w Hph Hn; [lia|]. cbn [wait_poll].
  unfold mbind, M_bind. destruct (tick_phase _ _ _ _ _ _ _ _ n w Hpo Hph) as (w1 & -> & Hw1). cbn [get_dev].
  assert ((exists n', phase w0 n' w1 head type sector data q /\ (n' < spins)%nat) \/ finished w0 w1 head type sector data q) as Hcase.
  { destruct n as [|n]; [by right|left; exists n; split; [done|lia]]. }
  pose proof (po_repr _ _ _ _ _ _ _ _ Hpo) as Hre.
  assert (finished w0 w1 head type sector data q -> exists w',
    (let '(o, v) := virtqueue_get_used (vq (dev w1)) in
     match o with
     | Some _ => match upd_dev (set_vq v) w1 with Some (_, w'') => Some (ESUCCESS, w'') | None => None end
     | None => match upd_dev (set_vq v) w1 with Some (_, w'') => wait_poll spins w'' | None => None end
     end) = Some (ESUCCESS, w') /\ collected w0 w' free segs type sector data q) as Hdone.
  { intros ((len & Hd) & Hu & Hs & Hsn & Hdk & Hm). rewrite Hd.
    pose proof (device_sim _ _ head len Hre ltac:(left) ltac:(apply not_elem_of_nil)) as Hre'.
    pose proof (get_used_sim _ _ Hre') as Hg. cbn [a_done app] in Hg.
    destruct Hg as (v & f1 & sg & f2 & Hg & Hfl & Hrv). change (vq (set_vq ?x ?y)) with x. rewrite Hg.
    pose proof (get_used_size (device_complete head len (vq (dev w0)))) as Hsz. rewrite Hg in Hsz. cbn [snd] in Hsz.
    cbn [a_flight] in Hfl. destruct f1 as [|? f1]; [|destruct f1; done]. injection Hfl as <- <-. cbn [app] in Hrv.
    eexists. split; [reflexivity|]. split; [|done]. exists v. cbn [dev]. rewrite Hd. split; [done|]. split; [exact Hrv|exact Hsz]. }
  destruct Hcase as [(n' & [Hp|Hf] & Hlt)|Hf].
  - pose proof Hp as (Hd & _). pose proof (get_used_sim _ _ Hre) as Hg. cbn [a_done] in Hg. rewrite Hd, Hg.
    cbn [upd_dev]. unfold upd_dev. rewrite Hd, set_vq_id. apply (IH n'); [|done]. left. destruct Hp as (_ & Hp). done.
  - destruct (Hdone Hf) as (w' & He & Hc). exists w'. split; [|done]. rewrite <- He. by destruct (virtqueue_get_used _) as [[?|] ?].
  - destruct (Hdone Hf) as (w' & He & Hc). exists w'. split; [|done]. rewrite <- He. by destruct (virtqueue_get_used _) as [[?|] ?].
Qed.

(** ** One request from end to end *)

(** The header and the status byte lie in the kernel's half, apart. *)
Definition layout_ok : Prop :=
  OFF <= hdr_at /\ hdr_at + 16 <= 2 ^ 64 /\ OFF <= status_at < 2 ^ 64 /\ (status_at < hdr_at \/ hdr_at + 16 <= status_at).
Definition own (a : Z) : Prop := hdr_at <= a < hdr_at + 16 \/ a = status_at.
(** A buffer of [n] bytes away from them. *)
Definition placed (buf n : Z) : Prop :=
  OFF <= buf /\ buf + n <= 2 ^ 64 /\ forall a, buf <= a < buf + n -> ~ own a.

Lemma store_header_spec type sector m :
  layout_ok -> 0 <= type < 2 ^ 32 -> 0 <= sector < 2 ^ 64 ->
  ld_le 4 hdr_at (store_header type sector m) = type /\ ld_le 8 (hdr_at + 8) (store_header type sector m) = sector /\
  forall a, ~ own a -> store_header type sector m a = m a.
Proof.
  intros (H1' & H2' & H3' & H4') Ht Hs. unfold store_header. split; [|split].
  - rewrite !ld_st_ne, ld_st_eq by (cbn; lia). done.
  - rewrite ld_st_ne, ld_st_eq by (cbn; lia). done.
  - intros a Ha. unfold own in Ha. rewrite !st_le_other by lia. done.
Qed.

(** The driver between requests, over a device whose limits it knows. *)
Record world_ok w : Prop := {
  wo_init : initialized (dev w) = true;
  wo_mode : mode (dev w) = BLK_MODE_POLL;
  wo_quiet : unmasked w = false;
  wo_retries : 0 < retries (dev w);
  wo_budget : Z.of_nat hw_latency < timeout_spins (dev w);
  wo_repr : repr (vq (dev w)) (MkA (size (vq (dev w))) [] []);
  wo_room : blk_max_data_segs (cfg (dev w)) + 2 <= size (vq (dev w));
  wo_seen : hw_seen (hw w) = avail_idx (vq (dev w));
  wo_avail : 0 <= avail_idx (vq (dev w)) < 65536;
  wo_bell : notify_addr (vq (dev w)) = hw_doorbell (hw w);
  wo_cap : capacity_sectors (cfg (dev w)) = hw_cap (hw w) /\ hw_cap (hw w) < 2 ^ 55;
  wo_seg : seg_max (cfg (dev w)) = hw_seg_max (hw w) /\ 3 <= hw_seg_max (hw w) < 2 ^ 32;
  wo_size : size_max (cfg (dev w)) = hw_size_max (hw w) /\ 512 <= hw_size_max (hw w) < 2 ^ 32
}.

(** [n] bytes between the disk at [pos] and memory at [buf]. *)
Definition moved (type pos buf n : Z) w w' : Prop :=
  (forall a, ~ own a -> ram w' a =
     if (type =? VIRTIO_BLK_T_IN) && ((buf <=? a) && (a <? buf + n)) then hw_disk (hw w) (pos + (a - buf)) else ram w a) /\
  (forall x, hw_disk (hw w') x =
     if negb (type =? VIRTIO_BLK_T_IN) && ((pos <=? x) && (x <? pos + n)) then ram w (buf + (x - pos)) else hw_disk (hw w) x).

Lemma max_segs_range c : 3 <= seg_max c < 2 ^ 32 -> 1 <= blk_max_data_segs c <= 126 /\ blk_max_data_segs c + 2 <= seg_max c.
Proof. intros Hs. unfold blk_max_data_segs, VIRTQ_MAX_SIZE. rewrite u32_small by lia. case_if; lia. Qed.

Lemma build_segs_ok type buf count sz k :
  type = VIRTIO_BLK_T_IN \/ type = VIRTIO_BLK_T_OUT -> 0 < sz -> 0 <= count -> count * 512 < 2 ^ 32 ->
  count * 512 <= k * sz -> 0 <= k <= 126 -> 0 <= buf -> buf + count * 512 <= 2 ^ 64 ->
  exists data, build_segs type buf count sz =
      Some (MkSeg (VIRT_TO_PHYS hdr_at) 16 0 :: data ++ [MkSeg (VIRT_TO_PHYS status_at) 1 VIRTQ_DESC_F_WRITE]) /\
    contig data buf (count * 512) (if type =? VIRTIO_BLK_T_IN then VIRTQ_DESC_F_WRITE else 0) sz /\
    Z.of_nat (length data) <= k.
Proof.
  intros Ht Hsz Hc Hov Hk Hk126 Hb Hb2. unfold build_segs, VIRTIO_BLK_SECTOR_SIZE. rewrite u32_small by lia.
  assert (type =? VIRTIO_BLK_T_FLUSH = false) as -> by (destruct Ht as [-> | ->]; done). cbn [negb].
  destruct (data_loop_ok 126 (Z.to_nat k) (count * 512) 0 buf sz (if type =? VIRTIO_BLK_T_IN then VIRTQ_DESC_F_WRITE else VIRTQ_DESC_F_NONE))
    as (l & -> & Hcg & Hl); try lia.
  rewrite Z.add_0_r in Hcg. exists l. split; [done|]. split; [done|lia].
Qed.

Lemma blk_submit_ok type sector buf count w :
  layout_ok -> world_ok w -> type = VIRTIO_BLK_T_IN \/ type = VIRTIO_BLK_T_OUT ->
  0 < count -> count * 512 < 2 ^ 32 -> count * 512 <= blk_max_data_segs (cfg (dev w)) * size_max (cfg (dev w)) ->
  0 <= sector -> sector + count <= hw_cap (hw w) -> placed buf (count * 512) ->
  exists w', blk_submit_once type sector buf count w = Some (ESUCCESS, w') /\ world_ok w' /\
    cfg (dev w') = cfg (dev w) /\ hw_cap (hw w') = hw_cap (hw w) /\ moved type (512 * sector) buf (count * 512) w w'.
Proof.
  intros Hlay Hw Ht Hc Hov Hmax Hs Hcap (Hb1 & Hb2 & Hb3). pose proof Hw as [? Hmode Hq ? Hbud Hre Hroom Hseen Hav Hbell [Hc1 Hc2] [Hg1 Hg2] [Hz1 Hz2]].
  destruct (max_segs_range (cfg (dev w))) as [Hk1 Hk2]; [lia|].
  assert (0 <= OFF) as HO by done.
  destruct (build_segs_ok type buf count (size_max (cfg (dev w))) (blk_max_data_segs (cfg (dev w)))) as (data & Hbs & Hcg & Hdl); [done|lia..|].
  unfold blk_submit_once. cbn [dev ram unmasked hw]. rewrite Hbs.
  set (segs := MkSeg _ 16 0 :: _) in *. set (m1 := store_header type sector (ram w)).
  destruct (contig_forall _ _ _ _ _ Hcg) as [Hfl Hln].
  assert (Forall seg_ok segs) as Hsok.
  { constructor; [done|]. apply Forall_app. split; [|by constructor]. eapply Forall_impl; [exact Hfl|].
    intros sg. cbn beta. unfold seg_ok. intros ->. by destruct (type =? VIRTIO_BLK_T_IN). }
  assert (Z.of_nat (length segs) = Z.of_nat (length data) + 2) as Hlen.
  { unfold segs. cbn [length]. rewrite length_app. cbn [length]. lia. }
  pose proof (submit_chain_sim _ _ segs Hre Hsok) as Hsub. pose proof (submit_size segs (vq (dev w))) as [Hsz Hna].
  destruct (virtqueue_submit_chain segs (vq (dev w))) as [h v]. cbn [snd a_free a_flight a_done] in *.
  destruct Hsub as [([Hx|Hx] & _)|(_ & _ & _ & Hh & Hring & Hidx & Hrv)]; [done|lia|].
  pose proof (repr_size _ _ Hre) as Hsize. unfold VIRTQ_MAX_SIZE in Hsize.
  destruct (Z.eqb_spec h VIRTQ_NO_DESC) as [->|_]; [unfold VIRTQ_NO_DESC in Hh; lia|].
  unfold ring_and_wait, virtqueue_notify. cbn [mmio_writes]. unfold mbind, M_bind, mmio_write, mret, M_ret.
  cbn [dev ram unmasked hw]. rewrite Hna, Hbell.
  destruct (hw_ring_law (hw w)) as (Hs1 & Hd1 & Hn1 & Hdl1). set (h1 := hw_write _ (hw w)) in *.
  set (w1 := MkW (set_vq v (dev w)) m1 (unmasked w) h1).
  destruct (store_header_spec type sector (ram w) Hlay) as (Hh1 & Hh2 & Hh3); [destruct Ht as [-> | ->]; done|lia|]. fold m1 in Hh1, Hh2, Hh3.
  destruct Hlay as (Hl1 & Hl2 & Hl3 & Hl4).
  pose proof Hs1 as (Hsc & Hsg & Hss & Hsb).
  assert (posted w1 (size (vq (dev w)) - Z.of_nat (length segs)) h segs type sector data (VIRT_TO_PHYS status_at)) as Hpo.
  { constructor; cbn [w1 unmasked dev mode set_vq vq hw ram]; [done|by rewrite Hmode|done|rewrite Hn1, Hseen, Hsz; done| | |].
    - rewrite Hn1, Hseen, Hidx. unfold u16, wrap. dlia.
    - by rewrite Hn1, Hseen, Hidx.
    - rewrite Hsc, Hsg, Hss. constructor; [|done|done|by rewrite <- Hz1|rewrite Hlen, <- Hg1; lia|].
      + exists (VIRT_TO_PHYS hdr_at). split; [done|]. rewrite !virt_phys by lia. done.
      + rewrite (contig_total _ _ _ _ _ Hcg), Z.mod_mul, Z.div_mul by lia. lia. }
  assert (exists n, phase w1 n w1 h type sector data (VIRT_TO_PHYS status_at) /\ (n <= hw_latency)%nat) as (n & Hph & Hnl).
  { exists (hw_delay h1). split; [|done]. left. repeat split; done. }
  destruct (tick_phase _ _ _ _ _ _ _ _ n w1 Hpo Hph) as (w2 & Htick & Hw2).
  assert (exists n', phase w1 n' w2 h type sector data (VIRT_TO_PHYS status_at) /\ (n' <= hw_latency)%nat) as (n' & Hph2 & Hnl2).
  { destruct n as [|n]; [exists 0%nat; split; [by right|lia]|exists n; split; [done|lia]]. }
  match goal with |- context [tick ?x] => change (tick x) with (tick w1) end. rewrite Htick. unfold blk_wait_one, mbind, M_bind. cbn [get_dev].
  assert (mode (dev w2) = mode (dev w) /\ timeout_spins (dev w2) = timeout_spins (dev w)) as [Hm2 Ht2].
  { destruct Hph2 as [(-> & _)|((len & ->) & _)]; done. }
  rewrite Hm2, Hmode, Ht2. cbn [Z.eqb].
  destruct (wait_poll_ok (Z.to_nat (timeout_spins (dev w))) w1 _ h segs type sector data _ n' w2 Hpo Hph2 ltac:(lia))
    as (w3 & Hwp & (v3 & Hd3 & Hr3 & Hz3 & Hn3 & Ha3) & Hu3 & Hs3 & Hsn3 & Hdk3 & Hrm3).
  change (BLK_MODE_POLL =? BLK_MODE_IRQ) with false. cbn iota. rewrite Hwp. cbn [Z.eqb negb].
  change (ESUCCESS =? ESUCCESS) with true. cbn [negb]. unfold read_status.
  unfold served in Hdk3, Hrm3. cbn [fst snd] in Hdk3, Hrm3. rewrite virt_phys in Hrm3 by lia.
  assert (ram w3 status_at = 0) as Hst by (rewrite Hrm3, st8_eq; done).
  rewrite Hst. exists w3. split; [done|]. rewrite Hd3. cbn [w1 dev hw ram] in *.
  assert (hw_same (hw w) (hw w3)) as Hsame by (by eapply hw_same_trans). destruct Hsame as (He1 & He2 & He3 & He4).
  split; [|split; [done|split; [done|]]].
  - constructor; rewrite ?Hd3; cbn [set_vq initialized mode unmasked retries timeout_spins vq cfg dev]; try done; try congruence.
    + rewrite Z.sub_add in Hr3. cbn in Hz3. rewrite Hz3, Hsz. done.
    + cbn in Hz3. rewrite Hz3, Hsz. done.
    + cbn in Hsn3, Ha3. rewrite Hsn3, Hn1, Hseen, Ha3, Hidx. done.
    + cbn in Ha3. rewrite Ha3, Hidx. apply u16_range.
    + cbn in Hn3. congruence.
    + rewrite He1. done.
    + rewrite He2. done.
    + rewrite He3. done.
  - rewrite Hd1 in *. split.
    + intros a Ha. rewrite Hrm3, st8_ne by (unfold own in Ha; tauto). destruct (type =? VIRTIO_BLK_T_IN); cbn [andb].
      * rewrite (scatter_contig _ _ _ _ _ _ _ _ _ Hcg Hb1 Hb2). case_if; [done|by apply Hh3].
      * by apply Hh3.
    + intros x. rewrite Hdk3. destruct (type =? VIRTIO_BLK_T_IN); cbn [negb andb]; [done|].
      rewrite (gather_contig _ _ _ _ _ _ _ _ _ Hcg Hb1 Hb2). case_if; [|done]. apply Hh3, Hb3. lia.
Qed.

(** The first attempt answers, so nothing is retried or reset. *)
Lemma retry_ok type sector buf count w :
  layout_ok -> world_ok w -> type = VIRTIO_BLK_T_IN \/ type = VIRTIO_BLK_T_OUT ->
  0 < count -> count * 512 < 2 ^ 32 -> count * 512 <= blk_max_data_segs (cfg (dev w)) * size_max (cfg (dev w)) ->
  0 <= sector -> sector + count <= hw_cap (hw w) -> placed buf (count * 512) ->
  exists w', blk_submit_retry type sector buf count w = Some (ESUCCESS, w') /\ world_ok w' /\
    cfg (dev w') = cfg (dev w) /\ hw_cap (hw w') = hw_cap (hw w) /\ moved type (512 * sector) buf (count * 512) w w'.
Proof.
  intros Hlay Hw. intros. destruct (blk_submit_ok type sector buf count w) as (w' & He & Hrest); try done.
  exists w'. split; [|done]. unfold blk_submit_retry, mbind, M_bind. cbn [get_dev].
  pose proof (wo_retries _ Hw). destruct (Z.to_nat (retries (dev w))) as [|n] eqn:En; [lia|].
  cbn [retry_loop]. unfold mbind, M_bind, mret, M_ret. by rewrite He.
Qed.

(** Transfers behind each other. *)
Lemma moved_none type pos buf w : moved type pos buf 0 w w.
Proof. split; intros x; [intros _|]; case_if; try done; lia. Qed.
Lemma moved_app type pos buf n k w w1 w2 :
  0 <= n -> 0 <= k -> placed buf (n + k) ->
  moved type pos buf n w w1 -> moved type (pos + n) (buf + n) k w1 w2 -> moved type pos buf (n + k) w w2.
Proof.
  intros Hn Hk (_ & _ & Hown) [Hr1 Hd1] [Hr2 Hd2]. split.
  - intros a Ha. rewrite (Hr2 a Ha), (Hr1 a Ha). destruct (type =? VIRTIO_BLK_T_IN) eqn:Et; cbn [andb]; [|done].
    repeat case_if; try lia; try done. rewrite Hd1. cbn [negb andb]. f_equal. lia.
  - intros x. rewrite Hd2, Hd1. destruct (type =? VIRTIO_BLK_T_IN) eqn:Et; cbn [negb andb]; [done|].
    repeat case_if; try lia; try done. rewrite Hr1 by (apply Hown; lia). cbn [andb]. f_equal. lia.
Qed.
Lemma placed_sub buf n o k : placed buf n -> 0 <= o -> o + k <= n -> placed (buf + o) k.
Proof. intros (? & ? & Hown) ? ?. split; [lia|]. split; [lia|]. intros a Ha. apply Hown. lia. Qed.

Lemma max_sectors_range c :
  3 <= seg_max c < 2 ^ 32 -> 512 <= size_max c < 2 ^ 32 ->
  1 <= max_sectors_per_req c < 2 ^ 32 /\ max_sectors_per_req c * 512 <= blk_max_data_segs c * size_max c.
Proof.
  intros Hs Hz. destruct (max_segs_range c Hs) as [Hk _]. unfold max_sectors_per_req, VIRTIO_BLK_SECTOR_SIZE.
  set (k := blk_max_data_segs c) in *. set (sz := size_max c) in *. clearbody k sz.
  assert (512 <= k * sz < 126 * 2 ^ 32) by nia. rewrite (u64_small (k * sz)) by lia.
  rewrite u32_small by dlia. case_if; dlia.
Qed.

Lemma rw_loop_ok fuel type sector buf done count c w :
  layout_ok -> world_ok w -> type = VIRTIO_BLK_T_IN \/ type = VIRTIO_BLK_T_OUT -> c = cfg (dev w) ->
  0 <= done <= count -> count < 2 ^ 23 -> count - done <= Z.of_nat fuel ->
  0 <= sector -> sector + count <= hw_cap (hw w) -> placed buf (count * 512) ->
  exists w', rw_loop fuel type sector buf done count (max_sectors_per_req c) w = Some (ESUCCESS, w') /\ world_ok w' /\
    cfg (dev w') = c /\ hw_cap (hw w') = hw_cap (hw w) /\
    moved type (512 * (sector + done)) (buf + done * 512) ((count - done) * 512) w w'.
Proof.
  intros Hlay. revert done w. induction fuel as [|fuel IH]; intros dn w Hw Ht -> Hd Hc Hf Hs Hcap Hp.
  all: cbn [rw_loop]; destruct (Z.ltb_spec dn count) as [Hlt|Hge];
    try (exfalso; lia); try (assert (count - dn = 0) as -> by lia; exists w; do 4 (split; [done|]); apply moved_none).
  pose proof Hw as [_ _ _ _ _ _ _ _ _ _ [_ Hc2] [Hg1 Hg2] [Hz1 Hz2]].
  destruct (max_sectors_range (cfg (dev w))) as [Hm1 Hm2]; [lia..|].
  set (mx := max_sectors_per_req (cfg (dev w))) in *. rewrite (u32_small (count - dn)) by lia.
  set (chunk := if mx <? count - dn then mx else count - dn).
  assert (0 < chunk <= count - dn /\ chunk <= mx) as [Hch Hch2] by (unfold chunk; destruct (Z.ltb_spec mx (count - dn)); lia).
  pose proof Hp as (Hp1 & Hp2 & _). unfold VIRTIO_BLK_SECTOR_SIZE. assert (0 <= OFF) by done.
  rewrite (u64_small (sector + dn)), (u64_small (buf + dn * 512)), (u32_small (dn + chunk)) by lia.
  pose proof (placed_sub _ _ (dn * 512) ((count - dn) * 512) Hp ltac:(lia) ltac:(lia)) as Hp'.
  destruct (retry_ok type (sector + dn) (buf + dn * 512) chunk w) as (w1 & He & Hw1 & Hcf & Hcp & Hmv);
    try done; try lia; [apply (placed_sub _ _ (dn * 512) (chunk * 512) Hp); lia|].
  unfold mbind, M_bind. rewrite He. cbn [negb]. change (ESUCCESS =? ESUCCESS) with true. cbn [negb].
  destruct (IH (dn + chunk) w1) as (w2 & -> & Hw2 & Hcf2 & Hcp2 & Hmv2); try done; try lia.
  exists w2. split; [done|]. split; [done|]. split; [congruence|]. split; [congruence|].
  replace ((count - dn) * 512) with (chunk * 512 + (count - (dn + chunk)) * 512) by lia.
  apply (moved_app _ _ _ _ _ w w1 w2); [lia|lia| |done|].
  { replace (chunk * 512 + (count - (dn + chunk)) * 512) with ((count - dn) * 512) by lia. done. }
  replace (512 * (sector + dn) + chunk * 512) with (512 * (sector + (dn + chunk))) by lia.
  replace (buf + dn * 512 + chunk * 512) with (buf + (dn + chunk) * 512) by lia. done.
Qed.

(** What a transfer answers over such a device. *)
Definition blk_answer (type sector count : Z) (c : config) : Z :=
  if (type =? VIRTIO_BLK_T_OUT) && read_only c then BLK_EROFS
  else if count =? 0 then BLK_EINVAL
  else if capacity_sectors c <? sector + count then BLK_ERANGE else ESUCCESS.
Definition blk_transfer (type sector buf count : Z) : M H Z :=
  if type =? VIRTIO_BLK_T_OUT then blk_write sector buf count else blk_read sector buf count.

Lemma blk_rw_ok type sector buf count w :
  layout_ok -> world_ok w -> type = VIRTIO_BLK_T_IN \/ type = VIRTIO_BLK_T_OUT ->
  0 < count < 2 ^ 23 -> 0 <= sector < 2 ^ 64 -> placed buf (count * 512) ->
  exists w', blk_rw type sector buf count w =
      Some (if capacity_sectors (cfg (dev w)) <? sector + count then BLK_ERANGE else ESUCCESS, w') /\ world_ok w' /\
    cfg (dev w') = cfg (dev w) /\ hw_cap (hw w') = hw_cap (hw w) /\
    if capacity_sectors (cfg (dev w)) <? sector + count then w' = w
    else moved type (512 * sector) buf (count * 512) w w'.
Proof.
  intros Hlay Hw Ht Hc Hs Hp. pose proof Hw as [Hi _ _ _ _ _ _ _ _ _ [Hc1 Hc2] _ _].
  unfold blk_rw, mbind, M_bind. cbn [get_dev]. rewrite Hi. cbn [negb]. pose proof Hp as (Hp1 & _).
  assert (0 < OFF) by done. destruct (Z.eqb_spec count 0); [lia|]. destruct (Z.eqb_spec buf 0); [lia|]. cbn [orb].
  destruct (Z.leb_spec (capacity_sectors (cfg (dev w))) sector) as [Hr|Hr].
  { cbn [orb]. destruct (Z.ltb_spec (capacity_sectors (cfg (dev w))) (sector + count)); [|lia]. by exists w. }
  rewrite u64_small by lia. cbn [orb].
  destruct (Z.ltb_spec (capacity_sectors (cfg (dev w)) - sector) count), (Z.ltb_spec (capacity_sectors (cfg (dev w))) (sector + count)); try lia.
  { by exists w. }
  destruct (rw_loop_ok (Z.to_nat count) type sector buf 0 count (cfg (dev w)) w) as (w' & He & Hw' & Hcf & Hcp & Hm); try done; try lia.
  exists w'. do 4 (split; [done|]). rewrite Z.add_0_r, Z.sub_0_r, Z.mul_0_l, Z.add_0_r in Hm. done.
Qed.

(** One transfer. *)
Lemma blk_transfer_spec type sector buf count w :
  layout_ok -> world_ok w -> type = VIRTIO_BLK_T_IN \/ type = VIRTIO_BLK_T_OUT ->
  0 <= count < 2 ^ 23 -> 0 <= sector < 2 ^ 64 -> placed buf (count * 512) ->
  exists w', blk_transfer type sector buf count w = Some (blk_answer type sector count (cfg (dev w)), w') /\
    world_ok w' /\ cfg (dev w') = cfg (dev w) /\
    if blk_answer type sector count (cfg (dev w)) =? ESUCCESS then moved type (512 * sector) buf (count * 512) w w' else w' = w.
Proof.
  intros Hlay Hw Ht Hc Hs Hp. unfold blk_transfer, blk_answer, blk_write, blk_read, mbind, M_bind. cbn [get_dev].
  destruct (Z.eq_dec count 0) as [->|Hne].
  - pose proof (wo_init _ Hw) as Hi. exists w.
    assert (forall ty, blk_rw ty sector buf 0 w = Some (BLK_EINVAL, w)) as Hrw.
    { intros ty. unfold blk_rw, mbind, M_bind. cbn [get_dev]. by rewrite Hi. }
    destruct (type =? VIRTIO_BLK_T_OUT); cbn [andb]; [destruct (read_only _)|]; rewrite ?Hrw; done.
  - destruct (Z.eqb_spec count 0); [lia|].
    destruct (blk_rw_ok type sector buf count w) as (w' & He & Hw' & Hcf & _ & Hm); try done; [lia|].
    destruct Ht as [-> | ->]; cbn [Z.eqb Pos.eqb andb VIRTIO_BLK_T_IN VIRTIO_BLK_T_OUT] in *.
    + exists w'. do 3 (split; [done|]). revert Hm. by destruct (capacity_sectors _ <? _).
    + cbn beta. destruct (read_only (cfg (dev w))); [by exists w|]. exists w'. do 3 (split; [done|]). revert Hm. by destruct (capacity_sectors _ <? _).
Qed.
End driver.

(** ** Reset

    Whatever the device did before, a reset that succeeds leaves an empty
    queue: nothing is in flight that a late completion could be matched to. *)
Section reset.
Context {H : Type} `{BlkHw H} `{BlkLayout}.
Implicit Types w : world H.

Lemma bind_some {A B} (m : M H A) (k : A -> M H B) w r :
  (m ≫= k) w = Some r -> exists a w1, m w = Some (a, w1) /\ k a w1 = Some r.
Proof. unfold mbind, M_bind. destruct (m w) as [[a w1]|]; [|done]. by exists a, w1. Qed.
(** Register accesses leave the state of the driver alone. *)
Definition keeps {A} (m : M H A) : Prop := forall w a w', m w = Some (a, w') -> dev w' = dev w.
Lemma keeps_bind {A B} (m : M H A) (k : A -> M H B) : keeps m -> (forall a, keeps (k a)) -> keeps (m ≫= k).
Proof. intros Hm Hk w b w' (a & w1 & H1' & H2')%bind_some. rewrite (Hk _ _ _ _ H2'). eauto. Qed.
Lemma keeps_ret {A} (a : A) : keeps (mret a).
Proof. by intros w b w' [= <- <-]. Qed.
Lemma keeps_read n a : keeps (mmio_read n a).
Proof. intros w b w'. unfold mmio_read. destruct (hw_read n a (hw w)). by intros [= <- <-]. Qed.
Lemma keeps_write x : keeps (mmio_write x).
Proof. by intros w b w' [= <- <-]. Qed.
Lemma keeps_writes l : keeps (mmio_writes l).
Proof. induction l as [|x l IH]; [apply keeps_ret|]. apply keeps_bind; [apply keeps_write|done]. Qed.
Lemma keeps_wait n a : keeps (wait_reset n a).
Proof. induction n as [|n IH]; [done|]. apply keeps_bind; [apply keeps_read|]. intros v. case_if; [apply keeps_ret|done]. Qed.
Lemma keeps_status b x : keeps (set_status b x).
Proof. apply keeps_bind; [apply keeps_read|]. intros v. apply keeps_write. Qed.
Lemma keeps_config f : keeps (read_config f).
Proof.
  intros w a w'. unfold read_config. intros (b & w1 & Hg & Hx)%bind_some. injection Hg as <- <-. revert Hx.
  apply keeps_bind; [apply keeps_read|]. intros lo. apply keeps_bind; [apply keeps_read|]. intros hi.
  apply keeps_bind; [case_if; [apply keeps_read|apply keeps_ret]|]. intros sm.
  apply keeps_bind; [case_if; [apply keeps_read|apply keeps_ret]|]. intros gm. apply keeps_ret.
Qed.

(** The size of a split queue is a power of two, or 0 for no queue. *)
Definition queue_size_ok (base : Z) : Prop :=
  forall h, let n := (hw_read 16 (base + VIRTIO_COMMON_Q_SIZE) h).1 in n = 0 \/ 0 < n /\ 65536 mod (Z.min n VIRTQ_MAX_SIZE) = 0.
Lemma setup_queue_fresh base w w' :
  queue_size_ok base -> length (desc (vq (dev w))) = 128%nat -> setup_queue base w = Some (ESUCCESS, w') ->
  exists v, dev w' = set_vq v (dev w) /\ repr v (MkA (size v) [] []).
Proof.
  intros Hq Hl. unfold setup_queue. intros (b & w1 & Hg & Hx)%bind_some. injection Hg as <- <-.
  apply bind_some in Hx as (u & w2 & Hw2 & Hx). apply keeps_writes in Hw2.
  apply bind_some in Hx as (n & w3 & Hr & Hx). pose proof (keeps_read _ _ _ _ _ Hr) as Hw3.
  assert (n = 0 \/ 0 < n /\ 65536 mod (Z.min n VIRTQ_MAX_SIZE) = 0) as Hn.
  { specialize (Hq (hw w2)). unfold mmio_read in Hr. destruct (hw_read _ _ _) as [n' h']. by injection Hr as -> _. }
  destruct (Z.eqb_spec n 0) as [->|Hn0]; [done|]. destruct Hn as [|[Hn1 Hn2]]; [done|].
  apply bind_some in Hx as (u2 & w4 & Hw4 & Hx). apply keeps_writes in Hw4.
  apply bind_some in Hx as (noff & w5 & Hw5 & Hx). apply keeps_read in Hw5.
  destruct (setup_sim base 0 n noff (notify_base (pci_caps (dev w))) (notify_off_multiplier (pci_caps (dev w))) (vq (dev w)) Hn1 Hn2 Hl)
    as (ws & v & Hs & _ & Hrp). rewrite Hs in Hx. cbn [snd] in Hx.
  apply bind_some in Hx as (u3 & w6 & Hw6 & Hx). injection Hw6 as <- <-.
  apply bind_some in Hx as (u4 & w7 & Hw7 & Hx). apply keeps_writes in Hw7. injection Hx as <-.
  exists v. split; [|done]. rewrite Hw7. cbn [dev]. by rewrite Hw5, Hw4, Hw3, Hw2.
Qed.

(** Past a register access: the driver's state is as before. *)
Lemma keeps_step {A B} (m : M H A) (k : A -> M H B) w b r :
  (m ≫= k) w = Some r -> keeps m -> dev w = b -> exists a w1, dev w1 = b /\ k a w1 = Some r.
Proof. intros (a & w1 & Hm & Hk)%bind_some Hke <-. exists a, w1. split; [by apply Hke in Hm|done]. Qed.
Ltac kstep Hx Hd :=
  let a := fresh "a" in let w := fresh "w" in let Hx' := fresh in let Hd' := fresh in
  destruct (keeps_step _ _ _ _ _ Hx ltac:(solve [apply keeps_write|apply keeps_read|apply keeps_status|apply keeps_wait|apply keeps_config]) Hd)
    as (a & w & Hd' & Hx'); clear Hx Hd; rename Hx' into Hx; rename Hd' into Hd.
Lemma blk_bringup_fresh w w' :
  queue_size_ok (common_cfg (pci_caps (dev w))) -> length (desc (vq (dev w))) = 128%nat -> blk_bringup w = Some (ESUCCESS, w') ->
  exists v c, dev w' = set_cfg c (set_vq v (dev w)) /\ repr v (MkA (size v) [] []).
Proof.
  intros Hq Hl. unfold blk_bringup. intros (b & xw1 & Hg & Hx)%bind_some. injection Hg as <- <-.
  set (base := common_cfg _) in *. remember (dev w) as b eqn:Hd. symmetry in Hd.
  do 8 kstep Hx Hd. cbv zeta in Hx. match type of Hx with (if ?c then _ else _) _ = _ => destruct c end.
  { kstep Hx Hd. by injection Hx. }
  do 4 kstep Hx Hd. apply bind_some in Hx as (u & xw2 & Hu & Hx). injection Hu as <- <-.
  match type of Hx with (_ ≫= _) ?xw3 = _ => remember (dev xw3) as b3 eqn:Hd3 end. cbn [dev] in Hd3. rewrite Hd in Hd3.
  match type of Hx with (_ ≫= _) ?xw3 = _ => assert (dev xw3 = b3) as Hd4 by (cbn [dev]; congruence) end.
  do 2 kstep Hx Hd4. match type of Hx with (if ?c then _ else _) _ = _ => destruct c end.
  { kstep Hx Hd4. by injection Hx. }
  apply bind_some in Hx as (r & xw3 & Hs & Hx). destruct (Z.eqb_spec r ESUCCESS) as [->|]; [cbn [negb] in Hx|by injection Hx].
  apply setup_queue_fresh in Hs as (v & Hv & Hr); [|done|by rewrite Hd4, Hd3].
  rewrite Hd4, Hd3 in Hv. do 2 kstep Hx Hv. apply bind_some in Hx as (u' & xw4 & Hu & Hx). injection Hu as <- <-.
  injection Hx as <-. eexists v, _. split; [|done]. cbn [dev]. rewrite Hv. done.
Qed.
(** After a reset that succeeds. *)
Theorem blk_reset_fresh w w' :
  queue_size_ok (common_cfg (pci_caps (dev w))) -> length (desc (vq (dev w))) = 128%nat ->
  blk_reset_device w = Some (ESUCCESS, w') ->
  initialized (dev w') = true /\ completions (dev w') = 0 /\ mode (dev w') = mode (dev w) /\
  timeout_spins (dev w') = timeout_spins (dev w) /\ retries (dev w') = retries (dev w) /\
  repr (vq (dev w')) (MkA (size (vq (dev w'))) [] []).
Proof.
  intros Hq Hl. unfold blk_reset_device. intros (u & w1 & Hu & Hx)%bind_some. injection Hu as <- <-.
  apply bind_some in Hx as (r & w2 & Hb & Hx). destruct (Z.eqb_spec r ESUCCESS) as [->|]; [cbn [negb] in Hx|by injection Hx].
  apply blk_bringup_fresh in Hb as (v & c & Hd & Hr); [|done..].
  apply bind_some in Hx as (u' & w3 & Hu & Hx). injection Hu as <- <-. injection Hx as <-. cbn [dev]. by rewrite Hd.
Qed.
End reset.

(** ** A device

    One disk behind the registers of the virtio PCI transport: the common
    configuration at 0x1000, the interrupt status at 0x2000, the device
    configuration at 0x3000 and the doorbell at 0x4000. *)
Record vdisk := MkVdisk {
  vd_status : Z; vd_dfselect : Z; vd_line : bool; vd_seen : Z; vd_delay : nat; vd_lat : nat;
  vd_cap : Z; vd_size_max : Z; vd_seg_max : Z; vd_bytes : Z -> Z
}.
Definition vd_read (width a : Z) (h : vdisk) : Z * vdisk :=
  let '(MkVdisk s d l n k lat c z g b) := h in
  if a =? 0x1014 then (s, h)
  else if a =? 0x1004 then (if d =? 0 then 0x206 else 1, h)
  else if a =? 0x1018 then (128, h)
  else if a =? 0x2000 then (if l then 1 else 0, MkVdisk s d false n k lat c z g b)
  else if a =? 0x3000 then (u32 c, h)
  else if a =? 0x3004 then (c >>> 32, h)
  else if a =? 0x3008 then (z, h)
  else if a =? 0x300C then (g, h)
  else (0, h).
Definition vd_write (x : write) (h : vdisk) : vdisk :=
  let '(width, a, val) := x in
  let '(MkVdisk s d l n k lat c z g b) := h in
  if a =? 0x1014 then MkVdisk val d false (if val =? 0 then 0 else n) k lat c z g b
  else if a =? 0x1000 then MkVdisk s val l n k lat c z g b
  else if a =? 0x4000 then MkVdisk s d l n (Nat.min lat 2) lat c z g b
  else h.
Definition vd_serve (segs : list virtq_seg) (d : Z -> Z) (m : mem) : (Z -> Z) * mem :=
  match segs with
  | hd :: rest =>
      let a := PHYS_TO_VIRT (pa hd) in
      served (ld_le 4 a m) (ld_le 8 (a + 8) m) (removelast rest) (pa (List.last rest hd)) d m
  | [] => (d, m)
  end.
Definition vd_run (h : vdisk) (v : virtqueue) (m : mem) : vdisk * virtqueue * mem :=
  let '(MkVdisk s d l n k lat c z g b) := h in
  if n =? avail_idx v then (h, v, m)
  else
    match k with
    | S k' => (MkVdisk s d l n k' lat c z g b, v, m)
    | O =>
        let head := rd (avail_ring v) (n mod size v) in
        let '(b', m') := vd_serve (read_chain (Z.to_nat (size v)) v head) b m in
        (MkVdisk s d true (u16 (n + 1)) 0 lat c z g b', device_complete head 1 v, m')
    end.
#[global] Instance vdisk_hw : BlkHw vdisk :=
  {| hw_read := vd_read; hw_write := vd_write; hw_run := vd_run; hw_line := vd_line; hw_patience := 3 |}.
#[global] Program Instance vdisk_ok : BlkHwOk vdisk := {|
  hw_disk := vd_bytes; hw_cap := vd_cap; hw_seg_max := vd_seg_max; hw_size_max := vd_size_max; hw_doorbell := fun _ => 0x4000;
  hw_seen := vd_seen; hw_delay := vd_delay; hw_latency := 2
|}.
Next Obligation. intros [s d l n k lat c z g b]. unfold hw_write. cbn. repeat split; lia. Qed.
Next Obligation.
  intros [s d l n k lat c z g b] v m h' v' m'. unfold hw_run. cbn. destruct (Z.eqb_spec n (avail_idx v)) as [->|Hne].
  { intros [= <- <- <-] _. repeat split; done. }
  destruct k as [|k]; [by intros _ [?|?]|]. intros [= <- <- <-] _. repeat split; done.
Qed.
Next Obligation.
  intros [s d l n k lat c z g b] v m h' v' m' type sector data q. unfold hw_run. cbn. intros Hr Hne -> [(p & Hsegs & Ht & Hs) _ _ _ _ _].
  destruct (Z.eqb_spec n (avail_idx v)); [done|]. rewrite Hsegs in Hr. unfold vd_serve in Hr.
  rewrite removelast_last, last_last in Hr. cbn [pa] in Hr. rewrite Ht, Hs in Hr.
  unfold served in Hr. injection Hr as <- <- <-. split; [by eexists|]. repeat split; done.
Qed.

(** ** A run

    The header is at the start of a page of the kernel's half and the status
    byte behind it; the device offers its limits and a flush. *)
#[global] Instance demo_layout : BlkLayout := {| hdr_at := OFF + 0x1000; status_at := OFF + 0x1010 |}.
Definition demo_caps : caps := MkCaps 0x1000 0x4000 0x2000 0x3000 4.
Definition demo_off (h : vdisk) : world vdisk :=
  MkW (MkBlk (MkCaps 0 0 0 0 0) demo_vq (MkConfig 0 0 0 0 false false) false 0 0 false 0 0 0 (MkStats 0 0 0 0)) (fun _ => 0) false h.
(** 64 sectors, segments of at most 1024 bytes, two of them per request *)
Definition demo_disk (lat : nat) : vdisk := MkVdisk 0 0 false 0 0 lat 64 1024 4 (fun x => x mod 251).
Definition demo_w (lat : nat) : world vdisk :=
  match pci_virtio_blk_init true 0 demo_caps 45 (demo_off (demo_disk lat)) with Some (_, w) => w | None => demo_off (demo_disk lat) end.

Lemma demo_world_ok : world_ok (demo_w 2).
Proof.
  constructor; lazymatch goal with |- repr _ _ => idtac | _ => vm_compute; repeat split; try discriminate end.
  assert (vq (dev (demo_w 2)) = default demo_vq (virtqueue_setup 0x1000 0 128 0 0x4000 4 demo_vq).2) as ->
    by (vm_compute; reflexivity).
  destruct (setup_sim 0x1000 0 128 0 0x4000 4 demo_vq) as (ws & v & -> & _ & Hr); [lia|vm_compute; reflexivity..|]. exact Hr.
Qed.
Lemma demo_placed n : n <= 0x10000 -> placed (OFF + 0x10000) n.
Proof.
  intros Hn. assert (OFF = 0xFFFF000000000000) as HO by reflexivity. unfold placed, own, demo_layout, hdr_at, status_at. rewrite HO.
  split; [lia|]. split; [lia|]. intros a Ha. lia.
Qed.
Lemma demo_layout_ok : layout_ok.
Proof. assert (OFF = 0xFFFF000000000000) as HO by reflexivity. unfold layout_ok, demo_layout, hdr_at, status_at. rewrite HO. lia. Qed.

(** ** Interrupt mode

    [blk_wait_one] reads its target from the counter after the doorbell has
    been rung.  A device that is done before that read has had its completion
    counted already: the wait is for one more, and times out although the
    request was served.  A slower device is waited for correctly. *)
Definition irq_read (lat : nat) : option (Z * Z * Z) :=
  match (_ ← blk_set_timeout 5; _ ← blk_set_mode BLK_MODE_IRQ; blk_submit_once VIRTIO_BLK_T_IN 3 (OFF + 0x10000) 1) (demo_w lat) with
  | Some (rc, w) => Some (rc, ram w status_at, completions (dev w))
  | None => None
  end.
Example irq_completion_after_the_read : irq_read 1 = Some (ESUCCESS, VIRTIO_BLK_S_OK, 1).
Proof. vm_compute. reflexivity. Qed.
Example irq_completion_before_the_read : irq_read 0 = Some (BLK_ETIMEDOUT, VIRTIO_BLK_S_OK, 1).
Proof. vm_compute. reflexivity. Qed.
End Blk.
