(* ===== verification/FatBlk.v ===== *)
(** * The FAT32 file system on the virtio disk

    [Fat32] is written against the interface [BlkDev] of a block device and
    proved from its laws [BlkLaws].  Here the driver of [Blk] implements the
    interface: [blk_read] and [blk_write] of one sector, to and from the buffer
    [sec_buf] of fat32.c, which lies at [sec_at] in memory.  The laws follow
    from the correctness of a transfer, so that every theorem of [Fat32] holds
    of the file system, the driver, the virtqueue and a virtio device
    together. *)
From S2P Require Import Prelude Bytes PageAlloc Heap Mmu TaskEnv Virtqueue Blk BumpEnv Vfs Fat32.
#[local] Open Scope Z_scope.

Module FatBlk.
Import Blk.

(** Where [sec_buf] lies: away from the header and the status byte. *)
Class FatLayout `{BlkLayout} := {
  sec_at : Z;
  fat_layout_ok : layout_ok;
  fat_placed : placed sec_at 512
}.

Section instance.
Context {H : Type} `{BlkHwOk H} `{FatLayout}.
Implicit Types w : world H.

(** The driver's calls for one sector, the buffer going through memory. *)
Definition with_buf (b : list Z) w : world H := MkW (dev w) (store_buf sec_at b (ram w)) (unmasked w) (hw w).
#[global] Instance driver_dev : Fat32.BlkDev (world H) := {
  Fat32.blk_read s b w :=
    match blk_read s sec_at 1 (with_buf b w) with
    | Some (rc, w') => (rc, load_buf sec_at 512 (ram w'), w')
    | None => (0, b, w)
    end;
  Fat32.blk_write s b w :=
    match blk_write s sec_at 1 (with_buf b w) with Some (rc, w') => (rc, w') | None => (0, w) end
}.
Definition sector_bytes w (s : Z) : list Z := load_buf (512 * s) 512 (hw_disk (hw w)).
(** Sectors the device serves: within the capacity, and writable. *)
Definition sector_live w (s : Z) : Prop :=
  world_ok w /\ read_only (cfg (dev w)) = false /\ 0 <= s < capacity_sectors (cfg (dev w)) /\
  forall i, 0 <= i < 512 -> is_byte (hw_disk (hw w) (512 * s + i)).

Lemma with_buf_ok b w : world_ok w -> world_ok (with_buf b w).
Proof. intros []. by constructor. Qed.
(** One sector through the driver. *)
Lemma sector_transfer type s b w :
  sector_live w s -> type = VIRTIO_BLK_T_IN \/ type = VIRTIO_BLK_T_OUT ->
  exists w', blk_rw type s sec_at 1 (with_buf b w) = Some (ESUCCESS, w') /\ world_ok w' /\ cfg (dev w') = cfg (dev w) /\
    moved type (512 * s) sec_at 512 (with_buf b w) w'.
Proof.
  intros (Hw & _ & Hs & _) Ht. pose proof (wo_cap _ Hw) as [Hc1 Hc2].
  destruct (blk_rw_ok type s sec_at 1 (with_buf b w) fat_layout_ok (with_buf_ok b w Hw) Ht ltac:(lia) ltac:(lia) fat_placed)
    as (w' & He & Hw' & Hcf & _ & Hm). cbn [dev with_buf] in *.
  destruct (Z.ltb_spec (capacity_sectors (cfg (dev w))) (s + 1)); [lia|]. by exists w'.
Qed.
Lemma sector_live_iff w w' s :
  world_ok w -> world_ok w' -> cfg (dev w') = cfg (dev w) ->
  (forall i, 0 <= i < 512 -> is_byte (hw_disk (hw w') (512 * s + i)) <-> is_byte (hw_disk (hw w) (512 * s + i))) ->
  sector_live w' s <-> sector_live w s.
Proof. intros Hw Hw' Hc Hb. unfold sector_live. rewrite Hc. split; intros (_ & ? & ? & Hi); do 3 (split; [done|]); intros i Hi'; by apply Hb, Hi. Qed.

#[global] Program Instance driver_laws : Fat32.BlkLaws (world H) :=
  { Fat32.contents := sector_bytes; Fat32.live := sector_live }.
Next Obligation.
  intros w s (_ & _ & _ & Hb). unfold sector_bytes. split; [by rewrite length_load_buf|]. by apply load_buf_forall.
Qed.
Next Obligation.
  intros w s b Hl. destruct (sector_transfer VIRTIO_BLK_T_IN s b w Hl (or_introl eq_refl)) as (w' & He & Hw' & Hc & Hr & Hd).
  exists w'. unfold Fat32.blk_read, driver_dev, blk_read. rewrite He.
  assert (forall x, hw_disk (hw w') x = hw_disk (hw w) x) as Hdk by (intros x; by rewrite Hd).
  split; [|split].
  - f_equal. f_equal. unfold sector_bytes. apply load_buf_ext. intros i Hi.
    rewrite Hr by (apply fat_placed; lia). cbn [hw with_buf Z.eqb VIRTIO_BLK_T_IN andb].
    case_if; [f_equal; lia|lia].
  - intros x. apply load_buf_ext. intros i _. apply Hdk.
  - intros x. apply sector_live_iff; [by destruct Hl|done|done|]. intros i _. by rewrite Hdk.
Qed.
Next Obligation.
  intros w s b Hl Hlen Hby. destruct (sector_transfer VIRTIO_BLK_T_OUT s b w Hl (or_intror eq_refl)) as (w' & He & Hw' & Hc & Hr & Hd).
  exists w'. pose proof Hl as (Hw & Hro & Hs & Hb0). unfold Fat32.blk_write, driver_dev, blk_write, mbind, M_bind. cbn [get_dev with_buf dev].
  rewrite Hro, He.
  assert (forall x i, 0 <= i < 512 -> hw_disk (hw w') (512 * x + i) = if x =? s then rd b i else hw_disk (hw w) (512 * x + i)) as Hdk.
  { intros x i Hi. rewrite Hd. cbn [hw ram with_buf Z.eqb VIRTIO_BLK_T_OUT VIRTIO_BLK_T_IN negb andb]. unfold store_buf. rewrite Hlen.
    destruct (Z.eqb_spec x s) as [->|Hne].
    - case_if; [|lia]. case_if; [|lia]. f_equal. lia.
    - case_if; [lia|done]. }
  split; [done|]. split.
  - intros x. unfold sector_bytes. destruct (Z.eqb_spec x s) as [->|Hne].
    + replace 512 with (Z.of_nat (length b)) at 2 by lia. apply load_buf_id. intros i Hi.
      rewrite Hdk by lia. by rewrite Z.eqb_refl.
    + apply load_buf_ext. intros i Hi. rewrite Hdk by done. by destruct (Z.eqb_spec x s).
  - intros x. apply sector_live_iff; [done|done|done|]. intros i Hi. rewrite Hdk by done.
    destruct (Z.eqb_spec x s) as [->|]; [|done]. split; [intros _; by apply Hb0|intros _].
    by apply rd_byte.
Qed.

(** C27: the file system on the driver on the device.  On a healthy volume
    with room, creating a file through FAT32 ends with ESUCCESS, the new name
    is found and reads back byte for byte, all of it through requests on the
    virtqueue; on the disk of the device the sectors of every chain outside
    the directory, that is of every other file, hold what they held; and the
    driver is ready for the next request, its queue empty. *)
Theorem fat32_on_virtio fuel (st st0 : Fat32.fs (world H)) path dir dl data :
  let len := Z.of_nat (length data) in
  let v := Fat32.vol st in
  Fat32.create_pre fuel st path dir dl data -> Fat32.has_room st dl data ->
  Fat32.fat32_lookup_in_dir fuel dir (Fat32.base_name path) st = Some (None, st0) ->
  exists st1 first st2 st3,
    Fat32.fat32_create fuel path data st = Some (ESUCCESS, st1) /\
    Fat32.fat32_lookup_in_dir fuel dir (Fat32.base_name path) st1 = Some (Some (first, len, 0), st2) /\
    Fat32.fat32_read fuel first len len st2 = Some ((len, data), st3) /\
    world_ok (Fat32.dev st1) /\ world_ok (Fat32.dev st3) /\
    forall c l, Fat32.chain v (sector_bytes (Fat32.dev st)) c l -> (forall x, x ∈ l -> x ∉ dl) ->
      Fat32.bytes_of (sector_bytes (Fat32.dev st1)) (Fat32.chain_secs v l) =
      Fat32.bytes_of (sector_bytes (Fat32.dev st)) (Fat32.chain_secs v l).
Proof.
  intros len v [Hvol Hfat Hf Hp Hdl HLd HLn Hname Hdata Hlen] [Hfree Hslot] Habs.
  pose proof (Fat32.at_disk_start st) as Hst. pose proof (Fat32.at_disk_ok _ _ _ _ _ Hst) as Hok.
  destruct (Fat32.exec_create_read _ _ Hvol Hfat _ _ _ _ _ _ Hok Hf Hp Hdl HLd HLn Hname Hdata Hlen Hfree Hslot)
    as (σ' & Hc & Hlk & Hrd & Hoth).
  destruct (Hc st Hst) as (st1 & E1 & Hst1).
  destruct (Hlk ltac:(eapply Fat32.lookup_none; done) st1 Hst1) as (st2 & E2 & Hst2).
  destruct (Hrd len (Z.le_refl _) st2 Hst2) as (st3 & E3 & Hst3).
  eexists st1, _, st2, st3. split; [exact E1|]. split; [exact E2|]. split; [exact E3|].
  pose proof (Hfat _ (conj (Z.le_refl _) (proj2 (Fat32.vo_fat _ Hvol)))) as HL0.
  destruct Hst1 as (_ & Hc1 & HL1 & _). destruct Hst3 as (_ & _ & HL3 & _).
  split; [by destruct (HL1 _ HL0)|]. split; [by destruct (HL3 _ HL0)|].
  intros c l Hl Hn. destruct (Hoth c l Hl Hn) as [_ Hb]. etransitivity; [|exact Hb]. unfold Fat32.bytes_of. f_equal.
  apply list_fmap_ext. intros i x _. apply Hc1.
Qed.
End instance.

(** ** A volume on the device of [Blk]

    The geometry of [Fat32]'s example; the first entries of the FAT are in
    sector 1. *)
#[global] Program Instance demo_fat_layout : FatLayout := { sec_at := OFF + 0x10000 }.
Next Obligation. exact demo_layout_ok. Qed.
Next Obligation. by apply demo_placed. Qed.
Definition fat_byte (x : Z) : Z := rd [0xF8; 0xFF; 0xFF; 0x0F; 0xFF; 0xFF; 0xFF; 0x0F; 0xFF; 0xFF; 0xFF; 0x0F] (x - 512).
Definition with_volume (w : world vdisk) : world vdisk :=
  MkW (set_timeout_spins 10 (dev w)) (ram w) (unmasked w)
    (let '(MkVdisk s d l n k lat c z g b) := hw w in MkVdisk s d l n k lat c z g fat_byte).
Definition demo_fat_world : world vdisk := with_volume (demo_w 2).
Definition demo_fs : Fat32.fs (world vdisk) := Fat32.MkFs (Fat32.MkVol 1 2 1 2 512) (replicate 512 0) demo_fat_world.
Definition demo_name : list Z := [47; 97; 46; 116; 120; 116].      (* "/a.txt" *)
Definition demo_text : list Z := replicate 600 0xAB.

Lemma with_volume_vq w : vq (dev (with_volume w)) = vq (dev w).
Proof. reflexivity. Qed.
Lemma with_volume_disk w : hw_disk (hw (with_volume w)) = fat_byte.
Proof. by destruct w as [? ? ? []]. Qed.
Lemma demo_fat_world_ok : world_ok demo_fat_world.
Proof.
  constructor; lazymatch goal with |- repr _ _ => idtac | _ => vm_compute; repeat split; try discriminate end.
  unfold demo_fat_world. rewrite with_volume_vq. exact (wo_repr _ demo_world_ok).
Qed.
Lemma demo_sector_live s : 0 <= s < 16 -> sector_live demo_fat_world s.
Proof.
  intros Hs. split; [exact demo_fat_world_ok|]. split; [vm_compute; reflexivity|].
  split; [replace (capacity_sectors _) with 64 by (vm_compute; reflexivity); lia|].
  intros i Hi. unfold demo_fat_world. rewrite with_volume_disk.
  apply rd_byte. repeat constructor; unfold is_byte; lia.
Qed.
Lemma demo_fat_clusters_live l :
  Forall (fun c => 2 <= c < 16) l -> Fat32.clusters_live (Fat32.MkVol 1 2 1 2 512) (sector_live demo_fat_world) l.
Proof.
  intros HF c s Hc Hs. rewrite Forall_forall in HF. specialize (HF c Hc). apply demo_sector_live.
  unfold Fat32.csec. cbn [Fat32.data_start_sector Fat32.sectors_per_cluster] in *. lia.
Qed.
Lemma demo_fat_pre : Fat32.create_pre 128 demo_fs demo_name 2 [2] demo_text.
Proof.
  split; cbn [Fat32.vol Fat32.dev demo_fs].
  - split; cbn; unfold Fat32.SECTOR, Fat32.FAT32_EOC, Fat32.ncl; cbn; lia.
  - cbn. intros s Hs. apply demo_sector_live. lia.
  - vm_compute. apply le_n.
  - replace (Fat32.parent_comps demo_name) with (@nil (list Z)) by (vm_compute; reflexivity). constructor.
  - cbn [Fat32.chain]. split; [done|]. split; [unfold Fat32.valid, Fat32.ncl; cbn; lia|]. vm_compute. discriminate.
  - apply demo_fat_clusters_live. repeat constructor; lia.
  - replace (take _ _) with [3; 4] by (vm_compute; reflexivity). apply demo_fat_clusters_live. repeat constructor; lia.
  - replace (Fat32.base_name demo_name) with [97; 46; 116; 120; 116] by (vm_compute; reflexivity).
    split; [cbn; lia|]. split; [repeat constructor; lia|vm_compute; discriminate].
  - apply Forall_replicate. unfold is_byte. lia.
  - unfold demo_text. rewrite length_replicate. lia.
Qed.
Lemma demo_fat_room : Fat32.has_room demo_fs [2] demo_text.
Proof. split; [vm_compute; repeat constructor|vm_compute; discriminate]. Qed.
Lemma demo_fat_absent : exists st0, Fat32.fat32_lookup_in_dir 128 2 (Fat32.base_name demo_name) demo_fs = Some (None, st0).
Proof.
  destruct (Fat32.fat32_lookup_in_dir 128 2 (Fat32.base_name demo_name) demo_fs) as [[[x|] st0]|] eqn:E; [| |];
    apply (f_equal (fun r => match r with Some (Some _, _) => 0 | Some (None, _) => 1 | None => 2 end)) in E;
    vm_compute in E; [discriminate| |discriminate].
  by exists st0.
Qed.

Lemma fat32_on_virtio_witness :
  exists st1 first st2 st3,
    Fat32.fat32_create 128 demo_name demo_text demo_fs = Some (ESUCCESS, st1) /\
    Fat32.fat32_lookup_in_dir 128 2 (Fat32.base_name demo_name) st1 = Some (Some (first, Z.of_nat (length demo_text), 0), st2) /\
    Fat32.fat32_read 128 first (Z.of_nat (length demo_text)) (Z.of_nat (length demo_text)) st2 =
      Some ((Z.of_nat (length demo_text), demo_text), st3).
Proof.
  destruct demo_fat_absent as (st0 & E0).
  destruct (fat32_on_virtio 128 demo_fs st0 demo_name 2 [2] demo_text demo_fat_pre demo_fat_room E0)
    as (st1 & first & st2 & st3 & E1 & E2 & E3 & _).
  exists st1, first, st2, st3. split; [exact E1|]. split; [exact E2|exact E3].
Defined.
End FatBlk.
