(* ===== verification/Vdev.v ===== *)
(** * The entropy, console and balloon drivers (src/src/pci/virtio/rng/rng.c,
      console/console.c, balloon/balloon.c)

    Three small drivers with the same skeleton: find the function on the bus
    ([Pci]), bring the device up, and then exchange one buffer at a time with
    it, waiting by polling.  The skeleton is written once, over a world with
    the state [X] of the driver; memory is that of [Bytes] and the statics the
    device sees lie at the addresses of [VLayout].  The device is the
    interface [VirtHw].  Console output is left out.

    The outcome is [None] when the device never answers a reset or the list of
    its capabilities never ends. *)
From S2P Require Import Prelude PageAlloc Pmm Bytes Heap Mmu TaskEnv Strings Virtqueue Blk Pci.
#[local] Open Scope Z_scope.

Module Vdev.
Export Virtqueue.
Import Pci(CfgSpace, pci_device, virtio_pci_caps).

Definition VIRTQ_DESC_F_NONE : Z := 0.
Definition VIRTIO_STATUS_RESET : Z := 0.
Definition VIRTIO_STATUS_ACKNOWLEDGE : Z := 1.
Definition VIRTIO_STATUS_DRIVER : Z := 2.
Definition VIRTIO_STATUS_DRIVER_OK : Z := 4.
Definition VIRTIO_STATUS_FEATURES_OK : Z := 8.
Definition VIRTIO_COMMON_DFSELECT : Z := 0x00.
Definition VIRTIO_COMMON_DF : Z := 0x04.
Definition VIRTIO_COMMON_GFSELECT : Z := 0x08.
Definition VIRTIO_COMMON_GF : Z := 0x0C.
Definition VIRTIO_COMMON_STATUS : Z := 0x14.
Definition VIRTIO_COMMON_Q_NOFF : Z := 0x1E.
Definition VIRTIO_VENDOR_ID : Z := 0x1AF4.
Definition VIRTIO_CONSOLE_DEVICE_ID : Z := 0x1043.
Definition VIRTIO_RNG_DEVICE_ID : Z := 0x1044.
Definition VIRTIO_BALLOON_DEVICE_ID : Z := 0x1045.
Definition RNG_BUF_SIZE : Z := 256.
Definition CONSOLE_TX_BUF : Z := 4096.
Definition VIRTIO_CONSOLE_VQ_RX : Z := 0.
Definition VIRTIO_CONSOLE_VQ_TX : Z := 1.
Definition VIRTIO_BALLOON_PFN_SHIFT : Z := 12.
Definition VIRTIO_BALLOON_MAX_PAGES : Z := 1024.
Definition VIRTIO_BALLOON_VQ_INFLATE : Z := 0.
Definition VIRTIO_BALLOON_VQ_DEFLATE : Z := 1.
Definition VIRTIO_BALLOON_CFG_NUM_PAGES : Z := 0x00.
Definition VIRTIO_BALLOON_CFG_ACTUAL : Z := 0x04.

(** ** State *)

(** The part every driver has: the function, its capabilities, two queues. *)
Record vdev := MkDev { pci_of : pci_device; caps : virtio_pci_caps; vq0 : virtqueue; vq1 : virtqueue }.
Definition queue (q : Z) (d : vdev) : virtqueue := if q =? 0 then vq0 d else vq1 d.
Definition set_queue (q : Z) (v : virtqueue) (d : vdev) : vdev :=
  if q =? 0 then MkDev (pci_of d) (caps d) v (vq1 d) else MkDev (pci_of d) (caps d) (vq0 d) v.

(** The device: registers, configuration space, and its work on a queue. *)
Class VirtHw (H : Type) `{CfgSpace H} := {
  vh_read : Z -> Z -> H -> Z * H;            (* width, address *)
  vh_write : write -> H -> H;
  vh_run : H -> Z -> virtqueue -> mem -> H * virtqueue * mem;
  (** a bound on the reads of the status register a reset takes *)
  vh_patience : nat
}.
(** [rng_buf], [tx_buf] and [pfn_buf]. *)
Class VLayout := { rng_buf : Z; tx_buf : Z; pfn_buf : Z }.

Record world (X H : Type) := MkW { ext : X; bus : Pci.pci; dev : vdev; ram : mem; hw : H }.
Arguments MkW {X H}. Arguments ext {X H}. Arguments bus {X H}. Arguments dev {X H}. Arguments ram {X H}. Arguments hw {X H}.
Definition M (X H A : Type) : Type := world X H -> option (A * world X H).
#[global] Instance M_ret {X H} : MRet (M X H) := fun A a w => Some (a, w).
#[global] Instance M_bind {X H} : MBind (M X H) := fun A B k m w =>
  match m w with Some (a, w') => k a w' | None => None end.

Section ops.
Context {X H : Type} `{VirtHw H} `{VLayout}.
Implicit Types w : world X H.

Definition get_dev : M X H vdev := fun w => Some (dev w, w).
Definition upd_dev (f : vdev -> vdev) : M X H unit := fun w => Some ((), MkW (ext w) (bus w) (f (dev w)) (ram w) (hw w)).
Definition get_ext : M X H X := fun w => Some (ext w, w).
Definition upd_ext (f : X -> X) : M X H unit := fun w => Some ((), MkW (f (ext w)) (bus w) (dev w) (ram w) (hw w)).
Definition get_ram : M X H mem := fun w => Some (ram w, w).
Definition upd_ram (f : mem -> mem) : M X H unit := fun w => Some ((), MkW (ext w) (bus w) (dev w) (f (ram w)) (hw w)).
Definition mmio_read (width a : Z) : M X H Z :=
  fun w => let '(v, h) := vh_read width a (hw w) in Some (v, MkW (ext w) (bus w) (dev w) (ram w) h).
Definition mmio_write (x : write) : M X H unit := fun w => Some ((), MkW (ext w) (bus w) (dev w) (ram w) (vh_write x (hw w))).
Fixpoint mmio_writes (l : list write) : M X H unit :=
  match l with [] => mret () | x :: l' => _ ← mmio_write x; mmio_writes l' end.

(** ** Bring-up *)
Fixpoint wait_reset (n : nat) (a : Z) : M X H unit :=
  match n with
  | O => fun _ => None
  | S n' => v ← mmio_read 8 a; if v =? VIRTIO_STATUS_RESET then mret () else wait_reset n' a
  end.
(** [status |= bit] on the status register *)
Definition set_status (base bit : Z) : M X H unit :=
  s ← mmio_read 8 (base + VIRTIO_COMMON_STATUS); mmio_write (8, base + VIRTIO_COMMON_STATUS, s .| bit).

(** [virtqueue_setup] on queue [q], with its reads; false is EERROR. *)
Definition setup_queue (q : Z) : M X H bool :=
  d ← get_dev;
  let c := caps d in
  let base := Pci.common_cfg c in
  let setup max_size noff := virtqueue_setup base q max_size noff (Pci.notify_base c) (Pci.notify_off_multiplier c) (queue q d) in
  _ ← mmio_writes (setup 0 0).1;
  max_size ← mmio_read 16 (base + VIRTIO_COMMON_Q_SIZE);
  if max_size =? 0 then mret false
  else
    let ws := drop 2 (setup max_size 0).1 in
    _ ← mmio_writes (removelast ws);
    noff ← mmio_read 16 (base + VIRTIO_COMMON_Q_NOFF);
    match (setup max_size noff).2 with
    | None => mret false
    | Some v => _ ← upd_dev (set_queue q v); _ ← mmio_writes (drop (length ws - 1) ws); mret true
    end.
Fixpoint setup_queues (qs : list Z) : M X H bool :=
  match qs with
  | [] => mret true
  | q :: qs' => ok ← setup_queue q; if ok : bool then setup_queues qs' else mret false
  end.

(** Finding the function and preparing it; false when a step fails. *)
Definition probe (device_id : Z) : M X H bool := fun w =>
  match Pci.pci_find_device VIRTIO_VENDOR_ID device_id (bus w) with
  | (_, None) => Some (false, w)
  | (_, Some p) =>
      let w := MkW (ext w) (bus w) (MkDev p (caps (dev w)) (vq0 (dev w)) (vq1 (dev w))) (ram w) (hw w) in
      if negb (Pci.pci_get_header_type p (hw w) .& 0x7F =? 0) then Some (false, w)
      else
        let '(p, b, h) := Pci.pci_assign_bars p (bus w) (hw w) in
        let h := Pci.pci_enable_device p h in
        c ← Pci.virtio_parse_capabilities 255 p (caps (dev w)) h;
        Some (true, MkW (ext w) b (MkDev p c (vq0 (dev w)) (vq1 (dev w))) (ram w) h)
  end.
(** From the reset to DRIVER_OK, with the queues [qs]. *)
Definition bringup (qs : list Z) : M X H bool :=
  d ← get_dev;
  let base := Pci.common_cfg (caps d) in
  _ ← mmio_write (8, base + VIRTIO_COMMON_STATUS, VIRTIO_STATUS_RESET);
  _ ← wait_reset vh_patience (base + VIRTIO_COMMON_STATUS);
  _ ← set_status base VIRTIO_STATUS_ACKNOWLEDGE;
  _ ← set_status base VIRTIO_STATUS_DRIVER;
  _ ← mmio_write (32, base + VIRTIO_COMMON_DFSELECT, 0);
  feat_lo ← mmio_read 32 (base + VIRTIO_COMMON_DF);
  _ ← mmio_write (32, base + VIRTIO_COMMON_DFSELECT, 1);
  feat_hi ← mmio_read 32 (base + VIRTIO_COMMON_DF);
  _ ← mmio_write (32, base + VIRTIO_COMMON_GFSELECT, 0);
  _ ← mmio_write (32, base + VIRTIO_COMMON_GF, 0);
  _ ← mmio_write (32, base + VIRTIO_COMMON_GFSELECT, 1);
  _ ← mmio_write (32, base + VIRTIO_COMMON_GF, feat_hi .& 0x01);
  _ ← set_status base VIRTIO_STATUS_FEATURES_OK;
  s ← mmio_read 8 (base + VIRTIO_COMMON_STATUS);
  if negb (test_mask s VIRTIO_STATUS_FEATURES_OK) then mret false
  else
    ok ← setup_queues qs;
    if negb ok then mret false
    else _ ← set_status base VIRTIO_STATUS_DRIVER_OK; mret true.

(** ** One buffer *)

(** What the device does between two looks at queue [q]. *)
Definition tick (q : Z) : M X H unit := fun w =>
  let '(h, v, m) := vh_run (hw w) q (queue q (dev w)) (ram w) in
  Some ((), MkW (ext w) (bus w) (set_queue q v (dev w)) m h).
(** [virtqueue_poll] *)
Fixpoint poll (spins : nat) (q : Z) : M X H Z :=
  match spins with
  | O => mret 0
  | S n =>
      _ ← tick q; d ← get_dev;
      match virtqueue_get_used (queue q d) with
      | (Some (_, written), v) => _ ← upd_dev (set_queue q v); mret written
      | (None, v) => _ ← upd_dev (set_queue q v); poll n q
      end
  end.
(** [virtqueue_submit], [virtqueue_notify], [virtqueue_poll]. *)
Definition exchange (q buf len fl : Z) : M X H unit :=
  d ← get_dev;
  let v := (virtqueue_submit (VIRT_TO_PHYS buf) len fl (queue q d)).2 in
  _ ← upd_dev (set_queue q v);
  _ ← mmio_writes (virtqueue_notify v);
  _ ← poll (Z.to_nat VIRTQUEUE_POLL_MAX_SPINS) q;
  mret ().

(** ** Entropy *)
Fixpoint rng_loop (fuel : nat) (dst done count : Z) : M X H Z :=
  match fuel with
  | O => mret (s32 done)
  | S n =>
      if done <? count then
        let chunk := if RNG_BUF_SIZE <? count - done then RNG_BUF_SIZE else count - done in
        _ ← exchange 0 rng_buf chunk VIRTQ_DESC_F_WRITE;
        _ ← upd_ram (Strings.copy_up (Z.to_nat chunk) 0 (dst + done) rng_buf);
        rng_loop n dst (u32 (done + chunk)) count
      else mret (s32 done)
  end.
Definition rng_read (dst count : Z) : M X H Z := rng_loop (S (Z.to_nat count)) dst 0 count.
Definition pci_virtio_rng_init : M X H unit :=
  found ← probe VIRTIO_RNG_DEVICE_ID;
  if negb found then mret () else _ ← bringup [0]; mret ().

(** ** Console *)
Fixpoint vcons_loop (fuel : nat) (src done len : Z) : M X H Z :=
  match fuel with
  | O => mret (s32 done)
  | S n =>
      if done <? len then
        let chunk := if CONSOLE_TX_BUF <? len - done then CONSOLE_TX_BUF else len - done in
        _ ← upd_ram (Strings.memcpy tx_buf (src + done) chunk);
        _ ← exchange VIRTIO_CONSOLE_VQ_TX tx_buf chunk VIRTQ_DESC_F_NONE;
        vcons_loop n src (u32 (done + chunk)) len
      else mret (s32 done)
  end.
(** [con_ready] is an argument. *)
Definition vcons_send (con_ready : bool) (buf len : Z) : M X H Z :=
  if negb con_ready then mret (-1)
  else if len =? 0 then mret 0
  else vcons_loop (S (Z.to_nat len)) buf 0 len.
End ops.

(** The driver state of the console is [con_ready]; [banner] is the address
    of the greeting, 54 bytes. *)
Definition pci_virtio_console_init {H} `{VirtHw H} `{VLayout} (banner : Z) : M bool H unit :=
  found ← probe VIRTIO_CONSOLE_DEVICE_ID;
  if negb found then mret ()
  else
    ok ← bringup [VIRTIO_CONSOLE_VQ_RX; VIRTIO_CONSOLE_VQ_TX];
    if negb ok then mret ()
    else _ ← upd_ext (fun _ => true); r ← get_ext; _ ← vcons_send r banner 54; mret ().

(** ** Balloon *)
Record balloon (S : Type) := MkBln { bln_ready : bool; actual : Z; inflated_pfns : list Z; pmm : S }.
Arguments MkBln {S}. Arguments bln_ready {S}. Arguments actual {S}. Arguments inflated_pfns {S}. Arguments pmm {S}.

Section balloon.
Context {S H : Type} `{VirtHw H} `{VLayout} `{PageAllocator S}.
Implicit Types b : balloon S.
Definition set_actual (v : Z) b : balloon S := MkBln (bln_ready b) v (inflated_pfns b) (pmm b).

Definition submit_pfn_batch (q count : Z) : M (balloon S) H Z :=
  if count =? 0 then mret 0
  else _ ← exchange q pfn_buf (u32 (count * 4)) VIRTQ_DESC_F_NONE; mret 0.
Definition publish_actual : M (balloon S) H unit :=
  d ← get_dev; b ← get_ext;
  let cfg := Pci.device_cfg (caps d) in
  if cfg =? 0 then mret () else mmio_write (32, cfg + VIRTIO_BALLOON_CFG_ACTUAL, actual b).

(** The allocation loop: [got] pages so far. *)
Fixpoint inflate_loop (n : nat) (got : Z) : M (balloon S) H Z :=
  match n with
  | O => mret got
  | Datatypes.S n' =>
      b ← get_ext;
      let '(pa, s) := pa_alloc_page (pmm b) in
      _ ← upd_ext (fun b => MkBln (bln_ready b) (actual b) (inflated_pfns b) s);
      if pa =? 0 then mret got
      else
        let pfn := u32 (pa >>> VIRTIO_BALLOON_PFN_SHIFT) in
        _ ← upd_ram (st_le 4 (pfn_buf + 4 * got) pfn);
        _ ← upd_ext (fun b => MkBln (bln_ready b) (actual b) (wr (inflated_pfns b) (actual b + got) pfn) (pmm b));
        inflate_loop n' (got + 1)
  end.
(** Freeing the pages of the staging buffer. *)
Fixpoint release_loop (n : nat) (i : Z) : M (balloon S) H unit :=
  match n with
  | O => mret ()
  | Datatypes.S n' =>
      m ← get_ram;
      _ ← upd_ext (fun b => MkBln (bln_ready b) (actual b) (inflated_pfns b)
                              (pa_free_page (ld_le 4 (pfn_buf + 4 * i) m <<< VIRTIO_BALLOON_PFN_SHIFT) (pmm b)));
      release_loop n' (i + 1)
  end.
Definition balloon_inflate (n : Z) : M (balloon S) H Z :=
  b ← get_ext;
  if negb (bln_ready b) then mret (-1)
  else
    let headroom := u32 (VIRTIO_BALLOON_MAX_PAGES - actual b) in
    let n := if headroom <? n then headroom else n in
    if n =? 0 then mret 0
    else
      got ← inflate_loop (Z.to_nat n) 0;
      if got =? 0 then mret 0
      else
        r ← submit_pfn_batch VIRTIO_BALLOON_VQ_INFLATE got;
        if r <? 0 then _ ← release_loop (Z.to_nat got) 0; mret (-1)
        else
          _ ← upd_ext (fun b => set_actual (u32 (actual b + got)) b);
          _ ← publish_actual;
          mret (s32 got).
Fixpoint stage_loop (n : nat) (i base : Z) : M (balloon S) H unit :=
  match n with
  | O => mret ()
  | Datatypes.S n' =>
      b ← get_ext;
      _ ← upd_ram (st_le 4 (pfn_buf + 4 * i) (rd (inflated_pfns b) (base + i)));
      stage_loop n' (i + 1) base
  end.
Definition balloon_deflate (n : Z) : M (balloon S) H Z :=
  b ← get_ext;
  if negb (bln_ready b) then mret (-1)
  else
    let n := if actual b <? n then actual b else n in
    if n =? 0 then mret 0
    else
      let base := u32 (actual b - n) in
      _ ← stage_loop (Z.to_nat n) 0 base;
      r ← submit_pfn_batch VIRTIO_BALLOON_VQ_DEFLATE n;
      if r <? 0 then mret (-1)
      else
        _ ← release_loop (Z.to_nat n) 0;
        _ ← upd_ext (fun b => set_actual (u32 (actual b - n)) b);
        _ ← publish_actual;
        mret (s32 n).
(** Both results of [balloon_get_status]. *)
Definition balloon_get_status : M (balloon S) H (Z * Z) :=
  b ← get_ext; d ← get_dev;
  let a := if bln_ready b then actual b else 0 in
  if negb (bln_ready b) || (Pci.device_cfg (caps d) =? 0) then mret (a, 0)
  else t ← mmio_read 32 (Pci.device_cfg (caps d) + VIRTIO_BALLOON_CFG_NUM_PAGES); mret (a, t).

Definition pci_virtio_balloon_init : M (balloon S) H unit :=
  found ← probe VIRTIO_BALLOON_DEVICE_ID;
  if negb found then mret ()
  else
    ok ← bringup [VIRTIO_BALLOON_VQ_INFLATE; VIRTIO_BALLOON_VQ_DEFLATE];
    if negb ok then mret ()
    else
      _ ← upd_ext (fun b => set_actual 0 b);
      _ ← publish_actual;
      _ ← upd_ext (fun b => MkBln true (actual b) (inflated_pfns b) (pmm b));
      d ← get_dev;
      _ ← mmio_read 32 (Pci.device_cfg (caps d) + VIRTIO_BALLOON_CFG_NUM_PAGES);
      mret ().
End balloon.

(** ** The device between two requests

    What the drivers rely on: rung by the doorbell, the device takes the
    requests of the available ring in order and completes each within
    [vh_latency] looks.  [vh_serve] is what one request does to the device,
    whose own state is [D], and to memory. *)
Class VirtHwOk (H D : Type) `{VirtHw H} := {
  vh_obs : H -> D;
  vh_bell : H -> Z -> Z;
  vh_seen : H -> Z -> Z;
  vh_delay : H -> nat;
  vh_latency : nat;
  vh_serve : D -> Z -> list virtq_seg -> mem -> D * Z * mem;
  vh_kept h h' := (forall q, vh_bell h' q = vh_bell h q) /\ vh_obs h' = vh_obs h /\ forall q, vh_seen h' q = vh_seen h q;
  vh_ring_law h q : let h' := vh_write (16, vh_bell h q, 0) h in vh_kept h h' /\ (vh_delay h' <= vh_latency)%nat;
  (** other registers have no effect on the queues *)
  vh_write_law h x : (forall q, x.1.2 <> vh_bell h q) -> vh_kept h (vh_write x h);
  (** nothing to do, or not yet done *)
  vh_idle_law h q v m h' v' m' :
    vh_run h q v m = (h', v', m') -> vh_seen h q = avail_idx v \/ vh_delay h <> 0%nat ->
    v' = v /\ m' = m /\ vh_kept h h' /\ (vh_seen h q <> avail_idx v -> vh_delay h = S (vh_delay h'));
  (** the next request is carried out and put on the used ring *)
  vh_serve_law h q v m h' v' m' :
    let head := rd (avail_ring v) (vh_seen h q mod size v) in
    let '(o, len, m1) := vh_serve (vh_obs h) q (read_chain (Z.to_nat (size v)) v head) m in
    vh_run h q v m = (h', v', m') -> vh_seen h q <> avail_idx v -> vh_delay h = 0%nat ->
    v' = device_complete head len v /\ vh_obs h' = o /\ (forall a, m' a = m1 a) /\
    (forall q', vh_bell h' q' = vh_bell h q') /\ vh_seen h' q = u16 (vh_seen h q + 1) /\
    (forall q', q' <> q -> vh_seen h' q' = vh_seen h q')
}.

Lemma queue_set q v d : queue q (set_queue q v d) = v.
Proof. unfold queue, set_queue. by destruct (q =? 0). Qed.
Lemma set_queue_set q v v' d : set_queue q v (set_queue q v' d) = set_queue q v d.
Proof. unfold set_queue. by destruct (q =? 0). Qed.
Lemma set_queue_id q d : set_queue q (queue q d) d = d.
Proof. unfold queue, set_queue. destruct d. by destruct (q =? 0). Qed.
Lemma set_queue_other q q' v d : (q =? 0) <> (q' =? 0) -> queue q' (set_queue q v d) = queue q' d.
Proof. unfold queue, set_queue. by destruct (q =? 0), (q' =? 0). Qed.
Lemma set_queue_caps q v d : caps (set_queue q v d) = caps d /\ pci_of (set_queue q v d) = pci_of d.
Proof. unfold set_queue. by destruct (q =? 0). Qed.

Section driver.
Context {X H D : Type} `{VirtHwOk H D}.
Implicit Types w : world X H.

Definition served w (q : Z) (segs : list virtq_seg) : D * Z * mem := vh_serve (vh_obs (hw w)) q segs (ram w).
Record posted w (q free head : Z) (segs : list virtq_seg) : Prop := {
  po_repr : repr (queue q (dev w)) (MkA free [(head, segs)] []);
  po_head : rd (avail_ring (queue q (dev w))) (vh_seen (hw w) q mod size (queue q (dev w))) = head;
  po_new : vh_seen (hw w) q <> avail_idx (queue q (dev w));
  po_next : u16 (vh_seen (hw w) q + 1) = avail_idx (queue q (dev w))
}.
Definition kept w0 w : Prop := ext w = ext w0 /\ bus w = bus w0 /\ vh_kept (hw w0) (hw w).
(** The device has carried the request out; the driver has not looked yet. *)
Definition finished w0 w (q head : Z) (segs : list virtq_seg) : Prop :=
  (exists len, dev w = set_queue q (device_complete head len (queue q (dev w0))) (dev w0)) /\ ext w = ext w0 /\ bus w = bus w0 /\
  vh_obs (hw w) = (served w0 q segs).1.1 /\ (forall a, ram w a = (served w0 q segs).2 a) /\
  (forall q', vh_bell (hw w) q' = vh_bell (hw w0) q') /\ vh_seen (hw w) q = u16 (vh_seen (hw w0) q + 1) /\
  (forall q', q' <> q -> vh_seen (hw w) q' = vh_seen (hw w0) q').
Definition phase w0 (n : nat) w (q head : Z) (segs : list virtq_seg) : Prop :=
  (dev w = dev w0 /\ ram w = ram w0 /\ kept w0 w /\ vh_delay (hw w) = n) \/ finished w0 w q head segs.

Lemma vh_kept_trans (h1 h2 h3 : H) : vh_kept h1 h2 -> vh_kept h2 h3 -> vh_kept h1 h3.
Proof. intros (Hb1 & Ho1 & Hs1) (Hb2 & Ho2 & Hs2). split; [|split]; intros; congruence. Qed.

Lemma vd_tick_phase w0 q free head segs n w :
  posted w0 q free head segs -> phase w0 n w q head segs ->
  exists w', tick q w = Some ((), w') /\
    match n with O => finished w0 w' q head segs | S n' => phase w0 n' w' q head segs end.
Proof.
  intros [Hre Hhd Hnew Hnext] Hph. unfold tick. destruct (vh_run (hw w) q (queue q (dev w)) (ram w)) as [[h v] m] eqn:Hr.
  eexists. split; [reflexivity|]. destruct Hph as [(Hd & Hm & (Hex & Hbu & Hk) & Hdl)|Hfin].
  - rewrite Hd, Hm in Hr. rewrite Hd, Hex, Hbu. pose proof Hk as (Hbl & Hob & Hsn). destruct n as [|n].
    + pose proof (vh_serve_law (hw w) q (queue q (dev w0)) (ram w0) h v m) as Hs. cbv zeta in Hs.
      rewrite (Hsn q), Hhd, (Blk.flight_chain _ _ _ _ _ Hre), Hob in Hs. fold (served w0 q segs) in Hs. unfold finished.
      destruct (served w0 q segs) as [[o len] m1]. destruct (Hs Hr Hnew Hdl) as (-> & Ho' & Hm' & Hb' & Hs' & Hs2).
      cbn [dev ext bus hw ram fst snd]. split; [by exists len|]. repeat (split; [done|]). split; [intros q'; by rewrite Hb'|].
      split; [done|]. intros q' Hq'. by rewrite Hs2.
    + destruct (vh_idle_law _ _ _ _ _ _ _ Hr) as (-> & -> & Hk' & Hn'); [right; by rewrite Hdl|].
      left. cbn [dev ram hw]. rewrite set_queue_id. split; [done|]. split; [done|]. split; [split; [done|split; [done|by eapply vh_kept_trans]]|].
      assert (vh_delay (hw w) = S (vh_delay h)) by (apply Hn'; by rewrite Hsn). congruence.
  - assert (finished w0 (MkW (ext w) (bus w) (set_queue q v (dev w)) m h) q head segs) as Hf.
    { destruct Hfin as ((len & Hd) & Hex & Hbu & Hob & Hm & Hbl & Hsn & Hso). rewrite Hd in Hr. rewrite queue_set in Hr.
      destruct (vh_idle_law _ _ _ _ _ _ _ Hr) as (-> & -> & (Hk1 & Hk2 & Hk3) & _).
      { left. rewrite Hsn, Hnext. done. }
      unfold finished. cbn [dev ext bus hw ram]. rewrite Hd, set_queue_set. split; [by exists len|]. split; [done|]. split; [done|].
      split; [congruence|]. split; [done|]. split; [intros q'; by rewrite Hk1|]. split; [by rewrite Hk3|].
      intros q' Hq'. rewrite Hk3. auto. }
    destruct n; [done|by right].
Qed.

(** Polling until the request is finished, and collecting it. *)
Definition collected w0 w (q free : Z) (segs : list virtq_seg) : Prop :=
  (exists v, dev w = set_queue q v (dev w0) /\ repr v (MkA (free + Z.of_nat (length segs)) [] []) /\
     size v = size (queue q (dev w0)) /\ notify_addr v = notify_addr (queue q (dev w0)) /\ avail_idx v = avail_idx (queue q (dev w0))) /\
  ext w = ext w0 /\ bus w = bus w0 /\
  vh_obs (hw w) = (served w0 q segs).1.1 /\ (forall a, ram w a = (served w0 q segs).2 a) /\
  (forall q', vh_bell (hw w) q' = vh_bell (hw w0) q') /\ vh_seen (hw w) q = u16 (vh_seen (hw w0) q + 1) /\
  (forall q', q' <> q -> vh_seen (hw w) q' = vh_seen (hw w0) q').
Lemma collect w0 q free head segs w :
  posted w0 q free head segs -> finished w0 w q head segs ->
  exists len v, virtqueue_get_used (queue q (dev w)) = (Some (head, len), v) /\
    collected w0 (MkW (ext w) (bus w) (set_queue q v (dev w)) (ram w) (hw w)) q free segs.
Proof.
  intros [Hre _ _ _] ((len & Hd) & Hrest). rewrite Hd, queue_set.
  pose proof (device_sim _ _ head len Hre ltac:(left) ltac:(apply not_elem_of_nil)) as Hre'.
  pose proof (get_used_sim _ _ Hre') as Hg. cbn [a_done app] in Hg. destruct Hg as (v & f1 & sg & f2 & Hg & Hfl & Hrv).
  pose proof (Blk.get_used_size (device_complete head len (queue q (dev w0)))) as Hsz. rewrite Hg in Hsz. cbn [snd] in Hsz.
  cbn [a_flight] in Hfl. destruct f1 as [|? f1]; [|destruct f1; done]. injection Hfl as <- <-. cbn [app] in Hrv.
  exists len, v. split; [done|]. split; [|exact Hrest]. exists v. cbn [dev]. rewrite set_queue_set. split; [done|]. split; [exact Hrv|exact Hsz].
Qed.
Lemma poll_ok spins w0 q free head segs n w :
  posted w0 q free head segs -> phase w0 n w q head segs -> (n < spins)%nat ->
  exists len w', poll spins q w = Some (len, w') /\ collected w0 w' q free segs.
Proof.
  intros Hpo. revert n w. induction spins as [|spins IH]; intros n w Hph Hn; [lia|]. cbn [poll].
  unfold mbind, M_bind. destruct (vd_tick_phase _ _ _ _ _ n w Hpo Hph) as (w1 & -> & Hw1). unfold get_dev.
  assert ((exists n', phase w0 n' w1 q head segs /\ (n' < spins)%nat) \/ finished w0 w1 q head segs) as Hcase.
  { destruct n as [|n]; [by right|left; exists n; split; [done|lia]]. }
  assert (finished w0 w1 q head segs \/ exists n', (dev w1 = dev w0 /\ phase w0 n' w1 q head segs) /\ (n' < spins)%nat) as [Hf|(n' & [Hd Hp] & Hlt)].
  { destruct Hcase as [(n' & [Hp|Hf] & Hlt)|Hf]; [right|by left..]. exists n'. split; [|done]. split; [apply Hp|by left]. }
  - destruct (collect _ _ _ _ _ _ Hpo Hf) as (len & v & -> & Hc). unfold upd_dev, mret, M_ret. eauto.
  - pose proof (get_used_sim _ _ (po_repr _ _ _ _ _ Hpo)) as Hg. cbn [a_done] in Hg. rewrite Hd, Hg. unfold upd_dev.
    rewrite Hd, set_queue_id. apply (IH n'); [|done]. rewrite <- Hd. destruct w1. done.
Qed.

(** Queue [q] is ready for a request. *)
Record idle w (q : Z) : Prop := {
  id_repr : repr (queue q (dev w)) (MkA (size (queue q (dev w))) [] []);
  id_seen : vh_seen (hw w) q = avail_idx (queue q (dev w));
  id_avail : 0 <= avail_idx (queue q (dev w)) < 65536;
  id_bell : notify_addr (queue q (dev w)) = vh_bell (hw w) q
}.
(** One request has been carried out on queue [q]. *)
Record exchanged w w' (q : Z) (segs : list virtq_seg) : Prop := {
  ex_ext : ext w' = ext w;
  ex_bus : bus w' = bus w;
  ex_caps : caps (dev w') = caps (dev w) /\ pci_of (dev w') = pci_of (dev w);
  ex_obs : vh_obs (hw w') = (served w q segs).1.1;
  ex_ram a : ram w' a = (served w q segs).2 a;
  ex_bell q' : vh_bell (hw w') q' = vh_bell (hw w) q';
  ex_idle : idle w' q;
  ex_other q' : (q =? 0) <> (q' =? 0) -> idle w q' -> idle w' q'
}.
Lemma exchange_ok q buf len fl w :
  idle w q -> fl = VIRTQ_DESC_F_NONE \/ fl = VIRTQ_DESC_F_WRITE -> Z.of_nat vh_latency < VIRTQUEUE_POLL_MAX_SPINS ->
  exists w', exchange q buf len fl w = Some ((), w') /\ exchanged w w' q [MkSeg (VIRT_TO_PHYS buf) len fl].
Proof.
  intros Hid Hfl Hlat. assert (seg_ok (MkSeg (VIRT_TO_PHYS buf) len fl)) as Hseg by (by destruct Hfl as [-> | ->]). pose proof Hid as [Hre Hseen Hav Hbell]. set (segs := [MkSeg (VIRT_TO_PHYS buf) len fl]).
  unfold exchange, mbind, M_bind, get_dev.
  assert (virtqueue_submit (VIRT_TO_PHYS buf) len fl (queue q (dev w)) = virtqueue_submit_chain segs (queue q (dev w))) as ->.
  { destruct Hre as (fr & chains & Hi & _). rewrite submit_as_chain by (by eapply inv_head). unfold segs. by destruct Hfl as [-> | ->]. }
  pose proof (submit_chain_sim _ _ segs Hre ltac:(by constructor)) as Hsub. pose proof (Blk.submit_size segs (queue q (dev w))) as [Hsz Hna].
  pose proof (Blk.repr_size _ _ Hre) as Hsize. destruct (virtqueue_submit_chain segs (queue q (dev w))) as [h v].
  cbn [snd a_free a_flight a_done] in *. destruct Hsub as [([Hx|Hx] & _)|(_ & _ & _ & Hh & Hring & Hidx & Hrv)]; [done|cbn in Hx; lia|].
  unfold upd_dev, virtqueue_notify. cbn [mmio_writes]. unfold mbind, M_bind, mmio_write, mret, M_ret. cbn [ext bus dev ram hw].
  rewrite Hna, Hbell. destruct (vh_ring_law (hw w) q) as [(Hb1 & Ho1 & Hs1) Hdl]. set (h1 := vh_write _ (hw w)) in *.
  set (w1 := MkW (ext w) (bus w) (set_queue q v (dev w)) (ram w) h1).
  assert (posted w1 q (size (queue q (dev w)) - Z.of_nat (length segs)) h segs) as Hpo.
  { constructor; cbn [w1 dev hw]; rewrite queue_set; [done|by rewrite Hs1, Hseen, Hsz|rewrite Hs1, Hseen, Hidx|by rewrite Hs1, Hseen, Hidx].
    unfold u16, wrap. dlia. }
  assert (phase w1 (vh_delay h1) w1 q h segs) as Hph by (left; done).
  destruct (poll_ok (Z.to_nat VIRTQUEUE_POLL_MAX_SPINS) w1 q _ h segs _ w1 Hpo Hph ltac:(lia)) as (n & w2 & Hp & Hc).
  rewrite Hp. exists w2. split; [done|]. destruct Hc as ((v2 & Hd2 & Hr2 & Hz2 & Hn2 & Ha2) & He & Hbu & Hob & Hm & Hbl & Hsn & Hso).
  assert (served w1 q segs = served w q segs) as Hsv by (unfold served; cbn [w1 hw ram]; by rewrite Ho1).
  cbn [w1 dev hw ext bus] in *. rewrite queue_set in *. rewrite set_queue_set in Hd2. rewrite Hsv in *.
  constructor; [done|done|rewrite Hd2; apply set_queue_caps|done|done|intros q'; by rewrite Hbl, Hb1| |].
  - rewrite Z.sub_add in Hr2. constructor; rewrite Hd2, queue_set; [by rewrite Hz2, Hsz| | |].
    + by rewrite Hsn, Hs1, Hseen, Ha2, Hidx.
    + rewrite Ha2, Hidx. apply u16_range.
    + by rewrite Hn2, Hna, Hbell, Hbl, Hb1.
  - intros q' Hq' [Hre' Hseen' Hav' Hbell']. assert (q' <> q) by congruence.
    constructor; rewrite Hd2, set_queue_other by done; [done| |done|]; [by rewrite Hso, Hs1|by rewrite Hbl, Hb1].
Qed.
End driver.

Lemma s32_nonneg x : 0 <= x < 2 ^ 31 -> s32 x = x.
Proof. intros Hx. unfold s32, to_signed. rewrite wrap_small by lia. change (32 - 1) with 31. by rewrite (proj2 (Z.ltb_lt x (2 ^ 31))) by lia. Qed.
Lemma rd_fmap_seqZ (f : Z -> Z) o n i : 0 <= i < n -> rd (f <$> seqZ o n) i = f (o + i).
Proof.
  intros Hi. unfold rd. rewrite nth_lookup, list_lookup_fmap, lookup_seqZ_lt by lia. cbn. f_equal. lia.
Qed.
Lemma load_buf_app a n k m : 0 <= n -> 0 <= k -> load_buf a (n + k) m = load_buf a n m ++ load_buf (a + n) k m.
Proof.
  intros Hn Hk. unfold load_buf. rewrite seqZ_app by lia. rewrite fmap_app. f_equal.
  apply list_eq. intros i. rewrite !list_lookup_fmap. destruct (decide (Z.of_nat i < k)).
  - rewrite !lookup_seqZ_lt by lia. cbn. do 2 f_equal. lia.
  - by rewrite !lookup_seqZ_ge by lia.
Qed.
(** [n] bytes at [a] and [k] bytes at [b] do not meet. *)
Definition away (a n b k : Z) : Prop := a + n <= b \/ b + k <= a.
Definition in_kernel (a n : Z) : Prop := Blk.OFF <= a /\ a + n <= 2 ^ 64.

(** ** Entropy: a stream, of which no byte is used twice *)
Section entropy.
Context {X H : Type} `{VirtHwOk H Z} `{VLayout} (stream : Z -> Z).
Implicit Types w : world X H.
(** The device fills the buffer from its stream; its state is the position. *)
Definition entropy_device : Prop := forall o p n m, 0 < n ->
  vh_serve o 0 [MkSeg p n VIRTQ_DESC_F_WRITE] m = (o + n, n, store_buf (PHYS_TO_VIRT p) (stream <$> seqZ o n) m).
Context (Hdev : entropy_device) (Hlat : Z.of_nat vh_latency < VIRTQUEUE_POLL_MAX_SPINS) (Hbuf : in_kernel rng_buf RNG_BUF_SIZE).

Definition delivered w w' (dst n : Z) : Prop :=
  vh_obs (hw w') = vh_obs (hw w) + n /\ idle w' 0 /\ ext w' = ext w /\
  forall a, ~ (rng_buf <= a < rng_buf + RNG_BUF_SIZE) ->
    ram w' a = if (dst <=? a) && (a <? dst + n) then stream (vh_obs (hw w) + (a - dst)) else ram w a.
Lemma rng_chunk w dst n : idle w 0 -> 0 < n <= RNG_BUF_SIZE -> away dst n rng_buf RNG_BUF_SIZE ->
  exists w1 w', exchange 0 rng_buf n VIRTQ_DESC_F_WRITE w = Some ((), w1) /\
    upd_ram (Strings.copy_up (Z.to_nat n) 0 dst rng_buf) w1 = Some ((), w') /\ delivered w w' dst n.
Proof.
  intros Hid Hn Haw. destruct (exchange_ok 0 rng_buf n VIRTQ_DESC_F_WRITE w Hid) as (w1 & He & Hx); [by right|done|].
  exists w1. eexists. split; [done|]. split; [reflexivity|]. destruct Hx as [Hex Hbus Hcaps Hobs Hram Hbell Hidle _].
  unfold served in Hobs, Hram. rewrite Hdev in Hobs, Hram by lia. cbn [fst snd] in Hobs, Hram. destruct Hbuf as [Hb1 Hb2].
  unfold RNG_BUF_SIZE in *. rewrite Blk.virt_phys in Hram by lia. unfold away in Haw.
  split; [done|]. split; [by destruct Hidle|]. split; [done|]. intros a Ha. unfold RNG_BUF_SIZE in Ha. cbn [ram hw].
  rewrite Strings.copy_up_spec by lia. rewrite Z.add_0_r, Z2Nat.id by lia. case_if.
  - rewrite Hram. unfold store_buf. rewrite length_fmap, length_seqZ, Z2Nat.id by lia.
    case_if; [|lia]. rewrite rd_fmap_seqZ by lia. f_equal. lia.
  - rewrite Hram. unfold store_buf. rewrite length_fmap, length_seqZ, Z2Nat.id by lia. case_if; [lia|done].
Qed.
Lemma rng_loop_ok fuel dst done count w : idle w 0 -> 0 <= done <= count -> count < 2 ^ 31 -> count - done < Z.of_nat fuel ->
  away dst count rng_buf RNG_BUF_SIZE ->
  exists w', rng_loop fuel dst done count w = Some (count, w') /\ delivered w w' (dst + done) (count - done).
Proof.
  revert done w. induction fuel as [|fuel IH]; intros done w Hid Hd Hc Hf Haw; [lia|]. cbn [rng_loop].
  destruct (Z.ltb_spec done count) as [Hlt|Hge].
  2:{ exists w. replace done with count by lia. unfold mret, M_ret. rewrite s32_nonneg by lia.
      split; [done|]. split; [lia|]. split; [done|]. split; [done|]. intros a Ha. case_if; [lia|done]. }
  set (chunk := if RNG_BUF_SIZE <? count - done then RNG_BUF_SIZE else count - done).
  assert (Hch : 0 < chunk <= RNG_BUF_SIZE /\ chunk <= count - done).
  { unfold chunk, RNG_BUF_SIZE. destruct (Z.ltb_spec 256 (count - done)); lia. }
  clearbody chunk. destruct (rng_chunk w (dst + done) chunk Hid ltac:(lia)) as (w1 & w2 & He & Hu & Hd2).
  { unfold away in *. lia. }
  unfold mbind, M_bind. rewrite He, Hu. destruct Hd2 as (Ho2 & Hi2 & Hx2 & Hm2). rewrite u32_small by lia.
  destruct (IH (done + chunk) w2 Hi2) as (w3 & Hl & Ho3 & Hi3 & Hx3 & Hm3); [lia..|done|].
  exists w3. split; [done|]. split; [lia|]. split; [done|]. split; [congruence|].
  intros a Ha. rewrite Hm3, Hm2 by done. rewrite Ho2. repeat case_if; try lia; try done. f_equal. lia.
Qed.
(** Reading [count] bytes of entropy takes the next [count] bytes of the
    stream, in order and each of them once, whatever the number of requests
    it takes, and writes nothing but the caller's buffer and [rng_buf]. *)
Theorem rng_read_correct dst count w :
  idle w 0 -> 0 <= count < 2 ^ 31 -> away dst count rng_buf RNG_BUF_SIZE ->
  exists w', rng_read dst count w = Some (count, w') /\ delivered w w' dst count.
Proof.
  intros Hid Hc Haw. destruct (rng_loop_ok (S (Z.to_nat count)) dst 0 count w) as (w' & Hl & Hd); [done|lia|lia|lia|done|].
  exists w'. split; [done|]. by rewrite Z.add_0_r, Z.sub_0_r in Hd.
Qed.
End entropy.

(** ** Console: the host sees the bytes that were written *)
Section console.
Context {X H : Type} `{VirtHwOk H (list Z)} `{VLayout}.
Implicit Types w : world X H.
(** The device appends the buffer to its log. *)
Definition console_device : Prop := forall o p n m, 0 < n ->
  vh_serve o VIRTIO_CONSOLE_VQ_TX [MkSeg p n VIRTQ_DESC_F_NONE] m = (o ++ load_buf (PHYS_TO_VIRT p) n m, 0, m).
Context (Hdev : console_device) (Hlat : Z.of_nat vh_latency < VIRTQUEUE_POLL_MAX_SPINS) (Hbuf : in_kernel tx_buf CONSOLE_TX_BUF).

Definition logged w w' (src n : Z) : Prop :=
  vh_obs (hw w') = vh_obs (hw w) ++ load_buf src n (ram w) /\ idle w' VIRTIO_CONSOLE_VQ_TX /\ ext w' = ext w /\
  forall a, ~ (tx_buf <= a < tx_buf + CONSOLE_TX_BUF) -> ram w' a = ram w a.
Lemma vcons_chunk w src n : idle w VIRTIO_CONSOLE_VQ_TX -> 0 < n <= CONSOLE_TX_BUF -> away src n tx_buf CONSOLE_TX_BUF ->
  exists w1 w', upd_ram (Strings.memcpy tx_buf src n) w = Some ((), w1) /\
    exchange VIRTIO_CONSOLE_VQ_TX tx_buf n VIRTQ_DESC_F_NONE w1 = Some ((), w') /\ logged w w' src n.
Proof.
  intros Hid Hn Haw. eexists. unfold upd_ram at 1. set (w1 := MkW _ _ _ _ _).
  assert (Hid1 : idle w1 VIRTIO_CONSOLE_VQ_TX) by (by destruct Hid).
  destruct (exchange_ok VIRTIO_CONSOLE_VQ_TX tx_buf n VIRTQ_DESC_F_NONE w1 Hid1) as (w2 & He & Hx); [by left|done|].
  exists w2. split; [reflexivity|]. split; [done|]. destruct Hx as [Hex Hbus Hcaps Hobs Hram Hbell Hidle _].
  unfold served in Hobs, Hram. rewrite Hdev in Hobs, Hram by lia. cbn [fst snd w1 hw ram ext] in *. destruct Hbuf as [Hb1 Hb2].
  unfold CONSOLE_TX_BUF in *. rewrite Blk.virt_phys in Hobs by lia. unfold away in Haw.
  assert (Hcp : forall a, Strings.memcpy tx_buf src n (ram w) a = if (tx_buf <=? a) && (a <? tx_buf + n) then ram w (a - tx_buf + src) else ram w a).
  { intros a. unfold Strings.memcpy. rewrite Strings.copy_up_spec by lia. by rewrite Z.add_0_r, Z2Nat.id by lia. }
  split; [|split; [by destruct Hidle|split; [done|]]].
  - rewrite Hobs. f_equal. apply load_buf_ext. intros i Hi. rewrite Hcp. case_if; [f_equal; lia|lia].
  - intros a Ha. unfold CONSOLE_TX_BUF in Ha. rewrite Hram, Hcp. case_if; [lia|done].
Qed.
Lemma vcons_loop_ok fuel src done len w : idle w VIRTIO_CONSOLE_VQ_TX -> 0 <= done <= len -> len < 2 ^ 31 -> len - done < Z.of_nat fuel ->
  away src len tx_buf CONSOLE_TX_BUF ->
  exists w', vcons_loop fuel src done len w = Some (len, w') /\ logged w w' (src + done) (len - done).
Proof.
  revert done w. induction fuel as [|fuel IH]; intros done w Hid Hd Hc Hf Haw; [lia|]. cbn [vcons_loop].
  destruct (Z.ltb_spec done len) as [Hlt|Hge].
  2:{ exists w. replace done with len by lia. unfold mret, M_ret. rewrite s32_nonneg by lia.
      split; [done|]. rewrite Z.sub_diag. split; [by rewrite app_nil_r|done]. }
  set (chunk := if CONSOLE_TX_BUF <? len - done then CONSOLE_TX_BUF else len - done).
  assert (Hch : 0 < chunk <= CONSOLE_TX_BUF /\ chunk <= len - done).
  { unfold chunk, CONSOLE_TX_BUF. destruct (Z.ltb_spec 4096 (len - done)); lia. }
  clearbody chunk. destruct (vcons_chunk w (src + done) chunk Hid ltac:(lia)) as (w1 & w2 & He & Hu & Hd2).
  { unfold away in *. lia. }
  unfold mbind, M_bind. rewrite He, Hu. destruct Hd2 as (Ho2 & Hi2 & Hx2 & Hm2). rewrite u32_small by lia.
  destruct (IH (done + chunk) w2 Hi2) as (w3 & Hl & Ho3 & Hi3 & Hx3 & Hm3); [lia..|done|].
  exists w3. split; [done|]. split; [|split; [done|split; [congruence|]]].
  - rewrite Ho3, Ho2, <- app_assoc. f_equal. replace (len - done) with (chunk + (len - (done + chunk))) by lia.
    rewrite load_buf_app by lia. f_equal. replace (src + done + chunk) with (src + (done + chunk)) by lia. apply load_buf_ext. intros i Hi. apply Hm2. unfold away in Haw. lia.
  - intros a Ha. by rewrite Hm3, Hm2.
Qed.
(** What is sent reaches the host as it is and in order, however it is split,
    and nothing but the staging buffer is written. *)
Theorem vcons_send_correct src len w :
  idle w VIRTIO_CONSOLE_VQ_TX -> 0 <= len < 2 ^ 31 -> away src len tx_buf CONSOLE_TX_BUF ->
  vcons_send false src len w = Some (-1, w) /\
  exists w', vcons_send true src len w = Some (len, w') /\ logged w w' src len.
Proof.
  intros Hid Hc Haw. split; [done|]. unfold vcons_send. cbn [negb]. destruct (Z.eqb_spec len 0) as [->|Hne].
  { exists w. split; [done|]. split; [by rewrite app_nil_r|done]. }
  destruct (vcons_loop_ok (S (Z.to_nat len)) src 0 len w) as (w' & Hl & Hd); [done|lia|lia|lia|done|].
  exists w'. split; [done|]. by rewrite Z.add_0_r, Z.sub_0_r in Hd.
Qed.
End console.

(** ** Balloon: the pages the host holds *)

(** The [n] words at [a]. *)
Definition words (a n : Z) (m : mem) : list Z := (fun i => ld_le 4 (a + 4 * i) m) <$> seqZ 0 n.
Lemma words_snoc a n m : 0 <= n -> words a (n + 1) m = words a n m ++ [ld_le 4 (a + 4 * n) m].
Proof. intros Hn. unfold words. rewrite seqZ_app by lia. rewrite fmap_app. cbn. by rewrite Z.add_0_l. Qed.
Lemma words_ext a n m m' : (forall x, a <= x < a + 4 * n -> m x = m' x) -> words a n m = words a n m'.
Proof.
  intros Hm. unfold words. apply list_fmap_ext. intros i x Hi. apply lookup_seqZ in Hi.
  apply ld_le_ext. intros y Hy. apply Hm. cbn in Hy. lia.
Qed.
Lemma words_store a n v m : 0 <= n -> 0 <= v < 2 ^ 32 -> words a (n + 1) (st_le 4 (a + 4 * n) v m) = words a n m ++ [v].
Proof.
  intros Hn Hv. rewrite words_snoc by done. f_equal; [|by rewrite ld_st_eq].
  apply words_ext. intros x Hx. apply st_le_other. lia.
Qed.
Definition pfn (a : Z) : Z := u32 (a >>> VIRTIO_BALLOON_PFN_SHIFT).
Definition page (p : Z) : Z := p <<< VIRTIO_BALLOON_PFN_SHIFT.
Definition page_ok (a : Z) : Prop := 0 < a < 2 ^ 44 /\ a mod 4096 = 0.
Lemma pfn_val a : page_ok a -> pfn a = a / 4096 /\ 0 <= pfn a < 2 ^ 32 /\ page (pfn a) = a.
Proof.
  intros [Ha Hm]. unfold pfn, page, VIRTIO_BALLOON_PFN_SHIFT. rewrite Z.shiftr_div_pow2, Z.shiftl_mul_pow2 by lia. change (2 ^ 12) with 4096.
  rewrite u32_small by dlia. dlia.
Qed.

(** An allocator over memory below 2^44, where a frame number fits 32 bits. *)
Class LowPages (S : Type) `{PageAllocator S} := {
  low : S -> Prop;
  low_alloc s a s' : pa_ok s -> low s -> pa_alloc_page s = (a, s') -> a < 2 ^ 44 /\ low s';
  low_free s a : pa_ok s -> low s -> a ∈ pa_owned s -> low (pa_free_page a s)
}.

Section balloon_proofs.
Context {S H : Type} `{VirtHwOk H (gset Z)} `{VLayout} `{PageAllocatorLaws S} `{!LowPages S}.
Implicit Types w : world (balloon S) H.
(** The device keeps the frames of the inflate queue until the deflate queue names them. *)
Definition balloon_device : Prop := forall o p n m, 0 < n ->
  vh_serve o VIRTIO_BALLOON_VQ_INFLATE [MkSeg p (4 * n) VIRTQ_DESC_F_NONE] m = (o ∪ list_to_set (words (PHYS_TO_VIRT p) n m), 0, m) /\
  vh_serve o VIRTIO_BALLOON_VQ_DEFLATE [MkSeg p (4 * n) VIRTQ_DESC_F_NONE] m = (o ∖ list_to_set (words (PHYS_TO_VIRT p) n m), 0, m).
Context (Hdev : balloon_device) (Hlat : Z.of_nat vh_latency < VIRTQUEUE_POLL_MAX_SPINS)
  (Hbuf : in_kernel pfn_buf (4 * VIRTIO_BALLOON_MAX_PAGES)).

Definition held (b : balloon S) : list Z := take (Z.to_nat (actual b)) (inflated_pfns b).
Record bln_inv w : Prop := {
  bi_ready : bln_ready (ext w) = true;
  bi_actual : 0 <= actual (ext w) <= VIRTIO_BALLOON_MAX_PAGES;
  bi_len : Z.of_nat (length (inflated_pfns (ext w))) = VIRTIO_BALLOON_MAX_PAGES;
  bi_ok : pa_ok (pmm (ext w)) /\ low (pmm (ext w));
  bi_nodup : NoDup (held (ext w));
  bi_owned p : p ∈ held (ext w) -> 0 <= p < 2 ^ 32 /\ page p ∈ pa_owned (pmm (ext w));
  bi_host : vh_obs (hw w) = list_to_set (held (ext w));
  bi_idle0 : idle w VIRTIO_BALLOON_VQ_INFLATE;
  bi_idle1 : idle w VIRTIO_BALLOON_VQ_DEFLATE;
  bi_cfg q : Pci.device_cfg (caps (dev w)) + VIRTIO_BALLOON_CFG_ACTUAL <> vh_bell (hw w) q
}.

Lemma alloc_low (s : S) a s' : pa_ok s /\ low s -> pa_alloc_page s = (a, s') ->
  (pa_ok s' /\ low s') /\ ((a = 0 /\ s' = s) \/ (page_ok a /\ a ∉ pa_owned s /\ pa_owned s' = {[a]} ∪ pa_owned s)).
Proof.
  intros [Hok Hlo] Ha. destruct (low_alloc s a s' Hok Hlo Ha) as [Hlt Hlo']. destruct (pa_alloc_page_law s a s' Hok Ha) as [Hok' Hc]. split; [done|].
  destruct Hc as [Hc|((Hp & Hm & _) & Hr)]; [by left|right]. split; [|done]. split; [lia|done].
Qed.
(** What the allocation loop has done: the pages [l], in order. *)
Record staged w w' (got : Z) (l : list Z) : Prop := {
  sg_same : bus w' = bus w /\ dev w' = dev w /\ hw w' = hw w;
  sg_ext : bln_ready (ext w') = bln_ready (ext w) /\ actual (ext w') = actual (ext w) /\
           length (inflated_pfns (ext w')) = length (inflated_pfns (ext w));
  sg_table : take (Z.to_nat (actual (ext w) + got + Z.of_nat (length l))) (inflated_pfns (ext w')) =
             take (Z.to_nat (actual (ext w) + got)) (inflated_pfns (ext w)) ++ (pfn <$> l);
  sg_words : words pfn_buf (got + Z.of_nat (length l)) (ram w') = words pfn_buf got (ram w) ++ (pfn <$> l);
  sg_ok : pa_ok (pmm (ext w')) /\ low (pmm (ext w'));
  sg_pages : NoDup l /\ Forall (fun a => page_ok a /\ a ∉ pa_owned (pmm (ext w))) l;
  sg_owned : pa_owned (pmm (ext w')) = list_to_set l ∪ pa_owned (pmm (ext w))
}.
Lemma inflate_loop_ok n got w : pa_ok (pmm (ext w)) /\ low (pmm (ext w)) -> 0 <= got -> 0 <= actual (ext w) ->
  actual (ext w) + got + Z.of_nat n <= Z.of_nat (length (inflated_pfns (ext w))) ->
  exists l w', inflate_loop n got w = Some (got + Z.of_nat (length l), w') /\ (length l <= n)%nat /\
    ((length l < n)%nat -> (pa_alloc_page (pmm (ext w'))).1 = 0) /\ staged w w' got l.
Proof.
  revert got w. induction n as [|n IH]; intros got w Hok Hg Ha Hroom; cbn [inflate_loop].
  { exists [], w. cbn [length]. rewrite Z.add_0_r. split; [done|]. split; [done|]. split; [lia|].
    constructor; cbn [length fmap list_fmap list_to_set]; rewrite ?Z.add_0_r, ?app_nil_r; try done.
    - split; constructor.
    - set_solver. }
  unfold mbind, M_bind, get_ext. destruct (pa_alloc_page (pmm (ext w))) as [a s'] eqn:Eal. unfold upd_ext at 1.
  destruct (alloc_low _ _ _ Hok Eal) as [Hok' Hc]. destruct (Z.eqb_spec a 0) as [->|Hnz].
  { destruct Hc as [[_ ->]|[[? _] _]]; [|lia]. unfold mret, M_ret.
    exists [], w. cbn [length]. rewrite Z.add_0_r. split; [by destruct w as [[] ? ? ? ?]|]. split; [lia|]. split; [by rewrite Eal|].
    constructor; cbn [length fmap list_fmap list_to_set]; rewrite ?Z.add_0_r, ?app_nil_r; try done.
    - split; constructor.
    - set_solver. }
  destruct Hc as [[? _]|(Hpa & Hnin & Hown)]; [done|]. destruct (pfn_val a Hpa) as (Hpv & Hpr & Hpp).
  unfold upd_ram, upd_ext. cbn [ext bus dev ram hw bln_ready actual inflated_pfns pmm]. fold (pfn a).
  set (w1 := MkW _ _ _ _ _).
  destruct (IH (got + 1) w1) as (l & w' & Hl & Hle & Hex & Hst); cbn [w1 ext actual inflated_pfns pmm]; [done|lia|done|rewrite length_wr; lia|].
  exists (a :: l), w'. rewrite Hl. cbn [length]. split; [do 2 f_equal; lia|]. split; [lia|]. split; [intros; apply Hex; lia|].
  destruct Hst as [Hsame Hext Htab Hwds Hok2 [Hnd Hpg] Hown2]. cbn [w1 bus dev hw ext bln_ready actual inflated_pfns pmm ram] in *.
  rewrite length_wr in Hext. constructor; [done|done| | |done| |].
  - cbn [length fmap list_fmap]. replace (actual (ext w) + got + Z.of_nat (Datatypes.S (length l))) with (actual (ext w) + (got + 1) + Z.of_nat (length l)) by lia.
    rewrite Htab. replace (actual (ext w) + (got + 1)) with (actual (ext w) + got + 1) by lia. rewrite wr_prefix by lia. by rewrite <- app_assoc.
  - cbn [length fmap list_fmap]. replace (got + Z.of_nat (Datatypes.S (length l))) with (got + 1 + Z.of_nat (length l)) by lia.
    rewrite Hwds, words_store by lia. by rewrite <- app_assoc.
  - rewrite Hown in Hpg. split.
    + apply NoDup_cons. split; [|done]. intros Hin. rewrite Forall_forall in Hpg. apply Hpg in Hin as [_ Hin]. set_solver.
    + constructor; [done|]. eapply Forall_impl; [exact Hpg|]. intros x [Hx1 Hx2]. split; [done|]. set_solver.
  - rewrite Hown2, Hown. cbn [list_to_set]. set_solver.
Qed.

(** The words of the staging buffer, from the table. *)
Lemma stage_loop_ok n i base w : 0 <= i -> 0 <= base -> base + i + Z.of_nat n <= Z.of_nat (length (inflated_pfns (ext w))) ->
  (forall p, p ∈ take n (drop (Z.to_nat (base + i)) (inflated_pfns (ext w))) -> 0 <= p < 2 ^ 32) ->
  exists m, stage_loop n i base w = Some ((), MkW (ext w) (bus w) (dev w) m (hw w)) /\
    words pfn_buf (i + Z.of_nat n) m = words pfn_buf i (ram w) ++ take n (drop (Z.to_nat (base + i)) (inflated_pfns (ext w))).
Proof.
  revert i w. induction n as [|n IH]; intros i w Hi Hb Hlen Hr; cbn [stage_loop].
  { exists (ram w). split; [by destruct w|]. by rewrite Z.add_0_r, take_0, app_nil_r. }
  unfold mbind, M_bind, get_ext, upd_ram. destruct (lookup_lt_is_Some_2 (inflated_pfns (ext w)) (Z.to_nat (base + i))) as [p Hp]; [lia|].
  assert (Hd : drop (Z.to_nat (base + i)) (inflated_pfns (ext w)) = p :: drop (Z.to_nat (base + (i + 1))) (inflated_pfns (ext w))).
  { rewrite (drop_S _ _ _ Hp). do 2 f_equal. lia. }
  rewrite Hd in Hr |- *. cbn [take] in *. assert (rd (inflated_pfns (ext w)) (base + i) = p) as -> by (unfold rd; by rewrite nth_lookup, Hp).
  destruct (IH (i + 1) (MkW (ext w) (bus w) (dev w) (st_le 4 (pfn_buf + 4 * i) p (ram w)) (hw w))) as (m & Hm & Hw); cbn [ext]; [lia..| |].
  { intros x Hx. apply Hr. by right. }
  exists m. split; [exact Hm|]. replace (i + Z.of_nat (Datatypes.S n)) with (i + 1 + Z.of_nat n) by lia. rewrite Hw. cbn [ext ram].
  rewrite words_store; [by rewrite <- app_assoc|lia|]. apply Hr. by left.
Qed.
Lemma release_loop_ok n i w L : words pfn_buf (i + Z.of_nat n) (ram w) = words pfn_buf i (ram w) ++ L -> 0 <= i ->
  pa_ok (pmm (ext w)) /\ low (pmm (ext w)) -> NoDup (page <$> L) -> (forall p, p ∈ L -> page p ∈ pa_owned (pmm (ext w))) ->
  exists s, release_loop n i w = Some ((), MkW (MkBln (bln_ready (ext w)) (actual (ext w)) (inflated_pfns (ext w)) s) (bus w) (dev w) (ram w) (hw w)) /\
    (pa_ok s /\ low s) /\ pa_owned s = pa_owned (pmm (ext w)) ∖ list_to_set (page <$> L).
Proof.
  revert i w L. induction n as [|n IH]; intros i w L HL Hi Hok Hnd Hin; cbn [release_loop].
  { rewrite Z.add_0_r in HL. destruct L; [|apply (f_equal length) in HL; rewrite length_app in HL; cbn in HL; lia].
    exists (pmm (ext w)). split; [by destruct w as [[] ? ? ? ?]|]. split; [done|]. cbn. set_solver. }
  unfold mbind, M_bind, get_ram, upd_ext. set (p := ld_le 4 (pfn_buf + 4 * i) (ram w)).
  assert (exists L', L = p :: L' /\ words pfn_buf (i + 1 + Z.of_nat n) (ram w) = words pfn_buf (i + 1) (ram w) ++ L') as (L' & -> & HL').
  { rewrite words_snoc by lia. fold p. replace (i + Z.of_nat (Datatypes.S n)) with (i + 1 + Z.of_nat n) in HL by lia. rewrite HL.
    assert (Hw : words pfn_buf (i + 1 + Z.of_nat n) (ram w) !! Z.to_nat i = Some p).
    { unfold words. rewrite list_lookup_fmap, lookup_seqZ_lt by lia. cbn. do 2 f_equal. lia. }
    assert (Hlen : length (words pfn_buf i (ram w)) = Z.to_nat i) by (unfold words; by rewrite length_fmap, length_seqZ).
    rewrite HL, lookup_app_r, Hlen, Nat.sub_diag in Hw by lia. destruct L as [|p' L']; [done|]. injection Hw as ->.
    exists L'. split; [done|]. by rewrite <- app_assoc. }
  cbn [fmap list_fmap] in Hnd. apply NoDup_cons in Hnd as [Hp Hnd].
  fold (page p). destruct (pa_free_page_law _ (page p) (proj1 Hok) (Hin p ltac:(left))) as [Hok1 Hown1].
  pose proof (low_free _ (page p) (proj1 Hok) (proj2 Hok) (Hin p ltac:(left))) as Hlo1.
  set (w1 := MkW _ (bus w) (dev w) (ram w) (hw w)).
  destruct (IH (i + 1) w1 L') as (s & Hs & Hoks & Howns); cbn [w1 ext pmm ram] in *; [done|lia|done|done| |].
  { intros x Hx. rewrite Hown1. apply elem_of_difference. split; [apply Hin; by right|]. rewrite elem_of_singleton. intros Heq. apply Hp.
    rewrite <- Heq. by apply list_elem_of_fmap_2. }
  exists s. split; [exact Hs|]. split; [done|]. rewrite Howns, Hown1. cbn [fmap list_fmap list_to_set]. set_solver.
Qed.
Lemma publish_ok w : (forall q, Pci.device_cfg (caps (dev w)) + VIRTIO_BALLOON_CFG_ACTUAL <> vh_bell (hw w) q) ->
  exists h, publish_actual w = Some ((), MkW (ext w) (bus w) (dev w) (ram w) h) /\ vh_kept (hw w) h.
Proof.
  intros Hc. unfold publish_actual, mbind, M_bind, get_dev, get_ext. case_if.
  - exists (hw w). split; [by destruct w|done].
  - eexists. split; [reflexivity|]. by apply vh_write_law.
Qed.
(** Changing the driver state and memory does not disturb a queue. *)
Lemma idle_frame w (x : balloon S) m h q : vh_kept (hw w) h -> idle w q -> idle (MkW x (bus w) (dev w) m h) q.
Proof. intros (Hb & _ & Hs) [H1' H2' H3' H4']. constructor; cbn [dev hw]; [done|by rewrite Hs|done|by rewrite Hb]. Qed.
Lemma page_inj : Inj eq eq page.
Proof. intros a b. unfold page, VIRTIO_BALLOON_PFN_SHIFT. rewrite !Z.shiftl_mul_pow2 by lia. lia. Qed.

Lemma batch_ok q n L w : q = VIRTIO_BALLOON_VQ_INFLATE \/ q = VIRTIO_BALLOON_VQ_DEFLATE -> idle w q -> 0 < n <= VIRTIO_BALLOON_MAX_PAGES ->
  words pfn_buf n (ram w) = L ->
  exists w', submit_pfn_batch q n w = Some (0, w') /\ ext w' = ext w /\ bus w' = bus w /\ caps (dev w') = caps (dev w) /\
    (forall q', vh_bell (hw w') q' = vh_bell (hw w) q') /\ idle w' q /\ (forall q', (q =? 0) <> (q' =? 0) -> idle w q' -> idle w' q') /\
    words pfn_buf n (ram w') = L /\
    vh_obs (hw w') = if q =? 0 then vh_obs (hw w) ∪ list_to_set L else vh_obs (hw w) ∖ list_to_set L.
Proof.
  intros Hq Hid Hn HL. unfold VIRTIO_BALLOON_MAX_PAGES in *. unfold submit_pfn_batch. rewrite (proj2 (Z.eqb_neq n 0)) by lia. rewrite u32_small by lia.
  destruct (exchange_ok q pfn_buf (n * 4) VIRTQ_DESC_F_NONE w Hid) as (w' & He & Hx); [by left|done|].
  unfold mbind, M_bind. rewrite He. exists w'. split; [done|]. destruct Hx as [Hex Hbus [Hc _] Hobs Hram Hbell Hidle Hoth].
  unfold served in *. rewrite (Z.mul_comm n 4) in *. destruct (Hdev (vh_obs (hw w)) (VIRT_TO_PHYS pfn_buf) n (ram w) ltac:(lia)) as [Hs0 Hs1].
  destruct Hbuf as [Hb1 Hb2]. rewrite Blk.virt_phys in Hs0, Hs1 by lia.
  assert (Hmem : forall a, ram w' a = ram w a).
  { intros a. rewrite Hram. destruct Hq as [-> | ->]; [by rewrite Hs0|by rewrite Hs1]. }
  do 5 (split; [done|]). split; [done|]. split; [rewrite <- HL; apply words_ext; auto|].
  rewrite Hobs. destruct Hq as [-> | ->]; [rewrite Hs0|rewrite Hs1]; cbn [fst]; by rewrite HL.
Qed.

(** [l] are the pages that went into the balloon. *)
Record inflated w w' (n : Z) (l : list Z) : Prop := {
  in_count : Z.of_nat (length l) <= Z.min n (VIRTIO_BALLOON_MAX_PAGES - actual (ext w));
  in_full : Z.of_nat (length l) < Z.min n (VIRTIO_BALLOON_MAX_PAGES - actual (ext w)) -> (pa_alloc_page (pmm (ext w'))).1 = 0;
  in_held : held (ext w') = held (ext w) ++ (pfn <$> l);
  in_fresh : NoDup l /\ Forall (fun a => page_ok a /\ a ∉ pa_owned (pmm (ext w))) l;
  in_owned : pa_owned (pmm (ext w')) = list_to_set l ∪ pa_owned (pmm (ext w))
}.
Lemma inflated_none w n : bln_inv w -> 0 <= n -> (0 < Z.min n (VIRTIO_BALLOON_MAX_PAGES - actual (ext w)) -> (pa_alloc_page (pmm (ext w))).1 = 0) ->
  inflated w w n [].
Proof.
  intros [_ Ha _ _ _ _ _ _ _ _] Hn Hf. constructor; cbn [length fmap list_fmap list_to_set]; [lia|done|by rewrite app_nil_r|repeat constructor|set_solver].
Qed.
Lemma length_held w : bln_inv w -> length (held (ext w)) = Z.to_nat (actual (ext w)).
Proof. intros [_ Ha Hl _ _ _ _ _ _ _]. unfold held. rewrite length_take. unfold VIRTIO_BALLOON_MAX_PAGES in *. lia. Qed.
Lemma held_grow w l : bln_inv w -> NoDup l -> Forall (fun a => page_ok a /\ a ∉ pa_owned (pmm (ext w))) l ->
  NoDup (held (ext w) ++ (pfn <$> l)) /\
  forall p, p ∈ held (ext w) ++ (pfn <$> l) -> 0 <= p < 2 ^ 32 /\ page p ∈ list_to_set l ∪ pa_owned (pmm (ext w)).
Proof.
  intros [_ _ _ _ Hnd Hown _ _ _ _] Hndl Hpg. rewrite Forall_forall in Hpg. split.
  - apply NoDup_app. split; [done|]. split.
    + intros p Hp1 (a & -> & Hal)%list_elem_of_fmap. destruct (Hpg a Hal) as [Hpo Hni]. apply Hown in Hp1 as [_ Hp1].
      by rewrite (proj2 (proj2 (pfn_val a Hpo))) in Hp1.
    + apply NoDup_fmap_2_strong; [|done]. intros x y Hx Hy Hxy. destruct (Hpg x Hx) as [Hpx _], (Hpg y Hy) as [Hpy _].
      rewrite <- (proj2 (proj2 (pfn_val x Hpx))), <- (proj2 (proj2 (pfn_val y Hpy))). by rewrite Hxy.
  - intros p [Hp1|(a & -> & Hal)%list_elem_of_fmap]%elem_of_app.
    + destruct (Hown p Hp1). split; [done|]. set_solver.
    + destruct (Hpg a Hal) as [Hpo _]. destruct (pfn_val a Hpo) as (_ & Hra & ->). split; [done|].
      apply elem_of_union_l. by apply elem_of_list_to_set.
Qed.
Lemma inflate_ok n w : bln_inv w -> 0 <= n < 2 ^ 32 ->
  exists l w', balloon_inflate n w = Some (Z.of_nat (length l), w') /\ bln_inv w' /\ inflated w w' n l.
Proof.
  intros Hb Hn. pose proof Hb as [Hr Ha Hlen Hok Hnd Hown Hhost Hi0 Hi1 Hcfg]. unfold balloon_inflate, mbind at 1, M_bind at 1, get_ext at 1.
  unfold VIRTIO_BALLOON_MAX_PAGES in *. rewrite Hr. cbn [negb]. rewrite u32_small by lia.
  set (n' := if 1024 - actual (ext w) <? n then 1024 - actual (ext w) else n).
  assert (Hn' : n' = Z.min n (1024 - actual (ext w))) by (unfold n'; destruct (Z.ltb_spec (1024 - actual (ext w)) n); lia). clearbody n'.
  destruct (Z.eqb_spec n' 0) as [Hz|Hz].
  { exists [], w. split; [done|]. split; [done|]. apply inflated_none; [done|lia|unfold VIRTIO_BALLOON_MAX_PAGES; lia]. }
  destruct (inflate_loop_ok (Z.to_nat n') 0 w Hok) as (l & w1 & Hl & Hle & Hex & Hst); [lia..|].
  unfold mbind at 1, M_bind at 1. rewrite Hl, Z.add_0_l.
  destruct Hst as [(Hbu & Hde & Hhw) (Hr1 & Ha1 & Hl1) Htab Hwds Hok1 [Hndl Hpg] Hown1]. rewrite Z.add_0_l in Hwds. rewrite Z.add_0_r in Htab.
  change (words pfn_buf 0 (ram w)) with (@nil Z) in Hwds. cbn [app] in Hwds. fold (held (ext w)) in Htab.
  destruct (Z.eqb_spec (Z.of_nat (length l)) 0) as [Hl0|Hl0].
  { destruct l as [|? ?]; [|cbn in Hl0; lia]. exists [], w1. split; [done|]. cbn [length fmap list_fmap] in *. rewrite app_nil_r, Z.add_0_r in Htab.
    assert (Hheld : held (ext w1) = held (ext w)) by (unfold held at 1; by rewrite Ha1). cbn [list_to_set] in Hown1. rewrite (left_id_L ∅ (∪)) in Hown1.
    split.
    - constructor; rewrite ?Hheld, ?Hr1, ?Ha1, ?Hl1, ?Hown1, ?Hde, ?Hhw; try done; destruct w1; cbn in *; subst; [apply (idle_frame w)..]; done.
    - constructor; cbn [length fmap list_fmap list_to_set]; rewrite ?Hheld, ?app_nil_r, ?Hown1; [unfold VIRTIO_BALLOON_MAX_PAGES; lia| |done|repeat constructor|set_solver].
      intros _. apply Hex. lia. }
  assert (Hid1 : idle w1 VIRTIO_BALLOON_VQ_INFLATE /\ idle w1 VIRTIO_BALLOON_VQ_DEFLATE).
  { destruct w1; cbn in *; subst. split; by apply (idle_frame w). }
  destruct (batch_ok VIRTIO_BALLOON_VQ_INFLATE (Z.of_nat (length l)) (pfn <$> l) w1) as (w2 & Hs & He2 & _ & Hc2 & Hbl2 & Hi2 & Hoth2 & _ & Ho2);
    [by left|apply Hid1|unfold VIRTIO_BALLOON_MAX_PAGES; lia|done|].
  unfold mbind at 1, M_bind at 1. rewrite Hs. cbn [Z.ltb Z.compare].
  unfold mbind at 1, M_bind at 1, upd_ext at 1. set (w3 := MkW _ (bus w2) (dev w2) (ram w2) (hw w2)).
  destruct (publish_ok w3) as (h & Hp & Hk); [cbn [w3 dev hw]; intros q; rewrite Hc2, Hbl2, Hde, Hhw; apply Hcfg|].
  unfold mbind, M_bind. rewrite Hp. unfold mret, M_ret. rewrite s32_nonneg by lia. exists l. eexists. split; [reflexivity|].
  cbn [w3 ext bus dev ram]. rewrite He2, Ha1. rewrite u32_small by lia.
  assert (Hheld : held (set_actual (actual (ext w) + Z.of_nat (length l)) (ext w1)) = held (ext w) ++ (pfn <$> l)) by exact Htab.
  pose proof Hk as (Hkb & Hko & Hks). split.
  - constructor; cbn [ext dev hw]; rewrite ?Hheld.
    + cbn [set_actual bln_ready]. by rewrite Hr1.
    + cbn [set_actual actual]. unfold VIRTIO_BALLOON_MAX_PAGES. lia.
    + cbn [set_actual inflated_pfns]. by rewrite Hl1.
    + done.
    + apply (held_grow w l Hb Hndl Hpg).
    + cbn [set_actual pmm]. rewrite Hown1. apply (held_grow w l Hb Hndl Hpg).
    + rewrite Hko. cbn [w3 hw]. rewrite Ho2. cbn [Z.eqb VIRTIO_BALLOON_VQ_INFLATE]. change (VIRTIO_BALLOON_VQ_INFLATE =? 0) with true. cbn iota.
      by rewrite Hhw, Hhost, list_to_set_app_L.
    + apply (idle_frame w2); [exact Hk|done].
    + apply (idle_frame w2); [exact Hk|]. apply Hoth2; [done|apply Hid1].
    + intros q. rewrite Hc2, Hde, Hkb. cbn [w3 hw]. rewrite Hbl2, Hhw. apply Hcfg.
  - constructor; cbn [ext set_actual pmm]; [unfold VIRTIO_BALLOON_MAX_PAGES; lia| |exact Htab|done|done].
    intros Hlt. apply Hex. unfold VIRTIO_BALLOON_MAX_PAGES in Hlt. lia.
Qed.

(** The last [k] pages have come back. *)
Record deflated w w' (k : Z) : Prop := {
  de_held : held (ext w') = take (Z.to_nat (actual (ext w) - k)) (held (ext w));
  de_owned : pa_owned (pmm (ext w')) = pa_owned (pmm (ext w)) ∖ list_to_set (page <$> drop (Z.to_nat (actual (ext w) - k)) (held (ext w)))
}.
Lemma held_split w k : bln_inv w -> 0 <= k <= actual (ext w) ->
  let base := Z.to_nat (actual (ext w) - k) in
  take (Z.to_nat k) (drop base (inflated_pfns (ext w))) = drop base (held (ext w)) /\
  take base (inflated_pfns (ext w)) = take base (held (ext w)).
Proof.
  intros [_ Ha Hl _ _ _ _ _ _ _] Hk base. unfold held. split.
  - rewrite take_drop_commute. unfold base. replace (Z.to_nat (actual (ext w) - k) + Z.to_nat k)%nat with (Z.to_nat (actual (ext w))) by lia. done.
  - rewrite take_take. f_equal. unfold base. lia.
Qed.
(** The invariant after the pages have come back. *)
Lemma deflate_inv w w2 h (s : S) k : bln_inv w -> 0 <= k <= actual (ext w) ->
  let base := Z.to_nat (actual (ext w) - k) in
  let L := drop base (held (ext w)) in
  caps (dev w2) = caps (dev w) -> (forall q, vh_bell (hw w2) q = vh_bell (hw w) q) -> vh_kept (hw w2) h ->
  vh_obs (hw w2) = vh_obs (hw w) ∖ list_to_set L -> pa_ok s /\ low s -> pa_owned s = pa_owned (pmm (ext w)) ∖ list_to_set (page <$> L) ->
  idle w2 VIRTIO_BALLOON_VQ_INFLATE -> idle w2 VIRTIO_BALLOON_VQ_DEFLATE ->
  bln_inv (MkW (MkBln (bln_ready (ext w)) (actual (ext w) - k) (inflated_pfns (ext w)) s) (bus w2) (dev w2) (ram w2) h).
Proof.
  intros Hb Hk base L Hc2 Hbl2 Hkp Ho2 Hoks Howns Hi0' Hi1'. pose proof Hb as [Hr Ha Hlen Hok Hnd Hown Hhost _ _ Hcfg].
  destruct (held_split w k Hb Hk) as [_ Hhead]. fold base in Hhead. pose proof Hkp as (Hkb & Hko & Hks).
  pose proof Hnd as Hsp. rewrite <- (take_drop base (held (ext w))) in Hsp. apply NoDup_app in Hsp as (Hnd1 & Hdis & Hnd2).
  assert (Hpre : forall p, p ∈ take base (held (ext w)) -> p ∈ held (ext w)) by (intros p Hp; rewrite <- (take_drop base (held (ext w))); set_solver).
  constructor; cbn [ext dev hw bln_ready actual inflated_pfns pmm]; [done|lia|done|done|..]; unfold held; cbn [actual inflated_pfns]; fold base; rewrite ?Hhead.
  - done.
  - intros p Hp. destruct (Hown p (Hpre p Hp)) as [Hpr Hpo]. split; [done|]. rewrite Howns. apply elem_of_difference. split; [done|].
    intros (p' & Heq%page_inj & Hp')%elem_of_list_to_set%list_elem_of_fmap. subst p'. by apply (Hdis p Hp).
  - rewrite Hko, Ho2, Hhost. rewrite <- (take_drop base (held (ext w))) at 1. rewrite list_to_set_app_L. fold L.
    apply set_eq. intros p. rewrite elem_of_difference, elem_of_union, !elem_of_list_to_set. split; [tauto|]. intros Hp. split; [by left|].
    by apply Hdis.
  - by apply (idle_frame w2).
  - by apply (idle_frame w2).
  - intros q. rewrite Hc2, Hkb, Hbl2. apply Hcfg.
Qed.
Lemma deflate_ok n w : bln_inv w -> 0 <= n < 2 ^ 32 ->
  let k := Z.min n (actual (ext w)) in
  exists w', balloon_deflate n w = Some (k, w') /\ bln_inv w' /\ deflated w w' k /\ actual (ext w') = actual (ext w) - k.
Proof.
  intros Hb Hn k. pose proof Hb as [Hr Ha Hlen Hok Hnd Hown Hhost Hi0 Hi1 Hcfg]. pose proof (length_held w Hb) as Hlh.
  unfold balloon_deflate, mbind at 1, M_bind at 1, get_ext at 1. unfold VIRTIO_BALLOON_MAX_PAGES in *. rewrite Hr. cbn [negb].
  assert ((if actual (ext w) <? n then actual (ext w) else n) = k) as -> by (unfold k; destruct (Z.ltb_spec (actual (ext w)) n); lia).
  assert (Hk : 0 <= k <= actual (ext w)) by (unfold k; lia). clearbody k. destruct (Z.eqb_spec k 0) as [->|Hz].
  { exists w. split; [done|]. split; [done|]. rewrite Z.sub_0_r. split; [|done]. constructor; rewrite Z.sub_0_r, <- Hlh.
    - by rewrite take_ge.
    - rewrite drop_all. cbn. set_solver. }
  destruct (held_split w k Hb Hk) as [Htail Hhead]. set (base := Z.to_nat (actual (ext w) - k)) in *.
  rewrite u32_small by lia. set (L := drop base (held (ext w))) in *.
  assert (HLin : forall p, p ∈ L -> p ∈ held (ext w)) by (intros p Hp; rewrite <- (take_drop base (held (ext w))); set_solver).
  destruct (stage_loop_ok (Z.to_nat k) 0 (actual (ext w) - k) w) as (m & Hst & Hwds); [lia..| |].
  { intros p Hp. rewrite Z.add_0_r in Hp. fold base in Hp. rewrite Htail in Hp. apply Hown. auto. }
  rewrite Z.add_0_r in Hwds. fold base in Hwds. rewrite Htail, Z.add_0_l, Z2Nat.id in Hwds by lia. change (words pfn_buf 0 (ram w)) with (@nil Z) in Hwds. cbn [app] in Hwds.
  unfold mbind at 1, M_bind at 1. rewrite Hst. set (w1 := MkW _ _ _ m _).
  assert (Hid1 : idle w1 VIRTIO_BALLOON_VQ_INFLATE /\ idle w1 VIRTIO_BALLOON_VQ_DEFLATE) by (split; by apply (idle_frame w)).
  destruct (batch_ok VIRTIO_BALLOON_VQ_DEFLATE k L w1) as (w2 & Hs & He2 & _ & Hc2 & Hbl2 & Hi2 & Hoth2 & Hw2 & Ho2);
    [by right|apply Hid1|unfold VIRTIO_BALLOON_MAX_PAGES; lia|done|].
  unfold mbind at 1, M_bind at 1. rewrite Hs. cbn [Z.ltb Z.compare].
  assert (HndL : NoDup L) by (rewrite <- (take_drop base (held (ext w))) in Hnd; by apply NoDup_app in Hnd as (_ & _ & Hnd)).
  destruct (release_loop_ok (Z.to_nat k) 0 w2 L) as (s & Hrel & Hoks & Howns); [by rewrite Z.add_0_l, Z2Nat.id by lia|lia|by rewrite He2| | |].
  { apply NoDup_fmap_2; [apply page_inj|done]. }
  { intros p Hp. rewrite He2. apply Hown. auto. }
  rewrite He2 in Hrel, Howns. cbn [w1 ext] in Hrel, Howns. unfold mbind at 1, M_bind at 1. rewrite Hrel.
  unfold mbind at 1, M_bind at 1, upd_ext at 1. cbn [ext bus dev ram hw actual set_actual bln_ready inflated_pfns pmm]. rewrite u32_small by lia.
  set (b' := MkBln (bln_ready (ext w)) (actual (ext w) - k) (inflated_pfns (ext w)) s). change (set_actual _ _) with b'. set (w3 := MkW b' _ _ _ _).
  destruct (publish_ok w3) as (h & Hp & Hkp); [cbn [w3 dev hw]; intros q; rewrite Hc2, Hbl2; apply Hcfg|].
  unfold mbind, M_bind. rewrite Hp. unfold mret, M_ret. rewrite s32_nonneg by lia. eexists. split; [reflexivity|].
  assert (Hheld : held b' = take base (held (ext w))) by exact Hhead. split; [|by split; [constructor|]].
  apply (deflate_inv w w2 h s k); try done. apply Hoth2; [done|apply Hid1].
Qed.

(** C20: inflating hands fresh pages to the host, as many as were asked for unless
    the table is full or the allocator has none left; deflating takes the most
    recent ones back, and undoes inflating: allocator, table and host are as
    before.  At every point the host holds exactly the frames of the table,
    which are distinct and belong to nobody else. *)
Theorem balloon_correct n w : bln_inv w -> 0 <= n < 2 ^ 32 ->
  (exists l w', balloon_inflate n w = Some (Z.of_nat (length l), w') /\ bln_inv w' /\ inflated w w' n l /\
     exists w'', balloon_deflate (Z.of_nat (length l)) w' = Some (Z.of_nat (length l), w'') /\ bln_inv w'' /\
       held (ext w'') = held (ext w) /\ vh_obs (hw w'') = vh_obs (hw w) /\ pa_owned (pmm (ext w'')) = pa_owned (pmm (ext w))) /\
  (let k := Z.min n (actual (ext w)) in
   exists w', balloon_deflate n w = Some (k, w') /\ bln_inv w' /\ deflated w w' k).
Proof.
  intros Hb Hn. split.
  - destruct (inflate_ok n w Hb Hn) as (l & w' & Hi & Hb' & Hin). exists l, w'. do 3 (split; [done|]).
    pose proof (length_held w Hb) as Hlh. pose proof (length_held w' Hb') as Hlh'. destruct Hin as [Hc _ Hh [Hnd Hpg] Ho].
    assert (Hact : actual (ext w') = actual (ext w) + Z.of_nat (length l)).
    { rewrite Hh, length_app, length_fmap in Hlh'. pose proof (bi_actual _ Hb). pose proof (bi_actual _ Hb'). lia. }
    pose proof (bi_actual _ Hb') as Ha'. unfold VIRTIO_BALLOON_MAX_PAGES in Ha'. pose proof (bi_actual _ Hb) as Ha.
    destruct (deflate_ok (Z.of_nat (length l)) w' Hb' ltac:(lia)) as (w'' & Hd & Hb'' & [Hde Hdo] & _). rewrite Z.min_l in * by lia.
    exists w''. split; [done|]. split; [done|].
    assert (Hbase : Z.to_nat (actual (ext w') - Z.of_nat (length l)) = length (held (ext w))) by lia.
    rewrite Hbase, Hh in Hde, Hdo. rewrite take_app_length in Hde. rewrite drop_app_length in Hdo.
    split; [done|]. split; [by rewrite (bi_host _ Hb''), (bi_host _ Hb), Hde|].
    assert (Hpp : page <$> (pfn <$> l) = l).
    { rewrite <- list_fmap_compose. rewrite <- (list_fmap_id l) at 2. apply list_fmap_ext. intros i a Hia.
      rewrite Forall_lookup in Hpg. destruct (Hpg i a Hia) as [Hpo _]. apply (pfn_val a Hpo). }
    rewrite Hdo, Hpp, Ho. rewrite Forall_forall in Hpg. apply set_eq. intros a. rewrite elem_of_difference, elem_of_union, elem_of_list_to_set.
    split; [tauto|]. intros Hin. split; [by right|]. intros Hal. by destruct (Hpg a Hal).
  - intros k. destruct (deflate_ok n w Hb Hn) as (w' & Hd & Hb' & Hdf & _). exists w'. auto.
Qed.
End balloon_proofs.

(** ** After bring-up the queues are empty *)
Section fresh.
Context {X H : Type} `{VirtHw H}.
Implicit Types w : world X H.
Lemma vd_bind {A B} (m : M X H A) (k : A -> M X H B) w r :
  (m ≫= k) w = Some r -> exists a w1, m w = Some (a, w1) /\ k a w1 = Some r.
Proof. unfold mbind, M_bind. destruct (m w) as [[a w1]|]; [|done]. by exists a, w1. Qed.
(** Register accesses leave the driver's data alone. *)
Definition regs_only {A} (m : M X H A) : Prop := forall w a w', m w = Some (a, w') -> dev w' = dev w.
Lemma ro_bind {A B} (m : M X H A) (k : A -> M X H B) : regs_only m -> (forall a, regs_only (k a)) -> regs_only (m ≫= k).
Proof. intros Hm Hk w b w' (a & w1 & H1' & H2')%vd_bind. rewrite (Hk _ _ _ _ H2'). eauto. Qed.
Lemma ro_ret {A} (a : A) : regs_only (mret a).
Proof. by intros w b w' [= <- <-]. Qed.
Lemma ro_read n a : regs_only (mmio_read n a).
Proof. intros w b w'. unfold mmio_read. destruct (vh_read n a (hw w)). by intros [= <- <-]. Qed.
Lemma ro_write x : regs_only (mmio_write x).
Proof. by intros w b w' [= <- <-]. Qed.
Lemma ro_writes l : regs_only (mmio_writes l).
Proof. induction l as [|x l IH]; [apply ro_ret|]. apply ro_bind; [apply ro_write|done]. Qed.
Lemma ro_wait n a : regs_only (wait_reset n a).
Proof. induction n as [|n IH]; [done|]. apply ro_bind; [apply ro_read|]. intros v. case_if; [apply ro_ret|done]. Qed.
Lemma ro_status b x : regs_only (set_status b x).
Proof. apply ro_bind; [apply ro_read|]. intros v. apply ro_write. Qed.

(** The size of a split queue is a power of two, or 0 for no queue. *)
Definition queue_size_ok (base : Z) : Prop :=
  forall h, let n := (vh_read 16 (base + VIRTIO_COMMON_Q_SIZE) h).1 in n = 0 \/ 0 < n /\ 65536 mod (Z.min n VIRTQ_MAX_SIZE) = 0.
Lemma setup_queue_ok q w w' :
  queue_size_ok (Pci.common_cfg (caps (dev w))) -> length (desc (queue q (dev w))) = 128%nat -> setup_queue q w = Some (true, w') ->
  exists v, dev w' = set_queue q v (dev w) /\ repr v (MkA (size v) [] []).
Proof.
  intros Hq Hl. unfold setup_queue. intros (d & w1 & Hg & Hx)%vd_bind. injection Hg as <- <-. set (base := Pci.common_cfg _) in *.
  apply vd_bind in Hx as (u & w2 & Hw2 & Hx). apply ro_writes in Hw2.
  apply vd_bind in Hx as (n & w3 & Hr & Hx). pose proof (ro_read _ _ _ _ _ Hr) as Hw3.
  assert (n = 0 \/ 0 < n /\ 65536 mod (Z.min n VIRTQ_MAX_SIZE) = 0) as Hn.
  { specialize (Hq (hw w2)). unfold mmio_read in Hr. destruct (vh_read _ _ _) as [n' h']. by injection Hr as -> _. }
  destruct (Z.eqb_spec n 0) as [->|Hn0]; [done|]. destruct Hn as [|[Hn1 Hn2]]; [done|].
  apply vd_bind in Hx as (u2 & w4 & Hw4 & Hx). apply ro_writes in Hw4.
  apply vd_bind in Hx as (noff & w5 & Hw5 & Hx). apply ro_read in Hw5.
  destruct (setup_sim base q n noff (Pci.notify_base (caps (dev w))) (Pci.notify_off_multiplier (caps (dev w))) (queue q (dev w)) Hn1 Hn2 Hl)
    as (ws & v & Hs & _ & Hrp). rewrite Hs in Hx. cbn [snd] in Hx.
  apply vd_bind in Hx as (u3 & w6 & Hw6 & Hx). injection Hw6 as <- <-.
  apply vd_bind in Hx as (u4 & w7 & Hw7 & Hx). apply ro_writes in Hw7. injection Hx as <-.
  exists v. split; [|done]. rewrite Hw7. cbn [dev]. by rewrite Hw5, Hw4, Hw3, Hw2.
Qed.
Definition queues_ready (qs : list Z) (d d' : vdev) : Prop :=
  caps d' = caps d /\ forall q, q = 0 \/ q = 1 ->
    if decide (q ∈ qs) then repr (queue q d') (MkA (size (queue q d')) [] []) else queue q d' = queue q d.
Lemma setup_queues_ok qs w w' :
  queue_size_ok (Pci.common_cfg (caps (dev w))) -> NoDup qs -> Forall (fun q => q = 0 \/ q = 1) qs ->
  (forall q, q ∈ qs -> length (desc (queue q (dev w))) = 128%nat) -> setup_queues qs w = Some (true, w') ->
  queues_ready qs (dev w) (dev w').
Proof.
  revert w. induction qs as [|q qs IH]; intros w Hq Hnd Hqs Hl; cbn [setup_queues].
  { intros [= <-]. split; [done|]. intros q Hq'. by rewrite decide_False by apply not_elem_of_nil. }
  intros (ok & w1 & Hs & Hx)%vd_bind. apply NoDup_cons in Hnd as [Hni Hnd]. apply Forall_cons in Hqs as [Hq01 Hqs].
  destruct ok; [|done]. apply setup_queue_ok in Hs as (v & Hd & Hr); [|done|apply Hl; left].
  assert (Hoth : forall q', q' = 0 \/ q' = 1 -> q' <> q -> queue q' (dev w1) = queue q' (dev w)).
  { intros q' Hq' Hne. rewrite Hd. apply set_queue_other. destruct Hq01 as [-> | ->], Hq' as [-> | ->]; done. }
  rewrite Forall_forall in Hqs. destruct (IH w1) as [Hc Hrd]; [by rewrite Hd, (proj1 (set_queue_caps _ _ _))|done|by apply Forall_forall| |done|].
  { intros q' Hq'. rewrite Hoth; [apply Hl; by right|auto|intros ->; done]. }
  split; [by rewrite Hc, Hd, (proj1 (set_queue_caps _ _ _))|]. intros q' Hq'. specialize (Hrd q' Hq'). destruct (decide (q' = q)) as [->|Hne].
  - rewrite decide_False in Hrd by done. rewrite decide_True by left. by rewrite Hrd, Hd, queue_set.
  - destruct (decide (q' ∈ qs)); [rewrite decide_True by (by right)|rewrite decide_False by (intros [?|?]%elem_of_cons; done)]; [done|].
    rewrite Hrd. by apply Hoth.
Qed.
Lemma ro_step {A B} (m : M X H A) (k : A -> M X H B) w d r :
  (m ≫= k) w = Some r -> regs_only m -> dev w = d -> exists a w1, dev w1 = d /\ k a w1 = Some r.
Proof. intros (a & w1 & Hm & Hk)%vd_bind Hke <-. exists a, w1. split; [by apply Hke in Hm|done]. Qed.
Ltac ro_next Hx Hd :=
  let a := fresh "a" in let w := fresh "w" in let Hx' := fresh in let Hd' := fresh in
  destruct (ro_step _ _ _ _ _ Hx ltac:(solve [apply ro_write|apply ro_read|apply ro_status|apply ro_wait]) Hd)
    as (a & w & Hd' & Hx'); clear Hx Hd; rename Hx' into Hx; rename Hd' into Hd.
(** A device that was brought up has the queues its driver uses, with nothing
    in flight; the other queue is as it was. *)
Theorem bringup_ready qs w w' :
  queue_size_ok (Pci.common_cfg (caps (dev w))) -> NoDup qs -> Forall (fun q => q = 0 \/ q = 1) qs ->
  (forall q, q ∈ qs -> length (desc (queue q (dev w))) = 128%nat) -> bringup qs w = Some (true, w') ->
  queues_ready qs (dev w) (dev w').
Proof.
  intros Hq Hnd Hqs Hl. unfold bringup. intros (d & xw & Hg & Hx)%vd_bind. injection Hg as <- <-.
  remember (dev w) as d eqn:Hd. symmetry in Hd. set (base := Pci.common_cfg _) in *.
  do 14 ro_next Hx Hd. match type of Hx with (if ?c then _ else _) _ = _ => destruct c end; [done|].
  apply vd_bind in Hx as (ok & xw2 & Hs & Hx). destruct ok; [cbn [negb] in Hx|done].
  apply setup_queues_ok in Hs; [|by rewrite Hd|done|done|by rewrite Hd]. rewrite Hd in Hs.
  remember (dev xw2) as d2 eqn:Hd2. symmetry in Hd2. ro_next Hx Hd2. injection Hx as <-. by rewrite Hd2.
Qed.
End fresh.

(** ** A device that does not answer

    [virtqueue_poll] gives up after its ten million looks, and none of the
    three drivers finds out. *)
Section dead.
Context {X H : Type} `{VirtHw H} `{VLayout}.
Implicit Types w : world X H.
Context (Hdead : forall h q v m, vh_run h q v m = (h, v, m)).
Lemma poll_dead n q w : used_idx (queue q (dev w)) = last_used (queue q (dev w)) -> poll n q w = Some (0, w).
Proof.
  intros Hu. induction n as [|n IH]; [done|]. cbn [poll]. unfold mbind, M_bind, tick. rewrite Hdead. unfold get_dev. cbn [dev].
  rewrite queue_set. unfold virtqueue_get_used. rewrite Hu, Z.eqb_refl. unfold upd_dev. cbn [ext bus dev ram hw]. rewrite set_queue_set, set_queue_id.
  destruct w. exact IH.
Qed.
Lemma exchange_dead q buf len fl w : used_idx (queue q (dev w)) = last_used (queue q (dev w)) ->
  exists w', exchange q buf len fl w = Some ((), w') /\ ram w' = ram w /\ ext w' = ext w.
Proof.
  intros Hu. unfold exchange, mbind, M_bind, get_dev, upd_dev. destruct (virtqueue_submit _ len fl (queue q (dev w))) as [i v] eqn:Es.
  cbn [snd]. unfold virtqueue_notify. cbn [mmio_writes]. unfold mbind, M_bind, mmio_write, mret, M_ret. cbn [ext bus dev ram hw].
  rewrite poll_dead; [by eexists|]. cbn [dev]. rewrite queue_set.
  unfold virtqueue_submit, virtqueue_alloc_desc in Es. destruct (free_head (queue q (dev w)) =? VIRTQ_NO_DESC) eqn:E1.
  - change (VIRTQ_NO_DESC =? VIRTQ_NO_DESC) with true in Es. by injection Es as _ <-.
  - rewrite E1 in Es. by injection Es as _ <-.
Qed.
(** [rng_read] then reports success, and the bytes are those an earlier
    request left in [rng_buf]. *)
Theorem rng_read_stale dst count w : used_idx (vq0 (dev w)) = last_used (vq0 (dev w)) ->
  0 < count <= RNG_BUF_SIZE -> away dst count rng_buf RNG_BUF_SIZE ->
  exists w', rng_read dst count w = Some (count, w') /\ forall i, 0 <= i < count -> ram w' (dst + i) = ram w (rng_buf + i).
Proof.
  intros Hu Hc Haw. unfold RNG_BUF_SIZE, away in *. unfold rng_read. destruct (Z.to_nat count) as [|n] eqn:En; [lia|]. cbn [rng_loop].
  rewrite (proj2 (Z.ltb_lt 0 count)) by lia. unfold RNG_BUF_SIZE. rewrite Z.sub_0_r, (proj2 (Z.ltb_ge 256 count)) by lia.
  unfold mbind, M_bind. destruct (exchange_dead 0 rng_buf count VIRTQ_DESC_F_WRITE w Hu) as (w1 & -> & Hm & _).
  unfold upd_ram. rewrite u32_small, Z.add_0_l, Z.ltb_irrefl by lia. unfold mret, M_ret. rewrite s32_nonneg by lia. eexists. split; [done|].
  intros i Hi. cbn [ram]. rewrite Z.add_0_r, Strings.copy_up_spec by lia. rewrite Z.add_0_r, Z2Nat.id by lia. case_if; [|lia]. rewrite Hm. f_equal. lia.
Qed.
End dead.

(** ** Memory of the machine *)
#[global, refine] Instance pmm_low : LowPages Pmm.pmm := {
  low s := Pmm.mem_region_start s + Pmm.total_pages s * PAGE_SIZE <= 2 ^ 44
}.
Proof.
  - intros s a s' Hwf Hlo Ha. destruct (Pmm.allocate_page_spec s a s' Hwf Ha) as [(-> & -> & _)|(p & (Hp & _) & -> & _ & _ & _ & _ & _ & -> & -> & _)]; [done|].
    split; [|done]. unfold PAGE_SIZE in *. lia.
  - intros s a Hwf Hlo Ha. pose proof (Pmm.pmm_owned_ok s a Hwf Ha) as (Ha0 & _ & Ha1). unfold pa_free_page, Pmm.pmm_allocator.
    pose proof (Pmm.free_page_spec s a Hwf ltac:(unfold PAGE_SIZE in *; lia)) as Hf. destruct (Pmm.pmm_free_page a s) as [r s']. cbn [snd].
    destruct r; try (destruct Hf as [-> _]; done). destruct Hf as (_ & _ & _ & _ & _ & _ & -> & -> & _). done.
Defined.

(** ** A device that answers after one look *)
Module Demo.
Section demo.
Context {D : Type} (serve : D -> Z -> list virtq_seg -> mem -> D * Z * mem).
Record ddev := MkD { obs : D; seen : Z -> Z; delay : nat }.
Definition d_run (h : ddev) (q : Z) (v : virtqueue) (m : mem) : ddev * virtqueue * mem :=
  if seen h q =? avail_idx v then (h, v, m)
  else match delay h with
  | S n => (MkD (obs h) (seen h) n, v, m)
  | O =>
      let head := rd (avail_ring v) (seen h q mod size v) in
      let '(o, len, m') := serve (obs h) q (read_chain (Z.to_nat (size v)) v head) m in
      (MkD o (fun q' => if q' =? q then u16 (seen h q + 1) else seen h q') 0, device_complete head len v, m')
  end.
#[local, refine] Instance d_cfg : CfgSpace ddev := { ecam_read _ _ _ := 0; ecam_write _ _ _ h := h }.
Proof. intros w a h Hw. split; [done|]. by apply Z.pow_pos_nonneg. Defined.
#[local] Instance d_hw : VirtHw ddev := {
  vh_read _ _ h := (0, h); vh_write _ h := MkD (obs h) (seen h) 1; vh_run := d_run; vh_patience := 1
}.
#[local, refine] Instance d_ok : VirtHwOk ddev D := {
  vh_obs := obs; vh_bell _ q := 0x1000 + 2 * q; vh_seen := seen; vh_delay := delay; vh_latency := 1; vh_serve := serve
}.
Proof.
  - intros h q. cbn. repeat split; lia.
  - intros h x _. done.
  - intros h q v m h' v' m'. unfold vh_run, d_hw, d_run. destruct (Z.eqb_spec (seen h q) (avail_idx v)) as [He|Hne].
    { intros [= <- <- <-] _. repeat split; done. }
    destruct (delay h) as [|n]; [by intros _ [?|?]|]. intros [= <- <- <-] _. repeat split; done.
  - intros h q v m h' v' m' head. destruct (serve (obs h) q _ m) as [[o len] m1] eqn:Es. unfold vh_run, d_hw, d_run. intros Hr Hne Hd.
    destruct (Z.eqb_spec (seen h q) (avail_idx v)); [done|]. rewrite Hd in Hr. fold head in Hr. rewrite Es in Hr. injection Hr as <- <- <-.
    cbn. rewrite Z.eqb_refl. repeat split; try done. intros q' Hq'. by rewrite (proj2 (Z.eqb_neq q' q)).
Defined.
End demo.
#[local] Instance demo_layout : VLayout := {| rng_buf := Blk.OFF + 0x1000; tx_buf := Blk.OFF + 0x2000; pfn_buf := Blk.OFF + 0x4000 |}.
Definition ready_vq (noff : Z) : virtqueue := default demo_vq (virtqueue_setup 0x100 0 128 noff 0x1000 2 demo_vq).2.
Lemma ready_repr noff : repr (ready_vq noff) (MkA 128 [] []) /\ size (ready_vq noff) = 128.
Proof.
  unfold ready_vq. destruct (setup_sim 0x100 0 128 noff 0x1000 2 demo_vq) as (ws & v & -> & Hs & Hr); [lia|vm_compute; reflexivity..|].
  cbn [snd default]. rewrite Hs in Hr. split; [exact Hr|exact Hs].
Qed.
Definition demo_dev : vdev := MkDev (Pci.MkDev 0 1 0 0x1AF4 0x1044 []) (Pci.MkCaps 0x100 0x1000 0 0x201 2) (ready_vq 0) (ready_vq 1).
Definition demo_w {X D} (x : X) (o : D) : world X (@ddev D) := MkW x Pci.pci_boot demo_dev (fun a => a mod 251) (MkD o (fun _ => 0) 0).
Lemma demo_idle {X D} serve (x : X) (o : D) q : q = 0 \/ q = 1 ->
  @idle X (@ddev D) D d_cfg (d_hw serve) (d_ok serve) (demo_w x o) q.
Proof.
  intros Hq. assert (Hqq : queue q demo_dev = ready_vq q) by (by destruct Hq as [-> | ->]).
  constructor; cbn [demo_w dev hw]; rewrite Hqq; destruct (ready_repr q) as [Hr Hs].
  - by rewrite Hs.
  - destruct Hq as [-> | ->]; vm_compute; reflexivity.
  - destruct Hq as [-> | ->]; vm_compute; split; congruence.
  - destruct Hq as [-> | ->]; vm_compute; reflexivity.
Qed.

(** The host's side of the three devices. *)
Definition serve_rng (stream : Z -> Z) (o q : Z) (segs : list virtq_seg) (m : mem) : Z * Z * mem :=
  match segs with
  | [MkSeg p n _] => (o + n, n, store_buf (PHYS_TO_VIRT p) (stream <$> seqZ o n) m)
  | _ => (o, 0, m)
  end.
Definition serve_console (o : list Z) (q : Z) (segs : list virtq_seg) (m : mem) : list Z * Z * mem :=
  match segs with [MkSeg p n _] => (o ++ load_buf (PHYS_TO_VIRT p) n m, 0, m) | _ => (o, 0, m) end.
Definition serve_balloon (o : gset Z) (q : Z) (segs : list virtq_seg) (m : mem) : gset Z * Z * mem :=
  match segs with
  | [MkSeg p n _] =>
      let ps := list_to_set (words (PHYS_TO_VIRT p) (n / 4) m) in
      (if q =? VIRTIO_BALLOON_VQ_INFLATE then o ∪ ps else o ∖ ps, 0, m)
  | _ => (o, 0, m)
  end.
#[local] Instance cfg_any D : CfgSpace (@ddev D) := d_cfg.
#[local] Instance rng_hw : VirtHw (@ddev Z) := d_hw (serve_rng (fun i => i mod 256)).
#[local] Instance rng_ok : VirtHwOk (@ddev Z) Z := d_ok (serve_rng (fun i => i mod 256)).
#[local] Instance con_hw : VirtHw (@ddev (list Z)) := d_hw serve_console.
#[local] Instance con_ok : VirtHwOk (@ddev (list Z)) (list Z) := d_ok serve_console.
#[local] Instance bln_hw : VirtHw (@ddev (gset Z)) := d_hw serve_balloon.
#[local] Instance bln_ok : VirtHwOk (@ddev (gset Z)) (gset Z) := d_ok serve_balloon.

Lemma spins_enough : Z.of_nat 1 < VIRTQUEUE_POLL_MAX_SPINS.
Proof. done. Qed.
Lemma demo_places : in_kernel rng_buf RNG_BUF_SIZE /\ in_kernel tx_buf CONSOLE_TX_BUF /\ in_kernel pfn_buf (4 * VIRTIO_BALLOON_MAX_PAGES).
Proof. unfold in_kernel. by vm_compute. Qed.
Lemma demo_away n : 0 <= n <= 0x10000 -> away (Blk.OFF + 0x10000) n rng_buf RNG_BUF_SIZE /\ away (Blk.OFF + 0x10000) n tx_buf CONSOLE_TX_BUF.
Proof. intros Hn. unfold away, rng_buf, tx_buf, demo_layout, RNG_BUF_SIZE, CONSOLE_TX_BUF. change Blk.OFF with 0xFFFF000000000000. lia. Qed.
(** 600 bytes of entropy, in three requests. *)
Lemma rng_read_witness : exists w', rng_read (Blk.OFF + 0x10000) 600 (demo_w () 7) = Some (600, w') /\
  delivered (fun i => i mod 256) (demo_w () 7) w' (Blk.OFF + 0x10000) 600.
Proof.
  assert (Hd : entropy_device (fun i => i mod 256)) by (intros o p n m Hn; reflexivity).
  exact (rng_read_correct (fun i => i mod 256) Hd spins_enough (proj1 demo_places) (Blk.OFF + 0x10000) 600 (demo_w () 7)
    (demo_idle _ () 7 0 (or_introl eq_refl)) ltac:(lia) (proj1 (demo_away 600 ltac:(lia)))).
Defined.
Lemma vcons_send_witness : exists w', vcons_send true (Blk.OFF + 0x10000) 5000 (demo_w () []) = Some (5000, w') /\
  logged (demo_w () []) w' (Blk.OFF + 0x10000) 5000.
Proof.
  assert (Hd : console_device) by (intros o p n m Hn; reflexivity).
  exact (proj2 (vcons_send_correct Hd spins_enough (proj1 (proj2 demo_places)) (Blk.OFF + 0x10000) 5000 (demo_w () [])
    (demo_idle _ () [] 1 (or_intror eq_refl)) ltac:(lia) (proj2 (demo_away 5000 ltac:(lia))))).
Defined.

Definition demo_pmm : Pmm.pmm := Pmm.pmm_init 0x40080000 0x40000000 0x1000000.
Definition demo_bln : balloon Pmm.pmm := MkBln true 0 (replicate 1024 0) demo_pmm.
Lemma bln_pmm_ok : pa_ok demo_pmm /\ low demo_pmm.
Proof.
  assert (Pmm.boot_ok 0x40080000 0x40000000 0x1000000) as Hb by (vm_compute; intuition congruence).
  split; [exact (proj1 (Pmm.init_ok _ _ _ Hb))|]. vm_compute. congruence.
Qed.
Lemma demo_bln_inv : bln_inv (demo_w demo_bln (∅ : gset Z)).
Proof.
  constructor.
  - exact eq_refl.
  - vm_compute. split; congruence.
  - vm_compute. reflexivity.
  - exact bln_pmm_ok.
  - constructor.
  - intros p Hp. by apply elem_of_nil in Hp.
  - exact eq_refl.
  - apply demo_idle. by left.
  - apply demo_idle. by right.
  - intros q. change (0x205 <> 0x1000 + 2 * q). lia.
Qed.
Lemma balloon_correct_witness : exists l w', balloon_inflate 3 (demo_w demo_bln (∅ : gset Z)) = Some (Z.of_nat (length l), w') /\
  bln_inv w' /\ inflated (demo_w demo_bln (∅ : gset Z)) w' 3 l.
Proof.
  assert (Hd : balloon_device).
  { intros o p n m Hn. cbn. rewrite (Z.mul_comm 4 n), Z.div_mul by lia. done. }
  destruct (proj1 (balloon_correct Hd spins_enough (proj2 (proj2 demo_places)) 3 (demo_w demo_bln (∅ : gset Z)) demo_bln_inv ltac:(lia)))
    as (l & w' & Hi & Hb & Hin & _).
  exists l, w'. exact (conj Hi (conj Hb Hin)).
Defined.
End Demo.
End Vdev.
