(* ===== verification/NetFmt.v ===== *)
(** * Network frames (src/src/pci/virtio/net/net.c)

    The part of the network driver that builds and takes apart frames: the
    internet checksum, the ARP request and reply, the ICMP echo request, UDP
    datagrams and DHCP messages.  A frame is the list of its bytes; the code
    fills its arrays front to back, so that a frame is the concatenation of its
    headers, and writes the checksums over the two zero bytes afterwards.

    The receive buffer is a list as well.  Reads at fixed offsets are guarded
    by the length of the frame; the options of a DHCP message are read where
    the lengths inside the frame point to, so those reads are checked: [None]
    is a read past the end of the array. *)
From S2P Require Import Prelude Bytes.
#[local] Open Scope Z_scope.

Module NetFmt.

Definition DHCP_DISCOVER : Z := 1.
Definition DHCP_OFFER : Z := 2.
Definition DHCP_REQUEST : Z := 3.
Definition DHCP_ACK : Z := 5.
Definition DHCP_MAGIC : list Z := [0x63; 0x82; 0x53; 0x63].
Definition DHCP_OPT_SUBNET : Z := 1.
Definition DHCP_OPT_ROUTER : Z := 3.
Definition DHCP_OPT_REQ_IP : Z := 50.
Definition DHCP_OPT_LEASE : Z := 51.
Definition DHCP_OPT_MSGTYPE : Z := 53.
Definition DHCP_OPT_SERVER_ID : Z := 54.
Definition DHCP_OPT_PARAM_REQ : Z := 55.
Definition DHCP_OPT_END : Z := 255.
Definition ICMP_PING_PAYLOAD : Z := 56.

(** ** The internet checksum *)
Fixpoint csum_words (data : list Z) (sum : Z) : Z :=
  match data with
  | hi :: lo :: data' => csum_words data' (u32 (sum + ((hi <<< 8) .| lo)))
  | [b] => u32 (sum + (b <<< 8))
  | [] => sum
  end.
(** [while (sum >> 16)]; the second round leaves at most 16 bits *)
Fixpoint fold_loop (fuel : nat) (sum : Z) : Z :=
  match fuel with
  | O => sum
  | S f => if sum >>> 16 =? 0 then sum else fold_loop f (u32 ((sum .& 0xFFFF) + (sum >>> 16)))
  end.
Definition inet_csum (data : list Z) : Z := u16 (unot 32 (fold_loop 3 (csum_words data 0))).

(** ** Frames *)
Definition be16 (x : Z) : list Z := [(x >>> 8) .& 0xFF; x .& 0xFF].
Definition be32 (x : Z) : list Z := [(x >>> 24) .& 0xFF; (x >>> 16) .& 0xFF; (x >>> 8) .& 0xFF; x .& 0xFF].
(** The checksum of [h], written at offset [o] of it. *)
Definition put_csum (o : Z) (h : list Z) : list Z :=
  let c := inet_csum h in wr (wr h o ((c >>> 8) .& 0xFF)) (o + 1) (c .& 0xFF).

Definition eth_header (dst src : list Z) (lo : Z) : list Z := dst ++ src ++ [0x08; lo].
Definition ip_header (proto total : Z) (src dst : list Z) : list Z :=
  put_csum 10 ([0x45; 0] ++ be16 total ++ [0; 0; 0; 0; 64; proto; 0; 0] ++ src ++ dst).

Definition arp_request (mac my_ip gateway_ip : list Z) : list Z :=
  eth_header (replicate 6 0xFF) mac 0x06 ++
  [0x00; 0x01; 0x08; 0x00; 6; 4; 0x00; 0x01] ++ mac ++ my_ip ++ replicate 6 0 ++ gateway_ip ++ replicate 18 0.

(** [parse_arp_reply]: the sender's hardware address, if the frame is a reply *)
Definition parse_arp_reply (frame : list Z) (len : Z) : option (list Z) :=
  if len <? 42 then None
  else if negb (rd frame 12 =? 0x08) || negb (rd frame 13 =? 0x06) then None
  else if negb (rd frame (14 + 6) =? 0x00) || negb (rd frame (14 + 7) =? 0x02) then None
  else Some ((fun i => rd frame (14 + 8 + i)) <$> seqZ 0 6).

Definition ping_payload : list Z := (fun i => u8 (97 + i mod 26)) <$> seqZ 0 ICMP_PING_PAYLOAD.
Definition icmp_echo (seq : Z) : list Z :=
  put_csum 2 ([8; 0; 0; 0; 0; 42] ++ be16 seq ++ ping_payload).
Definition ping_request (gateway_mac mac my_ip gateway_ip : list Z) (seq : Z) : list Z :=
  eth_header gateway_mac mac 0x00 ++ ip_header 1 (20 + 8 + ICMP_PING_PAYLOAD) my_ip gateway_ip ++ icmp_echo seq.

Definition udp_build (dst_mac mac src_ip dst_ip : list Z) (src_port dst_port : Z) (payload : list Z) : list Z :=
  let udp_len := u32 (8 + Z.of_nat (length payload)) in
  let ip_len := u32 (20 + udp_len) in
  eth_header dst_mac mac 0x00 ++ ip_header 17 ip_len src_ip dst_ip ++
  be16 src_port ++ be16 dst_port ++ be16 udp_len ++ [0; 0] ++ payload.

(** ** DHCP *)
Definition dhcp_build (msg_type : Z) (client_mac : list Z) (xid : Z) (requested_ip server_id : option (list Z)) : list Z :=
  [1; 1; 6; 0] ++ be32 xid ++ replicate 20 0 ++ client_mac ++ replicate 202 0 ++ DHCP_MAGIC ++
  [DHCP_OPT_MSGTYPE; 1; msg_type] ++
  [DHCP_OPT_PARAM_REQ; 4; DHCP_OPT_SUBNET; DHCP_OPT_ROUTER; DHCP_OPT_LEASE; DHCP_OPT_SERVER_ID] ++
  (match requested_ip with Some ip => [DHCP_OPT_REQ_IP; 4] ++ ip | None => [] end) ++
  (match server_id with Some id => [DHCP_OPT_SERVER_ID; 4] ++ id | None => [] end) ++
  [DHCP_OPT_END].

Definition get (a : list Z) (i : Z) : option Z := if i <? 0 then None else a !! Z.to_nat i.

(** The options are at [base] in the array [a]; the outcome is the position
    of the value, relative to [base], and its length. *)
Fixpoint find_loop (fuel : nat) (a : list Z) (base p max_len want : Z) : option (option (Z * Z)) :=
  match fuel with
  | O => Some None
  | S f =>
      if p <? max_len then
        match get a (base + p) with
        | None => None
        | Some code =>
            if code =? DHCP_OPT_END then Some None
            else if code =? 0 then find_loop f a base (p + 1) max_len want
            else if max_len <=? p + 1 then Some None
            else
              match get a (base + (p + 1)) with
              | None => None
              | Some len =>
                  if max_len <? p + 2 + len then Some None
                  else if code =? want then Some (Some (p + 2, len))
                  else find_loop f a base (p + (2 + len)) max_len want
              end
        end
      else Some None
  end.
Definition dhcp_find_option (a : list Z) (base max_len want : Z) : option (option (Z * Z)) :=
  find_loop (Z.to_nat max_len) a base 0 max_len want.

(** [n] bytes of an option *)
Fixpoint take_bytes (n : nat) (a : list Z) (i : Z) : option (list Z) :=
  match n with
  | O => Some []
  | S n' => match get a i, take_bytes n' a (i + 1) with Some x, Some l => Some (x :: l) | _, _ => None end
  end.
(** [if (opt && ok(l)) for (i < 4) out[i] = opt[i]] *)
Definition copy_option (a : list Z) (base : Z) (ok : Z -> bool) (o : option (Z * Z)) (out : list Z) : option (list Z) :=
  match o with
  | Some (pos, l) => if ok l then take_bytes 4 a (base + pos) else Some out
  | None => Some out
  end.

(** The results of [dhcp_parse], which are also its initial values. *)
Record reply := MkReply { yiaddr : list Z; server : list Z; mask : list Z; router : list Z; lease : Z }.
Definition be_word (l : list Z) : Z := (rd l 0 <<< 24) .| (rd l 1 <<< 16) .| (rd l 2 <<< 8) .| rd l 3.

Definition dhcp_options (a : list Z) (base opts_len expect_msg : Z) (out : reply) : option (option reply) :=
  mt ← dhcp_find_option a base opts_len DHCP_OPT_MSGTYPE;
  match mt with
  | Some (pos, 1) =>
      m ← get a (base + pos);
      if negb (m =? expect_msg) then Some None
      else
        let yi := (fun i => rd a (14 + 20 + 8 + 16 + i)) <$> seqZ 0 4 in
        sid ← dhcp_find_option a base opts_len DHCP_OPT_SERVER_ID;
        sv ← copy_option a base (fun l => l =? 4) sid (server out);
        sm ← dhcp_find_option a base opts_len DHCP_OPT_SUBNET;
        mk ← copy_option a base (fun l => l =? 4) sm (mask out);
        rt ← dhcp_find_option a base opts_len DHCP_OPT_ROUTER;
        ro ← copy_option a base (fun l => 4 <=? l) rt (router out);
        ls ← dhcp_find_option a base opts_len DHCP_OPT_LEASE;
        le ← copy_option a base (fun l => l =? 4) ls [0; 0; 0; 0];
        Some (Some (MkReply yi sv mk ro (be_word le)))
  | _ => Some None
  end.
(** [Some None] is the return value 0, which leaves the results alone. *)
Definition dhcp_parse (a : list Z) (flen expect_xid expect_msg : Z) (out : reply) : option (option reply) :=
  let ip := 14 in
  let udp := ip + 20 in
  let bootp := udp + 8 in
  if flen <? 14 + 20 + 8 + 240 then Some None
  else if negb (rd a 12 =? 0x08) || negb (rd a 13 =? 0x00) then Some None
  else if negb (rd a ip .& 0xF0 =? 0x40) then Some None
  else if negb (rd a (ip + 9) =? 17) then Some None
  else if negb ((rd a ip .& 0x0F) * 4 =? 20) then Some None
  else
    let src_port := (rd a udp <<< 8) .| rd a (udp + 1) in
    let dst_port := (rd a (udp + 2) <<< 8) .| rd a (udp + 3) in
    let udp_len := (rd a (udp + 4) <<< 8) .| rd a (udp + 5) in
    if negb (src_port =? 67) || negb (dst_port =? 68) then Some None
    else if udp_len <? 8 + 240 then Some None
    else if negb (rd a bootp =? 2) then Some None
    else if negb (be_word [rd a (bootp + 4); rd a (bootp + 5); rd a (bootp + 6); rd a (bootp + 7)] =? expect_xid) then Some None
    else if negb (rd a (bootp + 236) =? 0x63) || negb (rd a (bootp + 237) =? 0x82) ||
            negb (rd a (bootp + 238) =? 0x53) || negb (rd a (bootp + 239) =? 0x63) then Some None
    else dhcp_options a (bootp + 240) (udp_len - 8 - 240) expect_msg out.

(** ** The checksum is right

    The sum of the 16-bit words, as a number. *)
Fixpoint words (data : list Z) : Z :=
  match data with
  | hi :: lo :: data' => hi * 256 + lo + words data'
  | [b] => b * 256
  | [] => 0
  end.
Lemma list_ind2 {A} (P : list A -> Prop) :
  P [] -> (forall x, P [x]) -> (forall x y l, P l -> P (x :: y :: l)) -> forall l, P l.
Proof.
  intros H0 H1 H2 l. enough (P l /\ forall x, P (x :: l)) by tauto.
  induction l as [|y l [IH1 IH2]]; [split; [done|apply H1]|]. split; [apply IH2|]. intros x. by apply H2.
Qed.
Lemma words_range l : Forall is_byte l -> 0 <= words l <= 65535 * Z.of_nat (length l).
Proof.
  induction l as [|b|hi lo l IH] using list_ind2; intros HF; cbn [words length].
  - lia.
  - apply Forall_cons in HF as [Hb _]. unfold is_byte in Hb. lia.
  - apply Forall_cons in HF as [Hh HF]. apply Forall_cons in HF as [Hl HF]. specialize (IH HF). unfold is_byte in *. lia.
Qed.
Lemma csum_words_sum l s :
  Forall is_byte l -> 0 <= s -> s + 65535 * Z.of_nat (length l) < 2 ^ 32 -> csum_words l s = s + words l.
Proof.
  revert s. induction l as [|b|hi lo l IH] using list_ind2; intros s HF Hs Hb; cbn [csum_words words length] in *.
  - lia.
  - apply Forall_cons in HF as [Hx _]. rewrite Z.shiftl_mul_pow2, u32_small; unfold is_byte in *; lia.
  - apply Forall_cons in HF as [Hh HF]. apply Forall_cons in HF as [Hl HF].
    rewrite be16_val by done. unfold is_byte in *. rewrite u32_small by lia. rewrite IH by (done || lia). lia.
Qed.
(** Folding keeps the residue modulo 65535 and leaves 0 only for 0. *)
Lemma fold_step s : 0 <= s < 2 ^ 32 ->
  u32 ((s .& 0xFFFF) + (s >>> 16)) = s - 65535 * (s / 65536) /\ 0 <= s - 65535 * (s / 65536).
Proof.
  intros Hs. change (s .& 0xFFFF) with (s .& Z.ones 16). rewrite Z.land_ones, Z.shiftr_div_pow2 by lia.
  change (2 ^ 16) with 65536. rewrite u32_small by dlia. dlia.
Qed.
Lemma fold_loop_spec s : 0 <= s < 2 ^ 32 ->
  exists k, fold_loop 3 s = s - 65535 * k /\ 0 <= fold_loop 3 s <= 65535 /\ (0 < s <-> 0 < fold_loop 3 s).
Proof.
  intros Hs.
  assert (forall x, 0 <= x < 2 ^ 32 -> x >>> 16 = x / 65536) as Hsh by (intros; by rewrite Z.shiftr_div_pow2 by lia).
  cbn [fold_loop]. rewrite !Hsh by done. destruct (Z.eqb_spec (s / 65536) 0) as [Hz|Hz].
  { exists 0. dlia. }
  assert (0 < s) as Hs0 by dlia. rewrite <- Hsh by done. destruct (fold_step s Hs) as [-> H1]. set (s1 := s - _) in *.
  assert (0 <= s1 <= 131070 /\ 0 < s1) as [Hs1 Hp1] by (unfold s1; dlia).
  rewrite !Hsh by lia. destruct (Z.eqb_spec (s1 / 65536) 0) as [Hz1|Hz1].
  { exists (s / 65536). split; [done|]. dlia. }
  rewrite <- Hsh by lia. destruct (fold_step s1 ltac:(lia)) as [-> H2]. set (s2 := s1 - _) in *.
  assert (0 < s2 <= 65535) as Hs2 by (unfold s2; dlia).
  rewrite !Hsh by lia. destruct (Z.eqb_spec (s2 / 65536) 0) as [Hz2|Hz2]; [|dlia].
  exists (s / 65536 + s1 / 65536). unfold s2, s1 in *. lia.
Qed.
Lemma inet_csum_words l : Forall is_byte l -> Z.of_nat (length l) < 65536 ->
  exists k, inet_csum l = 65535 - (words l - 65535 * k) /\ 0 <= inet_csum l <= 65535 /\ (0 < words l <-> inet_csum l < 65535).
Proof.
  intros HF Hl. pose proof (words_range l HF). unfold inet_csum. rewrite csum_words_sum by (done || lia). rewrite Z.add_0_l.
  destruct (fold_loop_spec (words l) ltac:(lia)) as (k & He & Hr & Hp). exists k. set (f := fold_loop 3 (words l)) in *.
  assert (u16 (unot 32 f) = 65535 - f) as ->.
  { unfold unot, u16, wrap, Z.lnot. change (2 ^ 16) with 65536. change (2 ^ 32) with 4294967296. dlia. }
  lia.
Qed.

(** Bytes as the code splits them. *)
Lemma split_hi x : 0 <= x < 65536 -> (x >>> 8) .& 0xFF = x / 256.
Proof. intros. change 0xFF with (Z.ones 8). rewrite Z.land_ones, Z.shiftr_div_pow2 by lia. change (2 ^ 8) with 256. dlia. Qed.
Lemma split_lo x : x .& 0xFF = x mod 256.
Proof. change 0xFF with (Z.ones 8). by rewrite Z.land_ones by lia. Qed.

Lemma words_app a b : Nat.Even (length a) -> words (a ++ b) = words a + words b.
Proof.
  induction a as [|x|hi lo a IH] using list_ind2; intros He; cbn [words app length] in *; [done| |].
  - destruct He as [k Hk]. lia.
  - rewrite IH; [lia|]. destruct He as [k Hk]. exists (k - 1)%nat. lia.
Qed.
(** A header with its checksum in place: the receiver's sum comes out as 0. *)
Lemma put_csum_valid a b :
  Nat.Even (length a) -> Forall is_byte a -> Forall is_byte b -> Z.of_nat (length a + length b) < 65000 ->
  inet_csum (put_csum (Z.of_nat (length a)) (a ++ [0; 0] ++ b)) = 0.
Proof.
  intros He Ha Hb Hl. set (h := a ++ [0; 0] ++ b). set (c := inet_csum h).
  assert (Forall is_byte h) as Hh by (unfold h; rewrite !Forall_app; repeat split; [done| |done]; repeat constructor; unfold is_byte; lia).
  assert (Z.of_nat (length h) < 65536) as Hlh by (unfold h; rewrite !length_app; cbn [length]; lia).
  destruct (inet_csum_words h Hh Hlh) as (k & Hc & Hr & Hp). fold c in Hc, Hr, Hp.
  assert (put_csum (Z.of_nat (length a)) h = a ++ [c / 256; c mod 256] ++ b) as ->.
  { unfold put_csum. fold c. rewrite split_hi, split_lo by lia. unfold wr, h.
    replace (Z.to_nat (Z.of_nat (length a) + 1)) with (length a + 1)%nat by lia. rewrite Nat2Z.id.
    rewrite <- (Nat.add_0_r (length a)) at 2. rewrite !insert_app_r. done. }
  assert (Forall is_byte (a ++ [c / 256; c mod 256] ++ b)) as Hn.
  { rewrite !Forall_app. split; [done|]. split; [|done]. repeat constructor; unfold is_byte; dlia. }
  assert (words (a ++ [c / 256; c mod 256] ++ b) = words h + c) as Hw.
  { unfold h. rewrite !words_app by (done || (exists 1%nat; done)). cbn [words]. dlia. }
  destruct (inet_csum_words _ Hn) as (k' & Hc' & Hr' & Hp').
  { rewrite !length_app. cbn [length]. lia. }
  rewrite Hw in Hc', Hp'. pose proof (words_range h Hh).
  destruct (Z.eq_dec (words h) 0) as [Hz|Hz]; [assert (c = 65535) by lia|]; lia.
Qed.

(** ** The frames *)
Definition bytes (n : nat) (l : list Z) : Prop := length l = n /\ Forall is_byte l.
Definition slice (o n : nat) (l : list Z) : list Z := take n (drop o l).

Lemma be16_bytes x : bytes 2 (be16 x).
Proof.
  split; [done|]. unfold be16. rewrite !split_lo. repeat constructor; unfold is_byte; dlia.
Qed.
Lemma length_put_csum o h : length (put_csum o h) = length h.
Proof. unfold put_csum. by rewrite !length_wr. Qed.
Lemma ip_header_valid proto total src dst :
  is_byte proto -> bytes 4 src -> bytes 4 dst ->
  length (ip_header proto total src dst) = 20%nat /\ inet_csum (ip_header proto total src dst) = 0.
Proof.
  intros Hp [Hs Hsb] [Hd Hdb]. unfold ip_header. split.
  { rewrite length_put_csum. rewrite !length_app, Hs, Hd. done. }
  pose proof (put_csum_valid ([0x45; 0] ++ be16 total ++ [0; 0; 0; 0; 64; proto]) (src ++ dst)) as Hv.
  rewrite <- !app_assoc in Hv. apply Hv.
  - by exists 5%nat.
  - rewrite !Forall_app. pose proof (be16_bytes total) as [_ ?]. split; [repeat constructor; unfold is_byte; lia|].
    split; [done|]. repeat constructor; unfold is_byte in *; lia.
  - by rewrite Forall_app.
  - rewrite !length_app, Hs, Hd. cbn. lia.
Qed.
Lemma icmp_echo_valid seq : length (icmp_echo seq) = 64%nat /\ inet_csum (icmp_echo seq) = 0.
Proof.
  unfold icmp_echo. split; [by rewrite length_put_csum|].
  pose proof (put_csum_valid [8; 0] ([0; 42] ++ be16 seq ++ ping_payload)) as Hv. apply Hv.
  - by exists 1%nat.
  - repeat constructor; unfold is_byte; lia.
  - rewrite !Forall_app. pose proof (be16_bytes seq) as [_ ?]. split; [repeat constructor; unfold is_byte; lia|].
    split; [done|]. unfold ping_payload. apply Forall_fmap, Forall_forall. intros i _. unfold compose. apply u8_range.
  - done.
Qed.
Lemma slice_mid a b c n k : length a = n -> length b = k -> slice n k (a ++ b ++ c) = b.
Proof. intros <- <-. unfold slice. by rewrite drop_app_length, take_app_length. Qed.

Lemma be16_rd_join x : 0 <= x < 65536 -> (rd (be16 x) 0 <<< 8) .| rd (be16 x) 1 = x.
Proof.
  intros Hx. change (rd (be16 x) 0) with ((x >>> 8) .& 0xFF). change (rd (be16 x) 1) with (x .& 0xFF).
  rewrite split_hi, split_lo by done. rewrite be16_val by (unfold is_byte; dlia). dlia.
Qed.
Lemma ip_header_total proto total src dst :
  rd (ip_header proto total src dst) 2 = rd (be16 total) 0 /\ rd (ip_header proto total src dst) 3 = rd (be16 total) 1.
Proof. unfold ip_header, put_csum. rewrite !rd_wr_ne by lia. done. Qed.
Lemma rd_skip a b i n : length a = n -> Z.of_nat n <= i -> rd (a ++ b) i = rd b (i - Z.of_nat n).
Proof. intros <- Hi. rewrite rd_app by lia. by destruct (Z.ltb_spec i (Z.of_nat (length a))); [lia|]. Qed.
Lemma rd_first a b i n : length a = n -> 0 <= i < Z.of_nat n -> rd (a ++ b) i = rd a i.
Proof. intros <- Hi. rewrite rd_app by lia. by destruct (Z.ltb_spec i (Z.of_nat (length a))); [|lia]. Qed.

(** Every IP header and every ICMP message the kernel sends carries the
    checksum a receiver expects, and the lengths in the headers are those of
    the frame, up to the 16 bits they have. *)
Theorem sent_frames_valid dst_mac mac my_ip ip sp dp payload seq :
  bytes 6 dst_mac -> bytes 6 mac -> bytes 4 my_ip -> bytes 4 ip -> Z.of_nat (length payload) <= 1472 ->
  let u := udp_build dst_mac mac my_ip ip sp dp payload in
  let p := ping_request dst_mac mac my_ip ip seq in
  length u = (42 + length payload)%nat /\ inet_csum (slice 14 20 u) = 0 /\
  (rd u 16 <<< 8) .| rd u 17 = Z.of_nat (length u) - 14 /\ (rd u 38 <<< 8) .| rd u 39 = Z.of_nat (length u) - 34 /\
  length p = 98%nat /\ inet_csum (slice 14 20 p) = 0 /\ inet_csum (slice 34 64 p) = 0 /\
  (rd p 16 <<< 8) .| rd p 17 = Z.of_nat (length p) - 14.
Proof.
  intros [Hdm Hdmb] [Hm Hmb] Hsrc Hdst Hl u p. 
  assert (forall k, length (eth_header dst_mac mac k) = 14%nat) as He by (intros k; unfold eth_header; rewrite !length_app, Hdm, Hm; done).
  destruct (ip_header_valid 17 (u32 (20 + u32 (8 + Z.of_nat (length payload)))) my_ip ip ltac:(unfold is_byte; lia) Hsrc Hdst) as [Hi1 Hc1].
  destruct (ip_header_valid 1 (20 + 8 + ICMP_PING_PAYLOAD) my_ip ip ltac:(unfold is_byte; lia) Hsrc Hdst) as [Hi2 Hc2].
  destruct (icmp_echo_valid seq) as [Hi3 Hc3].
  assert (length u = (42 + length payload)%nat) as Hlu.
  { unfold u, udp_build. rewrite !length_app, He, Hi1. cbn [length be16]. lia. }
  assert (length p = 98%nat) as Hlp by (unfold p, ping_request; rewrite !length_app, He, Hi2, Hi3; done).
  rewrite Hlu, Hlp. rewrite (u32_small (8 + _)) in Hi1, Hc1 by lia. rewrite (u32_small (20 + _)) in Hi1, Hc1 by lia.
  assert (forall x y proto total, 0 <= total < 65536 -> length (ip_header proto total my_ip ip) = 20%nat ->
    (rd (eth_header dst_mac mac x ++ ip_header proto total my_ip ip ++ y) 16 <<< 8) .|
     rd (eth_header dst_mac mac x ++ ip_header proto total my_ip ip ++ y) 17 = total) as Htot.
  { intros x y proto total Ht Hip. rewrite !(rd_skip (eth_header _ _ _) _ _ 14 (He x)) by lia.
    rewrite !(rd_first _ y _ 20 Hip) by lia.
    change (16 - Z.of_nat 14) with 2. change (17 - Z.of_nat 14) with 3. destruct (ip_header_total proto total my_ip ip) as [-> ->]. by apply be16_rd_join. }
  unfold u, p, udp_build, ping_request. cbv zeta. rewrite (u32_small (8 + _)), (u32_small (20 + _)) by lia.
  split; [done|]. split; [by rewrite (slice_mid _ _ _ _ _ (He _) Hi1)|].
  split; [rewrite Htot by (done || lia); lia|]. split.
  { rewrite !(rd_skip (eth_header _ _ _) _ _ 14 (He _)) by lia. rewrite !(rd_skip _ _ _ 20 Hi1) by lia.
    rewrite !(rd_skip (be16 _) _ _ 2 eq_refl) by lia. rewrite !(rd_first (be16 _) _ _ 2 eq_refl) by lia. 
    etransitivity; [apply be16_rd_join; lia|lia]. }
  split; [done|]. split; [by rewrite (slice_mid _ _ _ _ _ (He _) Hi2)|]. split.
  { pose proof (slice_mid (eth_header dst_mac mac 0 ++ ip_header 1 (20 + 8 + ICMP_PING_PAYLOAD) my_ip ip) (icmp_echo seq) [] 34 64) as Hsl.
    rewrite app_nil_r, <- app_assoc in Hsl. rewrite Hsl by (rewrite ?length_app, ?He, ?Hi2; done). done. }
  rewrite Htot by done. done.
Qed.

(** ** DHCP options

    The options as a list: padding, or a code with its value. *)
Definition opt_ok (o : option (Z * list Z)) : Prop :=
  match o with None => True | Some (c, v) => 0 < c < 255 /\ (length v < 256)%nat end.
Definition enc_opt (o : option (Z * list Z)) : list Z :=
  match o with None => [0] | Some (c, v) => c :: Z.of_nat (length v) :: v end.
Definition enc_opts (os : list (option (Z * list Z))) : list Z := os ≫= enc_opt.
(** The first option with code [want]. *)
Fixpoint opt_lookup (os : list (option (Z * list Z))) (want : Z) : option (list Z) :=
  match os with
  | [] => None
  | Some (c, v) :: os' => if c =? want then Some v else opt_lookup os' want
  | None :: os' => opt_lookup os' want
  end.

Lemma get_app l r i : 0 <= i -> get (l ++ r) (Z.of_nat (length l) + i) = get r i.
Proof.
  intros Hi. unfold get. destruct (Z.ltb_spec (Z.of_nat (length l) + i) 0); [lia|]. destruct (Z.ltb_spec i 0); [lia|].
  rewrite lookup_app_r by lia. f_equal. lia.
Qed.
Lemma take_bytes_app l v r : take_bytes (length v) (l ++ v ++ r) (Z.of_nat (length l)) = Some v.
Proof.
  revert l. induction v as [|x v IH]; intros l; [done|]. cbn [take_bytes length].
  pose proof (get_app l ((x :: v) ++ r) 0 ltac:(lia)) as Hg. rewrite Z.add_0_r in Hg. rewrite Hg. cbn [app get].
  change (get (x :: v ++ r) 0) with (Some x). specialize (IH (l ++ [x])).
  rewrite length_app, <- app_assoc in IH. cbn [length app] in IH. rewrite Nat2Z.inj_add in IH.
  change (Z.of_nat 1) with 1 in IH. by rewrite IH.
Qed.
Lemma take_bytes_le n v l r : (n <= length v)%nat -> take_bytes n (l ++ v ++ r) (Z.of_nat (length l)) = Some (take n v).
Proof.
  intros Hn. rewrite <- (take_drop n v) at 1. rewrite <- app_assoc.
  pose proof (take_bytes_app l (take n v) (drop n v ++ r)) as Ht. rewrite length_take, Nat.min_l in Ht by done. done.
Qed.

(** Where the walk stands: [pre] is the part of the array before the options,
    [front] what it has passed. *)
Lemma find_option_spec fuel pre front os rest want max :
  Forall opt_ok os -> (length (enc_opts os) < fuel)%nat ->
  Z.of_nat (length front + length (enc_opts os)) < max -> 0 < want < 255 ->
  let a := pre ++ front ++ enc_opts os ++ [DHCP_OPT_END] ++ rest in
  match opt_lookup os want with
  | None => find_loop fuel a (Z.of_nat (length pre)) (Z.of_nat (length front)) max want = Some None
  | Some v => exists p l r, find_loop fuel a (Z.of_nat (length pre)) (Z.of_nat (length front)) max want =
        Some (Some (p, Z.of_nat (length v))) /\ a = pre ++ l ++ v ++ r /\ p = Z.of_nat (length l)
  end.
Proof.
  intros Hok Hf Hm Hw. revert fuel front Hf Hm. induction Hok as [|o os Ho Hos IH]; intros fuel front Hf Hm a.
  { destruct fuel as [|f]; [cbn in Hf; lia|]. cbn [opt_lookup find_loop]. destruct (Z.ltb_spec (Z.of_nat (length front)) max); [|lia].
    unfold a. pose proof (get_app pre (front ++ enc_opts [] ++ [DHCP_OPT_END] ++ rest) (Z.of_nat (length front)) ltac:(lia)) as ->.
    pose proof (get_app front (enc_opts [] ++ [DHCP_OPT_END] ++ rest) 0 ltac:(lia)) as Hg. rewrite Z.add_0_r in Hg. rewrite Hg. done. }
  destruct fuel as [|f]; [lia|]. cbn [enc_opts mbind list_bind] in *. fold (enc_opts os) in *. rewrite length_app in Hf, Hm.
  assert (get a (Z.of_nat (length pre) + Z.of_nat (length front)) = get (enc_opt o ++ enc_opts os ++ [DHCP_OPT_END] ++ rest) 0) as Hg.
  { unfold a. rewrite get_app by lia. pose proof (get_app front ((enc_opt o ++ enc_opts os) ++ [DHCP_OPT_END] ++ rest) 0 ltac:(lia)) as Hg.
    rewrite Z.add_0_r in Hg. rewrite Hg, <- app_assoc. done. }
  destruct o as [[c v]|]; cbn [enc_opt length] in *.
  - cbn [opt_lookup find_loop]. destruct (Z.ltb_spec (Z.of_nat (length front)) max); [|lia].
    rewrite Hg. change (get ((c :: ?x) ++ _) 0) with (Some c). cbn [opt_ok] in Ho. destruct Ho as [Hc Hv].
    destruct (Z.eqb_spec c DHCP_OPT_END); [unfold DHCP_OPT_END in *; lia|]. destruct (Z.eqb_spec c 0); [lia|].
    destruct (Z.leb_spec max (Z.of_nat (length front) + 1)); [lia|].
    assert (get a (Z.of_nat (length pre) + (Z.of_nat (length front) + 1)) = Some (Z.of_nat (length v))) as ->.
    { unfold a. rewrite !get_app by lia. done. }
    destruct (Z.ltb_spec max (Z.of_nat (length front) + 2 + Z.of_nat (length v))); [lia|].
    destruct (Z.eqb_spec c want) as [->|Hne].
    + exists (Z.of_nat (length front) + 2), (front ++ [want; Z.of_nat (length v)]), (enc_opts os ++ [DHCP_OPT_END] ++ rest).
      split; [done|]. split; [unfold a; rewrite <- !app_assoc; done|]. rewrite length_app. cbn [length]. lia.
    + specialize (IH f (front ++ c :: Z.of_nat (length v) :: v)). rewrite length_app in IH. cbn [length] in IH.
      replace (Z.of_nat (length front) + (2 + Z.of_nat (length v))) with (Z.of_nat (length front + S (S (length v)))) by lia.
      unfold a. rewrite <- !app_assoc in *. apply IH; lia.
  - cbn [opt_lookup find_loop]. destruct (Z.ltb_spec (Z.of_nat (length front)) max); [|lia].
    rewrite Hg. change (get ([0] ++ ?x) 0) with (Some 0). cbn [Z.eqb DHCP_OPT_END].
    specialize (IH f (front ++ [0])). rewrite length_app in IH. cbn [length] in IH.
    replace (Z.of_nat (length front) + 1) with (Z.of_nat (length front + 1)) by lia.
    unfold a. rewrite <- !app_assoc in *. apply IH; lia.
Qed.

(** ** DHCP replies

    A reply as it lies in the receive buffer: the fields the client looks at,
    everything else left open, the options in any order, and whatever was in
    the buffer behind the frame. *)
Record reply_frame := MkFrame {
  f_eth : list Z; f_ip1 : list Z; f_ip2 : list Z; f_csum : list Z; f_hw : list Z; f_flags : list Z; f_mid : list Z;
  f_xid : Z; f_yiaddr : list Z; f_opts : list (option (Z * list Z)); f_pad : list Z
}.
Definition frame_ok (f : reply_frame) : Prop :=
  length (f_eth f) = 12%nat /\ length (f_ip1 f) = 8%nat /\ length (f_ip2 f) = 10%nat /\ length (f_csum f) = 2%nat /\
  length (f_hw f) = 3%nat /\ length (f_flags f) = 8%nat /\ length (f_mid f) = 216%nat /\ length (f_yiaddr f) = 4%nat /\
  0 <= f_xid f < 2 ^ 32 /\ Forall opt_ok (f_opts f).
Definition f_udp_len (f : reply_frame) : Z := 249 + Z.of_nat (length (enc_opts (f_opts f)) + length (f_pad f)).
Definition frame_head (f : reply_frame) : list Z :=
  (f_eth f ++ [0x08; 0x00] ++ [0x45] ++ f_ip1 f ++ [17] ++ f_ip2 f ++ [0; 67; 0; 68] ++ be16 (f_udp_len f) ++ f_csum f ++
   [2] ++ f_hw f ++ be32 (f_xid f) ++ f_flags f ++ f_yiaddr f) ++ f_mid f ++ DHCP_MAGIC.
Definition frame_bytes (f : reply_frame) : list Z :=
  frame_head f ++ enc_opts (f_opts f) ++ [DHCP_OPT_END] ++ f_pad f.

(** What the client takes from the options. *)
Definition opt4 (os : list (option (Z * list Z))) (c : Z) (d : list Z) : list Z :=
  match opt_lookup os c with Some v => if (length v =? 4)%nat then v else d | None => d end.
Definition opt4_first (os : list (option (Z * list Z))) (c : Z) (d : list Z) : list Z :=
  match opt_lookup os c with Some v => if (4 <=? length v)%nat then take 4 v else d | None => d end.
Definition taken (f : reply_frame) (msg : Z) (out : reply) : option reply :=
  match opt_lookup (f_opts f) DHCP_OPT_MSGTYPE with
  | Some [m] =>
      if m =? msg then
        Some (MkReply (f_yiaddr f) (opt4 (f_opts f) DHCP_OPT_SERVER_ID (server out)) (opt4 (f_opts f) DHCP_OPT_SUBNET (mask out))
                (opt4_first (f_opts f) DHCP_OPT_ROUTER (router out)) (be_word (opt4 (f_opts f) DHCP_OPT_LEASE [0; 0; 0; 0])))
      else None
  | _ => None
  end.

Lemma length_frame_head f : frame_ok f -> length (frame_head f) = 282%nat.
Proof.
  intros (H1 & H2 & H3 & H4 & H5 & H6 & H7 & H8 & _). unfold frame_head. rewrite !length_app, H1, H2, H3, H4, H5, H6, H7, H8. done.
Qed.

(** The options of a frame, as the client finds them. *)
Section options.
Context (f : reply_frame) (junk : list Z) (Hf : frame_ok f).
Let a : list Z := frame_bytes f ++ junk.
Let olen : Z := f_udp_len f - 8 - 240.

Lemma find_in_frame want : 0 < want < 255 ->
  match opt_lookup (f_opts f) want with
  | None => dhcp_find_option a 282 olen want = Some None
  | Some v => exists p l r, dhcp_find_option a 282 olen want = Some (Some (p, Z.of_nat (length v))) /\
                a = l ++ v ++ r /\ 282 + p = Z.of_nat (length l)
  end.
Proof.
  intros Hw. pose proof (length_frame_head f Hf) as Hh.
  destruct Hf as (_ & _ & _ & _ & _ & _ & _ & _ & _ & Hos).
  pose proof (find_option_spec (Z.to_nat olen) (frame_head f) [] (f_opts f) (f_pad f ++ junk) want olen Hos) as Hs.
  unfold f_udp_len in olen. cbn [length app Nat.add] in Hs. rewrite Hh in Hs. specialize (Hs ltac:(unfold olen; lia) ltac:(unfold olen; lia) Hw).
  assert (a = frame_head f ++ enc_opts (f_opts f) ++ DHCP_OPT_END :: f_pad f ++ junk) as Ha.
  { unfold a, frame_bytes. rewrite <- !app_assoc. done. }
  rewrite <- Ha in Hs. change (Z.of_nat 282) with 282 in Hs. unfold dhcp_find_option.
  destruct (opt_lookup (f_opts f) want) as [v|]; [|done]. destruct Hs as (p & l & r & He & Hl & Hp).
  exists p, (frame_head f ++ l), r. split; [done|]. split; [rewrite <- app_assoc; done|]. rewrite length_app, Hh. lia.
Qed.
Lemma copy_in_frame want d : 0 < want < 255 ->
  exists o, dhcp_find_option a 282 olen want = Some o /\
    copy_option a 282 (fun l => l =? 4) o d = Some (opt4 (f_opts f) want d) /\
    copy_option a 282 (fun l => 4 <=? l) o d = Some (opt4_first (f_opts f) want d).
Proof.
  intros Hw. pose proof (find_in_frame want Hw) as Hs. unfold opt4, opt4_first.
  destruct (opt_lookup (f_opts f) want) as [v|]; [|by exists None].
  destruct Hs as (p & l & r & -> & Ha & Hp). eexists. split; [done|]. cbn [copy_option]. rewrite Hp, Ha. split.
  - destruct (Nat.eqb_spec (length v) 4) as [E|E]; destruct (Z.eqb_spec (Z.of_nat (length v)) 4); try lia; [|done].
    rewrite take_bytes_le by lia. by rewrite take_ge by lia.
  - destruct (Nat.leb_spec 4 (length v)) as [E|E]; destruct (Z.leb_spec 4 (Z.of_nat (length v))); try lia; [|done].
    by rewrite take_bytes_le by lia.
Qed.
End options.

Lemma options_in_frame f junk msg out : frame_ok f ->
  dhcp_options (frame_bytes f ++ junk) 282 (f_udp_len f - 8 - 240) msg out =
    Some (match taken f msg out with
          | Some r => Some (MkReply ((fun i => rd (frame_bytes f ++ junk) (58 + i)) <$> seqZ 0 4) (server r) (mask r) (router r) (lease r))
          | None => None
          end).
Proof.
  intros Hf. unfold dhcp_options, taken. pose proof (find_in_frame f junk Hf DHCP_OPT_MSGTYPE ltac:(done)) as Hm.
  destruct (opt_lookup (f_opts f) DHCP_OPT_MSGTYPE) as [v|]; [|by rewrite Hm].
  destruct Hm as (p & l & r & -> & Ha & Hp). cbn [mbind option_bind].
  destruct v as [|m [|m' v]]; [done| |].
  2: { cbn [length]. destruct (Z.of_nat (S (S (length v)))) as [|[|q|]|] eqn:E; try done. lia. }
  change (Z.of_nat (length [m])) with 1. cbn iota. rewrite Hp.
  assert (get (frame_bytes f ++ junk) (Z.of_nat (length l)) = Some m) as ->.
  { rewrite Ha. pose proof (get_app l ([m] ++ r) 0 ltac:(lia)) as Hg. rewrite Z.add_0_r in Hg. rewrite Hg. done. }
  cbn [mbind option_bind]. destruct (Z.eqb_spec m msg) as [->|]; [|done]. cbn [negb].
  destruct (copy_in_frame f junk Hf DHCP_OPT_SERVER_ID (server out) ltac:(done)) as (o1 & -> & E1 & _). cbn [mbind option_bind]. rewrite E1.
  destruct (copy_in_frame f junk Hf DHCP_OPT_SUBNET (mask out) ltac:(done)) as (o2 & -> & E2 & _). cbn [mbind option_bind]. rewrite E2.
  destruct (copy_in_frame f junk Hf DHCP_OPT_ROUTER (router out) ltac:(done)) as (o3 & -> & _ & E3). cbn [mbind option_bind]. rewrite E3.
  destruct (copy_in_frame f junk Hf DHCP_OPT_LEASE [0; 0; 0; 0] ltac:(done)) as (o4 & -> & E4 & _). cbn [mbind option_bind]. rewrite E4.
  done.
Qed.

Lemma lor_low hi lo n : 0 <= n -> 0 <= hi -> 0 <= lo < 2 ^ n -> (hi <<< n) .| lo = hi * 2 ^ n + lo.
Proof.
  intros Hn Hh Hl. rewrite <- Z.shiftl_mul_pow2 by lia.
  assert (Z.land (hi <<< n) lo = 0) as Hz.
  { apply Z.bits_inj'. intros i Hi. rewrite Z.land_spec, Z.bits_0, Z.shiftl_spec by lia.
    destruct (decide (i < n)); [by rewrite Z.testbit_neg_r by lia|].
    rewrite (testbit_high n lo) by lia. apply andb_false_r. }
  rewrite <- Z.lxor_lor by done. by rewrite Z.add_nocarry_lxor.
Qed.
Lemma be32_join x : 0 <= x < 2 ^ 32 -> be_word (be32 x) = x.
Proof.
  intros Hx. change (2 ^ 32) with 4294967296 in Hx.
  assert (be32 x = [x / 16777216; x / 65536 mod 256; x / 256 mod 256; x mod 256]) as ->.
  { unfold be32. rewrite !split_lo, !Z.shiftr_div_pow2 by lia. change (2 ^ 24) with 16777216.
    rewrite (Z.mod_small (x / 16777216)) by dlia. done. }
  unfold be_word. change (rd [?a; ?b; ?c; ?d] 0) with a. change (rd [?a; ?b; ?c; ?d] 1) with b.
  change (rd [?a; ?b; ?c; ?d] 2) with c. change (rd [?a; ?b; ?c; ?d] 3) with d.
  rewrite (lor_low (x / 256 mod 256)) by dlia. rewrite (lor_low (x / 65536 mod 256)) by dlia.
  rewrite lor_low by dlia. change (2 ^ 24) with 16777216. change (2 ^ 16) with 65536. change (2 ^ 8) with 256. dlia.
Qed.

(** The start of a frame, byte for byte. *)
Lemma frame_fields f junk : frame_ok f -> f_udp_len f < 65536 ->
  let a := frame_bytes f ++ junk in
  rd a 12 = 0x08 /\ rd a 13 = 0 /\ rd a 14 = 0x45 /\ rd a 23 = 17 /\
  [rd a 34; rd a 35; rd a 36; rd a 37] = [0; 67; 0; 68] /\ [rd a 38; rd a 39] = be16 (f_udp_len f) /\
  rd a 42 = 2 /\ [rd a 46; rd a 47; rd a 48; rd a 49] = be32 (f_xid f) /\
  ((fun i => rd a (58 + i)) <$> seqZ 0 4) = f_yiaddr f /\ [rd a 278; rd a 279; rd a 280; rd a 281] = DHCP_MAGIC.
Proof.
  intros (H1 & H2 & H3 & H4 & H5 & H6 & H7 & H8 & _) Hu a.
  assert (forall k, 0 <= k < 4 -> rd a (278 + k) = rd DHCP_MAGIC k) as Hmag.
  { intros k Hk. unfold a, frame_bytes, frame_head. rewrite <- (app_assoc _ (_ ++ _)).
    rewrite <- !(app_assoc _ _ (_ ++ junk)). 
    match goal with |- rd (?h ++ _) _ = _ => assert (length h = 62%nat) as Hh end.
    { rewrite !length_app, H1, H2, H3, H4, H5, H6, H8. done. }
    rewrite (rd_skip _ _ _ 62 Hh) by lia. rewrite (rd_skip _ _ _ 216 H7) by lia.
    rewrite (rd_first DHCP_MAGIC _ _ 4 eq_refl) by lia. f_equal. lia. }
  pose proof (Hmag 0 ltac:(lia)) as M0. pose proof (Hmag 1 ltac:(lia)) as M1.
  pose proof (Hmag 2 ltac:(lia)) as M2. pose proof (Hmag 3 ltac:(lia)) as M3. clear Hmag.
  change (278 + 0) with 278 in M0. change (278 + 1) with 279 in M1. change (278 + 2) with 280 in M2. change (278 + 3) with 281 in M3.
  rewrite M0, M1, M2, M3. clear M0 M1 M2 M3. unfold a, frame_bytes, frame_head.
  destruct f as [eth ip1 ip2 ck hwa fl mid xid yi os pad]. cbn [f_eth f_ip1 f_ip2 f_csum f_hw f_flags f_mid f_yiaddr f_xid] in *.
  do 12 (destruct eth as [|? eth]; [done|]). destruct eth; [|done]. do 8 (destruct ip1 as [|? ip1]; [done|]). destruct ip1; [|done].
  do 10 (destruct ip2 as [|? ip2]; [done|]). destruct ip2; [|done]. do 2 (destruct ck as [|? ck]; [done|]). destruct ck; [|done].
  do 3 (destruct hwa as [|? hwa]; [done|]). destruct hwa; [|done]. do 8 (destruct fl as [|? fl]; [done|]). destruct fl; [|done].
  do 4 (destruct yi as [|? yi]; [done|]). destruct yi; [|done]. repeat split.
Qed.

(** Whatever frame a server sends in the format of RFC 2131, with the options
    in any order, repeated or padded, [dhcp_parse] accepts it exactly when its
    message type is the expected one, and takes the address, the server, the
    mask, the first router and the lease time from it; reading stays inside
    the frame. *)
Lemma dhcp_parse_reply f junk xid msg out :
  frame_ok f -> f_udp_len f < 65536 ->
  dhcp_parse (frame_bytes f ++ junk) (Z.of_nat (length (frame_bytes f))) xid msg out =
    Some (if f_xid f =? xid then taken f msg out else None).
Proof.
  intros Hf Hu. destruct (frame_fields f junk Hf Hu) as (R1 & R2 & R3 & R4 & [= R5 R6 R7 R8] & [= R9 R10] & R11 & R12 & R13 & [= R14 R15 R16 R17]).
  pose proof (options_in_frame f junk msg out Hf) as Ho.
  assert (282 <= Z.of_nat (length (frame_bytes f))) as Hl.
  { unfold frame_bytes. rewrite length_app, (length_frame_head f Hf). lia. }
  set (a := frame_bytes f ++ junk) in *. unfold dhcp_parse. cbv zeta.
  destruct (Z.ltb_spec (Z.of_nat (length (frame_bytes f))) (14 + 20 + 8 + 240)); [lia|].
  change (14 + 20) with 34. change (14 + 9) with 23. change (34 + 8) with 42. change (42 + 240) with 282.
  change (34 + 1) with 35. change (34 + 2) with 36. change (34 + 3) with 37. change (34 + 4) with 38. change (34 + 5) with 39.
  change (42 + 4) with 46. change (42 + 5) with 47. change (42 + 6) with 48. change (42 + 7) with 49.
  change (42 + 236) with 278. change (42 + 237) with 279. change (42 + 238) with 280. change (42 + 239) with 281.
  rewrite R1, R2, R3, R4, R5, R6, R7, R8, R11, R12, R14, R15, R16, R17. rewrite be32_join by apply Hf.
  change (negb (8 =? 8)) with false. change (negb (0 =? 0)) with false. change (negb ((0x45 .& 0xF0) =? 0x40)) with false.
  change (negb (17 =? 17)) with false. change (negb ((0x45 .& 0x0F) * 4 =? 20)) with false. cbn [orb].
  change (negb ((0 <<< 8) .| 67 =? 67)) with false. change (negb ((0 <<< 8) .| 68 =? 68)) with false. cbn [orb].
  assert ((rd a 38 <<< 8) .| rd a 39 = f_udp_len f) as ->.
  { rewrite R9, R10. apply (be16_rd_join (f_udp_len f)). unfold f_udp_len in *. lia. }
  destruct (Z.ltb_spec (f_udp_len f) (8 + 240)); [unfold f_udp_len in *; lia|]. change (negb (2 =? 2)) with false. cbn iota.
  destruct (Z.eqb_spec (f_xid f) xid) as [_|]; [|done]. cbn [negb orb Z.eqb Pos.eqb]. rewrite Ho.
  destruct (taken f msg out) as [r|] eqn:Et; [|done]. rewrite R13. do 2 f_equal.
  unfold taken in Et. destruct (opt_lookup (f_opts f) DHCP_OPT_MSGTYPE) as [[|m [|]]|]; try done. destruct (m =? msg); [|done].
  by injection Et as <-.
Qed.

(** ** Reads stay inside, if the lengths are honest *)
Lemma get_some (a : list Z) i : 0 <= i < Z.of_nat (length a) -> exists x, get a i = Some x /\ x ∈ a.
Proof.
  intros Hi. unfold get. destruct (Z.ltb_spec i 0); [lia|]. destruct (lookup_lt_is_Some_2 a (Z.to_nat i)) as [x Hx]; [lia|].
  exists x. split; [done|]. by eapply list_elem_of_lookup_2.
Qed.
(** One step of fuel per byte is enough. *)
Lemma find_loop_fuel fuel a base p max want :
  Forall is_byte a -> max - p <= Z.of_nat fuel -> find_loop (S fuel) a base p max want = find_loop fuel a base p max want.
Proof.
  intros Ha. assert (forall i x, get a i = Some x -> is_byte x) as Hb.
  { intros i x. unfold get. case_if; [done|]. intros Hx. by eapply Forall_lookup_1. }
  revert p. induction fuel as [|fuel IH]; intros p Hf.
  { cbn [find_loop]. destruct (Z.ltb_spec p max); [lia|done]. }
  remember (S fuel) as n. cbn [find_loop]. subst n. cbn [find_loop]. destruct (p <? max); [|done].
  destruct (get a (base + p)) as [code|]; [|done]. case_if; [done|]. case_if; [apply IH; lia|]. case_if; [done|].
  destruct (get a (base + (p + 1))) as [len|] eqn:El; [|done]. case_if; [done|]. case_if; [done|].
  apply Hb in El. unfold is_byte in El. apply IH. lia.
Qed.
Lemma find_loop_safe fuel a base p max want :
  Forall is_byte a -> 0 <= base -> 0 <= p -> base + max <= Z.of_nat (length a) ->
  exists o, find_loop fuel a base p max want = Some o /\
    match o with Some (q, l) => 0 <= q /\ 0 <= l /\ base + q + l <= Z.of_nat (length a) | None => True end.
Proof.
  intros Ha Hbase Hp Hm. rewrite Forall_forall in Ha. revert p Hp. induction fuel as [|fuel IH]; intros p Hp; cbn [find_loop]; [by exists None|].
  destruct (Z.ltb_spec p max); [|by exists None]. destruct (get_some a (base + p)) as (c & -> & _); [lia|].
  case_if; [by exists None|]. case_if; [apply IH; lia|]. destruct (Z.leb_spec max (p + 1)); [by exists None|].
  destruct (get_some a (base + (p + 1))) as (l & -> & Hl); [lia|]. specialize (Ha l Hl). unfold is_byte in Ha.
  destruct (Z.ltb_spec max (p + 2 + l)); [by exists None|]. case_if; [|apply IH; lia].
  eexists. split; [done|]. cbn. lia.
Qed.
Lemma take_bytes_safe n a i : 0 <= i -> i + Z.of_nat n <= Z.of_nat (length a) -> exists l, take_bytes n a i = Some l.
Proof.
  revert i. induction n as [|n IH]; intros i Hi Hn; cbn [take_bytes]; [by eexists|].
  destruct (get_some a i) as (x & -> & _); [lia|]. destruct (IH (i + 1)) as [l ->]; [lia..|]. by eexists.
Qed.
Lemma copy_safe a base ok o d :
  (forall l, ok l = true -> 4 <= l) -> 0 <= base ->
  match o with Some (q, l) => 0 <= q /\ 0 <= l /\ base + q + l <= Z.of_nat (length a) | None => True end ->
  exists r, copy_option a base ok o d = Some r.
Proof.
  intros Hok Hb Ho. destruct o as [[q l]|]; cbn [copy_option]; [|by eexists]. destruct (ok l) eqn:E; [|by eexists].
  apply Hok in E. apply take_bytes_safe; lia.
Qed.

(** A frame whose UDP length does not exceed the array is read without
    leaving it. *)
Theorem dhcp_parse_in_bounds a flen xid msg out :
  Forall is_byte a -> 34 + ((rd a 38 <<< 8) .| rd a 39) <= Z.of_nat (length a) ->
  exists r, dhcp_parse a flen xid msg out = Some r.
Proof.
  intros Ha Hl. unfold dhcp_parse. cbv zeta. change (14 + 20 + 4) with 38. change (14 + 20 + 5) with 39.
  set (ul := (rd a 38 <<< 8) .| rd a 39) in *. do 6 (case_if; [by eexists|]). destruct (Z.ltb_spec ul (8 + 240)); [by eexists|].
  do 3 (case_if; [by eexists|]). unfold dhcp_options. change (14 + 20 + 8 + 240) with 282.
  assert (forall want, exists o, dhcp_find_option a 282 (ul - 8 - 240) want = Some o /\
    match o with Some (q, l) => 0 <= q /\ 0 <= l /\ 282 + q + l <= Z.of_nat (length a) | None => True end) as Hfind.
  { intros want. apply find_loop_safe; [done|lia|lia|lia]. }
  assert (forall want ok d, (forall l, ok l = true -> 4 <= l) -> exists o r, dhcp_find_option a 282 (ul - 8 - 240) want = Some o /\
    copy_option a 282 ok o d = Some r) as Hcopy.
  { intros want ok d Hok. destruct (Hfind want) as (o & Ho & Hq). destruct (copy_safe a 282 ok o d Hok ltac:(lia) Hq) as [r Hr]. by exists o, r. }
  destruct (Hfind DHCP_OPT_MSGTYPE) as (mt & -> & Hmt). cbn [mbind option_bind].
  destruct mt as [[q [|[l|l|]|l]]|]; try by eexists.
  destruct (get_some a (282 + q)) as (m & -> & _); [lia|]. cbn [mbind option_bind]. case_if; [by eexists|].
  destruct (Hcopy DHCP_OPT_SERVER_ID (fun l => l =? 4) (server out) ltac:(lia)) as (o1 & r1 & -> & Hr1). cbn [mbind option_bind]. rewrite Hr1.
  destruct (Hcopy DHCP_OPT_SUBNET (fun l => l =? 4) (mask out) ltac:(lia)) as (o2 & r2 & -> & Hr2). cbn [mbind option_bind]. rewrite Hr2.
  destruct (Hcopy DHCP_OPT_ROUTER (fun l => 4 <=? l) (router out) ltac:(lia)) as (o3 & r3 & -> & Hr3). cbn [mbind option_bind]. rewrite Hr3.
  destruct (Hcopy DHCP_OPT_LEASE (fun l => l =? 4) [0; 0; 0; 0] ltac:(lia)) as (o4 & r4 & -> & Hr4). cbn [mbind option_bind]. rewrite Hr4.
  by eexists.
Qed.

(** The code does not compare the UDP length with the length of the frame: a
    reply of 282 bytes that claims 1000 makes it read past the end of the
    600-byte receive buffer (here zero behind the frame, which reads as
    padding). *)
Definition lying_reply : list Z :=
  replicate 12 0 ++ [0x08; 0x00; 0x45] ++ replicate 8 0 ++ [17] ++ replicate 10 0 ++ [0; 67; 0; 68] ++ be16 1000 ++ [0; 0; 2; 1; 6; 0] ++
  be32 0xFE221001 ++ replicate 228 0 ++ DHCP_MAGIC ++ replicate 318 0.
Example dhcp_parse_overread out : dhcp_parse lying_reply 282 0xFE221001 DHCP_OFFER out = None.
Proof. reflexivity. Qed.
End NetFmt.
