(* ===== verification/Net.v ===== *)
(** * The virtio network driver (src/src/pci/virtio/net/net.c, net.h)

    Bring-up, the transmit and receive queues over [Virtqueue], ARP, ping and
    the DHCP client over the frames of [NetFmt].  The device is the interface
    [NetHw]; memory is that of [Bytes], with the statics of net.c at the
    addresses of [NetLayout].  Console output is left out.

    Operations live in a state monad whose outcome is [None] when the device
    never answers the reset, or when a DHCP reply makes the code read past its
    receive buffer. *)
From S2P Require Import Prelude PageAlloc Bytes Heap Mmu TaskEnv Virtqueue Blk NetFmt.
#[local] Open Scope Z_scope.

Module Net.
Export Virtqueue NetFmt.

Definition VIRTIO_NET_CFG_MAC : Z := 0x00.
Definition VIRTIO_NET_CFG_STATUS : Z := 0x06.
Definition VIRTIO_NET_F_MAC : Z := 1 <<< 5.
Definition VIRTIO_NET_F_STATUS : Z := 1 <<< 16.
Definition VIRTIO_NET_HDR_LEN : Z := 12.
Definition VIRTIO_NET_QUEUE_RX : Z := 0.
Definition VIRTIO_NET_QUEUE_TX : Z := 1.
Definition NET_RX_BUF_COUNT : Z := 8.
Definition NET_RX_BUF_SIZE : Z := 1600.
Definition VIRTIO_STATUS_ACKNOWLEDGE : Z := 1.
Definition VIRTIO_STATUS_DRIVER : Z := 2.
Definition VIRTIO_STATUS_DRIVER_OK : Z := 4.
Definition VIRTIO_STATUS_FEATURES_OK : Z := 8.
Definition VIRTIO_COMMON_DFSELECT : Z := 0x00.
Definition VIRTIO_COMMON_DF : Z := 0x04.
Definition VIRTIO_COMMON_GFSELECT : Z := 0x08.
Definition VIRTIO_COMMON_GF : Z := 0x0C.
Definition VIRTIO_COMMON_STATUS : Z := 0x14.
Definition VIRTIO_COMMON_Q_NOFF : Z := 0x1E.

(** ** State *)
Record caps := MkCaps { common_cfg : Z; notify_base : Z; device_cfg : Z; notify_off_multiplier : Z }.
(** The receive side. *)
Record rxq := MkRx { rx_vq : virtqueue; rx_desc_to_buf : list Z; rx_initialized : bool; rx_packets : Z }.
(** The transmit side. *)
Record txq := MkTx { tx_vq : virtqueue; tx_packets : Z }.
(** What the device says of itself. *)
Record nic := MkNic { mac : list Z; have_mac : bool; link_status : Z; have_status : bool }.
(** The addresses, as leased. *)
Record ipconf := MkIp {
  g_my_ip : list Z; g_subnet_mask : list Z; g_gateway_ip : list Z; g_dhcp_server : list Z; g_lease_secs : Z; g_dhcp_acquired : bool
}.
Definition ip_default : ipconf := MkIp [10; 0; 2; 15] [255; 255; 255; 0] [10; 0; 2; 2] [0; 0; 0; 0] 0 false.
Record net := MkNet { rx : rxq; tx : txq; dev : nic; ip : ipconf; gateway_mac : option (list Z) }.

Definition set_rx (v : rxq) (n : net) : net := MkNet v (tx n) (dev n) (ip n) (gateway_mac n).
Definition set_tx (v : txq) (n : net) : net := MkNet (rx n) v (dev n) (ip n) (gateway_mac n).
Definition set_nic (v : nic) (n : net) : net := MkNet (rx n) (tx n) v (ip n) (gateway_mac n).
Definition set_ip (v : ipconf) (n : net) : net := MkNet (rx n) (tx n) (dev n) v (gateway_mac n).
Definition set_gateway_mac (v : option (list Z)) (n : net) : net := MkNet (rx n) (tx n) (dev n) (ip n) v.

(** ** The device *)
Class NetHw (H : Type) := {
  nh_read : Z -> Z -> H -> Z * H;            (* width, address *)
  nh_write : write -> H -> H;
  (** the device works on both queues, receive first, and on memory *)
  nh_run : H -> virtqueue -> virtqueue -> mem -> H * virtqueue * virtqueue * mem;
  (** a bound on the reads of the status register a reset takes *)
  nh_patience : nat
}.
(** The statics [tx_hdr], [arp_frame], [ping_frame], [dhcp_frame], [rx_bufs]. *)
Class NetLayout := { tx_hdr_at : Z; arp_at : Z; ping_at : Z; dhcp_at : Z; rx_at : Z }.

Record world (H : Type) := MkW { st : net; ram : mem; hw : H }.
Arguments MkW {H}. Arguments st {H}. Arguments ram {H}. Arguments hw {H}.
Definition M (H A : Type) : Type := world H -> option (A * world H).
#[global] Instance M_ret {H} : MRet (M H) := fun A a w => Some (a, w).
#[global] Instance M_bind {H} : MBind (M H) := fun A B k m w =>
  match m w with Some (a, w') => k a w' | None => None end.

Section ops.
Context {H : Type} `{NetHw H} `{NetLayout}.
Implicit Types w : world H.

Definition get_st : M H net := fun w => Some (st w, w).
Definition upd_st (f : net -> net) : M H unit := fun w => Some ((), MkW (f (st w)) (ram w) (hw w)).
Definition upd_ram (f : mem -> mem) : M H unit := fun w => Some ((), MkW (st w) (f (ram w)) (hw w)).
Definition mmio_read (width a : Z) : M H Z :=
  fun w => let '(v, h) := nh_read width a (hw w) in Some (v, MkW (st w) (ram w) h).
Definition mmio_write (x : write) : M H unit := fun w => Some ((), MkW (st w) (ram w) (nh_write x (hw w))).
Fixpoint mmio_writes (l : list write) : M H unit :=
  match l with [] => mret () | x :: l' => _ ← mmio_write x; mmio_writes l' end.
(** What the device does between two looks. *)
Definition tick : M H unit := fun w =>
  let n := st w in
  let '(h, rv, tv, m) := nh_run (hw w) (rx_vq (rx n)) (tx_vq (tx n)) (ram w) in
  Some ((), MkW (set_rx (MkRx rv (rx_desc_to_buf (rx n)) (rx_initialized (rx n)) (rx_packets (rx n)))
                  (set_tx (MkTx tv (tx_packets (tx n))) n)) m h).

(** ** Transmitting *)

(** [virtqueue_poll] on the transmit queue. *)
Fixpoint poll_tx (spins : nat) : M H Z :=
  match spins with
  | O => mret 0
  | S k =>
      _ ← tick; n ← get_st;
      match virtqueue_get_used (tx_vq (tx n)) with
      | (Some (_, written), v) => _ ← upd_st (fun n => set_tx (MkTx v (tx_packets (tx n))) n); mret written
      | (None, v) => _ ← upd_st (fun n => set_tx (MkTx v (tx_packets (tx n))) n); poll_tx k
      end
  end.
(** The frame lies at [frame]; 0 is NULL. *)
Definition net_tx (frame len : Z) : M H Z :=
  if (frame =? 0) || (len =? 0) then mret (-1)
  else
    _ ← upd_ram (store_buf tx_hdr_at (replicate 12 0));
    n ← get_st;
    let segs := [MkSeg (VIRT_TO_PHYS tx_hdr_at) VIRTIO_NET_HDR_LEN 0; MkSeg (VIRT_TO_PHYS frame) len 0] in
    let v := (virtqueue_submit_chain segs (tx_vq (tx n))).2 in
    _ ← upd_st (fun n => set_tx (MkTx v (tx_packets (tx n))) n);
    _ ← mmio_writes (virtqueue_notify v);
    _ ← poll_tx (Z.to_nat VIRTQUEUE_POLL_MAX_SPINS);
    _ ← upd_st (fun n => set_tx (MkTx (tx_vq (tx n)) (u64 (tx_packets (tx n) + 1))) n);
    mret (s32 len).

(** A frame is built in its array and sent. *)
Definition send_frame (at_ : Z) (frame : list Z) : M H Z :=
  _ ← upd_ram (store_buf at_ frame); net_tx at_ (Z.of_nat (length frame)).
Definition net_send_arp_probe : M H Z :=
  n ← get_st;
  if negb (have_mac (dev n)) then mret (-1)
  else send_frame arp_at (arp_request (mac (dev n)) (g_my_ip (ip n)) (g_gateway_ip (ip n))).
Definition net_send_ping (seq : Z) : M H Z :=
  n ← get_st;
  match gateway_mac n with
  | None => mret (-1)
  | Some gm => send_frame ping_at (ping_request gm (mac (dev n)) (g_my_ip (ip n)) (g_gateway_ip (ip n)) seq)
  end.

(** ** Receiving *)
Definition rx_buf (i : Z) : Z := rx_at + NET_RX_BUF_SIZE * i.
Definition net_rx_submit_buf (buf_idx : Z) (r : rxq) : rxq :=
  let '(desc_id, v) := virtqueue_submit (VIRT_TO_PHYS (rx_buf buf_idx)) NET_RX_BUF_SIZE VIRTQ_DESC_F_WRITE (rx_vq r) in
  if desc_id =? VIRTQ_NO_DESC then MkRx v (rx_desc_to_buf r) (rx_initialized r) (rx_packets r)
  else MkRx v (wr (rx_desc_to_buf r) desc_id buf_idx) (rx_initialized r) (rx_packets r).
Fixpoint submit_loop (n : nat) (i : Z) (r : rxq) : rxq :=
  match n with O => r | S n' => submit_loop n' (i + 1) (net_rx_submit_buf i r) end.
(** The queue with all buffers submitted, before the doorbell. *)
Definition rx_clear (r : rxq) : rxq :=
  MkRx (rx_vq r) (replicate (Z.to_nat VIRTQ_MAX_SIZE) (-1)) (rx_initialized r) (rx_packets r).
Definition rx_fill (r : rxq) : rxq := submit_loop (Z.to_nat NET_RX_BUF_COUNT) 0 (rx_clear r).
Definition net_rx_init : M H unit :=
  _ ← upd_st (fun n => set_rx (rx_fill (rx n)) n);
  n ← get_st;
  _ ← mmio_writes (virtqueue_notify (rx_vq (rx n)));
  upd_st (fun n => set_rx (MkRx (rx_vq (rx n)) (rx_desc_to_buf (rx n)) true (rx_packets (rx n))) n).

(** [net_rx_poll] up to its doorbell: the return value, the bytes copied to
    the caller, and whether the doorbell is rung. *)
Definition rx_reap (max_len : Z) (m : mem) (r : rxq) : (Z * list Z * bool) * rxq :=
  if negb (rx_initialized r) then ((-1, [], false), r)
  else
    match virtqueue_get_used (rx_vq r) with
    | (None, v) => ((0, [], false), MkRx v (rx_desc_to_buf r) (rx_initialized r) (rx_packets r))
    | (Some (desc_id, total_len), v) =>
        let r := MkRx v (rx_desc_to_buf r) (rx_initialized r) (rx_packets r) in
        if (VIRTQ_MAX_SIZE <=? desc_id) || (rd (rx_desc_to_buf r) desc_id <? 0) then ((-1, [], false), r)
        else
          let buf_idx := rd (rx_desc_to_buf r) desc_id in
          let r := MkRx (rx_vq r) (wr (rx_desc_to_buf r) desc_id (-1)) (rx_initialized r) (rx_packets r) in
          let to_copy :=
            if VIRTIO_NET_HDR_LEN <=? total_len then
              let frame_len := u32 (total_len - VIRTIO_NET_HDR_LEN) in if frame_len <? max_len then frame_len else max_len
            else 0 in
          let bytes := load_buf (rx_buf buf_idx + VIRTIO_NET_HDR_LEN) to_copy m in
          let copied := s32 to_copy in
          let r := net_rx_submit_buf buf_idx r in
          ((copied, bytes, true),
           if 0 <? copied then MkRx (rx_vq r) (rx_desc_to_buf r) (rx_initialized r) (u64 (rx_packets r + 1)) else r)
    end.
Definition reap_and_ring (max_len : Z) : M H (Z * list Z) := fun w =>
  let '((ret, bytes, ring), r) := rx_reap max_len (ram w) (rx (st w)) in
  let w := MkW (set_rx r (st w)) (ram w) (hw w) in
  if ring : bool then (_ ← mmio_writes (virtqueue_notify (rx_vq r)); mret (ret, bytes)) w else Some ((ret, bytes), w).
Definition net_rx_poll (max_len : Z) : M H (Z * list Z) := _ ← tick; reap_and_ring max_len.

(** ** ARP and DHCP *)
Definition learn_gateway (frame : list Z) (len : Z) : M H unit :=
  match parse_arp_reply frame len with
  | None => mret ()
  | Some m => upd_st (set_gateway_mac (Some m))
  end.

Definition DHCP_XID : Z := 0xFE221001.
Definition DHCP_SPINS : Z := 5000000.
(** The caller's array after [n] bytes were copied to it. *)
Definition overwrite (a bytes : list Z) : list Z := bytes ++ drop (length bytes) a.
(** Polls until a reply of the wanted type comes; the array persists. *)
Fixpoint wait_reply (spins : nat) (msg : Z) (a : list Z) (out : reply) : M H (option reply * list Z) :=
  match spins with
  | O => mret (None, a)
  | S k =>
      x ← net_rx_poll 600;
      let '(n, bytes) := x in
      let a := overwrite a bytes in
      if 0 <? n then
        match dhcp_parse a n DHCP_XID msg out with
        | None => fun _ => None
        | Some (Some r) => mret (Some r, a)
        | Some None => wait_reply k msg a out
        end
      else wait_reply k msg a out
  end.
Definition no_reply : reply := MkReply [0; 0; 0; 0] [0; 0; 0; 0] [255; 255; 255; 0] [0; 0; 0; 0] 0.
Definition send_dhcp (msg : Z) (requested server_id : option (list Z)) : M H Z :=
  n ← get_st;
  send_frame dhcp_at
    (udp_build (replicate 6 0xFF) (mac (dev n)) [0; 0; 0; 0] [255; 255; 255; 255] 68 67
       (dhcp_build msg (mac (dev n)) DHCP_XID requested server_id)).
(** [junk] is what the array on the stack holds before. *)
Definition dhcp_acquire (junk : list Z) : M H Z :=
  n ← get_st;
  if negb (have_mac (dev n)) then mret (-1)
  else
    r ← send_dhcp DHCP_DISCOVER None None;
    if r <=? 0 then mret (-1)
    else
      x ← wait_reply (Z.to_nat DHCP_SPINS) DHCP_OFFER junk no_reply;
      match x.1 with
      | None => mret (-1)
      | Some offer =>
          r ← send_dhcp DHCP_REQUEST (Some (yiaddr offer)) (Some (server offer));
          if r <=? 0 then mret (-1)
          else
            x ← wait_reply (Z.to_nat DHCP_SPINS) DHCP_ACK x.2 no_reply;
            match x.1 with
            | None => mret (-1)
            | Some ack =>
                _ ← upd_st (set_ip (MkIp (yiaddr ack) (mask ack) (router ack) (server ack) (lease ack) true));
                mret 0
            end
      end.

(** ** Bring-up *)
Fixpoint wait_reset (n : nat) (a : Z) : M H unit :=
  match n with
  | O => fun _ => None
  | S n' => v ← mmio_read 8 a; if v =? 0 then mret () else wait_reset n' a
  end.
Definition set_status (base bit : Z) : M H unit :=
  s ← mmio_read 8 (base + VIRTIO_COMMON_STATUS); mmio_write (8, base + VIRTIO_COMMON_STATUS, s .| bit).
(** [virtqueue_setup] of queue [q] with its reads; [None] is EERROR. *)
Definition setup_queue (c : caps) (q : Z) (v : virtqueue) : M H (option virtqueue) :=
  let base := common_cfg c in
  _ ← mmio_writes (virtqueue_setup base q 0 0 0 0 v).1;
  max_size ← mmio_read 16 (base + VIRTIO_COMMON_Q_SIZE);
  let ws := drop 2 (virtqueue_setup base q max_size 0 (notify_base c) (notify_off_multiplier c) v).1 in
  if max_size =? 0 then mret None
  else
    _ ← mmio_writes (removelast ws);
    noff ← mmio_read 16 (base + VIRTIO_COMMON_Q_NOFF);
    _ ← mmio_writes (drop (length ws - 1) ws);
    mret (virtqueue_setup base q max_size noff (notify_base c) (notify_off_multiplier c) v).2.
Fixpoint read_mac (n : nat) (a : Z) : M H (list Z) :=
  match n with O => mret [] | S n' => x ← mmio_read 8 a; l ← read_mac n' (a + 1); mret (x :: l) end.

(** The device's own configuration. *)
Definition read_nic (c : caps) (guest_lo : Z) : M H unit :=
  let dcfg := device_cfg c in
  _ ← (if test_mask guest_lo VIRTIO_NET_F_MAC then
         m ← read_mac 6 (dcfg + VIRTIO_NET_CFG_MAC);
         upd_st (fun n => set_nic (MkNic m true (link_status (dev n)) (have_status (dev n))) n)
       else mret ());
  if test_mask guest_lo VIRTIO_NET_F_STATUS then
    s ← mmio_read 16 (dcfg + VIRTIO_NET_CFG_STATUS);
    upd_st (fun n => set_nic (MkNic (mac (dev n)) (have_mac (dev n)) s true) n)
  else mret ().

(** The tests of the wire after bring-up: the first frame is taken for the
    answer to the ARP request, then a ping is sent and its reply awaited. *)
Fixpoint wait_arp (spins : nat) : M H unit :=
  match spins with
  | O => mret ()
  | S k =>
      x ← net_rx_poll 256;
      let '(n, bytes) := x in
      if 0 <? n then learn_gateway bytes n else wait_arp k
  end.
Definition is_echo_reply (n : Z) (a : list Z) : bool :=
  (14 + 20 + 8 <=? n) && (rd a 12 =? 0x08) && (rd a 13 =? 0x00) && (rd a (14 + 9) =? 1) && (rd a (14 + 20) =? 0).
Fixpoint wait_ping (spins : nat) : M H unit :=
  match spins with
  | O => mret ()
  | S k => x ← net_rx_poll 256; let '(n, bytes) := x in if is_echo_reply n bytes then mret () else wait_ping k
  end.
Definition wire_test : M H unit :=
  _ ← net_send_arp_probe;
  _ ← wait_arp (Z.to_nat 1000000);
  n ← get_st;
  match gateway_mac n with
  | None => mret ()
  | Some _ => r ← net_send_ping 1; if 0 <? r then wait_ping (Z.to_nat 2000000) else mret ()
  end.

(** [found] and the header type come from the PCI layer. *)
Definition pci_virtio_net_init (found : bool) (header_type : Z) (c : caps) (junk : list Z) : M H unit :=
  if negb found then mret ()
  else if negb (header_type .& 0x7F =? 0) then mret ()
  else
    let base := common_cfg c in
    _ ← mmio_write (8, base + VIRTIO_COMMON_STATUS, 0);
    _ ← wait_reset nh_patience (base + VIRTIO_COMMON_STATUS);
    _ ← set_status base VIRTIO_STATUS_ACKNOWLEDGE;
    _ ← set_status base VIRTIO_STATUS_DRIVER;
    _ ← mmio_write (32, base + VIRTIO_COMMON_DFSELECT, 0);
    feat_lo ← mmio_read 32 (base + VIRTIO_COMMON_DF);
    _ ← mmio_write (32, base + VIRTIO_COMMON_DFSELECT, 1);
    feat_hi ← mmio_read 32 (base + VIRTIO_COMMON_DF);
    if negb (test_mask feat_hi 0x01) then mret ()
    else
      let guest_lo := feat_lo .& (VIRTIO_NET_F_MAC .| VIRTIO_NET_F_STATUS) in
      let guest_hi := feat_hi .& 0x01 in
      _ ← mmio_write (32, base + VIRTIO_COMMON_GFSELECT, 0);
      _ ← mmio_write (32, base + VIRTIO_COMMON_GF, guest_lo);
      _ ← mmio_write (32, base + VIRTIO_COMMON_GFSELECT, 1);
      _ ← mmio_write (32, base + VIRTIO_COMMON_GF, guest_hi);
      _ ← set_status base VIRTIO_STATUS_FEATURES_OK;
      s ← mmio_read 8 (base + VIRTIO_COMMON_STATUS);
      if negb (test_mask s VIRTIO_STATUS_FEATURES_OK) then mret ()
      else
        n ← get_st;
        rv ← setup_queue c VIRTIO_NET_QUEUE_RX (rx_vq (rx n));
        match rv with
        | None => mret ()
        | Some rv =>
            _ ← upd_st (fun n => set_rx (MkRx rv (rx_desc_to_buf (rx n)) (rx_initialized (rx n)) (rx_packets (rx n))) n);
            tv ← setup_queue c VIRTIO_NET_QUEUE_TX (tx_vq (tx n));
            match tv with
            | None => mret ()
            | Some tv =>
                _ ← upd_st (fun n => set_tx (MkTx tv (tx_packets (tx n))) n);
                _ ← set_status base VIRTIO_STATUS_DRIVER_OK;
                _ ← net_rx_init;
                _ ← read_nic c guest_lo;
                _ ← dhcp_acquire junk;
                wire_test
            end
        end.
End ops.

(** ** Receiving is a queue of frames

    [armed_core r fl dn bs]: the requests [fl] are in flight, [dn] of them
    completed, one for each of the buffers [bs], and [rx_desc_to_buf] leads
    from the request to its buffer. *)
Section receive.
Context `{NetLayout}.

Definition rx_seg (b : Z) : virtq_seg := MkSeg (VIRT_TO_PHYS (rx_buf b)) NET_RX_BUF_SIZE VIRTQ_DESC_F_WRITE.
Definition place_ok : Prop := Blk.OFF <= rx_at /\ rx_at + NET_RX_BUF_SIZE * NET_RX_BUF_COUNT <= 2 ^ 64.

Record armed_core (r : rxq) (fl : list (Z * list virtq_seg)) (dn : list (Z * Z)) (bs : list Z) : Prop := {
  ac_repr : repr (rx_vq r) (MkA (size (rx_vq r) - Z.of_nat (length bs)) fl dn);
  ac_map : length (rx_desc_to_buf r) = 128%nat;
  ac_fl h segs : (h, segs) ∈ fl -> 0 <= h < 128 /\ segs = [rx_seg (rd (rx_desc_to_buf r) h)];
  ac_perm : ((fun x => rd (rx_desc_to_buf r) x.1) <$> fl) ≡ₚ bs;
  ac_nodup : NoDup bs
}.

Lemma core_heads r fl dn bs : armed_core r fl dn bs -> NoDup fl.*1.
Proof.
  intros [_ _ _ HP Hn]. apply (NoDup_fmap_1 (rd (rx_desc_to_buf r))). rewrite <- list_fmap_compose.
  unfold compose. rewrite HP. done.
Qed.
Lemma core_done r fl dn bs : armed_core r fl dn bs -> NoDup dn.*1 /\ forall h, h ∈ dn.*1 -> h ∈ fl.*1.
Proof.
  intros [(fr & chains & Hi & _ & Hfl & _) _ _ _ _]. cbn [a_flight a_done] in *. split; [apply (vi_dn _ _ _ _ Hi)|].
  intros h Hh. rewrite Hfl, flight_heads. by apply (vi_heads _ _ _ _ Hi).
Qed.
Lemma core_member r fl dn bs h : armed_core r fl dn bs -> h ∈ fl.*1 -> 0 <= h < 128 /\ rd (rx_desc_to_buf r) h ∈ bs.
Proof.
  intros Hc (x & -> & Hx)%list_elem_of_fmap. destruct x as [h segs]. cbn [fst].
  destruct (ac_fl _ _ _ _ Hc h segs Hx) as [Hr _]. split; [done|]. rewrite <- (ac_perm _ _ _ _ Hc).
  apply list_elem_of_fmap. by exists (h, segs).
Qed.

(** Submitting a buffer that is not in flight. *)
Lemma submit_buf_core b r fl dn bs :
  armed_core r fl dn bs -> b ∉ bs -> Z.of_nat (length bs) < size (rx_vq r) ->
  exists h v, net_rx_submit_buf b r = MkRx v (wr (rx_desc_to_buf r) h b) (rx_initialized r) (rx_packets r) /\
    h ∉ fl.*1 /\ 0 <= h < 128 /\ size v = size (rx_vq r) /\
    armed_core (net_rx_submit_buf b r) ((h, [rx_seg b]) :: fl) dn (b :: bs).
Proof.
  intros Hc Hb Hroom. pose proof Hc as [Hre Hl Hfl HP Hn]. unfold net_rx_submit_buf.
  assert (virtqueue_submit (VIRT_TO_PHYS (rx_buf b)) NET_RX_BUF_SIZE VIRTQ_DESC_F_WRITE (rx_vq r) =
    virtqueue_submit_chain [rx_seg b] (rx_vq r)) as ->.
  { destruct Hre as (fr & chains & Hi & _). rewrite submit_as_chain by (by eapply inv_head). done. }
  assert (Forall seg_ok [rx_seg b]) as Hok by (by repeat constructor).
  pose proof (submit_chain_sim _ _ _ Hre Hok) as Hs. pose proof (Blk.submit_size [rx_seg b] (rx_vq r)) as [Hsz _].
  pose proof (Blk.repr_size _ _ Hre) as Hs128. unfold VIRTQ_MAX_SIZE in Hs128.
  destruct (virtqueue_submit_chain [rx_seg b] (rx_vq r)) as [h v]. cbn [snd a_free a_flight a_done length] in *.
  destruct Hs as [([?|?] & _)|(_ & _ & Hh & Hr & _ & _ & Hrv)]; [done|lia|].
  destruct (Z.eqb_spec h VIRTQ_NO_DESC) as [->|_]; [unfold VIRTQ_NO_DESC in Hr; lia|].
  assert (forall x, x ∈ fl.*1 -> rd (wr (rx_desc_to_buf r) h b) x = rd (rx_desc_to_buf r) x) as Hsame.
  { intros x Hx. destruct (core_member _ _ _ _ _ Hc Hx). apply rd_wr_ne; [lia|lia|]. intros ->. done. }
  exists h, v. split; [done|]. split; [done|]. split; [lia|]. split; [done|]. constructor; cbn [rx_vq rx_desc_to_buf].
  - rewrite Hsz. cbn [length]. replace (size (rx_vq r) - Z.of_nat (S (length bs))) with (size (rx_vq r) - Z.of_nat (length bs) - Z.of_nat 1) by lia. done.
  - by rewrite length_wr.
  - intros h' segs [[= -> ->]|Hin]%elem_of_cons.
    + split; [lia|]. by rewrite rd_wr_eq by lia.
    + destruct (Hfl h' segs Hin) as [? ->]. split; [done|]. rewrite Hsame; [done|]. apply list_elem_of_fmap. by eexists (h', _).
  - cbn [fmap list_fmap fst]. rewrite rd_wr_eq by lia. constructor. rewrite <- HP. apply reflexive_eq, list_fmap_ext.
    intros i [h' segs] Hi. cbn [fst]. apply Hsame. apply list_elem_of_fmap. exists (h', segs). split; [done|]. by eapply list_elem_of_lookup_2.
  - by apply NoDup_cons.
Qed.

(** All buffers are in flight; [q] are the frames that wait in the buffers of
    the completed requests, oldest first. *)
Record armed (r : rxq) (m : mem) (fl : list (Z * list virtq_seg)) (dn : list (Z * Z)) (q : list (list Z)) : Prop := {
  ar_core : armed_core r fl dn (seqZ 0 NET_RX_BUF_COUNT);
  ar_init : rx_initialized r = true;
  ar_q : Forall2 (fun d f => d.2 = VIRTIO_NET_HDR_LEN + Z.of_nat (length f) /\ d.2 <= NET_RX_BUF_SIZE /\
           load_buf (rx_buf (rd (rx_desc_to_buf r) d.1) + VIRTIO_NET_HDR_LEN) (Z.of_nat (length f)) m = f) dn q
}.

Lemma submit_loop_core n i r fl bs :
  armed_core r fl [] bs -> (forall b, b ∈ bs -> b < i) -> Z.of_nat (length bs) + Z.of_nat n <= size (rx_vq r) ->
  exists fl' bs', armed_core (submit_loop n i r) fl' [] bs' /\ bs' ≡ₚ bs ++ seqZ i (Z.of_nat n) /\
    rx_initialized (submit_loop n i r) = rx_initialized r.
Proof.
  revert i r fl bs. induction n as [|n IH]; intros i r fl bs Hc Hlt Hroom; cbn [submit_loop].
  { exists fl, bs. split; [done|]. split; [|done]. change (seqZ i (Z.of_nat 0)) with (@nil Z). by rewrite app_nil_r. }
  destruct (submit_buf_core i r fl [] bs Hc) as (h & v & He & _ & _ & Hsz & Hc'); [intros Hin; apply Hlt in Hin; lia|lia|].
  destruct (IH (i + 1) (net_rx_submit_buf i r) _ _ Hc') as (fl' & bs' & Hc2 & HP & Hin).
  - intros b [->|Hb]%elem_of_cons; [lia|]. specialize (Hlt b Hb). lia.
  - rewrite He. cbn [rx_vq length]. lia.
  - exists fl', bs'. split; [done|]. split; [|by rewrite Hin, He]. rewrite HP.
    rewrite (seqZ_cons i (Z.of_nat (S n))) by lia. replace (Z.pred (Z.of_nat (S n))) with (Z.of_nat n) by lia.
    cbn [app]. apply Permutation_middle.
Qed.
Lemma core_perm r fl dn bs bs' : bs ≡ₚ bs' -> armed_core r fl dn bs -> armed_core r fl dn bs'.
Proof.
  intros HP [H1 H2 H3 H4 H5]. constructor; [|done|done|by rewrite H4|by rewrite <- HP]. by rewrite <- (Permutation_length HP).
Qed.

Lemma core_ext r r' fl dn bs :
  rx_vq r' = rx_vq r -> rx_desc_to_buf r' = rx_desc_to_buf r -> armed_core r fl dn bs -> armed_core r' fl dn bs.
Proof. intros Hv Hm [H1 H2 H3 H4 H5]. constructor; rewrite ?Hv, ?Hm; done. Qed.

(** After bring-up every buffer is in flight. *)
Lemma rx_fill_armed r m :
  repr (rx_vq r) (MkA (size (rx_vq r)) [] []) -> NET_RX_BUF_COUNT <= size (rx_vq r) ->
  exists fl, armed (MkRx (rx_vq (rx_fill r)) (rx_desc_to_buf (rx_fill r)) true (rx_packets (rx_fill r))) m fl [] [].
Proof.
  intros Hre Hs. assert (armed_core (rx_clear r) [] [] []) as Hc0.
  { constructor; cbn [rx_vq rx_desc_to_buf rx_clear length].
    - by rewrite Z.sub_0_r.
    - by rewrite length_replicate.
    - intros h segs Hin. by apply not_elem_of_nil in Hin.
    - done.
    - constructor. }
  destruct (submit_loop_core (Z.to_nat NET_RX_BUF_COUNT) 0 (rx_clear r) [] [] Hc0) as (fl & bs & Hc & HP & _).
  { by intros ? ?%not_elem_of_nil. }
  { cbn [length rx_vq rx_clear]. unfold NET_RX_BUF_COUNT in *. lia. }
  unfold rx_fill. set (X := submit_loop _ _ _) in *. clearbody X. rewrite Z2Nat.id in HP by done.
  exists fl. constructor; [|reflexivity|constructor]. apply (core_ext X); [reflexivity|reflexivity|].
  exact (core_perm _ _ _ _ _ HP Hc).
Qed.

(** The device puts a frame behind its header into the buffer of a request
    and completes it. *)
Definition complete (h len : Z) (r : rxq) : rxq :=
  MkRx (device_complete h len (rx_vq r)) (rx_desc_to_buf r) (rx_initialized r) (rx_packets r).
Lemma rx_device_armed r m fl dn q h sg hdr f :
  place_ok -> armed r m fl dn q -> (h, [sg]) ∈ fl -> h ∉ dn.*1 ->
  length hdr = 12%nat -> Z.of_nat (length f) <= NET_RX_BUF_SIZE - VIRTIO_NET_HDR_LEN ->
  armed (complete h (VIRTIO_NET_HDR_LEN + Z.of_nat (length f)) r) (store_buf (PHYS_TO_VIRT (pa sg)) (hdr ++ f) m) fl
    (dn ++ [(h, VIRTIO_NET_HDR_LEN + Z.of_nat (length f))]) (q ++ [f]).
Proof.
  intros [Hp1 Hp2] [Hc Hi Hq] Hin Hdn Hh Hf. unfold NET_RX_BUF_SIZE, NET_RX_BUF_COUNT, VIRTIO_NET_HDR_LEN in *.
  assert (h ∈ fl.*1) as Hfh by (apply list_elem_of_fmap; by exists (h, [sg])).
  destruct (ac_fl _ _ _ _ Hc h _ Hin) as [Hr [= ->]]. cbn [pa rx_seg].
  set (mp := rx_desc_to_buf r) in *. assert (forall x, x ∈ fl.*1 -> 0 <= rd mp x < 8) as Hrange.
  { intros x Hx. destruct (core_member _ _ _ _ _ Hc Hx) as [_ Hb]. apply elem_of_seqZ in Hb. fold mp in Hb. lia. }
  pose proof (Hrange h Hfh) as Hb. assert (0 < Blk.OFF) by done.
  rewrite Blk.virt_phys by (unfold rx_buf, NET_RX_BUF_SIZE in *; lia).
  assert (forall x, x ∈ fl.*1 -> x <> h -> rd mp x <> rd mp h) as Hinj.
  { intros x Hx Hne Heq. pose proof (ac_perm _ _ _ _ Hc) as HP. pose proof (core_heads _ _ _ _ Hc) as Hn.
    assert (NoDup (rd mp <$> fl.*1)) as Hn2.
    { rewrite <- list_fmap_compose. unfold compose, mp. rewrite HP. apply (ac_nodup _ _ _ _ Hc). }
    apply list_elem_of_lookup in Hx as [i Hxi]. apply list_elem_of_lookup in Hfh as [j Hhj]. apply Hne.
    assert (i = j) as -> by (eapply NoDup_lookup; [exact Hn2|..]; rewrite list_lookup_fmap; [by rewrite Hxi|rewrite Hhj; cbn; by rewrite Heq]). congruence. }
  destruct (core_done _ _ _ _ Hc) as [_ Hsub]. constructor; [|done|].
  - destruct Hc as [Hre H2 H3 H4 H5]. constructor; try done. cbn [complete rx_vq].
    change (size (device_complete _ _ _)) with (size (rx_vq r)). by apply (device_sim _ _ h _ Hre).
  - cbn [complete rx_desc_to_buf]. apply Forall2_app; [|constructor; [|constructor]].
    + apply Forall2_same_length_lookup in Hq as [Hl Hq]. apply Forall2_same_length_lookup. split; [done|].
      intros i [h' len'] f' Hd Hf'. destruct (Hq i _ _ Hd Hf') as (He1 & He2 & He3). split; [done|]. split; [done|].
      cbn [fst snd] in *. etransitivity; [|exact He3]. apply load_buf_ext. intros k Hk. unfold store_buf.
      assert (h' ∈ dn.*1) as Hd' by (apply list_elem_of_fmap; exists (h', len'); split; [done|]; by eapply list_elem_of_lookup_2).
      assert (h' <> h) as Hne by (intros ->; done). pose proof (Hinj h' (Hsub _ Hd') Hne) as Hneq. pose proof (Hrange h' (Hsub _ Hd')).
      rewrite length_app, Hh. unfold rx_buf, NET_RX_BUF_SIZE in *. fold mp in He3 |- *. case_if; [|done]. unfold VIRTIO_NET_HDR_LEN in *. lia.
    + cbn [fst snd]. split; [done|]. split; [unfold NET_RX_BUF_SIZE; lia|]. apply load_buf_id. intros i Hi'. unfold store_buf.
      rewrite length_app, Hh. fold mp. unfold rx_buf, NET_RX_BUF_SIZE, VIRTIO_NET_HDR_LEN in *. case_if; [|lia].
      rewrite (rd_skip hdr f _ 12 Hh) by lia. f_equal. lia.
Qed.

Lemma take_load_buf a n k m : 0 <= n <= k -> take (Z.to_nat n) (load_buf a k m) = load_buf a n m.
Proof.
  intros Hn. unfold load_buf. replace k with (n + (k - n)) by lia. rewrite seqZ_app, fmap_app by lia.
  apply take_app_length'. by rewrite length_fmap, length_seqZ.
Qed.
(** The look at the queue: nothing, or the oldest frame, cut to the caller's
    room; its buffer goes back into flight. *)
Lemma rx_reap_armed max r m fl dn q :
  armed r m fl dn q -> 0 <= max < 2 ^ 31 -> NET_RX_BUF_COUNT <= size (rx_vq r) ->
  match q with
  | [] => rx_reap max m r = ((0, [], false), r)
  | f :: q' => let n := Z.min (Z.of_nat (length f)) max in
      exists r' fl' dn', rx_reap max m r = ((n, take (Z.to_nat n) f, true), r') /\ armed r' m fl' dn' q' /\
        size (rx_vq r') = size (rx_vq r) /\ rx_packets r' = if 0 <? n then u64 (rx_packets r + 1) else rx_packets r
  end.
Proof.
  intros [Hc Hi Hq] Hmax Hsz. unfold rx_reap. rewrite Hi. cbn [negb].
  pose proof (get_used_sim _ _ (ac_repr _ _ _ _ Hc)) as Hg. pose proof (Blk.get_used_size (rx_vq r)) as (Hvs & _).
  cbn [a_done a_flight a_free] in Hg. destruct Hq as [|[h len] f dn q (Hlen & Hcap & Hby) Hq].
  { rewrite Hg. destruct r. cbn in Hi. by subst. }
  destruct Hg as (v & f1 & segs & f2 & Hg & Hfl & Hre). rewrite Hg in Hvs |- *. cbn [snd fst] in *. cbn zeta. subst fl.
  assert (h ∈ (f1 ++ (h, segs) :: f2).*1) as Hh by (rewrite fmap_app; cbn; set_solver).
  destruct (core_member _ _ _ _ _ Hc Hh) as [Hr Hb]. apply elem_of_seqZ in Hb as Hb'. cbn [rx_desc_to_buf rx_vq].
  set (mp := rx_desc_to_buf r) in *. set (b := rd mp h) in *. unfold VIRTQ_MAX_SIZE, NET_RX_BUF_COUNT, VIRTIO_NET_HDR_LEN, NET_RX_BUF_SIZE in *.
  destruct (Z.leb_spec 128 h); [lia|]. destruct (Z.ltb_spec b 0); [lia|]. cbn [orb].
  destruct (Z.leb_spec 12 len); [|lia]. rewrite (u32_small (len - 12)) by lia.
  replace (len - 12) with (Z.of_nat (length f)) by lia.
  set (n := if _ <? max then _ else max). assert (n = Z.min (Z.of_nat (length f)) max) as Hn by (unfold n; destruct (Z.ltb_spec (Z.of_nat (length f)) max); lia).
  clearbody n. assert (s32 n = n) as Hs32.
  { unfold s32, to_signed, wrap. rewrite Z.mod_small by lia. destruct (Z.ltb_spec n (2 ^ (32 - 1))); [done|lia]. }
  rewrite Hs32, <- Hn.
  assert (load_buf (rx_buf b + 12) n m = take (Z.to_nat n) f) as ->.
  { rewrite <- Hby. symmetry. apply take_load_buf. lia. }
  match goal with |- context [net_rx_submit_buf b ?x] => set (r1 := x) end.
  destruct (core_done _ _ _ _ Hc) as [Hnd Hsub]. cbn [fmap list_fmap fst] in Hnd, Hsub. apply NoDup_cons in Hnd as [Hhd Hnd].
  pose proof (core_heads _ _ _ _ Hc) as Hheads. rewrite fmap_app in Hheads. cbn [fmap list_fmap fst] in Hheads.
  assert (h ∉ (f1 ++ f2).*1) as Hnh.
  { rewrite fmap_app. rewrite <- Permutation_middle in Hheads. by apply NoDup_cons in Hheads as [? _]. }
  destruct (ac_fl _ _ _ _ Hc h segs ltac:(set_solver)) as [_ ->].
  set (bs := (fun x => rd mp x.1) <$> (f1 ++ f2)).
  assert (b :: bs ≡ₚ seqZ 0 8) as HP.
  { pose proof (ac_perm _ _ _ _ Hc) as HP. fold mp in HP. rewrite fmap_app in HP. cbn [fmap list_fmap fst] in HP. fold b in HP.
    rewrite <- Permutation_middle in HP. unfold bs. by rewrite fmap_app. }
  assert (length bs = 7%nat) as Hbl by (apply Permutation_length in HP; rewrite length_seqZ in HP; cbn [length] in HP; lia).
  assert (NoDup (b :: bs)) as Hbn by (rewrite HP; apply NoDup_seqZ). apply NoDup_cons in Hbn as [Hbb Hbn].
  assert (forall x, x ∈ (f1 ++ f2).*1 -> rd (wr mp h (-1)) x = rd mp x) as Hother.
  { intros x Hx. apply rd_wr_ne; [lia| |intros ->; done].
    assert (x ∈ (f1 ++ (h, [rx_seg b]) :: f2).*1) as Hx' by (rewrite !fmap_app in *; cbn; set_solver).
    destruct (core_member _ _ _ _ _ Hc Hx'). lia. }
  assert (armed_core r1 (f1 ++ f2) dn bs) as Hc1.
  { constructor; cbn [r1 rx_vq rx_desc_to_buf].
    - rewrite Hvs, Hbl. rewrite length_seqZ in Hre. cbn [length] in Hre.
      replace (size (rx_vq r) - Z.of_nat 7) with (size (rx_vq r) - Z.of_nat (Z.to_nat 8) + Z.of_nat 1) by lia. done.
    - rewrite length_wr. apply (ac_map _ _ _ _ Hc).
    - intros x sg Hx. destruct (ac_fl _ _ _ _ Hc x sg) as [? ->]; [set_solver|]. split; [done|].
      rewrite Hother; [done|]. apply list_elem_of_fmap. by eexists (x, _).
    - unfold bs. apply reflexive_eq, list_fmap_ext. intros i [x sg] Hx. cbn [fst]. apply Hother.
      apply list_elem_of_fmap. exists (x, sg). split; [done|]. by eapply list_elem_of_lookup_2.
    - done. }
  destruct (submit_buf_core b r1 _ _ _ Hc1 Hbb) as (h' & v' & He & Hh' & Hr' & Hsz' & Hc2); [cbn [r1 rx_vq]; lia|].
  rewrite He in Hc2 |- *. cbn [rx_vq rx_desc_to_buf rx_initialized rx_packets r1] in *.
  assert (forall x, x ∈ dn.*1 -> rd (wr (wr mp h (-1)) h' b) x = rd mp x) as Hkeep.
  { intros x Hx. assert (x ∈ (f1 ++ f2).*1) as Hx'.
    { assert (x <> h) by (intros ->; done). specialize (Hsub x ltac:(by right)). rewrite fmap_app in Hsub |- *. cbn in Hsub. set_solver. }
    rewrite rd_wr_ne; [by apply Hother|lia| |intros ->; done].
    destruct (core_member _ _ _ _ _ Hc1 Hx'). lia. }
  eexists _, ((h', [rx_seg b]) :: f1 ++ f2), dn. split; [reflexivity|]. split; [|split; [|by destruct (0 <? n)]].
  - constructor; [|by destruct (0 <? n)|].
    + apply (core_perm _ _ _ _ _ HP). eapply core_ext; [..|exact Hc2]; by destruct (0 <? n).
    + apply Forall2_same_length_lookup in Hq as [Hl Hq]. apply Forall2_same_length_lookup. split; [done|].
      intros i d g Hd Hg'. assert (d.1 ∈ dn.*1) as Hin by (apply list_elem_of_fmap; exists d; split; [done|]; by eapply list_elem_of_lookup_2).
      pose proof (Hq i d g Hd Hg') as Hdg. rewrite <- (Hkeep _ Hin) in Hdg. by destruct (0 <? n).
  - destruct (0 <? n); cbn [rx_vq]; lia.
Qed.

Lemma armed_room r m fl dn q :
  armed r m fl dn q -> length fl = 8%nat /\ length q = length dn /\ (length q <= 8)%nat /\
  ((length q < 8)%nat -> exists h sg, (h, [sg]) ∈ fl /\ h ∉ dn.*1).
Proof.
  intros [Hc _ Hq]. pose proof (ac_perm _ _ _ _ Hc) as HP. apply Permutation_length in HP. rewrite length_fmap, length_seqZ in HP.
  destruct (core_done _ _ _ _ Hc) as [Hnd Hsub]. pose proof (core_heads _ _ _ _ Hc) as Hh. apply Forall2_length in Hq.
  change (Z.to_nat NET_RX_BUF_COUNT) with 8%nat in HP.
  assert (length dn <= 8)%nat.
  { rewrite <- HP, <- (length_fmap fst dn), <- (length_fmap fst fl). apply submseteq_length, NoDup_submseteq; [done|]. intros x. apply Hsub. }
  split; [done|]. split; [done|]. split; [lia|]. intros Hlt.
  destruct (decide (Forall (fun h => h ∈ dn.*1) fl.*1)) as [Hall|Hnot].
  - exfalso. rewrite Forall_forall in Hall. assert (length fl.*1 <= length dn.*1)%nat; [|rewrite !length_fmap in *; lia].
    apply submseteq_length, NoDup_submseteq; [done|]. intros x. apply Hall.
  - apply not_Forall_Exists in Hnot; [|apply _]. apply Exists_exists in Hnot as (h & Hin & Hd).
    apply list_elem_of_fmap in Hin as ([h' segs] & -> & Hin). destruct (ac_fl _ _ _ _ Hc h' segs Hin) as [_ ->]. by exists h', (rx_seg (rd (rx_desc_to_buf r) h')).
Qed.

(** C10: the receive path is a queue of frames with room for eight.  After
    bring-up all eight buffers are in flight and the queue is empty.  The
    device may put a frame into the buffer of any request that is not yet
    completed; the frame joins the queue, and the frames before it stay as
    they are.  A poll of an empty queue returns 0 and changes nothing; a poll
    of a queue with frames returns exactly the bytes of the oldest, cut to the
    caller's room, counts it if it has any, and puts its buffer back into
    flight.  So no buffer is ever lost: as long as fewer than eight frames
    wait, the device has a buffer for the next. *)
Theorem net_rx_fifo :
  place_ok ->
  (forall r m, repr (rx_vq r) (MkA (size (rx_vq r)) [] []) -> NET_RX_BUF_COUNT <= size (rx_vq r) ->
     exists fl, armed (MkRx (rx_vq (rx_fill r)) (rx_desc_to_buf (rx_fill r)) true (rx_packets (rx_fill r))) m fl [] []) /\
  (forall r m fl dn q h sg hdr f, armed r m fl dn q -> (h, [sg]) ∈ fl -> h ∉ dn.*1 -> length hdr = 12%nat ->
     Z.of_nat (length f) <= NET_RX_BUF_SIZE - VIRTIO_NET_HDR_LEN ->
     armed (complete h (VIRTIO_NET_HDR_LEN + Z.of_nat (length f)) r) (store_buf (PHYS_TO_VIRT (pa sg)) (hdr ++ f) m) fl
       (dn ++ [(h, VIRTIO_NET_HDR_LEN + Z.of_nat (length f))]) (q ++ [f])) /\
  (forall max r m fl dn q, armed r m fl dn q -> 0 <= max < 2 ^ 31 -> NET_RX_BUF_COUNT <= size (rx_vq r) ->
     match q with
     | [] => rx_reap max m r = ((0, [], false), r)
     | f :: q' => let n := Z.min (Z.of_nat (length f)) max in
         exists r' fl' dn', rx_reap max m r = ((n, take (Z.to_nat n) f, true), r') /\ armed r' m fl' dn' q' /\
           size (rx_vq r') = size (rx_vq r) /\ rx_packets r' = if 0 <? n then u64 (rx_packets r + 1) else rx_packets r
     end) /\
  (forall r m fl dn q, armed r m fl dn q -> length fl = 8%nat /\ length q = length dn /\ (length q <= 8)%nat /\
     ((length q < 8)%nat -> exists h sg, (h, [sg]) ∈ fl /\ h ∉ dn.*1)).
Proof.
  intros Hp. split; [exact rx_fill_armed|]. split; [intros; by apply rx_device_armed|]. split; [exact rx_reap_armed|exact armed_room].
Qed.
End receive.

(** ** The DHCP client *)
Section dhcp.
Context {H : Type} `{NetHw H} `{NetLayout}.
Implicit Types w : world H.

Lemma net_bind_some {A B} (m : M H A) (k : A -> M H B) w r :
  (m ≫= k) w = Some r -> exists a w1, m w = Some (a, w1) /\ k a w1 = Some r.
Proof. unfold mbind, M_bind. destruct (m w) as [[a w1]|]; [|done]. by exists a, w1. Qed.
(** Moving frames leaves the addresses and the gateway alone. *)
Definition keeps_ip {A} (m : M H A) : Prop :=
  forall w a w', m w = Some (a, w') -> ip (st w') = ip (st w) /\ gateway_mac (st w') = gateway_mac (st w) /\ dev (st w') = dev (st w).
Lemma net_keeps_bind {A B} (m : M H A) (k : A -> M H B) : keeps_ip m -> (forall a, keeps_ip (k a)) -> keeps_ip (m ≫= k).
Proof. intros Hm Hk w b w' (a & w1 & H1' & H2')%net_bind_some. apply Hm in H1'. apply Hk in H2'. intuition congruence. Qed.
Lemma net_keeps_ret {A} (a : A) : keeps_ip (mret a).
Proof. by intros w b w' [= <- <-]. Qed.
Lemma keeps_get : keeps_ip get_st.
Proof. by intros w b w' [= <- <-]. Qed.
Lemma keeps_ram f : keeps_ip (upd_ram f).
Proof. by intros w b w' [= <- <-]. Qed.
Lemma keeps_tx g : keeps_ip (upd_st (fun n => set_tx (g n) n)).
Proof. by intros w b w' [= <- <-]. Qed.
Lemma net_keeps_writes l : keeps_ip (mmio_writes l).
Proof. induction l as [|x l IH]; [apply net_keeps_ret|]. apply net_keeps_bind; [by intros w b w' [= <- <-]|done]. Qed.
Lemma net_keeps_tick : keeps_ip tick.
Proof. intros w b w'. unfold tick. destruct (nh_run _ _ _ _) as [[[h rv] tv] m]. by intros [= <- <-]. Qed.
Lemma keeps_poll_tx n : keeps_ip (poll_tx n).
Proof.
  induction n as [|n IH]; [apply net_keeps_ret|]. apply net_keeps_bind; [apply net_keeps_tick|]. intros _. apply net_keeps_bind; [apply keeps_get|]. intros s.
  destruct (virtqueue_get_used _) as [[[? wr]|] v]; (apply net_keeps_bind; [apply keeps_tx|]); intros _; [apply net_keeps_ret|done].
Qed.
Lemma keeps_net_tx f l : keeps_ip (net_tx f l).
Proof.
  unfold net_tx. case_if; [apply net_keeps_ret|]. apply net_keeps_bind; [apply keeps_ram|]. intros _. apply net_keeps_bind; [apply keeps_get|]. intros s.
  apply net_keeps_bind; [apply keeps_tx|]. intros _. apply net_keeps_bind; [apply net_keeps_writes|]. intros _.
  apply net_keeps_bind; [apply keeps_poll_tx|]. intros _. apply net_keeps_bind; [apply keeps_tx|]. intros _. apply net_keeps_ret.
Qed.
Lemma keeps_send a f : keeps_ip (send_frame a f).
Proof. apply net_keeps_bind; [apply keeps_ram|]. intros _. apply keeps_net_tx. Qed.
Lemma keeps_rx_poll n : keeps_ip (net_rx_poll n).
Proof.
  apply net_keeps_bind; [apply net_keeps_tick|]. intros _ w b w'. unfold reap_and_ring.
  destruct (rx_reap n (ram w) (rx (st w))) as [[[ret bytes] ring] r]. destruct ring; [|by intros [= <- <-]].
  intros Hx. apply (net_keeps_bind _ _ (net_keeps_writes _) (fun _ => net_keeps_ret _)) in Hx. done.
Qed.
Lemma keeps_send_dhcp msg a b : keeps_ip (send_dhcp msg a b).
Proof. apply net_keeps_bind; [apply keeps_get|]. intros n. apply keeps_send. Qed.

(** A wait that succeeds has seen a reply that [dhcp_parse] accepts. *)
Lemma wait_reply_sound spins msg a out w r a' w' :
  wait_reply spins msg a out w = Some ((r, a'), w') ->
  (ip (st w') = ip (st w) /\ gateway_mac (st w') = gateway_mac (st w) /\ dev (st w') = dev (st w)) /\
  match r with Some x => exists b n, 0 < n /\ dhcp_parse b n DHCP_XID msg out = Some (Some x) | None => True end.
Proof.
  revert a w. induction spins as [|k IH]; intros a w; cbn [wait_reply]; [by intros [= <- _ <-]|].
  intros ([n bytes] & w1 & Hp & Hx)%net_bind_some. apply keeps_rx_poll in Hp as (Hi & Hg & Hd).
  destruct (Z.ltb_spec 0 n) as [Hn|Hn]; [|apply IH in Hx as [? ?]; intuition congruence].
  destruct (dhcp_parse (overwrite a bytes) n DHCP_XID msg out) as [[x|]|] eqn:Ep; [| |done].
  - injection Hx as <- _ <-. split; [done|]. by exists (overwrite a bytes), n.
  - apply IH in Hx as [? ?]. intuition congruence.
Qed.
(** A reply that comes is taken. *)
Lemma wait_reply_takes k msg a out w w1 f r :
  frame_ok f -> f_udp_len f < 65536 -> f_xid f = DHCP_XID -> taken f msg out = Some r ->
  net_rx_poll 600 w = Some ((Z.of_nat (length (frame_bytes f)), frame_bytes f), w1) ->
  wait_reply (S k) msg a out w = Some ((Some r, overwrite a (frame_bytes f)), w1).
Proof.
  intros Hf Hu Hxid Ht Hp. cbn [wait_reply]. unfold mbind, M_bind. rewrite Hp.
  assert (0 < Z.of_nat (length (frame_bytes f))) as Hl by (unfold frame_bytes; rewrite length_app, (length_frame_head f Hf); lia).
  destruct (Z.ltb_spec 0 (Z.of_nat (length (frame_bytes f)))); [|lia].
  unfold overwrite. rewrite dhcp_parse_reply by done. rewrite Hxid, Z.eqb_refl, Ht. done.
Qed.

Lemma acquire_cases junk w r w' :
  dhcp_acquire junk w = Some (r, w') ->
  gateway_mac (st w') = gateway_mac (st w) /\
  (r = -1 /\ ip (st w') = ip (st w) \/
   r = 0 /\ exists b n ack, dhcp_parse b n DHCP_XID DHCP_ACK no_reply = Some (Some ack) /\
     ip (st w') = MkIp (yiaddr ack) (mask ack) (router ack) (server ack) (lease ack) true).
Proof.
  unfold dhcp_acquire. intros (n & w1 & Hg & Hx)%net_bind_some. injection Hg as <- <-.
  destruct (negb (have_mac (dev (st w)))); [injection Hx as <- <-; split; [done|by left]|].
  apply net_bind_some in Hx as (r1 & w2 & Hs%keeps_send_dhcp & Hx). destruct (r1 <=? 0); [injection Hx as <- <-; split; [tauto|left; tauto]|].
  apply net_bind_some in Hx as ([o a] & w3 & Hw & Hx). apply wait_reply_sound in Hw as [Hk _]. cbn [fst snd] in Hx.
  destruct o as [offer|]; [|injection Hx as <- <-; split; [|left]; intuition congruence].
  apply net_bind_some in Hx as (r2 & w4 & Hs2%keeps_send_dhcp & Hx).
  destruct (r2 <=? 0); [injection Hx as <- <-; split; [|left]; intuition congruence|].
  apply net_bind_some in Hx as ([o2 a2] & w5 & Hw2 & Hx). apply wait_reply_sound in Hw2 as [Hk2 Hack]. cbn [fst snd] in Hx.
  destruct o2 as [ack|]; [|injection Hx as <- <-; split; [|left]; intuition congruence].
  injection Hx as <- <-. split; [cbn; intuition congruence|]. right. split; [done|].
  destruct Hack as (b & n & _ & Hp). exists b, n, ack. done.
Qed.

End dhcp.

(** ** A network

    A device with a gateway behind it that answers ARP, DHCP and ping.  The
    registers are at 0x1000, the doorbells at 0x4000 and the configuration,
    with the hardware address, at 0x3000. *)
Record lan := MkLan { l_status : Z; l_select : Z; l_tx : Z; l_rx : Z; l_pending : list (list Z) }.
Definition lan_mac : list Z := [0x52; 0x54; 0; 0x12; 0x34; 0x56].
Definition gw_mac : list Z := [0x52; 0x55; 10; 0; 2; 2].
Definition lan_read (width a : Z) (h : lan) : Z * lan :=
  if a =? 0x1014 then (l_status h, h)
  else if a =? 0x1004 then (if l_select h =? 0 then VIRTIO_NET_F_MAC .| VIRTIO_NET_F_STATUS else 1, h)
  else if a =? 0x1018 then (128, h)
  else if (0x3000 <=? a) && (a <? 0x3006) then (rd lan_mac (a - 0x3000), h)
  else if a =? 0x3006 then (1, h) else (0, h).
Definition lan_write (x : write) (h : lan) : lan :=
  let '(width, a, v) := x in
  if a =? 0x1014 then MkLan v (l_select h) (l_tx h) (l_rx h) (l_pending h)
  else if a =? 0x1000 then MkLan (l_status h) v (l_tx h) (l_rx h) (l_pending h) else h.
Definition demo_reply (msg : Z) : reply_frame :=
  MkFrame (lan_mac ++ gw_mac) (replicate 8 0) (replicate 10 0) [0; 0] [1; 6; 0] (replicate 8 0) (replicate 216 0) DHCP_XID [10; 0; 2; 77]
    [Some (DHCP_OPT_MSGTYPE, [msg]); None; Some (DHCP_OPT_ROUTER, [10; 0; 2; 2; 10; 0; 2; 3]); Some (DHCP_OPT_SERVER_ID, [10; 0; 2; 4]);
     Some (DHCP_OPT_SUBNET, [255; 255; 0; 0]); Some (DHCP_OPT_LEASE, [0; 1; 0x51; 0x80])] [0; 0].
Definition answer (f : list Z) : list (list Z) :=
  if rd f 13 =? 0x06 then [lan_mac ++ gw_mac ++ [8; 6; 0; 1; 8; 0; 6; 4; 0; 2] ++ gw_mac ++ replicate 32 0]
  else if rd f 23 =? 17 then [frame_bytes (demo_reply (if rd f 284 =? DHCP_DISCOVER then DHCP_OFFER else DHCP_ACK))]
  else if (rd f 23 =? 1) && (inet_csum (slice 34 64 f) =? 0) then [wr f 34 0]
  else [].
Definition lan_run (h : lan) (rv tv : virtqueue) (m : mem) : lan * virtqueue * virtqueue * mem :=
  if negb (l_tx h =? avail_idx tv) then
    let head := rd (avail_ring tv) (l_tx h mod size tv) in
    let frames := match read_chain (Z.to_nat (size tv)) tv head with
                  | [_; sg] => answer (load_buf (PHYS_TO_VIRT (pa sg)) (slen sg) m)
                  | _ => []
                  end in
    (MkLan (l_status h) (l_select h) (u16 (l_tx h + 1)) (l_rx h) (l_pending h ++ frames), rv, device_complete head 0 tv, m)
  else
    match l_pending h with
    | f :: q =>
        if negb (l_rx h =? avail_idx rv) then
          let head := rd (avail_ring rv) (l_rx h mod size rv) in
          let a := PHYS_TO_VIRT (addr (dget rv head)) in
          (MkLan (l_status h) (l_select h) (l_tx h) (u16 (l_rx h + 1)) q,
           device_complete head (VIRTIO_NET_HDR_LEN + Z.of_nat (length f)) rv, tv, store_buf a (replicate 12 0 ++ f) m)
        else (h, rv, tv, m)
    | [] => (h, rv, tv, m)
    end.
#[global] Instance lan_hw : NetHw lan := {| nh_read := lan_read; nh_write := lan_write; nh_run := lan_run; nh_patience := 3 |}.
#[global] Instance demo_net_layout : NetLayout := {|
  tx_hdr_at := Blk.OFF + 0x1000; arp_at := Blk.OFF + 0x2000; ping_at := Blk.OFF + 0x3000; dhcp_at := Blk.OFF + 0x4000; rx_at := Blk.OFF + 0x10000
|}.
Definition demo_net : world lan :=
  MkW (MkNet (MkRx demo_vq (replicate 128 0) false 0) (MkTx demo_vq 0) (MkNic (replicate 6 0) false 0 false) ip_default None)
    (fun _ => 0) (MkLan 0 0 0 0 []).
(** Boot: the lease is taken, the gateway found and the ping answered. *)
Example net_boots :
  match pci_virtio_net_init true 0 (MkCaps 0x1000 0x4000 0x3000 0) (replicate 600 0) demo_net with
  | Some (_, w) => Some (ip (st w), gateway_mac (st w), mac (dev (st w)), tx_packets (tx (st w)), rx_packets (rx (st w)))
  | None => None
  end = Some (MkIp [10; 0; 2; 77] [255; 255; 0; 0] [10; 0; 2; 2] [10; 0; 2; 4] 86400 true, Some gw_mac, lan_mac, 4, 4).
Proof. vm_compute. reflexivity. Qed.

(** A fresh receive queue of 128, as the theorem on receiving needs it. *)
Definition demo_rx : rxq :=
  MkRx (default demo_vq (virtqueue_setup 0x1000 0 128 0 0x4000 0 demo_vq).2) (replicate 128 0) false 0.
Definition demo_armed : rxq := MkRx (rx_vq (rx_fill demo_rx)) (rx_desc_to_buf (rx_fill demo_rx)) true (rx_packets (rx_fill demo_rx)).
Lemma demo_rx_repr : repr (rx_vq demo_rx) (MkA (size (rx_vq demo_rx)) [] []).
Proof.
  unfold demo_rx. cbn [rx_vq].
  destruct (setup_sim 0x1000 0 128 0 0x4000 0 demo_vq) as (ws & v & -> & _ & Hr); [lia|vm_compute; reflexivity..|]. exact Hr.
Qed.
Lemma demo_place : place_ok.
Proof. vm_compute. split; discriminate. Qed.
Lemma net_rx_fifo_witness :
  exists fl, armed demo_armed (fun _ => 0) fl [] [] /\ rx_reap 600 (fun _ => 0) demo_armed = ((0, [], false), demo_armed).
Proof.
  destruct (net_rx_fifo demo_place) as (Hinit & _ & Hreap & _).
  destruct (Hinit demo_rx (fun _ => 0) demo_rx_repr ltac:(vm_compute; discriminate)) as [fl Harm].
  exists fl. split; [exact Harm|]. apply (Hreap 600 demo_armed (fun _ => 0) fl [] [] Harm); [lia|]. vm_compute. discriminate.
Defined.
Lemma demo_reply_ok : frame_ok (demo_reply DHCP_ACK) /\ f_udp_len (demo_reply DHCP_ACK) < 65536.
Proof. split; [|vm_compute; reflexivity]. repeat split; try (vm_compute; congruence). repeat constructor; cbn; lia. Qed.
End Net.
