(* ===== verification/Proc.v ===== *)
(** * The process file system (src/src/fs/proc/proc.c), with the texts of
      net_get_info (pci/virtio/net/net.c), gic_render_interrupts
      (exception/gic/gic.c) and cpu_render_info (lib/cpu/cpu.c)

    A generator fills an array, a list of bytes, from the live state of the
    kernel ([live]) and returns a length; [None] is a generator that tells
    [ksnprintf] of more room than the array has.  [proc_read_via] copies a
    part of the result to the caller. *)
From S2P Require Import Prelude PageAlloc Pmm Bytes Heap Mmu Task TaskEnv BumpEnv Sched SchedInv SchedThm Rtos Signal Strings Timer Virtqueue Vfs NetFmt Net.
From stdpp Require Import strings.
#[local] Open Scope Z_scope.

Module Proc.
Import Strings(arg, ANum, AStr, ksnprintf, render, digits).
Notation cstr := Sched.cstr.
Definition NL : list Z := [10].
(** Lines of text, each with its line feed. *)
Definition lines (l : list string) : list Z := mjoin ((fun s => cstr s ++ NL) <$> l).

Definition PROC_BUF_BYTES : Z := 2048.
Definition generator : Type := list Z -> option (Z * list Z).

(** ** Reading *)

(** The return value, the new offset, memory. *)
Definition proc_read_via (gen : generator) (offset buf count : Z) (m : mem) : option (Z * Z * mem) :=
  '(total, tmp) ← gen (replicate 2048 0);
  if total <? 0 then Some (-1, offset, m)
  else
    let avail := u64 total in
    let avail := if PROC_BUF_BYTES <=? avail then PROC_BUF_BYTES - 1 else avail in
    if avail <=? u64 offset then Some (0, offset, m)
    else
      let remaining := avail - offset in
      let to_copy := if count <? remaining then count else remaining in
      Some (s32 to_copy, s64 (offset + to_copy), store_buf buf (take (Z.to_nat to_copy) (drop (Z.to_nat offset) tmp)) m).

(** ** Writing into a part of an array *)

(** [ksnprintf(b + pos, len, ...)]; [None]: there is less room than [len]. *)
Definition printf_at (b : list Z) (pos len : Z) (fmt : list Z) (args : list arg) : option (Z * list Z) :=
  let rest := drop (Z.to_nat pos) b in
  if len <=? Z.of_nat (length rest) then
    let '(n, r) := ksnprintf (take (Z.to_nat len) rest) len fmt args in
    Some (n, take (Z.to_nat pos) b ++ r ++ drop (Z.to_nat len) rest)
  else None.
(** [for (i = 0; i < length && pos < buflen; i++) buf[pos++] = s[i];] *)
Fixpoint put_chars (buflen : Z) (s : list Z) (pb : Z * list Z) : Z * list Z :=
  match s with
  | [] => pb
  | c :: s' => if pb.1 <? buflen then put_chars buflen s' (pb.1 + 1, wr pb.2 pb.1 c) else pb
  end.
(** The six bytes of a hardware address, as long as three bytes are free. *)
Fixpoint put_mac (buflen i : Z) (mac : list Z) (pb : Z * list Z) : Z * list Z :=
  match mac with
  | [] => pb
  | x :: mac' =>
      if pb.1 + 3 <=? buflen then
        let pb := if 0 <? i then (pb.1 + 1, wr pb.2 pb.1 58) else pb in
        let pb := (pb.1 + 1, wr pb.2 pb.1 (digits (x >>> 4))) in
        let pb := (pb.1 + 1, wr pb.2 pb.1 (digits (x .& 0xF))) in
        put_mac buflen (i + 1) mac' pb
      else pb
  end.
(** [n = ksnprintf(buf + pos, buflen - pos, ...); if (n > 0) pos += n;] *)
Definition put_fmt (buflen : Z) (fmt : list Z) (args : list arg) (pb : Z * list Z) : option (Z * list Z) :=
  '(n, b) ← printf_at pb.2 pb.1 (u32 (buflen - pb.1)) fmt args;
  Some (if 0 <? n then u32 (pb.1 + n) else pb.1, b).
Definition yes_no (b : bool) : arg := AStr (cstr (if b then "yes" else "no")).

(** ** net_get_info *)
Definition ip_args (l : list Z) : list arg := ANum <$> take 4 l.
Definition ip_format : list Z :=
  lines ["ip:         %d.%d.%d.%d"; "netmask:    %d.%d.%d.%d"; "gateway:    %d.%d.%d.%d"; "dhcp:       %s";
         "dhcp_srv:   %d.%d.%d.%d"; "lease:      %u s"].
Definition net_get_info (n : Net.net) (b : list Z) (buflen : Z) : option (Z * list Z) :=
  let pb := put_chars buflen (cstr "mac:        ") (0, b) in
  let pb := put_mac buflen 0 (Net.mac (Net.dev n)) pb in
  let pb := if pb.1 <? buflen then (pb.1 + 1, wr pb.2 pb.1 10) else pb in
  pb ← put_fmt buflen (lines ["link:       %s"])
         [AStr (cstr (if test_mask (Net.link_status (Net.dev n)) 1 then "UP" else "DOWN"))] pb;
  let c := Net.ip n in
  pb ← put_fmt buflen ip_format
         (ip_args (Net.g_my_ip c) ++ ip_args (Net.g_subnet_mask c) ++ ip_args (Net.g_gateway_ip c) ++
          [yes_no (Net.g_dhcp_acquired c)] ++ ip_args (Net.g_dhcp_server c) ++ [ANum (Net.g_lease_secs c)]) pb;
  let pb := put_chars buflen (cstr "gw_mac:     ") pb in
  let pb := match Net.gateway_mac n with
            | Some g => put_mac buflen 0 g pb
            | None => put_chars buflen (cstr "(unknown)") pb
            end in
  let pb := if pb.1 <? buflen then (pb.1 + 1, wr pb.2 pb.1 10) else pb in
  pb ← put_fmt buflen (lines ["rx_packets: %u"; "tx_packets: %u"])
         [ANum (Net.rx_packets (Net.rx n)); ANum (Net.tx_packets (Net.tx n))] pb;
  Some (s32 pb.1, pb.2).

(** ** gic_render_interrupts *)
Definition GIC_COUNTERS_MAX : Z := 256.
Definition gic_intid_source (blk_irq intid : Z) : list Z :=
  if intid =? 30 then cstr "timer (PPI)"
  else if intid <? 16 then cstr "SGI"
  else if intid <? 32 then cstr "PPI"
  else if intid =? blk_irq then cstr "virtio-blk (PCI INTx)"
  else cstr "SPI".
(** The loop from counter [i] on; the array [tmp] has 64 bytes. *)
Fixpoint irq_rows (n : nat) (i buflen blk_irq : Z) (irq_counts : list Z) (pb : Z * list Z) : Z * list Z :=
  match n with
  | O => pb
  | S n' =>
      if rd irq_counts i =? 0 then irq_rows n' (i + 1) buflen blk_irq irq_counts pb
      else if buflen <=? pb.1 then pb
      else
        let '(k, tmp) := ksnprintf (replicate 64 0) 64 (lines ["%u    %u  %s"])
                           [ANum i; ANum (rd irq_counts i); AStr (gic_intid_source blk_irq i)] in
        if k <=? 0 then irq_rows n' (i + 1) buflen blk_irq irq_counts pb
        else
          let to_copy := if buflen - pb.1 <? k then buflen - pb.1 else k in
          irq_rows n' (i + 1) buflen blk_irq irq_counts
            (pb.1 + to_copy, take (Z.to_nat pb.1) pb.2 ++ take (Z.to_nat to_copy) tmp ++ drop (Z.to_nat (pb.1 + to_copy)) pb.2)
  end.
Definition irq_header : list Z := lines ["INTID  COUNT     SOURCE"].
Definition gic_render_interrupts (blk_irq : Z) (irq_counts : list Z) (b : list Z) (buflen : Z) : Z * list Z :=
  let pb := irq_rows 256 0 buflen blk_irq irq_counts (put_chars buflen irq_header (0, b)) in
  (s32 pb.1, pb.2).

(** ** cpu_render_info *)
Record cpu := MkCpu { g_midr : Z; g_ctr : Z; g_pfr0 : Z; g_isar0 : Z; g_mmfr0 : Z }.
Definition implementer_name (imp : Z) : list Z := cstr (
  match imp with
  | 0x41 => "ARM Limited" | 0x42 => "Broadcom" | 0x43 => "Cavium" | 0x46 => "Fujitsu" | 0x48 => "HiSilicon"
  | 0x49 => "Infineon" | 0x4D => "Motorola/Freescale" | 0x4E => "NVIDIA" | 0x50 => "Applied Micro"
  | 0x51 => "Qualcomm" | 0x53 => "Samsung" | 0x54 => "Texas Instruments" | 0x56 => "Marvell" | 0x61 => "Apple"
  | 0x66 => "Faraday" | 0x69 => "Intel" | 0xC0 => "Ampere" | _ => "Unknown"
  end).
Definition arm_part_name (part : Z) : list Z := cstr (
  match part with
  | 0xD03 => "Cortex-A53" | 0xD05 => "Cortex-A55" | 0xD07 => "Cortex-A57" | 0xD08 => "Cortex-A72"
  | 0xD09 => "Cortex-A73" | 0xD0A => "Cortex-A75" | 0xD0B => "Cortex-A76" | 0xD0C => "Neoverse-N1"
  | 0xD0D => "Cortex-A77" | 0xD40 => "Neoverse-V1" | 0xD41 => "Cortex-A78" | 0xD49 => "Neoverse-N2"
  | 0xD4A => "Neoverse-E1" | 0xD4F => "Neoverse-V2" | _ => "unknown"
  end).
Definition parange_bits (mmfr0 : Z) : Z :=
  match mmfr0 .& 0xF with 0 => 32 | 1 => 36 | 2 => 40 | 3 => 42 | 4 => 44 | 5 => 48 | 6 => 52 | _ => 0 end.
Definition cpu_format : list Z := lines [
  "implementer  : %s (0x%x)"; "part         : %s (0x%x)"; "architecture : ARMv8 (0x%x)"; "variant      : 0x%x";
  "revision     : 0x%x"; "midr_el1     : %x"; "icache_line  : %u bytes"; "dcache_line  : %u bytes";
  "phys_addr    : %u bits"; "fp           : %s"; "advsimd      : %s"; "aes          : %s"; "sha1         : %s";
  "sha2         : %s"; "crc32        : %s"; "rndr         : %s"; "cycles       : %u"].
Definition cpu_args (c : cpu) (cycles : Z) : list arg :=
  let implementer := (g_midr c >>> 24) .& 0xFF in
  let partnum := (g_midr c >>> 4) .& 0xFFF in
  let isar f := yes_no (negb ((g_isar0 c >>> f) .& 0xF =? 0)) in
  [AStr (implementer_name implementer); ANum implementer;
   AStr (if implementer =? 0x41 then arm_part_name partnum else cstr "unknown"); ANum partnum;
   ANum ((g_midr c >>> 16) .& 0xF); ANum ((g_midr c >>> 20) .& 0xF); ANum (g_midr c .& 0xF); ANum (g_midr c);
   ANum ((1 <<< (g_ctr c .& 0xF)) * 4); ANum ((1 <<< ((g_ctr c >>> 16) .& 0xF)) * 4); ANum (parange_bits (g_mmfr0 c));
   yes_no (negb ((g_pfr0 c >>> 16) .& 0xF =? 0xF)); yes_no (negb ((g_pfr0 c >>> 20) .& 0xF =? 0xF));
   isar 4; isar 8; isar 12; isar 16; isar 60; ANum cycles].
Definition cpu_render_info (c : cpu) (cycles : Z) (b : list Z) (len : Z) : Z * list Z :=
  ksnprintf b len cpu_format (cpu_args c cycles).

(** ** The generators *)

(** What the files show; [l_balloon] is the result of [balloon_get_status] and
    [l_built] the time stamp of the compiler. *)
Record live (E : Type) := MkLive {
  l_timer : Timer.timer; l_pmm : Pmm.pmm; l_heap : Heap.heap Pmm.pmm; l_sched : Sched.sched E; l_irq_counts : list Z; l_blk_irq : Z;
  l_net : Net.net; l_balloon : Z * Z; l_cpu : cpu; l_cycles : Z; l_built : list Z
}.
Arguments MkLive {E}. Arguments l_timer {E}. Arguments l_pmm {E}. Arguments l_heap {E}. Arguments l_sched {E}.
Arguments l_irq_counts {E}. Arguments l_blk_irq {E}. Arguments l_net {E}. Arguments l_balloon {E}. Arguments l_cpu {E}.
Arguments l_cycles {E}. Arguments l_built {E}.

Section generators.
Context {E : Type} `{TaskEnv E} `{Sched.Layout} (k : live E).

Definition gen_uptime : generator := fun b =>
  let ms := Timer.timer_uptime_ms (l_timer k) in
  let s := ms / 1000 in
  let cs := ms mod 1000 / 10 in
  Some (ksnprintf b PROC_BUF_BYTES (lines ["%u.%u%u"]) [ANum s; ANum (cs / 10); ANum (cs mod 10)]).
Definition meminfo_format : list Z := lines [
  "MemTotal:    %u KB"; "MemUsed:     %u KB"; "MemFree:     %u KB"; "MemReserved: %u KB";
  "HeapTotal:   %u KB"; "HeapUsed:    %u KB"; "HeapFree:    %u KB"].
Definition gen_meminfo : generator := fun b =>
  Some (ksnprintf b PROC_BUF_BYTES meminfo_format
    [ANum (u64 (Pmm.pmm_get_total_pages (l_pmm k) * 4)); ANum (u64 (Pmm.pmm_get_used_pages (l_pmm k) * 4));
     ANum (u64 (Pmm.pmm_get_free_pages (l_pmm k) * 4)); ANum (u64 (Pmm.pmm_get_reserved_pages (l_pmm k) * 4));
     ANum (Heap.heap_total_bytes (l_heap k) / 1024); ANum (Heap.heap_used_bytes (l_heap k) / 1024);
     ANum (Heap.heap_free_bytes (l_heap k) / 1024)]).

Definition tasks_header : list Z := lines ["PID  STATE     NAME"; "---- --------- ----------------"].
(** The characters of a name in front of its 0. *)
Fixpoint until_nul (l : list Z) : list Z :=
  match l with [] => [] | c :: l' => if c =? 0 then [] else c :: until_nul l' end.
Definition task_args (t : Z) : list arg :=
  let tk := Sched.get (l_sched k) t in
  [ANum (Task.pid tk); AStr (Sched.task_state_name (Task.state tk)); AStr (until_nul (Task.name tk))].
Definition task_format : list Z := lines ["%u  %s   %s"].
Fixpoint tasks_loop (fuel : nat) (head t : Z) (pos : Z) (b : list Z) : option (Z * list Z) :=
  match fuel with
  | O => Some (pos, b)
  | S n =>
      if PROC_BUF_BYTES <=? pos then Some (pos, b)
      else
        '(wrote, b) ← printf_at b pos (PROC_BUF_BYTES - pos) task_format (task_args t);
        let pos := if 0 <? wrote then pos + wrote else pos in
        let t := Task.next (Sched.get (l_sched k) t) in
        if negb (t =? 0) && negb (t =? head) then tasks_loop n head t pos b else Some (pos, b)
  end.
Definition gen_tasks : generator := fun b =>
  let '(n, b) := ksnprintf b PROC_BUF_BYTES tasks_header [] in
  let pos := if n <? 0 then 0 else n in
  let head := Sched.sched_first_task in
  '(pos, b) ← tasks_loop (Sched.fuel (l_sched k)) head head pos b;
  Some (s32 pos, b).
Definition gen_netinfo : generator := fun b => net_get_info (l_net k) b PROC_BUF_BYTES.
Definition gen_interrupts : generator := fun b => Some (gic_render_interrupts (l_blk_irq k) (l_irq_counts k) b PROC_BUF_BYTES).
Definition gen_cmdline : generator := fun b =>
  Some (ksnprintf b PROC_BUF_BYTES (lines ["console=ttyAMA0 maxcpus=1 net=virtio-net-pci ip=10.0.2.15"]) []).
Definition gen_version : generator := fun b =>
  Some (ksnprintf b PROC_BUF_BYTES (lines ["Fermi OS aarch64 (cortex-a72)"] ++ cstr "Built: " ++ l_built k ++ NL) []).
Definition gen_balloon : generator := fun b =>
  let '(a, t) := l_balloon k in
  Some (ksnprintf b PROC_BUF_BYTES (lines ["actual:      %u pages (%u KB)"; "host_target: %u pages (%u KB)"])
    [ANum a; ANum (a * 4); ANum t; ANum (t * 4)]).
Definition gen_cpuinfo : generator := fun b => Some (cpu_render_info (l_cpu k) (l_cycles k) b PROC_BUF_BYTES).

(** ** The files *)

(** The addresses of the nine [file_operations_t], in order. *)
Definition proc_files : list (string * generator) := [
  ("uptime", gen_uptime); ("meminfo", gen_meminfo); ("tasks", gen_tasks); ("netinfo", gen_netinfo);
  ("interrupts", gen_interrupts); ("cmdline", gen_cmdline); ("balloon", gen_balloon); ("cpuinfo", gen_cpuinfo);
  ("version", gen_version)].
End generators.

Section tree.
Context {E : Type} `{TaskEnv E}.
Implicit Types s : Vfs.vfs E.
Definition register_file (parent : Z) (nm : string) (ops : Z) s : Vfs.vfs E :=
  let '(n, s) := Vfs.vfs_create_node parent (cstr nm) Vfs.VNODE_REG s in
  if n =? 0 then s else Vfs.put_node s n (Vfs.set_ops ops).
(** [ops0] is the address of the first [file_operations_t]; they have 24 bytes. *)
Fixpoint register_files (proc : Z) (l : list string) (ops : Z) s : Vfs.vfs E :=
  match l with [] => s | nm :: l' => register_files proc l' (ops + 24) (register_file proc nm ops s) end.
Definition proc_init (ops0 : Z) s : Vfs.vfs E :=
  let '(proc, s) := Vfs.vfs_create_node (Vfs.vfs_root s) (cstr "proc") Vfs.VNODE_DIR s in
  if proc =? 0 then s
  else register_files proc ["uptime"; "meminfo"; "tasks"; "netinfo"; "interrupts"; "cmdline"; "balloon"; "cpuinfo"; "version"] ops0 s.

(** The entries [.read] of the nine tables, for the dispatch of [Vfs]: the
    offset is that of the open file; there is no [.write] and no [.ioctl].
    The state beside the file system is memory; it is lost ([None]) when a
    generator writes outside its array. *)
Definition read_proc (gen : generator) (n f buf count : Z) (sw : Vfs.vfs E * option mem) : Z * (Vfs.vfs E * option mem) :=
  let '(s, om) := sw in
  let fl := Vfs.get_file s f in
  match m ← om; proc_read_via gen (Vfs.offset fl) buf count m with
  | Some (r, off, m) => (r, (Vfs.set_file s f (Vfs.MkFile (Vfs.fvnode fl) off), Some m))
  | None => (-1, (s, None))
  end.
Definition proc_ops (ops0 : Z) (gens : list generator) : Vfs.FileOps E (option mem) := {|
  Vfs.fo_read := fun o => if (ops0 <=? o) && (o <? ops0 + 24 * 9) && ((o - ops0) mod 24 =? 0)
                          then read_proc <$> gens !! Z.to_nat ((o - ops0) / 24) else None;
  Vfs.fo_write := fun _ => None;
  Vfs.fo_ioctl := fun _ => None
|}.
End tree.

(** ** What a file holds

    [holds b t]: the array holds the text [t], cut to 2047 bytes. *)
Definition holds (b t : list Z) : Prop :=
  length b = 2048%nat /\ take (Nat.min (length t) 2047) b = take 2047 t.
(** The generator produces the text. *)
Definition renders (gen : generator) (t : list Z) : Prop :=
  exists total b, gen (replicate 2048 0) = Some (total, b) /\ 0 <= total < 2 ^ 31 /\ holds b t /\
    Z.min total 2047 = Z.min (Z.of_nat (length t)) 2047.

Lemma holds_slice b t o n : holds b t -> (o + n <= Nat.min (length t) 2047)%nat -> take n (drop o b) = take n (drop o (take 2047 t)).
Proof.
  intros [Hl Hb] Hn. set (k := Nat.min (length t) 2047) in *. rewrite <- Hb. rewrite !take_drop_commute. f_equal. rewrite take_take. f_equal. lia.
Qed.
Lemma store_nil a m x : store_buf a [] m x = m x.
Proof. unfold store_buf. cbn [length]. case_if; [lia|done]. Qed.
(** Reading at an offset gives the bytes of the file from there on, as many
    as are asked for and exist, and moves the offset behind them; at the end,
    and at negative offsets, it gives 0. *)
Lemma proc_read_slice gen t offset buf count m :
  renders gen t -> - 2 ^ 63 <= offset < 2 ^ 63 - 2048 -> 0 <= count < 2 ^ 64 ->
  let file := take 2047 t in
  let n := if offset <? 0 then 0 else Z.max 0 (Z.min count (Z.of_nat (length file) - offset)) in
  exists m', proc_read_via gen offset buf count m = Some (n, offset + n, m') /\
    forall a, m' a = store_buf buf (take (Z.to_nat n) (drop (Z.to_nat offset) file)) m a.
Proof.
  intros (total & b & Hg & Ht & Hh & Hmin) Ho Hc file n. unfold proc_read_via. rewrite Hg. cbn [mbind option_bind].
  rewrite (proj2 (Z.ltb_ge total 0)) by lia. rewrite (u64_small total) by lia. unfold PROC_BUF_BYTES.
  assert (Hfl : Z.of_nat (length file) = Z.min total 2047) by (unfold file; rewrite length_take; lia).
  assert ((if 2048 <=? total then 2048 - 1 else total) = Z.of_nat (length file)) as ->.
  { rewrite Hfl. destruct (Z.leb_spec 2048 total); lia. }
  destruct (Z.ltb_spec offset 0) as [Hneg|Hpos].
  { unfold n. assert (u64 offset = offset + 2 ^ 64) as -> by (unfold u64, wrap; symmetry; apply Z.mod_unique with (-1); lia).
    rewrite (proj2 (Z.leb_le (Z.of_nat (length file)) _)) by lia. rewrite Z.add_0_r. exists m. split; [done|]. intros a. by rewrite store_nil. }
  rewrite u64_small by lia. destruct (Z.leb_spec (Z.of_nat (length file)) offset) as [Heof|Hin].
  { assert (n = 0) as -> by (unfold n; lia). rewrite Z.add_0_r. exists m. split; [done|]. intros a. by rewrite store_nil. }
  assert ((if count <? Z.of_nat (length file) - offset then count else Z.of_nat (length file) - offset) = n) as ->.
  { unfold n. destruct (Z.ltb_spec count (Z.of_nat (length file) - offset)); lia. }
  assert (Hn : 0 <= n <= Z.of_nat (length file) - offset) by (unfold n; lia). clearbody n.
  eexists. split.
  - do 3 f_equal.
    + unfold s32, to_signed. rewrite wrap_small by lia. change (32 - 1) with 31. by rewrite (proj2 (Z.ltb_lt n (2 ^ 31))) by lia.
    + unfold s64, to_signed. rewrite wrap_small by lia. change (64 - 1) with 63. by rewrite (proj2 (Z.ltb_lt (offset + n) (2 ^ 63))) by lia.
  - intros a. rewrite (holds_slice b t) by (done || lia). done.
Qed.

(** The bytes that a sequence of reads into the same buffer delivers. *)
Fixpoint read_seq (gen : generator) (offset buf : Z) (counts : list Z) (m : mem) : option (list Z) :=
  match counts with
  | [] => Some []
  | c :: cs =>
      '(n, off, m) ← proc_read_via gen offset buf c m;
      rest ← read_seq gen off buf cs m;
      Some (load_buf buf n m ++ rest)
  end.
Lemma load_store a l m : load_buf a (Z.of_nat (length l)) (store_buf a l m) = l.
Proof. apply load_buf_id. intros i Hi. unfold store_buf. case_if; [f_equal; lia|lia]. Qed.
Lemma read_seq_ok gen t counts : renders gen t -> Forall (fun c => 0 <= c < 2 ^ 32) counts -> forall offset buf m,
  0 <= offset <= 2047 ->
  read_seq gen offset buf counts m = Some (take (Z.to_nat (foldr Z.add 0 counts)) (drop (Z.to_nat offset) (take 2047 t))).
Proof.
  intros Hr Hcs. induction counts as [|c cs IH]; intros offset buf m Ho; cbn [read_seq foldr]; [done|].
  apply Forall_cons in Hcs as [Hc Hcs]. set (file := take 2047 t).
  destruct (proc_read_slice gen t offset buf c m Hr ltac:(lia) ltac:(lia)) as (m' & Hp & Hm). fold file in Hp, Hm.
  rewrite (proj2 (Z.ltb_ge offset 0)) in Hp, Hm by lia. set (n := Z.max 0 _) in *. rewrite Hp. cbn [mbind option_bind].
  assert (Hfl : Z.of_nat (length file) <= 2047) by (unfold file; rewrite length_take; lia).
  rewrite IH by (done || lia). cbn [mbind option_bind]. fold file. f_equal.
  assert (Hs : 0 <= foldr Z.add 0 cs) by (clear -Hcs; induction Hcs; cbn [foldr]; lia).
  set (sum := foldr Z.add 0 cs) in *. clearbody sum.
  assert (load_buf buf n m' = take (Z.to_nat n) (drop (Z.to_nat offset) file)) as ->.
  { set (l := take (Z.to_nat n) (drop (Z.to_nat offset) file)) in *. assert (n = Z.of_nat (length l)) as Hn.
    { unfold l. rewrite length_take, length_drop. lia. }
    rewrite Hn. etransitivity; [|apply (load_store buf l m)]. apply load_buf_ext. intros i Hi. by rewrite Hm. }
  replace (Z.to_nat (offset + n)) with (Z.to_nat offset + Z.to_nat n)%nat by lia. rewrite <- drop_drop.
  set (d := drop (Z.to_nat offset) file). assert (Hd : length d = (length file - Z.to_nat offset)%nat) by (unfold d; by rewrite length_drop).
  destruct (decide (c <= Z.of_nat (length file) - offset)) as [Hle|Hgt].
  - assert (n = c) as -> by (unfold n; lia). rewrite Z2Nat.inj_add by lia. by rewrite take_take_drop.
  - rewrite (take_ge d), (take_ge d), (drop_ge d) by lia. by rewrite take_nil, app_nil_r.
Qed.

(** ** Lengths of texts *)
Definition arg_len (a : arg) : nat := match a with AStr s => length s | _ => 0 end.
(** The longest text a format can give when no string is longer than [B]. *)
Fixpoint render_max (B : nat) (fmt : list Z) : nat :=
  match fmt with
  | [] => 0
  | c :: fmt' =>
      if negb (c =? 37) then S (render_max B fmt')
      else match fmt' with [] => 0 | _ :: fmt'' => Nat.max 65 B + render_max B fmt'' end
  end.
Lemma num_text_len f val base : (length (Strings.num_text f val base) <= f)%nat.
Proof.
  revert val. induction f as [|f IH]; intros val; cbn [Strings.num_text]; [done|]. case_if; [cbn; lia|].
  rewrite length_app. cbn [length]. specialize (IH (val / base)). lia.
Qed.
Lemma num_text_short f val n : 0 <= val < 10 ^ Z.of_nat (S n) -> (length (Strings.num_text f val 10) <= S n)%nat.
Proof.
  revert val n. induction f as [|f IH]; intros val n Hv; cbn [Strings.num_text]; [cbn; lia|]. destruct (Z.ltb_spec val 10); [cbn; lia|].
  rewrite length_app. cbn [length]. destruct n as [|n]; [cbn in Hv; lia|].
  specialize (IH (val / 10) n). rewrite (Nat2Z.inj_succ (S n)), Z.pow_succ_r in Hv by lia.
  assert (0 <= val / 10 < 10 ^ Z.of_nat (S n)) as Hq by (split; [apply Z.div_pos; lia|apply Z.div_lt_upper_bound; lia]). specialize (IH Hq). lia.
Qed.
Lemma itext_len v : (length (Strings.itext v) <= 65)%nat.
Proof. unfold Strings.itext, Strings.utext. case_if; cbn [length]; [pose proof (num_text_len 64 (- v) 10)|pose proof (num_text_len 64 v 10)]; lia. Qed.
Lemma render_bound B fmt args : Forall (fun a => (arg_len a <= B)%nat) args -> (length (render fmt args) <= render_max B fmt)%nat.
Proof.
  remember (length fmt) as n eqn:Hn. revert fmt args Hn. induction n as [n IH] using lt_wf_ind. intros fmt args Hn Ha.
  destruct fmt as [|c fmt]; cbn [render render_max]; [done|]. cbn [length] in Hn.
  destruct (c =? 37); cbn [negb]; [|cbn [length]; apply le_n_S; eapply IH; [|done|done]; lia].
  destruct fmt as [|k fmt]; [done|]. cbn [length] in Hn.
  assert (Htl : Forall (fun a => (arg_len a <= B)%nat) (tail args)) by (destruct Ha; [constructor|done]).
  assert (Hstr : (length (Strings.str (head args)) <= Nat.max 65 B)%nat).
  { destruct Ha as [|a args' Ha]; [cbn; lia|]. destruct a; cbn in *; lia. }
  pose proof (IH (length fmt) ltac:(lia) fmt args eq_refl Ha) as IH1. pose proof (IH (length fmt) ltac:(lia) fmt (tail args) eq_refl Htl) as IH2.
  pose proof (itext_len (s32 (Strings.num (head args)))). pose proof (num_text_len 64 (u64 (Strings.num (head args))) 10).
  pose proof (num_text_len 64 (u64 (Strings.num (head args))) 16). unfold Strings.utext.
  repeat case_if; rewrite ?length_app; cbn [length]; lia.
Qed.

(** The formatter, one character or directive at a time. *)
Lemma render_c c fmt args : (c =? 37) = false -> render (c :: fmt) args = c :: render fmt args.
Proof. intros Hc. cbn [render]. by rewrite Hc. Qed.
Lemma render_u fmt v args : render (37 :: 117 :: fmt) (ANum v :: args) = Strings.utext (u64 v) 10 ++ render fmt args.
Proof. done. Qed.
Lemma render_s fmt s args : render (37 :: 115 :: fmt) (AStr s :: args) = s ++ render fmt args.
Proof. done. Qed.

(** ** Printing into the array *)
Lemma ksn_holds b fmt args : length b = 2048%nat -> Z.of_nat (length (render fmt args)) < 2 ^ 31 ->
  exists b', ksnprintf b PROC_BUF_BYTES fmt args = (Z.of_nat (length (render fmt args)), b') /\ holds b' (render fmt args).
Proof.
  intros Hb Ht. unfold ksnprintf. rewrite Strings.kvsnprintf_spec by (done || (unfold PROC_BUF_BYTES; lia)).
  change (0 <? PROC_BUF_BYTES) with true. cbn iota. rewrite Hb. set (k := Nat.min _ (2048 - 1)). eexists. split; [reflexivity|].
  assert (Hk : k = Nat.min (length (render fmt args)) 2047) by (unfold k; lia). split.
  - rewrite length_app, length_take. cbn [length]. rewrite length_drop. lia.
  - rewrite <- Hk. rewrite take_app_le, take_take by (rewrite length_take; lia). rewrite Nat.min_id.
    rewrite Hk. destruct (decide (length (render fmt args) <= 2047)%nat); [rewrite !take_ge by lia; done|by rewrite Nat.min_r by lia].
Qed.
Lemma printf_holds b t fmt args : holds b t -> (length t < 2048)%nat -> Z.of_nat (length (render fmt args)) < 2 ^ 31 ->
  exists b', printf_at b (Z.of_nat (length t)) (PROC_BUF_BYTES - Z.of_nat (length t)) fmt args =
      Some (Z.of_nat (length (render fmt args)), b') /\ holds b' (t ++ render fmt args).
Proof.
  intros [Hb Ht] Hlt Hr. unfold printf_at, PROC_BUF_BYTES. rewrite Nat2Z.id. set (rest := drop (length t) b).
  assert (Hrl : length rest = (2048 - length t)%nat) by (unfold rest; rewrite length_drop; lia).
  rewrite (proj2 (Z.leb_le _ _)) by lia. rewrite (take_ge rest), (drop_ge rest) by lia. unfold ksnprintf.
  rewrite Strings.kvsnprintf_spec by (done || lia). rewrite (proj2 (Z.ltb_lt 0 _)) by lia. rewrite app_nil_r.
  set (k := Nat.min (length (render fmt args)) (length rest - 1)). eexists. split; [reflexivity|].
  rewrite Nat.min_l in Ht by lia. rewrite (take_ge t) in Ht by lia. rewrite Ht. split.
  - rewrite !length_app, length_take. cbn [length]. rewrite length_drop. lia.
  - rewrite length_app. replace (Nat.min (length t + length (render fmt args)) 2047) with (length t + k)%nat by (unfold k; lia).
    rewrite take_app_add, take_app_le, take_take, Nat.min_id by (rewrite length_take; lia).
    replace 2047%nat with (length t + (2047 - length t))%nat at 1 by lia. rewrite take_app_add. f_equal.
    unfold k. rewrite Hrl. destruct (decide (length (render fmt args) <= 2047 - length t)%nat).
    + rewrite !take_ge by lia. done.
    + f_equal. lia.
Qed.
Lemma holds_full b t u : holds b t -> (2047 <= length t)%nat -> holds b (t ++ u).
Proof. intros [Hb Ht] Hl. split; [done|]. rewrite length_app, take_app_le by lia. rewrite Nat.min_r in * by lia. done. Qed.
(** A generator that is a single call. *)
Lemma renders_printf fmt args B : Forall (fun a => (arg_len a <= B)%nat) args -> Z.of_nat (render_max B fmt) < 2 ^ 31 ->
  renders (fun b => Some (ksnprintf b PROC_BUF_BYTES fmt args)) (render fmt args).
Proof.
  intros Ha Hm. pose proof (render_bound B fmt args Ha) as Hr. destruct (ksn_holds (replicate 2048 0) fmt args) as (b' & Hk & Hh); [done|lia|].
  exists (Z.of_nat (length (render fmt args))), b'. rewrite Hk. split; [done|]. split; [lia|]. done.
Qed.

(** ** The list of tasks *)
Section tasks_text.
Context {E : Type} `{TaskEnv E} `{Sched.Layout} (k : live E).
Definition task_row (t : Z) : list Z := render task_format (task_args k t).
Definition tasks_text (ring : list Z) : list Z := tasks_header ++ mjoin (task_row <$> ring).
Definition names_ok (ring : list Z) : Prop := Forall (fun t => (length (Task.name (Sched.get (l_sched k) t)) <= 16)%nat) ring.

Lemma until_nul_len l : (length (until_nul l) <= length l)%nat.
Proof. induction l as [|c l IH]; cbn [until_nul]; [done|]. case_if; cbn [length]; lia. Qed.
Lemma state_name_len st : (length (Sched.task_state_name st) <= 16)%nat.
Proof. destruct st; vm_compute; lia. Qed.
Lemma row_len t : (length (Task.name (Sched.get (l_sched k) t)) <= 16)%nat -> Z.of_nat (length (task_row t)) <= 300.
Proof.
  intros Hn. assert (length (task_row t) <= render_max 16 task_format)%nat as Hb.
  { apply render_bound. constructor; [cbn; lia|]. constructor; [apply state_name_len|]. constructor; [|constructor].
    pose proof (until_nul_len (Task.name (Sched.get (l_sched k) t))). cbn [arg_len]. lia. }
  assert (render_max 16 task_format <= 300)%nat by (vm_compute; lia). lia.
Qed.
Lemma row_printf t b txt : (length (Task.name (Sched.get (l_sched k) t)) <= 16)%nat -> holds b txt -> (length txt < 2048)%nat ->
  exists b', printf_at b (Z.of_nat (length txt)) (PROC_BUF_BYTES - Z.of_nat (length txt)) task_format (task_args k t) =
      Some (Z.of_nat (length (task_row t)), b') /\ holds b' (txt ++ task_row t).
Proof. intros Hn Hb Hl. apply printf_holds; [done|done|]. pose proof (row_len t Hn) as Hr. unfold task_row in Hr. lia. Qed.
Lemma tasks_loop_ok fuel head t ring b txt :
  SchedInv.path (Sched.tasks (l_sched k)) t (t :: ring) head -> head ∉ ring -> 0 ∉ ring -> names_ok (t :: ring) -> (length (t :: ring) <= fuel)%nat ->
  holds b txt -> Z.of_nat (length txt) <= 4096 ->
  exists pos b', tasks_loop k fuel head t (Z.of_nat (length txt)) b = Some (pos, b') /\ 0 <= pos <= 4096 /\
    holds b' (txt ++ mjoin (task_row <$> t :: ring)) /\
    Z.min pos 2047 = Z.min (Z.of_nat (length (txt ++ mjoin (task_row <$> t :: ring)))) 2047.
Proof.
  revert t ring b txt. induction fuel as [|fuel IH]; intros t ring b txt Hp Hh Hz Hn Hf Hb Ht; [cbn in Hf; lia|]. cbn [tasks_loop].
  unfold PROC_BUF_BYTES at 1. destruct (Z.leb_spec 2048 (Z.of_nat (length txt))) as [Hfull|Hroom].
  { do 2 eexists. split; [done|]. split; [lia|]. split; [apply holds_full; [done|lia]|]. rewrite length_app. lia. }
  apply Forall_cons in Hn as [Hn1 Hn]. pose proof (row_len t Hn1) as Hrow.
  destruct (row_printf t b txt Hn1 Hb ltac:(lia)) as (b1 & -> & Hb1). cbn [mbind option_bind].
  assert ((if 0 <? Z.of_nat (length (task_row t)) then Z.of_nat (length txt) + Z.of_nat (length (task_row t)) else Z.of_nat (length txt)) =
    Z.of_nat (length (txt ++ task_row t))) as ->.
  { rewrite length_app. destruct (Z.ltb_spec 0 (Z.of_nat (length (task_row t)))); lia. }
  assert (Hlen1 : Z.of_nat (length (txt ++ task_row t)) <= 4096) by (rewrite length_app; lia).
  destruct Hp as [_ Hp]. change (Task.next (Sched.get (l_sched k) t)) with (SchedInv.nx (Sched.tasks (l_sched k)) t).
  cbn [fmap list_fmap mjoin list_join]. rewrite app_assoc. destruct ring as [|t' ring]; cbn [SchedInv.path] in Hp.
  - rewrite Hp, Z.eqb_refl. rewrite andb_false_r. cbn [fmap list_fmap mjoin list_join]. rewrite app_nil_r.
    do 2 eexists. split; [done|]. split; [lia|]. done.
  - destruct Hp as [Hnx Hp]. rewrite Hnx in *. assert (t' <> 0 /\ t' <> head) as [Hz' Hh'] by (split; intros ->; [apply Hz|apply Hh]; left).
    rewrite (proj2 (Z.eqb_neq t' 0)), (proj2 (Z.eqb_neq t' head)) by done. cbn [negb andb].
    apply IH; [done|set_solver|set_solver|done|cbn [length] in *; lia|done|done].
Qed.
Lemma renders_ring ring :
  SchedInv.path (Sched.tasks (l_sched k)) Sched.IDLE (Sched.IDLE :: ring) Sched.IDLE -> Sched.IDLE ∉ ring -> 0 ∉ ring ->
  (length (Sched.IDLE :: ring) <= Sched.fuel (l_sched k))%nat -> names_ok (Sched.IDLE :: ring) ->
  renders (gen_tasks k) (tasks_text (Sched.IDLE :: ring)).
Proof.
  intros Hp Hh Hz Hf Hn. unfold renders, gen_tasks.
  assert (Hr : render tasks_header [] = tasks_header) by (vm_compute; reflexivity).
  assert (Hl : Z.of_nat (length tasks_header) <= 100) by (vm_compute; done).
  destruct (ksn_holds (replicate 2048 0) tasks_header [] ltac:(done)) as (b & -> & Hb); [rewrite Hr; lia|].
  rewrite Hr in *. rewrite (proj2 (Z.ltb_ge _ 0)) by lia. unfold Sched.sched_first_task.
  destruct (tasks_loop_ok _ _ _ _ _ _ Hp Hh Hz Hn Hf Hb ltac:(lia)) as (pos & b' & -> & Hpos & Hb' & Hm). cbn [mbind option_bind].
  exists pos, b'. assert (s32 pos = pos) as ->.
  { unfold s32, to_signed. rewrite wrap_small by lia. change (32 - 1) with 31. by rewrite (proj2 (Z.ltb_lt pos (2 ^ 31))) by lia. }
  split; [done|]. split; [lia|]. done.
Qed.
End tasks_text.

(** ** The counters of the interrupts *)
Section irq_text.
Context (blk_irq : Z) (counts : list Z).
Definition irq_row (i : Z) : list Z :=
  if rd counts i =? 0 then []
  else render (lines ["%u    %u  %s"]) [ANum i; ANum (rd counts i); AStr (gic_intid_source blk_irq i)].
Definition irq_text : list Z := irq_header ++ mjoin (irq_row <$> seqZ 0 256).
(** [put_chars] and the rows fill the array as far as it goes. *)
Definition filled (t : list Z) (pb : Z * list Z) : Prop :=
  length pb.2 = 2048%nat /\ pb.1 = Z.min (Z.of_nat (length t)) 2048 /\ take (Z.to_nat pb.1) pb.2 = take 2048 t.
Lemma source_len i : (length (gic_intid_source blk_irq i) <= 21)%nat.
Proof. unfold gic_intid_source. repeat case_if; vm_compute; lia. Qed.
Lemma irq_row_len i : 0 <= i < 256 -> is_u 64 (rd counts i) -> (length (irq_row i) <= 63)%nat.
Proof.
  intros Hi Hc. unfold irq_row. case_if; [cbn; lia|].
  assert (lines ["%u    %u  %s"] = [37; 117; 32; 32; 32; 32; 37; 117; 32; 32; 37; 115; 10]) as -> by (vm_compute; reflexivity).
  rewrite render_u, !(render_c 32), render_u, !(render_c 32), render_s, render_c by done. cbn [render]. unfold Strings.utext.
  rewrite !u64_small by (unfold is_u in Hc; lia). pose proof (source_len i).
  pose proof (num_text_short 64 i 2 ltac:(cbn; lia)). pose proof (num_text_short 64 (rd counts i) 19 ltac:(unfold is_u in Hc; cbn; lia)).
  rewrite !length_app. cbn [length]. rewrite !length_app. cbn [length]. rewrite length_app. cbn [length]. lia.
Qed.

Lemma filled_full t u pb : filled t pb -> 2048 <= pb.1 -> filled (t ++ u) pb.
Proof.
  intros (Hl & Hp & Ht) Hge. split; [done|]. rewrite length_app. split; [lia|]. rewrite take_app_le by lia. done.
Qed.
(** Copying [s] behind the text, as far as there is room. *)
Lemma filled_copy t s pb n : filled t pb -> pb.1 < 2048 -> n = Z.min (2048 - pb.1) (Z.of_nat (length s)) ->
  filled (t ++ s) (pb.1 + n, take (Z.to_nat pb.1) pb.2 ++ take (Z.to_nat n) s ++ drop (Z.to_nat (pb.1 + n)) pb.2).
Proof.
  intros (Hl & Hp & Ht) Hlt ->. set (n := Z.min _ _). cbn [fst snd]. assert (Hpos : pb.1 = Z.of_nat (length t)) by lia.
  rewrite Hpos in *. rewrite Nat2Z.id in *. rewrite (take_ge t) in Ht by lia. rewrite Ht. split; [|split].
  - cbn [snd]. rewrite !length_app, length_take, length_drop. lia.
  - cbn [fst]. rewrite length_app. lia.
  - cbn [fst snd]. rewrite app_assoc. rewrite take_app_le by (rewrite length_app, length_take; lia). rewrite take_ge by (rewrite length_app, length_take; lia).
    replace 2048%nat with (length t + (2048 - length t))%nat by lia. rewrite take_app_add. f_equal.
    destruct (decide (length s <= 2048 - length t)%nat); [rewrite !take_ge by lia; done|]. f_equal. lia.
Qed.
Lemma put_chars_filled s : forall t pb, filled t pb -> filled (t ++ s) (put_chars 2048 s pb).
Proof.
  induction s as [|c s IH]; intros t pb Hf; cbn [put_chars]; [by rewrite app_nil_r|].
  destruct (Z.ltb_spec pb.1 2048) as [Hlt|Hge]; [|by apply filled_full].
  replace (t ++ c :: s) with ((t ++ [c]) ++ s) by (by rewrite <- app_assoc). apply IH. destruct Hf as (Hl & Hp & Ht).
  assert (Hpos : pb.1 = Z.of_nat (length t)) by lia. split; [by cbn [snd]; rewrite length_wr|]. cbn [fst snd]. rewrite length_app. cbn [length].
  split; [lia|]. rewrite wr_prefix by lia. rewrite Ht, !take_ge by (rewrite ?length_app; cbn [length]; lia). done.
Qed.
Definition counts_ok : Prop := length counts = 256%nat /\ forall i, is_u 64 (rd counts i).
Lemma irq_printf i : 0 <= i < 256 -> counts_ok -> rd counts i <> 0 ->
  exists tmp, ksnprintf (replicate 64 0) 64 (lines ["%u    %u  %s"]) [ANum i; ANum (rd counts i); AStr (gic_intid_source blk_irq i)] =
    (Z.of_nat (length (irq_row i)), tmp) /\ take (length (irq_row i)) tmp = irq_row i.
Proof.
  intros Hi [_ Hc] Hnz. pose proof (irq_row_len i Hi (Hc i)) as Hlen. unfold irq_row in *. rewrite (proj2 (Z.eqb_neq _ 0)) in * by done.
  unfold ksnprintf. rewrite Strings.kvsnprintf_spec by (done || lia). change (0 <? 64) with true. cbn iota.
  rewrite length_replicate. rewrite (Nat.min_l _ (64 - 1)) by lia. eexists. split; [reflexivity|].
  rewrite take_app_le, take_take, Nat.min_id by (rewrite length_take; lia). apply take_ge. lia.
Qed.
Lemma irq_rows_filled n : forall i t pb, counts_ok -> 0 <= i -> i + Z.of_nat n = 256 -> filled t pb ->
  filled (t ++ mjoin (irq_row <$> seqZ i (Z.of_nat n))) (irq_rows n i 2048 blk_irq counts pb).
Proof.
  induction n as [|n IH]; intros i t pb Hc Hi Hn Hf; cbn [irq_rows]; [by rewrite app_nil_r|].
  rewrite seqZ_cons by lia. replace (Z.pred (Z.of_nat (S n))) with (Z.of_nat n) by lia. replace (Z.succ i) with (i + 1) by lia.
  cbn [fmap list_fmap mjoin list_join]. destruct (Z.eqb_spec (rd counts i) 0) as [Hz|Hz].
  { unfold irq_row at 1. rewrite Hz. cbn [Z.eqb app]. apply IH; [done|lia|lia|done]. }
  destruct (Z.leb_spec 2048 pb.1) as [Hfull|Hroom]; [by apply filled_full|].
  destruct (irq_printf i ltac:(lia) Hc Hz) as (tmp & -> & Htmp). rewrite app_assoc.
  destruct (Z.leb_spec (Z.of_nat (length (irq_row i))) 0) as [Hz'|Hpos].
  { apply IH; [done|lia|lia|]. destruct (irq_row i) as [|? ?]; [by rewrite app_nil_r|cbn in Hz'; lia]. }
  set (nc := if _ <? _ then _ else _). assert (Hnc : nc = Z.min (2048 - pb.1) (Z.of_nat (length (irq_row i)))).
  { unfold nc. destruct (Z.ltb_spec (2048 - pb.1) (Z.of_nat (length (irq_row i)))); lia. }
  clearbody nc. apply IH; [done|lia|lia|]. assert (take (Z.to_nat nc) tmp = take (Z.to_nat nc) (irq_row i)) as ->.
  { rewrite <- Htmp, take_take. f_equal. lia. }
  by apply filled_copy.
Qed.
Lemma renders_filled gen t : (exists pb, gen (replicate 2048 0) = Some (s32 pb.1, pb.2) /\ filled t pb) -> renders gen t.
Proof.
  intros (pb & Hg & Hl & Hp & Ht). exists pb.1, pb.2. assert (Hs : s32 pb.1 = pb.1).
  { unfold s32, to_signed. rewrite wrap_small by lia. change (32 - 1) with 31. by rewrite (proj2 (Z.ltb_lt pb.1 (2 ^ 31))) by lia. }
  rewrite Hg, Hs. split; [done|]. split; [lia|]. split; [|lia]. split; [done|].
  transitivity (take (Nat.min (length t) 2047) (take (Z.to_nat pb.1) pb.2)); [rewrite take_take; f_equal; lia|].
  rewrite Ht, take_take. destruct (decide (length t <= 2047)%nat); [rewrite !take_ge by lia; done|f_equal; lia].
Qed.
Lemma renders_interrupts : counts_ok -> renders (fun b => Some (gic_render_interrupts blk_irq counts b PROC_BUF_BYTES)) irq_text.
Proof.
  intros Hc. apply renders_filled. unfold gic_render_interrupts, PROC_BUF_BYTES.
  set (pb := irq_rows _ _ _ _ _ _). exists pb. split; [done|]. unfold pb, irq_text. change 256 with (Z.of_nat 256) at 1.
  apply irq_rows_filled; [done|lia|lia|]. apply (put_chars_filled irq_header []). by split.
Qed.
End irq_text.

(** ** The state of the network *)
(** The text [t] is in the array, and there is room behind it. *)
Definition fits (t : list Z) (pb : Z * list Z) : Prop :=
  length pb.2 = 2048%nat /\ pb.1 = Z.of_nat (length t) /\ take (length t) pb.2 = t.
Definition mac_text (mac : list Z) : list Z := tail (mjoin ((fun x => [58; digits (x >>> 4); digits (x .& 0xF)]) <$> mac)).
Lemma fits_char t c pb : fits t pb -> (length t < 2048)%nat -> fits (t ++ [c]) (pb.1 + 1, wr pb.2 pb.1 c).
Proof.
  intros (Hl & Hp & Ht) Hlt. split; [by cbn [snd]; rewrite length_wr|]. cbn [fst snd]. rewrite length_app. cbn [length]. split; [lia|].
  replace (length t + 1)%nat with (Z.to_nat (pb.1 + 1)) by lia. rewrite wr_prefix by lia. rewrite Hp, Nat2Z.id. by rewrite Ht.
Qed.
Lemma fits_chars s : forall t pb, fits t pb -> (length t + length s <= 2048)%nat -> fits (t ++ s) (put_chars 2048 s pb).
Proof.
  induction s as [|c s IH]; intros t pb Hf Hlt; cbn [put_chars]; [by rewrite app_nil_r|]. cbn [length] in Hlt.
  pose proof Hf as (_ & Hp & _). rewrite (proj2 (Z.ltb_lt _ _)) by lia. replace (t ++ c :: s) with ((t ++ [c]) ++ s) by (by rewrite <- app_assoc).
  apply IH; [apply fits_char; [done|lia]|rewrite length_app; cbn [length]; lia].
Qed.
Lemma fits_mac_tail mac : forall i t pb, 0 < i -> fits t pb -> (length t + 3 * length mac <= 2048)%nat ->
  fits (t ++ mjoin ((fun x => [58; digits (x >>> 4); digits (x .& 0xF)]) <$> mac)) (put_mac 2048 i mac pb).
Proof.
  induction mac as [|x mac IH]; intros i t pb Hi Hf Hlt; cbn [put_mac]; [cbn; by rewrite app_nil_r|]. cbn [length] in Hlt.
  pose proof Hf as (_ & Hp & _). rewrite (proj2 (Z.leb_le _ _)), (proj2 (Z.ltb_lt 0 i)) by lia.
  cbn [fmap list_fmap mjoin list_join]. rewrite app_assoc. apply IH; [lia| |rewrite length_app; cbn [length]; lia].
  change [58; digits (x >>> 4); digits (x .& 15)] with ([58] ++ [digits (x >>> 4)] ++ [digits (x .& 15)]). rewrite !app_assoc.
  do 3 (apply fits_char; [|rewrite ?length_app; cbn [length]; lia]). done.
Qed.
Lemma fits_mac mac t pb : fits t pb -> (length t + 3 * length mac <= 2048)%nat -> fits (t ++ mac_text mac) (put_mac 2048 0 mac pb).
Proof.
  intros Hf Hlt. destruct mac as [|x mac]; cbn [put_mac]; [cbn; by rewrite app_nil_r|]. cbn [length] in Hlt.
  pose proof Hf as (_ & Hp & _). rewrite (proj2 (Z.leb_le _ _)) by lia. change (0 <? 0) with false. cbn iota.
  unfold mac_text. cbn [fmap list_fmap mjoin list_join tail app].
  match goal with |- fits (t ++ ?a :: ?b :: ?r) _ => replace (t ++ a :: b :: r) with (((t ++ [a]) ++ [b]) ++ r) by (by rewrite <- !app_assoc) end.
  apply fits_mac_tail; [lia| |rewrite !length_app; cbn [length]; lia].
  do 2 (apply fits_char; [|rewrite ?length_app; cbn [length]; lia]). done.
Qed.
Lemma fits_fmt t pb fmt args : fits t pb -> (length t + length (render fmt args) < 2048)%nat ->
  exists pb', put_fmt 2048 fmt args pb = Some pb' /\ fits (t ++ render fmt args) pb'.
Proof.
  intros (Hl & Hp & Ht) Hlt. set (r := render fmt args) in *. unfold put_fmt. rewrite Hp, u32_small by lia.
  destruct (printf_holds pb.2 t fmt args) as (b' & Hb & [Hl' Hh]); fold r; [|lia|lia|].
  { split; [done|]. rewrite Nat.min_l by lia. by rewrite Ht, take_ge by lia. }
  unfold PROC_BUF_BYTES in Hb. rewrite Hb. cbn [mbind option_bind]. fold r. eexists. split; [reflexivity|]. fold r in Hh.
  rewrite length_app in Hh. rewrite Nat.min_l, (take_ge (t ++ r)) in Hh by (rewrite ?length_app; lia). split; [done|]. cbn [fst snd].
  rewrite length_app, Nat2Z.inj_add. split; [|done]. destruct (Z.ltb_spec 0 (Z.of_nat (length r))); [rewrite u32_small by lia|]; lia.
Qed.
Lemma fits_nl t pb : fits t pb -> (length t < 2048)%nat -> fits (t ++ NL) (if pb.1 <? 2048 then (pb.1 + 1, wr pb.2 pb.1 10) else pb).
Proof. intros Hf Hlt. pose proof Hf as (_ & Hp & _). rewrite (proj2 (Z.ltb_lt _ _)) by lia. by apply fits_char. Qed.
Lemma fits_renders gen t pb : gen (replicate 2048 0) = Some (s32 pb.1, pb.2) -> fits t pb -> (length t < 2048)%nat -> renders gen t.
Proof.
  intros Hg (Hl & Hp & Ht) Hlt. apply renders_filled. exists pb. split; [done|]. split; [done|]. split; [lia|].
  by rewrite Hp, Nat2Z.id, Ht, take_ge by lia.
Qed.

Section net_text.
Context (n : Net.net).
Definition link_args : list arg := [AStr (cstr (if test_mask (Net.link_status (Net.dev n)) 1 then "UP" else "DOWN"))].
Definition conf_args : list arg :=
  let c := Net.ip n in
  ip_args (Net.g_my_ip c) ++ ip_args (Net.g_subnet_mask c) ++ ip_args (Net.g_gateway_ip c) ++
  [yes_no (Net.g_dhcp_acquired c)] ++ ip_args (Net.g_dhcp_server c) ++ [ANum (Net.g_lease_secs c)].
Definition gw_text : list Z := match Net.gateway_mac n with Some g => mac_text g | None => cstr "(unknown)" end.
Definition packet_args : list arg := [ANum (Net.rx_packets (Net.rx n)); ANum (Net.tx_packets (Net.tx n))].
Definition net_text : list Z :=
  cstr "mac:        " ++ mac_text (Net.mac (Net.dev n)) ++ NL ++ render (lines ["link:       %s"]) link_args ++
  render ip_format conf_args ++ cstr "gw_mac:     " ++ gw_text ++ NL ++ render (lines ["rx_packets: %u"; "tx_packets: %u"]) packet_args.
Definition macs_ok : Prop :=
  length (Net.mac (Net.dev n)) = 6%nat /\ (forall g, Net.gateway_mac n = Some g -> length g = 6%nat).

Lemma ip_args_len l : Forall (fun a => (arg_len a <= 4)%nat) (ip_args l).
Proof. unfold ip_args. apply Forall_fmap, Forall_true. intros x. cbn. lia. Qed.
Lemma yes_no_len b : (arg_len (yes_no b) <= 4)%nat.
Proof. destruct b; vm_compute; lia. Qed.
Lemma link_len : (length (render (lines ["link:       %s"]) link_args) <= 78)%nat.
Proof.
  etransitivity; [apply (render_bound 4)|vm_compute; lia]. constructor; [|constructor]. case_match; vm_compute; lia.
Qed.
Lemma conf_len : (length (render ip_format conf_args) <= 1400)%nat.
Proof.
  etransitivity; [apply (render_bound 4)|vm_compute; lia]. unfold conf_args. rewrite !Forall_app.
  repeat split; try apply ip_args_len; (constructor; [|constructor]); [apply yes_no_len|cbn; lia].
Qed.
Lemma packets_len : (length (render (lines ["rx_packets: %u"; "tx_packets: %u"]) packet_args) <= 160)%nat.
Proof. etransitivity; [apply (render_bound 4)|vm_compute; lia]. repeat constructor; cbn; lia. Qed.
Lemma mac_text_len mac : length mac = 6%nat -> length (mac_text mac) = 17%nat.
Proof. intros Hm. do 6 (destruct mac as [|? mac]; [done|]). by destruct mac. Qed.
Lemma gw_fits t pb : (forall g, Net.gateway_mac n = Some g -> length g = 6%nat) -> fits t pb -> (length t + 17 < 2000)%nat ->
  (length gw_text <= 17)%nat /\
  fits (t ++ gw_text) match Net.gateway_mac n with Some g => put_mac 2048 0 g pb | None => put_chars 2048 (cstr "(unknown)") pb end.
Proof.
  intros Hg Hf Hl. unfold gw_text. destruct (Net.gateway_mac n) as [g|].
  - specialize (Hg g eq_refl). rewrite mac_text_len by done. split; [lia|]. apply fits_mac; [done|]. rewrite Hg. lia.
  - split; [vm_compute; lia|]. apply fits_chars; [done|]. change (length (cstr "(unknown)")) with 9%nat. lia.
Qed.
Lemma renders_netinfo : macs_ok -> renders (fun b => net_get_info n b PROC_BUF_BYTES) net_text.
Proof.
  intros [Hm Hg]. pose proof link_len as Hl1. pose proof conf_len as Hl2. pose proof packets_len as Hl3. pose proof (mac_text_len _ Hm) as Hl4.
  pose proof (fits_chars (cstr "mac:        ") [] (0, replicate 2048 0) ltac:(by repeat split) ltac:(cbn; lia)) as F1. cbn [app] in F1.
  assert (Hl5 : length (cstr "mac:        ") = 12%nat) by done. assert (Hl6 : length (cstr "gw_mac:     ") = 12%nat) by done.
  assert (Hl7 : length NL = 1%nat) by done.
  pose proof (fits_mac (Net.mac (Net.dev n)) _ _ F1 ltac:(rewrite Hm, Hl5; lia)) as F2.
  pose proof (fits_nl _ _ F2 ltac:(rewrite length_app; lia)) as F3.
  destruct (fits_fmt _ _ (lines ["link:       %s"]) link_args F3 ltac:(rewrite !length_app; lia)) as (pb4 & E4 & F4).
  destruct (fits_fmt _ _ ip_format conf_args F4 ltac:(rewrite !length_app; lia)) as (pb5 & E5 & F5).
  pose proof (fits_chars (cstr "gw_mac:     ") _ _ F5 ltac:(rewrite !length_app; lia)) as F6.
  destruct (gw_fits _ _ Hg F6 ltac:(rewrite !length_app; lia)) as [Hl8 F7].
  pose proof (fits_nl _ _ F7 ltac:(rewrite !length_app; lia)) as F8.
  destruct (fits_fmt _ _ (lines ["rx_packets: %u"; "tx_packets: %u"]) packet_args F8 ltac:(rewrite !length_app; lia)) as (pb9 & E9 & F9).
  rewrite <- !app_assoc in F9. apply (fits_renders _ _ pb9); [|exact F9|unfold net_text; rewrite !length_app; lia].
  unfold net_get_info, PROC_BUF_BYTES. fold link_args. rewrite E4. cbn [mbind option_bind]. fold conf_args. rewrite E5. cbn [mbind option_bind].
  fold packet_args. rewrite E9. done.
Qed.
End net_text.

(** ** Every file *)
Lemma render_max_len B fmt : (render_max B fmt <= Nat.max 65 B * length fmt)%nat.
Proof.
  remember (length fmt) as n eqn:Hn. revert fmt Hn. induction n as [n IH] using lt_wf_ind. intros fmt Hn.
  destruct fmt as [|c fmt]; cbn [render_max]; [lia|]. cbn [length] in Hn. pose proof (IH (length fmt) ltac:(lia) fmt eq_refl) as IH1.
  case_if; [nia|]. destruct fmt as [|d fmt]; [lia|]. cbn [length] in *. pose proof (IH (length fmt) ltac:(lia) fmt eq_refl). nia.
Qed.
Lemma renders_printf_short fmt args B : (B <= 65)%nat -> Forall (fun a => (arg_len a <= B)%nat) args -> Z.of_nat (length fmt) < 2 ^ 20 ->
  renders (fun b => Some (ksnprintf b PROC_BUF_BYTES fmt args)) (render fmt args).
Proof. intros HB Ha Hf. apply (renders_printf _ _ B); [done|]. pose proof (render_max_len B fmt). nia. Qed.

(** The uptime, with hundredths of a second. *)
Definition uptime_text (ms : Z) : list Z := Strings.utext (ms / 1000) 10 ++ [46; digits (ms mod 1000 / 100); digits (ms mod 100 / 10); 10].
Lemma utext_digit d : 0 <= d < 10 -> Strings.utext d 10 = [digits d].
Proof. intros Hd. unfold Strings.utext. cbn [Strings.num_text]. by rewrite (proj2 (Z.ltb_lt d 10)) by lia. Qed.
Lemma uptime_text_ok ms : is_u 64 ms ->
  render (lines ["%u.%u%u"]) [ANum (ms / 1000); ANum (ms mod 1000 / 10 / 10); ANum ((ms mod 1000 / 10) mod 10)] = uptime_text ms.
Proof.
  intros Hm. unfold is_u in Hm. assert (lines ["%u.%u%u"] = [37; 117; 46; 37; 117; 37; 117; 10]) as -> by (vm_compute; reflexivity).
  rewrite render_u, render_c, !render_u, render_c by done. cbn [render]. unfold uptime_text.
  assert (0 <= ms / 1000 <= ms) by (split; [apply Z.div_pos; lia|apply Z.div_le_upper_bound; lia]).
  assert (0 <= ms mod 1000 < 1000) by (apply Z.mod_pos_bound; lia).
  replace (ms mod 1000 / 10 / 10) with (ms mod 1000 / 100) by (rewrite Z.div_div by lia; done).
  replace ((ms mod 1000 / 10) mod 10) with (ms mod 100 / 10) by (Z.div_mod_to_equations; lia).
  rewrite !u64_small by (Z.div_mod_to_equations; lia). rewrite (utext_digit (ms mod 1000 / 100)), (utext_digit (ms mod 100 / 10)) by (Z.div_mod_to_equations; lia). done.
Qed.

Section files.
Context {E : Type} `{TaskEnvLaws E} `{Sched.Layout} (k : live E).
(** The texts of the nine files; [ring] is the list of the tasks. *)
Definition meminfo_args : list arg :=
  [ANum (u64 (Pmm.pmm_get_total_pages (l_pmm k) * 4)); ANum (u64 (Pmm.pmm_get_used_pages (l_pmm k) * 4));
   ANum (u64 (Pmm.pmm_get_free_pages (l_pmm k) * 4)); ANum (u64 (Pmm.pmm_get_reserved_pages (l_pmm k) * 4));
   ANum (Heap.heap_total_bytes (l_heap k) / 1024); ANum (Heap.heap_used_bytes (l_heap k) / 1024);
   ANum (Heap.heap_free_bytes (l_heap k) / 1024)].
Definition balloon_args : list arg :=
  let '(a, t) := l_balloon k in [ANum a; ANum (a * 4); ANum t; ANum (t * 4)].
Definition proc_texts (ring : list Z) : list (string * list Z) := [
  ("uptime", uptime_text (Timer.timer_uptime_ms (l_timer k)));
  ("meminfo", render meminfo_format meminfo_args);
  ("tasks", tasks_text k ring);
  ("netinfo", net_text (l_net k));
  ("interrupts", irq_text (l_blk_irq k) (l_irq_counts k));
  ("cmdline", lines ["console=ttyAMA0 maxcpus=1 net=virtio-net-pci ip=10.0.2.15"]);
  ("balloon", render (lines ["actual:      %u pages (%u KB)"; "host_target: %u pages (%u KB)"]) balloon_args);
  ("cpuinfo", render cpu_format (cpu_args (l_cpu k) (l_cycles k)));
  ("version", render (lines ["Fermi OS aarch64 (cortex-a72)"] ++ cstr "Built: " ++ l_built k ++ NL) [])].
(** The state of the kernel: the tasks are a ring, with names of at most 16
    bytes, the counters and addresses have their sizes. *)
Record live_ok (L D : list Z) (F : res) : Prop := {
  lo_core : SchedInv.core (l_sched k) L D F;
  lo_names : names_ok k (Sched.IDLE :: L);
  lo_counts : counts_ok (l_irq_counts k);
  lo_macs : macs_ok (l_net k);
  lo_built : (length (l_built k) <= 64)%nat
}.
Lemma cpu_names_len imp part : (length (implementer_name imp) <= 20)%nat /\ (length (arm_part_name part) <= 20)%nat.
Proof.
  split; [unfold implementer_name|unfold arm_part_name]; repeat case_match; vm_compute; lia.
Qed.
Lemma cpu_args_len c cycles : Forall (fun a => (arg_len a <= 20)%nat) (cpu_args c cycles).
Proof.
  assert (forall b, (arg_len (yes_no b) <= 20)%nat) as Hyn by (intros []; vm_compute; lia).
  unfold cpu_args. repeat (apply Forall_cons; split); try apply Hyn; try apply Forall_nil_2; cbn [arg_len]; try lia.
  - apply (cpu_names_len _ 0).
  - case_if; [apply (cpu_names_len 0)|vm_compute; lia].
Qed.
Lemma renders_uptime : renders (gen_uptime k) (uptime_text (Timer.timer_uptime_ms (l_timer k))).
Proof.
  rewrite <- uptime_text_ok by (apply u64_range). unfold gen_uptime. apply (renders_printf_short _ _ 0); [lia|repeat constructor|vm_compute; done].
Qed.
Lemma renders_tasks L D F : live_ok L D F -> renders (gen_tasks k) (tasks_text k (Sched.IDLE :: L)).
Proof.
  intros Hk. destruct (SchedInv.core_walk _ _ _ _ (lo_core _ _ _ Hk)) as (Hp & Hi & Hz & Hf). cbn [tail] in Hi.
  exact (renders_ring k L Hp Hi (fun Hin => Hz (proj2 (elem_of_cons _ _ _) (or_intror Hin))) Hf (lo_names _ _ _ Hk)).
Qed.
Lemma renders_cmdline : renders (gen_cmdline) (lines ["console=ttyAMA0 maxcpus=1 net=virtio-net-pci ip=10.0.2.15"]).
Proof.
  set (t := lines _). assert (Ht : render t [] = t) by (vm_compute; reflexivity). rewrite <- Ht at 1.
  apply (renders_printf_short _ _ 0); [lia|constructor|vm_compute; done].
Qed.
(** Every file of the directory shows its text. *)
Theorem proc_files_render L D F : live_ok L D F ->
  Forall2 (fun g t => g.1 = t.1 /\ renders g.2 t.2) (proc_files k) (proc_texts (Sched.IDLE :: L)).
Proof.
  intros Hk. unfold proc_files, proc_texts. repeat (apply Forall2_cons; split; [split; [reflexivity|cbn [snd]]|]); [..|constructor].
  - apply renders_uptime.
  - apply (renders_printf_short _ _ 0); [lia|repeat constructor|vm_compute; done].
  - by apply (renders_tasks L D F).
  - apply renders_netinfo, (lo_macs _ _ _ Hk).
  - apply renders_interrupts, (lo_counts _ _ _ Hk).
  - apply renders_cmdline.
  - unfold gen_balloon, balloon_args. destruct (l_balloon k). apply (renders_printf_short _ _ 0); [lia|repeat constructor|vm_compute; done].
  - unfold gen_cpuinfo, cpu_render_info. apply (renders_printf_short _ _ 20); [lia|apply cpu_args_len|vm_compute; done].
  - apply (renders_printf_short _ _ 0); [lia|constructor|]. pose proof (lo_built _ _ _ Hk). rewrite !length_app.
    assert (length (lines ["Fermi OS aarch64 (cortex-a72)"]) = 30%nat) as -> by (vm_compute; done).
    change (length (cstr "Built: ")) with 7%nat. change (length NL) with 1%nat. lia.
Qed.
(** Read piece by piece from the start, with any counts, a file delivers its
    text, cut to 2047 bytes. *)
Theorem proc_file_delivers L D F i nm gen : live_ok L D F -> proc_files k !! i = Some (nm, gen) ->
  exists t, proc_texts (Sched.IDLE :: L) !! i = Some (nm, t) /\
  forall counts buf m, Forall (fun c => 0 <= c < 2 ^ 32) counts ->
    read_seq gen 0 buf counts m = Some (take (Z.to_nat (foldr Z.add 0 counts)) (take 2047 t)).
Proof.
  intros Hk Hi. destruct (Forall2_lookup_l _ _ _ _ _ (proc_files_render L D F Hk) Hi) as ([nm' t] & Ht & [Hnm Hr]).
  cbn [fst snd] in Hnm, Hr. subst nm'. exists t. split; [done|]. intros counts buf m Hc. by rewrite (read_seq_ok gen t) by (done || lia).
Qed.
(** A read of an open file of the directory, through the descriptor. *)
Theorem proc_fd_read L D F ops0 i nm t task fd buf count (s : Vfs.vfs E) m :
  live_ok L D F -> proc_texts (Sched.IDLE :: L) !! i = Some (nm, t) -> Vfs.bad_fd task fd s = false ->
  let f := rd (Vfs.fds s task) fd in
  let fl := Vfs.get_file s f in
  let file := take 2047 t in
  Vfs.ops (Vfs.node s (Vfs.fvnode fl)) = ops0 + 24 * Z.of_nat i -> 0 < ops0 ->
  0 <= Vfs.offset fl < 2 ^ 63 - 2048 -> 0 <= count < 2 ^ 64 ->
  let n := Z.max 0 (Z.min count (Z.of_nat (length file) - Vfs.offset fl)) in
  exists m', Vfs.fd_read (H0 := proc_ops ops0 ((proc_files k).*2)) task fd buf count (s, Some m) =
      (n, (Vfs.set_file s f (Vfs.MkFile (Vfs.fvnode fl) (Vfs.offset fl + n)), Some m')) /\
    forall a, m' a = store_buf buf (take (Z.to_nat n) (drop (Z.to_nat (Vfs.offset fl)) file)) m a.
Proof.
  intros Hk Ht Hfd f fl file Hops H0' Ho Hc n. pose proof (proc_files_render L D F Hk) as HF.
  destruct (Forall2_lookup_r _ _ _ _ _ HF Ht) as ([nm' gen] & Hg & [_ Hr]). cbn [snd] in Hr.
  assert (Hi : (i < 9)%nat) by (apply lookup_lt_Some in Ht; exact Ht).
  destruct (proc_read_slice gen t (Vfs.offset fl) buf count m Hr ltac:(lia) Hc) as (m' & Hp & Hm).
  rewrite (proj2 (Z.ltb_ge (Vfs.offset fl) 0)) in Hp, Hm by lia. fold file in Hp, Hm. fold n in Hp, Hm. exists m'. split; [|exact Hm].
  unfold Vfs.fd_read, Vfs.dispatch. cbn [fst]. rewrite Hfd. fold f. fold fl. rewrite Hops. rewrite (proj2 (Z.eqb_neq _ 0)) by lia.
  cbn [Vfs.fo_read proc_ops]. replace (ops0 + 24 * Z.of_nat i - ops0) with (Z.of_nat i * 24) by lia.
  rewrite (proj2 (Z.leb_le _ _)), (proj2 (Z.ltb_lt _ _)) by lia. rewrite Z.mod_mul, Z.div_mul by lia. rewrite Nat2Z.id.
  cbn [andb Z.eqb]. rewrite list_lookup_fmap, Hg. cbn [fmap option_fmap option_map snd]. unfold read_proc. fold fl.
  cbn [mbind option_bind]. rewrite Hp. done.
Qed.
End files.

(** ** Concrete instances *)
Module Demo.
Import SchedThm.SchedThm.
Definition demo_live : live bump := MkLive
  (Timer.MkTimer 62500000 625000 1234 0 0 0 0) Heap.demo_pmm (Heap.MkHeap ∅ 0 [] Heap.demo_pmm) demo_two
  (<[30%nat := 1234]> (replicate 256 0)) 35
  (Net.MkNet (Net.MkRx Virtqueue.demo_vq (replicate 128 0) false 3) (Net.MkTx Virtqueue.demo_vq 4)
     (Net.MkNic [0x52; 0x54; 0; 0x12; 0x34; 0x56] true 1 true) Net.ip_default None)
  (0, 256) (MkCpu 0x410FD083 0x84448004 0x22222222 0x11120 0x1124) 99 (cstr "Jan  1 2025 00:00:00").
Lemma demo_live_ok : live_ok demo_live [16; 32] [] res0.
Proof.
  split.
  - exact (proj1 demo_two_inv).
  - repeat constructor; vm_compute; lia.
  - split; [done|]. intros i. unfold rd. cbn [l_irq_counts demo_live]. unfold is_u.
    assert (Forall (fun v => 0 <= v < 2 ^ 64) (<[30%nat := 1234]> (replicate 256 0))) as Hf by (apply (bool_decide_unpack _); by vm_compute).
    destruct (nth_in_or_default (Z.to_nat i) (<[30%nat := 1234]> (replicate 256 0)) 0) as [Hin| ->]; [|lia].
    rewrite Forall_forall in Hf. apply Hf. by apply list_elem_of_In.
  - split; [done|]. discriminate.
  - vm_compute. lia.
Qed.
(** /proc/uptime after 12.34 seconds, /proc/tasks and /proc/interrupts. *)
Example uptime_reads : read_seq (gen_uptime demo_live) 0 0x5000 [2; 1; 100] (fun _ => 0) = Some (lines ["12.34"]).
Proof. vm_compute. reflexivity. Qed.
Example interrupts_reads :
  read_seq (gen_interrupts demo_live) 0 0x5000 [4096] (fun _ => 0) = Some (lines ["INTID  COUNT     SOURCE"; "30    1234  timer (PPI)"]).
Proof. vm_compute. reflexivity. Qed.
Example tasks_read_all : exists t, read_seq (gen_tasks demo_live) 0 0x5000 [100; 100; 4096] (fun _ => 0) = Some t /\ t = tasks_text demo_live [Sched.IDLE; 16; 32].
Proof.
  destruct (proc_file_delivers demo_live [16; 32] [] res0 2 "tasks" _ demo_live_ok eq_refl) as (t & Ht & Hr). injection Ht as <-.
  eexists. split; [apply Hr; repeat constructor; lia|]. vm_compute. reflexivity.
Qed.
(** The directory, built and opened. *)
Definition demo_vfs : Vfs.vfs bump := (Vfs.fd_table_create (proc_init 0x9000 (Vfs.vfs_init (Vfs.MkVfs [] 0 ∅ ∅ (MkBump 16 4096 0 0 62500000))))).2.
Example proc_open_uptime :
  let '(fd, s) := Vfs.fd_open 16 (cstr "/proc/uptime") demo_vfs in
  let '(r, (s, m)) := Vfs.fd_read (H0 := proc_ops 0x9000 ((proc_files demo_live).*2)) 16 fd 0x5000 4 (s, Some (fun _ => 0)) in
  (fd, r, load_buf 0x5000 4 <$> m) = (0, 4, Some (cstr "12.3")).
Proof. vm_compute. reflexivity. Qed.
(** [net_get_info] counts what [ksnprintf] would have written: with 64 bytes
    its third piece is told of room that the array does not have. *)
Example net_get_info_small : net_get_info (l_net demo_live) (replicate 64 0) 64 = None.
Proof. vm_compute. reflexivity. Qed.
End Demo.
End Proc.
