(* ===== verification/Syscall.v ===== *)
(** * System calls (src/src/syscall/syscall.c, syscall.h)

    The checks of user pointers, the dispatch on the number in x8, and
    [sys_exec].  The context is that of [Signal]: scheduler state, trap frame
    of the caller and the memory its address space shows.  What the calls use
    of the file descriptors, the network, the balloon and the benchmarks is
    the interface [SysEnv]; a driver that is given a buffer appears as the
    function that yields or takes the bytes. *)
From S2P Require Import Prelude PageAlloc Bytes Heap Mmu Task TaskEnv BumpEnv Sched SchedInv SchedThm Signal Elf.
From AAC_tactics Require Import AAC.
#[local] Open Scope Z_scope.

Module Syscall.
Export Signal.

Definition SYS_READ : Z := 0.
Definition SYS_WRITE : Z := 1.
Definition SYS_OPEN : Z := 2.
Definition SYS_CLOSE : Z := 3.
Definition SYS_EXIT : Z := 4.
Definition SYS_YIELD : Z := 5.
Definition SYS_SLEEP : Z := 6.
Definition SYS_GETPID : Z := 7.
Definition SYS_LSEEK : Z := 8.
Definition SYS_UPTIME : Z := 9.
Definition SYS_NET_PING : Z := 10.
Definition SYS_KILL : Z := 11.
Definition SYS_FORK : Z := 12.
Definition SYS_EXEC : Z := 13.
Definition SYS_BALLOON : Z := 14.
Definition SYS_BENCH : Z := 15.
Definition SYS_SIGACTION : Z := 16.
Definition SYS_SIGRETURN : Z := 17.
Definition SYS_SIGPROCMASK : Z := 18.
Definition SYS_ALARM : Z := 19.
Definition SYS_IOCTL : Z := 20.
Definition SYS_RT : Z := 21.
Definition SYS_BLKTEST : Z := 22.
Definition SEEK_SET : Z := 0.
Definition SEEK_END : Z := 2.
Definition USER_PATH_MAX : Z := 4096.
Definition EXEC_MAX_BYTES : Z := 1 <<< 20.
Definition EXEC_MAX_ARGC : Z := 32.
Definition EXEC_ARG_BYTES_MAX : Z := 1024.
Notation USER_STACK_TOP := Mmu.USER_STACK_TOP.

(** ** Interface to the devices and the file descriptors *)
Class SysEnv (E : Type) := {
  sy_fd_close : Z -> Z -> E -> Z * E;
  sy_fd_seek : Z -> Z -> Z -> Z -> E -> Z * E;
  (** the result, and the bytes stored from the start of the buffer on *)
  sy_fd_read : Z -> Z -> Z -> E -> Z * list Z * E;
  sy_fd_write : Z -> Z -> list Z -> E -> Z * E;
  sy_fd_ioctl : Z -> Z -> Z -> Z -> mem -> E -> Z * mem * E;
  sy_uptime_ms : E -> Z;
  sy_send_ping : Z -> E -> Z * E;
  sy_rx_poll : E -> Z * list Z * E;
  sy_balloon_inflate : Z -> E -> Z * E;
  sy_balloon_deflate : Z -> E -> Z * E;
  (** [actual_pages] and [host_target] *)
  sy_balloon_status : E -> Z * Z;
  sy_bench : sched E -> sched E;
  (** the suite by its number *)
  sy_blktest : Z -> sched E -> sched E;
  sy_rt_demo : sched E -> sched E;
  sy_rt_pi_demo : sched E -> sched E;
  (** the kernel's memory, and what the tables at an address show *)
  sy_mem : E -> mem;
  sy_set_mem : mem -> E -> E;
  sy_view : Z -> E -> mem
}.

(** ** User pointers *)
Definition user_buf_ok (ptr len : Z) : bool :=
  if len =? 0 then true
  else if u64 (ptr + len) <? ptr then false
  else if USER_STACK_TOP <? u64 (ptr + len) then false
  else true.

Fixpoint str_loop (n : nat) (i ptr : Z) (m : mem) : Z :=
  match n with
  | O => -1
  | S n' => if m (ptr + i) =? 0 then i else str_loop n' (i + 1) ptr m
  end.
Definition user_str_ok (ptr : Z) (m : mem) : Z :=
  if USER_STACK_TOP <=? ptr then -1
  else
    let bound := USER_STACK_TOP - ptr in
    let bound := if USER_PATH_MAX <? bound then USER_PATH_MAX else bound in
    str_loop (Z.to_nat bound) 0 ptr m.

(** The bytes of [m] from [ptr] on, and their assignment. *)
Definition bytes_at (m : mem) (ptr len : Z) : list Z := m <$> seqZ ptr len.
Definition put_bytes (ptr : Z) (l : list Z) (m : mem) : mem :=
  fun a => if (ptr <=? a) && (a <? ptr + Z.of_nat (length l)) then rd l (a - ptr) else m a.
(** The string whose length [user_str_ok] has given. *)
Definition user_path (m : mem) (ptr : Z) : list Z := bytes_at m ptr (user_str_ok ptr m).

(** ** exec *)

(** The argument strings, one behind the other with their final 0, and where
    each starts; [None] is the result -1. *)
Fixpoint capture_loop (n : nat) (arg_argv argc : Z) (offs kbuf : list Z) (m : mem) : option (list Z * list Z) :=
  match n with
  | O => Some (offs, kbuf)
  | S n' =>
      let slot_va := u64 (arg_argv + argc * 8) in
      if negb (user_buf_ok slot_va 8) then None
      else
        let p := ld_le 8 slot_va m in
        if p =? 0 then Some (offs, kbuf)
        else
          let len := user_str_ok p m in
          if len <? 0 then None
          else if EXEC_ARG_BYTES_MAX <? Z.of_nat (length kbuf) + len + 1 then None
          else capture_loop n' arg_argv (argc + 1) (offs ++ [Z.of_nat (length kbuf)])
                            (kbuf ++ bytes_at m p (len + 1)) m
  end.
Definition capture_args (arg_argv : Z) (m : mem) : option (list Z * list Z) :=
  if negb (arg_argv =? 0) then capture_loop (Z.to_nat EXEC_MAX_ARGC) arg_argv 0 [] [] m else Some ([], []).

Fixpoint argv_loop (offs : list Z) (i argv_kernel strings_user_base : Z) (m : mem) : mem :=
  match offs with
  | [] => m
  | o :: offs' =>
      argv_loop offs' (i + 1) argv_kernel strings_user_base
                (st_le 8 (u64 (argv_kernel + 8 * i)) (u64 (strings_user_base + o)) m)
  end.
Definition stack_user_lo : Z := u64 (USER_STACK_TOP - Mmu.USER_STACK_PAGES * PAGE_SIZE).
(** The argument vector on the new stack, whose pages are at [stack_kbase];
    the result is the memory, argv and the stack pointer. *)
Definition build_args (stack_kbase : Z) (offs kbuf : list Z) (m : mem) : mem * Z * Z :=
  let argc := Z.of_nat (length offs) in
  let arg_bytes := Z.of_nat (length kbuf) in
  let strings_user_base := u64 (USER_STACK_TOP - arg_bytes) in
  let m := put_bytes (u64 (stack_kbase + u64 (strings_user_base - stack_user_lo))) kbuf m in
  let argv_user_top := strings_user_base .& unot 64 15 in
  let argv_user_base := u64 (argv_user_top - u64 ((argc + 1) * 8)) in
  let argv_kernel := u64 (stack_kbase + u64 (argv_user_base - stack_user_lo)) in
  let m := argv_loop offs 0 argv_kernel strings_user_base m in
  let m := st_le 8 (u64 (argv_kernel + 8 * argc)) 0 m in
  (m, argv_user_base, argv_user_base .& unot 64 15).

Fixpoint zero_regs (n : nat) (i : Z) (f : trap_frame) : trap_frame :=
  match n with O => f | S n' => zero_regs n' (i + 1) (set_reg i 0 f) end.

Section ops.
Context {E : Type} `{TaskEnv E} `{Layout} `{SysEnv E}.
Implicit Types (c : ctx E) (s : sched E) (e : E).

Definition with_env s (e : E) : sched E := set_env s e.

(** Steps 1 and 2: open, size and read the file into a heap buffer. *)
Definition exec_slurp (fds : Z) (path : list Z) e : option (Z * list Z) * E :=
  let '(fd, e) := te_fd_open fds path e in
  if fd <? 0 then (None, e)
  else
    let '(size, e) := sy_fd_seek fds fd 0 SEEK_END e in
    let '(_, e) := sy_fd_seek fds fd 0 SEEK_SET e in
    if (size <=? 0) || (EXEC_MAX_BYTES <? size) then (None, (sy_fd_close fds fd e).2)
    else
      let '(kbuf, e) := te_kmalloc size e in
      if kbuf =? 0 then (None, (sy_fd_close fds fd e).2)
      else
        let '(got, bytes, e) := sy_fd_read fds fd size e in
        let '(_, e) := sy_fd_close fds fd e in
        if negb (got =? size) then (None, te_kfree kbuf e)
        else (Some (kbuf, bytes), e).

(** Steps 3 to 5: the new stack, tables and image. *)
Definition exec_build (kbuf : Z) (bytes : list Z) e : option (Z * Z * elf_image) * E :=
  let '(stack, e) := te_alloc_pages Mmu.USER_STACK_PAGES e in
  if stack =? 0 then (None, te_kfree kbuf e)
  else
    let e := te_zero (PHYS_TO_VIRT stack) (Mmu.USER_STACK_PAGES * PAGE_SIZE) e in
    let '(new_l0, e) := te_create_tables e in
    if new_l0 =? 0 then (None, te_kfree kbuf (te_free_pages stack Mmu.USER_STACK_PAGES e))
    else
      let '(r, (img, e)) := Elf.elf_load kbuf bytes new_l0 zero_image e in
      if r <? 0 then
        (None, te_kfree kbuf (te_free_pages stack Mmu.USER_STACK_PAGES (te_free_tables new_l0 e)))
      else
        let e := te_kfree kbuf e in
        let e := te_map_user new_l0 stack_user_lo stack Mmu.USER_STACK_PAGES STACK_FLAGS e in
        (Some (stack, new_l0, img), e).

(** Step 8: the old stack, the regions of the old image and its tables. *)
Definition exec_free_old (tk : task) e : E :=
  let e := if negb (ustack_phys tk =? 0) then te_free_pages (ustack_phys tk) Mmu.USER_STACK_PAGES e else e in
  let e := free_image (take (Z.to_nat (region_count (exec_image tk))) (Task.regions (exec_image tk))) e in
  if negb (ttbr0 tk =? 0) then te_free_tables (Mmu.ttbr_baddr (ttbr0 tk)) e else e.

(** Steps 6 and 7: the task, the frame and the argument vector. *)
Definition exec_frame (img : elf_image) (f : trap_frame) : trap_frame :=
  set_spsr 0 (set_elr (entry img) (zero_regs 31 0 f)).
Definition exec_args (stack : Z) (img : elf_image) (offs kbuf : list Z) (f : trap_frame) e : E * trap_frame :=
  let f := exec_frame img f in
  let argc := Z.of_nat (length offs) in
  if 0 <? argc then
    let '(m, argv_user_base, new_sp) := build_args (PHYS_TO_VIRT stack) offs kbuf (sy_mem e) in
    let f := set_reg 2 0 (set_reg 1 argv_user_base (set_reg 0 (u64 argc) f)) in
    (sy_set_mem m e, tf_set_sp new_sp f)
  else (e, tf_set_sp USER_STACK_TOP f).
Definition exec_install (stack new_l0 : Z) (img : elf_image) (offs kbuf : list Z) c : ctx E :=
  let cur := current (kern c) in
  let old := task_of c cur in
  let '(new_asid, s) := sched_asid_alloc (kern c) in
  let s := put s cur (set_ttbr0 (Mmu.ttbr_pack new_l0 new_asid)) in
  let s := put s cur (set_ustack_phys stack) in
  let s := put s cur (set_user_sp USER_STACK_TOP) in
  let s := put s cur (set_exec_image img) in
  let '(e, f) := exec_args stack img offs kbuf (frame c) (env s) in
  let e := exec_free_old old e in
  MkCtx (with_env s e) f (sy_view new_l0 e).

Definition sys_exec (arg_path arg_argv : Z) c : Z * ctx E :=
  if user_str_ok arg_path (um c) <? 0 then (-1, c)
  else
    let cur := current (kern c) in
    let t := fds (task_of c cur) in
    if t =? 0 then (-1, c)
    else
      match capture_args arg_argv (um c) with
      | None => (-1, c)
      | Some (offs, kargs) =>
          let '(r, e) := exec_slurp t (user_path (um c) arg_path) (env (kern c)) in
          let c := with_kern c (with_env (kern c) e) in
          match r with
          | None => (-1, c)
          | Some (kbuf, bytes) =>
              let '(r, e) := exec_build kbuf bytes (env (kern c)) in
              let c := with_kern c (with_env (kern c) e) in
              match r with
              | None => (-1, c)
              | Some (stack, new_l0, img) => (0, exec_install stack new_l0 img offs kargs c)
              end
          end
      end.

(** ** SYS_NET_PING *)

(** The reply in [buf], [n] bytes long, to our request: its TTL. *)
Definition ping_reply (seq n : Z) (buf : list Z) : option Z :=
  if n <? 14 + 20 + 8 then None
  else if negb (rd buf 12 =? 0x08) || negb (rd buf 13 =? 0x00) then None
  else if negb (rd buf (14 + 9) =? 1) || negb (rd buf 34 =? 0) then None
  else if negb ((rd buf 40 <<< 8) .| rd buf 41 =? seq) then None
  else Some (rd buf (14 + 8)).
Fixpoint ping_loop (spins : nat) (seq : Z) e : Z * E :=
  match spins with
  | O => (-1, e)
  | S k =>
      let '(n, buf, e) := sy_rx_poll e in
      match ping_reply seq n buf with Some ttl => (ttl, e) | None => ping_loop k seq e end
  end.
Definition PING_SPINS : Z := 2000000.
Definition sys_net_ping (arg0 : Z) e : Z * E :=
  let seq := u16 arg0 in
  let '(sent, e) := sy_send_ping seq e in
  if sent <=? 0 then (-1, e) else ping_loop (Z.to_nat PING_SPINS) seq e.

(** ** SYS_KILL, SYS_BALLOON and SYS_RT *)
Definition sys_kill (arg0 arg1 : Z) s : outcome * sched E :=
  let signum := s32 arg1 in
  if signum =? SIGKILL then
    let '(r, s') := sched_kill_task arg0 s in
    (* the caller's own pid: [task_exit] does not return *)
    if (r =? 0) && (pid (get s (current s)) =? arg0) then (Exited, s') else (Ret r, s')
  else
    let tgt := sched_find_task arg0 s in
    if (tgt =? 0) || is_state TASK_DEAD (get s tgt) then (Ret (-1), s)
    else if signum =? 0 then (Ret 0, s)
    else if (SIG_MIN <=? signum) && (signum <=? SIG_MAX)
         then (Ret 0, put s tgt (fun tk => set_sig_pending (sig_pending tk .| (1 <<< signum)) tk))
    else (Ret (-1), s).

Definition sys_balloon (arg0 arg1 : Z) e : Z * E :=
  if arg0 =? 0 then sy_balloon_inflate (u32 arg1) e
  else if arg0 =? 1 then sy_balloon_deflate (u32 arg1) e
  else if arg0 =? 2 then ((sy_balloon_status e).1, e)
  else if arg0 =? 3 then ((sy_balloon_status e).2, e)
  else (-1, e).

Definition sys_rt (arg0 : Z) s : Z * sched E :=
  if arg0 =? 0 then (0, sy_rt_demo s)
  else if arg0 =? 1 then (0, s)
  else if arg0 =? 2 then (0, sy_rt_pi_demo s)
  else (-1, s).

(** SYS_BLKTEST: integrity (0), irq, fault or benchmark *)
Definition blk_suite (arg0 : Z) : Z :=
  if arg0 =? 1 then 1 else if arg0 =? 2 then 2 else if arg0 =? 3 then 3 else 0.

(** ** The dispatcher *)

(** [frame->regs[0] = (uint64_t)ret] *)
Definition finish (ret : Z) c : outcome * ctx E :=
  (Ret 0, MkCtx (kern c) (set_reg 0 (u64 ret) (frame c)) (um c)).
Definition on_env c (r : Z * E) : outcome * ctx E := finish r.1 (with_kern c (with_env (kern c) r.2)).

(** [frame_addr] is where the frame lies on the kernel stack. *)
Definition syscall_dispatch (frame_addr : Z) c : outcome * ctx E :=
  let rs := regs (frame c) in
  let num := rd rs 8 in
  let arg0 := rd rs 0 in
  let arg1 := rd rs 1 in
  let arg2 := rd rs 2 in
  let s := kern c in
  let e := env s in
  let cur := current s in
  let t := fds (task_of c cur) in
  if num =? SYS_READ then
    if negb (t =? 0) && user_buf_ok arg1 arg2 then
      let '(r, bytes, e) := sy_fd_read t (s32 arg0) arg2 e in
      finish r (MkCtx (with_env s e) (frame c) (put_bytes arg1 bytes (um c)))
    else finish (-1) c
  else if num =? SYS_WRITE then
    if negb (t =? 0) && user_buf_ok arg1 arg2
    then on_env c (sy_fd_write t (s32 arg0) (bytes_at (um c) arg1 arg2) e) else finish (-1) c
  else if num =? SYS_OPEN then
    if negb (t =? 0) && (0 <=? user_str_ok arg0 (um c))
    then on_env c (te_fd_open t (user_path (um c) arg0) e) else finish (-1) c
  else if num =? SYS_CLOSE then
    if negb (t =? 0) then on_env c (sy_fd_close t (s32 arg0) e) else finish (-1) c
  else if num =? SYS_EXIT then (Exited, with_kern c (task_exit s))
  else if num =? SYS_YIELD then finish 0 (with_kern c (schedule s))
  else if num =? SYS_SLEEP then finish 0 (with_kern c (sleep_ms arg0 s))
  else if num =? SYS_GETPID then finish (pid (task_of c cur)) c
  else if num =? SYS_LSEEK then
    if negb (t =? 0) then on_env c (sy_fd_seek t (s32 arg0) (s64 arg1) (s32 arg2) e) else finish (-1) c
  else if num =? SYS_UPTIME then finish (sy_uptime_ms e) c
  else if num =? SYS_NET_PING then on_env c (sys_net_ping arg0 e)
  else if num =? SYS_KILL then
    match sys_kill arg0 arg1 s with
    | (Ret r, s) => finish r (with_kern c s)
    | (Exited, s) => (Exited, with_kern c s)
    end
  else if num =? SYS_FORK then
    let '(r, s) := sched_fork cur frame_addr s in finish r (with_kern c s)
  else if num =? SYS_BALLOON then on_env c (sys_balloon arg0 arg1 e)
  else if num =? SYS_EXEC then
    let '(r, c) := sys_exec arg0 arg1 c in if 0 <=? r then (Ret 0, c) else finish (-1) c
  else if num =? SYS_BENCH then finish 0 (with_kern c (sy_bench s))
  else if num =? SYS_BLKTEST then finish 0 (with_kern c (sy_blktest (blk_suite arg0) s))
  else if num =? SYS_SIGACTION then let '(r, c) := signal_sigaction cur (s32 arg0) arg1 c in finish r c
  else if num =? SYS_SIGRETURN then signal_sigreturn c
  else if num =? SYS_SIGPROCMASK then
    let '(r, c) := signal_sigprocmask cur (s32 arg0) arg1 arg2 c in finish r c
  else if num =? SYS_ALARM then let '(r, s) := signal_alarm cur arg0 s in finish r (with_kern c s)
  else if num =? SYS_IOCTL then
    if negb (t =? 0) then
      let '(r, m, e) := sy_fd_ioctl t (s32 arg0) arg1 arg2 (um c) e in
      finish r (MkCtx (with_env s e) (frame c) m)
    else finish (-1) c
  else if num =? SYS_RT then let '(r, s) := sys_rt arg0 s in finish r (with_kern c s)
  else finish (-1) c.
End ops.

(** ** Confinement to the user's half *)
Definition in_user (a : Z) : Prop := 0 <= a < USER_STACK_TOP.
Definition agree (m1 m2 : mem) : Prop := forall a, in_user a -> m1 a = m2 a.
#[global] Instance agree_equivalence : Equivalence agree.
Proof.
  split.
  - intros m a _. done.
  - intros m1 m2 H12 a Ha. symmetry. by apply H12.
  - intros m1 m2 m3 H12 H23 a Ha. rewrite H12 by done. by apply H23.
Qed.

(** What the drivers promise about the memory they are given: a read stores at
    most the count it was asked for, and an ioctl handler looks at and changes
    nothing but user memory. *)
Class SysConfined (E : Type) `{SysEnv E} := {
  sy_read_count t fd n e r bytes e' :
    0 <= n -> sy_fd_read t fd n e = (r, bytes, e') -> Z.of_nat (length bytes) <= n;
  sy_ioctl_user t fd cmd arg m1 m2 e r1 n1 e1 r2 n2 e2 :
    agree m1 m2 -> sy_fd_ioctl t fd cmd arg m1 e = (r1, n1, e1) -> sy_fd_ioctl t fd cmd arg m2 e = (r2, n2, e2) ->
    r1 = r2 /\ e1 = e2 /\ agree n1 n2;
  sy_ioctl_outside t fd cmd arg m e r n e' a :
    sy_fd_ioctl t fd cmd arg m e = (r, n, e') -> ~ in_user a -> n a = m a
}.

Lemma u64_add_le x y : is_u 64 x -> is_u 64 y -> x <= u64 (x + y) -> u64 (x + y) = x + y.
Proof.
  unfold is_u. intros Hx Hy Hle. apply u64_small. split; [lia|].
  destruct (decide (x + y < 2 ^ 64)) as [|Hge]; [done|].
  assert (u64 (x + y) = x + y - 2 ^ 64); [|lia].
  unfold u64, wrap. symmetry. apply (Z.mod_unique _ _ 1); lia.
Qed.
(** An accepted buffer is empty or inside the user's half. *)
Lemma buf_ok_range ptr len :
  is_u 64 ptr -> is_u 64 len -> user_buf_ok ptr len = true -> len = 0 \/ ptr + len <= USER_STACK_TOP.
Proof.
  intros Hp Hl. unfold user_buf_ok. destruct (Z.eqb_spec len 0) as [->|]; [by left|].
  destruct (Z.ltb_spec (u64 (ptr + len)) ptr) as [|Hle]; [done|].
  rewrite (u64_add_le ptr len Hp Hl Hle). destruct (Z.ltb_spec USER_STACK_TOP (ptr + len)); [done|]. by right.
Qed.

Lemma str_loop_agree n i ptr m1 m2 :
  agree m1 m2 -> 0 <= ptr + i -> ptr + i + Z.of_nat n <= USER_STACK_TOP -> str_loop n i ptr m1 = str_loop n i ptr m2.
Proof.
  intros Hm. revert i. induction n as [|n IH]; intros i Hi Hn; cbn [str_loop]; [done|].
  rewrite (Hm (ptr + i)) by (unfold in_user; lia). case_if; [done|]. apply IH; lia.
Qed.
Lemma str_loop_range n i ptr m : str_loop n i ptr m = -1 \/ i <= str_loop n i ptr m < i + Z.of_nat n.
Proof.
  revert i. induction n as [|n IH]; intros i; cbn [str_loop]; [by left|]. case_if; [right; lia|].
  destruct (IH (i + 1)) as [->|?]; [by left|right; lia].
Qed.
Lemma user_str_agree ptr m1 m2 : agree m1 m2 -> 0 <= ptr -> user_str_ok ptr m1 = user_str_ok ptr m2.
Proof.
  intros Hm Hp. unfold user_str_ok. destruct (Z.leb_spec USER_STACK_TOP ptr); [done|]. cbn zeta.
  apply str_loop_agree; [done|lia|]. case_if; lia.
Qed.
(** The terminator of an accepted string is inside the user's half. *)
Lemma user_str_range ptr m : user_str_ok ptr m = -1 \/ (0 <= user_str_ok ptr m /\ ptr + user_str_ok ptr m < USER_STACK_TOP).
Proof.
  unfold user_str_ok. destruct (Z.leb_spec USER_STACK_TOP ptr); [by left|]. cbn zeta.
  match goal with |- context [str_loop ?n 0 ptr m] => destruct (str_loop_range n 0 ptr m) as [->|Hr] end; [by left|right].
  revert Hr. case_if; lia.
Qed.
Lemma bytes_at_agree ptr len m1 m2 :
  agree m1 m2 -> 0 <= ptr -> len <= 0 \/ ptr + len <= USER_STACK_TOP -> bytes_at m1 ptr len = bytes_at m2 ptr len.
Proof.
  intros Hm Hp Hl. apply list_fmap_ext. intros i x Hx. apply lookup_seqZ in Hx as [-> Hi]. apply Hm. unfold in_user. lia.
Qed.
Lemma user_path_agree ptr m1 m2 : agree m1 m2 -> 0 <= ptr -> user_path m1 ptr = user_path m2 ptr.
Proof.
  intros Hm Hp. unfold user_path. rewrite <- (user_str_agree ptr m1 m2) by done. apply bytes_at_agree; [done|done|].
  destruct (user_str_range ptr m1) as [->|?]; [left; lia|right; lia].
Qed.
Lemma ld_agree n a m1 m2 :
  agree m1 m2 -> 0 <= a -> a + Z.of_nat n <= USER_STACK_TOP -> ld_le n a m1 = ld_le n a m2.
Proof. intros Hm Ha Hn. apply ld_le_ext. intros x Hx. apply Hm. unfold in_user. lia. Qed.
Lemma put_bytes_agree ptr l m1 m2 : agree m1 m2 -> agree (put_bytes ptr l m1) (put_bytes ptr l m2).
Proof. intros Hm a Ha. unfold put_bytes. case_if; [done|by apply Hm]. Qed.
Lemma put_bytes_outside ptr l m a :
  0 <= ptr -> l = [] \/ ptr + Z.of_nat (length l) <= USER_STACK_TOP -> ~ in_user a -> put_bytes ptr l m a = m a.
Proof.
  intros Hp Hl Ha. unfold put_bytes, in_user in *. case_if; [|done]. destruct Hl as [->|Hl]; cbn [length] in *; lia.
Qed.

Lemma capture_agree n a argc offs kbuf m1 m2 :
  agree m1 m2 -> (forall x, is_byte (m1 x)) ->
  capture_loop n a argc offs kbuf m1 = capture_loop n a argc offs kbuf m2.
Proof.
  intros Hm Hb. revert argc offs kbuf. induction n as [|n IH]; intros argc offs kbuf; cbn [capture_loop]; [done|].
  destruct (user_buf_ok (u64 (a + argc * 8)) 8) eqn:Eb; cbn [negb]; [|done].
  pose proof (u64_range (a + argc * 8)) as Hu.
  destruct (buf_ok_range _ 8 Hu ltac:(unfold is_u; lia) Eb) as [?|Hr]; [lia|].
  rewrite <- (ld_agree 8 _ m1 m2 Hm) by lia. case_if; [done|]. cbn zeta.
  pose proof (ld_le_range 8 (u64 (a + argc * 8)) m1 ltac:(intros; apply Hb)) as Hp.
  rewrite <- (user_str_agree _ m1 m2) by (done || lia). case_if; [done|]. case_if; [done|].
  rewrite <- (bytes_at_agree _ _ m1 m2); [apply IH|done|lia|].
  destruct (user_str_range (ld_le 8 (u64 (a + argc * 8)) m1) m1); [lia|right; lia].
Qed.

(** ** Noninterference *)
Section confined.
Context {E : Type} `{TaskEnv E} `{Layout} `{SysEnv E} `{!SysConfined E}.
Implicit Types (c : ctx E) (s : sched E).

(** The same call seen by two memories that differ outside the user's half. *)
Definition sim c1 c2 : Prop := kern c1 = kern c2 /\ frame c1 = frame c2 /\ agree (um c1) (um c2).
Definition sim_res (x1 x2 : outcome * ctx E) : Prop := x1.1 = x2.1 /\ sim x1.2 x2.2.

Lemma sim_finish r1 r2 c1 c2 : r1 = r2 -> sim c1 c2 -> sim_res (finish r1 c1) (finish r2 c2).
Proof. intros -> (Hk & Hf & Hm). split; [done|]. split; [done|]. split; [cbn; by rewrite Hf|done]. Qed.
Lemma sim_kern c1 c2 s : sim c1 c2 -> sim (with_kern c1 s) (with_kern c2 s).
Proof. intros (_ & Hf & Hm). by split. Qed.
Lemma sim_on_env c1 c2 r : sim c1 c2 -> sim_res (on_env c1 r) (on_env c2 r).
Proof. intros Hs. unfold on_env. apply sim_finish; [done|]. destruct Hs as (-> & Hf & Hm). by split. Qed.

Lemma sim_sigreturn c1 c2 :
  sim c1 c2 -> is_u 64 (tf_sp (frame c1)) -> sim_res (signal_sigreturn c1) (signal_sigreturn c2).
Proof.
  destruct c1 as [s f m1], c2 as [s2 f2 m2]. intros (Hk & Hf & Hm) Hsp. cbn in *. subst s2 f2.
  unfold signal_sigreturn. cbn [frame um kern]. unfold is_u in Hsp.
  destruct ((USER_STACK_TOP <=? tf_sp f) || (USER_STACK_TOP <? u64 (tf_sp f + SIZEOF_SIGFRAME))) eqn:Eg.
  { split; [done|]. by split. }
  apply orb_false_iff in Eg as [E1 E2].
  assert (USER_STACK_TOP < 2 ^ 47) by done. unfold SIZEOF_SIGFRAME in *.
  rewrite u64_small in E2 by lia.
  assert (forall o, 0 <= o <= 272 -> ld_le 8 (u64 (tf_sp f + o)) m1 = ld_le 8 (u64 (tf_sp f + o)) m2) as Hld.
  { intros o Ho. rewrite u64_small by lia. apply ld_agree; [done|lia|lia]. }
  assert (forall n i g, 0 <= i -> i + Z.of_nat n <= 31 ->
    load_regs n i (tf_sp f) m1 g = load_regs n i (tf_sp f) m2 g) as Hlr.
  { induction n as [|n IH]; intros i g Hi Hn; cbn [load_regs]; [done|]. rewrite Hld by lia. apply IH; lia. }
  split; [done|]. split; [done|]. split; [|done]. cbn [frame fst snd].
  unfold OFF_ELR, OFF_SPSR, OFF_SP. rewrite !Hld, Hlr by lia. done.
Qed.

Lemma u32_ptr_range p : is_u 64 p -> u32_ptr_ok p = true -> 0 <= p /\ p + 4 <= USER_STACK_TOP.
Proof.
  intros Hp. unfold u32_ptr_ok. case_if; [done|]. case_if; [done|]. intros _.
  rewrite (u64_add_le p 4) in * by (done || unfold is_u in *; lia). unfold is_u in Hp. lia.
Qed.
Lemma st_agree n a v m1 m2 : agree m1 m2 -> agree (st_le n a v m1) (st_le n a v m2).
Proof.
  revert a v m1 m2. induction n as [|n IH]; intros a v m1 m2 Hm; [done|].
  change (agree (st_le n (a + 1) (v / 256) (st8 m1 a (v mod 256))) (st_le n (a + 1) (v / 256) (st8 m2 a (v mod 256)))).
  apply IH. intros x Hx. unfold st8. case_if; [done|by apply Hm].
Qed.
Lemma sim_sigprocmask t how p q c1 c2 r1 d1 r2 d2 :
  sim c1 c2 -> is_u 64 p -> is_u 64 q ->
  signal_sigprocmask t how p q c1 = (r1, d1) -> signal_sigprocmask t how p q c2 = (r2, d2) -> r1 = r2 /\ sim d1 d2.
Proof.
  destruct c1 as [s f m1], c2 as [s2 f2 m2]. intros (Hk & Hf & Hm) Hp Hq. cbn in Hk, Hf, Hm. subst s2 f2.
  assert (forall old c1 c2 r1 d1 r2 d2, sim c1 c2 -> return_mask q old c1 = (r1, d1) -> return_mask q old c2 = (r2, d2) ->
    r1 = r2 /\ sim d1 d2) as Hret.
  { intros old c1 c2 r1' d1' r2' d2' Hs. unfold return_mask. pose proof Hs as (Hs1 & Hs2 & Hs3). destruct (q =? 0); cbn [negb].
    - intros [= <- <-] [= <- <-]. done.
    - destruct (u32_ptr_ok q); cbn [negb]; intros [= <- <-] [= <- <-]; [|done].
      split; [done|]. split; [done|]. split; [done|]. by apply st_agree. }
  unfold signal_sigprocmask. cbn [um]. change (task_of (MkCtx s f m2) t) with (task_of (MkCtx s f m1) t).
  destruct (p =? 0); cbn [negb].
  { intros H1' H2'. eapply Hret; [|exact H1'|exact H2']. by split. }
  destruct (u32_ptr_ok p) eqn:Ep; cbn [negb]; [|intros [= <- <-] [= <- <-]; done].
  destruct (u32_ptr_range p Hp Ep) as [? ?]. rewrite <- (ld_agree 4 p m1 m2) by (done || lia).
  destruct (new_mask _ _ _); [|intros [= <- <-] [= <- <-]; done]. intros H1' H2'. eapply Hret; [|exact H1'|exact H2'].
  by split.
Qed.

Lemma sim_sys_exec p a c1 c2 r1 d1 r2 d2 :
  sim c1 c2 -> 0 <= p -> (forall x, is_byte (um c1 x)) ->
  sys_exec p a c1 = (r1, d1) -> sys_exec p a c2 = (r2, d2) -> r1 = r2 /\ sim d1 d2.
Proof.
  destruct c1 as [s f m1], c2 as [s2 f2 m2]. intros (Hk & Hf & Hm) Hp Hb. cbn in Hk, Hf, Hm, Hb. subst s2 f2.
  unfold sys_exec. cbn [um kern frame]. change (task_of (MkCtx s f m2)) with (task_of (MkCtx s f m1)).
  rewrite <- (user_str_agree p m1 m2), <- (user_path_agree p m1 m2) by done.
  assert (capture_args a m2 = capture_args a m1) as ->.
  { unfold capture_args. case_if; [|done]. symmetry. by apply capture_agree. }
  case_if; [intros [= <- <-] [= <- <-]; by split|]. case_if; [intros [= <- <-] [= <- <-]; by split|].
  destruct (capture_args a m1) as [[offs kargs]|]; [|intros [= <- <-] [= <- <-]; by split].
  destruct (exec_slurp _ _ _) as [[[kbuf bytes]|] e1]; cbn [with_kern kern frame um];
    [|intros [= <- <-] [= <- <-]; by split].
  destruct (exec_build _ _ _) as [[[[stack l0] img]|] e2]; cbn [with_kern kern frame um];
    [|intros [= <- <-] [= <- <-]; by split].
  intros [<- <-]%pair_equal_spec [<- <-]%pair_equal_spec. split; [done|].
  change (exec_install stack l0 img offs kargs (MkCtx (with_env (with_env s e1) e2) f m2))
    with (exec_install stack l0 img offs kargs (MkCtx (with_env (with_env s e1) e2) f m1)). by split.
Qed.

Lemma sim_sigaction t n h c1 c2 r1 d1 r2 d2 :
  sim c1 c2 -> signal_sigaction t n h c1 = (r1, d1) -> signal_sigaction t n h c2 = (r2, d2) -> r1 = r2 /\ sim d1 d2.
Proof.
  intros (Hk & Hf & Hm). unfold signal_sigaction. case_if; intros [= <- <-] [= <- <-]; [by split|].
  split; [done|]. split; [|by split]. unfold put_task. cbn [kern with_kern]. by rewrite Hk.
Qed.

(** What a call leaves alone: the memory outside the user's half. *)
Definition outside_kept c c' : Prop := forall a, ~ in_user a -> um c' a = um c a.

Lemma reg_u64 f i : frame_ok f -> is_u 64 (rd (regs f) i).
Proof.
  intros (_ & HF & _). unfold rd. rewrite nth_lookup. destruct (regs f !! Z.to_nat i) as [x|] eqn:Ex; cbn [default].
  - by eapply (Forall_lookup_1 (is_u 64)).
  - done.
Qed.

Lemma dispatch_sim fa c1 c2 :
  sim c1 c2 -> frame_ok (frame c1) -> (forall x, is_byte (um c1 x)) ->
  sim_res (syscall_dispatch fa c1) (syscall_dispatch fa c2).
Proof.
  intros Hs Hf Hb. pose proof Hs as (Hk & Hfr & Hm). unfold syscall_dispatch, task_of. rewrite <- Hk, <- Hfr. cbn zeta.
  pose proof (fun i => reg_u64 (frame c1) i Hf) as Hr.
  set (rs := regs (frame c1)) in *. set (t := fds (get (kern c1) (current (kern c1)))).
  assert (forall i, 0 <= rd rs i) as H0' by (intros i; apply Hr).
  case_if. (* read *)
  { destruct (negb (t =? 0) && user_buf_ok (rd rs 1) (rd rs 2)); [|by apply sim_finish].
    destruct (sy_fd_read _ _ _ _) as [[r bytes] e]. apply sim_finish; [done|]. split; [done|]. split; [done|].
    by apply put_bytes_agree. }
  case_if. (* write *)
  { destruct (negb (t =? 0) && user_buf_ok (rd rs 1) (rd rs 2)) eqn:Eg; [|by apply sim_finish].
    apply andb_true_iff in Eg as [_ Eg]. apply buf_ok_range in Eg; [|apply Hr|apply Hr].
    rewrite (bytes_at_agree _ _ (um c1) (um c2)); [by apply sim_on_env|done|done|lia]. }
  case_if. (* open *)
  { rewrite <- (user_str_agree _ _ _ Hm (H0' 0)), <- (user_path_agree _ _ _ Hm (H0' 0)).
    case_if; [by apply sim_on_env|by apply sim_finish]. }
  case_if; [case_if; [by apply sim_on_env|by apply sim_finish]|].
  case_if; [split; [done|by apply sim_kern]|].
  case_if; [by apply sim_finish, sim_kern|].
  case_if; [by apply sim_finish, sim_kern|].
  case_if; [by apply sim_finish|].
  case_if; [case_if; [by apply sim_on_env|by apply sim_finish]|].
  case_if; [by apply sim_finish|].
  case_if; [by apply sim_on_env|].
  case_if. (* kill *)
  { destruct (sys_kill _ _ _) as [[r|] s]; [by apply sim_finish, sim_kern|split; [done|by apply sim_kern]]. }
  case_if; [destruct (sched_fork _ _ _); by apply sim_finish, sim_kern|].
  case_if; [by apply sim_on_env|].
  case_if. (* exec *)
  { destruct (sys_exec _ _ c1) as [r1 d1] eqn:Ex1, (sys_exec _ _ c2) as [r2 d2] eqn:Ex2.
    destruct (sim_sys_exec _ _ _ _ _ _ _ _ Hs (H0' 0) Hb Ex1 Ex2) as [-> Hd]. case_if; [by split|by apply sim_finish]. }
  case_if; [by apply sim_finish, sim_kern|].
  case_if; [by apply sim_finish, sim_kern|].
  case_if. (* sigaction *)
  { destruct (signal_sigaction _ _ _ c1) as [r1 d1] eqn:Ex1, (signal_sigaction _ _ _ c2) as [r2 d2] eqn:Ex2.
    destruct (sim_sigaction _ _ _ _ _ _ _ _ _ Hs Ex1 Ex2) as [-> Hd]. by apply sim_finish. }
  case_if; [apply sim_sigreturn; [done|by destruct Hf as (_ & _ & _ & _ & ?)]|].
  case_if. (* sigprocmask *)
  { destruct (signal_sigprocmask _ _ _ _ c1) as [r1 d1] eqn:Ex1, (signal_sigprocmask _ _ _ _ c2) as [r2 d2] eqn:Ex2.
    destruct (sim_sigprocmask _ _ _ _ _ _ _ _ _ _ Hs (Hr 1) (Hr 2) Ex1 Ex2) as [-> Hd]. by apply sim_finish. }
  case_if; [destruct (signal_alarm _ _ _); by apply sim_finish, sim_kern|].
  case_if. (* ioctl *)
  { case_if; [|by apply sim_finish].
    destruct (sy_fd_ioctl _ _ _ _ (um c1) _) as [[r1 n1] e1] eqn:Ex1, (sy_fd_ioctl _ _ _ _ (um c2) _) as [[r2 n2] e2] eqn:Ex2.
    destruct (sy_ioctl_user _ _ _ _ _ _ _ _ _ _ _ _ _ Hm Ex1 Ex2) as (-> & -> & Hn). apply sim_finish; [done|]. by split. }
  case_if; [destruct (sys_rt _ _); by apply sim_finish, sim_kern|]. by apply sim_finish.
Qed.

Lemma sigprocmask_outside t how p q c r c' :
  is_u 64 q -> signal_sigprocmask t how p q c = (r, c') -> outside_kept c c'.
Proof.
  intros Hq. assert (forall old d r' d', return_mask q old d = (r', d') -> outside_kept d d') as Hret.
  { intros old d r' d'. unfold return_mask. destruct (q =? 0); cbn [negb]; [by intros [= <- <-]|].
    destruct (u32_ptr_ok q) eqn:Eq; cbn [negb]; intros [= <- <-]; [|done]. intros a Ha.
    destruct (u32_ptr_range q Hq Eq). apply st_le_other. unfold in_user in Ha. lia. }
  unfold signal_sigprocmask. case_if; [|by apply Hret]. case_if; [by intros [= <- <-]|].
  destruct (new_mask _ _ _); [|by intros [= <- <-]]. intros Hx%Hret. exact Hx.
Qed.

Lemma dispatch_outside fa c :
  frame_ok (frame c) -> rd (regs (frame c)) 8 <> SYS_EXEC -> outside_kept c (syscall_dispatch fa c).2.
Proof.
  intros Hf Hx. unfold syscall_dispatch. cbn zeta. pose proof (fun i => reg_u64 (frame c) i Hf) as Hr.
  set (rs := regs (frame c)) in *. set (t := fds _).
  case_if. (* read *)
  { destruct (negb (t =? 0) && user_buf_ok (rd rs 1) (rd rs 2)) eqn:Eg; [|done].
    apply andb_true_iff in Eg as [_ Eg]. apply buf_ok_range in Eg; [|apply Hr|apply Hr].
    destruct (sy_fd_read _ _ _ _) as [[r bytes] e] eqn:Er. intros a Ha.
    apply sy_read_count in Er; [|apply Hr]. apply put_bytes_outside; [apply Hr| |done].
    destruct Eg as [Hz|Hle]; [left; destruct bytes; [done|cbn [length] in Er; lia]|right; lia]. }
  do 10 (case_if; [try (case_if; done); done|]).
  case_if; [by destruct (sys_kill _ _ _) as [[r|] s]|].
  case_if; [by destruct (sched_fork _ _ _)|].
  case_if; [done|].
  destruct (Z.eqb_spec (rd rs 8) SYS_EXEC); [done|].
  do 2 (case_if; [done|]).
  case_if; [unfold signal_sigaction; by case_if|].
  case_if; [unfold signal_sigreturn; by case_if|].
  case_if. (* sigprocmask *)
  { destruct (signal_sigprocmask _ _ _ _ c) as [r c'] eqn:Ex1. apply sigprocmask_outside in Ex1; [done|apply Hr]. }
  case_if; [by destruct (signal_alarm _ _ _)|].
  case_if. (* ioctl *)
  { case_if; [|done]. destruct (sy_fd_ioctl _ _ _ _ _ _) as [[r m'] e] eqn:Ei. intros a Ha. by eapply sy_ioctl_outside. }
  case_if; [by destruct (sys_rt _ _)|done].
Qed.

End confined.

(** ** The argument vector *)

(** The strings behind each other, and where each begins. *)
Definition blob (args : list (list Z)) : list Z := concat ((fun a => a ++ [0]) <$> args).
Fixpoint starts (base : Z) (args : list (list Z)) : list Z :=
  match args with [] => [] | a :: args' => base :: starts (base + Z.of_nat (length a) + 1) args' end.

Lemma blob_app a b : blob (a ++ b) = blob a ++ blob b.
Proof. unfold blob. by rewrite fmap_app, concat_app. Qed.
Lemma starts_app base a b : starts base (a ++ b) = starts base a ++ starts (base + Z.of_nat (length (blob a))) b.
Proof.
  revert base. induction a as [|x a IH]; intros base; cbn [app starts]; [f_equal; cbn; lia|].
  rewrite IH. cbn [app]. do 3 f_equal. unfold blob. rewrite fmap_cons. cbn [concat]. rewrite !length_app. cbn [length]. lia.
Qed.
Lemma length_starts base args : length (starts base args) = length args.
Proof. revert base. induction args as [|a args IH]; intros base; cbn [starts length]; [done|]. by rewrite IH. Qed.

(** The string at [p] as [user_str_ok] delimits it. *)
Lemma str_loop_stop n i ptr m :
  str_loop n i ptr m <> -1 ->
  m (ptr + str_loop n i ptr m) = 0 /\ forall k, i <= k < str_loop n i ptr m -> m (ptr + k) <> 0.
Proof.
  revert i. induction n as [|n IH]; intros i; cbn [str_loop]; [done|]. destruct (Z.eqb_spec (m (ptr + i)) 0) as [Hz|Hz].
  - intros _. split; [done|lia].
  - intros Hr. destruct (IH (i + 1) Hr) as [H1 H2]. split; [done|]. intros k Hk.
    destruct (decide (k = i)) as [->|]; [done|apply H2; lia].
Qed.
Lemma user_str_stop ptr m :
  user_str_ok ptr m <> -1 ->
  m (ptr + user_str_ok ptr m) = 0 /\ forall k, 0 <= k < user_str_ok ptr m -> m (ptr + k) <> 0.
Proof. unfold user_str_ok. case_if; [done|]. cbn zeta. apply str_loop_stop. Qed.

Lemma length_bytes_at m p n : 0 <= n -> Z.of_nat (length (bytes_at m p n)) = n.
Proof. intros. unfold bytes_at. rewrite length_fmap, length_seqZ. lia. Qed.
Lemma bytes_at_snoc m p n : 0 <= n -> bytes_at m p (n + 1) = bytes_at m p n ++ [m (p + n)].
Proof. intros. unfold bytes_at. rewrite seqZ_app by lia. by rewrite fmap_app. Qed.

(** [args] are the strings of the caller's vector at [a], from entry [i] on. *)
Definition arg_at (m : mem) (a i : Z) (s : list Z) : Prop :=
  let p := ld_le 8 (u64 (a + i * 8)) m in
  p <> 0 /\ s = bytes_at m p (Z.of_nat (length s)) /\ m (p + Z.of_nat (length s)) = 0 /\ 0 ∉ s.
Fixpoint args_at (m : mem) (a i : Z) (args : list (list Z)) : Prop :=
  match args with [] => True | s :: args' => arg_at m a i s /\ args_at m a (i + 1) args' end.
Lemma args_at_app m a i l1 l2 :
  args_at m a i (l1 ++ l2) <-> args_at m a i l1 /\ args_at m a (i + Z.of_nat (length l1)) l2.
Proof.
  revert i. induction l1 as [|s l1 IH]; intros i; cbn [app args_at length].
  - rewrite Z.add_0_r. tauto.
  - rewrite IH. replace (i + 1 + Z.of_nat (length l1)) with (i + Z.of_nat (S (length l1))) by lia. tauto.
Qed.

Lemma capture_loop_spec n a m args offs kbuf :
  args_at m a 0 args -> Z.of_nat (length (blob args)) <= EXEC_ARG_BYTES_MAX ->
  capture_loop n a (Z.of_nat (length args)) (starts 0 args) (blob args) m = Some (offs, kbuf) ->
  exists more, let all := args ++ more in
    args_at m a 0 all /\ offs = starts 0 all /\ kbuf = blob all /\
    Z.of_nat (length kbuf) <= EXEC_ARG_BYTES_MAX /\ (length more <= n)%nat /\
    (length more = n \/ ld_le 8 (u64 (a + Z.of_nat (length all) * 8)) m = 0).
Proof.
  revert args. induction n as [|n IH]; intros args Ha Hb; cbn [capture_loop].
  { intros [= <- <-]. exists []. rewrite app_nil_r. repeat split; try done. by left. }
  case_if; [done|]. cbn zeta.
  set (p := ld_le 8 (u64 (a + Z.of_nat (length args) * 8)) m). destruct (Z.eqb_spec p 0) as [Hp|Hp].
  { intros [= <- <-]. exists []. rewrite app_nil_r. cbn [length]. repeat split; try done; [lia|]. by right. }
  set (len := user_str_ok p m). destruct (Z.ltb_spec len 0) as [|Hlen]; [done|].
  destruct (Z.ltb_spec EXEC_ARG_BYTES_MAX (Z.of_nat (length (blob args)) + len + 1)) as [|Hfit]; [done|].
  assert (len <> -1) as Hne by lia. destruct (user_str_stop p m Hne) as [Hz Hnz]. fold len in Hz, Hnz.
  set (x := bytes_at m p len). assert (Z.of_nat (length x) = len) as Hx by (by apply length_bytes_at).
  assert (blob args ++ bytes_at m p (len + 1) = blob (args ++ [x])) as Hblob.
  { rewrite bytes_at_snoc, Hz, blob_app by done. unfold blob at 3. cbn. by rewrite app_nil_r. }
  intros Hc. destruct (IH (args ++ [x])) as (more & Hm).
  - apply args_at_app. split; [done|]. cbn [args_at]. split; [|done]. rewrite Z.add_0_l. unfold arg_at. fold p.
    rewrite Hx. split; [done|]. split; [done|]. split; [done|]. unfold x, bytes_at.
    intros (y & Hy & Hin%elem_of_seqZ)%list_elem_of_fmap. apply (Hnz (y - p)); [lia|].
    replace (p + (y - p)) with y by lia. done.
  - rewrite <- Hblob, length_app. pose proof (length_bytes_at m p (len + 1) ltac:(lia)). lia.
  - rewrite <- Hblob, length_app, starts_app, Z.add_0_l. cbn [length starts].
    replace (Z.of_nat (length args + 1)) with (Z.of_nat (length args) + 1) by lia. done.
  - exists (x :: more). cbn zeta in *. rewrite <- app_assoc in Hm. cbn [app] in Hm. cbn [length].
    destruct Hm as (? & ? & ? & ? & ? & Hend). repeat split; try done; [lia|]. destruct Hend; [left; lia|by right].
Qed.
Lemma capture_args_spec a m offs kbuf :
  capture_args a m = Some (offs, kbuf) ->
  exists args, offs = starts 0 args /\ kbuf = blob args /\ Z.of_nat (length kbuf) <= EXEC_ARG_BYTES_MAX /\
    (length args <= 32)%nat /\
    (a = 0 /\ args = [] \/
     a <> 0 /\ args_at m a 0 args /\ (length args = 32%nat \/ ld_le 8 (u64 (a + Z.of_nat (length args) * 8)) m = 0)).
Proof.
  unfold capture_args. destruct (Z.eqb_spec a 0) as [->|Ha]; cbn [negb].
  - intros [= <- <-]. exists []. unfold EXEC_ARG_BYTES_MAX. cbn. split; [done|]. split; [done|]. split; [lia|]. split; [lia|]. by left.
  - intros Hc. apply (capture_loop_spec (Z.to_nat EXEC_MAX_ARGC) a m []) in Hc as (args & H1 & H2 & H3 & H4 & H5 & H6);
      [|done|cbn; unfold EXEC_ARG_BYTES_MAX; lia].
    cbn [app] in *. exists args. change (Z.to_nat EXEC_MAX_ARGC) with 32%nat in *. repeat split; try done. by right.
Qed.

Lemma argv_loop_other offs i k b m x :
  0 <= k -> 0 <= i -> k + 8 * (i + Z.of_nat (length offs)) <= 2 ^ 64 ->
  x < k + 8 * i \/ k + 8 * (i + Z.of_nat (length offs)) <= x -> argv_loop offs i k b m x = m x.
Proof.
  revert i m. induction offs as [|o offs IH]; intros i m Hk Hi Hw Hx; cbn [argv_loop length] in *; [done|].
  rewrite IH by lia. rewrite u64_small by lia. apply st_le_other. lia.
Qed.
Lemma argv_loop_word offs i k b m j o :
  0 <= k -> 0 <= i -> k + 8 * (i + Z.of_nat (length offs)) <= 2 ^ 64 -> offs !! j = Some o -> 0 <= b + o < 2 ^ 64 ->
  ld_le 8 (k + 8 * (i + Z.of_nat j)) (argv_loop offs i k b m) = b + o.
Proof.
  revert i m j. induction offs as [|o' offs IH]; intros i m j Hk Hi Hw Hj Ho; [done|]. cbn [argv_loop length] in *.
  destruct j as [|j].
  - cbn in Hj. injection Hj as ->. rewrite Z.add_0_r.
    rewrite (ld_le_ext _ _ _ (st_le 8 (u64 (k + 8 * i)) (u64 (b + o)) m)).
    + rewrite u64_small by lia. rewrite ld_st_eq; rewrite u64_small; done || lia.
    + intros x Hx. apply argv_loop_other; lia.
  - replace (i + Z.of_nat (S j)) with (i + 1 + Z.of_nat j) by lia. apply IH; done || lia.
Qed.

Lemma starts_split base args i a :
  args !! i = Some a -> exists l1 l2, args = l1 ++ a :: l2 /\ length l1 = i /\
    starts base args !! i = Some (base + Z.of_nat (length (blob l1))).
Proof.
  intros Hi. exists (take i args), (drop (S i) args). pose proof (lookup_lt_Some _ _ _ Hi).
  assert (args = take i args ++ a :: drop (S i) args) as Hs by (by rewrite take_drop_middle).
  split; [done|]. split; [rewrite length_take; lia|]. rewrite Hs at 1. rewrite starts_app, lookup_app_r.
  - rewrite length_starts, length_take, Nat.min_l, Nat.sub_diag by lia. done.
  - rewrite length_starts, length_take. lia.
Qed.

(** What the new program sees of its stack, through the kernel's alias. *)
Definition stack_view (kbase : Z) (m : mem) : mem := fun va => m (kbase + (va - stack_user_lo)).

(** The vector at [A] in the memory [m]: the strings [args], and a final 0. *)
Definition vector (m : mem) (A : Z) (args : list (list Z)) : Prop :=
  let argc := Z.of_nat (length args) in
  ld_le 8 (A + 8 * argc) m = 0 /\
  forall i a, args !! i = Some a ->
    let p := ld_le 8 (A + 8 * Z.of_nat i) m in
    A + 8 * (argc + 1) <= p /\ p + Z.of_nat (length a) < USER_STACK_TOP /\
    bytes_at m p (Z.of_nat (length a) + 1) = a ++ [0].

Lemma build_args_spec kbase args m m' A sp :
  0 <= kbase -> kbase + 16384 < 2 ^ 64 -> (length args <= 32)%nat ->
  Z.of_nat (length (blob args)) <= EXEC_ARG_BYTES_MAX ->
  build_args kbase (starts 0 args) (blob args) m = (m', A, sp) ->
  sp mod 16 = 0 /\ stack_user_lo <= sp <= A /\ A + 8 * (Z.of_nat (length args) + 1) <= USER_STACK_TOP /\
  vector (stack_view kbase m') A args /\
  (forall x, x < kbase \/ kbase + 16384 <= x -> m' x = m x).
Proof.
  intros Hk0 Hk1 Hargs Hblob. unfold build_args, EXEC_ARG_BYTES_MAX in *. rewrite length_starts.
  set (n := Z.of_nat (length args)) in *. set (nb := Z.of_nat (length (blob args))) in *.
  assert (0 <= n <= 32) as Hn by lia. assert (0 <= nb) by lia.
  change stack_user_lo with (0x800000 - 16384). unfold USER_STACK_TOP, Mmu.USER_STACK_TOP in *.
  rewrite (u64_small (8388608 - nb)) by lia.
  remember (8388608 - nb) as B eqn:HB.
  change 15 with (2 ^ 4 - 1). rewrite (land_unot_ones 64 4) by lia.
  rewrite (u64_small ((n + 1) * 8)) by lia.
  assert (B - 15 <= B / 2 ^ 4 * 2 ^ 4 <= B) as HT by dlia.
  remember (B / 2 ^ 4 * 2 ^ 4) as T eqn:HTeq. clear HTeq.
  rewrite (u64_small (T - _)) by lia. remember (T - (n + 1) * 8) as A' eqn:HA.
  rewrite (land_unot_ones 64 4) by lia.
  assert (A' - 15 <= A' / 2 ^ 4 * 2 ^ 4 <= A') as HS by dlia.
  rewrite (u64_small (B - _)), (u64_small (A' - _)) by lia.
  rewrite (u64_small (kbase + (B - _))), (u64_small (kbase + (A' - _))) by lia.
  remember (8388608 - 16384) as lo eqn:Hlo. remember (kbase + (A' - lo)) as K eqn:HK.
  rewrite (u64_small (K + 8 * n)) by lia.
  set (m1 := put_bytes (kbase + (B - lo)) (blob args) m).
  set (m2 := argv_loop (starts 0 args) 0 K B m1).
  intros [= <- <- <-].
  assert (forall x, x < K \/ K + 8 * (n + 1) <= x -> st_le 8 (K + 8 * n) 0 m2 x = m1 x) as Hother.
  { intros x Hx. rewrite st_le_other by lia. apply argv_loop_other; rewrite ?length_starts; lia. }
  split; [dlia|]. split; [lia|]. split; [lia|]. split.
  - assert (forall a, ld_le 8 a (stack_view kbase (st_le 8 (K + 8 * n) 0 m2)) = ld_le 8 (a + (kbase - lo)) (st_le 8 (K + 8 * n) 0 m2)) as Hld.
    { intros a. rewrite ld_le_shift. apply ld_le_ext. intros x _. unfold stack_view. f_equal.
      change stack_user_lo with 8372224. lia. }
    unfold vector. fold n. cbn zeta. split.
    { rewrite Hld. replace (A' + 8 * n + (kbase - lo)) with (K + 8 * n) by (lia). by rewrite ld_st_eq. }
    intros i a Hi. destruct (starts_split 0 args i a Hi) as (l1 & l2 & Hsplit & Hlen & Hst). rewrite Z.add_0_l in Hst.
    remember (Z.of_nat (length (blob l1))) as o eqn:Ho.
    assert (blob args = blob l1 ++ (a ++ [0]) ++ blob l2) as Hbl by (rewrite Hsplit, blob_app; done).
    assert (o + Z.of_nat (length a) + 1 <= nb) as Hfit.
    { unfold nb. rewrite Hbl, !length_app. cbn [length]. lia. }
    pose proof (lookup_lt_Some _ _ _ Hi).
    assert (ld_le 8 (A' + 8 * Z.of_nat i) (stack_view kbase (st_le 8 (K + 8 * n) 0 m2)) = B + o) as Hptr.
    { rewrite Hld. replace (A' + 8 * Z.of_nat i + (kbase - lo)) with (K + 8 * (0 + Z.of_nat i)) by (lia).
      rewrite ld_st_ne by lia. apply argv_loop_word; rewrite ?length_starts; try done; lia. }
    rewrite Hptr. unfold Mmu.USER_STACK_TOP. split; [lia|]. split; [lia|].
    unfold bytes_at. apply list_eq_same_length with (length (a ++ [0]));
      [done|rewrite length_fmap, length_seqZ, length_app; cbn [length]; lia|].
    intros j x y Hj Hx Hy. rewrite length_app in Hj. cbn [length] in Hj.
    rewrite list_lookup_fmap, lookup_seqZ_lt in Hx by lia. cbn in Hx. injection Hx as <-.
    unfold stack_view. change stack_user_lo with 8372224. rewrite <- (eq_trans Hlo (eq_refl 8372224)).
    rewrite Hother by lia. unfold m1, put_bytes. fold nb.
    destruct (Z.leb_spec (kbase + (B - lo)) (kbase + (B + o + Z.of_nat j - lo))); [|lia].
    destruct (Z.ltb_spec (kbase + (B + o + Z.of_nat j - lo)) (kbase + (B - lo) + nb)); [|lia]. cbn [andb].
    replace (kbase + (B + o + Z.of_nat j - lo) - (kbase + (B - lo))) with (o + Z.of_nat j) by lia.
    rewrite Hbl, rd_app by lia. destruct (Z.ltb_spec (o + Z.of_nat j) (Z.of_nat (length (blob l1)))); [lia|].
    replace (o + Z.of_nat j - Z.of_nat (length (blob l1))) with (Z.of_nat j) by lia.
    rewrite rd_app by lia. rewrite length_app. cbn [length].
    destruct (Z.ltb_spec (Z.of_nat j) (Z.of_nat (length a + 1))); [|lia]. unfold rd. by rewrite Nat2Z.id, nth_lookup, Hy.
  - intros x Hx. rewrite Hother by (lia). unfold m1, put_bytes.
    destruct (Z.leb_spec (kbase + (B - lo)) x); cbn [andb]; [|done].
    destruct (Z.ltb_spec x (kbase + (B - lo) + Z.of_nat (length (blob args)))); [|done]. lia.
Qed.

(** ** What exec uses of its environment *)
Class SysLaws (E : Type) `{TaskEnv E} `{SysEnv E} := {
  sy_seek_law r t fd o w e : te_ok r e -> t ∈ r_fds r -> te_ok r (sy_fd_seek t fd o w e).2;
  sy_close_law r t fd e : te_ok r e -> t ∈ r_fds r -> te_ok r (sy_fd_close t fd e).2;
  sy_read_law r t fd n e got bytes e' :
    te_ok r e -> t ∈ r_fds r -> 0 <= n -> sy_fd_read t fd n e = (got, bytes, e') ->
    te_ok r e' /\ Forall is_byte bytes /\ (0 <= got -> Z.of_nat (length bytes) = got);
  (** stores through the upper-half alias of a run that is held *)
  sy_mem_law r x m e :
    te_ok r e -> x ∈ r_runs r -> (forall a, m a <> sy_mem e a -> in_run a 1 x) -> te_ok r (sy_set_mem m e);
  sy_mem_set m e a : sy_mem (sy_set_mem m e) a = m a;
  (** freeing pages or tables leaves the runs that are still held alone *)
  sy_free_pages_mem r x a n e va :
    te_ok (run a n ⋆ r) e -> x ∈ r_runs r -> in_run va 1 x -> sy_mem (te_free_pages a n e) va = sy_mem e va;
  sy_free_tables_mem r x l0 e va :
    te_ok (space l0 ⋆ r) e -> x ∈ r_runs r -> in_run va 1 x -> sy_mem (te_free_tables l0 e) va = sy_mem e va
}.

Section exec.
Context {E : Type} `{TaskEnvLaws E} `{Layout} `{SysEnv E} `{!SysLaws E}.
Implicit Types (c : ctx E) (s : sched E) (e : E).

Lemma exec_slurp_ok R t path e r e' :
  te_ok R e -> t ∈ r_fds R -> exec_slurp t path e = (r, e') ->
  match r with
  | None => te_ok R e'
  | Some (kbuf, bytes) => te_ok (hblock kbuf ⋆ R) e' /\ Forall is_byte bytes
  end.
Proof.
  intros Hok Ht. unfold exec_slurp. pose proof (te_fd_open_law R t path e Hok Ht) as Hok1.
  destruct (te_fd_open t path e) as [fd e1]. cbn [snd] in Hok1. case_if; [by intros [= <- <-]|].
  pose proof (sy_seek_law R t fd 0 SEEK_END e1 Hok1 Ht) as Hok2.
  destruct (sy_fd_seek t fd 0 SEEK_END e1) as [size e2]. cbn [snd] in Hok2.
  pose proof (sy_seek_law R t fd 0 SEEK_SET e2 Hok2 Ht) as Hok3.
  destruct (sy_fd_seek t fd 0 SEEK_SET e2) as [? e3]. cbn [snd] in Hok3.
  destruct ((size <=? 0) || (EXEC_MAX_BYTES <? size)) eqn:Es; [intros [= <- <-]; by apply sy_close_law|].
  apply orb_false_iff in Es as [Es1 Es2]. change EXEC_MAX_BYTES with 1048576 in Es2.
  destruct (te_kmalloc size e3) as [kbuf e4] eqn:Ek.
  apply (te_kmalloc_law R) in Ek as [[-> Hok4]|[Hk Hok4]]; [|rewrite (proj2 (Z.eqb_neq _ 0) Hk)|done|lia].
  { cbn [Z.eqb]. intros [= <- <-]. by apply sy_close_law. }
  assert (t ∈ r_fds (hblock kbuf ⋆ R)) as Ht' by done.
  destruct (sy_fd_read t fd size e4) as [[got bytes] e5] eqn:Er.
  apply (sy_read_law (hblock kbuf ⋆ R)) in Er as (Hok5 & Hb & _); [|done|done|lia].
  pose proof (sy_close_law _ t fd e5 Hok5 Ht') as Hok6. destruct (sy_fd_close t fd e5) as [? e6]. cbn [snd] in Hok6.
  case_if; intros [= <- <-]; [by apply te_kfree_law|done].
Qed.

Lemma exec_build_ok R kbuf bytes e r e' :
  te_ok (hblock kbuf ⋆ R) e -> Forall is_byte bytes -> exec_build kbuf bytes e = (r, e') ->
  match r with
  | None => te_ok R e'
  | Some (stack, l0, img) =>
      te_ok (run stack Mmu.USER_STACK_PAGES ⋆ space l0 ⋆ Elf.img_res img ⋆ R) e' /\
      run_ok stack Mmu.USER_STACK_PAGES /\ run_ok l0 1 /\ is_u 64 (entry img)
  end.
Proof.
  intros Hok Hb. unfold exec_build.
  destruct (te_alloc_pages Mmu.USER_STACK_PAGES e) as [stack e1] eqn:Ea.
  apply (te_alloc_pages_law _ _ _ _ _ Hok) in Ea as [[-> Hok1]|[Hst Hok1]];
    [cbn [Z.eqb]; intros [= <- <-]; by apply te_kfree_law| |done].
  assert (stack <> 0) as Hs0 by (destruct Hst; lia). rewrite (proj2 (Z.eqb_neq _ 0) Hs0).
  eapply (te_zero_law _ (stack, Mmu.USER_STACK_PAGES) (PHYS_TO_VIRT stack) (Mmu.USER_STACK_PAGES * PAGE_SIZE)) in Hok1;
    [|by left|done|by apply stack_run].
  match goal with |- context [te_create_tables ?x] => destruct (te_create_tables x) as [l0 e2] eqn:Ec end.
  apply (te_create_tables_law _ _ _ _ Hok1) in Ec as [[-> Hok2]|[Hl Hok2]].
  { cbn [Z.eqb]. intros [= <- <-]. by apply te_kfree_law, te_free_pages_law. }
  assert (l0 <> 0) as Hl0 by (destruct Hl; lia). rewrite (proj2 (Z.eqb_neq _ 0) Hl0).
  destruct (Elf.elf_load kbuf bytes l0 zero_image e2) as [r1 [img e3]] eqn:Ee.
  destruct (Elf.elf_load_cases kbuf bytes l0 zero_image e2 _ r1 img e3 Hb eq_refl Hok2 ltac:(left) Ee)
    as [[-> Hok3]|(-> & Hok3 & _ & _ & _ & Hent & _)]; cbn [Z.ltb Z.compare]; intros [= <- <-].
  { apply te_kfree_law, te_free_pages_law, te_free_tables_law.
    eapply te_ok_proper; [|exact Hok3]. aac_reflexivity. }
  split; [|split; [done|split; [done|rewrite Hent; apply (ld_le_range 8); intros; by apply rd_byte]]].
  apply map_stack_ok; [|cbn; set_solver|done]. apply te_kfree_law.
  eapply te_ok_proper; [|exact Hok3]. aac_reflexivity.
Qed.

(** Giving back a resource that may be absent. *)
Lemma give_back (b : bool) X R x va (f : E -> E) e :
  te_ok ((if b then X else res0) ⋆ R) e -> (te_ok (X ⋆ R) e -> te_ok R (f e)) ->
  (te_ok (X ⋆ R) e -> sy_mem (f e) va = sy_mem e va) ->
  te_ok R (if b then f e else e) /\ (x ∈ r_runs R -> in_run va 1 x -> sy_mem (if b then f e else e) va = sy_mem e va).
Proof. destruct b; intros Hok H1' H2'; [split; [by apply H1'|intros; by apply H2']|]. rewrite res_app_0 in Hok. done. Qed.

Lemma free_image_mem rs R x va e :
  te_ok (image_res rs ⋆ R) e -> x ∈ r_runs R -> in_run va 1 x -> sy_mem (free_image rs e) va = sy_mem e va.
Proof.
  intros Hok Hx Hva. revert e Hok. induction rs as [|r rs IH]; intros e; cbn [image_res free_image]; [done|].
  rewrite res_app_assoc. intros Hok.
  assert (x ∈ r_runs (image_res rs ⋆ R)) as Hx' by (cbn; set_solver).
  destruct (give_back _ _ _ x va (te_free_pages (phys r) (rpages r)) e Hok) as [Hok1 Hm];
    [apply te_free_pages_law|intros Hok'; by eapply sy_free_pages_mem|].
  rewrite IH by done. by apply Hm.
Qed.

Definition old_res (tk : task) : res :=
  opt_run (ustack_phys tk) Mmu.USER_STACK_PAGES
  ⋆ image_res (take (Z.to_nat (region_count (exec_image tk))) (Task.regions (exec_image tk)))
  ⋆ (if negb (ttbr0 tk =? 0) then space (Mmu.ttbr_baddr (ttbr0 tk)) else res0).
Lemma exec_free_old_ok tk R e :
  te_ok (old_res tk ⋆ R) e ->
  te_ok R (exec_free_old tk e) /\
  (forall x va, x ∈ r_runs R -> in_run va 1 x -> sy_mem (exec_free_old tk e) va = sy_mem e va).
Proof.
  intros Hok. unfold old_res, opt_run in Hok. rewrite !res_app_assoc in Hok. unfold exec_free_old.
  set (sp := if negb (ttbr0 tk =? 0) then _ else res0) in *. set (im := image_res _) in *.
  assert (forall x, x ∈ r_runs R -> x ∈ r_runs (im ⋆ (sp ⋆ R))) as Hin by (intros; cbn; set_solver).
  set (e1 := if negb (ustack_phys tk =? 0) then _ else e).
  assert (te_ok (im ⋆ (sp ⋆ R)) e1) as Hok1 by (eapply te_ok_opt; [exact Hok|apply te_free_pages_law]).
  assert (te_ok (sp ⋆ R) (free_image (take (Z.to_nat (region_count (exec_image tk))) (Task.regions (exec_image tk))) e1)) as Hok2
    by (by apply free_image_ok).
  split; [eapply te_ok_opt; [exact Hok2|apply te_free_tables_law]|]. intros x va Hx Hva.
  transitivity (sy_mem (free_image (take (Z.to_nat (region_count (exec_image tk))) (Task.regions (exec_image tk))) e1) va).
  { eapply give_back; [exact Hok2|apply te_free_tables_law| |exact Hx|done]. intros Hok'. by eapply sy_free_tables_mem. }
  rewrite (free_image_mem _ (sp ⋆ R) x va) by (try done; cbn; set_solver).
  eapply (give_back _ _ _ x va (te_free_pages (ustack_phys tk) Mmu.USER_STACK_PAGES));
    [exact Hok|apply te_free_pages_law| |by apply Hin|done].
  intros Hok'. eapply sy_free_pages_mem; [exact Hok'|by apply Hin|done].
Qed.

(** The caller's record after the exec. *)
Definition exec_task (stack ttbr : Z) (img : elf_image) (tk : task) : task :=
  set_exec_image img (set_user_sp USER_STACK_TOP (set_ustack_phys stack (set_ttbr0 ttbr tk))).
Lemma exec_task_held stack l0 asid img tk R :
  stack <> 0 -> 0 < l0 < 2 ^ 48 -> 0 <= asid ->
  held (exec_task stack (Mmu.ttbr_pack l0 asid) img tk) ⋆ old_res tk ⋆ R ≡
  run stack Mmu.USER_STACK_PAGES ⋆ space l0 ⋆ Elf.img_res img ⋆ (held tk ⋆ R).
Proof.
  intros Hs Hl Ha. unfold held, exec_task, old_res, Elf.img_res. cbn.
  rewrite Mmu.ttbr_pack_baddr by lia. unfold opt_run at 2. rewrite (proj2 (Z.eqb_neq _ 0) Hs).
  assert (Mmu.ttbr_pack l0 asid <> 0) as Hne.
  { intros Hz. pose proof (Mmu.ttbr_pack_baddr l0 asid ltac:(lia) Ha) as Hb. rewrite Hz in Hb.
    change (Mmu.ttbr_baddr 0) with 0 in Hb. lia. }
  rewrite (proj2 (Z.eqb_neq _ 0) Hne). cbn [negb]. aac_reflexivity.
Qed.

Lemma zero_regs_spec n i f :
  0 <= i ->
  let f' := zero_regs n i f in
  length (regs f') = length (regs f) /\ elr f' = elr f /\ spsr f' = spsr f /\ tf_sp f' = tf_sp f /\
  (forall j, 0 <= j < Z.of_nat (length (regs f)) ->
     rd (regs f') j = if (i <=? j) && (j <? i + Z.of_nat n) then 0 else rd (regs f) j).
Proof.
  revert i f. induction n as [|n IH]; intros i f Hi; cbn [zero_regs].
  { do 4 (split; [done|]). intros j Hj. case_if; [lia|done]. }
  destruct (IH (i + 1) (set_reg i 0 f) ltac:(lia)) as (H1' & H2' & H3' & H4' & H5'). cbn [set_reg regs elr spsr tf_sp] in *.
  rewrite length_wr in *. do 4 (split; [done|]). intros j Hj. rewrite H5' by done.
  destruct (decide (j = i)) as [->|].
  - rewrite rd_wr_eq by lia. repeat case_if; done || lia.
  - rewrite rd_wr_ne by lia. repeat case_if; done || lia.
Qed.

(** The state exec leaves, from the one before it. *)
Lemma exec_install_eq stack l0 img offs kargs c s0 e0 :
  kern c = set_env s0 e0 ->
  let asid := next_asid s0 in
  let n := if u16 (asid + 1) =? 0 then 1 else u16 (asid + 1) in
  let '(e, f) := exec_args stack img offs kargs (frame c) e0 in
  let e' := exec_free_old (get s0 (current s0)) e in
  exec_install stack l0 img offs kargs c =
    MkCtx (set_env (set_next_asid (put s0 (current s0) (exec_task stack (Mmu.ttbr_pack l0 asid) img)) n) e') f (sy_view l0 e').
Proof.
  intros Hk. cbn zeta. unfold exec_install, task_of. rewrite Hk. cbn [sched_asid_alloc current set_env next_asid]. cbn zeta.
  cbn [put set_tasks env set_next_asid set_env]. destruct (exec_args _ _ _ _ _ e0) as [e f]. f_equal.
  unfold with_env, put, set_env, set_next_asid, set_tasks, upd, exec_task. cbn [tasks current next_pid dead_list next_asid env].
  f_equal. by rewrite !task_at_insert_eq, !insert_insert_eq.
Qed.

Definition frame_args (f : trap_frame) (args : list (list Z)) : Prop :=
  length (regs f) = 31%nat /\ (length args <= 32)%nat /\
  tf_sp f mod 16 = 0 /\ stack_user_lo <= tf_sp f <= USER_STACK_TOP /\
  rd (regs f) 0 = Z.of_nat (length args) /\ (args = [] -> rd (regs f) 1 = 0) /\
  (args <> [] -> tf_sp f <= rd (regs f) 1 /\ rd (regs f) 1 + 8 * (Z.of_nat (length args) + 1) <= USER_STACK_TOP) /\
  (forall i, 2 <= i < 31 -> rd (regs f) i = 0).

Lemma vector_ext m m' A args :
  (forall va, stack_user_lo <= va < USER_STACK_TOP -> m' va = m va) ->
  stack_user_lo <= A -> A + 8 * (Z.of_nat (length args) + 1) <= USER_STACK_TOP ->
  vector m A args -> vector m' A args.
Proof.
  intros Hm HA Htop [Hz Hv].
  assert (forall i, 0 <= i <= Z.of_nat (length args) -> ld_le 8 (A + 8 * i) m' = ld_le 8 (A + 8 * i) m) as Hld.
  { intros i Hi. apply ld_le_ext. intros x Hx. apply Hm. lia. }
  split; [by rewrite Hld by lia|]. intros i a Hi. pose proof (lookup_lt_Some _ _ _ Hi).
  destruct (Hv i a Hi) as (Hv1 & Hv2 & Hv3). cbn zeta. rewrite Hld by lia. split; [done|]. split; [done|].
  rewrite <- Hv3. apply list_fmap_ext. intros j x Hx. apply lookup_seqZ in Hx as [-> Hj]. apply Hm. lia.
Qed.

(** The registers and the memory with the argument vector in place. *)
Lemma exec_args_ok stack img args f0 e0 R e f :
  run_ok stack Mmu.USER_STACK_PAGES -> length (regs f0) = 31%nat -> (length args <= 32)%nat ->
  Z.of_nat (length (blob args)) <= EXEC_ARG_BYTES_MAX ->
  te_ok R e0 -> (stack, Mmu.USER_STACK_PAGES) ∈ r_runs R ->
  exec_args stack img (starts 0 args) (blob args) f0 e0 = (e, f) ->
  te_ok R e /\ frame_args f args /\ elr f = entry img /\ spsr f = 0 /\
  (args <> [] -> vector (stack_view (PHYS_TO_VIRT stack) (sy_mem e)) (rd (regs f) 1) args).
Proof.
  intros Hst Hlen Hargs Hblob Hok Hin. unfold exec_args, exec_frame. rewrite length_starts. cbn zeta.
  destruct (zero_regs_spec 31 0 f0 ltac:(lia)) as (Hl0 & _ & _ & _ & Hz). rewrite Hlen in Hl0, Hz.
  assert (forall j, 0 <= j < 31 -> rd (regs (zero_regs 31 0 f0)) j = 0) as Hzero.
  { intros j Hj. rewrite Hz by lia. case_if; [done|lia]. }
  destruct (Z.ltb_spec 0 (Z.of_nat (length args))) as [Hpos|Hnone].
  2:{ assert (args = []) as -> by (destruct args; [done|cbn [length] in Hnone; lia]).
      intros [= <- <-]. split; [done|]. split; [|done]. unfold frame_args. cbn [tf_set_sp tf_sp regs set_spsr set_elr length].
      split; [done|]. split; [lia|]. split; [done|]. split; [done|]. split; [by rewrite Hzero|]. split; [by rewrite Hzero|]. split; [done|].
      intros i Hi. apply Hzero. lia. }
  destruct (build_args _ _ _ _) as [[m' A] sp] eqn:Eb. pose proof (p2v stack Mmu.USER_STACK_PAGES Hst ltac:(done)) as Hkb.
  assert (PHYS_TO_VIRT stack + 16384 < 2 ^ 64 /\ 0 <= PHYS_TO_VIRT stack) as [Hk1 Hk0].
  { rewrite Hkb. destruct Hst as (? & _ & ?). unfold PAGE_SIZE, Mmu.USER_STACK_PAGES, KERNEL_VA_OFFSET, Heap.KERNEL_VA_OFFSET in *. lia. }
  destruct (build_args_spec _ _ _ _ _ _ Hk0 Hk1 Hargs Hblob Eb) as (Hsp & Hlo & Htop & Hvec & Hother).
  assert (0 <= A < 2 ^ 64) as HA by (unfold USER_STACK_TOP, Mmu.USER_STACK_TOP, stack_user_lo in *; pose proof (u64_range (USER_STACK_TOP - Mmu.USER_STACK_PAGES * PAGE_SIZE)); unfold Mmu.USER_STACK_TOP in *; lia).
  assert (rd (regs (tf_set_sp sp (set_reg 2 0 (set_reg 1 A (set_reg 0 (u64 (Z.of_nat (length args)))
            (set_spsr 0 (set_elr (entry img) (zero_regs 31 0 f0)))))))) 1 = A) as Hx1.
  { cbn [tf_set_sp regs set_reg set_spsr set_elr]. rewrite rd_wr_ne, rd_wr_eq by (rewrite ?length_wr; lia). done. }
  intros [<- <-]%pair_equal_spec. split; [|split; [|split; [done|split; [done|]]]].
  - eapply sy_mem_law; [done|exact Hin|]. intros x Hx.
    destruct (decide (x < PHYS_TO_VIRT stack \/ PHYS_TO_VIRT stack + 16384 <= x)) as [Ho|Hi].
    { destruct Hx. by apply Hother. }
    unfold in_run. cbn [fst snd]. rewrite Hkb in Hi. unfold Mmu.USER_STACK_PAGES, PAGE_SIZE in *. lia.
  - unfold frame_args. rewrite Hx1. cbn [tf_set_sp tf_sp regs set_reg set_spsr set_elr].
    split; [by rewrite !length_wr|]. split; [done|]. split; [done|]. split; [unfold stack_user_lo in *; lia|].
    split; [rewrite !rd_wr_ne, rd_wr_eq by (rewrite ?length_wr; lia); apply u64_small; lia|].
    split; [intros ->; cbn [length] in Hpos; lia|]. split; [lia|]. intros i Hi.
    destruct (decide (i = 2)) as [->|]; [by rewrite rd_wr_eq by (rewrite !length_wr; lia)|].
    rewrite !rd_wr_ne by lia. apply Hzero. lia.
  - intros _. rewrite Hx1. eapply vector_ext; [|lia|done|exact Hvec]. intros va Hva. unfold stack_view. apply sy_mem_set.
Qed.

(** The new address space is installed: nothing is lost and nothing leaks. *)
Lemma exec_install_ok c s0 e0 L D F stack l0 img args :
  sched_inv s0 L D F -> kern c = set_env s0 e0 -> current s0 ∈ L ->
  te_ok (run stack Mmu.USER_STACK_PAGES ⋆ space l0 ⋆ Elf.img_res img ⋆ (tasks_res (tasks s0) (L ++ D) ⋆ F)) e0 ->
  run_ok stack Mmu.USER_STACK_PAGES -> run_ok l0 1 -> length (regs (frame c)) = 31%nat ->
  (length args <= 32)%nat -> Z.of_nat (length (blob args)) <= EXEC_ARG_BYTES_MAX ->
  let c' := exec_install stack l0 img (starts 0 args) (blob args) c in
  sched_inv (kern c') L D F /\ current (kern c') = current s0 /\
  tasks (kern c') = upd (tasks s0) (current s0) (exec_task stack (Mmu.ttbr_pack l0 (next_asid s0)) img) /\
  um c' = sy_view l0 (env (kern c')) /\
  frame_args (frame c') args /\ elr (frame c') = entry img /\ spsr (frame c') = 0 /\
  (args <> [] -> vector (stack_view (PHYS_TO_VIRT stack) (sy_mem (env (kern c')))) (rd (regs (frame c')) 1) args).
Proof.
  intros [Hc Hst] Hk Hcur Hok Hrs Hrl Hlen Hargs Hblob.
  set (tk := get s0 (current s0)). set (f := exec_task stack (Mmu.ttbr_pack l0 (next_asid s0)) img).
  assert (current s0 ∈ L ++ D) as Hin by (apply elem_of_app; by left).
  pose proof (co_nodup _ _ _ _ Hc) as Hnd. apply NoDup_cons in Hnd as [Hidle Hnd].
  destruct (tasks_res_change (tasks s0) L D (current s0) f Hnd Hin) as (R & HR1 & HR2).
  pose proof (co_asid _ _ _ _ Hc) as Has. assert (stack <> 0) as Hs0 by (destruct Hrs; lia).
  assert (0 < l0 < 2 ^ 48) as Hl0 by (destruct Hrl as (? & _ & ?); unfold PAGE_SIZE in *; lia).
  assert (te_ok (old_res tk ⋆ (tasks_res (upd (tasks s0) (current s0) f) (L ++ D) ⋆ F)) e0) as Hok0.
  { eapply te_ok_proper; [|exact Hok]. rewrite HR1, HR2. change (task_at (tasks s0) (current s0)) with tk.
    pose proof (exec_task_held stack l0 (next_asid s0) img tk (hblock (current s0) ⋆ R ⋆ F) Hs0 Hl0 ltac:(lia)) as Hh.
    fold f in Hh.
    transitivity (run stack Mmu.USER_STACK_PAGES ⋆ space l0 ⋆ Elf.img_res img ⋆ (held tk ⋆ (hblock (current s0) ⋆ R ⋆ F)));
      [aac_reflexivity|]. rewrite <- Hh. aac_reflexivity. }
  assert ((stack, Mmu.USER_STACK_PAGES) ∈ r_runs (tasks_res (upd (tasks s0) (current s0) f) (L ++ D) ⋆ F)) as Hrun.
  { destruct HR2 as (_ & HP & _). cbn [r_runs res_app]. rewrite elem_of_app. left. rewrite HP.
    change (task_at (tasks s0) (current s0)) with tk. unfold held, f, exec_task, opt_run. cbn.
    rewrite (proj2 (Z.eqb_neq _ 0) Hs0). cbn. set_solver. }
  pose proof (exec_install_eq stack l0 img (starts 0 args) (blob args) c s0 e0 Hk) as Heq. cbn zeta in *. fold f tk in Heq.
  destruct (exec_args _ _ _ _ _ _) as [e1 f1] eqn:Eargs. rewrite Heq. cbn [kern frame].
  apply (exec_args_ok _ _ _ _ _ (old_res tk ⋆ (tasks_res (upd (tasks s0) (current s0) f) (L ++ D) ⋆ F)))
    in Eargs as (Hok1 & Hfa & Helr & Hspsr & Hvec); try done; [|cbn; set_solver].
  destruct (exec_free_old_ok _ _ _ Hok1) as [Hok2 Hmem].
  split; [split|do 6 (split; [done|])].
  - apply core_change_asid; try done; [by right| | |].
    + intros Hi. exfalso. apply Hidle. by rewrite <- Hi.
    + intros [? ? ?]. by constructor.
    + case_if; [lia|]. pose proof (u16_range (next_asid s0 + 1)). lia.
  - apply (states_change _ _ _ (current s0) f) with (e := exec_free_old tk e1) in Hst; [|done]. destruct Hst. by constructor.
  - intros Hne. destruct Hfa as (_ & _ & _ & Hlo & _ & _ & Hb & _). destruct (Hb Hne) as [Hb1 Hb2].
    eapply vector_ext; [|lia|done|by apply Hvec]. intros va Hva. unfold stack_view. cbn [env set_env].
    eapply Hmem; [exact Hrun|]. unfold in_run. cbn [fst snd].
    rewrite (p2v stack Mmu.USER_STACK_PAGES Hrs) by done.
    change stack_user_lo with 8372224 in *. unfold USER_STACK_TOP, Mmu.USER_STACK_TOP, Mmu.USER_STACK_PAGES, PAGE_SIZE in *. lia.
Qed.
(** The fd table of a task is in the ledger. *)
Lemma fds_held T l a R : a ∈ l -> fds (task_at T a) <> 0 -> fds (task_at T a) ∈ r_fds (tasks_res T l ⋆ R).
Proof.
  intros Hin Hf. cbn [r_fds res_app]. apply elem_of_app. left. induction l as [|b l IH]; [by apply not_elem_of_nil in Hin|].
  cbn [tasks_res r_fds res_app hblock app]. apply elem_of_app. apply elem_of_cons in Hin as [<-|Hin]; [left|right; by apply IH].
  unfold held. rewrite (proj2 (Z.eqb_neq _ 0) Hf). cbn [negb r_fds res_app]. rewrite !elem_of_app. right. cbn. set_solver.
Qed.

(** What the caller of exec passes as its arguments. *)
Definition argument_strings (m : mem) (a : Z) (args : list (list Z)) : Prop :=
  a = 0 /\ args = [] \/
  a <> 0 /\ args_at m a 0 args /\ (length args = 32%nat \/ ld_le 8 (u64 (a + Z.of_nat (length args) * 8)) m = 0).

Lemma sys_exec_cases p a c L D F r c' :
  sched_inv (kern c) L D F -> current (kern c) ∈ L -> length (regs (frame c)) = 31%nat ->
  sys_exec p a c = (r, c') ->
  sched_inv (kern c') L D F /\ current (kern c') = current (kern c) /\
  (r = -1 /\ tasks (kern c') = tasks (kern c) /\ frame c' = frame c /\ um c' = um c \/
   r = 0 /\ 0 <= user_str_ok p (um c) /\
   exists args stack l0 img,
     argument_strings (um c) a args /\ run_ok stack Mmu.USER_STACK_PAGES /\ run_ok l0 1 /\
     tasks (kern c') =
       upd (tasks (kern c)) (current (kern c)) (exec_task stack (Mmu.ttbr_pack l0 (next_asid (kern c))) img) /\
     um c' = sy_view l0 (env (kern c')) /\ frame_args (frame c') args /\ elr (frame c') = entry img /\ is_u 64 (entry img) /\ spsr (frame c') = 0 /\
     (args <> [] -> vector (stack_view (PHYS_TO_VIRT stack) (sy_mem (env (kern c')))) (rd (regs (frame c')) 1) args)).
Proof.
  intros Hinv Hcur Hlen. unfold sys_exec. pose proof (co_res _ _ _ _ (proj1 Hinv)) as Hres.
  destruct (Z.ltb_spec (user_str_ok p (um c)) 0) as [_|Hp]; [intros [= <- <-]; auto 10|].
  destruct (Z.eqb_spec (fds (task_of c (current (kern c)))) 0) as [_|Hfd]; [intros [= <- <-]; auto 10|].
  destruct (capture_args a (um c)) as [[offs kargs]|] eqn:Ecap; [|intros [= <- <-]; auto 10].
  apply capture_args_spec in Ecap as (args & -> & -> & Hblob & Hargs & Hstr).
  destruct (exec_slurp _ _ _) as [r1 e1] eqn:Es. cbn [kern frame um with_kern env with_env set_env].
  eapply exec_slurp_ok in Es; [|exact Hres|apply (fds_held (tasks (kern c)) (L ++ D) (current (kern c)) F); [apply elem_of_app; by left|done]].
  destruct r1 as [[kbuf bytes]|]; [|intros [= <- <-]; split; [by apply inv_set_env|auto 10]].
  destruct Es as [Hok1 Hbytes]. destruct (exec_build kbuf bytes e1) as [r2 e2] eqn:Eb.
  eapply exec_build_ok in Eb; [|exact Hok1|done].
  destruct r2 as [[[stack l0] img]|]; [|intros [= <- <-]; split; [by apply (inv_set_env (kern c))|auto 10]].
  destruct Eb as (Hok2 & Hrs & Hrl & Hent). intros [= <- <-].
  destruct (exec_install_ok (with_kern (with_kern c (with_env (kern c) e1)) (with_env (with_env (kern c) e1) e2))
    (kern c) e2 L D F stack l0 img args Hinv eq_refl Hcur Hok2 Hrs Hrl Hlen Hargs Hblob) as (H1' & H2' & H3' & Hum & H4' & H5' & H6').
  split; [done|]. split; [done|]. right. split; [done|]. split; [done|]. exists args, stack, l0, img.
  split; [exact Hstr|]. do 7 (split; [done|]). exact H6'.
Qed.

End exec.

(** ** A concrete environment with memory

    The allocator of [BumpEnv] and a memory; every path opens the example file
    of [Elf]. *)
Definition lift_op {A} (f : bump -> A * bump) (e : bump * mem) : A * (bump * mem) := let '(a, b) := f e.1 in (a, (b, e.2)).
Definition lift_fun (f : bump -> bump) (e : bump * mem) : bump * mem := (f e.1, e.2).
#[global] Instance demo_env : TaskEnv (bump * mem) := {
  te_kmalloc n := lift_op (te_kmalloc n);
  te_kfree p := lift_fun (te_kfree p);
  te_alloc_page := lift_op te_alloc_page;
  te_alloc_pages n := lift_op (te_alloc_pages n);
  te_free_page a := lift_fun (te_free_page a);
  te_free_pages a n := lift_fun (te_free_pages a n);
  te_create_tables := lift_op te_create_tables;
  te_map_user l0 va pa n fl := lift_fun (te_map_user l0 va pa n fl);
  te_free_tables l0 := lift_fun (te_free_tables l0);
  te_fd_create := lift_op te_fd_create;
  te_fd_open t path := lift_op (te_fd_open t path);
  te_fd_destroy t := lift_fun (te_fd_destroy t);
  te_zero va n := lift_fun (te_zero va n);
  te_copy d s n := lift_fun (te_copy d s n);
  te_store va v := lift_fun (te_store va v);
  te_ticks e := te_ticks e.1;
  te_count e := te_count e.1;
  te_freq e := te_freq e.1;
  te_ok r e := te_ok r e.1
}.
#[global] Instance demo_laws : TaskEnvLaws (bump * mem).
Proof.
  constructor; unfold te_kmalloc, te_kfree, te_alloc_page, te_alloc_pages, te_free_page, te_free_pages, te_create_tables,
    te_map_user, te_free_tables, te_fd_create, te_fd_open, te_fd_destroy, te_zero, te_copy, te_store, te_ok, demo_env, lift_op,
    lift_fun; intros; cbn [fst snd] in *;
    repeat match goal with
    | Hx : (let '(_, _) := ?f in _) = (_, _) |- _ =>
        destruct f eqn:?; injection Hx as <- <-
    end; cbn [fst snd].
  - by eapply te_ok_proper.
  - by eapply te_blocks_ok.
  - by eapply te_kmalloc_law.
  - by eapply te_kfree_law.
  - by eapply te_alloc_page_law.
  - by eapply te_alloc_pages_law.
  - by destruct e.
  - by eapply te_free_page_law.
  - by eapply te_free_pages_law.
  - by eapply te_create_tables_law.
  - by eapply te_map_user_law.
  - by eapply te_free_tables_law.
  - by eapply te_fd_create_law.
  - done.
  - by eapply te_fd_destroy_law.
  - by eapply te_zero_law.
  - by eapply te_copy_law.
  - by eapply te_store_law.
Qed.

Notation demo_file := (Elf.demo_elf 5).
#[global] Instance demo_sys : SysEnv (bump * mem) := {
  sy_fd_close _ _ e := (0, e);
  sy_fd_seek _ _ _ w e := (if w =? SEEK_END then Z.of_nat (length demo_file) else 0, e);
  sy_fd_read _ _ n e := let l := take (Z.to_nat n) demo_file in (Z.of_nat (length l), l, e);
  sy_fd_write _ _ l e := (Z.of_nat (length l), e);
  sy_fd_ioctl _ _ _ _ m e := (-1, m, e);
  sy_uptime_ms e := tick e.1;
  sy_send_ping _ e := (-1, e);
  sy_rx_poll e := (0, [], e);
  sy_balloon_inflate _ e := (0, e);
  sy_balloon_deflate _ e := (0, e);
  sy_balloon_status _ := (0, 0);
  sy_bench s := s;
  sy_blktest _ s := s;
  sy_rt_demo s := s;
  sy_rt_pi_demo s := s;
  sy_mem e := e.2;
  sy_set_mem m e := (e.1, m);
  sy_view _ e a := u8 (e.2 a)
}.
#[global] Instance demo_sys_laws : SysLaws (bump * mem).
Proof.
  constructor; intros; try done.
  match goal with Hx : sy_fd_read _ _ _ _ = _ |- _ => cbn [sy_fd_read demo_sys] in Hx; injection Hx as <- <- <- end.
  split; [done|]. split; [|done]. apply Forall_take. repeat (constructor; [split; [discriminate|reflexivity]|]). constructor.
Qed.
#[global] Instance demo_confined : SysConfined (bump * mem).
Proof.
  constructor; cbn [sy_fd_read sy_fd_ioctl demo_sys]; intros.
  - match goal with Hx : (_, _, _) = _ |- _ => injection Hx as <- <- <- end. rewrite length_take. lia.
  - repeat match goal with Hx : (_, _, _) = _ |- _ => injection Hx as <- <- <- end. done.
  - by match goal with Hx : (_, _, _) = _ |- _ => injection Hx as <- <- <- end.
Qed.

(** A user task with the path /a at 0x1000 and the vector { "/a", NULL } at 0x2000. *)
Notation demo_kern :=
  (schedule (sched_create_task [117] 0xFFFF000040080400 (sched_init (boot (MkBump 16 4096 0 0 62500000, (fun _ => 0) : mem)))).2).
Definition demo_um : mem := fun a => if a =? 0x1000 then 47 else if a =? 0x1001 then 97 else if a =? 0x2001 then 16 else 0.
Notation demo_call n := (MkCtx demo_kern (MkFrame (wr (wr (wr (replicate 31 7) 8 n) 0 0x1000) 1 0x2000) 0x400100 0 0 0 0x7FFF00) demo_um).
Lemma demo_kern_inv : sched_inv demo_kern [16] [] res0.
Proof. check_inv. Qed.


(** The same call with other memory above the user's half: nothing differs. *)
Notation demo_other := ((fun a => if a <? USER_STACK_TOP then demo_um a else 255) : mem).

(** A buffer across the end of the user's half, and one whose end wraps. *)
Example user_buf_bounds :
  user_buf_ok 0x7FFFF0 16 = true /\ user_buf_ok 0x7FFFF0 17 = false /\ user_buf_ok (2 ^ 64 - 8) 16 = false.
Proof. by vm_compute. Qed.
End Syscall.
