(* ===== verification/Exception.v ===== *)
(** * Exception entry and the interrupt controller
      (src/src/exception/exception.c, gic/gic.c)

    [exception_dispatch] is where every entry into the kernel ends up: system
    calls, aborts, breakpoints and interrupts.  It calls the modelled handlers
    and, before the return to user mode, the delivery of signals.  The
    acknowledged interrupt, the bytes in the receive queue and the readings of
    the counter come with the event.  What is printed is left out, except for
    the texts the fault report chooses. *)
From S2P Require Import Prelude PageAlloc Bytes Heap Mmu Task TaskEnv BumpEnv Sched SchedInv SchedThm Rtos Strings Uart Framing Signal Timer Elf Syscall.
From Stdlib Require String.
#[local] Open Scope Z_scope.

Module Exception.
Export Timer Syscall.

Definition EXCEPTION_SYNC : Z := 0.
Definition EXCEPTION_IRQ : Z := 1.
Definition EXCEPTION_FIQ : Z := 2.
Definition EXCEPTION_SERROR : Z := 3.
Definition EC_SVC_AARCH64 : Z := 0x15.
Definition EC_INST_ABORT_LO : Z := 0x20.
Definition EC_INST_ABORT_CUR : Z := 0x21.
Definition EC_DATA_ABORT_LO : Z := 0x24.
Definition EC_DATA_ABORT_CUR : Z := 0x25.
Definition EC_BRK : Z := 0x3C.
Definition ESR_EC (esr : Z) : Z := (esr >>> 26) .& 0x3F.
Definition ESR_ISS_DFSC (esr : Z) : Z := esr .& 0x3F.
Definition GIC_INTID_NO_PENDING : Z := 1023.
Definition TIMER_PPI_INTID : Z := 30.
Definition UART1_INTID : Z := 40.
Definition GIC_COUNTERS_MAX : Z := 256.

(** ** The texts of the fault report *)
Module Text.
Import String.
Definition va_classify_user (far : Z) : string :=
  if 0xFFFF000000000000 <=? far then "kernel-half VA (kernel-pointer leak?)"
  else if far <? 0x1000 then "NULL-page (nullptr deref)"
  else if (Mmu.USER_TEXT_BASE <=? far) && (far <? u64 (USER_STACK_TOP - Mmu.USER_STACK_PAGES * 0x1000))
       then "user code / data region"
  else
    let stack_lo := u64 (USER_STACK_TOP - Mmu.USER_STACK_PAGES * 0x1000) in
    if (stack_lo <=? far) && (far <? USER_STACK_TOP) then "user stack (active)"
    else if (u64 (stack_lo - 0x1000) <=? far) && (far <? stack_lo)
         then "just below user stack — STACK OVERFLOW likely"
    else if USER_STACK_TOP <=? far then "above user range — wild pointer"
    else "user lower-half (unmapped)".

Definition dfsc_str (dfsc : Z) : string :=
  if dfsc =? 0x00 then "Address size fault L0 / TTBR"
  else if dfsc =? 0x01 then "Address size fault L1"
  else if dfsc =? 0x02 then "Address size fault L2"
  else if dfsc =? 0x03 then "Address size fault L3"
  else if dfsc =? 0x04 then "Translation fault L0"
  else if dfsc =? 0x05 then "Translation fault L1"
  else if dfsc =? 0x06 then "Translation fault L2"
  else if dfsc =? 0x07 then "Translation fault L3"
  else if dfsc =? 0x09 then "Access flag fault L1"
  else if dfsc =? 0x0a then "Access flag fault L2"
  else if dfsc =? 0x0b then "Access flag fault L3"
  else if dfsc =? 0x0d then "Permission fault L1"
  else if dfsc =? 0x0e then "Permission fault L2"
  else if dfsc =? 0x0f then "Permission fault L3"
  else if dfsc =? 0x10 then "Synchronous external abort"
  else if dfsc =? 0x14 then "Sync ext abort on TT walk L0"
  else if dfsc =? 0x15 then "Sync ext abort on TT walk L1"
  else if dfsc =? 0x16 then "Sync ext abort on TT walk L2"
  else if dfsc =? 0x17 then "Sync ext abort on TT walk L3"
  else if dfsc =? 0x21 then "Alignment fault"
  else if dfsc =? 0x30 then "TLB conflict abort"
  else "Unknown DFSC".
End Text.

(** ** The interrupt controller *)

(** The 32-bit registers by address; a function gives the register file after
    its writes. *)
Definition regfile : Type := Z -> Z.
Definition mmio_write (a v : Z) (g : regfile) : regfile := fun x => if x =? a then v else g x.
Definition GICD_IGROUPR : Z := 0x08000080.
Definition GICD_ISENABLER : Z := 0x08000100.
Definition GICD_ICENABLER : Z := 0x08000180.
Definition GICD_IGRPMODR : Z := 0x08000D00.
Definition GICD_IROUTER : Z := 0x08006000.
Definition GICR_ISENABLER0 : Z := 0x080B0100.
Definition GICR_ICENABLER0 : Z := 0x080B0180.

Definition gic_disable_irq (intid : Z) (g : regfile) : regfile :=
  if intid <? 32 then mmio_write GICR_ICENABLER0 (u32 (1 <<< intid)) g
  else mmio_write (u32 (GICD_ICENABLER + intid / 32 * 4)) (u32 (1 <<< (intid mod 32))) g.
Definition gic_enable_irq (intid : Z) (g : regfile) : regfile :=
  if intid <? 32 then mmio_write GICR_ISENABLER0 (g GICR_ISENABLER0 .| u32 (1 <<< intid)) g
  else
    let grp_reg := u32 (GICD_IGROUPR + intid / 32 * 4) in
    let mod_reg := u32 (GICD_IGRPMODR + intid / 32 * 4) in
    let bit := intid mod 32 in
    let g := mmio_write grp_reg (g grp_reg .| u32 (1 <<< bit)) g in
    let g := mmio_write mod_reg (g mod_reg .& unot 32 (u32 (1 <<< bit))) g in
    let rt_reg := u64 (GICD_IROUTER + intid * 8) in
    let g := mmio_write rt_reg 0 g in
    let g := mmio_write (u64 (rt_reg + 4)) 0 g in
    let reg := u32 (GICD_ISENABLER + intid / 32 * 4) in
    mmio_write reg (g reg .| u32 (1 <<< bit)) g.

Definition gic_count_irq (intid : Z) (irq_counts : list Z) : list Z :=
  if intid <? GIC_COUNTERS_MAX then wr irq_counts intid (u64 (rd irq_counts intid + 1)) else irq_counts.

(** What the handlers of the other interrupts do. *)
Class IrqEnv (E : Type) := {
  iq_blk_irq : E -> Z;               (* blk_get_irq *)
  iq_blk_handle : E -> E             (* blk_handle_irq *)
}.

(** ** The dispatcher *)
Record machine (E : Type) := MkMach {
  mctx : ctx E;
  mtimer : timer;
  mbench : bench;
  mframing : Framing.framing;
  mring : Uart.ring;
  irq_counts : list Z
}.
Arguments MkMach {E}. Arguments mctx {E}. Arguments mtimer {E}. Arguments mbench {E}.
Arguments mframing {E}. Arguments mring {E}. Arguments irq_counts {E}.

(** [ev_ack]: the acknowledged interrupt; [ev_fifo]: the bytes received;
    [ev_clock]: the readings of the counter; [ev_frame]: where the trap frame
    lies on the kernel stack. *)
Record event := MkEvent {
  ev_type : Z; ev_ack : Z; ev_fifo : list Z; ev_clock : Z * Z * Z * Z; ev_frame : Z
}.

(** The task returns to where it was interrupted (or to a signal handler);
    another task was switched to, and what is left of the call happens when
    the task runs again; the task has exited; the kernel has stopped.
    [Stuck] is an exhausted loop. *)
Inductive result (E : Type) :=
  Resumed (m : machine E) | Switched (m : machine E) | Gone (m : machine E) | Panicked | Stuck.
Arguments Resumed {E}. Arguments Switched {E}. Arguments Gone {E}. Arguments Panicked {E}. Arguments Stuck {E}.

Section ops.
Context {E : Type} `{TaskEnv E} `{!ClockEnv E} `{Layout} `{SysEnv E} `{IrqEnv E}.
Implicit Types m : machine E.

Definition with_ctx m (c : ctx E) : machine E :=
  MkMach c (mtimer m) (mbench m) (mframing m) (mring m) (irq_counts m).
Definition with_sched m (s : sched E) : machine E := with_ctx m (with_kern (mctx m) s).
Definition on_frame m (g : trap_frame -> trap_frame) : machine E :=
  with_ctx m (MkCtx (kern (mctx m)) (g (frame (mctx m))) (um (mctx m))).

(** The end of [exception_dispatch], for the task [t] that was interrupted. *)
Definition signal_point (t : Z) m : result E :=
  if current (kern (mctx m)) =? t then
    match signal_check_and_deliver t (mctx m) with
    | Some (Ret _, c) => Resumed (with_ctx m c)
    | Some (Exited, c) => Gone (with_ctx m c)
    | None => Stuck
    end
  else Switched m.

Definition irq_source (ev : event) (intid : Z) m : machine E :=
  let s := kern (mctx m) in
  if intid =? TIMER_PPI_INTID then
    let '(n1, n2, n3, n4) := ev_clock ev in
    let '(t, b, s) := timer_handle_irq n1 n2 n3 n4 (mtimer m, mbench m, s) in
    MkMach (with_kern (mctx m) s) t b (mframing m) (mring m) (irq_counts m)
  else if intid =? UART1_INTID then
    MkMach (mctx m) (mtimer m) (mbench m) (mframing m) (Uart.uart1_rx_isr (ev_fifo ev) (mring m)) (irq_counts m)
  else if negb (iq_blk_irq (env s) =? 0) && (intid =? iq_blk_irq (env s)) then
    with_sched m (set_env s (iq_blk_handle (env s)))
  else m.

Definition irq_entry (ev : event) m : result E :=
  let t := current (kern (mctx m)) in
  let intid := u32 (ev_ack ev) in
  if intid =? GIC_INTID_NO_PENDING then signal_point t m
  else
    let m := MkMach (mctx m) (mtimer m) (mbench m) (mframing m) (mring m) (gic_count_irq intid (irq_counts m)) in
    let m := irq_source ev intid m in
    let m := if negb (bench_irq_sampling (mbench m)) then with_sched m (schedule (kern (mctx m))) else m in
    signal_point t m.

Definition data_abort_lo m : result E :=
  let s := kern (mctx m) in
  let t := current s in
  let dfsc := u8 (ESR_ISS_DFSC (esr (frame (mctx m)))) in
  if (dfsc =? 0x05) || (dfsc =? 0x06) || (dfsc =? 0x07) then
    let '(r, s) := sched_try_grow_stack t (far (frame (mctx m))) s in
    if negb (r =? 0) then signal_point t (with_sched m s) else Gone (with_sched m (task_exit s))
  else Gone (with_sched m (task_exit s)).

Definition exception_dispatch (ev : event) m : result E :=
  let s := kern (mctx m) in
  let t := current s in
  let f := frame (mctx m) in
  let ec := ESR_EC (esr f) in
  if ev_type ev =? EXCEPTION_SYNC then
    if ec =? EC_SVC_AARCH64 then
      match syscall_dispatch (ev_frame ev) (mctx m) with
      | (Ret _, c) => signal_point t (with_ctx m c)
      | (Exited, c) => Gone (with_ctx m c)
      end
    else if ec =? EC_DATA_ABORT_CUR then
      let '(swallowed, elr', fr) := Framing.framing_probe_abort (far f) (elr f) (mframing m) in
      if swallowed then
        signal_point t
          (MkMach (MkCtx s (set_elr elr' f) (um (mctx m))) (mtimer m) (mbench m) fr (mring m) (irq_counts m))
      else Panicked
    else if ec =? EC_DATA_ABORT_LO then data_abort_lo m
    else if ec =? EC_INST_ABORT_CUR then Panicked
    else if ec =? EC_INST_ABORT_LO then Gone (with_sched m (task_exit s))
    else if ec =? EC_BRK then signal_point t (on_frame m (fun f => set_elr (u64 (elr f + 4)) f))
    else Panicked
  else if ev_type ev =? EXCEPTION_IRQ then irq_entry ev m
  else Panicked.
End ops.

(** ** The invariant of the kernel

    The invariant of the scheduler, and signal state in order for every task of
    the queue; [sig_inv] adds the frame and the memory of the running task. *)
Definition kern_inv_at {E} `{TaskEnv E} `{Layout} (s : sched E) (L D : list Z) (F : res) : Prop :=
  sched_inv s L D F /\ forall a, a ∈ IDLE :: L -> sig_ok (get s a).
Definition kern_inv {E} `{TaskEnv E} `{Layout} (F : res) (s : sched E) : Prop := exists L D, kern_inv_at s L D F.

(** What the other parts of the kernel promise to the system calls, beyond
    [SysLaws]: they keep what the tasks hold and the kernel's invariant. *)
Class SysKeeps (E : Type) `{TaskEnv E} `{Layout} `{SysEnv E} `{IrqEnv E} := {
  sk_write r t fd l e : te_ok r e -> t ∈ r_fds r -> te_ok r (sy_fd_write t fd l e).2;
  sk_ioctl r t fd cmd arg m e x m' e' :
    te_ok r e -> t ∈ r_fds r -> (forall a, is_byte (m a)) -> sy_fd_ioctl t fd cmd arg m e = (x, m', e') ->
    te_ok r e' /\ forall a, is_byte (m' a);
  sk_ping r seq e : te_ok r e -> te_ok r (sy_send_ping seq e).2;
  sk_poll r e : te_ok r e -> te_ok r (sy_rx_poll e).2;
  sk_inflate r n e : te_ok r e -> te_ok r (sy_balloon_inflate n e).2;
  sk_deflate r n e : te_ok r e -> te_ok r (sy_balloon_deflate n e).2;
  sk_view r l0 e a : te_ok r e -> is_byte (sy_view l0 e a);
  sk_bench F s : kern_inv F s -> kern_inv F (sy_bench s);
  sk_blktest F k s : kern_inv F s -> kern_inv F (sy_blktest k s);
  sk_rt_demo F s : kern_inv F s -> kern_inv F (sy_rt_demo s);
  sk_rt_pi_demo F s : kern_inv F s -> kern_inv F (sy_rt_pi_demo s);
  sk_blk r e : te_ok r e -> te_ok r (iq_blk_handle e)
}.

Section kernel.
Context {E : Type} `{TaskEnvLaws E} `{!ClockEnv E} `{Layout} `{!LayoutOk E} `{SysEnv E} `{IrqEnv E} `{!SysLaws E} `{!SysKeeps E}.
Implicit Types (s : sched E) (c : ctx E) (m : machine E).

Lemma sig_ok_next v tk : sig_ok tk -> sig_ok (set_next v tk).
Proof. intros []. by constructor. Qed.
Lemma sig_ok_state st tk : sig_ok tk -> sig_ok (set_state st tk).
Proof. intros []. by constructor. Qed.
Lemma sig_ok_fresh p k u ttbr usp ksp f nm : sig_ok (fresh_task p k u ttbr usp ksp f nm).
Proof. by constructor; try (repeat constructor; done). Qed.

Lemma k_env F s e : kern_inv F s -> (forall r, te_ok r (env s) -> te_ok r e) -> kern_inv F (set_env s e).
Proof.
  intros (L & D & Hi & Hs) He. exists L, D. split; [|done]. apply inv_set_env; [done|]. apply He, (co_res _ _ _ _ (proj1 Hi)).
Qed.
Lemma k_switch s L D F :
  core s L D F -> callable s L -> (forall a, a ∈ IDLE :: L -> sig_ok (get s a)) -> kern_inv F (schedule s).
Proof.
  intros Hc Hca Hs. destruct (schedule_spec _ _ _ _ Hc Hca) as (L' & D' & Hsw & Hst & Hcase). exists L', D'.
  split; [split; [apply (sw_core _ _ _ _ _ _ _ Hsw)|done]|]. intros a Ha.
  assert (a ∈ IDLE :: L) as HaL.
  { destruct Hcase as [(_ & -> & _)|(_ & _ & L1 & L2 & -> & ->)]; [done|].
    revert Ha. rewrite !elem_of_cons, !elem_of_app, elem_of_cons. tauto. }
  eapply sig_ok_restated; [by apply (sw_rest _ _ _ _ _ _ _ Hsw)|by apply Hs].
Qed.
Lemma k_schedule F s : kern_inv F s -> kern_inv F (schedule s).
Proof. intros (L & D & Hi & Hs). eapply k_switch; [apply (proj1 Hi)|by eapply inv_callable|done]. Qed.
(** The running task changes its own record and calls the scheduler. *)
Lemma k_leave F s f :
  kern_inv F s -> (forall tk, keeps tk (f tk)) -> (forall tk, held (f tk) = held tk) ->
  (current s = IDLE -> state (f (get s IDLE)) <> TASK_DEAD) -> (forall tk, sig_ok tk -> sig_ok (f tk)) ->
  kern_inv F (schedule (put s (current s) f)).
Proof.
  intros (L & D & Hi & Hs) Hk Hh Hd Hf. destruct (inv_put_current s L D F f Hi) as [Hc Hca]; [done|done|done|].
  eapply k_switch; [done|done|]. intros a Ha. rewrite get_put. case_decide; [apply Hf|]; by apply Hs.
Qed.
Lemma k_exit F s : kern_inv F s -> current s <> IDLE -> kern_inv F (task_exit s).
Proof. intros Hi Hne. apply k_leave; [done|apply keeps_set_state|done|done|apply sig_ok_state]. Qed.
Lemma k_sleep F s ms : kern_inv F s -> kern_inv F (sleep_ms ms s).
Proof.
  intros Hi. unfold sleep_ms. set (v := u64 _).
  assert (put (put s (current s) (set_sleep_until v)) (current s) (set_state TASK_SLEEPING)
          = put s (current s) (fun tk => set_state TASK_SLEEPING (set_sleep_until v tk))) as Hpp.
  { unfold put, set_tasks, upd. cbn [tasks current next_pid dead_list next_asid env]. f_equal.
    by rewrite task_at_insert_eq, insert_insert_eq. }
  change (current (put s (current s) (set_sleep_until v))) with (current s). rewrite Hpp.
  apply k_leave; [done| |done|done|].
  - intros tk. constructor; try done. intros []. by constructor.
  - intros tk []. by constructor.
Qed.
Lemma k_kill F s pid_ r s' : kern_inv F s -> sched_kill_task pid_ s = (r, s') -> kern_inv F s'.
Proof.
  intros Hk. pose proof Hk as (L & D & Hi & Hs). pose proof Hi as [Hc Hst]. rewrite (sched_kill_task_find _ _ _ _ _ Hc). cbv zeta.
  destruct (Z.eqb_spec pid_ 0); [by intros [= <- <-]|].
  destruct (sched_find_task_spec s L D F pid_ Hc) as [[-> _]|[Hin Hp]]; [by intros [= <- <-]|].
  set (t := sched_find_task pid_ s) in *. destruct (t =? 0); [by intros [= <- <-]|]. unfold kill_found.
  destruct (is_state TASK_DEAD (get s t)); [by intros [= <- <-]|].
  assert (t <> IDLE) as Hni by (intros Hq; pose proof (co_idle _ _ _ _ Hc); rewrite Hq in Hp; lia).
  destruct (Z.eqb_spec t (current s)) as [Hq|Hq]; intros [= <- <-]; [apply k_exit; [done|congruence]|].
  assert (t ∈ L) as HtL by (apply elem_of_cons in Hin as [?|?]; done).
  apply list_elem_of_split in HtL as (L1 & L2 & ->). exists (L1 ++ L2), (t :: D). split; [by apply kill_other|].
  destruct (unlink_spec s L1 t L2 D F Hc) as (_ & [_ Hr] & _). intros a Ha. rewrite get_put.
  assert (sig_ok (get (unlink t s) a)) as Hx.
  { destruct (Hr a) as [v Hv]. unfold get. rewrite Hv. apply sig_ok_next, Hs.
    revert Ha. rewrite !elem_of_cons, !elem_of_app, elem_of_cons. tauto. }
  case_decide; [by apply sig_ok_state|done].
Qed.
(** A new task with a fresh record joins the queue. *)
Lemma k_joined s L D F p k u ttbr usp ksp f nm s' :
  (forall a, a ∈ IDLE :: L -> sig_ok (get s a)) -> joined s L D F (fresh_task p k u ttbr usp ksp f nm) s' -> kern_inv F s'.
Proof.
  intros Hs (L1 & L2 & t & -> & Ht & Hi & _ & _ & [v Hv] & Hg). exists (L1 ++ t :: L2), D. split; [done|].
  intros a Ha. destruct (decide (a = t)) as [->|Hne]; [rewrite Hv; apply sig_ok_next, sig_ok_fresh|].
  destruct (Hg a Hne) as [w ->]. apply sig_ok_next, Hs. revert Ha. rewrite !elem_of_cons, !elem_of_app, elem_of_cons. tauto.
Qed.
(** The environment alone has changed. *)
Lemma k_tasks F s L D s' :
  (forall a, a ∈ IDLE :: L -> sig_ok (get s a)) -> sched_inv s' L D F -> tasks s' = tasks s -> kern_inv F s'.
Proof. intros Hs Hi Ht. exists L, D. split; [done|]. unfold get in *. by rewrite Ht. Qed.
(** A creation that fails touches no task. *)
Ltac solve_failed :=
  repeat match goal with
  | |- context [let '(_, _) := ?x in _] => destruct x
  | |- context [if ?b then _ else _] => destruct b
  end; let Hr := fresh in intros [Hr <-]%pair_equal_spec; try done; exfalso; revert Hr;
  cbn [next_pid set_next_pid]; unfold s32, to_signed, wrap; case_if; dlia.
Lemma fork_failed parent fr s s' :
  0 <= next_pid s < 2 ^ 31 -> sched_fork parent fr s = (-1, s') -> tasks s' = tasks s.
Proof. intros Hn. unfold sched_fork. cbv zeta. solve_failed. Qed.
Lemma create_failed nm entry s s' :
  0 <= next_pid s < 2 ^ 31 -> sched_create_task nm entry s = (-1, s') -> tasks s' = tasks s.
Proof. intros Hn. unfold sched_create_task. cbv zeta. solve_failed. Qed.
Lemma create_kernel_failed nm entry s s' :
  0 <= next_pid s < 2 ^ 31 -> sched_create_kernel_task nm entry s = (-1, s') -> tasks s' = tasks s.
Proof. intros Hn. unfold sched_create_kernel_task. cbv zeta. solve_failed. Qed.

Lemma k_fork F s parent fr r s' :
  kern_inv F s -> next_pid s + 1 < 2 ^ 31 -> sched_fork parent fr s = (r, s') -> kern_inv F s'.
Proof.
  intros (L & D & Hi & Hs) Hlt Hf. pose proof (co_next_pid _ _ _ _ (proj1 Hi)) as Hp.
  destruct (fork_spec _ _ _ _ _ _ _ _ Hi Hlt Hf) as [[-> Hi']|(_ & k & u & l0 & f & Hj)]; [|by eapply k_joined].
  eapply k_tasks; [done|done|]. eapply fork_failed; [|exact Hf]. lia.
Qed.
Lemma k_create F s nm entry r s' :
  kern_inv F s -> next_pid s + 1 < 2 ^ 31 -> text_start_pa <= VIRT_TO_PHYS entry < user_text_end_pa ->
  sched_create_task nm entry s = (r, s') -> kern_inv F s'.
Proof.
  intros (L & D & Hi & Hs) Hlt He Hf. pose proof (co_next_pid _ _ _ _ (proj1 Hi)) as Hp.
  destruct (create_task_spec _ _ _ _ _ _ _ _ Hi Hlt He Hf) as [[-> Hi']|(_ & k & u & l0 & f & Hj)]; [|by eapply k_joined].
  eapply k_tasks; [done|done|]. eapply create_failed; [|exact Hf]. lia.
Qed.
Lemma k_create_kernel F s nm entry r s' :
  kern_inv F s -> next_pid s + 1 < 2 ^ 31 -> sched_create_kernel_task nm entry s = (r, s') -> kern_inv F s'.
Proof.
  intros (L & D & Hi & Hs) Hlt Hf. pose proof (co_next_pid _ _ _ _ (proj1 Hi)) as Hp.
  destruct (create_kernel_spec _ _ _ _ _ _ _ _ Hi Hlt Hf) as [[-> Hi']|(_ & k & Hj)]; [|by eapply k_joined].
  eapply k_tasks; [done|done|]. eapply create_kernel_failed; [|exact Hf]. lia.
Qed.

Lemma k_grow F s far r s' :
  kern_inv F s -> is_u 64 far -> sched_try_grow_stack (current s) far s = (r, s') ->
  kern_inv F s' /\ current s' = current s.
Proof.
  intros (L & D & Hi & Hs) Hf Hg.
  assert (current s' = current s) as Hcur.
  { revert Hg. unfold sched_try_grow_stack. cbv zeta. repeat match goal with
    | |- context [let '(_, _) := ?x in _] => destruct x
    | |- context [if ?b then _ else _] => destruct b
    end; by intros [= <- <-]. }
  split; [|done]. pose proof (st_cur _ _ _ (proj2 Hi)) as Hin.
  destruct (try_grow_spec s L D F (current s) far r s' Hi (or_intror Hin) Hf Hg)
    as [Hi' [[_ Ht]|(_ & _ & _ & _ & pa & _ & Ht)]]; [by eapply k_tasks|].
  exists L, D. split; [done|]. intros a Ha. unfold get. rewrite Ht.
  change (task_at (upd (tasks s) (current s) (grown s (current s) pa)) a) with (get (put s (current s) (grown s (current s) pa)) a).
  rewrite get_put. case_decide; [|by apply Hs]. destruct (Hs _ Ha). by constructor.
Qed.

(** A change of the record of a task of the queue that only concerns its
    signals. *)
Lemma k_put F s t f L D :
  kern_inv_at s L D F -> t ∈ IDLE :: L -> keeps (get s t) (f (get s t)) -> held (f (get s t)) = held (get s t) ->
  state (f (get s t)) = state (get s t) -> (sig_ok (get s t) -> sig_ok (f (get s t))) -> kern_inv_at (put s t f) L D F.
Proof.
  intros [Hi Hs] Ht Hk Hh Hst Hf. split.
  - apply put_ok; [done| |done|done|rewrite Hst; apply (st_dead _ _ _ (proj2 Hi))|].
    + revert Ht. rewrite !elem_of_cons, elem_of_app. tauto.
    + intros _. rewrite Hst. split; [by apply (st_alive _ _ _ (proj2 Hi))|done].
  - intros a Ha. rewrite get_put. case_decide; [subst; auto|auto].
Qed.

(** The timer interrupt, whatever the clock says. *)
Lemma sig_ok_woken k tk : sig_ok tk -> sig_ok (woken k tk).
Proof. intros []. unfold woken. case_if; by constructor. Qed.
Lemma sig_ok_released k tk : sig_ok tk -> sig_ok (released k tk).
Proof. intros []. unfold released. repeat case_if; by constructor. Qed.
Lemma k_timer F n1 n2 n3 n4 t b s t' b' s' :
  kern_inv F s -> timer_handle_irq n1 n2 n3 n4 (t, b, s) = (t', b', s') -> kern_inv F s'.
Proof.
  intros (L & D & Hi & Hs). unfold timer_handle_irq, tick_part.
  assert (forall t now s, kern_inv_at s L D F -> kern_inv_at (at_time t now s) L D F) as Hat.
  { intros ? ? ? [? ?]. split; [by apply at_time_inv|done]. }
  assert (kern_inv_at (if g_next_tick t <=? n2
    then signal_tick_alarms (sched_wake_sleepers (at_time (MkTimer (timer_freq t) (timer_interval t) (u64 (tick_count t + 1))
           (tick_callback t) (u64 (g_next_tick t + timer_interval t)) (cntp_cval t) (cntp_ctl t)) n2 s)) else s) L D F) as Hk.
  { case_if; [|done]. set (t1 := MkTimer _ _ _ _ _ _ _). destruct (Hat t1 n2 s (conj Hi Hs)) as [Hi0 Hs0].
    destruct (wake_sleepers_spec _ _ _ _ Hi0) as (Hi1 & _ & _ & Hg1).
    destruct (tick_alarms_spec _ _ _ _ Hi1) as (Hi2 & _ & Hg2). split; [done|].
    intros a Ha. rewrite Hg2, Hg1. rewrite (decide_True (P := a ∈ IDLE :: L)) by done. apply sig_ok_tick.
    case_decide; [by apply sig_ok_woken, Hs0|by apply Hs0]. }
  assert (forall x y e s2, kern_inv_at y L D F -> rt_tick_release (at_time x n3 y) = (e, s2) -> kern_inv F s2) as Hrel.
  { intros x y e s2 Hy Hr. destruct (Hat x n3 y Hy) as [Hi1 Hs1].
    destruct (tick_release_inv _ _ _ _ _ _ Hi1 Hr) as (Hi2 & _ & Hg). exists L, D. split; [done|].
    intros a Ha. rewrite Hg, decide_True by done. by apply sig_ok_released, Hs1. }
  destruct (g_next_tick t <=? n2); cbv zeta; destruct (rt_tick_release _) as [e s2] eqn:Hr;
    intros [= _ _ <-]; by eapply Hrel.
Qed.
(** ** System calls *)
Lemma sig_inv_iff F c :
  sig_inv F c <-> kern_inv F (kern c) /\ frame_ok (frame c) /\ (forall x, is_byte (um c x)).
Proof.
  split.
  - intros (L & D & Hi & Hs & Hf & Hm). split; [by exists L, D|done].
  - intros ((L & D & Hi & Hs) & Hf & Hm). by exists L, D.
Qed.
Lemma si_kern F c s : sig_inv F c -> kern_inv F s -> sig_inv F (with_kern c s).
Proof. rewrite !sig_inv_iff. tauto. Qed.
Lemma frame_ok_reg f i v : frame_ok f -> is_u 64 v -> frame_ok (set_reg i v f).
Proof. intros (? & ? & ?) Hv. split; [cbn; by rewrite length_wr|]. split; [by apply Forall_wr|done]. Qed.
Lemma si_finish F r c : sig_inv F c -> sig_inv F (finish r c).2.
Proof.
  rewrite !sig_inv_iff. intros (? & ? & ?). split; [done|]. split; [|done]. apply frame_ok_reg; [done|apply u64_range].
Qed.

(** The ledger of the tasks, for calls that work on the fd table of the caller. *)
Lemma si_env F c L D e :
  sig_inv_at c L D F -> te_ok (tasks_res (tasks (kern c)) (L ++ D) ⋆ F) e -> sig_inv F (with_kern c (with_env (kern c) e)).
Proof. intros (Hi & Hs & Hf & Hm) Hok. exists L, D. split; [by apply inv_set_env|done]. Qed.
Lemma si_on_env F c L D r :
  sig_inv_at c L D F -> te_ok (tasks_res (tasks (kern c)) (L ++ D) ⋆ F) r.2 -> sig_inv F (on_env c r).2.
Proof. intros. by apply si_finish, (si_env _ _ L D). Qed.

Lemma put_bytes_byte p l (mm : mem) x : Forall is_byte l -> is_byte (mm x) -> is_byte (put_bytes p l mm x).
Proof. intros. unfold put_bytes. case_if; [by apply rd_byte|done]. Qed.

Lemma ping_loop_ok R n seq e : te_ok R e -> te_ok R (ping_loop n seq e).2.
Proof.
  revert e. induction n as [|n IH]; intros e Hok; cbn [ping_loop]; [done|]. pose proof (sk_poll R e Hok) as Hp.
  destruct (sy_rx_poll e) as [[k buf] e1]. cbn [snd] in Hp. destruct (ping_reply _ _ _); [done|by apply IH].
Qed.
Lemma net_ping_ok R a e : te_ok R e -> te_ok R (sys_net_ping a e).2.
Proof.
  intros Hok. unfold sys_net_ping. pose proof (sk_ping R (u16 a) e Hok) as Hp. destruct (sy_send_ping _ e) as [sent e1].
  cbn [snd] in Hp. case_if; [done|by apply ping_loop_ok].
Qed.
Lemma balloon_ok R a b e : te_ok R e -> te_ok R (sys_balloon a b e).2.
Proof. intros. unfold sys_balloon. repeat case_if; try done; [by apply sk_inflate|by apply sk_deflate]. Qed.

Lemma kill_inv F c a b r s' : sig_inv F c -> sys_kill a b (kern c) = (r, s') -> sig_inv F (with_kern c s').
Proof.
  intros Hi. pose proof (proj1 (proj1 (sig_inv_iff _ _) Hi)) as Hk. unfold sys_kill. cbv zeta. case_if.
  { destruct (sched_kill_task a (kern c)) as [x s1] eqn:Ek. pose proof (k_kill _ _ _ _ _ Hk Ek).
    case_if; intros [= <- <-]; by apply si_kern. }
  destruct Hk as (L & D & Hka). set (tgt := sched_find_task a (kern c)). case_if; [intros [= <- <-]; by apply si_kern; [|exists L, D]|].
  apply orb_false_iff in E1 as [Ht0%Z.eqb_neq _].
  case_if; [intros [= <- <-]; by apply si_kern; [|exists L, D]|]. unfold SIG_MIN, SIG_MAX. case_if; intros [= <- <-].
  2: { by apply si_kern; [|exists L, D]. }
  apply si_kern; [done|]. exists L, D. apply k_put; [done| |apply keeps_pending|done|done|].
  - destruct (sched_find_task_spec (kern c) L D F a (proj1 (proj1 Hka))) as [[Hz _]|[Hin _]]; [by destruct Ht0|done].
  - intros []. constructor; cbn; try done. apply lor_range; [lia|done|]. rewrite Z.shiftl_1_l.
    split; [apply Z.pow_nonneg; lia|]. apply Z.pow_lt_mono_r; lia.
Qed.

Lemma exec_frame_ok f args :
  frame_args f args -> is_u 64 (elr f) -> spsr f = 0 -> frame_ok f.
Proof.
  intros (Hlen & Ha & Hsp & Hlo & H0' & H1n & H1s & Hz) He Hs.
  unfold USER_STACK_TOP, Mmu.USER_STACK_TOP in *. change stack_user_lo with 8372224 in *.
  split; [done|]. split; [|unfold is_u in *; rewrite Hs; lia]. apply Forall_lookup. intros i x Hi.
  pose proof (lookup_lt_Some _ _ _ Hi). assert (x = rd (regs f) (Z.of_nat i)) as ->.
  { unfold rd. rewrite nth_lookup, Nat2Z.id, Hi. done. }
  unfold is_u. destruct (decide (i = 0%nat)) as [->|]; [change (Z.of_nat 0) with 0; rewrite H0'; lia|].
  destruct (decide (i = 1%nat)) as [->|]; [|rewrite Hz by lia; lia].
  change (Z.of_nat 1) with 1. destruct args as [|a args]; [rewrite H1n by done; lia|]. destruct H1s as [? ?]; [done|]. cbn [length] in *.
  lia.
Qed.
Lemma exec_inv F c L D p a r c' :
  sig_inv_at c L D F -> current (kern c) ∈ L -> sys_exec p a c = (r, c') -> sig_inv F c'.
Proof.
  intros (Hi & Hs & Hf & Hm) Hcur Hx. pose proof Hf as (Hlen & _).
  destruct (sys_exec_cases _ _ _ _ _ _ _ _ Hi Hcur Hlen Hx) as (Hi' & _ & [(_ & Ht & Hfr & Hum)|
    (_ & _ & args & stack & l0 & img & Hargs & _ & _ & Ht & Hum & Hfa & He & Hu & Hsp & _)]).
  - exists L, D. split; [done|]. unfold get. rewrite Ht, Hfr, Hum. done.
  - exists L, D. split; [done|]. split; [|split].
    + intros b Hb. unfold get. rewrite Ht.
      match goal with |- sig_ok (task_at (upd _ ?t ?g) b) => change (sig_ok (get (put (kern c) t g) b)) end.
      rewrite get_put. case_decide; [|by apply Hs]. destruct (Hs b Hb). by constructor.
    + apply (exec_frame_ok _ args); [done|by rewrite He|done].
    + intros x. rewrite Hum. eapply sk_view, (co_res _ _ _ _ (proj1 Hi')).
Qed.

(** Every system call keeps the invariant. *)
Lemma syscall_inv F fa c :
  sig_inv F c -> current (kern c) <> IDLE -> next_pid (kern c) + 1 < 2 ^ 31 -> sig_inv F (syscall_dispatch fa c).2.
Proof.
  intros Hi Hne Hpid. pose proof (proj1 (sig_inv_iff _ _) Hi) as (Hk & Hf & Hm). pose proof Hi as (L & D & Hat).
  pose proof (inv_current _ _ _ _ Hat) as Hcur. assert (current (kern c) ∈ L) as HcL by (apply elem_of_cons in Hcur as [?|?]; done).
  set (R := tasks_res (tasks (kern c)) (L ++ D) ⋆ F).
  assert (te_ok R (env (kern c))) as Hres by apply (co_res _ _ _ _ (proj1 (proj1 Hat))).
  set (t := fds (task_of c (current (kern c)))).
  assert (negb (t =? 0) = true -> t ∈ r_fds R) as Ht.
  { intros Hz%negb_true_iff%Z.eqb_neq. apply fds_held; [apply elem_of_app; by left|done]. }
  assert (forall r, te_ok R r.2 -> sig_inv F (on_env c r).2) as Hon by (intros; by eapply si_on_env).
  assert (forall r, sig_inv F (finish r c).2) as Hfin by (intros; by apply si_finish).
  assert (forall r s', kern_inv F s' -> sig_inv F (finish r (with_kern c s')).2) as Hks by (intros; by apply si_finish, si_kern).
  pose proof (reg_u64 (frame c)) as Hreg. unfold syscall_dispatch. cbv zeta. fold t.
  case_if. (* read *)
  { destruct (negb (t =? 0)) eqn:Et; cbn [andb]; [|done].
    destruct (user_buf_ok _ _) eqn:Eb; [|done].
    destruct (sy_fd_read _ _ _ _) as [[r bytes] e] eqn:Er. apply si_finish.
    eapply sy_read_law in Er as (Hok & Hby & _); [|exact Hres|by apply Ht|apply Hreg; done].
    destruct (si_env F c L D e Hat Hok) as (L' & D' & Hi' & Hs' & _ & _). exists L', D'. split; [done|].
    split; [done|]. split; [done|]. intros x. by apply put_bytes_byte. }
  case_if; [destruct (negb (t =? 0)) eqn:Et; cbn [andb]; [|done]; case_if; [|done]; by apply Hon, sk_write, Ht|].
  case_if; [destruct (negb (t =? 0)) eqn:Et; cbn [andb]; [|done]; case_if; [|done]; by apply Hon, te_fd_open_law, Ht|].
  case_if; [case_if; [|done]; by apply Hon, sy_close_law, Ht|].
  case_if; [by apply si_kern, k_exit|].
  case_if; [by apply Hks, k_schedule|].
  case_if; [by apply Hks, k_sleep|].
  case_if; [done|].
  case_if; [case_if; [|done]; by apply Hon, sy_seek_law, Ht|].
  case_if; [done|].
  case_if; [by apply Hon, net_ping_ok|].
  case_if.
  { destruct (sys_kill _ _ _) as [[r|] s'] eqn:Ek; [apply si_finish|]; by eapply kill_inv. }
  case_if; [destruct (sched_fork _ _ _) as [r s'] eqn:Ef; by eapply Hks, k_fork|].
  case_if; [by apply Hon, balloon_ok|].
  case_if.
  { destruct (sys_exec _ _ _) as [r c'] eqn:Ex. apply (exec_inv F c L D) in Ex; [|done|done]. case_if; [done|by apply si_finish]. }
  case_if; [by apply Hks, sk_bench|].
  case_if; [by apply Hks, sk_blktest|].
  case_if.
  { destruct (signal_sigaction _ _ _ _) as [r c'] eqn:Ea. apply si_finish. exists L, D. by eapply sigaction_inv; [|apply Hreg|]. }
  case_if; [destruct (signal_sigreturn c) as [o c'] eqn:Ea; by eapply sigreturn_inv|].
  case_if.
  { destruct (signal_sigprocmask _ _ _ _ _) as [r c'] eqn:Ea. apply si_finish. exists L, D. by eapply sigprocmask_inv. }
  case_if.
  { destruct (signal_alarm _ _ _) as [r s'] eqn:Ea. apply si_finish. eapply sig_step_inv; [done|by eapply ss_alarm]. }
  case_if.
  { destruct (negb (t =? 0)) eqn:Et; [|done]. destruct (sy_fd_ioctl _ _ _ _ _ _) as [[r mm] e] eqn:Ei. apply si_finish.
    eapply sk_ioctl in Ei as [Hok Hby]; [|exact Hres|by apply Ht|done].
    destruct (si_env F c L D e Hat Hok) as (L' & D' & Hi' & Hs' & _ & _). by exists L', D'. }
  case_if; [|done]. destruct (sys_rt _ _) as [r s'] eqn:Er. apply Hks. revert Er. unfold sys_rt.
  repeat case_if; intros [= <- <-]; [by apply sk_rt_demo|done|by apply sk_rt_pi_demo|done].
Qed.

(** ** The dispatcher keeps the invariant *)

(** What the hardware guarantees about an entry: the idle task runs in kernel
    mode and takes neither system calls nor aborts of user mode; the fault
    address is a 64-bit value; and process numbers have not run out. *)
Record entry_ok (ev : event) m : Prop := {
  eo_idle : current (kern (mctx m)) = IDLE ->
    spsr (frame (mctx m)) .& 0xF <> 0 /\
    (ev_type ev = EXCEPTION_SYNC ->
     ESR_EC (esr (frame (mctx m))) ∉ [EC_SVC_AARCH64; EC_DATA_ABORT_LO; EC_INST_ABORT_LO]);
  eo_far : is_u 64 (far (frame (mctx m)));
  eo_pid : next_pid (kern (mctx m)) + 1 < 2 ^ 31
}.

(** The events that stop the kernel: an abort in the kernel that is not the
    probe of the second UART, a synchronous exception of another class, FIQ
    and SError. *)
Definition panics (ev : event) m : Prop :=
  let f := frame (mctx m) in
  let ec := ESR_EC (esr f) in
  (ev_type ev = EXCEPTION_SYNC /\
   (ec = EC_DATA_ABORT_CUR /\
      ~ (Framing.g_probing (mframing m) = true /\ far f .& unot 64 0xFFF = Framing.UART1_VA_BASE) \/
    ec ∉ [EC_SVC_AARCH64; EC_DATA_ABORT_CUR; EC_DATA_ABORT_LO; EC_INST_ABORT_LO; EC_BRK])) \/
  ev_type ev ∉ [EXCEPTION_SYNC; EXCEPTION_IRQ].

Definition good (F : res) (r : result E) : Prop :=
  match r with
  | Resumed m | Switched m | Gone m => sig_inv F (mctx m)
  | Panicked | Stuck => False
  end.

Lemma point_good F t m :
  sig_inv F (mctx m) -> (t = IDLE -> spsr (frame (mctx m)) .& 0xF <> 0) -> good F (signal_point t m).
Proof.
  intros Hi Hidle. unfold signal_point. destruct (Z.eqb_spec (current (kern (mctx m))) t) as [<-|]; [|done].
  pose proof Hi as (L & D & Hat). destruct (inv_store _ _ _ _ Hat) as [Hin Hz].
  pose proof (proj1 (proj2 Hat) _ (inv_current _ _ _ _ Hat)) as Hs.
  pose proof (check_and_deliver_spec _ _ Hz Hin Hs) as Hsp. destruct (decide (current (kern (mctx m)) = IDLE)) as [Hq|Hq].
  - rewrite (proj2 (Z.eqb_neq _ 0) (Hidle Hq)) in Hsp. by rewrite Hsp.
  - destruct (if _ =? 0 then _ else _) as [o c'] eqn:Ho in Hsp. pose proof (deliver_inv _ _ _ _ _ _ Hat Hq Hsp) as Hi'.
    rewrite Hsp. by destruct o.
Qed.

Lemma exit_good F m : sig_inv F (mctx m) -> current (kern (mctx m)) <> IDLE -> sig_inv F (mctx (with_sched m (task_exit (kern (mctx m))))).
Proof. intros Hi Hne. apply si_kern; [done|]. apply k_exit; [|done]. by apply sig_inv_iff in Hi as [? _]. Qed.

Lemma abort_good F m :
  sig_inv F (mctx m) -> current (kern (mctx m)) <> IDLE -> is_u 64 (far (frame (mctx m))) -> good F (data_abort_lo m).
Proof.
  intros Hi Hne Hfar. unfold data_abort_lo. cbv zeta. case_if; [|by apply exit_good].
  destruct (sched_try_grow_stack _ _ _) as [r s'] eqn:Eg. pose proof (proj1 (sig_inv_iff _ _) Hi) as (Hk & _).
  destruct (k_grow _ _ _ _ _ Hk Hfar Eg) as [Hk' Hcur]. case_if.
  - apply point_good; [by apply si_kern|done].
  - cbn [good with_sched with_ctx mctx]. apply si_kern; [done|]. apply k_exit; [done|congruence].
Qed.

Lemma irq_source_good F ev intid m : sig_inv F (mctx m) -> 
  sig_inv F (mctx (irq_source ev intid m)) /\ frame (mctx (irq_source ev intid m)) = frame (mctx m).
Proof.
  intros Hi. pose proof (proj1 (sig_inv_iff _ _) Hi) as (Hk & _). unfold irq_source. cbv zeta. case_if.
  { destruct (ev_clock ev) as [[[n1 n2] n3] n4]. destruct (timer_handle_irq _ _ _ _ _) as [[t b] s'] eqn:Et.
    apply k_timer with (F := F) in Et; [|done]. split; [by apply si_kern|done]. }
  case_if; [done|]. case_if; [|done]. split; [|done]. apply si_kern; [done|]. apply k_env; [done|]. intros r. apply sk_blk.
Qed.
Lemma set_elr_ok f v : frame_ok f -> is_u 64 v -> frame_ok (set_elr v f).
Proof. intros (? & ? & ? & ? & ?) Hv. by split. Qed.

Lemma irq_good F ev m :
  sig_inv F (mctx m) -> (current (kern (mctx m)) = IDLE -> spsr (frame (mctx m)) .& 0xF <> 0) -> good F (irq_entry ev m).
Proof.
  intros Hi Hmode. unfold irq_entry. cbv zeta. case_if; [by apply point_good|].
  match goal with |- context [irq_source ev ?i ?x] =>
    destruct (irq_source_good F ev i x Hi) as [Hi' Hfr]; set (m1 := irq_source ev i x) in * end.
  case_if; apply point_good; try done.
  - apply si_kern; [done|]. apply k_schedule. by apply sig_inv_iff in Hi' as [? _].
  - cbn [mctx with_sched with_ctx with_kern frame]. by rewrite Hfr.
  - by rewrite Hfr.
Qed.

Lemma dispatch_good F ev m :
  sig_inv F (mctx m) -> entry_ok ev m ->
  (exception_dispatch ev m = Panicked /\ panics ev m) \/ (good F (exception_dispatch ev m) /\ ~ panics ev m).
Proof.
  intros Hi [Hidle Hfar Hpid]. pose proof (proj1 (sig_inv_iff _ _) Hi) as (Hk & Hf & Hm).
  assert (current (kern (mctx m)) = IDLE -> spsr (frame (mctx m)) .& 0xF <> 0) as Hmode by (intros; by apply Hidle).
  unfold exception_dispatch, panics. cbv zeta. set (f := frame (mctx m)) in *. set (ec := ESR_EC (esr f)) in *.
  destruct (Z.eqb_spec (ev_type ev) EXCEPTION_SYNC) as [Hty|Hty].
  2: { destruct (Z.eqb_spec (ev_type ev) EXCEPTION_IRQ) as [Hirq|Hirq].
       2: { left. split; [done|]. right. rewrite !not_elem_of_cons. split; [done|]. split; [done|apply not_elem_of_nil]. }
       right. split; [by apply irq_good|intros [[? _]|Hn]; [done|]; apply Hn; rewrite Hirq; right; left]. }
  assert (forall x, ec = x -> x ∈ [EC_SVC_AARCH64; EC_DATA_ABORT_LO; EC_INST_ABORT_LO] -> current (kern (mctx m)) <> IDLE) as Hlow.
  { intros x <- Hx Hq. by apply (proj2 (Hidle Hq) Hty). }
  assert (forall x, ec = x -> x ∈ [EC_SVC_AARCH64; EC_DATA_ABORT_LO; EC_INST_ABORT_LO; EC_BRK] ->
    ~ ((ev_type ev = EXCEPTION_SYNC /\ (ec = EC_DATA_ABORT_CUR /\
      ~ (Framing.g_probing (mframing m) = true /\ far f .& unot 64 0xFFF = Framing.UART1_VA_BASE) \/
      ec ∉ [EC_SVC_AARCH64; EC_DATA_ABORT_CUR; EC_DATA_ABORT_LO; EC_INST_ABORT_LO; EC_BRK])) \/
      ev_type ev ∉ [EXCEPTION_SYNC; EXCEPTION_IRQ])) as Hnp.
  { intros x -> Hx [[_ [[Hq _]|Hn]]|Hn].
    - rewrite Hq in Hx. by apply (bool_decide_unpack (EC_DATA_ABORT_CUR ∉ [EC_SVC_AARCH64; EC_DATA_ABORT_LO; EC_INST_ABORT_LO; EC_BRK])) in Hx.
    - apply Hn. revert Hx. clear. rewrite !elem_of_cons. tauto.
    - apply Hn. rewrite Hty. left. }
  destruct (Z.eqb_spec ec EC_SVC_AARCH64) as [Hec|Hsvc].
  { right. split; [|apply (Hnp _ Hec); left]. specialize (Hlow _ Hec ltac:(left)).
    pose proof (syscall_inv F (ev_frame ev) (mctx m) Hi Hlow Hpid) as Hs.
    destruct (syscall_dispatch _ _) as [[r|] c']; cbn [snd] in Hs; [|done]. by apply point_good. }
  destruct (Z.eqb_spec ec EC_DATA_ABORT_CUR) as [Hec|Hdc].
  { unfold Framing.framing_probe_abort. destruct (Framing.g_probing (mframing m)) eqn:Hpr; cbn [negb].
    2: { left. split; [done|]. left. split; [done|]. left. split; [done|]. by intros [? _]. }
    destruct (Z.eqb_spec (far f .& unot 64 0xFFF) Framing.UART1_VA_BASE) as [Hp|Hp]; cbn [negb].
    2: { left. split; [done|]. left. split; [done|]. left. split; [done|]. by intros [_ ?]. }
    right. split.
    - apply point_good; [|done]. cbn [mctx]. apply sig_inv_iff. split; [done|]. split; [|done].
      apply set_elr_ok; [done|apply u64_range].
    - intros [[_ [[_ Hn]|Hn]]|Hn]; [by apply Hn| |].
      + apply Hn. rewrite Hec. right. left.
      + apply Hn. rewrite Hty. left. }
  destruct (Z.eqb_spec ec EC_DATA_ABORT_LO) as [Hec|Hdl].
  { right. split; [|apply (Hnp _ Hec); right; left]. apply abort_good; [done| |done]. apply (Hlow _ Hec). right. left. }
  destruct (Z.eqb_spec ec EC_INST_ABORT_CUR) as [Hec|Hic].
  { left. split; [done|]. left. split; [done|]. right. rewrite Hec.
    by apply (bool_decide_unpack (EC_INST_ABORT_CUR ∉ [EC_SVC_AARCH64; EC_DATA_ABORT_CUR; EC_DATA_ABORT_LO; EC_INST_ABORT_LO; EC_BRK])). }
  destruct (Z.eqb_spec ec EC_INST_ABORT_LO) as [Hec|Hil].
  { right. split; [|apply (Hnp _ Hec); do 2 right; left]. apply exit_good; [done|]. apply (Hlow _ Hec). do 2 right. left. }
  destruct (Z.eqb_spec ec EC_BRK) as [Hec|Hbrk].
  { right. split; [|apply (Hnp _ Hec); do 3 right; left]. apply point_good; [|done].
    apply sig_inv_iff. split; [done|]. split; [|done]. apply set_elr_ok; [done|apply u64_range]. }
  left. split; [done|]. left. split; [done|]. right. rewrite !not_elem_of_cons. repeat (split; [done|]). apply not_elem_of_nil.
Qed.

(** ** Runs of the kernel

    Entries, the rest of an entry after a switch (with the frame and the
    memory of the task that runs now), user programs in between, and the
    creation of tasks. *)
Inductive kstep : machine E -> machine E -> Prop :=
| ks_entry ev m m' :
    entry_ok ev m ->
    exception_dispatch ev m = Resumed m' \/ exception_dispatch ev m = Switched m' \/ exception_dispatch ev m = Gone m' ->
    kstep m m'
| ks_resume f mm m m' :
    frame_ok f -> (forall x, is_byte (mm x)) -> (current (kern (mctx m)) = IDLE -> spsr f .& 0xF <> 0) ->
    let m1 := with_ctx m (MkCtx (kern (mctx m)) f mm) in
    signal_point (current (kern (mctx m))) m1 = Resumed m' \/ signal_point (current (kern (mctx m))) m1 = Gone m' ->
    kstep m m'
| ks_user f mm m :
    frame_ok f -> (forall x, is_byte (mm x)) -> kstep m (with_ctx m (MkCtx (kern (mctx m)) f mm))
| ks_create nm entry r s' m :
    next_pid (kern (mctx m)) + 1 < 2 ^ 31 -> text_start_pa <= VIRT_TO_PHYS entry < user_text_end_pa ->
    sched_create_task nm entry (kern (mctx m)) = (r, s') -> kstep m (with_sched m s')
| ks_create_kernel nm entry r s' m :
    next_pid (kern (mctx m)) + 1 < 2 ^ 31 ->
    sched_create_kernel_task nm entry (kern (mctx m)) = (r, s') -> kstep m (with_sched m s').

Lemma kstep_inv F m m' : sig_inv F (mctx m) -> kstep m m' -> sig_inv F (mctx m').
Proof.
  intros Hi Hst. pose proof (proj1 (sig_inv_iff _ _) Hi) as (Hk & Hf & Hm).
  destruct Hst as [ev m m' He Hd|f mm m m' Hf' Hm' Hmode m1 Hp|f mm m Hf' Hm'|nm entry r s' m Hlt He Hc|nm entry r s' m Hlt Hc].
  - destruct (dispatch_good F ev m Hi He) as [[Hp _]|[Hg _]]; destruct Hd as [Hd|[Hd|Hd]]; rewrite Hd in *; done.
  - assert (good F (signal_point (current (kern (mctx m))) m1)) as Hg.
    { apply point_good; [|done]. apply sig_inv_iff. done. }
    destruct Hp as [Hp|Hp]; rewrite Hp in Hg; done.
  - by apply sig_inv_iff.
  - apply si_kern; [done|]. by eapply k_create.
  - apply si_kern; [done|]. by eapply k_create_kernel.
Qed.

Lemma boot_inv F e f mm :
  te_ok F e -> frame_ok f -> (forall x, is_byte (mm x)) -> sig_inv F (MkCtx (sched_init (boot e)) f mm).
Proof.
  intros Hok Hf Hm. exists [], []. split; [by apply sched_init_spec|]. split; [|done]. cbn [kern].
  intros a ->%list_elem_of_singleton. unfold sched_init, boot, get. cbn [tasks set_current set_next_pid set_tasks].
  rewrite task_at_insert_eq. constructor; try done. cbn. repeat constructor; done.
Qed.

End kernel.

(** ** The interrupt controller *)

(** Enabling a shared interrupt puts it in group 1, non-secure, routes it to
    this core and enables it; no bit of another interrupt changes. *)
Lemma gic_enable_spec intid g a :
  32 <= intid < 1020 -> (forall x, is_u 32 (g x)) ->
  let k := intid / 32 * 4 in
  let bit := u32 (1 <<< (intid mod 32)) in
  gic_enable_irq intid g a =
    if a =? GICD_ISENABLER + k then g a .| bit
    else if a =? GICD_IGROUPR + k then g a .| bit
    else if a =? GICD_IGRPMODR + k then g a .& unot 32 bit
    else if (a =? GICD_IROUTER + intid * 8) || (a =? GICD_IROUTER + intid * 8 + 4) then 0
    else g a.
Proof.
  intros Hi Hg. cbv zeta. unfold gic_enable_irq. destruct (Z.ltb_spec intid 32); [lia|]. cbv zeta.
  assert (4 <= intid / 32 * 4 <= 124) as Hk by dlia.
  unfold mmio_write, GICD_ISENABLER, GICD_IGROUPR, GICD_IGRPMODR, GICD_IROUTER in *.
  rewrite !(u32_small (_ + intid / 32 * 4)), !(u64_small (_ + intid * 8)), !u64_small by lia.
  generalize dependent (intid / 32 * 4). intros k Hk.
  repeat match goal with |- context [?x =? ?y] => destruct (Z.eqb_spec x y); try lia end; cbn [orb]; subst; try done.
Qed.
(** The counter of an interrupt goes up by one, the others stay. *)
Lemma gic_count_spec intid counts j :
  length counts = 256%nat -> 0 <= intid -> 0 <= j < 256 ->
  rd (gic_count_irq intid counts) j = if j =? intid then u64 (rd counts intid + 1) else rd counts j.
Proof.
  intros Hl Hi Hj. unfold gic_count_irq, GIC_COUNTERS_MAX. destruct (Z.eqb_spec j intid) as [->|Hne].
  - destruct (Z.ltb_spec intid 256); [|lia]. rewrite rd_wr_eq by lia. done.
  - case_if; [by rewrite rd_wr_ne by lia|done].
Qed.

(** The page below the stack is always reported as user code or data: the text
    for a stack overflow is never chosen. *)
Lemma va_classify_no_overflow far :
  8368128 <= far < 8372224 -> Text.va_classify_user far = Text.va_classify_user 0x400000.
Proof.
  intros Hf. unfold Text.va_classify_user.
  change (u64 (USER_STACK_TOP - Mmu.USER_STACK_PAGES * 0x1000)) with 8372224. unfold Mmu.USER_TEXT_BASE.
  repeat case_if; done || lia.
Qed.

(** ** A concrete run *)
#[global] Instance demo_clock : ClockEnv (bump * mem).
Proof.
  refine {| ck_set f k n e := (MkBump (brk e.1) (pbrk e.1) k n f, e.2) |}; try done.
Defined.
#[global] Instance demo_irq : IrqEnv (bump * mem) := {| iq_blk_irq _ := 0; iq_blk_handle e := e |}.
#[global] Instance demo_layout_mem : LayoutOk (bump * mem).
Proof.
  constructor; [done| |by vm_compute].
  intros r e (_ & HF & _) Hin. rewrite Forall_forall in HF. specialize (HF _ Hin). cbn in HF. lia.
Qed.
#[global] Instance demo_keeps : SysKeeps (bump * mem).
Proof.
  constructor; try done.
  - intros r t fd cmd arg m e x m' e' Hok _ Hm. cbn [sy_fd_ioctl demo_sys]. by intros [= <- <- <-].
  - intros r l0 e a _. apply u8_range.
Qed.

Notation demo_start :=
  (MkMach (MkCtx (sched_init (boot (MkBump 16 4096 0 0 62500000, (fun _ => 0) : mem))) demo_frame (fun _ => 0))
     (MkTimer 62500000 625000 0 0 625000 625000 1) (MkBench false 0 [])
     (Framing.MkFraming (Framing.MkStats 0 0 0 0) 100 false false false false [] [])
     (Uart.MkRing (replicate 256 0) 0 0) (replicate 256 0)).
Definition demo_created : sched (bump * mem) := (sched_create_task [117] 0xFFFF000040080400 (kern (mctx demo_start))).2.
Definition demo_ready : machine (bump * mem) := with_sched demo_start demo_created.
Lemma demo_frame_ok : frame_ok demo_frame.
Proof. split; [reflexivity|]. split; [check_words|]. vm_compute. repeat split; discriminate || reflexivity. Qed.


(** An undefined instruction of a user program (exception class 0) stops the
    kernel. *)
Example undefined_instruction_panics :
  exception_dispatch (MkEvent EXCEPTION_SYNC 0 [] (0, 0, 0, 0) 0) demo_ready = Panicked.
Proof. by vm_compute. Qed.
End Exception.
